(* ===== verification/_CoqProject ===== *)
-Q . S2P
Prelude.v
GoText.v
GoFloat.v
Paths.v
Sha256.v
Json.v
StrictJson.v
Externals.v
Mpc2of3.v
ApprovalWire.v
SigningPolicy.v
FileSystem.v
Publish.v
Journal.v
JournalProofs.v
JournalInit.v
JournalInitProofs.v
Router.v
RouterProofs.v
GoTime.v
RawJson.v
Monolith.v
MonolithProofs.v
Bundle.v
BundleFixtures.v
BundleProofs.v
ShareStore.v
ShareStoreProofs.v
Terminal.v
TerminalProofs.v
Reconcile.v
ReconcileProofs.v
Lifecycle.v
LifecycleProofs.v
SignGate.v
SignGateProofs.v
IntentValidation.v
Session.v
SessionProofs.v
Scheduler.v
SchedulerProofs.v
Dispatcher.v
DispatcherProofs.v
Config.v
ConfigProofs.v
Dkg.v
DkgProofs.v
Transport.v
TransportProofs.v
Preparams.v
Metrics.v
Startup.v
StartupProofs.v
Resources.v
ResourcesProofs.v
Wiring.v
WiringProofs.v
