(* ===== verification/Prelude.v ===== *)
(** * The MPC co-signer: a verification library

    The program ([src/cmd/co-signer], [src/internal]) is the customer's half of a 2-of-3
    threshold signer.  It discovers work at a backend, generates key shares together with
    the platform (DKG) and keeps two encrypted artifacts of each key, decides approval
    requests, and takes part in signing (SIGN) only what was approved and what its policy
    allows.  This library translates its own logic into definitions, operation by operation,
    and proves what makes each component correct.

    ** The components and where they are modelled

    Foundations.  [Prelude] (this file): errors as Go values ([error], [errors_is]), Go's
    [(T, error)] results ([res]), machine integers, time, the tactics and the hint database
    [cosigner].  [GoText]: strings, hexadecimal, base64, UTF-8, numbers, sorting.
    [GoFloat]: float64 as binary64.  [Sha256]: SHA-256
    as an executable function.  [Json]: encoding/json's lexer, printer and their round trip.
    [RawJson]: raw members.  [GoTime]: RFC 3339.  [Externals]: the code outside the
    repository (JCS, curves, signatures, AES-GCM, base58, the MPC core library) as a class
    of functions, with a toy instance on which the witnesses evaluate.

    [StrictJson] is internal/strictjson; [Mpc2of3] is internal/contract/mpc2of3 (digests,
    the JCS gate, key descriptors, terminal results); [ApprovalWire] is
    internal/contract/approval (authorizations, pending pages, receipts, decisions);
    [SigningPolicy] is internal/signingpolicy (policy contexts and the byte-level checks of
    prepared Ethereum and TRON transfers; the RLP and protocol-buffer codecs are the class
    [TxCodecs]).  [Bundle] and [BundleProofs] are internal/contract/bundle, the corpora of
    internal/contract/approval/corpus.go and internal/signingpolicy/corpus.go, and
    cmd/mpc-contracts: the verification of the fixtures the contracts were agreed on, over a
    tree given by its reads; [BundleFixtures] holds the repository's own signer and HTTP
    bundles, which the model accepts under the code's own pins.

    [Paths] is path/filepath.  [FileSystem] is the world of the durable components: visible
    and durable directory entries, unflushed contents, directories and links, a schedule of
    faults that makes any system call fail before or after its effect, and crashes.
    [Publish] proves publication without replacement once for both its users.  [Journal] and
    [JournalProofs] are internal/approval's evidence journal (journal.go, journal_read.go,
    journal_records.go, files.go, fs_unix.go, fs_linux.go): one definition per operation, in
    the state-and-error monad of that world, and an abstract journal that it refines.
    [JournalInit] and [JournalInitProofs] are its opening (journal_init.go, the probe, the
    directory checks of config.go, the lock of internal/lifecycle/lock_unix.go).
    [ShareStore] and [ShareStoreProofs] are internal/sharestore: store configuration, the
    artifact envelope, publication, inspection, the capability probe, the active-pair
    registration and the routing of shares.  Publication is written against the operations of
    a platform, as publisher.go is; the class [PublishLaws] states what it relies on, and the
    operations of fs_linux.go and fs_darwin.go implement it.

    [Monolith] and [MonolithProofs] are internal/monolith, the backend client: the wire types
    with their decoders, the lifecycle projection, listings, claims, results and the signed,
    retried exchange over a script of responses.  [Router] and [RouterProofs] are
    internal/localrouter: frame validation and the routing of frames between the platform and
    the two local parties, as interleaved atomic sections.  [Transport] and [TransportProofs]
    are internal/transport: the poller, [Dispatch], [Close] and the core's calls as
    interleaved steps.  [Terminal] and [TerminalProofs] are internal/terminal: result jobs,
    the retry policy, the publication loop over a script of rounds and the single publication
    slot.  [Reconcile] and [ReconcileProofs] are internal/reconcile: the decision at startup,
    against the class [ArtifactStore], which the stores of [ShareStore] implement.
    [Lifecycle] and [LifecycleProofs] are internal/lifecycle and internal/health: the main
    goroutine, the publisher's goroutine and callback, the scheduler's return and the end of
    the context as interleaved steps, and the health response.
    [Preparams] is internal/preparams: observers and the job of the controller.

    internal/worker is [IntentValidation] (the checks of a claimed intent), [Session] and
    [SessionProofs] (one session from claim to result, over scripted answers), [Scheduler]
    and [SchedulerProofs] (the polling loop, permits, reservations and sessions as
    interleaved steps), [Dkg] and [DkgProofs] (the coordinator of the two local parties) and,
    with internal/approval/sign_gate.go, [SignGate] and [SignGateProofs] (the gate every
    signature passes).  [Dispatcher] and [DispatcherProofs] are the approval dispatcher
    (dispatcher.go, external.go), each call of which is logged with its answer.  [Config] and
    [ConfigProofs] are internal/config.  [Metrics] is
    internal/metrics.  [Startup] and [StartupProofs] are the helpers of cmd/co-signer
    (runtime_helpers.go, build_identity.go, free_space_unix.go); [Resources] and
    [ResourcesProofs] are resources.go, the opening of the approval worker included, and the
    order of main.go, over the file system and the calls whose effect outlives a step.  [Wiring] and [WiringProofs] are lifecycle.go: the
    closures over the resources that the lifecycle calls, and the process that results, in
    which coordinator, publisher, scheduler and background goroutines interleave.

    How they call each other: the configuration names the stores; the resources open and
    probe them, start the pool of pre-parameters and open the approval worker, which opens
    the journal of the primary store and runs the dispatcher over it.  The lifecycle runs
    reconciliation, which lists and claims through the client, inspects the stores and builds
    a terminal job; the publisher slot delivers it and its callback reopens admission.  The
    scheduler reserves permits and starts sessions; a SIGN session validates its intent,
    passes the gate, which binds the execution in the journal, and runs the core over the
    transport; a DKG session runs the coordinator, whose parties exchange frames through the
    router and save shares through the routing writer.  The dispatcher stores in the journal
    what the wire boundary parsed and delivers it.

    ** What the theorems show

    Only what was approved is signed, once.  A core run of a SIGN session happens only on a
    claim that passed every check and the gate ([session_signs_authorized]); the gate lets a
    request through only with an applied approval, for one execution, whatever other users of
    the journal do in between ([authorizeSign_once]); verified transfers move exactly the
    approved amount to the approved recipient within the fee cap ([SigningPolicy]); accepted
    receipts, authorizations, descriptors and intents satisfy their contracts
    ([ApprovalWire], [StrictJson], [IntentValidation]).

    Evidence is permanent.  A managed journal is bound to the primary store and cannot be
    exchanged by configuration, faults or crashes, so a request has one execution over the
    lifetime of the installation ([managed_open_sound], [managed_execution_unique]); every
    journal operation implements its abstract step durably, and loaded evidence stays
    ([JournalProofs]); artifacts are written whole, once, are authentic and readable for ever
    after ([ShareStoreProofs]).  The dispatcher delivers nothing it has not saved over
    its whole run, handles each item of an accepted page once and in order, and goes on only
    from what the journal took ([DispatcherProofs]).

    Concurrency.  Messages are routed once, to their destination, without equivocation
    ([RouterProofs]), and delivered to the core in ascending order under a session that
    follows the last one seen ([TransportProofs]).  At most the permitted sessions run and a
    permit is given back exactly once ([SchedulerProofs], [session_permit]).  A DKG reports
    success only when both parties agree, and gives back whatever it took ([DkgProofs]).
    Pre-parameter jobs exclude one another and generation ([preparams_job]).  Results are
    published until a response settles them, and the outcome is the one that its body names
    ([TerminalProofs]); claims are bound to their intent
    and a failed claim is classified as unknown unless it was refused ([MonolithProofs]).

    Startup and shutdown.  A loaded configuration is well formed, and its journal is apart from
    both stores wherever they will be in the file system ([Load_sound]); a signing key
    survives its text forms ([decodePrivateKey_roundtrip]); whatever fails while the resources
    open, nothing that was started stays behind, and a process without its provisioning
    capability starts but never provisions ([resources_owned]); the inventory behind readiness
    is counts ([artifactInventory_spec]) and metrics stay within their contract
    ([registry_bounded]).  Startup never reports a key it does not hold ([ReconcileProofs]).  Readiness, lock and admission
    keep their invariants under every interleaving, and shutdown terminates, without the
    backend's help, because it cancels the context of the publisher and of the scheduler
    ([LifecycleProofs]), with no session left when its drain succeeded ([drain_exclusive]).
    The closures fit the lifecycle: none is called on resources that are not there, a DKG
    is launched only after admission was opened for it, and an ended process serves nothing
    and has no goroutine left, nor has it sessions once the lock is released
    ([process_safe]).  Two theorems exhibit schedules in which the
    lifecycle goes wrong: [admission_reopened_by_late_confirmation], and
    [confirmation_races_start], in which a confirmation during [Start] is lost or readiness is.

    Fixtures.  The pins of the bundles fix their files up to a SHA-256 collision
    ([bundles_pinned]), the HTTP fixtures describe one key generation, the claim that of the
    listing's pending entry ([HTTP_fixtures_bound]), and a corpus passes exactly when every item behaves as it
    announces ([VerifyPreparedCorpus_spec], [VerifyCorpus_sound]).

    ** Bounds and fuel

    The JSON lexer and the token walk take the length of their input as fuel, which the round
    trip and the walk's specification show to be enough; the walk to the ancestors of a path
    and the terms of a duration take the length of the text ([canonical_fuel],
    [duration_terms_fuel]).  The retry loops of the client and of the publisher run over a
    list of environment rounds: the client's theorem bounds the requests it makes and shows
    that it returns; the publisher's shows that it returns at the first settling response,
    however late.  The gate's wait reads a script of calls and timers and returns the first
    other answer of the gate ([authorizeSign_returns]); the parties of a DKG return once both
    core calls have ([runParties_returns]).  A session loops over
    scripts of tries, each with what the context said, and the dispatcher's step over the
    items of a listing, with answers that are functions of the number of answers given.
    Sequence numbers, attempt counters and durations are kept at their width with their
    wrap-around.

    ** Not modelled

    The sockets of the health server and logging, on which no decision depends; the
    observations of metrics inside the other components' models; the journal's file
    operations on platforms other than Linux, which replace the flush of a file (Darwin) or
    refuse everything.  Parameters of the model are the code outside the repository ([Externals], the transaction codecs, the MPC
    core's answers), gzip and PEM, [strconv.ParseFloat], the backoff's floating-point product, and what
    flock, the clocks, the contexts and the random sources say.  The zeroing of buffers and
    goroutine scheduling inside a single critical section are not represented. *)
From stdpp Require Import base tactics option list gmap strings numbers.
From Stdlib Require Import ZArith Lia Ascii String.

(** * Notations of the development *)

Declare Scope go_scope.
Delimit Scope go_scope with go.
#[global] Open Scope go_scope.

(** Equality tests on Go strings, as the code writes [==] and [!=]. *)
Notation "a =s b" := (String.eqb a b) (at level 70) : go_scope.
Notation "a <>s b" := (negb (String.eqb a b)) (at level 70) : go_scope.

(** A Go [string] and a Go [[]byte] are both sequences of bytes; conversion
    between them copies the bytes and changes nothing, so one type models both. *)
Abbreviation bytes := string.

Definition zlen (s : string) : Z := Z.of_nat (String.length s).

Definition char (n : N) : ascii := ascii_of_N n.
Definition code (c : ascii) : N := N_of_ascii c.

(** * Errors *)

(** The package-level error variables, which the code recognises with
    [errors.Is]. *)
Inductive sentinel :=
  | Canceled | DeadlineExceeded
  | ErrNotExist | ErrExist | ErrShortWrite
  | ErrIntegrity | ErrConflict
  | ErrPrepared | ErrApprovalApplicationPending
  | ErrInvalidFrame | ErrDuplicateFrame | ErrFrameConflict
  | ErrUnsupportedParty | ErrRouterClosed | ErrQueueOverflow
  | ErrTransportClosed | ErrInvalidFrameRoute | ErrAlreadyDispatched
  | ErrAlreadyClaimed | ErrNotFound | ErrClaimOutcomeUnknown
  | ErrTerminalConflict | ErrSignClaimRejected | ErrClaimEnvelopeInvalid
  | ErrInvalidLifecycle | ErrInvalidApprovalCursor
  | ErrPublisherNotStarted | ErrPublisherAlreadyStarted
  | ErrPublisherSlotOccupied
  | ErrArtifactExists | ErrArtifactBinding | ErrUnsupportedPublishPlatform
  | ErrPairNotRegistered | ErrPairAlreadyRegistered
  | ErrPersistenceContextMismatch
  | ErrShareNotFound | ErrInvalidSharePayload | ErrMetadataMismatch
  | ErrInvalidSessionDescriptor | ErrLocalPartyRequired
  | ErrTransportRequired | ErrKeyIDRequired | ErrDigestMissing
  | ErrChainCodeMissing | ErrChainCodeInvalid | ErrDerivationContextRequired
  | ErrInvalidDerivationContext | ErrUnsupportedDerivationScheme
  | ErrDerivedSigningUnsupported | ErrDerivationPathInvalid
  | ErrDerivationContextMismatch | ErrUnsupportedAlgorithmCurve
  | ErrMissingDKGPublicKey
  | ErrInvalidIntent | ErrAlreadyExpired | ErrMPCProtocol | ErrClaimCleanup
  | ErrInvalidDKGContext | ErrDKGEvidenceMismatch
  | ErrJobAlreadyActive | ErrLockHeld.

#[global] Instance sentinel_eq_dec : EqDecision sentinel.
Proof. solve_decision. Defined.

(** An [error] value: a sentinel, a fresh [errors.New], an HTTP status of the
    backend client, the authoritative status of a conflicting result, a [%w]
    wrapping, or an [errors.Join]. *)
Inductive error :=
  | ESent (s : sentinel)
  | ENew (msg : string)
  | EStatus (code : Z) (body : string)
  | EConflict (authoritative : string)
  | EWrap (msg : string) (e : error)
  | EJoin (es : list error).

(** [errors.Is]. *)
Fixpoint errors_is (e : error) (s : sentinel) : bool :=
  match e with
  | ESent t => bool_decide (t = s)
  | ENew _ | EStatus _ _ => false
  | EConflict _ => bool_decide (ErrTerminalConflict = s)
  | EWrap _ e => errors_is e s
  | EJoin es => existsb (fun e => errors_is e s) es
  end.

(** [errors.Is] on a possibly nil error. *)
Definition is_err (e : option error) (s : sentinel) : bool :=
  match e with Some e => errors_is e s | None => false end.

(** [errors.Join]: nil operands are dropped, and all-nil joins to nil. *)
Definition errors_join (es : list (option error)) : option error :=
  match omap id es with
  | [] => None
  | es => Some (EJoin es)
  end.

(** * Results: Go's [(T, error)] pairs where the value is unused on error *)

Inductive res (A : Type) :=
  | Ok (a : A)
  | Fail (e : error).
Arguments Ok {A} a.
Arguments Fail {A} e.

#[global] Instance res_ret : MRet res := fun A a => Ok a.
#[global] Instance res_bind : MBind res :=
  fun A B f m => match m with Ok a => f a | Fail e => Fail e end.
#[global] Instance res_fmap : FMap res :=
  fun A B f m => match m with Ok a => Ok (f a) | Fail e => Fail e end.

(** The error part of a result. *)
Definition err_of {A} (r : res A) : option error :=
  match r with Ok _ => None | Fail e => Some e end.

(** An error-only Go result as a [res unit]. *)
Definition lift_err (e : option error) : res unit :=
  match e with None => Ok () | Some e => Fail e end.

(** [if bad then return err]. *)
Definition ensure (ok : bool) (e : error) : res unit :=
  if ok then Ok () else Fail e.

Definition of_option {A} (o : option A) (e : error) : res A :=
  match o with Some a => Ok a | None => Fail e end.

Definition is_ok {A} (r : res A) : bool := match r with Ok _ => true | Fail _ => false end.

Lemma is_ok_ex {A} (r : res A) : is_ok r = true -> exists a, r = Ok a.
Proof. destruct r; [eauto|done]. Qed.

Lemma bind_Ok {A B} (m : res A) (f : A -> res B) b :
  (m ≫= f) = Ok b <-> exists a, m = Ok a /\ f a = Ok b.
Proof. destruct m; split; naive_solver. Qed.

Lemma ensure_Ok ok e u : ensure ok e = Ok u <-> ok = true.
Proof. destruct ok, u; naive_solver. Qed.

Lemma lift_err_Ok e u : lift_err e = Ok u <-> e = None.
Proof. destruct e, u; naive_solver. Qed.

Lemma of_option_Ok {A} (o : option A) e a : of_option o e = Ok a <-> o = Some a.
Proof. destruct o; naive_solver. Qed.

Lemma err_of_None {A} (r : res A) : err_of r = None <-> exists a, r = Ok a.
Proof. destruct r; naive_solver. Qed.

Create HintDb cosigner.
#[export] Hint Rewrite @bind_Ok @ensure_Ok @lift_err_Ok @of_option_Ok : cosigner.

(** Splits hypotheses of the shape [m ≫= f = Ok b], and guards, into the
    equations that made every early return fall through. *)
Ltac inv_ok :=
  repeat match goal with
  | H : Ok _ = Ok _ |- _ => injection H as H; try subst
  | H : Ok _ = Fail _ |- _ => discriminate H
  | H : Fail _ = Ok _ |- _ => discriminate H
  | H : mret _ = Ok _ |- _ => unfold mret, res_ret in H
  | H : (_ ≫= _) = Ok _ |- _ => apply bind_Ok in H as (? & ? & H)
  | H : ensure _ _ = Ok _ |- _ => apply ensure_Ok in H
  | H : lift_err _ = Ok _ |- _ => apply lift_err_Ok in H
  | H : of_option _ _ = Ok _ |- _ => apply of_option_Ok in H
  end.

(** Reduces boolean conjunctions and negations in the context. *)
Ltac split_bools :=
  repeat match goal with
  | H : _ && _ = true |- _ => apply andb_true_iff in H as [? ?]
  | H : _ || _ = false |- _ => apply orb_false_iff in H as [? ?]
  | H : negb _ = true |- _ => apply negb_true_iff in H
  | H : negb _ = false |- _ => apply negb_false_iff in H
  | H : (_ =s _) = true |- _ => apply String.eqb_eq in H
  | H : (_ =s _) = false |- _ => apply String.eqb_neq in H
  | H : bool_decide _ = true |- _ => apply bool_decide_eq_true in H
  | H : bool_decide _ = false |- _ => apply bool_decide_eq_false in H
  | H : (_ =? _)%Z = true |- _ => apply Z.eqb_eq in H
  | H : (_ =? _)%Z = false |- _ => apply Z.eqb_neq in H
  | H : (_ <? _)%Z = true |- _ => apply Z.ltb_lt in H
  | H : (_ <? _)%Z = false |- _ => apply Z.ltb_ge in H
  | H : (_ <=? _)%Z = true |- _ => apply Z.leb_le in H
  | H : (_ <=? _)%Z = false |- _ => apply Z.leb_gt in H
  end.

(** The same for comparisons of [N]. *)
Ltac split_bools_N :=
  split_bools; repeat match goal with
  | H : (_ =? _)%N = true |- _ => apply N.eqb_eq in H
  | H : (_ =? _)%N = false |- _ => apply N.eqb_neq in H
  | H : (_ <? _)%N = true |- _ => apply N.ltb_lt in H
  | H : (_ <? _)%N = false |- _ => apply N.ltb_ge in H
  | H : (_ <=? _)%N = true |- _ => apply N.leb_le in H
  | H : (_ <=? _)%N = false |- _ => apply N.leb_gt in H
  end.

(** Case analysis on the first test of a hypothesis about an early-return
    chain, keeping the branches that are not contradictory. *)
Ltac step_if H :=
  match type of H with
  | (if ?b then _ else _) = _ =>
      let E := fresh "E" in destruct b eqn:E; try discriminate H
  | match ?x with _ => _ end = _ =>
      let E := fresh "E" in destruct x eqn:E; try discriminate H
  end.

(** Case analysis on every test of a hypothesis, innermost first. *)
Ltac split_matches H :=
  repeat match type of H with
  | context [match ?x with _ => _ end] =>
      lazymatch x with context [match _ with _ => _ end] => fail | _ => idtac end;
      let E := fresh "E" in destruct x eqn:E; try discriminate H
  end.

(** Proves a decidable closed proposition by evaluating its decision procedure. *)
Ltac by_eval := apply (bool_decide_unpack _); vm_compute; exact I.

(** * Machine integers *)

Definition max_int64 : Z := 2 ^ 63 - 1.
Definition min_int64 : Z := - 2 ^ 63.
Definition max_uint64 : Z := 2 ^ 64 - 1.

(** [uint64] arithmetic wraps. *)
Definition u64 (z : Z) : Z := z mod 2 ^ 64.
Definition u32 (z : Z) : Z := z mod 2 ^ 32.

Lemma u64_small z : (0 <= z < 2 ^ 64)%Z -> u64 z = z.
Proof. intros. by apply Z.mod_small. Qed.

Lemma u64_range z : (0 <= u64 z < 2 ^ 64)%Z.
Proof. by apply Z.mod_pos_bound. Qed.
#[export] Hint Resolve u64_range : cosigner.

(** * Time *)

(** [time.Time] as nanoseconds since the Unix epoch, and [time.Duration] as
    nanoseconds; [time.Time{}] is 1 January of year 1. *)
Abbreviation time := Z.
Abbreviation duration := Z.
Definition zero_time : time := -62135596800000000000.
Definition time_is_zero (t : time) : bool := (t =? zero_time)%Z.
Definition second : duration := 1000000000.
Definition millisecond : duration := 1000000.

(** [t.After(u)], [t.Before(u)], [t.Equal(u)]. *)
Definition time_after (t u : time) : bool := (u <? t)%Z.
Definition time_before (t u : time) : bool := (t <? u)%Z.
Definition time_equal (t u : time) : bool := (t =? u)%Z.

(** [t.Sub(u)] saturates at the [int64] bounds. *)
Definition time_sub (t u : time) : duration :=
  Z.max min_int64 (Z.min max_int64 (t - u)).

(** [left == nil && right == nil || left != nil && right != nil && ...]. *)
Definition opt_time_equal (a b : option time) : bool :=
  match a, b with
  | None, None => true
  | Some a, Some b => time_equal a b
  | _, _ => false
  end.

(** * Finite checks *)

(** A boolean fact about all numbers below a constant, decided by evaluation. *)
Lemma forallb_below (P : N -> bool) (k : nat) :
  forallb P (map N.of_nat (seq 0 k)) = true ->
  forall n, (n < N.of_nat k)%N -> P n = true.
Proof.
  intros H n Hn. rewrite forallb_forall in H. apply H.
  apply in_map_iff. exists (N.to_nat n). split; [lia|].
  apply in_seq. lia.
Qed.
