(* ===== verification/GoText.v ===== *)
(** Text primitives of the Go standard library that the co-signer uses:
    [strings] (TrimSpace, ToUpper, ToLower, EqualFold, Contains), [unicode/utf8],
    [encoding/hex], [encoding/base64] and [strconv] decimals, with the round
    trips the contract files rely on. *)
From stdpp Require Import base tactics option list strings numbers pretty sorting.
From Stdlib Require Import ZArith Lia Ascii String.
From S2P Require Import Prelude.

#[local] Open Scope string_scope.
#[local] Open Scope N_scope.

(** * Bytes and ranges *)

Definition in_range (lo hi : N) (c : ascii) : bool :=
  (lo <=? code c) && (code c <=? hi).

Fixpoint str_forall (p : ascii -> bool) (s : string) : bool :=
  match s with
  | "" => true
  | String c s => p c && str_forall p s
  end.

Fixpoint str_exists (p : ascii -> bool) (s : string) : bool :=
  match s with
  | "" => false
  | String c s => p c || str_exists p s
  end.

Fixpoint str_map (f : ascii -> ascii) (s : string) : string :=
  match s with
  | "" => ""
  | String c s => String (f c) (str_map f s)
  end.

(** A string given by its byte values. *)
Fixpoint of_codes (l : list N) : string :=
  match l with
  | [] => ""
  | n :: l => String (char n) (of_codes l)
  end.

Fixpoint codes (s : string) : list N :=
  match s with
  | "" => []
  | String c s => code c :: codes s
  end.

Fixpoint strip_prefix (p s : string) : option string :=
  match p, s with
  | "", _ => Some s
  | String a p, String b s => if Ascii.eqb a b then strip_prefix p s else None
  | String _ _, "" => None
  end.

Definition has_prefix (p s : string) : bool := bool_decide (is_Some (strip_prefix p s)).
Definition has_suffix (p s : string) : bool := has_prefix (String.rev p) (String.rev s).

(** [strings.Contains]. *)
Fixpoint contains (sub s : string) : bool :=
  has_prefix sub s || match s with "" => false | String _ s => contains sub s end.

(** [s[n:]] and [s[:n]]. *)
Fixpoint str_drop (n : nat) (s : string) : string :=
  match n, s with S n, String _ r => str_drop n r | O, _ => s | S _, "" => "" end.
Fixpoint str_take (n : nat) (s : string) : string :=
  match n, s with S n, String c r => String c (str_take n r) | _, _ => "" end.

Lemma char_code c : char (code c) = c.
Proof. apply ascii_N_embedding. Qed.

Lemma code_char n : n < 256 -> code (char n) = n.
Proof. apply N_ascii_embedding. Qed.

Lemma code_bound c : code c < 256.
Proof. destruct c as [[] [] [] [] [] [] [] []]; vm_compute; reflexivity. Qed.
#[export] Hint Resolve code_bound : cosigner.

Lemma code_inj c d : code c = code d -> c = d.
Proof. intros E. by rewrite <- (char_code c), E, char_code. Qed.

(** * strings.TrimSpace *)

(** The UTF-8 encodings of the runes [unicode.IsSpace] accepts. *)
Definition white_space : list string :=
  of_codes <$>
    [[9]; [10]; [11]; [12]; [13]; [32]; [194; 133]; [194; 160];
     [225; 154; 128]; [226; 128; 128]; [226; 128; 129]; [226; 128; 130];
     [226; 128; 131]; [226; 128; 132]; [226; 128; 133]; [226; 128; 134];
     [226; 128; 135]; [226; 128; 136]; [226; 128; 137]; [226; 128; 138];
     [226; 128; 168]; [226; 128; 169]; [226; 128; 175]; [226; 129; 159];
     [227; 128; 128]].

Definition strip_any (ps : list string) (s : string) : option string :=
  foldr (fun p acc => match strip_prefix p s with Some r => Some r | None => acc end)
    None ps.

Fixpoint trim_left_with (fuel : nat) (ps : list string) (s : string) : string :=
  match fuel with
  | O => s
  | S fuel => match strip_any ps s with
              | Some r => trim_left_with fuel ps r
              | None => s
              end
  end.

Definition trim_left (ps : list string) (s : string) : string :=
  trim_left_with (String.length s) ps s.

Definition trim_space (s : string) : string :=
  let left := trim_left white_space s in
  String.rev (trim_left (String.rev <$> white_space) (String.rev left)).

(** * Case mapping *)

(** [strings.ToUpper] and [strings.ToLower] towards ASCII: besides the ASCII
    letters, the runes U+017F and U+0131 have ASCII upper case and U+212A and
    U+0130 have ASCII lower case.  The other non-ASCII runes map to non-ASCII
    runes; they are kept, since every caller compares with an ASCII word. *)
Definition upper_ascii (c : ascii) : ascii :=
  if in_range 97 122 c then char (code c - 32) else c.
Definition lower_ascii (c : ascii) : ascii :=
  if in_range 65 90 c then char (code c + 32) else c.

Fixpoint to_upper (s : string) : string :=
  match s with
  | "" => ""
  | String a ((String b r) as s1) =>
      if (code a =? 197) && (code b =? 191) then String "S" (to_upper r)
      else if (code a =? 196) && (code b =? 177) then String "I" (to_upper r)
      else String (upper_ascii a) (to_upper s1)
  | String a "" => String (upper_ascii a) ""
  end.

Fixpoint to_lower (s : string) : string :=
  match s with
  | "" => ""
  | String a s1 =>
      match s1 with
      | String b r =>
          if (code a =? 196) && (code b =? 176) then String "i" (to_lower r)
          else match r with
               | String c r' =>
                   if (code a =? 226) && (code b =? 132) && (code c =? 170)
                   then String "k" (to_lower r')
                   else String (lower_ascii a) (to_lower s1)
               | "" => String (lower_ascii a) (to_lower s1)
               end
      | "" => String (lower_ascii a) ""
      end
  end.

(** The folding that [strings.EqualFold] and [encoding/json] field matching use:
    ASCII letters fold together, U+017F folds with s and U+212A with k. *)
Fixpoint fold_case (s : string) : string :=
  match s with
  | "" => ""
  | String a s1 =>
      match s1 with
      | String b r =>
          if (code a =? 197) && (code b =? 191) then String "S" (fold_case r)
          else match r with
               | String c r' =>
                   if (code a =? 226) && (code b =? 132) && (code c =? 170)
                   then String "K" (fold_case r')
                   else String (upper_ascii a) (fold_case s1)
               | "" => String (upper_ascii a) (fold_case s1)
               end
      | "" => String (upper_ascii a) ""
      end
  end.

Definition equal_fold (s t : string) : bool := fold_case s =s fold_case t.

(** * unicode/utf8 *)

Definition cont (c : ascii) : bool := in_range 128 191 c.
Definition lead2 (a : ascii) : bool := in_range 194 223 a.
Definition lead3 (a b : ascii) : bool :=
  ((code a =? 224) && in_range 160 191 b)
  || ((in_range 225 236 a || in_range 238 239 a) && cont b)
  || ((code a =? 237) && in_range 128 159 b).
Definition lead4 (a b : ascii) : bool :=
  ((code a =? 240) && in_range 144 191 b)
  || (in_range 241 243 a && cont b)
  || ((code a =? 244) && in_range 128 143 b).

(** [utf8.Valid] and [utf8.ValidString]. *)
Fixpoint utf8_valid (s : string) : bool :=
  match s with
  | "" => true
  | String a s1 =>
      if code a <? 128 then utf8_valid s1 else
      match s1 with
      | "" => false
      | String b s2 =>
          if lead2 a && cont b then utf8_valid s2 else
          match s2 with
          | "" => false
          | String c s3 =>
              if lead3 a b && cont c then utf8_valid s3 else
              match s3 with
              | "" => false
              | String d s4 =>
                  lead4 a b && cont c && cont d && utf8_valid s4
              end
          end
      end
  end.

(** The runes a [range] loop over a string yields: U+FFFD for a byte that starts
    no valid encoding. *)
Fixpoint runes (s : string) : list N :=
  match s with
  | "" => []
  | String a s1 =>
      if code a <? 128 then code a :: runes s1 else
      match s1 with
      | "" => [65533]
      | String b s2 =>
          if lead2 a && cont b
          then (code a - 192) * 64 + (code b - 128) :: runes s2 else
          match s2 with
          | "" => 65533 :: runes s1
          | String c s3 =>
              if lead3 a b && cont c
              then (code a - 224) * 4096 + (code b - 128) * 64 + (code c - 128)
                   :: runes s3 else
              match s3 with
              | "" => 65533 :: runes s1
              | String d s4 =>
                  if lead4 a b && cont c && cont d
                  then (code a - 240) * 262144 + (code b - 128) * 4096
                       + (code c - 128) * 64 + (code d - 128) :: runes s4
                  else 65533 :: runes s1
              end
          end
      end
  end.

(** [unicode.IsControl]. *)
Definition is_control (r : N) : bool :=
  (r <=? 31) || ((127 <=? r) && (r <=? 159)).

(** The UTF-8 encoding of a code point (for JSON escapes). *)
Definition encode_rune (r : N) : string :=
  if r <? 128 then of_codes [r]
  else if r <? 2048 then of_codes [192 + r / 64; 128 + r mod 64]
  else if r <? 65536 then
    of_codes [224 + r / 4096; 128 + (r / 64) mod 64; 128 + r mod 64]
  else of_codes [240 + r / 262144; 128 + (r / 4096) mod 64;
                 128 + (r / 64) mod 64; 128 + r mod 64].

(** Every byte that starts no valid encoding becomes U+FFFD, as [encoding/json]
    does with the strings it reads and writes. *)
Definition fffd : string := of_codes [239; 191; 189].
Fixpoint sanitize (s : string) : string :=
  match s with
  | "" => ""
  | String a s1 =>
      if code a <? 128 then String a (sanitize s1) else
      match s1 with
      | "" => fffd
      | String b s2 =>
          if lead2 a && cont b then String a (String b (sanitize s2)) else
          match s2 with
          | "" => fffd +:+ sanitize s1
          | String c s3 =>
              if lead3 a b && cont c
              then String a (String b (String c (sanitize s3))) else
              match s3 with
              | "" => fffd +:+ sanitize s1
              | String d s4 =>
                  if lead4 a b && cont c && cont d
                  then String a (String b (String c (String d (sanitize s4))))
                  else fffd +:+ sanitize s1
              end
          end
      end
  end.

Lemma sanitize_valid s : utf8_valid s = true -> sanitize s = s.
Proof.
  remember (String.length s) as n eqn:Hn. revert s Hn.
  induction n as [n IH] using lt_wf_ind; intros s -> Hv.
  destruct s as [|a s1]; [done|]. cbn [sanitize utf8_valid String.length] in *.
  destruct (code a <? 128); [f_equal; refine (IH _ _ _ eq_refl Hv); lia|].
  destruct s1 as [|b s2]; [done|]. cbn [String.length] in *.
  destruct (lead2 a && cont b); [do 2 f_equal; refine (IH _ _ _ eq_refl Hv); lia|].
  destruct s2 as [|c s3]; [done|]. cbn [String.length] in *.
  destruct (lead3 a b && cont c); [do 3 f_equal; refine (IH _ _ _ eq_refl Hv); lia|].
  destruct s3 as [|d s4]; [done|]. cbn [String.length] in *.
  destruct (lead4 a b && cont c && cont d); [|done]. cbn in Hv.
  do 4 f_equal. refine (IH _ _ _ eq_refl Hv); lia.
Qed.

(** * encoding/hex *)

Definition hex_digit (n : N) : ascii :=
  if n <? 10 then char (48 + n) else char (87 + n).

(** [hex.DecodeString] accepts both cases. *)
Definition hex_value (c : ascii) : option N :=
  if in_range 48 57 c then Some (code c - 48)
  else if in_range 97 102 c then Some (code c - 87)
  else if in_range 65 70 c then Some (code c - 55)
  else None.

Fixpoint hex_encode (s : bytes) : string :=
  match s with
  | "" => ""
  | String c s =>
      String (hex_digit (code c / 16)) (String (hex_digit (code c mod 16)) (hex_encode s))
  end.

Fixpoint hex_decode (s : string) : option bytes :=
  match s with
  | "" => Some ""
  | String a (String b r) =>
      h ← hex_value a; l ← hex_value b; t ← hex_decode r;
      Some (String (char (h * 16 + l)) t)
  | String _ "" => None
  end.

Lemma hex_value_digit n : n < 16 -> hex_value (hex_digit n) = Some n.
Proof.
  intros Hn.
  pose proof (forallb_below
    (fun n => bool_decide (hex_value (hex_digit n) = Some n)) 16 eq_refl n Hn) as Hc.
  cbn beta in Hc. by split_bools.
Qed.

Lemma hex_decode_encode s : hex_decode (hex_encode s) = Some s.
Proof.
  induction s as [|c s IH]; [done|]. cbn [hex_encode hex_decode].
  pose proof (code_bound c).
  rewrite !hex_value_digit by (apply N.mod_lt || apply N.Div0.div_lt_upper_bound; lia).
  cbn [mbind option_bind]. rewrite IH. cbn [mbind option_bind].
  rewrite <- (N.mul_comm 16), <- N.Div0.div_mod, char_code. done.
Qed.

Lemma hex_encode_length s : String.length (hex_encode s) = (2 * String.length s)%nat.
Proof. induction s as [|c s IH]; cbn; lia. Qed.

(** * encoding/base64 *)

(** An alphabet and whether the encoding is padded with [=]. *)
Record b64 := { b64_chars : string; b64_padded : bool }.
Definition b64_std : b64 :=
  {| b64_chars := "ABCDEFGHIJKLMNOPQRSTUVWXYZabcdefghijklmnopqrstuvwxyz0123456789+/";
     b64_padded := true |}.
Definition b64_rawurl : b64 :=
  {| b64_chars := "ABCDEFGHIJKLMNOPQRSTUVWXYZabcdefghijklmnopqrstuvwxyz0123456789-_";
     b64_padded := false |}.

Fixpoint index_of (c : ascii) (s : string) : option N :=
  match s with
  | "" => None
  | String d s => if Ascii.eqb c d then Some 0 else N.succ <$> index_of c s
  end.

Definition b64_char (e : b64) (n : N) : ascii :=
  default "="%char (String.get (N.to_nat n) (b64_chars e)).
Definition b64_value (e : b64) (c : ascii) : option N := index_of c (b64_chars e).

Definition pad (e : b64) (s : string) : string := if b64_padded e then s else "".

(** [EncodeToString]. *)
Fixpoint b64_encode (e : b64) (s : bytes) : string :=
  match s with
  | String a (String b (String c r)) =>
      let n := code a * 65536 + code b * 256 + code c in
      String (b64_char e (n / 262144)) (String (b64_char e (n / 4096 mod 64))
        (String (b64_char e (n / 64 mod 64)) (String (b64_char e (n mod 64))
          (b64_encode e r))))
  | String a (String b "") =>
      let n := code a * 65536 + code b * 256 in
      String (b64_char e (n / 262144)) (String (b64_char e (n / 4096 mod 64))
        (String (b64_char e (n / 64 mod 64)) (pad e "=")))
  | String a "" =>
      let n := code a * 65536 in
      String (b64_char e (n / 262144)) (String (b64_char e (n / 4096 mod 64)) (pad e "=="))
  | "" => ""
  end.

(** One group of four characters, three of them, or two of them. *)
Definition b64_quad (e : b64) (a b c d : ascii) : option string :=
  v ← b64_value e a; w ← b64_value e b; x ← b64_value e c; y ← b64_value e d;
  let n := v * 262144 + w * 4096 + x * 64 + y in
  Some (of_codes [n / 65536; n / 256 mod 256; n mod 256]).
Definition b64_triple (e : b64) (strict : bool) (a b c : ascii) : option string :=
  v ← b64_value e a; w ← b64_value e b; x ← b64_value e c;
  let n := v * 262144 + w * 4096 + x * 64 in
  if strict && negb (n mod 256 =? 0) then None
  else Some (of_codes [n / 65536; n / 256 mod 256]).
Definition b64_pair (e : b64) (strict : bool) (a b : ascii) : option string :=
  v ← b64_value e a; w ← b64_value e b;
  let n := v * 262144 + w * 4096 in
  if strict && negb (n mod 65536 =? 0) then None
  else Some (of_codes [n / 65536]).

Fixpoint b64_groups (e : b64) (strict : bool) (s : string) : option bytes :=
  match s with
  | "" => Some ""
  | String a (String b (String c (String d r))) =>
      if b64_padded e && Ascii.eqb d "=" then
        match r with
        | "" => if Ascii.eqb c "=" then b64_pair e strict a b else b64_triple e strict a b c
        | _ => None
        end
      else q ← b64_quad e a b c d; t ← b64_groups e strict r; Some (q +:+ t)
  | String a (String b (String c "")) =>
      if b64_padded e then None else b64_triple e strict a b c
  | String a (String b "") =>
      if b64_padded e then None else b64_pair e strict a b
  | _ => None
  end.

(** [DecodeString]: line breaks are skipped; [Strict()] also refuses non-zero
    trailing bits. *)
Fixpoint drop_newlines (s : string) : string :=
  match s with
  | "" => ""
  | String c s => if (code c =? 10) || (code c =? 13) then drop_newlines s
                  else String c (drop_newlines s)
  end.
Definition b64_decode (e : b64) (strict : bool) (s : string) : option bytes :=
  b64_groups e strict (drop_newlines s).

(** Membership of both alphabets, by evaluation. *)
Definition b64_ok (e : b64) : Prop :=
  (forall n, n < 64 -> b64_value e (b64_char e n) = Some n
                       /\ (Ascii.eqb (b64_char e n) "=" = false)%char
                       /\ (code (b64_char e n) =? 10) = false
                       /\ (code (b64_char e n) =? 13) = false).

Lemma b64_ok_check (e : b64) :
  forallb (fun n => bool_decide (b64_value e (b64_char e n) = Some n)
                    && negb (Ascii.eqb (b64_char e n) "=")%char
                    && negb (code (b64_char e n) =? 10)
                    && negb (code (b64_char e n) =? 13))
    (map N.of_nat (seq 0 64)) = true -> b64_ok e.
Proof.
  intros H n Hn. pose proof (forallb_below _ 64 H n Hn) as Hc.
  cbn beta in Hc. split_bools. auto.
Qed.

Lemma b64_std_ok : b64_ok b64_std.
Proof. apply b64_ok_check. vm_compute. reflexivity. Qed.
Lemma b64_rawurl_ok : b64_ok b64_rawurl.
Proof. apply b64_ok_check. vm_compute. reflexivity. Qed.

Section Base64.
Context (e : b64) (He : b64_ok e).

(** The arithmetic of the three group shapes. *)
#[local] Ltac arith := Z.to_euclidean_division_equations; lia.

Lemma b64_value_char n : n < 64 -> b64_value e (b64_char e n) = Some n.
Proof using He. intros Hn. apply He, Hn. Qed.

Lemma group3_split a b c :
  a < 256 -> b < 256 -> c < 256 ->
  let n := a * 65536 + b * 256 + c in
  n / 262144 < 64 /\ n / 262144 * 262144 + n / 4096 mod 64 * 4096
    + n / 64 mod 64 * 64 + n mod 64 = n
  /\ n / 65536 = a /\ n / 256 mod 256 = b /\ n mod 256 = c.
Proof. clear He. intros; subst n. repeat split; zify; arith. Qed.

Lemma b64_quad_encode a b c :
  let n := code a * 65536 + code b * 256 + code c in
  b64_quad e (b64_char e (n / 262144)) (b64_char e (n / 4096 mod 64))
    (b64_char e (n / 64 mod 64)) (b64_char e (n mod 64))
  = Some (String a (String b (String c ""))).
Proof using He.
  intros n. pose proof (code_bound a). pose proof (code_bound b). pose proof (code_bound c).
  destruct (group3_split (code a) (code b) (code c)) as (G1 & G2 & G3 & G4 & G5); [done..|].
  fold n in G1, G2, G3, G4, G5. unfold b64_quad.
  rewrite !b64_value_char by (apply N.mod_lt || exact G1; lia).
  cbn [mbind option_bind]. rewrite G2, G3, G4, G5. cbn [of_codes].
  by rewrite !char_code.
Qed.

Lemma b64_triple_encode strict a b :
  let n := code a * 65536 + code b * 256 in
  b64_triple e strict (b64_char e (n / 262144)) (b64_char e (n / 4096 mod 64))
    (b64_char e (n / 64 mod 64)) = Some (String a (String b "")).
Proof using He.
  intros n. pose proof (code_bound a). pose proof (code_bound b).
  destruct (group3_split (code a) (code b) 0) as (G1 & G2 & G3 & G4 & G5); [lia..|].
  rewrite N.add_0_r in *. fold n in G1, G2, G3, G4, G5. unfold b64_triple.
  rewrite !b64_value_char by (apply N.mod_lt || exact G1; lia).
  cbn [mbind option_bind].
  assert (n mod 64 = 0) as G6.
  { replace n with ((code a * 1024 + code b * 4) * 64) by (subst n; lia). apply N.Div0.mod_mul. }
  rewrite G6, N.add_0_r in G2. rewrite G2, G5, N.eqb_refl, andb_false_r, G3, G4.
  cbn [of_codes]. by rewrite !char_code.
Qed.

Lemma b64_pair_encode strict a :
  let n := code a * 65536 in
  b64_pair e strict (b64_char e (n / 262144)) (b64_char e (n / 4096 mod 64))
  = Some (String a "").
Proof using He.
  intros n. pose proof (code_bound a).
  destruct (group3_split (code a) 0 0) as (G1 & G2 & G3 & G4 & G5); [lia..|].
  rewrite N.mul_0_l, !N.add_0_r in *. fold n in G1, G2, G3, G4, G5. unfold b64_pair.
  rewrite !b64_value_char by (apply N.mod_lt || exact G1; lia).
  cbn [mbind option_bind].
  assert (n / 262144 * 262144 + n / 4096 mod 64 * 4096 = n) as G6.
  { assert (n mod 64 = 0 /\ n / 64 mod 64 = 0) as [E1 E2]; [|lia].
    replace n with (code a * 1024 * 64) by (subst n; lia). rewrite N.div_mul by lia.
    replace (code a * 1024) with (code a * 16 * 64) by lia.
    split; apply N.Div0.mod_mul. }
  assert (n mod 65536 = 0) as G7 by apply N.Div0.mod_mul.
  rewrite G6, G7, N.eqb_refl, andb_false_r, G3. cbn [of_codes]. by rewrite char_code.
Qed.

Lemma b64_groups_encode strict s : b64_groups e strict (b64_encode e s) = Some s.
Proof using He.
  remember (String.length s) as k eqn:Hk. revert s Hk.
  induction k as [k IH] using lt_wf_ind; intros s ->.
  destruct s as [|a [|b [|c r]]]; [done| | |].
  - cbn [b64_encode]. unfold pad. pose proof (b64_pair_encode strict a) as HP.
    cbn [b64_groups]. destruct (b64_padded e); exact HP.
  - cbn [b64_encode]. unfold pad. pose proof (b64_triple_encode strict a b) as HT.
    destruct (He ((code a * 65536 + code b * 256) / 64 mod 64)) as (_ & Hne & _);
      [apply N.mod_lt; lia|].
    cbn [b64_groups]. destruct (b64_padded e); cbn; rewrite ?Hne; exact HT.
  - cbn [b64_encode b64_groups].
    destruct (He ((code a * 65536 + code b * 256 + code c) mod 64)) as (_ & Hne & _);
      [apply N.mod_lt; lia|].
    rewrite Hne, andb_false_r, b64_quad_encode. cbn [mbind option_bind].
    rewrite (IH (String.length r)); [done | cbn; lia | done].
Qed.
End Base64.

Section Base64RoundTrip.
Context (e : b64) (He : b64_ok e).

Lemma drop_newlines_encode s : drop_newlines (b64_encode e s) = b64_encode e s.
Proof using He.
  assert (forall n t, n < 64 -> drop_newlines (String (b64_char e n) t)
                                = String (b64_char e n) (drop_newlines t)) as Hkeep.
  { intros n t Hn. destruct (He n Hn) as (_ & _ & E1 & E2).
    cbn [drop_newlines]. by rewrite E1, E2. }
  assert (forall a b c, code a * 65536 + code b * 256 + code c < 16777216) as Hlt.
  { intros a b c. pose proof (code_bound a). pose proof (code_bound b).
    pose proof (code_bound c). lia. }
  assert (forall n, n < 16777216 -> n / 262144 < 64) as Hdiv
    by (intros; apply N.Div0.div_lt_upper_bound; lia).
  remember (String.length s) as k eqn:Hk. revert s Hk.
  induction k as [k IH] using lt_wf_ind; intros s ->.
  destruct s as [|a [|b [|c r]]]; [done| | |]; cbn [b64_encode]; unfold pad.
  - pose proof (Hlt a "000" "000")%char as Ha. cbn in Ha.
    rewrite !Hkeep by (apply N.mod_lt || apply Hdiv; lia). by destruct (b64_padded e).
  - pose proof (Hlt a b "000")%char as Ha. cbn in Ha.
    rewrite !Hkeep by (apply N.mod_lt || apply Hdiv; lia). by destruct (b64_padded e).
  - rewrite !Hkeep by (apply N.mod_lt || (apply Hdiv; auto); lia).
    rewrite (IH (String.length r)); [done | cbn; lia | done].
Qed.

(** Decoding an encoding gives back the bytes, in the strict mode too. *)
Lemma b64_decode_encode strict s : b64_decode e strict (b64_encode e s) = Some s.
Proof using He.
  unfold b64_decode. rewrite drop_newlines_encode. by apply b64_groups_encode.
Qed.

Lemma b64_encode_inj s t : b64_encode e s = b64_encode e t -> s = t.
Proof using He.
  intros E. pose proof (b64_decode_encode false s) as Hs.
  rewrite E, b64_decode_encode in Hs. congruence.
Qed.
End Base64RoundTrip.

Lemma hex_encode_inj s t : hex_encode s = hex_encode t -> s = t.
Proof.
  intros E. pose proof (hex_decode_encode s) as Hs.
  rewrite E, hex_decode_encode in Hs. congruence.
Qed.

(** * Decimal numbers *)

Definition is_digit (c : ascii) : bool := in_range 48 57 c.

Fixpoint digits_value (acc : Z) (s : string) : Z :=
  match s with
  | "" => acc
  | String c s => digits_value (acc * 10 + Z.of_N (code c - 48)) s
  end.

(** A non-empty run of decimal digits. *)
Definition parse_digits (s : string) : option Z :=
  if (s <>s "") && str_forall is_digit s then Some (digits_value 0 s) else None.

(** [new(big.Int).SetString(s, 10)]: an optional sign and digits. *)
Definition parse_big (s : string) : option Z :=
  match s with
  | String "-" r => Z.opp <$> parse_digits r
  | String "+" r => parse_digits r
  | _ => parse_digits s
  end.

(** [strconv.ParseInt(s, 10, 64)] and [strconv.ParseUint(s, 10, 64)]. *)
Definition parse_int64 (s : string) : option Z :=
  z ← parse_big s;
  if (min_int64 <=? z)%Z && (z <=? max_int64)%Z then Some z else None.
Definition parse_uint64 (s : string) : option Z :=
  z ← parse_digits s; if (z <=? max_uint64)%Z then Some z else None.

(** [strconv.FormatUint], [big.Int.String] and [%d]. *)
Definition format_int (z : Z) : string := pretty.pretty z.

(** * Concatenation *)

Lemma sapp_nil s : "" +:+ s = s.
Proof. done. Qed.
Lemma sapp_cons c s t : String c s +:+ t = String c (s +:+ t).
Proof. done. Qed.
Lemma sapp_nil_r s : s +:+ "" = s.
Proof. induction s as [|c s IH]; [done|]. rewrite sapp_cons. by f_equal. Qed.
Lemma sapp_assoc s t u : (s +:+ t) +:+ u = s +:+ (t +:+ u).
Proof. induction s as [|c s IH]; [done|]. rewrite !sapp_cons. by f_equal. Qed.
Lemma sapp_length s t : String.length (s +:+ t) = (String.length s + String.length t)%nat.
Proof. induction s as [|c s IH]; [done|]. rewrite sapp_cons. cbn. by rewrite IH. Qed.
Lemma sapp_inj_r s t u : s +:+ u = t +:+ u -> s = t.
Proof.
  revert t. induction s as [|c s IH]; intros [|d t]; [done| | |].
  - rewrite sapp_nil, sapp_cons. intros E.
    apply (f_equal String.length) in E. cbn in E. rewrite sapp_length in E. lia.
  - rewrite sapp_nil, sapp_cons. intros E.
    apply (f_equal String.length) in E. cbn in E. rewrite sapp_length in E. lia.
  - rewrite !sapp_cons. intros [= -> E]. f_equal. by apply IH.
Qed.
#[export] Hint Rewrite sapp_nil sapp_cons sapp_nil_r sapp_assoc : cosigner.

Lemma strip_prefix_app p s : strip_prefix p (p +:+ s) = Some s.
Proof. induction p as [|c p IH]; [done|]. rewrite sapp_cons. cbn. by rewrite Ascii.eqb_refl. Qed.

(** Three bytes at a time, as the encoder consumes them. *)
Lemma string_ind3 (P : string -> Prop) :
  P "" -> (forall a, P (String a "")) -> (forall a b, P (String a (String b ""))) ->
  (forall a b c r, P r -> P (String a (String b (String c r)))) -> forall s, P s.
Proof.
  intros H0 H1 H2 H3 s. remember (String.length s) as k eqn:Hk. revert s Hk.
  induction k as [k IH] using lt_wf_ind; intros s ->.
  destruct s as [|a [|b [|c r]]]; [done..|]. apply H3. apply (IH (String.length r)); [cbn; lia|done].
Qed.

(** The characters of an encoding come from the alphabet, padding apart. *)
Lemma b64_encode_forall (e : b64) (p : ascii -> bool) s :
  (b64_padded e = true -> p "="%char = true) -> (forall n, n < 64 -> p (b64_char e n) = true) ->
  str_forall p (b64_encode e s) = true.
Proof.
  intros Hpad Hp.
  assert (forall a b c, (code a * 65536 + code b * 256 + code c) / 262144 < 64) as Hdiv.
  { intros a b c. pose proof (code_bound a). pose proof (code_bound b). pose proof (code_bound c).
    apply N.Div0.div_lt_upper_bound. lia. }
  induction s as [|a|a b|a b c r IH] using string_ind3; [done|..]; cbn [b64_encode];
    unfold pad; cbn [str_forall].
  - pose proof (Hdiv a "000" "000")%char as Ha. cbn in Ha. rewrite !N.add_0_r in Ha.
    rewrite !Hp by (apply N.mod_lt || exact Ha; lia). destruct (b64_padded e); cbn; by rewrite ?Hpad.
  - pose proof (Hdiv a b "000")%char as Ha. cbn in Ha. rewrite !N.add_0_r in Ha.
    rewrite !Hp by (apply N.mod_lt || exact Ha; lia). destruct (b64_padded e); cbn; by rewrite ?Hpad.
  - by rewrite !Hp, IH by (apply N.mod_lt || apply Hdiv; lia).
Qed.

(** The length of an unpadded encoding: ceil(8n/6) characters for n bytes. *)
Lemma b64_encode_length (e : b64) s :
  b64_padded e = false ->
  String.length (b64_encode e s) = ((8 * String.length s + 5) / 6)%nat.
Proof.
  intros Hpad. induction s as [|a|a b|a b c r IH] using string_ind3; [done|..]; cbn [b64_encode];
    unfold pad; rewrite ?Hpad; [done|done|].
  cbn [String.length]. rewrite IH.
  replace (8 * S (S (S (String.length r))) + 5)%nat
    with (8 * String.length r + 5 + 4 * 6)%nat by lia.
  rewrite Nat.div_add by lia. lia.
Qed.

Lemma str_take_drop n s : str_take n s +:+ str_drop n s = s.
Proof. revert s. induction n as [|n IH]; intros [|c s]; cbn [str_take str_drop]; rewrite ?sapp_nil, ?sapp_cons, ?IH; done. Qed.
Lemma str_take_length n s : String.length (str_take n s) = (n `min` String.length s)%nat.
Proof. revert s. induction n as [|n IH]; intros [|c s]; cbn; rewrite ?IH; done. Qed.

(** * Byte order on strings *)

(** [a < b] and [a <= b] on strings. *)
Definition str_ltb (a b : string) : bool := String.ltb a b.
Definition str_leb (a b : string) : bool := String.leb a b.

Lemma str_ltb_cons c s d t :
  str_ltb (String c s) (String d t) = ((code c <? code d) || ((code c =? code d) && str_ltb s t)).
Proof.
  unfold str_ltb, String.ltb. cbn. unfold Ascii.compare, code.
  destruct (N.compare_spec (N_of_ascii c) (N_of_ascii d)) as [E|E|E]; cbn.
  - by rewrite E, N.ltb_irrefl, N.eqb_refl.
  - by apply N.ltb_lt in E as ->.
  - assert ((N_of_ascii c <? N_of_ascii d) = false) as -> by (apply N.ltb_ge; lia).
    by assert ((N_of_ascii c =? N_of_ascii d) = false) as -> by (apply N.eqb_neq; lia).
Qed.

Lemma str_lt_trans a b c : str_ltb a b = true -> str_ltb b c = true -> str_ltb a c = true.
Proof.
  revert b c. induction a as [|x a IH]; intros [|y b] [|z c]; try done.
  rewrite !str_ltb_cons, !orb_true_iff, !andb_true_iff, !N.ltb_lt, !N.eqb_eq.
  intros [?|[??]] [?|[??]]; [left; lia..|]. right. split; [lia|eauto].
Qed.

Lemma str_leb_false a b : str_leb a b = false <-> str_ltb b a = true.
Proof.
  unfold str_leb, str_ltb, String.leb, String.ltb. rewrite (String.compare_antisym a b).
  by destruct (String.compare b a).
Qed.

Lemma str_ltb_false a b : str_ltb a b = false -> str_ltb b a = true \/ a = b.
Proof.
  unfold str_ltb, String.ltb. rewrite (String.compare_antisym a b).
  destruct (String.compare b a) eqn:E; cbn; [|auto|done]. right. by apply String.compare_eq_iff in E.
Qed.

(** * Decimal text round-trips *)

Lemma pretty_char_code n : n < 10 -> code (pretty.pretty_N_char n) = 48 + n.
Proof.
  intros Hn. pose proof (forallb_below (fun n => code (pretty.pretty_N_char n) =? 48 + n) 10 eq_refl n Hn).
  by apply N.eqb_eq.
Qed.

Lemma digits_value_go x s : digits_value 0 (pretty.pretty_N_go x s) = digits_value (Z.of_N x) s.
Proof.
  revert s. induction (N.lt_wf_0 x) as [x _ IH]; intros s.
  destruct (decide (x = 0)) as [->|Hx]; [by rewrite pretty.pretty_N_go_0|].
  rewrite pretty.pretty_N_go_step, IH by (try apply N.div_lt; lia). cbn [digits_value].
  rewrite pretty_char_code by (apply N.mod_lt; lia). f_equal.
  pose proof (N.div_mod x 10 ltac:(lia)) as E.
  set (q := N.div x 10) in *. set (r := N.modulo x 10) in *. clearbody q r. lia.
Qed.

Lemma digits_forall_go x s :
  str_forall is_digit s = true -> str_forall is_digit (pretty.pretty_N_go x s) = true.
Proof.
  revert s. induction (N.lt_wf_0 x) as [x _ IH]; intros s Hs.
  destruct (decide (x = 0)) as [->|Hx]; [by rewrite pretty.pretty_N_go_0|].
  rewrite pretty.pretty_N_go_step by lia. apply IH; [apply N.div_lt; lia|]. cbn.
  rewrite Hs, andb_true_r. unfold is_digit, in_range.
  assert (Hm : x mod 10 < 10) by (apply N.mod_lt; lia). rewrite pretty_char_code by done.
  set (r := N.modulo x 10) in *. clearbody r.
  apply andb_true_iff. rewrite !N.leb_le. split; lia.
Qed.

Lemma parse_big_digits s : str_forall is_digit s = true -> s <> "" -> parse_big s = Some (digits_value 0 s).
Proof.
  intros Hs Hne. assert (Hp : parse_digits s = Some (digits_value 0 s)).
  { unfold parse_digits. rewrite Hs. by destruct s. }
  destruct s as [|c r]; [done|]. unfold parse_big.
  cbn in Hs. apply andb_true_iff in Hs as [Hc _].
  destruct c as [[] [] [] [] [] [] [] []]; vm_compute in Hc; try discriminate; exact Hp.
Qed.

(** Printing a non-negative number and reading it back. *)
Lemma parse_big_format z : (0 <= z)%Z -> parse_big (format_int z) = Some z.
Proof.
  intros Hz. unfold format_int, pretty.pretty, pretty.pretty_Z.
  destruct z as [|p|p]; [done| |lia]. unfold pretty.pretty, pretty.pretty_positive, pretty.pretty, pretty.pretty_N.
  destruct (decide _); [done|]. rewrite parse_big_digits.
  - by rewrite digits_value_go.
  - by apply digits_forall_go.
  - intros E. pose proof (digits_value_go (N.pos p) "") as Hv. rewrite E in Hv. discriminate.
Qed.

(** * strings.Fields and strconv.ParseUint *)

(** [word] is the field being read. *)
Fixpoint fields_from (fuel : nat) (word s : string) : list string :=
  let flush (l : list string) := if (word =s "")%string then l else word :: l in
  match fuel, s with
  | S fuel, String c r =>
      match strip_any white_space s with
      | Some rest => flush (fields_from fuel "" rest)
      | None => fields_from fuel (word ++ String c "")%string r
      end
  | _, _ => flush []
  end.
Definition Fields (s : string) : list string := fields_from (S (String.length s)) "" s.
(** In base 10 and 64 bits. *)
Definition ParseUint (s : string) : option Z :=
  n ← parse_digits s; if (n <=? max_uint64)%Z then Some n else None.

Example Fields_words : Fields "  12 345	6 " = ["12"; "345"; "6"].
Proof. vm_compute. reflexivity. Qed.

(** * sort.Strings and strings.Join *)

Fixpoint insert_string (x : string) (l : list string) : list string :=
  match l with
  | [] => [x]
  | y :: l' => if String.leb x y then x :: l else y :: insert_string x l'
  end.
Definition sort_strings (l : list string) : list string := foldr insert_string [] l.

Lemma insert_string_perm x l : insert_string x l ≡ₚ x :: l.
Proof.
  induction l as [|y l IH]; cbn; [done|]. destruct (String.leb x y); [done|].
  rewrite IH. by constructor.
Qed.
Lemma sort_strings_perm l : sort_strings l ≡ₚ l.
Proof. induction l as [|x l IH]; cbn; [done|]. rewrite insert_string_perm. by rewrite IH. Qed.

Definition string_le (x y : string) : Prop := String.leb x y = true.
Lemma insert_string_sorted x l : Sorted string_le l -> Sorted string_le (insert_string x l).
Proof.
  induction 1 as [|y l Hs IH Hd]; cbn; [by repeat constructor|].
  destruct (String.leb x y) eqn:E; [by repeat constructor|].
  assert (string_le y x) by (destruct (String.leb_total x y) as [|]; [congruence|done]).
  constructor; [done|]. destruct l as [|z l]; cbn; [by constructor|].
  destruct (String.leb x z); constructor; [done|by inversion Hd].
Qed.
Lemma sort_strings_sorted l : Sorted string_le (sort_strings l).
Proof. induction l as [|x l IH]; cbn; [constructor|by apply insert_string_sorted]. Qed.

Fixpoint str_join (sep : string) (l : list string) : string :=
  match l with [] => "" | [s] => s | s :: l => s ++ sep ++ str_join sep l end%string.
