(* ===== verification/GoFloat.v ===== *)
(** Go's [float64]: the binary64 format of the Standard Library, with its rounding. *)
From Stdlib Require Import ZArith SpecFloat.

Abbreviation float64 := spec_float.
Definition float_of (z : Z) : float64 := binary_normalize 53 1024 z 0 false.
Definition float_add : float64 -> float64 -> float64 := SFadd 53 1024.
Definition float_mul : float64 -> float64 -> float64 := SFmul 53 1024.
Definition float_div : float64 -> float64 -> float64 := SFdiv 53 1024.
(** [uint64(x)] of a finite [x] in range: the fraction is dropped. *)
Definition uint64_of (x : float64) : Z :=
  match x with S754_finite false m e => Z.shiftl (Zpos m) e | _ => 0%Z end.

