(* ===== verification/Paths.v ===== *)
(** path/filepath on Unix, as the stores, the journal and the configuration use it:
    cleaning, joining and splitting paths, and the relative path that decides whether one
    directory lies inside another. *)
From stdpp Require Import base tactics option list strings numbers.
From Stdlib Require Import ZArith Lia Ascii String.
From S2P Require Import Prelude GoText.

#[local] Open Scope string_scope.

(** The components of a path, between slashes. *)
Fixpoint split_slash (s : string) : list string :=
  match s with
  | "" => [""]
  | String c r =>
      if Ascii.eqb c "/" then "" :: split_slash r
      else match split_slash r with
           | x :: l => String c x :: l
           | [] => [String c ""]
           end
  end.
Fixpoint join_slash (l : list string) : string :=
  match l with [] => "" | [x] => x | x :: l => x +:+ "/" +:+ join_slash l end.

(** [filepath.Clean]: [.] and empty components vanish, and [..] removes the component
    before it; at the root it vanishes too.  [out] is reversed. *)
Fixpoint clean_components (rooted : bool) (out l : list string) : list string :=
  match l with
  | [] => reverse out
  | x :: l =>
      if (x =s "") || (x =s ".") then clean_components rooted out l
      else if x =s ".." then
        match out with
        | y :: out' =>
            if y =s ".." then clean_components rooted (".." :: out) l
            else clean_components rooted out' l
        | [] => clean_components rooted (if rooted then [] else [".."]) l
        end
      else clean_components rooted (x :: out) l
  end.
Definition IsAbs (p : string) : bool := has_prefix "/" p.
Definition components (p : string) : list string := clean_components (IsAbs p) [] (split_slash p).
Definition Clean (p : string) : string :=
  if IsAbs p then "/" +:+ join_slash (components p)
  else match components p with [] => "." | l => join_slash l end.

(** [filepath.Rel(parent, path)] of two rooted paths. *)
Fixpoint rel_components (base target : list string) : list string :=
  match base, target with
  | b :: base', t :: target' =>
      if b =s t then rel_components base' target' else (map (fun _ => "..") base ++ target)%list
  | _, _ => (map (fun _ => "..") base ++ target)%list
  end.
Definition Rel (parent path : string) : string :=
  match rel_components (components parent) (components path) with [] => "." | l => join_slash l end.

(** [filepath.Join] of two elements. *)
Definition Join (a b : string) : string :=
  if a =s "" then (if b =s "" then "" else Clean b)
  else if b =s "" then Clean a else Clean (a +:+ "/" +:+ b).

(** [filepath.Dir]: everything up to the last slash, cleaned. *)
Fixpoint dir_part (s : string) : string :=
  match s with
  | "" => ""
  | String c r => match dir_part r with
                  | "" => if Ascii.eqb c "/" then String c "" else ""
                  | d => String c d
                  end
  end.
Definition Dir (p : string) : string := Clean (dir_part p).

(** [filepath.Base]: the last element, without trailing slashes. *)
Fixpoint trim_slashes (s : string) : string :=
  match s with
  | "" => ""
  | String c r => match trim_slashes r with
                  | "" => if Ascii.eqb c "/" then "" else String c ""
                  | t => String c t
                  end
  end.
Definition Base (p : string) : string :=
  if p =s "" then "."
  else match List.last (split_slash (trim_slashes p)) "" with "" => "/" | b => b end.

Example clean_example : Clean "/a//b/./c/../d/" = "/a/b/d" /\ Clean "/../x" = "/x" /\ Clean "" = ".".
Proof. done. Qed.
Example join_example : Join "/srv/shares" "approval" = "/srv/shares/approval" /\ Join "/" "a" = "/a".
Proof. done. Qed.
Example dir_base_example : Dir "/srv/primary" = "/srv" /\ Dir "/srv" = "/" /\ Base "/srv/primary/" = "primary" /\ Base "/" = "/".
Proof. done. Qed.
Example rel_example : Rel "/a/b" "/a/b/c" = "c" /\ Rel "/a/b" "/a" = ".." /\ Rel "/a" "/b" = "../b".
Proof. done. Qed.

(** * Lemmas *)

Lemma strip_prefix_Some p s r : strip_prefix p s = Some r -> s = p +:+ r.
Proof.
  revert s. induction p as [|c p IH]; intros [|d s]; cbn; [by intros [= <-]|by intros [= <-]|done|].
  destruct (Ascii.eqb c d) eqn:E; [|done]. apply Ascii.eqb_eq in E as ->. intros Hr.
  rewrite sapp_cons. f_equal. by apply IH.
Qed.

(** The elements of a cleaned rooted path. *)
Definition no_slash (x : string) : Prop := str_forall (fun c => negb (Ascii.eqb c "/")) x = true.
Definition plain (x : string) : Prop := no_slash x /\ x <> "" /\ x <> "." /\ x <> "..".
Definition rooted (l : list string) : string := "/" +:+ join_slash l.

Lemma split_no_slash s : Forall no_slash (split_slash s).
Proof.
  induction s as [|c s IH]; cbn [split_slash]; [by repeat constructor|].
  destruct (Ascii.eqb c "/") eqn:Ec; [by constructor|].
  destruct (split_slash s) as [|x l]; [constructor; [|constructor]|].
  - unfold no_slash. cbn. by rewrite Ec.
  - inversion IH as [|?? Hx Hl]; subst. constructor; [|done]. unfold no_slash in *. cbn. by rewrite Ec.
Qed.
Lemma split_slash_ne s : split_slash s <> [].
Proof. destruct s as [|c s]; cbn; [done|]. destruct (Ascii.eqb c "/"); [done|]. by destruct (split_slash s). Qed.

Lemma join_split s : join_slash (split_slash s) = s.
Proof.
  induction s as [|c s IH]; [done|]. cbn [split_slash]. pose proof (split_slash_ne s) as Hn.
  destruct (Ascii.eqb c "/") eqn:Ec.
  - apply Ascii.eqb_eq in Ec as ->. destruct (split_slash s) as [|x l]; [done|].
    cbn [join_slash] in *. rewrite sapp_nil, sapp_cons, sapp_nil. by rewrite IH.
  - destruct (split_slash s) as [|x [|y l]]; [done|..]; cbn [join_slash] in *; [by rewrite IH|rewrite sapp_cons; by rewrite IH].
Qed.

Lemma split_app x s : no_slash x ->
  split_slash (x +:+ s) = match split_slash s with y :: l => (x +:+ y) :: l | [] => [x] end.
Proof.
  intros Hx. induction x as [|c x IH].
  - rewrite sapp_nil. pose proof (split_slash_ne s). by destruct (split_slash s).
  - unfold no_slash in Hx. cbn in Hx. apply andb_true_iff in Hx as [Hc Hx]. apply negb_true_iff in Hc.
    rewrite sapp_cons. cbn [split_slash]. rewrite Hc, (IH Hx). pose proof (split_slash_ne s).
    by destruct (split_slash s).
Qed.
Lemma split_join l : Forall no_slash l -> l <> [] -> split_slash (join_slash l) = l.
Proof.
  induction 1 as [|x l Hx Hl IH]; intros Hn; [done|]. destruct l as [|y l].
  - cbn [join_slash]. rewrite <- (sapp_nil_r x) at 1. rewrite split_app by done. cbn. by rewrite sapp_nil_r.
  - change (join_slash (x :: y :: l)) with (x +:+ "/" +:+ join_slash (y :: l)).
    rewrite split_app by done. rewrite sapp_cons, sapp_nil. cbn [split_slash].
    change (Ascii.eqb "/" "/") with true. cbn iota. rewrite IH by done. f_equal. by rewrite sapp_nil_r.
Qed.

Lemma clean_plain out l : Forall plain out -> Forall no_slash l -> Forall plain (clean_components true out l).
Proof.
  intros Ho Hl. revert out Ho. induction Hl as [|x l Hx Hl IH]; intros out Ho; cbn [clean_components].
  - by apply Forall_reverse.
  - destruct ((x =s "") || (x =s ".")) eqn:E1; [by apply IH|]. destruct (x =s "..") eqn:E2.
    + destruct Ho as [|y out' Hy Ho]; [by apply IH|]. destruct (y =s "..") eqn:E3; [|by apply IH].
      exfalso. apply String.eqb_eq in E3. by apply Hy.
    + apply IH. constructor; [|done]. apply orb_false_iff in E1 as [E0 E1].
      apply String.eqb_neq in E0, E1, E2. done.
Qed.
Lemma clean_fixed rooted out l : Forall plain l -> clean_components rooted out l = (reverse out ++ l)%list.
Proof.
  intros Hl. revert out. induction Hl as [|x l (_ & H1 & H2 & H3) Hl IH]; intros out; cbn [clean_components].
  - by rewrite app_nil_r.
  - apply String.eqb_neq in H1, H2, H3. rewrite H1, H2, H3. cbn [orb]. rewrite IH.
    rewrite reverse_cons. by rewrite <- (assoc_L (++)%list).
Qed.
Lemma plain_no_slash l : Forall plain l -> Forall no_slash l.
Proof. apply Forall_impl. by intros x (?&_). Qed.

Lemma components_plain p : IsAbs p = true -> Forall plain (components p).
Proof. intros Hp. unfold components. rewrite Hp. apply clean_plain; [done|]. apply split_no_slash. Qed.
Lemma components_rooted l : Forall plain l -> components (rooted l) = l.
Proof.
  intros Hl. unfold components, rooted. rewrite sapp_cons, sapp_nil. cbn [split_slash].
  change (Ascii.eqb "/" "/") with true. cbn iota. cbn [clean_components].
  change (("" =s "") || ("" =s ".")) with true. cbn iota.
  destruct l as [|x l]; [done|]. rewrite split_join; [|by apply plain_no_slash|done]. by rewrite clean_fixed.
Qed.
Lemma IsAbs_rooted l : IsAbs (rooted l) = true.
Proof. unfold IsAbs, rooted. apply bool_decide_eq_true. rewrite sapp_cons. cbn. eauto. Qed.
Lemma Clean_rooted p : IsAbs p = true -> Clean p = rooted (components p).
Proof. intros Hp. unfold Clean. by rewrite Hp. Qed.
Lemma Clean_idem p : IsAbs p = true -> Clean (Clean p) = Clean p.
Proof.
  intros Hp. rewrite !(Clean_rooted p) by done. rewrite Clean_rooted by apply IsAbs_rooted.
  by rewrite components_rooted by by apply components_plain.
Qed.

(** ** Relative paths *)

Lemma rel_prefix base l : rel_components base (base ++ l) = l.
Proof. induction base as [|b base IH]; [done|]. cbn. by rewrite String.eqb_refl. Qed.
Lemma rel_not_prefix base l : ~ base `prefix_of` l -> exists r, rel_components base l = ".." :: r.
Proof.
  revert l. induction base as [|b base IH]; intros [|t l] Hn; cbn.
  - exfalso. apply Hn. apply prefix_nil.
  - exfalso. apply Hn. apply prefix_nil.
  - eauto.
  - destruct (b =s t) eqn:E; [|eauto]. apply String.eqb_eq in E as ->.
    apply IH. intros Hp. apply Hn. by apply prefix_cons.
Qed.

(** The test of the stores and of the journal that a path lies inside another. *)
Lemma Rel_inside parent path : IsAbs parent = true -> IsAbs path = true ->
  (let relative := Rel parent path in
   (relative =s ".") || ((relative <>s "..") && negb (has_prefix "../" relative)))
  = bool_decide (components parent `prefix_of` components path).
Proof.
  intros Hpar Hpath. cbv zeta. unfold Rel.
  pose proof (components_plain _ Hpath) as Hpl.
  destruct (decide (components parent `prefix_of` components path)) as [[l Hl]|Hn].
  - rewrite bool_decide_eq_true_2 by (by exists l). rewrite Hl, rel_prefix.
    rewrite Hl in Hpl. apply Forall_app in Hpl as [_ Hpl]. destruct l as [|x l]; [done|].
    apply orb_true_iff. right. inversion Hpl as [|?? (Hx & _ & _ & Hxx) _]; subst.
    assert (Hs : split_slash (join_slash (x :: l)) = x :: l) by (apply split_join; [by apply plain_no_slash|done]).
    apply andb_true_iff. split; apply negb_true_iff.
    + apply String.eqb_neq. intros E. rewrite E in Hs. cbn in Hs. congruence.
    + unfold has_prefix. apply bool_decide_eq_false. intros [r Hr]. apply strip_prefix_Some in Hr.
      rewrite Hr in Hs. change ("../" +:+ r) with (".." +:+ "/" +:+ r) in Hs.
      rewrite split_app in Hs by done. rewrite sapp_cons in Hs. cbn [split_slash] in Hs.
      change (Ascii.eqb "/" "/") with true in Hs. cbn iota in Hs. rewrite sapp_nil_r in Hs. congruence.
  - rewrite bool_decide_eq_false_2 by done. destruct (rel_not_prefix _ _ Hn) as [r ->].
    destruct r as [|y r]; [done|]. change (join_slash (".." :: y :: r)) with ("../" +:+ join_slash (y :: r)).
    assert (has_prefix "../" ("../" +:+ join_slash (y :: r)) = true) as ->
      by (unfold has_prefix; rewrite strip_prefix_app; apply bool_decide_eq_true; eauto).
    by rewrite andb_false_r, orb_false_r.
Qed.

(** ** Directories *)

Definition elems_size (l : list string) : nat := foldr (fun x n => S (String.length x + n)) 0 l.
Lemma elems_size_app l l' : elems_size (l ++ l') = (elems_size l + elems_size l')%nat.
Proof. induction l as [|x l IH]; [done|]. cbn [elems_size foldr app]. fold (elems_size (l ++ l')) (elems_size l). rewrite IH. lia. Qed.
Lemma elems_size_join l : l <> [] -> elems_size l = S (String.length (join_slash l)).
Proof.
  induction l as [|x [|y l] IH]; intros Hn; [done|cbn; lia|].
  change (join_slash (x :: y :: l)) with (x +:+ "/" +:+ join_slash (y :: l)).
  change (elems_size (x :: y :: l)) with (S (String.length x + elems_size (y :: l))).
  rewrite IH by done. rewrite !sapp_length. cbn. lia.
Qed.
Lemma elems_size_reverse l : elems_size (reverse l) = elems_size l.
Proof. induction l as [|x l IH]; [done|]. rewrite reverse_cons, elems_size_app, IH. cbn. fold (elems_size l). lia. Qed.

(** Cleaning shortens a path or leaves it as it is. *)
Definition shrinks (r out l : list string) : Prop :=
  r = (reverse out ++ l)%list \/ (elems_size r < elems_size out + elems_size l)%nat.
Lemma shrinks_push r out x l : shrinks r (x :: out) l -> shrinks r out (x :: l).
Proof.
  unfold shrinks. change (elems_size (x :: out)) with (S (String.length x + elems_size out)).
  change (elems_size (x :: l)) with (S (String.length x + elems_size l)). rewrite reverse_cons.
  rewrite <- (assoc_L (++)%list). intros [->|]; [by left|right; lia].
Qed.
Lemma shrinks_drop r out out' x l : shrinks r out' l -> (elems_size out' <= elems_size out)%nat -> shrinks r out (x :: l).
Proof.
  unfold shrinks. change (elems_size (x :: l)) with (S (String.length x + elems_size l)).
  intros [->|]; right; [rewrite elems_size_app, elems_size_reverse|]; lia.
Qed.
Lemma clean_shrinks out l : shrinks (clean_components true out l) out l.
Proof.
  revert out. induction l as [|x l IH]; intros out; cbn [clean_components].
  { left. by rewrite app_nil_r. }
  destruct ((x =s "") || (x =s ".")); [by eapply shrinks_drop|]. destruct (x =s "..") eqn:Ex; [|by apply shrinks_push].
  apply String.eqb_eq in Ex as ->. destruct out as [|y out]; [by eapply shrinks_drop|].
  destruct (y =s ".."); [by apply shrinks_push|]. eapply shrinks_drop; [apply IH|]. cbn. fold (elems_size out). lia.
Qed.

Lemma IsAbs_cons p : IsAbs p = true -> exists r, p = String "/" r.
Proof. unfold IsAbs, has_prefix. rewrite bool_decide_eq_true. intros [r Hr]. apply strip_prefix_Some in Hr. by exists r. Qed.
Lemma Clean_shorter p : IsAbs p = true -> Clean p = p \/ (String.length (Clean p) < String.length p)%nat.
Proof.
  intros Hp. rewrite (Clean_rooted p Hp). destruct (IsAbs_cons p Hp) as [r ->].
  unfold components. rewrite Hp. cbn [split_slash]. change (Ascii.eqb "/" "/") with true. cbn iota.
  cbn [clean_components]. change (("" =s "") || ("" =s ".")) with true. cbn iota.
  pose proof (elems_size_join (split_slash r) (split_slash_ne r)) as Hs. rewrite join_split in Hs.
  unfold rooted. rewrite sapp_cons, sapp_nil.
  destruct (clean_shrinks [] (split_slash r)) as [->|Hlt].
  - left. f_equal. apply join_split.
  - cbn [elems_size foldr] in Hlt. fold (elems_size (split_slash r)) in Hlt.
    destruct (clean_components true [] (split_slash r)) as [|x l].
    + cbn. destruct r as [|c r]; [by left|right; cbn; lia].
    + right. rewrite elems_size_join in Hlt by done. cbn [String.length] in *. lia.
Qed.

Lemma dir_part_app p : exists r, p = dir_part p +:+ r.
Proof.
  induction p as [|c p [r IH]]; [by exists ""|]. cbn [dir_part]. destruct (dir_part p) as [|d q].
  - destruct (Ascii.eqb c "/"); eexists; [rewrite sapp_cons; by rewrite sapp_nil|by rewrite sapp_nil].
  - exists r. rewrite sapp_cons. by rewrite <- IH.
Qed.
Lemma dir_part_abs p : IsAbs p = true -> IsAbs (dir_part p) = true.
Proof.
  intros Hp. destruct (IsAbs_cons p Hp) as [r ->]. cbn [dir_part]. change (Ascii.eqb "/" "/") with true. cbn iota.
  destruct (dir_part r); apply bool_decide_eq_true; cbn; eauto.
Qed.
Lemma Dir_abs p : IsAbs p = true -> IsAbs (Dir p) = true.
Proof.
  intros Hp. unfold Dir. rewrite Clean_rooted by by apply dir_part_abs. apply IsAbs_rooted.
Qed.
(** Walking to the parent directory reaches the root. *)
Lemma Dir_shorter p : IsAbs p = true -> Dir p = p \/ (String.length (Dir p) < String.length p)%nat.
Proof.
  intros Hp. unfold Dir. destruct (dir_part_app p) as [r Hr].
  apply (f_equal String.length) in Hr as Hlen. rewrite sapp_length in Hlen.
  destruct (Clean_shorter (dir_part p) (dir_part_abs p Hp)) as [E|]; [|right; lia]. rewrite E.
  destruct r as [|c r]; [left; by rewrite sapp_nil_r in Hr|]. cbn in Hlen. right. lia.
Qed.

(** ** Joining an element *)

Lemma Join_rooted l x : Forall plain l -> plain x -> Join (rooted l) x = rooted (l ++ [x]).
Proof.
  intros Hl Hx. unfold Join. assert (rooted l =s "" = false) as -> by (by unfold rooted).
  destruct (x =s "") eqn:E; [apply String.eqb_eq in E as ->; by destruct Hx as (_ & ? & _)|].
  assert (IsAbs (rooted l +:+ "/" +:+ x) = true) as Ha.
  { unfold rooted. rewrite !sapp_cons, sapp_nil. apply bool_decide_eq_true. cbn. eauto. }
  rewrite Clean_rooted by done. f_equal. unfold components. rewrite Ha.
  assert (exists e, split_slash (rooted l +:+ "/" +:+ x) = (e ++ l ++ [x])%list /\ Forall (fun y => y = "") e) as (e & -> & He).
  { unfold rooted. rewrite !sapp_cons, !sapp_nil. cbn [split_slash]. change (Ascii.eqb "/" "/") with true. cbn iota.
    destruct l as [|y l].
    - exists ["";""]. cbn [join_slash]. rewrite sapp_nil. cbn [split_slash]. change (Ascii.eqb "/" "/") with true.
      cbn iota. pose proof (split_join [x]) as Hs. cbn [join_slash] in Hs.
      rewrite Hs; [by repeat constructor|by repeat constructor; apply Hx|done].
    - exists [""]. split; [|by repeat constructor]. cbn [app]. f_equal.
      assert (join_slash (y :: l) +:+ String "/" x = join_slash ((y :: l) ++ [x])) as ->.
      { clear. revert y. induction l as [|z l IH]; intros y; [done|].
        change (join_slash (y :: z :: l)) with (y +:+ "/" +:+ join_slash (z :: l)).
        change (join_slash ((y :: z :: l) ++ [x])%list) with (y +:+ "/" +:+ join_slash ((z :: l) ++ [x])).
        rewrite <- IH. by rewrite !sapp_assoc. }
      apply split_join; [|done]. apply plain_no_slash, (Forall_app plain (y :: l)). split; [done|by apply Forall_singleton]. }
  assert (Hclean : forall out l', clean_components true out (e ++ l')%list = clean_components true out l').
  { intros out l'. induction He as [|y e -> _ IH]; [done|]. exact IH. }
  rewrite Hclean, clean_fixed; [done|]. apply Forall_app. split; [done|by apply Forall_singleton].
Qed.

(** ** Splitting off the last element *)

Lemma split_snoc_slash s : split_slash (s +:+ "/") = (split_slash s ++ [""])%list.
Proof.
  induction s as [|c s IH]; [done|]. rewrite sapp_cons. cbn [split_slash]. rewrite IH.
  destruct (Ascii.eqb c "/"); [done|]. pose proof (split_slash_ne s). by destruct (split_slash s).
Qed.
Lemma clean_trailing rooted out l : clean_components rooted out (l ++ [""])%list = clean_components rooted out l.
Proof.
  revert out. induction l as [|x l IH]; intros out; [done|]. cbn [app clean_components].
  repeat case_match; apply IH.
Qed.
Lemma IsAbs_app p s : IsAbs p = true -> IsAbs (p +:+ s) = true.
Proof. intros Hp. destruct (IsAbs_cons p Hp) as [r ->]. apply bool_decide_eq_true. rewrite sapp_cons. cbn. eauto. Qed.
(** Trailing slashes mean nothing. *)
Lemma Clean_trailing p : IsAbs p = true -> Clean (p +:+ "/") = Clean p.
Proof.
  intros Hp. rewrite !Clean_rooted by (done || by apply IsAbs_app). f_equal. unfold components.
  by rewrite Hp, IsAbs_app, split_snoc_slash, clean_trailing.
Qed.

Lemma join_snoc l x : l <> [] -> join_slash (l ++ [x])%list = join_slash l +:+ "/" +:+ x.
Proof.
  induction l as [|y [|z l] IH]; intros Hn; [done|done|].
  change (join_slash ((y :: z :: l) ++ [x])%list) with (y +:+ "/" +:+ join_slash ((z :: l) ++ [x])%list).
  change (join_slash (y :: z :: l)) with (y +:+ "/" +:+ join_slash (z :: l)).
  rewrite IH by done. by rewrite !sapp_assoc.
Qed.
Lemma dir_part_no_slash x : no_slash x -> dir_part x = "".
Proof.
  unfold no_slash. induction x as [|c x IH]; [done|]. cbn. intros Hx. apply andb_true_iff in Hx as [Hc Hx].
  rewrite IH by done. by destruct (Ascii.eqb c "/").
Qed.
Lemma dir_part_snoc a x : no_slash x -> dir_part (a +:+ "/" +:+ x) = a +:+ "/".
Proof.
  intros Hx. induction a as [|c a IH].
  - rewrite !sapp_nil, sapp_cons, sapp_nil. cbn [dir_part]. by rewrite dir_part_no_slash.
  - rewrite !(sapp_cons c). cbn [dir_part]. rewrite IH. by destruct a.
Qed.
Lemma trim_slashes_no_slash a x : no_slash x -> x <> "" -> trim_slashes (a +:+ x) = a +:+ x.
Proof.
  intros Hx Hn. induction a as [|c a IH].
  - rewrite sapp_nil. induction x as [|c x IHx]; [done|]. unfold no_slash in Hx. cbn in Hx.
    apply andb_true_iff in Hx as [Hc Hx]. apply negb_true_iff in Hc. cbn [trim_slashes].
    destruct x as [|d x]; [cbn; by rewrite Hc|]. by rewrite IHx.
  - rewrite sapp_cons. cbn [trim_slashes]. rewrite IH. destruct a as [|d a]; [by destruct x|done].
Qed.

Lemma rooted_snoc l x : l <> [] -> rooted (l ++ [x]) = rooted l +:+ "/" +:+ x.
Proof. intros Hl. unfold rooted. by rewrite join_snoc, sapp_assoc. Qed.
Lemma rooted_clean l : Forall plain l -> Clean (rooted l) = rooted l.
Proof. intros Hl. by rewrite Clean_rooted, components_rooted by (done || apply IsAbs_rooted). Qed.

Lemma Dir_rooted l x : Forall plain l -> plain x -> Dir (rooted (l ++ [x])) = rooted l.
Proof.
  intros Hl (Hx & _). unfold Dir. destruct l as [|y l].
  - unfold rooted. cbn [app join_slash]. pose proof (dir_part_snoc "" x Hx) as Hd.
    rewrite !sapp_nil in Hd. by rewrite Hd.
  - rewrite rooted_snoc, dir_part_snoc by done. rewrite Clean_trailing by apply IsAbs_rooted. by apply rooted_clean.
Qed.
Lemma Base_rooted l x : Forall plain l -> plain x -> Base (rooted (l ++ [x])) = x.
Proof.
  intros Hl (Hx & Hn & _). unfold Base, rooted.
  assert (exists a, "/" +:+ join_slash (l ++ [x])%list = a +:+ x) as [a Ha].
  { destruct l as [|y l]; [by exists "/"|]. exists ("/" +:+ join_slash (y :: l) +:+ "/").
    rewrite join_snoc by done. by rewrite !sapp_assoc. }
  rewrite Ha. rewrite trim_slashes_no_slash by done. rewrite <- Ha.
  rewrite sapp_cons, sapp_nil. cbn [String.eqb split_slash]. change (Ascii.eqb "/" "/") with true. cbn iota.
  rewrite split_join.
  - change ("" :: l ++ [x])%list with (("" :: l) ++ [x])%list. rewrite last_last. by destruct x.
  - apply Forall_app. split; [by apply plain_no_slash|by apply Forall_singleton].
  - by destruct l.
Qed.
Lemma Join_slash p : IsAbs p = true -> Clean p = p -> Join p "/" = p.
Proof.
  intros Hp Hc. unfold Join. destruct (IsAbs_cons p Hp) as [r ->]. cbn [String.eqb].
  change ("/" +:+ "/") with ("/" +:+ "/"). rewrite <- sapp_assoc.
  rewrite Clean_trailing by by apply IsAbs_app. by rewrite Clean_trailing.
Qed.
Lemma Join_clean p b : IsAbs p = true -> b <> "" -> IsAbs (Join p b) = true /\ Clean (Join p b) = Join p b.
Proof.
  intros Hp Hb. unfold Join. apply String.eqb_neq in Hb. rewrite Hb.
  assert (p =s "" = false) as -> by (by destruct (IsAbs_cons p Hp) as [r ->]).
  pose proof (IsAbs_app p ("/" +:+ b) Hp) as Ha. rewrite Clean_idem by done. split; [|done].
  rewrite Clean_rooted by done. apply IsAbs_rooted.
Qed.
Lemma Base_ne p : Base p <> "".
Proof. unfold Base. destruct (p =s ""); [done|]. by destruct (List.last _ _). Qed.
(** A clean rooted path is the root or has a last element. *)
Lemma clean_cases p : IsAbs p = true -> Clean p = p ->
  p = "/" \/ exists l x, p = rooted (l ++ [x]) /\ Forall plain l /\ plain x.
Proof.
  intros Hp Hc. rewrite <- Hc, Clean_rooted by done. pose proof (components_plain p Hp) as Hpl.
  destruct (components p) as [|y l] using rev_ind; [by left|right].
  apply Forall_app in Hpl as [Hl Hx]. inversion Hx; subst. eauto.
Qed.

(** A path is rooted exactly when its cleaned form is. *)
Lemma clean_named rooted out l : Forall (fun x => no_slash x /\ x <> "") out -> Forall no_slash l ->
  Forall (fun x => no_slash x /\ x <> "") (clean_components rooted out l).
Proof.
  intros Ho Hl. revert out Ho. induction Hl as [|x l Hx Hl IH]; intros out Ho; cbn [clean_components].
  { by apply Forall_reverse. }
  destruct ((x =s "") || (x =s ".")) eqn:E1; [by apply IH|]. destruct (x =s "..").
  - destruct Ho as [|y out' Hy Ho]; [destruct rooted; apply IH; by repeat constructor|].
    destruct (y =s ".."); apply IH; [|done]. constructor; [done|]. by constructor.
  - apply IH. constructor; [|done]. apply orb_false_iff in E1 as [E0 _]. by apply String.eqb_neq in E0.
Qed.
Lemma IsAbs_Clean p : IsAbs (Clean p) = IsAbs p.
Proof.
  destruct (IsAbs p) eqn:Hp; [rewrite Clean_rooted by done; apply IsAbs_rooted|].
  unfold Clean, components. rewrite Hp. pose proof (clean_named false [] _ (Forall_nil_2 _) (split_no_slash p)) as Hc.
  destruct Hc as [|x l [Hx Hn] _]; [done|]. apply bool_decide_eq_false. intros [r Hr]. apply strip_prefix_Some in Hr.
  destruct x as [|c x]; [done|]. unfold no_slash in Hx. cbn in Hx.
  assert (c = "/"%char) as -> by (destruct l; cbn [join_slash] in Hr; rewrite ?sapp_cons in Hr; by injection Hr). done.
Qed.
