(* ===== verification/Sha256.v ===== *)
(** SHA-256 ([crypto/sha256.Sum256]), executable: every identifier the co-signer
    derives (frame digests, record keys, authorization hashes, fingerprints) is a
    SHA-256 digest, so the components below compute it instead of assuming it. *)
From stdpp Require Import base tactics option list strings numbers.
From Stdlib Require Import ZArith Lia Ascii String.
From S2P Require Import Prelude GoText.

#[local] Open Scope N_scope.

Definition w32 (n : N) : N := N.land n 4294967295.
Definition add32 (a b : N) : N := w32 (a + b).
Definition rotr (k n : N) : N :=
  N.lor (N.shiftr n k) (w32 (N.shiftl n (32 - k))).

(** The round constants are the first 32 bits of the fractional parts of the cube
    roots of the first 64 primes, and the initial state those of the square roots
    of the first eight: [isqrt] and [icbrt] find the integer roots bit by bit. *)
Fixpoint iroot (power : N -> N) (bits : nat) (acc target : N) : N :=
  match bits with
  | O => acc
  | S b => let cand := acc + N.shiftl 1 (N.of_nat b) in
           iroot power b (if power cand <=? target then cand else acc) target
  end.
Definition is_prime (n : N) : bool :=
  (2 <=? n) && forallb (fun d => negb (n mod d =? 0)) (map N.of_nat (seq 2 (N.to_nat n - 2))).
Definition primes : list N := filter (fun n => is_prime n) (map N.of_nat (seq 2 310)).
Definition sha_k : list N := Eval vm_compute in
  map (fun p => w32 (iroot (fun x => x * x * x) 36 0 (N.shiftl p 96))) primes.
Definition sha_init : list N := Eval vm_compute in
  map (fun p => w32 (iroot (fun x => x * x) 36 0 (N.shiftl p 64))) (firstn 8 primes).

(** A word as four bytes, most significant first. *)
Definition be32 (n : N) : list N :=
  [N.land (N.shiftr n 24) 255; N.land (N.shiftr n 16) 255;
   N.land (N.shiftr n 8) 255; N.land n 255].
Definition be64 (n : N) : list N := be32 (w32 (N.shiftr n 32)) ++ be32 (w32 n).

(** The message, a 1 bit, zeros up to 56 modulo 64, and the bit length. *)
Definition sha_pad (msg : list N) : list N :=
  let len := List.length msg in
  msg ++ [128] ++ repeat 0 (Nat.modulo (119 - Nat.modulo len 64) 64)
  ++ be64 (8 * N.of_nat len).

Fixpoint words (fuel : nat) (l : list N) : list N :=
  match fuel, l with
  | S f, a :: b :: c :: d :: r =>
      N.lor (N.shiftl a 24) (N.lor (N.shiftl b 16) (N.lor (N.shiftl c 8) d)) :: words f r
  | _, _ => []
  end.

(** The message schedule, kept reversed: the head is the newest word. *)
Definition schedule_step (w : list N) : list N :=
  let g i := nth i w 0 in
  let s0 x := N.lxor (rotr 7 x) (N.lxor (rotr 18 x) (N.shiftr x 3)) in
  let s1 x := N.lxor (rotr 17 x) (N.lxor (rotr 19 x) (N.shiftr x 10)) in
  add32 (add32 (s1 (g 1%nat)) (g 6%nat)) (add32 (s0 (g 14%nat)) (g 15%nat)) :: w.
Definition schedule (block : list N) : list N :=
  rev (Nat.iter 48 schedule_step (rev block)).

Definition sha_round (st : list N) (kw : N * N) : list N :=
  match st with
  | [a; b; c; d; e; f; g; h] =>
      let S1 := N.lxor (rotr 6 e) (N.lxor (rotr 11 e) (rotr 25 e)) in
      let ch := N.lxor (N.land e f) (N.land (N.lxor e 4294967295) g) in
      let t1 := add32 (add32 h S1) (add32 ch (add32 kw.1 kw.2)) in
      let S0 := N.lxor (rotr 2 a) (N.lxor (rotr 13 a) (rotr 22 a)) in
      let maj := N.lxor (N.land a b) (N.lxor (N.land a c) (N.land b c)) in
      [add32 t1 (add32 S0 maj); a; b; c; add32 d t1; e; f; g]
  | _ => st
  end.

Definition sha_block (st : list N) (block : list N) : list N :=
  let r := fold_left sha_round (combine sha_k (schedule block)) st in
  map (fun p => add32 p.1 p.2) (combine st r).

Fixpoint sha_blocks (fuel : nat) (st : list N) (msg : list N) : list N :=
  match fuel, msg with
  | S f, _ :: _ => sha_blocks f (sha_block st (words 16 (firstn 64 msg))) (skipn 64 msg)
  | _, _ => st
  end.

Definition sha256 (s : bytes) : bytes :=
  let msg := sha_pad (codes s) in
  of_codes (List.concat (map be32 (sha_blocks (List.length msg) sha_init msg))).

(** [hex.EncodeToString(sum[:])], the usual printed form. *)
Definition sha256_hex (s : bytes) : string := hex_encode (sha256 s).

(** The FIPS 180-4 vectors for the empty message, "abc" and a two-block message. *)
Example sha256_empty :
  sha256_hex "" = "e3b0c44298fc1c149afbf4c8996fb92427ae41e4649b934ca495991b7852b855"%string.
Proof. vm_compute. reflexivity. Qed.
Example sha256_abc :
  sha256_hex "abc" = "ba7816bf8f01cfea414140de5dae2223b00361a396177a9cb410ff61f20015ad"%string.
Proof. vm_compute. reflexivity. Qed.
Example sha256_two_blocks :
  sha256_hex "abcdbcdecdefdefgefghfghighijhijkijkljklmklmnlmnomnopnopq"
  = "248d6a61d20638b8e5c026930c3e6039a33ce45964ff2167f6ecedd419db06c1"%string.
Proof. vm_compute. reflexivity. Qed.

Lemma of_codes_length l : String.length (of_codes l) = List.length l.
Proof. induction l as [|x l IH]; cbn; [done|]. by rewrite IH. Qed.

Lemma sha_round_length st kw : List.length st = 8%nat -> List.length (sha_round st kw) = 8%nat.
Proof.
  intros H. do 9 (destruct st as [|? st]; try discriminate H). done.
Qed.

Lemma sha_block_length st block : List.length st = 8%nat -> List.length (sha_block st block) = 8%nat.
Proof.
  intros H. unfold sha_block. rewrite length_map, length_combine, H.
  assert (List.length (fold_left sha_round (combine sha_k (schedule block)) st) = 8%nat) as ->; [|done].
  revert st H. generalize (combine sha_k (schedule block)) as l.
  induction l as [|kw l IH]; intros st H; [done|]. apply IH. by apply sha_round_length.
Qed.

(** A digest has 32 bytes. *)
Lemma sha256_length s : String.length (sha256 s) = 32%nat.
Proof.
  unfold sha256. rewrite of_codes_length.
  assert (forall f st m, List.length st = 8%nat -> List.length (sha_blocks f st m) = 8%nat) as H8.
  { induction f as [|f IH]; intros st m H; [done|]. destruct m; [done|].
    apply IH. by apply sha_block_length. }
  specialize (H8 (List.length (sha_pad (codes s))) sha_init (sha_pad (codes s)) eq_refl).
  revert H8. generalize (sha_blocks (List.length (sha_pad (codes s))) sha_init (sha_pad (codes s))).
  intros l Hl. do 9 (destruct l as [|? l]; try discriminate Hl). done.
Qed.
