(* ===== verification/Json.v ===== *)
(** The part of [encoding/json] the co-signer uses: the value syntax, an
    executable decoder for it, the compact encoder of [json.Marshal], raw object
    members ([map[string]json.RawMessage]), and the round trip between encoder
    and decoder.  A string literal is unescaped and its invalid UTF-8 replaced by
    U+FFFD, as the Go decoder does; a number keeps its literal text. *)
From stdpp Require Import base tactics option list strings numbers pretty.
From Stdlib Require Import ZArith Lia ZifyBool ZifyN Ascii String.
From S2P Require Import Prelude GoText.

#[local] Open Scope string_scope.

Inductive json :=
  | JNull
  | JBool (b : bool)
  | JNum (lit : string)
  | JStr (s : string)
  | JArr (l : list json)
  | JObj (l : list (string * json)).

(** Induction over a value and, hereditarily, its elements and members. *)
Section JsonInd.
Variable P : json -> Prop.
Hypothesis Hnull : P JNull.
Hypothesis Hbool : forall b, P (JBool b).
Hypothesis Hnum : forall l, P (JNum l).
Hypothesis Hstr : forall s, P (JStr s).
Hypothesis Harr : forall l, Forall P l -> P (JArr l).
Hypothesis Hobj : forall l, Forall (fun kv => P kv.2) l -> P (JObj l).
Fixpoint json_ind' (v : json) : P v :=
  match v with
  | JNull => Hnull
  | JBool b => Hbool b
  | JNum l => Hnum l
  | JStr s => Hstr s
  | JArr l => Harr l
      ((fix go (l : list json) : Forall P l :=
          match l with
          | [] => Forall_nil_2 _
          | v :: l => Forall_cons_2 _ _ _ (json_ind' v) (go l)
          end) l)
  | JObj l => Hobj l
      ((fix go (l : list (string * json)) : Forall (fun kv => P kv.2) l :=
          match l with
          | [] => Forall_nil_2 _
          | kv :: l => Forall_cons_2 _ _ _ (json_ind' kv.2) (go l)
          end) l)
  end.
End JsonInd.

(** * Characters *)

Definition dquote : ascii := "034".
Definition backslash : ascii := "092".

Definition is_ws (c : ascii) : bool :=
  ((code c =? 32) || (code c =? 9) || (code c =? 10) || (code c =? 13))%N.

Fixpoint skip_ws (s : string) : string :=
  match s with
  | String c r => if is_ws c then skip_ws r else s
  | "" => ""
  end.

(** * Decoding *)

Definition hex4 (a b c d : ascii) : option N :=
  v ← hex_value a; w ← hex_value b; x ← hex_value c; y ← hex_value d;
  Some (v * 4096 + w * 256 + x * 16 + y)%N.

Definition simple_escape (c : ascii) : option ascii :=
  match c with
  | "034" => Some "034" | "092" => Some "092" | "/" => Some "/"
  | "b" => Some "008" | "f" => Some "012" | "n" => Some "010"
  | "r" => Some "013" | "t" => Some "009"
  | _ => None
  end%char.

(** The body of a string literal up to its closing quote: the decoded text and
    the input after the quote. *)
Fixpoint lex_string (s : string) : option (string * string) :=
  match s with
  | "" => None
  | String c r =>
      if Ascii.eqb c dquote then Some ("", r)
      else if Ascii.eqb c backslash then
        match r with
        | "" => None
        | String e r1 =>
            if Ascii.eqb e "u" then
              match r1 with
              | String h1 (String h2 (String h3 (String h4 r2))) =>
                  match hex4 h1 h2 h3 h4 with
                  | None => None
                  | Some cp =>
                      if ((55296 <=? cp) && (cp <=? 57343))%N then
                        match r2 with
                        | String b1 (String u1 (String g1 (String g2 (String g3 (String g4 r3))))) =>
                            match hex4 g1 g2 g3 g4 with
                            | Some lo =>
                                if Ascii.eqb b1 backslash && Ascii.eqb u1 "u"
                                   && (cp <=? 56319)%N && (56320 <=? lo)%N && (lo <=? 57343)%N
                                then '(t, k) ← lex_string r3;
                                     Some (encode_rune ((cp - 55296) * 1024 + (lo - 56320) + 65536)%N +:+ t, k)
                                else '(t, k) ← lex_string r2; Some (fffd +:+ t, k)
                            | None => '(t, k) ← lex_string r2; Some (fffd +:+ t, k)
                            end
                        | _ => '(t, k) ← lex_string r2; Some (fffd +:+ t, k)
                        end
                      else '(t, k) ← lex_string r2; Some (encode_rune cp +:+ t, k)
                  end
              | _ => None
              end
            else match simple_escape e with
                 | Some x => '(t, k) ← lex_string r1; Some (String x t, k)
                 | None => None
                 end
        end
      else if (code c <? 32)%N then None
      else '(t, k) ← lex_string r; Some (String c t, k)
  end.

Definition lex_text (s : string) : option (string * string) :=
  '(t, k) ← lex_string s; Some (sanitize t, k).

Fixpoint span_digits (s : string) : string * string :=
  match s with
  | String c r => if is_digit c then let '(d, k) := span_digits r in (String c d, k)
                  else ("", s)
  | "" => ("", "")
  end.

Definition lex_int (s : string) : option (string * string) :=
  match s with
  | String "0" r => Some ("0", r)
  | String c _ => if is_digit c then Some (span_digits s) else None
  | "" => None
  end.

Definition lex_frac (s : string) : option (string * string) :=
  match s with
  | String "." r => let '(d, k) := span_digits r in
                    if d =s "" then None else Some (String "." d, k)
  | _ => Some ("", s)
  end.

Definition lex_exp (s : string) : option (string * string) :=
  match s with
  | String e r =>
      if Ascii.eqb e "e" || Ascii.eqb e "E" then
        let '(sign, r) := match r with
                          | String "+" r' => ("+", r')
                          | String "-" r' => ("-", r')
                          | _ => ("", r)
                          end in
        let '(d, k) := span_digits r in
        if d =s "" then None else Some (String e (sign +:+ d), k)
      else Some ("", s)
  | "" => Some ("", "")
  end.

(** A number literal and the input after it. *)
Definition lex_number (s : string) : option (string * string) :=
  let '(sign, s) := match s with String "-" r => ("-", r) | _ => ("", s) end in
  '(i, s) ← lex_int s; '(f, s) ← lex_frac s; '(e, s) ← lex_exp s;
  Some (sign +:+ i +:+ f +:+ e, s).

Definition lex_literal (s : string) : option (json * string) :=
  match strip_prefix "null" s, strip_prefix "true" s, strip_prefix "false" s with
  | Some r, _, _ => Some (JNull, r)
  | _, Some r, _ => Some (JBool true, r)
  | _, _, Some r => Some (JBool false, r)
  | _, _, _ => '(l, r) ← lex_number s; Some (JNum l, r)
  end.

(** One value and the input after it; [fuel] bounds the nesting and the number
    of elements, both of which the input length bounds. *)
Fixpoint lex_value (fuel : nat) (s : string) : option (json * string) :=
  match fuel with
  | O => None
  | S n =>
      match skip_ws s with
      | "" => None
      | String c r =>
          if Ascii.eqb c dquote then '(t, k) ← lex_text r; Some (JStr t, k)
          else if Ascii.eqb c "{" then
            match skip_ws r with
            | String "}" k => Some (JObj [], k)
            | r => '(l, k) ← lex_members n r; Some (JObj l, k)
            end
          else if Ascii.eqb c "[" then
            match skip_ws r with
            | String "]" k => Some (JArr [], k)
            | r => '(l, k) ← lex_elements n r; Some (JArr l, k)
            end
          else lex_literal (String c r)
      end
  end
with lex_members (fuel : nat) (s : string) : option (list (string * json) * string) :=
  match fuel with
  | O => None
  | S n =>
      match s with
      | String q r =>
          if Ascii.eqb q dquote then
            '(key, r) ← lex_text r;
            match skip_ws r with
            | String ":" r =>
                '(v, r) ← lex_value n r;
                match skip_ws r with
                | String "}" k => Some ([(key, v)], k)
                | String "," r => '(l, k) ← lex_members n (skip_ws r); Some ((key, v) :: l, k)
                | _ => None
                end
            | _ => None
            end
          else None
      | "" => None
      end
  end
with lex_elements (fuel : nat) (s : string) : option (list json * string) :=
  match fuel with
  | O => None
  | S n =>
      '(v, r) ← lex_value n s;
      match skip_ws r with
      | String "]" k => Some ([v], k)
      | String "," r => '(l, k) ← lex_elements n r; Some (v :: l, k)
      | _ => None
      end
  end.

(** A whole document: one value and only white space after it. *)
Definition json_parse (s : string) : option json :=
  '(v, k) ← lex_value (S (String.length s)) s;
  if skip_ws k =s "" then Some v else None.

(** * Raw members *)

(** The text of the first value of [s] and the input after it. *)
Definition raw_value (s : string) : option (string * string) :=
  let s := skip_ws s in
  '(_, k) ← lex_value (S (String.length s)) s;
  Some (String.substring 0 (String.length s - String.length k) s, k).

Fixpoint raw_members_from (fuel : nat) (s : string) : option (list (string * string) * string) :=
  match fuel with
  | O => None
  | S n =>
      match s with
      | String q r =>
          if Ascii.eqb q dquote then
            '(key, r) ← lex_text r;
            match skip_ws r with
            | String ":" r =>
                '(v, r) ← raw_value r;
                match skip_ws r with
                | String "}" k => Some ([(key, v)], k)
                | String "," r =>
                    '(l, k) ← raw_members_from n (skip_ws r); Some ((key, v) :: l, k)
                | _ => None
                end
            | _ => None
            end
          else None
      | "" => None
      end
  end.

(** [json.Unmarshal] into a [map[string]json.RawMessage]: the members of an
    object with the exact text of every value; [null] leaves the map nil. *)
Definition raw_members (s : string) : option (list (string * string)) :=
  match json_parse s with
  | Some JNull => Some []
  | Some (JObj []) => Some []
  | Some (JObj _) =>
      match skip_ws s with
      | String "{" r => fst <$> raw_members_from (String.length s) (skip_ws r)
      | _ => None
      end
  | _ => None
  end.

(** * Encoding *)

Definition hex_byte (n : N) : string :=
  String (hex_digit (n / 16)) (String (hex_digit (n mod 16)) "").

(** One ASCII character inside a literal, with the HTML-safe escapes that
    [json.Marshal] applies. *)
Definition esc_ascii (c : ascii) : string :=
  let n := code c in
  if Ascii.eqb c dquote then String backslash (String dquote "")
  else if Ascii.eqb c backslash then String backslash (String backslash "")
  else if (n =? 8)%N then String backslash "b"
  else if (n =? 12)%N then String backslash "f"
  else if (n =? 10)%N then String backslash "n"
  else if (n =? 13)%N then String backslash "r"
  else if (n =? 9)%N then String backslash "t"
  else if ((n <? 32) || (n =? 60) || (n =? 62) || (n =? 38))%N
  then String backslash ("u00" +:+ hex_byte n)
  else String c "".

Fixpoint quote_body (s : string) : string :=
  match s with
  | "" => ""
  | String a s1 =>
      if (code a <? 128)%N then esc_ascii a +:+ quote_body s1 else
      match s1 with
      | "" => String backslash "ufffd"
      | String b s2 =>
          if lead2 a && cont b then String a (String b (quote_body s2)) else
          match s2 with
          | "" => String backslash "ufffd" +:+ quote_body s1
          | String c s3 =>
              if lead3 a b && cont c then
                if ((code a =? 226) && (code b =? 128) && (code c =? 168))%N
                then String backslash "u2028" +:+ quote_body s3
                else if ((code a =? 226) && (code b =? 128) && (code c =? 169))%N
                then String backslash "u2029" +:+ quote_body s3
                else String a (String b (String c (quote_body s3)))
              else
              match s3 with
              | "" => String backslash "ufffd" +:+ quote_body s1
              | String d s4 =>
                  if lead4 a b && cont c && cont d
                  then String a (String b (String c (String d (quote_body s4))))
                  else String backslash "ufffd" +:+ quote_body s1
              end
          end
      end
  end.

Definition quote (s : string) : string :=
  String dquote (quote_body s +:+ String dquote "").

Fixpoint commas (l : list string) : string :=
  match l with
  | [] => ""
  | [x] => x
  | x :: l => x +:+ String "," (commas l)
  end.

Fixpoint json_print (v : json) : string :=
  match v with
  | JNull => "null"
  | JBool true => "true"
  | JBool false => "false"
  | JNum l => l
  | JStr s => quote s
  | JArr l => String "[" (commas (map json_print l) +:+ "]")
  | JObj l =>
      String "{" (commas (map (fun kv => quote kv.1 +:+ String ":" (json_print kv.2)) l)
                  +:+ "}")
  end.

(** Text with the readable quote character ['] standing for the JSON one. *)
Definition jtext (s : string) : string :=
  str_map (fun c => if Ascii.eqb c "'" then dquote else c) s.

Example json_parse_nested :
  json_parse (jtext "{'a': [1,-2.5e3 ,null,true] , 'b\u00e9\ud83d\ude00':{} }")
  = Some (JObj [("a", JArr [JNum "1"; JNum "-2.5e3"; JNull; JBool true]);
                ("bé😀", JObj [])]).
Proof. vm_compute. reflexivity. Qed.
Example json_leading_zero : json_parse "[01]" = None.
Proof. vm_compute. reflexivity. Qed.
Example json_raw :
  raw_members (jtext "{ 'a' : [1, 2] ,'b':'\u0041'}")
  = Some [("a", "[1, 2]"); ("b", jtext "'\u0041'")].
Proof. vm_compute. reflexivity. Qed.

(** * Encoder and decoder agree *)

(** What may follow a value inside a document. *)
Definition stops (s : string) : bool :=
  match s with
  | "" => true
  | String c _ => Ascii.eqb c "," || Ascii.eqb c "]" || Ascii.eqb c "}"
  end.

Definition num_lit (l : string) : bool := bool_decide (lex_number l = Some (l, "")).

(** Values the encoder produces: valid text and whole number literals. *)
Fixpoint json_wf (v : json) : bool :=
  match v with
  | JNull | JBool _ => true
  | JNum l => num_lit l
  | JStr s => utf8_valid s
  | JArr l => forallb json_wf l
  | JObj l => forallb (fun kv => utf8_valid kv.1 && json_wf kv.2) l
  end.

Lemma lex_string_esc a t :
  (code a <? 128)%N = true ->
  lex_string (esc_ascii a +:+ t) = ('(u, k) ← lex_string t; Some (String a u, k)).
Proof.
  destruct a as [[] [] [] [] [] [] [] []]; intros Ha; try discriminate Ha; reflexivity.
Qed.

(** A byte of a multi-byte encoding passes through the literal unchanged. *)
Lemma lex_string_high a t :
  (code a <? 128)%N = false ->
  lex_string (String a t) = ('(u, k) ← lex_string t; Some (String a u, k)).
Proof.
  destruct a as [[] [] [] [] [] [] [] []]; intros Ha; try discriminate Ha; reflexivity.
Qed.

Lemma cont_high a : cont a = true -> (code a <? 128)%N = false.
Proof. unfold cont, in_range. lia. Qed.
Lemma lead3_high a b : lead3 a b = true -> (code b <? 128)%N = false.
Proof. unfold lead3, cont, in_range. lia. Qed.
Lemma lead4_high a b : lead4 a b = true -> (code b <? 128)%N = false.
Proof. unfold lead4, cont, in_range. lia. Qed.
#[local] Hint Resolve cont_high lead3_high lead4_high : cosigner.

(** The decoded text of an escaped literal is the original text. *)
Lemma lex_string_quote s rest :
  utf8_valid s = true -> lex_string (quote_body s +:+ String dquote rest) = Some (s, rest).
Proof.
  remember (String.length s) as n eqn:Hn. revert s Hn.
  induction n as [n IH] using lt_wf_ind; intros s -> Hv.
  destruct s as [|a s1]; [done|]. cbn [quote_body utf8_valid String.length] in *.
  destruct (code a <? 128)%N eqn:Ea.
  { rewrite sapp_assoc, lex_string_esc by done.
    rewrite (IH (String.length s1) ltac:(lia) s1 eq_refl Hv). done. }
  destruct s1 as [|b s2]; [done|]. cbn [String.length] in *.
  destruct (lead2 a && cont b) eqn:E2.
  { split_bools. rewrite !sapp_cons, !lex_string_high by eauto with cosigner.
    rewrite (IH (String.length s2) ltac:(lia) s2 eq_refl Hv). done. }
  destruct s2 as [|c s3]; [done|]. cbn [String.length] in *.
  destruct (lead3 a b && cont c) eqn:E3.
  { pose proof (IH (String.length s3) ltac:(lia) s3 eq_refl Hv) as IH3. split_bools.
    destruct (_ && _ && _) eqn:Ex; [|clear Ex; destruct (_ && _ && _) eqn:Ex].
    1, 2: split_bools;
      repeat match goal with H : (code ?x =? ?k)%N = true |- _ =>
        apply N.eqb_eq in H; rewrite <- (char_code x), H; clear H end;
      rewrite !sapp_cons, !sapp_nil; cbn [lex_string];
      cbn -[lex_string quote_body]; rewrite IH3; done.
    rewrite !sapp_cons, !lex_string_high by eauto with cosigner.
    rewrite IH3. done. }
  destruct s3 as [|d s4]; [done|]. cbn [String.length] in *.
  destruct (lead4 a b && cont c && cont d) eqn:E4; [|done]. cbn in Hv. split_bools.
  rewrite !sapp_cons, !lex_string_high by eauto with cosigner.
  rewrite (IH (String.length s4) ltac:(lia) s4 eq_refl Hv). done.
Qed.

Lemma lex_text_quote s rest :
  utf8_valid s = true ->
  lex_text (quote_body s +:+ String dquote rest) = Some (s, rest).
Proof. intros Hv. unfold lex_text. rewrite lex_string_quote by done. cbn. by rewrite sanitize_valid. Qed.

(** Lexing a number stops where the document continues. *)
Section Number.
Context (rest : string) (Hrest : stops rest = true).

Lemma stops_not (p : ascii -> bool) :
  (forall c, p c = true -> Ascii.eqb c "," || Ascii.eqb c "]" || Ascii.eqb c "}" = false) ->
  match rest with "" => True | String c _ => p c = false end.
Proof using Hrest.
  intros Hp. destruct rest as [|c r]; [done|]. cbn in Hrest.
  destruct (p c) eqn:E; [|done]. rewrite (Hp c E) in Hrest. done.
Qed.

Lemma span_digits_app s d k :
  span_digits s = (d, k) -> span_digits (s +:+ rest) = (d, k +:+ rest).
Proof using Hrest.
  revert d k. induction s as [|c s IH]; intros d k; cbn [span_digits].
  - intros [= <- <-]. rewrite !sapp_nil.
    assert (match rest with "" => True | String c _ => is_digit c = false end) as Hd.
    { apply stops_not. intros c. unfold is_digit, in_range.
      destruct c as [[] [] [] [] [] [] [] []]; done. }
    destruct rest as [|c r]; [done|]. cbn. by rewrite Hd.
  - rewrite sapp_cons. cbn [span_digits]. destruct (is_digit c); [|by intros [= <- <-]].
    destruct (span_digits s) as [d' k'] eqn:E. intros [= <- <-].
    by rewrite (IH _ _ eq_refl).
Qed.

Lemma lex_int_app s i k : lex_int s = Some (i, k) -> lex_int (s +:+ rest) = Some (i, k +:+ rest).
Proof using Hrest.
  destruct s as [|c s]; [done|]. rewrite sapp_cons. unfold lex_int.
  destruct (span_digits (String c s)) as [d k'] eqn:E.
  pose proof (span_digits_app _ _ _ E) as E'. rewrite sapp_cons in E'.
  destruct c as [[] [] [] [] [] [] [] []]; cbn [is_digit in_range];
    try (intros [= <- <-]; by rewrite ?E'); by vm_compute.
Qed.

Lemma lex_frac_app s f k : lex_frac s = Some (f, k) -> lex_frac (s +:+ rest) = Some (f, k +:+ rest).
Proof using Hrest.
  assert (lex_frac rest = Some ("", rest)) as Hr.
  { unfold lex_frac. destruct rest as [|c r]; [done|].
    destruct c as [[] [] [] [] [] [] [] []]; done. }
  destruct s as [|c s]; [intros [= <- <-]; exact Hr|]. rewrite sapp_cons.
  unfold lex_frac. destruct (span_digits s) as [d k'] eqn:E.
  rewrite (span_digits_app _ _ _ E).
  destruct (d =s "");
    destruct c as [[] [] [] [] [] [] [] []]; intros [= <- <-]; done.
Qed.

Lemma lex_exp_app s f k : lex_exp s = Some (f, k) -> lex_exp (s +:+ rest) = Some (f, k +:+ rest).
Proof using Hrest.
  assert (lex_exp rest = Some ("", rest)) as Hr.
  { unfold lex_exp. destruct rest as [|c r]; [done|].
    destruct c as [[] [] [] [] [] [] [] []]; done. }
  destruct s as [|c s]; [intros [= <- <-]; exact Hr|]. rewrite sapp_cons.
  unfold lex_exp. destruct (_ || _); [|by intros [= <- <-]].
  set (split := fun r => match r with
                         | String "+" r' => ("+", r') | String "-" r' => ("-", r')
                         | _ => ("", r) end).
  fold (split s). fold (split (s +:+ rest)).
  assert (exists sg r, split s = (sg, r) /\ split (s +:+ rest) = (sg, r +:+ rest)) as (sg & r & -> & ->).
  { destruct s as [|x s].
    - exists "", "". split; [done|]. destruct rest as [|y r]; [done|].
      destruct y as [[] [] [] [] [] [] [] []]; done.
    - rewrite sapp_cons. unfold split.
      destruct x as [[] [] [] [] [] [] [] []]; by eexists _, _. }
  destruct (span_digits r) as [d k'] eqn:E. rewrite (span_digits_app _ _ _ E).
  destruct (d =s ""); intros [= <- <-]; done.
Qed.

Lemma lex_number_app l : num_lit l = true -> lex_number (l +:+ rest) = Some (l, rest).
Proof using Hrest.
  unfold num_lit. intros H. split_bools. revert H. unfold lex_number at 1.
  set (split := fun s => match s with String "-" r => ("-", r) | _ => ("", s) end).
  fold (split l). unfold lex_number. fold (split (l +:+ rest)).
  destruct (lex_int (split l).2) as [[i k1]|] eqn:E1;
    [|destruct (split l); cbn in *; by rewrite E1].
  assert (split (l +:+ rest) = ((split l).1, (split l).2 +:+ rest)) as ->.
  { destruct l as [|c l]; [by vm_compute in E1|]. rewrite sapp_cons. unfold split.
    destruct c as [[] [] [] [] [] [] [] []]; done. }
  destruct (split l) as [sg s0]; cbn [fst snd] in *. rewrite E1, (lex_int_app _ _ _ E1).
  cbn [mbind option_bind].
  destruct (lex_frac k1) as [[f k2]|] eqn:E2; [|done]. rewrite (lex_frac_app _ _ _ E2).
  cbn [mbind option_bind].
  destruct (lex_exp k2) as [[e k3]|] eqn:E3; [|done]. rewrite (lex_exp_app _ _ _ E3).
  cbn [mbind option_bind]. intros [= El ->]. rewrite El. done.
Qed.
End Number.

(** The fuel a value needs, and the length of its text that bounds it. *)
Fixpoint json_size (v : json) : nat :=
  match v with
  | JArr l => S (list_sum (map (fun v => S (json_size v)) l))
  | JObj l => S (list_sum (map (fun kv => S (json_size kv.2)) l))
  | _ => 1
  end.

Lemma num_lit_head l :
  num_lit l = true -> exists c r, l = String c r /\ is_digit c || Ascii.eqb c "-" = true.
Proof.
  unfold num_lit. intros H. split_bools. destruct l as [|c r]; [by vm_compute in H|].
  exists c, r. split; [done|]. unfold lex_number, lex_int in H.
  destruct c as [[] [] [] [] [] [] [] []]; try done; by cbn in H.
Qed.

Lemma lex_value_num n l rest :
  num_lit l = true -> stops rest = true ->
  lex_value (S n) (l +:+ rest) = Some (JNum l, rest).
Proof.
  intros Hl Hr. pose proof (lex_number_app rest Hr l Hl) as HN.
  destruct (num_lit_head l Hl) as (c & r & -> & Hc). rewrite sapp_cons in *.
  transitivity ('(l, k) ← lex_number (String c (r +:+ rest)); Some (JNum l, k));
    [|by rewrite HN].
  destruct c as [[] [] [] [] [] [] [] []]; try discriminate Hc; reflexivity.
Qed.

Lemma stops_comma s : stops (String "," s) = true.
Proof. done. Qed.
Lemma stops_bracket s : stops (String "]" s) = true.
Proof. done. Qed.
Lemma stops_brace s : stops (String "}" s) = true.
Proof. done. Qed.
#[export] Hint Resolve stops_comma stops_bracket stops_brace : cosigner.

Lemma skip_ws_head c s : is_ws c = false -> skip_ws (String c s) = String c s.
Proof. intros H. cbn [skip_ws]. by rewrite H. Qed.

Definition print_member (kv : string * json) : string :=
  quote kv.1 +:+ String ":" (json_print kv.2).

(** A member list or an element list, given that its values decode. *)
Definition decodes (v : json) : Prop :=
  forall n rest, json_size v <= n -> stops rest = true ->
    lex_value n (json_print v +:+ rest) = Some (v, rest).

Lemma lex_members_print l n rest :
  l <> [] ->
  Forall (fun kv => json_wf kv.2 = true -> decodes kv.2) l ->
  forallb (fun kv => utf8_valid kv.1 && json_wf kv.2) l = true ->
  list_sum (map (fun kv => S (json_size kv.2)) l) <= n ->
  lex_members n (commas (map print_member l) +:+ String "}" rest) = Some (l, rest).
Proof.
  revert n. induction l as [|[k v] l IH]; intros n Hne HF Hwf Hn; [done|].
  apply Forall_cons in HF as [Hv HF]. cbn [forallb fst snd] in Hwf. split_bools.
  cbn [map list_sum fold_right snd] in Hn. destruct n as [|n]; [lia|].
  specialize (Hv H1). cbn [snd] in Hv.
  assert (forall t, print_member (k, v) +:+ t
      = String dquote (quote_body k +:+ String dquote (String ":" (json_print v +:+ t)))) as Hp.
  { intros t. unfold print_member, quote. cbn [fst snd]. by autorewrite with cosigner. }
  destruct l as [|kv l].
  - cbn [map commas]. rewrite Hp. cbn [lex_members Ascii.eqb].
    replace (Ascii.eqb dquote dquote) with true by done.
    rewrite lex_text_quote by done. cbn [mbind option_bind].
    rewrite skip_ws_head by done. cbn [mbind option_bind].
    rewrite Hv by (auto with cosigner; cbn in Hn; lia).
    cbn [mbind option_bind]. by rewrite skip_ws_head.
  - change (commas (map print_member ((k, v) :: kv :: l)))
      with (print_member (k, v) +:+ String "," (commas (map print_member (kv :: l)))).
    rewrite sapp_assoc, Hp, sapp_cons. cbn [lex_members].
    replace (Ascii.eqb dquote dquote) with true by done.
    rewrite lex_text_quote by done. cbn [mbind option_bind].
    rewrite skip_ws_head by done. cbn [mbind option_bind].
    rewrite Hv by (auto with cosigner; cbn in Hn; lia).
    cbn [mbind option_bind]. rewrite skip_ws_head by done.
    assert (skip_ws (commas (map print_member (kv :: l)) +:+ String "}" rest)
            = commas (map print_member (kv :: l)) +:+ String "}" rest) as ->.
    { destruct l; cbn [map commas]; unfold print_member, quote; by autorewrite with cosigner. }
    rewrite (IH n); [done|done|done|done|]. cbn in Hn |- *. lia.
Qed.

Lemma lex_elements_print l n rest :
  l <> [] ->
  Forall (fun v => json_wf v = true -> decodes v) l ->
  forallb json_wf l = true ->
  list_sum (map (fun v => S (json_size v)) l) <= n ->
  lex_elements n (commas (map json_print l) +:+ String "]" rest) = Some (l, rest).
Proof.
  revert n. induction l as [|v l IH]; intros n Hne HF Hwf Hn; [done|].
  apply Forall_cons in HF as [Hv HF]. cbn [forallb] in Hwf. split_bools.
  cbn [map list_sum fold_right] in Hn. destruct n as [|n]; [lia|].
  specialize (Hv H). cbn [lex_elements]. destruct l as [|w l].
  - cbn [map commas]. rewrite Hv by (auto with cosigner; cbn in Hn; lia). done.
  - change (commas (map json_print (v :: w :: l)))
      with (json_print v +:+ String "," (commas (map json_print (w :: l)))).
    rewrite sapp_assoc, sapp_cons, Hv by (auto with cosigner; cbn in Hn; lia).
    cbn [mbind option_bind]. rewrite skip_ws_head by done.
    rewrite (IH n); [done|done|done|done|]. cbn in Hn |- *. lia.
Qed.

Lemma print_head v rest :
  json_wf v = true -> exists c r, json_print v +:+ rest = String c r /\ is_ws c = false
                                  /\ Ascii.eqb c "]" = false /\ Ascii.eqb c "}" = false.
Proof.
  destruct v as [|[]|l|s|l|l]; intros Hwf; cbn [json_print]; unfold quote;
    rewrite ?sapp_cons; try (by eexists _, _).
  cbn in Hwf. destruct (num_lit_head l Hwf) as (c & r & -> & Hc). rewrite sapp_cons.
  eexists _, _. split; [done|].
  destruct c as [[] [] [] [] [] [] [] []]; try discriminate Hc; done.
Qed.

Lemma lex_value_string n r :
  lex_value (S n) (String dquote r) = ('(t, k) ← lex_text r; Some (JStr t, k)).
Proof. done. Qed.

Lemma lex_value_array n c r :
  is_ws c = false -> Ascii.eqb c "]" = false ->
  lex_value (S n) (String "[" (String c r))
  = ('(l, k) ← lex_elements n (String c r); Some (JArr l, k)).
Proof.
  intros Hws Hb. cbn [lex_value]. rewrite skip_ws_head by done.
  change (Ascii.eqb "[" dquote) with false. change (Ascii.eqb "[" "{") with false.
  change (Ascii.eqb "[" "[") with true. cbn iota. rewrite skip_ws_head by done.
  destruct c as [[] [] [] [] [] [] [] []]; try discriminate Hb; done.
Qed.

Lemma lex_value_object n r :
  lex_value (S n) (String "{" (String dquote r))
  = ('(l, k) ← lex_members n (String dquote r); Some (JObj l, k)).
Proof. done. Qed.

(** Decoding the text of a well-formed value gives the value back. *)
Lemma lex_value_print v : json_wf v = true -> decodes v.
Proof.
  induction v using json_ind'; intros Hwf n rest Hn Hr;
    (destruct n as [|n]; [cbn in Hn; lia|]).
  - done.
  - destruct b; done.
  - by apply lex_value_num.
  - cbn [json_print]. unfold quote. rewrite sapp_cons, sapp_assoc, sapp_cons, sapp_nil.
    by rewrite lex_value_string, lex_text_quote.
  - cbn [json_print]. rewrite sapp_cons, sapp_assoc, sapp_cons, sapp_nil.
    destruct l as [|v l]; [done|].
    assert (exists c r, commas (map json_print (v :: l)) +:+ String "]" rest = String c r
              /\ is_ws c = false /\ Ascii.eqb c "]" = false) as (c & r & Ec & Hws & Hb).
    { cbn [forallb json_wf] in Hwf. split_bools. destruct l; cbn [map commas].
      - destruct (print_head v (String "]" rest)) as (c & r & ? & ? & ? & ?); eauto.
      - rewrite sapp_assoc. edestruct (print_head v) as (c & r & ? & ? & ? & ?); eauto. }
    rewrite Ec, lex_value_array, <- Ec by done.
    rewrite lex_elements_print; [done|done|done|done|]. cbn in Hn |- *. lia.
  - cbn [json_print]. rewrite sapp_cons, sapp_assoc, sapp_cons, sapp_nil.
    destruct l as [|kv l]; [done|]. fold print_member.
    assert (exists r, commas (map print_member (kv :: l)) +:+ String "}" rest
                      = String dquote r) as (r & Ec).
    { destruct l; cbn [map commas]; unfold print_member, quote;
        autorewrite with cosigner; eauto. }
    rewrite Ec, lex_value_object, <- Ec.
    rewrite lex_members_print; [done|done|done|done|]. cbn in Hn |- *. lia.
Qed.

(** The text of a value is at least as long as the fuel it needs. *)
Lemma json_size_print v : json_wf v = true -> json_size v <= String.length (json_print v).
Proof.
  induction v as [|b|l|s|l IH|l IH] using json_ind'; intros Hwf; cbn [json_size json_print].
  - cbn. lia.
  - destruct b; cbn; lia.
  - cbn in Hwf. destruct (num_lit_head l Hwf) as (c & r & -> & _). cbn. lia.
  - unfold quote. cbn. lia.
  - cbn [String.length]. rewrite sapp_length. cbn in Hwf |- *.
    enough (list_sum (map (fun v => S (json_size v)) l)
            <= S (String.length (commas (map json_print l)))) by lia.
    induction l as [|v l IHl]; [cbn; lia|]. apply Forall_cons in IH as [Hv IH].
    cbn in Hwf. split_bools. specialize (IHl IH ltac:(done)). specialize (Hv ltac:(done)).
    destruct l as [|w l]; cbn [map commas list_sum fold_right] in *; [lia|].
    rewrite sapp_length. cbn [String.length]. lia.
  - cbn [String.length]. rewrite sapp_length. cbn in Hwf |- *.
    fold print_member.
    enough (list_sum (map (fun kv => S (json_size kv.2)) l)
            <= S (String.length (commas (map print_member l)))) by lia.
    induction l as [|v l IHl]; [cbn; lia|]. apply Forall_cons in IH as [Hv IH].
    cbn in Hwf. split_bools. specialize (IHl IH ltac:(done)). specialize (Hv ltac:(done)).
    assert (String.length (json_print v.2) + 3 <= String.length (print_member v)) as Hm.
    { unfold print_member, quote. rewrite sapp_length. cbn. rewrite sapp_length. cbn. lia. }
    destruct l as [|w l]; cbn [map commas list_sum fold_right] in *; [lia|].
    rewrite sapp_length. cbn [String.length]. lia.
Qed.

Lemma json_parse_print v : json_wf v = true -> json_parse (json_print v) = Some v.
Proof.
  intros Hwf. unfold json_parse.
  pose proof (lex_value_print v Hwf (S (String.length (json_print v))) "") as H.
  rewrite sapp_nil_r in H. rewrite H; [done| |done].
  pose proof (json_size_print v Hwf). lia.
Qed.
