(* ===== verification/StrictJson.v ===== *)
(** [internal/strictjson]: one JSON value, no unknown fields, no duplicate keys at
    any level.  The duplicate check walks a token stream ([json.Decoder.Token]);
    the theorem at the end says that the walk accepts exactly the documents whose
    objects have distinct keys hereditarily.  Decoding into a Go struct is the
    field-by-field decoder of [encoding/json] with [DisallowUnknownFields]. *)
From stdpp Require Import base tactics option list strings numbers gmap.
From Stdlib Require Import ZArith Lia Ascii String.
From S2P Require Import Prelude GoText Json.

#[local] Open Scope string_scope.

(** * Tokens *)

Inductive token :=
  | TDelim (c : ascii)
  | TString (s : string)
  | TNumber (lit : string)
  | TOther.

(** The tokens [json.Decoder] yields for a value (commas and colons are not
    tokens). *)
Fixpoint tokens (v : json) : list token :=
  match v with
  | JNull | JBool _ => [TOther]
  | JNum l => [TNumber l]
  | JStr s => [TString s]
  | JArr l => TDelim "[" :: flat_map tokens l ++ [TDelim "]"]
  | JObj l => TDelim "{" :: flat_map (fun kv => TString kv.1 :: tokens kv.2) l ++ [TDelim "}"]
  end.

(** [decoder.More()]: the next token does not close the current container. *)
Definition more (ts : list token) : bool :=
  match ts with
  | [] => false
  | TDelim "]" :: _ | TDelim "}" :: _ => false
  | _ => true
  end.

(** The recursive token walk shared by [strictjson.walkValue] and
    [mpc2of3.scanJSONValue], which differ in what they ask of a number: the
    remaining tokens, or an error.  [fuel] bounds the tokens read; a document has
    fewer.  A closing delimiter never starts a value in a token stream that the
    decoder has checked, so only [walkValue] names that case. *)
Section Walk.
Context (num_ok : string -> bool).

Fixpoint walk_value (fuel : nat) (ts : list token) : res (list token) :=
  match fuel with
  | O => Fail (ENew "unexpected end of JSON input")
  | S n =>
      match ts with
      | [] => Fail (ENew "EOF")
      | TDelim "{" :: ts => walk_object n ∅ ts
      | TDelim "[" :: ts => walk_array n ts
      | TDelim _ :: _ => Fail (ENew "invalid JSON delimiter")
      | TNumber l :: ts =>
          if num_ok l then Ok ts
          else Fail (ENew "JSON number is not a canonical bounded integer")
      | _ :: ts => Ok ts
      end
  end
with walk_object (fuel : nat) (seen : gset string) (ts : list token) : res (list token) :=
  match fuel with
  | O => Fail (ENew "unexpected end of JSON input")
  | S n =>
      if more ts then
        match ts with
        | TString name :: ts =>
            if bool_decide (name ∈ seen) then Fail (ENew "duplicate JSON field")
            else ts ← walk_value n ts; walk_object n ({[name]} ∪ seen) ts
        | _ => Fail (ENew "JSON object name is not a string")
        end
      else match ts with _ :: ts => Ok ts | [] => Fail (ENew "EOF") end
  end
with walk_array (fuel : nat) (ts : list token) : res (list token) :=
  match fuel with
  | O => Fail (ENew "unexpected end of JSON input")
  | S n =>
      if more ts then ts ← walk_value n ts; walk_array n ts
      else match ts with _ :: ts => Ok ts | [] => Fail (ENew "EOF") end
  end.

(** The whole document: a text that is not one JSON value makes some [Token]
    call fail, or leaves a second value behind. *)
Definition walk_document (raw : bytes) : res unit :=
  v ← of_option (json_parse raw) (ENew "invalid JSON");
  let ts := tokens v in
  rest ← walk_value (S (List.length ts)) ts;
  ensure (bool_decide (rest = [])) (ENew "multiple JSON values").
End Walk.

Definition walkValue : nat -> list token -> res (list token) := walk_value (fun _ => true).

(** [rejectDuplicateKeys]. *)
Definition rejectDuplicateKeys (raw : bytes) : res unit := walk_document (fun _ => true) raw.

(** * Decoding into a struct *)

(** How [encoding/json] assigns a member to a field of the struct [A]. *)
Definition setter (A : Type) : Type := json -> A -> option A.

(** An exact name match wins; otherwise names match up to case folding. *)
Definition find_field {A} (fields : list (string * setter A)) (k : string) : option (setter A) :=
  match list_find (fun f => k = f.1) fields with
  | Some (_, f) => Some f.2
  | None => (fun f => f.2.2) <$> list_find (fun f => fold_case k = fold_case f.1) fields
  end.

Fixpoint assign_members {A} (fields : list (string * setter A)) (l : list (string * json)) (a : A)
    : option A :=
  match l with
  | [] => Some a
  | (k, v) :: l =>
      f ← find_field fields k; a ← f v a; assign_members fields l a
  end.

(** A decoder with [DisallowUnknownFields]; [null] leaves the target unchanged. *)
Definition decode_struct {A} (fields : list (string * setter A)) (zero : A) (v : json) : option A :=
  match v with
  | JNull => Some zero
  | JObj l => assign_members fields l zero
  | _ => None
  end.

Definition set_string {A} (upd : string -> A -> A) : setter A := fun v a =>
  match v with JNull => Some a | JStr s => Some (upd s a) | _ => None end.
Definition set_int {A} (upd : Z -> A -> A) : setter A := fun v a =>
  match v with
  | JNull => Some a
  | JNum l => z ← parse_int64 l; Some (upd z a)
  | _ => None
  end.
Definition set_opt_string {A} (upd : option string -> A -> A) : setter A := fun v a =>
  match v with JNull => Some (upd None a) | JStr s => Some (upd (Some s) a) | _ => None end.
(** A [[]byte]: base64 text, or an array of numbers below 256. *)
Definition byte_of_json (v : json) : option ascii :=
  match v with
  | JNull => Some (char 0)
  | JNum l => z ← parse_uint64 l; if (z <? 256)%Z then Some (char (Z.to_N z)) else None
  | _ => None
  end.
Definition bytes_of_json (v : json) : option bytes :=
  match v with
  | JNull => Some ""
  | JStr s => b64_decode b64_std false s
  | JArr l => foldr String "" <$> mapM byte_of_json l
  | _ => None
  end.
Definition set_bytes {A} (upd : bytes -> A -> A) : setter A := fun v a =>
  b ← bytes_of_json v; Some (upd b a).

Definition set_bool {A} (upd : bool -> A -> A) : setter A := fun v a =>
  match v with JNull => Some a | JBool b => Some (upd b a) | _ => None end.
Definition set_uint32 {A} (upd : Z -> A -> A) : setter A := fun v a =>
  match v with
  | JNull => Some a
  | JNum l => z ← parse_uint64 l; if (z <? 2 ^ 32)%Z then Some (upd z a) else None
  | _ => None
  end.
Definition set_opt_int {A} (upd : option Z -> A -> A) : setter A := fun v a =>
  match v with
  | JNull => Some (upd None a)
  | JNum l => z ← parse_int64 l; Some (upd (Some z) a)
  | _ => None
  end.

(** [json.Marshal] of an integer, an optional string and a byte slice. *)
Definition jint (z : Z) : json := JNum (format_int z).
Definition jopt (s : option string) : json := match s with Some s => JStr s | None => JNull end.
Definition jbytes (b : bytes) : json := JStr (b64_encode b64_std b).

(** [DecodeClosed]. *)
Definition DecodeClosed {A} (decode : json -> option A) (raw : bytes) : res A :=
  _ ← rejectDuplicateKeys raw;
  v ← of_option (json_parse raw) (ENew "invalid JSON");
  of_option (decode v) (ENew "json: cannot unmarshal").

(** [DecodeCanonical]: also the exact bytes that [json.Marshal] produces. *)
Definition DecodeCanonical {A} (decode : json -> option A) (marshal : A -> bytes) (raw : bytes)
    : res A :=
  a ← DecodeClosed decode raw;
  _ ← ensure (raw =s marshal a)
        (ENew "JSON does not use the exact compact field representation");
  Ok a.

(** * The walk accepts exactly the acceptable documents *)

Definition is_fail {A} (r : res A) : Prop := exists e, r = Fail e.

Lemma more_tokens v ts : more (tokens v ++ ts)%list = true.
Proof. by destruct v. Qed.

Lemma tokens_nonempty v : (0 < List.length (tokens v))%nat.
Proof. destruct v; cbn; lia. Qed.

Definition member_tokens (kv : string * json) : list token := TString kv.1 :: tokens kv.2.

(** The outcome a walk must have: the tokens after the value, or a failure. *)
Definition verdict (b : bool) (r : res (list token)) (rest : list token) : Prop :=
  if b then r = Ok rest else is_fail r.

(** A failing first part decides the verdict; a succeeding one hands over. *)
Lemma verdict_bind b r ts (k : list token -> res (list token)) b' rest :
  verdict b r ts -> (b = true -> verdict b' (k ts) rest) ->
  verdict (b && b') (r ≫= k) rest.
Proof.
  unfold verdict. destruct b; cbn.
  - intros -> H. by apply H.
  - intros [e ->] _. by exists e.
Qed.

Section WalkSpec.
Context (num_ok : string -> bool).

(** No object at any level repeats a key, and every number passes [num_ok]. *)
Inductive acceptable : json -> Prop :=
  | acc_null : acceptable JNull
  | acc_bool b : acceptable (JBool b)
  | acc_num l : num_ok l = true -> acceptable (JNum l)
  | acc_str s : acceptable (JStr s)
  | acc_arr l : Forall acceptable l -> acceptable (JArr l)
  | acc_obj l : NoDup (map fst l) -> Forall (fun kv => acceptable kv.2) l ->
                acceptable (JObj l).

Fixpoint acceptableb (v : json) : bool :=
  match v with
  | JNum l => num_ok l
  | JArr l => forallb acceptableb l
  | JObj l => bool_decide (NoDup (map fst l)) && forallb (fun kv => acceptableb kv.2) l
  | _ => true
  end.

Lemma acceptableb_spec v : acceptableb v = true <-> acceptable v.
Proof.
  induction v as [|b|l|s|l IH|l IH] using json_ind'; cbn [acceptableb];
    try (split; [by constructor|by inversion 1]).
  - rewrite forallb_forall, <- List.Forall_forall. split.
    + intros H. constructor. rewrite Forall_forall in *. naive_solver.
    + inversion 1; subst. rewrite Forall_forall in *. naive_solver.
  - rewrite andb_true_iff, bool_decide_eq_true, forallb_forall, <- List.Forall_forall. split.
    + intros [Hd H]. constructor; [done|]. rewrite Forall_forall in *. naive_solver.
    + inversion 1; subst. split; [done|]. rewrite Forall_forall in *. naive_solver.
Qed.

Definition walks (v : json) : Prop := forall n rest,
  (List.length (tokens v) <= n)%nat ->
  verdict (acceptableb v) (walk_value num_ok n (tokens v ++ rest)%list) rest.

Lemma walk_array_spec l : Forall walks l -> forall n rest,
  (S (List.length (flat_map tokens l)) <= n)%nat ->
  verdict (forallb acceptableb l)
    (walk_array num_ok n (flat_map tokens l ++ TDelim "]" :: rest)%list) rest.
Proof.
  induction 1 as [|v l Hv Hl IH]; intros n rest Hn; (destruct n as [|n]; [cbn in Hn; lia|]).
  - done.
  - cbn [flat_map forallb walk_array] in *. rewrite length_app in Hn.
    rewrite <- (assoc_L (++)%list), more_tokens. pose proof (tokens_nonempty v).
    eapply verdict_bind; [apply Hv; lia|]. intros _. apply IH. lia.
Qed.

(** Reading one more key moves it from the pending keys to the seen ones. *)
Lemma fresh_keys_cons k (ks : list string) (seen : gset string) : k ∉ seen ->
  NoDup (k :: ks) /\ Forall (.∉ seen) (k :: ks)
  <-> NoDup ks /\ Forall (.∉ ({[k]} ∪ seen : gset string)) ks.
Proof.
  intros Hk. rewrite NoDup_cons, Forall_cons, !Forall_forall.
  split; [intros ([Hks Hd] & _ & Hl)|intros (Hd & Hl)].
  - split; [done|]. intros x Hx [->%elem_of_singleton|Hin]%elem_of_union;
      [done|by eapply Hl].
  - split_and!; [|done|done|].
    + intros Hin. apply (Hl k Hin). set_solver.
    + intros x Hx Hin. apply (Hl x Hx). set_solver.
Qed.

Lemma walk_object_spec l : Forall (fun kv => walks kv.2) l -> forall n seen rest,
  (S (List.length (flat_map member_tokens l)) <= n)%nat ->
  verdict (bool_decide (NoDup (map fst l) /\ Forall (.∉ seen) (map fst l))
           && forallb (fun kv => acceptableb kv.2) l)
    (walk_object num_ok n seen (flat_map member_tokens l ++ TDelim "}" :: rest)%list) rest.
Proof.
  induction 1 as [|[k v] l Hv Hl IH]; intros n seen rest Hn;
    (destruct n as [|n]; [cbn in Hn; lia|]).
  - rewrite bool_decide_true by (split; constructor). done.
  - cbn [flat_map forallb map fst snd] in *. rewrite length_app in Hn.
    change (member_tokens (k, v)) with (TString k :: tokens v) in *.
    cbn [List.length] in Hn. rewrite <- (assoc_L (++)%list).
    cbn [app walk_object more]. destruct (bool_decide (k ∈ seen)) eqn:Ek; split_bools.
    { rewrite bool_decide_false by (rewrite Forall_cons; naive_solver).
      eexists. reflexivity. }
    rewrite (bool_decide_ext _ _ (fresh_keys_cons k (map fst l) seen Ek)).
    rewrite andb_comm, <- andb_assoc, (andb_comm (forallb _ _)).
    eapply verdict_bind; [apply Hv; cbn; lia|]. intros _. apply IH. lia.
Qed.

Lemma walk_value_spec v : walks v.
Proof.
  induction v as [|b|l|s|l IH|l IH] using json_ind'; intros n rest Hn;
    (destruct n as [|n]; [cbn in Hn; lia|]); try done.
  - cbn. destruct (num_ok l); [done|]. eexists. reflexivity.
  - cbn [tokens acceptableb] in *. rewrite <- app_comm_cons, <- (assoc_L (++)%list).
    apply walk_array_spec; [done|]. cbn in Hn. rewrite length_app in Hn. cbn in Hn. lia.
  - cbn [tokens acceptableb] in *. rewrite <- app_comm_cons, <- (assoc_L (++)%list).
    fold member_tokens.
    pose proof (walk_object_spec l IH n ∅ rest) as H.
    rewrite (bool_decide_ext _ (NoDup (map fst l))) in H.
    2: { rewrite Forall_forall. set_solver. }
    apply H. cbn in Hn. rewrite length_app in Hn. cbn in Hn. fold member_tokens in Hn. lia.
Qed.

Lemma walk_document_spec raw :
  walk_document num_ok raw = Ok () <-> exists v, json_parse raw = Some v /\ acceptable v.
Proof.
  unfold walk_document. destruct (json_parse raw) as [v|].
  2: { split; [discriminate|]. by intros (v & ? & _). }
  pose proof (walk_value_spec v (S (List.length (tokens v))) [] ltac:(lia)) as H.
  rewrite app_nil_r in H. setoid_rewrite <- acceptableb_spec.
  unfold verdict in H. cbn [of_option mbind res_bind].
  destruct (acceptableb v) eqn:E.
  - rewrite H. split; eauto.
  - destruct H as [e ->]. split; [discriminate|]. intros (w & [= <-] & Hw). congruence.
Qed.
End WalkSpec.

(** (C12) [rejectDuplicateKeys] accepts a byte string exactly when it is one JSON
    document in which no object, at any nesting level, repeats a key. *)
Theorem rejectDuplicateKeys_spec raw :
  rejectDuplicateKeys raw = Ok ()
  <-> exists v, json_parse raw = Some v /\ acceptable (fun _ => true) v.
Proof. apply walk_document_spec. Qed.

(** A successful [DecodeClosed] decoded the one value of the input. *)
Lemma DecodeClosed_Ok {A} (decode : json -> option A) raw a :
  DecodeClosed decode raw = Ok a ->
  exists v, json_parse raw = Some v /\ acceptable (fun _ => true) v /\ decode v = Some a.
Proof.
  unfold DecodeClosed. intros H. inv_ok.
  match goal with H : rejectDuplicateKeys _ = Ok ?u |- _ =>
    destruct u; apply walk_document_spec in H as (v & Hp & Hd) end.
  exists v. split_and!; congruence.
Qed.

(** Decoding what the encoder printed. *)
Lemma DecodeClosed_print {A} (decode : json -> option A) v a :
  json_wf v = true -> acceptable (fun _ => true) v -> decode v = Some a ->
  DecodeClosed decode (json_print v) = Ok a.
Proof.
  intros Hwf Hd Ha. pose proof (json_parse_print v Hwf) as Hp. unfold DecodeClosed.
  assert (rejectDuplicateKeys (json_print v) = Ok ()) as -> by (apply walk_document_spec; eauto).
  cbn [mbind res_bind]. rewrite Hp. cbn. by rewrite Ha.
Qed.

Lemma acceptable_keys (num_ok : string -> bool) l : acceptable num_ok (JObj l) -> NoDup (map fst l).
Proof. by inversion 1. Qed.

(** * Encoding and decoding a struct *)

Lemma assign_cons {A} (fields : list (string * setter A)) k v l a f a' r :
  find_field fields k = Some f -> f v a = Some a' -> assign_members fields l a' = r ->
  assign_members fields ((k, v) :: l) a = r.
Proof. intros Hf Hv Hr. cbn. rewrite Hf. cbn. by rewrite Hv. Qed.

Lemma decode_obj {A} (fields : list (string * setter A)) zero l a :
  assign_members fields l zero = Some a -> decode_struct fields zero (JObj l) = Some a.
Proof. done. Qed.

Lemma set_bytes_encode {A} (upd : bytes -> A -> A) b a :
  set_bytes upd (jbytes b) a = Some (upd b a).
Proof. unfold set_bytes, bytes_of_json, jbytes. by rewrite (b64_decode_encode _ b64_std_ok). Qed.

Lemma ascii_utf8 s : str_forall (fun c => (code c <? 128)%N) s = true -> utf8_valid s = true.
Proof.
  induction s as [|c s IH]; [done|]. cbn [str_forall utf8_valid]. intros Hs. apply andb_true_iff in Hs as [Hc Hs].
  rewrite Hc. auto.
Qed.

Lemma b64_utf8 b : utf8_valid (b64_encode b64_std b) = true.
Proof.
  apply ascii_utf8, b64_encode_forall; [done|].
  intros n Hn. exact (forallb_below (fun n => (code (b64_char b64_std n) <? 128)%N) 64 eq_refl n Hn).
Qed.

(** A struct whose encoding decodes to itself passes the canonical check. *)
Lemma DecodeCanonical_print {A} (decode : json -> option A) (encode : A -> json) a :
  json_wf (encode a) = true -> acceptable (fun _ => true) (encode a) -> decode (encode a) = Some a ->
  DecodeCanonical decode (fun a => json_print (encode a)) (json_print (encode a)) = Ok a.
Proof.
  intros Hwf Hacc Hd. unfold DecodeCanonical. rewrite (DecodeClosed_print _ _ _ Hwf Hacc Hd).
  cbn [mbind res_bind]. by rewrite String.eqb_refl.
Qed.

(** An accepted canonical text is the encoding of the value it decodes to. *)
Lemma DecodeCanonical_Ok {A} (decode : json -> option A) (marshal : A -> bytes) raw a :
  DecodeCanonical decode marshal raw = Ok a ->
  raw = marshal a /\ exists v, json_parse raw = Some v /\ decode v = Some a.
Proof.
  unfold DecodeCanonical. intros H. inv_ok. split_bools. split; [done|].
  match goal with H : DecodeClosed _ _ = Ok _ |- _ => apply DecodeClosed_Ok in H as (v & ? & _ & ?) end. eauto.
Qed.
