(* ===== verification/Externals.v ===== *)
(** The code outside the repository that the modelled components call: the JCS
    canonicaliser, the elliptic-curve, hash, signature and cipher primitives, the
    base58 codec and the MPC core library.  It is an interface, so that every
    definition and theorem below holds for any implementation; what a theorem
    needs of it is a hypothesis of that theorem.  [toy_externals] is one concrete
    implementation, on which the witnesses evaluate. *)
From stdpp Require Import base tactics option list strings numbers.
From Stdlib Require Import ZArith Lia Ascii String.
From S2P Require Import Prelude GoText Sha256.

#[local] Open Scope string_scope.

(** [coretss.DerivationContext]. *)
Record CoreDerivationContext := {
  cd_ProfileID : string; cd_ProfileTemplateID : string; cd_ProfileVersion : Z;
  cd_Chain : string; cd_Algorithm : string; cd_Curve : string; cd_Scheme : string;
  cd_AccountPath : string; cd_ChildPath : string; cd_FullPath : string;
  cd_AddressEncoding : string; cd_ExpectedAddress : string;
  cd_DerivedPublicKey : string; cd_PublicKeyFormat : string;
  cd_DescriptorVersion : Z; cd_KeyVersion : Z;
}.

(** [coretss.InspectEncodedECDSAKeyMaterial] results. *)
Record KeyMaterial := {
  km_AccountPublicKey : bytes; km_ChainCodeHash : bytes; km_CodecVersion : Z;
}.

Class Externals := {
  (** [github.com/gowebpki/jcs.Transform]. *)
  jcs_transform : bytes -> res bytes;
  (** [btcec.ParsePubKey(raw).SerializeUncompressed()]. *)
  parse_pubkey : bytes -> option bytes;
  (** [sha3.NewLegacyKeccak256]. *)
  keccak256 : bytes -> bytes;
  (** [base58.CheckEncode] and [base58.CheckDecode]. *)
  base58_check_encode : bytes -> N -> string;
  base58_check_decode : string -> option (bytes * N);
  (** [ed25519.Verify(public, message, signature)], [ed25519.Sign(private, message)]
      and [private.Public()]. *)
  ed25519_verify : bytes -> bytes -> bytes -> bool;
  ed25519_sign : bytes -> bytes -> bytes;
  ed25519_public : bytes -> bytes;
  (** AES-256-GCM [Seal(nonce, plaintext)] and [Open(nonce, sealed)] under a key. *)
  gcm_seal : bytes -> bytes -> bytes -> bytes;
  gcm_open : bytes -> bytes -> bytes -> option bytes;
  (** [coretss.DerivationContextHashV1], [coretss.NormalizeDerivationContext] and
      [coretss.InspectEncodedECDSAKeyMaterial]. *)
  derivation_context_hash : CoreDerivationContext -> res string;
  normalize_derivation_context : CoreDerivationContext -> res CoreDerivationContext;
  inspect_key_material : bytes -> res KeyMaterial;
  (** [url.Parse] restricted to what [validEndpoint] asks of it. *)
  https_endpoint : string -> bool;
}.

(** A signature is 64 bytes, a tag 16 bytes, and each is a keyed digest. *)
Definition toy_sign (public msg : bytes) : bytes :=
  sha256 (public +:+ msg) +:+ sha256 (msg +:+ public).
Definition toy_tag (key nonce msg : bytes) : bytes :=
  String.substring 0 16 (sha256 (key +:+ nonce +:+ msg)).

#[export] Instance toy_externals : Externals := {|
  jcs_transform raw := Ok raw;
  parse_pubkey raw := Some raw;
  keccak256 := sha256;
  base58_check_encode raw v := hex_encode (String (char v) raw);
  base58_check_decode s :=
    match hex_decode s with Some (String v raw) => Some (raw, code v) | _ => None end;
  ed25519_verify public msg signature := signature =s toy_sign public msg;
  ed25519_sign private msg := toy_sign (String.substring 32 32 private) msg;
  ed25519_public private := String.substring 32 32 private;
  gcm_seal key nonce msg := msg +:+ toy_tag key nonce msg;
  gcm_open key nonce sealed :=
    let msg := String.substring 0 (String.length sealed - 16) sealed in
    if sealed =s msg +:+ toy_tag key nonce msg then Some msg else None;
  derivation_context_hash c := Ok (sha256_hex (cd_FullPath c));
  normalize_derivation_context c := Ok c;
  inspect_key_material raw :=
    Ok {| km_AccountPublicKey := raw; km_ChainCodeHash := sha256 raw; km_CodecVersion := 1 |};
  https_endpoint s := has_prefix "https://" s;
|}.
