(* ===== verification/Mpc2of3.v ===== *)
(** [internal/contract/mpc2of3]: SHA-256 digests in base64url, the exact JCS gate,
    the 2-of-3 key descriptor and the DKG terminal result. *)
From stdpp Require Import base tactics option list strings numbers gmap.
From Stdlib Require Import ZArith Lia Ascii String.
From S2P Require Import Prelude GoText Sha256 Json StrictJson Externals.

#[local] Open Scope string_scope.

(** * digest.go *)

(** A [sha256DigestV1] is 32 bytes; the fingerprint types are copies of it. *)
Definition digest_String (d : bytes) : string := b64_encode b64_rawurl d.

Definition base64url_char (c : ascii) : bool :=
  in_range 65 90 c || in_range 97 122 c || in_range 48 57 c
  || Ascii.eqb c "-" || Ascii.eqb c "_".

Definition parseSHA256Digest (raw : string) : res bytes :=
  if negb (zlen raw =? 43)%Z then Fail (ENew "SHA-256 digest must be exactly 43 characters")
  else if negb (str_forall base64url_char raw)
  then Fail (ENew "SHA-256 digest contains a non-base64url character")
  else match b64_decode b64_rawurl false raw with
       | Some decoded =>
           if negb (zlen decoded =? 32)%Z || (b64_encode b64_rawurl decoded <>s raw)
           then Fail (ENew "SHA-256 digest is not canonical base64url")
           else Ok decoded
       | None => Fail (ENew "SHA-256 digest is not canonical base64url")
       end.

Definition ParseDescriptorFingerprint : string -> res bytes := parseSHA256Digest.
Definition ParseArtifactFingerprint : string -> res bytes := parseSHA256Digest.
Definition ParseTerminalResultFingerprint : string -> res bytes := parseSHA256Digest.
Definition ParseChainCodeHash : string -> res bytes := parseSHA256Digest.
Definition DescriptorFingerprintFor : bytes -> bytes := sha256.
Definition ArtifactFingerprintFor : bytes -> bytes := sha256.
Definition TerminalResultFingerprintFor : bytes -> bytes := sha256.
Definition ChainCodeHashFor : bytes -> bytes := sha256.

(** * jcs.go *)

(** The pattern of a decimal without leading zeros or sign. *)
Definition unsignedJSONInteger (s : string) : bool :=
  (s =s "0") || match s with
                | String c r => in_range 49 57 c && str_forall is_digit r
                | "" => false
                end.
Definition maxSafeJSONInteger : Z := 2 ^ 53 - 1.

(** The number clause of [scanJSONValue]. *)
Definition safe_integer (lit : string) : bool :=
  unsignedJSONInteger lit
  && match parse_uint64 lit with Some n => (n <=? maxSafeJSONInteger)%Z | None => false end.

Definition scanJSONValue : nat -> list token -> res (list token) := walk_value safe_integer.
Definition validateJSONTokens (raw : bytes) : res unit := walk_document safe_integer raw.

Definition ascii_text (value : string) : bool :=
  (value <>s "") && str_forall (in_range 32 126) value.
Definition printableASCII (raw : bytes) : bool :=
  (raw <>s "") && str_forall (in_range 32 126) raw.
Definition boundedASCII (value : string) : bool := (zlen value <=? 255)%Z && ascii_text value.

(** [^mpc_key_[0-9a-f]{8}-[0-9a-f]{4}-[0-9a-f]{4}-[0-9a-f]{4}-[0-9a-f]{12}$]. *)
Definition lower_hex (c : ascii) : bool := in_range 48 57 c || in_range 97 102 c.
Fixpoint hex_run (n : nat) (s : string) : option string :=
  match n, s with
  | O, _ => Some s
  | S n, String c r => if lower_hex c then hex_run n r else None
  | S _, "" => None
  end.
Definition keyIDPattern (s : string) : bool :=
  match (s ← strip_prefix "mpc_key_" s; s ← hex_run 8 s; s ← strip_prefix "-" s;
         s ← hex_run 4 s; s ← strip_prefix "-" s; s ← hex_run 4 s; s ← strip_prefix "-" s;
         s ← hex_run 4 s; s ← strip_prefix "-" s; hex_run 12 s) with
  | Some rest => rest =s ""
  | None => false
  end.

(** A slice field: [null] is nil, an array decodes element by element. *)
Definition set_list {A B} (dec : json -> option B) (upd : list B -> A -> A) : setter A := fun v a =>
  match v with
  | JNull => Some (upd [] a)
  | JArr l => bs ← mapM dec l; Some (upd bs a)
  | _ => None
  end.

Section Contracts.
Context `{Externals}.

Definition canonicalJCS (raw : bytes) : res bytes :=
  _ ← validateJSONTokens raw; jcs_transform raw.
Definition requireCanonicalJCS (raw : bytes) : res unit :=
  canonical ← canonicalJCS raw;
  ensure (raw =s canonical) (ENew "JSON is not exact JCS bytes").

(** * descriptor.go *)

Record PartyV1 := { party_PartyID : string; party_Purpose : string }.
Record KeyDescriptorV1 := {
  kd_Algorithm : string; kd_ChainCodeHash : string; kd_Curve : string; kd_DerivationScheme : string;
  kd_DescriptorKind : string; kd_DescriptorVersion : Z; kd_KeyID : string; kd_Parties : list PartyV1;
  kd_ProtocolVersion : Z; kd_PublicKeyFormat : string; kd_Threshold : Z;
}.

Definition decode_PartyV1 : json -> option PartyV1 :=
  decode_struct
    [("partyId", set_string (fun s p => {| party_PartyID := s; party_Purpose := party_Purpose p |}));
     ("purpose", set_string (fun s p => {| party_PartyID := party_PartyID p; party_Purpose := s |}))]
    {| party_PartyID := ""; party_Purpose := "" |}.

Definition zero_descriptor : KeyDescriptorV1 :=
  {| kd_Algorithm := ""; kd_ChainCodeHash := ""; kd_Curve := ""; kd_DerivationScheme := "";
     kd_DescriptorKind := ""; kd_DescriptorVersion := 0; kd_KeyID := ""; kd_Parties := [];
     kd_ProtocolVersion := 0; kd_PublicKeyFormat := ""; kd_Threshold := 0 |}.

Definition decode_KeyDescriptorV1 : json -> option KeyDescriptorV1 :=
  decode_struct
    [("algorithm", set_string (fun s '(Build_KeyDescriptorV1 _ b c d e f g h i j k) => Build_KeyDescriptorV1 s b c d e f g h i j k));
     ("chainCodeHash", set_string (fun s '(Build_KeyDescriptorV1 a _ c d e f g h i j k) => Build_KeyDescriptorV1 a s c d e f g h i j k));
     ("curve", set_string (fun s '(Build_KeyDescriptorV1 a b _ d e f g h i j k) => Build_KeyDescriptorV1 a b s d e f g h i j k));
     ("derivationScheme", set_string (fun s '(Build_KeyDescriptorV1 a b c _ e f g h i j k) => Build_KeyDescriptorV1 a b c s e f g h i j k));
     ("descriptorKind", set_string (fun s '(Build_KeyDescriptorV1 a b c d _ f g h i j k) => Build_KeyDescriptorV1 a b c d s f g h i j k));
     ("descriptorVersion", set_int (fun n '(Build_KeyDescriptorV1 a b c d e _ g h i j k) => Build_KeyDescriptorV1 a b c d e n g h i j k));
     ("keyId", set_string (fun s '(Build_KeyDescriptorV1 a b c d e f _ h i j k) => Build_KeyDescriptorV1 a b c d e f s h i j k));
     ("parties", set_list decode_PartyV1 (fun l '(Build_KeyDescriptorV1 a b c d e f g _ i j k) => Build_KeyDescriptorV1 a b c d e f g l i j k));
     ("protocolVersion", set_int (fun n '(Build_KeyDescriptorV1 a b c d e f g h _ j k) => Build_KeyDescriptorV1 a b c d e f g h n j k));
     ("publicKeyFormat", set_string (fun s '(Build_KeyDescriptorV1 a b c d e f g h i _ k) => Build_KeyDescriptorV1 a b c d e f g h i s k));
     ("threshold", set_int (fun n '(Build_KeyDescriptorV1 a b c d e f g h i j _) => Build_KeyDescriptorV1 a b c d e f g h i j n))]
    zero_descriptor.

Definition want_parties : list (string * string) :=
  [("mpc-signer", "platform"); ("co-signer-primary", "primary"); ("co-signer-recovery", "recovery")].

(** [for i, party := range d.Parties], after the length test. *)
Fixpoint check_parties (ps : list PartyV1) (want : list (string * string)) : res unit :=
  match ps, want with
  | p :: ps, w :: want =>
      if negb (ascii_text (party_PartyID p)) || (party_PartyID p <>s w.1) || (party_Purpose p <>s w.2)
      then Fail (ENew "invalid party") else check_parties ps want
  | _, _ => Ok ()
  end.

Definition descriptor_validate (d : KeyDescriptorV1) : res unit :=
  if (kd_DescriptorKind d <>s "mpc-key-descriptor") || negb (kd_DescriptorVersion d =? 1)%Z
     || negb (kd_ProtocolVersion d =? 1)%Z || (kd_Algorithm d <>s "ECDSA") || (kd_Curve d <>s "secp256k1")
     || negb (kd_Threshold d =? 2)%Z || (kd_DerivationScheme d <>s "bip32_secp256k1")
     || (kd_PublicKeyFormat d <>s "compressed_sec1")
  then Fail (ENew "unsupported descriptor contract")
  else if negb (keyIDPattern (kd_KeyID d)) then Fail (ENew "invalid keyId")
  else match ParseChainCodeHash (kd_ChainCodeHash d) with
       | Fail e => Fail (EWrap "invalid chainCodeHash" e)
       | Ok _ =>
           if negb (List.length (kd_Parties d) =? 3)%nat
           then Fail (ENew "descriptor must contain exactly three parties")
           else check_parties (kd_Parties d) want_parties
       end.

Definition ParseCanonicalDescriptor (raw : bytes) : res (KeyDescriptorV1 * bytes) :=
  if (2048 <? zlen raw)%Z || negb (printableASCII raw)
  then Fail (ENew "descriptor requires nonempty bounded ASCII bytes")
  else
    _ ← requireCanonicalJCS raw;
    descriptor ← DecodeClosed decode_KeyDescriptorV1 raw;
    _ ← descriptor_validate descriptor;
    Ok (descriptor, DescriptorFingerprintFor raw).

(** * terminal.go *)

Record ArtifactResultV1 := {
  ar_ArtifactFingerprint : string; ar_PartyID : string; ar_Purpose : string;
}.
Record CompletedResultV1 := {
  cr_AccountPublicKey : string; cr_Artifacts : list ArtifactResultV1;
  cr_ChainCodeHash : string; cr_DescriptorFingerprint : string;
}.
Record TerminalResultV1 := {
  tr_IntentID : string; tr_KeyID : string; tr_Result : option CompletedResultV1;
  tr_ResultKind : string; tr_ResultVersion : Z; tr_SessionID : string; tr_Status : string;
}.

Definition TerminalStatusCompleted := "COMPLETED".
Definition TerminalStatusFailed := "FAILED".
Definition TerminalStatusTimedOut := "TIMED_OUT".

Definition want_artifacts : list (string * string) :=
  [("co-signer-primary", "primary"); ("co-signer-recovery", "recovery")].

Fixpoint check_artifacts (l : list ArtifactResultV1) (want : list (string * string)) : res unit :=
  match l, want with
  | a :: l, w :: want =>
      if (ar_PartyID a <>s w.1) || (ar_Purpose a <>s w.2) then Fail (ENew "invalid artifact")
      else match ParseArtifactFingerprint (ar_ArtifactFingerprint a) with
           | Fail e => Fail (EWrap "invalid artifact fingerprint" e)
           | Ok _ => check_artifacts l want
           end
  | _, _ => Ok ()
  end.

(** [publicKey[0]] of a decoded key. *)
Definition first_code (s : bytes) : N := match s with String c _ => code c | "" => 0 end.

Definition completed_validate (r : CompletedResultV1) : res unit :=
  match ParseDescriptorFingerprint (cr_DescriptorFingerprint r) with
  | Fail e => Fail (EWrap "invalid descriptorFingerprint" e)
  | Ok _ =>
    match ParseChainCodeHash (cr_ChainCodeHash r) with
    | Fail e => Fail (EWrap "invalid chainCodeHash" e)
    | Ok _ =>
      if negb (zlen (cr_AccountPublicKey r) =? 66)%Z
         || negb (str_forall lower_hex (cr_AccountPublicKey r))
      then Fail (ENew "invalid compressed public key")
      else match hex_decode (cr_AccountPublicKey r) with
           | None => Fail (ENew "invalid compressed public key")
           | Some publicKey =>
             if negb (first_code publicKey =? 2)%N && negb (first_code publicKey =? 3)%N
             then Fail (ENew "invalid compressed public key")
             else match parse_pubkey publicKey with
                  | None => Fail (ENew "invalid compressed public key")
                  | Some _ =>
                    if negb (List.length (cr_Artifacts r) =? 2)%nat
                    then Fail (ENew "completed result must contain two artifacts")
                    else check_artifacts (cr_Artifacts r) want_artifacts
                  end
           end
    end
  end.

Definition terminal_validate (r : TerminalResultV1) (hasResult : bool) : res unit :=
  if (tr_ResultKind r <>s "mpc-dkg-terminal-result") || negb (tr_ResultVersion r =? 1)%Z
     || negb (boundedASCII (tr_IntentID r)) || negb (boundedASCII (tr_SessionID r))
     || negb (keyIDPattern (tr_KeyID r))
  then Fail (ENew "invalid terminal result identity")
  else if (tr_Status r =s TerminalStatusFailed) || (tr_Status r =s TerminalStatusTimedOut) then
    match tr_Result r with
    | Some _ => Fail (ENew "result must be minimal")
    | None => if hasResult then Fail (ENew "result must be minimal") else Ok ()
    end
  else if tr_Status r =s TerminalStatusCompleted then
    match tr_Result r with
    | Some c => if hasResult then completed_validate c
                else Fail (ENew "completed result is required")
    | None => Fail (ENew "completed result is required")
    end
  else Fail (ENew "invalid terminal status").

(** [json.Marshal] of the result structs. *)
Definition marshal_artifact (a : ArtifactResultV1) : json :=
  JObj [("artifactFingerprint", JStr (ar_ArtifactFingerprint a));
        ("partyId", JStr (ar_PartyID a)); ("purpose", JStr (ar_Purpose a))].
Definition marshal_completed (c : CompletedResultV1) : json :=
  JObj [("accountPublicKey", JStr (cr_AccountPublicKey c));
        ("artifacts", JArr (map marshal_artifact (cr_Artifacts c)));
        ("chainCodeHash", JStr (cr_ChainCodeHash c));
        ("descriptorFingerprint", JStr (cr_DescriptorFingerprint c))].
Definition marshal_terminal (r : TerminalResultV1) : json :=
  JObj ([("intentId", JStr (tr_IntentID r)); ("keyId", JStr (tr_KeyID r))]
        ++ match tr_Result r with Some c => [("result", marshal_completed c)] | None => [] end
        ++ [("resultKind", JStr (tr_ResultKind r));
            ("resultVersion", JNum (format_int (tr_ResultVersion r)));
            ("sessionId", JStr (tr_SessionID r)); ("status", JStr (tr_Status r))])%list.

Definition is_some {A} (o : option A) : bool := match o with Some _ => true | None => false end.

Definition CanonicalTerminalResultBytes (result : TerminalResultV1) : res bytes :=
  if tr_Status result =s TerminalStatusTimedOut
  then Fail (ENew "co-signer cannot originate TIMED_OUT terminal results")
  else
    _ ← terminal_validate result (is_some (tr_Result result));
    canonicalJCS (json_print (marshal_terminal result)).

Definition decode_ArtifactResultV1 : json -> option ArtifactResultV1 :=
  decode_struct
    [("artifactFingerprint", set_string (fun s '(Build_ArtifactResultV1 _ b c) => Build_ArtifactResultV1 s b c));
     ("partyId", set_string (fun s '(Build_ArtifactResultV1 a _ c) => Build_ArtifactResultV1 a s c));
     ("purpose", set_string (fun s '(Build_ArtifactResultV1 a b _) => Build_ArtifactResultV1 a b s))]
    {| ar_ArtifactFingerprint := ""; ar_PartyID := ""; ar_Purpose := "" |}.
Definition decode_CompletedResultV1 : json -> option CompletedResultV1 :=
  decode_struct
    [("accountPublicKey", set_string (fun s '(Build_CompletedResultV1 _ b c d) => Build_CompletedResultV1 s b c d));
     ("artifacts", set_list decode_ArtifactResultV1 (fun l '(Build_CompletedResultV1 a _ c d) => Build_CompletedResultV1 a l c d));
     ("chainCodeHash", set_string (fun s '(Build_CompletedResultV1 a b _ d) => Build_CompletedResultV1 a b s d));
     ("descriptorFingerprint", set_string (fun s '(Build_CompletedResultV1 a b c _) => Build_CompletedResultV1 a b c s))]
    {| cr_AccountPublicKey := ""; cr_Artifacts := []; cr_ChainCodeHash := "";
       cr_DescriptorFingerprint := "" |}.
(** A pointer field: [null] is nil, otherwise a fresh value is decoded. *)
Definition set_pointer {A B} (dec : json -> option B) (upd : option B -> A -> A) : setter A :=
  fun v a => match v with
             | JNull => Some (upd None a)
             | _ => b ← dec v; Some (upd (Some b) a)
             end.
Definition decode_TerminalResultV1 : json -> option TerminalResultV1 :=
  decode_struct
    [("intentId", set_string (fun s '(Build_TerminalResultV1 _ b c d e f g) => Build_TerminalResultV1 s b c d e f g));
     ("keyId", set_string (fun s '(Build_TerminalResultV1 a _ c d e f g) => Build_TerminalResultV1 a s c d e f g));
     ("result", set_pointer decode_CompletedResultV1 (fun r '(Build_TerminalResultV1 a b _ d e f g) => Build_TerminalResultV1 a b r d e f g));
     ("resultKind", set_string (fun s '(Build_TerminalResultV1 a b c _ e f g) => Build_TerminalResultV1 a b c s e f g));
     ("resultVersion", set_int (fun n '(Build_TerminalResultV1 a b c d _ f g) => Build_TerminalResultV1 a b c d n f g));
     ("sessionId", set_string (fun s '(Build_TerminalResultV1 a b c d e _ g) => Build_TerminalResultV1 a b c d e s g));
     ("status", set_string (fun s '(Build_TerminalResultV1 a b c d e f _) => Build_TerminalResultV1 a b c d e f s))]
    {| tr_IntentID := ""; tr_KeyID := ""; tr_Result := None; tr_ResultKind := "";
       tr_ResultVersion := 0; tr_SessionID := ""; tr_Status := "" |}.

(** [fields["result"] != nil] holds when the member is present, even as null. *)
Definition has_member (k : string) (v : json) : bool :=
  match v with JObj l => bool_decide (k ∈ map fst l) | _ => false end.

Definition ParseCanonicalTerminalResult (raw : bytes) : res (TerminalResultV1 * bytes) :=
  if (2048 <? zlen raw)%Z || negb (printableASCII raw)
  then Fail (ENew "terminal result requires nonempty bounded ASCII bytes")
  else
    _ ← requireCanonicalJCS raw;
    result ← DecodeClosed decode_TerminalResultV1 raw;
    v ← of_option (json_parse raw) (ENew "decode terminal result fields");
    _ ← terminal_validate result (has_member "result" v);
    Ok (result, TerminalResultFingerprintFor raw).
End Contracts.

(** * Digests round-trip *)

Lemma base64url_alphabet n : (n < 64)%N -> base64url_char (b64_char b64_rawurl n) = true.
Proof.
  intros Hn.
  exact (forallb_below (fun n => base64url_char (b64_char b64_rawurl n)) 64 eq_refl n Hn).
Qed.

(** The textual digest form is a bijection: [parseSHA256Digest] accepts a
    string exactly when it is what [String] prints for a 32-byte digest, and then
    returns that digest, so no two spellings denote one digest. *)
Theorem parseSHA256Digest_spec s d :
  parseSHA256Digest s = Ok d <-> String.length d = 32%nat /\ digest_String d = s.
Proof.
  unfold parseSHA256Digest, digest_String, zlen. split.
  - intros H. step_if H. step_if H. step_if H. step_if H. inv_ok. split_bools.
    split; [lia|done].
  - intros [Hlen <-].
    rewrite b64_encode_length, Hlen by done.
    rewrite b64_encode_forall by (done || apply base64url_alphabet).
    rewrite (b64_decode_encode _ b64_rawurl_ok), Hlen, String.eqb_refl. done.
Qed.

(** * What an accepted contract guarantees *)

Section ContractFacts.
Context `{Externals}.

Lemma check_parties_Ok ps want :
  List.length ps = List.length want -> check_parties ps want = Ok () ->
  map (fun p => (party_PartyID p, party_Purpose p)) ps = want.
Proof.
  revert want. induction ps as [|p ps IH]; intros [|w want]; cbn; try done.
  intros Hl. destruct (_ || _) eqn:E; [done|]. split_bools. intros Hc.
  f_equal; [by destruct w; cbn in *; congruence|]. apply IH; [lia|done].
Qed.

Lemma check_artifacts_Ok l want :
  List.length l = List.length want -> check_artifacts l want = Ok () ->
  map (fun a => (ar_PartyID a, ar_Purpose a)) l = want
  /\ Forall (fun a => exists d, ParseArtifactFingerprint (ar_ArtifactFingerprint a) = Ok d) l.
Proof.
  revert want. induction l as [|a l IH]; intros [|w want]; cbn; try done.
  intros Hl. destruct (_ || _) eqn:E; [done|].
  destruct (ParseArtifactFingerprint _) as [d|] eqn:Ed; [|done]. split_bools. intros Hc.
  destruct (IH want) as [Hm Hf]; [lia|done|]. split; [|eauto].
  f_equal; [by destruct w; cbn in *; congruence|done].
Qed.

Lemma requireCanonicalJCS_Ok raw u :
  requireCanonicalJCS raw = Ok u -> validateJSONTokens raw = Ok () /\ jcs_transform raw = Ok raw.
Proof.
  unfold requireCanonicalJCS, canonicalJCS. intros Hr. inv_ok. split_bools.
  match goal with E : validateJSONTokens raw = Ok ?x |- _ => destruct x end.
  split; congruence.
Qed.

(** What a successful [ParseCanonicalDescriptor] checked. *)
Lemma ParseCanonicalDescriptor_facts raw d fp :
  ParseCanonicalDescriptor raw = Ok (d, fp) ->
  jcs_transform raw = Ok raw
  /\ (exists v, json_parse raw = Some v /\ acceptable safe_integer v)
  /\ kd_Algorithm d = "ECDSA" /\ kd_Curve d = "secp256k1" /\ kd_Threshold d = 2%Z
  /\ kd_DerivationScheme d = "bip32_secp256k1" /\ kd_PublicKeyFormat d = "compressed_sec1"
  /\ keyIDPattern (kd_KeyID d) = true
  /\ (exists h, parseSHA256Digest (kd_ChainCodeHash d) = Ok h)
  /\ map (fun p => (party_PartyID p, party_Purpose p)) (kd_Parties d) = want_parties
  /\ fp = sha256 raw /\ (String.length raw <= 2048)%nat /\ raw <> "".
Proof.
  unfold ParseCanonicalDescriptor. intros Hp. step_if Hp. inv_ok.
  match goal with Hr : requireCanonicalJCS _ = _ |- _ =>
    apply requireCanonicalJCS_Ok in Hr as [Htok Hjcs] end.
  match goal with Hv : descriptor_validate _ = _ |- _ => unfold descriptor_validate in Hv;
    do 4 step_if Hv; rename Hv into Hparties end.
  split_bools. apply walk_document_spec in Htok.
  match goal with u : unit |- _ => destruct u end.
  apply check_parties_Ok in Hparties; [|by apply Nat.eqb_eq]. unfold zlen, printableASCII in *. split_bools.
  split_and!; eauto; lia.
Qed.

(** A descriptor that [ParseCanonicalDescriptor] accepts is exact JCS bytes
    without duplicate keys and with safe integers only, describes the fixed
    product contract (ECDSA over secp256k1, threshold 2, BIP-32, compressed keys)
    with the three parties in their fixed order and purposes, carries a
    well-formed key id and chain-code hash, and is fingerprinted by the SHA-256 of
    its own bytes. *)
Theorem ParseCanonicalDescriptor_sound raw d fp :
  ParseCanonicalDescriptor raw = Ok (d, fp) ->
  jcs_transform raw = Ok raw
  /\ (exists v, json_parse raw = Some v /\ acceptable safe_integer v)
  /\ kd_Algorithm d = "ECDSA" /\ kd_Curve d = "secp256k1" /\ kd_Threshold d = 2%Z
  /\ kd_DerivationScheme d = "bip32_secp256k1" /\ kd_PublicKeyFormat d = "compressed_sec1"
  /\ keyIDPattern (kd_KeyID d) = true
  /\ (exists h, parseSHA256Digest (kd_ChainCodeHash d) = Ok h)
  /\ map (fun p => (party_PartyID p, party_Purpose p)) (kd_Parties d) = want_parties
  /\ fp = sha256 raw /\ (String.length raw <= 2048)%nat.
Proof.
  intros Hp. pose proof (ParseCanonicalDescriptor_facts raw d fp Hp) as Hf. by destruct_and! Hf; split_and!.
Qed.

(** The co-signer originates only COMPLETED or FAILED terminal results with
    bounded printable identities: a FAILED one carries no result, and a COMPLETED
    one carries exactly the primary and the recovery artifact, in that order, with
    canonical fingerprints, chain-code hash and descriptor fingerprint and a
    compressed public key that the curve library accepts. *)
Theorem CanonicalTerminalResultBytes_sound r raw :
  CanonicalTerminalResultBytes r = Ok raw ->
  boundedASCII (tr_IntentID r) = true /\ boundedASCII (tr_SessionID r) = true
  /\ keyIDPattern (tr_KeyID r) = true
  /\ ((tr_Status r = TerminalStatusFailed /\ tr_Result r = None)
      \/ exists c, tr_Status r = TerminalStatusCompleted /\ tr_Result r = Some c
         /\ map (fun a => (ar_PartyID a, ar_Purpose a)) (cr_Artifacts c) = want_artifacts
         /\ Forall (fun a => exists d, parseSHA256Digest (ar_ArtifactFingerprint a) = Ok d)
              (cr_Artifacts c)
         /\ (exists h, parseSHA256Digest (cr_ChainCodeHash c) = Ok h)
         /\ (exists h, parseSHA256Digest (cr_DescriptorFingerprint c) = Ok h)
         /\ exists key, hex_decode (cr_AccountPublicKey c) = Some key
              /\ (first_code key = 2 \/ first_code key = 3)%N /\ parse_pubkey key <> None).
Proof.
  unfold CanonicalTerminalResultBytes. intros Hr. step_if Hr. inv_ok.
  match goal with Hv : terminal_validate _ _ = _ |- _ => unfold terminal_validate in Hv;
    rename Hv into Hval end.
  step_if Hval. split_bools.
  split_and!; [done..|]. destruct (_ || _) eqn:E1 in Hval.
  - left. apply orb_true_iff in E1 as [E1|E1]; split_bools; [|by rewrite E1 in *].
    destruct (tr_Result r); [done|]. done.
  - step_if Hval. step_if Hval. cbn in Hval. right. exists c. split_bools.
    unfold completed_validate in Hval. do 7 step_if Hval.
    match goal with u : unit |- _ => destruct u end. split_bools.
    apply check_artifacts_Ok in Hval as [Hm Hf]; [|by apply Nat.eqb_eq].
    split_and!; eauto. eexists. split_and!; [done| |congruence].
    match goal with E : _ && _ = false |- _ => apply andb_false_iff in E as [E|E] end;
      split_bools; [left|right]; by apply N.eqb_eq.
Qed.
End ContractFacts.

(** The canonical descriptor fixture of the contract directory. *)
Definition fixture_descriptor : bytes := jtext (
  "{'algorithm':'ECDSA','chainCodeHash':'AAAAAAAAAAAAAAAAAAAAAAAAAAAAAAAAAAAAAAAAAAA',"
  ++ "'curve':'secp256k1','derivationScheme':'bip32_secp256k1',"
  ++ "'descriptorKind':'mpc-key-descriptor','descriptorVersion':1,"
  ++ "'keyId':'mpc_key_123e4567-e89b-42d3-a456-426614174000',"
  ++ "'parties':[{'partyId':'mpc-signer','purpose':'platform'},"
  ++ "{'partyId':'co-signer-primary','purpose':'primary'},"
  ++ "{'partyId':'co-signer-recovery','purpose':'recovery'}],"
  ++ "'protocolVersion':1,'publicKeyFormat':'compressed_sec1','threshold':2}").

Lemma ParseCanonicalDescriptor_witness :
  exists d fp, ParseCanonicalDescriptor fixture_descriptor = Ok (d, fp)
  /\ kd_Threshold d = 2%Z /\ fp = sha256 fixture_descriptor.
Proof.
  destruct (is_ok_ex (ParseCanonicalDescriptor fixture_descriptor)) as [[d fp] E]; [vm_compute; reflexivity|].
  exists d, fp. split; [exact E|].
  destruct (ParseCanonicalDescriptor_sound _ _ _ E) as (_ & _ & _ & _ & Ht & _ & _ & _ & _ & _ & Hf & _).
  split; [exact Ht|exact Hf].
Defined.

(** A completed result on fixture values. *)
Definition fixture_result : TerminalResultV1 := {|
  tr_IntentID := "intent-1"; tr_KeyID := "mpc_key_123e4567-e89b-42d3-a456-426614174000";
  tr_Result := Some {|
    cr_AccountPublicKey := "0279be667ef9dcbbac55a06295ce870b07029bfcdb2dce28d959f2815b16f81798";
    cr_Artifacts :=
      [{| ar_ArtifactFingerprint := "AAAAAAAAAAAAAAAAAAAAAAAAAAAAAAAAAAAAAAAAAAA";
          ar_PartyID := "co-signer-primary"; ar_Purpose := "primary" |};
       {| ar_ArtifactFingerprint := "AAAAAAAAAAAAAAAAAAAAAAAAAAAAAAAAAAAAAAAAAAA";
          ar_PartyID := "co-signer-recovery"; ar_Purpose := "recovery" |}];
    cr_ChainCodeHash := "AAAAAAAAAAAAAAAAAAAAAAAAAAAAAAAAAAAAAAAAAAA";
    cr_DescriptorFingerprint := "AAAAAAAAAAAAAAAAAAAAAAAAAAAAAAAAAAAAAAAAAAA" |};
  tr_ResultKind := "mpc-dkg-terminal-result"; tr_ResultVersion := 1;
  tr_SessionID := "session-1"; tr_Status := TerminalStatusCompleted |}.

Lemma CanonicalTerminalResultBytes_witness :
  exists raw, CanonicalTerminalResultBytes fixture_result = Ok raw
  /\ boundedASCII (tr_IntentID fixture_result) = true.
Proof.
  destruct (is_ok_ex (CanonicalTerminalResultBytes fixture_result)) as [raw E]; [vm_compute; reflexivity|].
  exists raw. split; [exact E|].
  exact (proj1 (CanonicalTerminalResultBytes_sound _ _ E)).
Defined.
