(* ===== verification/ApprovalWire.v ===== *)
(** [internal/contract/approval]: the closed approval-v1 wire boundary.  Signed
    documents stay raw bytes; a parsed [Object] maps each key to the exact text of
    its value, and every accessor decodes that text again, as the code does. *)
From stdpp Require Import base tactics option list strings numbers gmap.
From Stdlib Require Import ZArith Lia Ascii String Sorted.
From S2P Require Import Prelude GoText Sha256 Json StrictJson Externals Mpc2of3.

#[local] Open Scope string_scope.

(** * contracts.go: accessors *)

Definition DecisionDomain : string := "brosettlement.co-signer.approval-decision/v1" +:+ String "010" "".

(** [map[string]json.RawMessage]; a nil map reads as the empty one. *)
Abbreviation Object := (gmap string bytes).

Definition invalid : error := ENew "invalid approval v1 contract".

(** [json.Unmarshal] into a map: a repeated key keeps its last value. *)
Definition unmarshal_object (raw : bytes) : option Object :=
  l ← raw_members raw; Some (list_to_map (rev l)).

(** An exact number of characters of a class, then the rest. *)
Fixpoint run_of (p : ascii -> bool) (n : nat) (s : string) : option string :=
  match n, s with
  | O, _ => Some s
  | S n, String c r => if p c then run_of p n r else None
  | S _, "" => None
  end.

Definition hex256 (s : string) : bool :=
  match run_of lower_hex 64 s with Some r => r =s "" | None => false end.
Definition uintPattern (s : string) : bool := unsignedJSONInteger s.
Definition upper_alpha (c : ascii) : bool := in_range 65 90 c.
Definition reasonCode (s : string) : bool :=
  match s with
  | String c r =>
      upper_alpha c && (zlen r <=? 63)%Z
      && str_forall (fun c => upper_alpha c || is_digit c || Ascii.eqb c "_") r
  | "" => false
  end.

(** The six numbers of a text of the shape YYYY-MM-DDTHH:MM:SS.mmmZ. *)
Definition two (s : string) : option (Z * string) :=
  r ← run_of is_digit 2 s; n ← parse_digits (str_take 2 s); Some (n, r).
Definition timestampPattern (s : string) : option (Z * Z * Z * Z * Z * Z * Z) :=
  r ← run_of is_digit 4 s; year ← parse_digits (str_take 4 s);
  r ← strip_prefix "-" r; '(month, r) ← two r;
  r ← strip_prefix "-" r; '(day, r) ← two r;
  r ← strip_prefix "T" r; '(hour, r) ← two r;
  r ← strip_prefix ":" r; '(minute, r) ← two r;
  r ← strip_prefix ":" r; '(sec, r) ← two r;
  r ← strip_prefix "." r; r' ← run_of is_digit 3 r; ms ← parse_digits (str_take 3 r);
  if r' =s "Z" then Some (year, month, day, hour, minute, sec, ms) else None.

Definition leap (y : Z) : bool :=
  ((y mod 4 =? 0) && (negb (y mod 100 =? 0) || (y mod 400 =? 0)))%Z.
Definition days_in (m y : Z) : Z :=
  if (m =? 2)%Z then if leap y then 29 else 28
  else if existsb (Z.eqb m) [4; 6; 9; 11]%Z then 30 else 31.
(** Days since 1970-01-01 in the proleptic Gregorian calendar. *)
Definition days_before_year (y : Z) : Z :=
  (365 * y + (y + 3) / 4 - (y + 99) / 100 + (y + 399) / 400)%Z.
Definition days_before_month (m y : Z) : Z :=
  foldr (fun k acc => if (k <? m)%Z then days_in k y + acc else acc)%Z 0%Z
    [1; 2; 3; 4; 5; 6; 7; 8; 9; 10; 11]%Z.
Definition unix_days (y m d : Z) : Z :=
  (days_before_year y - days_before_year 1970 + days_before_month m y + (d - 1))%Z.

(** [time.Parse] with the millisecond layout, on text of the exact pattern, as
    milliseconds since the epoch. *)
Definition parse_millis (s : string) : option Z :=
  match timestampPattern s with
  | Some (y, mo, d, h, mi, se, ms) =>
      if ((1 <=? mo) && (mo <=? 12) && (1 <=? d) && (d <=? days_in mo y)
          && (h <? 24) && (mi <? 60) && (se <? 60))%Z
      then Some ((((unix_days y mo d * 24 + h) * 60 + mi) * 60 + se) * 1000 + ms)%Z
      else None
  | None => None
  end.
(** On text of the pattern, formatting the parsed instant gives the text back, so
    the final comparison of the code never fails by itself. *)
Definition timestamp (s : string) : bool :=
  match parse_millis s with Some ms => (0 <? ms)%Z | None => false end.

Definition bounded (s : string) (maximum : Z) : bool :=
  negb (zlen s =? 0)%Z && (zlen s <=? maximum)%Z && utf8_valid s
  && forallb (fun r => negb (is_control r)) (runes s).

Definition closed (v : Object) (expected : list string) : bool :=
  (size v =? List.length expected)%nat && forallb (fun k => is_some (v !! k)) expected.

(** [v[k]] of a map: nil when absent. *)
Definition member (v : Object) (k : string) : bytes := default "" (v !! k).
Definition str (v : Object) (k : string) : string :=
  match json_parse (member v k) with Some (JStr s) => s | _ => "" end.
Definition integer (v : Object) (k : string) : Z :=
  match member v k with
  | String c _ =>
      if is_digit c then
        match json_parse (member v k) with
        | Some (JNum lit) => match parse_int64 lit with Some n => n | None => -1 end
        | _ => -1
        end
      else -1
  | "" => -1
  end%Z.
Definition isNull (v : Object) (k : string) : bool := member v k =s "null".
Definition rawObject (v : Object) (k : string) : Object := default ∅ (unmarshal_object (member v k)).
Definition hash (raw : bytes) : string := sha256_hex raw.

Definition standardBase64 (s : string) (n : option Z) : res bytes :=
  match b64_decode b64_std false s with
  | Some b =>
      if (b64_encode b64_std b <>s s)
         || match n with Some n => negb (zlen b =? n)%Z | None => false end
      then Fail invalid else Ok b
  | None => Fail invalid
  end.

Definition validReason (v : Object) (key : string) (rejected : bool) : bool :=
  if negb rejected then isNull v key
  else let r := rawObject v key in
       closed r ["code"; "text"] && reasonCode (str r "code") && bounded (str r "text") 512.

Definition ValidReference (value : string) : bool := bounded value 128.
Definition ValidAuthorizationHash (value : string) : bool := hex256 value.
Definition ValidTimestamp (value : string) : bool := timestamp value.
Definition ValidExecutionDigest (value : string) : bool :=
  match standardBase64 value (Some 32%Z) with Ok _ => true | Fail _ => false end.

(** Decoding into [Object], for [DecodeClosed]: any object, or null (a nil map). *)
Definition decode_members (v : json) : option (option unit) :=
  match v with JObj _ => Some (Some ()) | JNull => Some None | _ => None end.

Section Wire.
Context `{Externals}.

Definition parse (raw : bytes) (maximum : Z) (canonical : bool) : res Object :=
  if (zlen raw =? 0)%Z || (maximum <? zlen raw)%Z || negb (utf8_valid raw) then Fail invalid
  else
    fields ← DecodeClosed decode_members raw;
    match fields with
    | None => Fail invalid
    | Some _ =>
        _ ← (if canonical then requireCanonicalJCS raw else Ok ());
        of_option (unmarshal_object raw) invalid
    end.

(** * ethereum.go, tron.go and chains.go *)

Definition evmAddress (s : string) : bool :=
  match (r ← strip_prefix "0x" s; run_of lower_hex 40 r) with Some r => r =s "" | None => false end.

Definition publicKeyAddressBytes (publicKey : bytes) : bytes :=
  str_drop 12 (keccak256 (str_drop 1 publicKey)).

Definition big (s : string) : Z := default 0%Z (parse_big s).

Definition validateTransferAsset (v : Object) (native standard : string) : res unit :=
  let amount := str v "amountAtomic" in
  let cap := str v "maxNetworkFeeAtomic" in
  if negb (uintPattern amount) || (amount =s "0") || negb (uintPattern cap)
     || negb (bounded (str v "asset") 128) || (str v "networkFeeAsset" <>s native)
  then Fail invalid
  else if (2 ^ 256 <=? big amount)%Z then Fail invalid
  else if isNull v "tokenStandard" then
    if negb (isNull v "tokenContractCanonical") || negb (isNull v "tokenDecimals")
       || (str v "asset" <>s native)
    then Fail invalid else Ok ()
  else if (str v "tokenStandard" <>s standard)
          || negb (evmAddress (str v "tokenContractCanonical"))
          || (integer v "tokenDecimals" <? 0)%Z || (255 <? integer v "tokenDecimals")%Z
  then Fail invalid else Ok ().

Definition validateEthereumAuthorization (v : Object) (publicKey : bytes) : res unit :=
  let d := rawObject v "derivationContext" in
  let expected := "0x" +:+ hex_encode (publicKeyAddressBytes publicKey) in
  if (str v "fromAddress" <>s expected) || (str d "addressEncoding" <>s "evm_hex")
     || negb (evmAddress (str v "toAddress")) || negb (evmAddress (str v "fromAddress"))
  then Fail invalid
  else
    _ ← validateTransferAsset v "ETH" "erc20";
    if negb (isNull v "requestedChainParams") then
      let p := rawObject v "requestedChainParams" in
      let q := rawObject p "ethereum" in
      if negb (closed p ["ethereum"]) || negb (closed q ["maxFeePerGas"; "maxPriorityFeePerGas"])
         || negb (uintPattern (str q "maxFeePerGas"))
         || negb (uintPattern (str q "maxPriorityFeePerGas"))
      then Fail invalid
      else if (big (str q "maxFeePerGas") <? big (str q "maxPriorityFeePerGas"))%Z
      then Fail invalid else Ok ()
    else Ok ().

Definition canonicalTronAddress (s : string) : bool :=
  match base58_check_decode s with
  | Some (payload, version) =>
      (version =? 65)%N && (zlen payload =? 20)%Z && (base58_check_encode payload version =s s)
  | None => false
  end.

Definition validateTronAuthorization (v : Object) (publicKey : bytes) : res unit :=
  let d := rawObject v "derivationContext" in
  let expected := base58_check_encode (publicKeyAddressBytes publicKey) 65 in
  if (str v "fromAddress" <>s expected) || (str d "addressEncoding" <>s "tron_base58")
     || negb (canonicalTronAddress (str v "toAddress"))
     || negb (canonicalTronAddress (str v "fromAddress"))
  then Fail invalid
  else
    _ ← validateTransferAsset v "TRX" "trc20";
    if isNull v "tokenStandard" && (9007199254740991 <? big (str v "amountAtomic"))%Z
    then Fail invalid
    else if negb (isNull v "requestedChainParams") then
      let p := rawObject v "requestedChainParams" in
      let q := rawObject p "tron" in
      if negb (closed p ["tron"]) || negb (closed q ["feeLimitSun"])
         || (negb (isNull q "feeLimitSun") && negb (uintPattern (str q "feeLimitSun")))
      then Fail invalid else Ok ()
    else Ok ().

Definition authorizationValidator (chain : string) : option (Object -> bytes -> res unit) :=
  if (chain =s "ethereum:mainnet") || (chain =s "ethereum:sepolia")
  then Some validateEthereumAuthorization
  else if (chain =s "tron:mainnet") || (chain =s "tron:nile")
  then Some validateTronAuthorization
  else None.

(** * contracts.go: the documents *)

Definition authorization_keys : list string :=
  ["version"; "orgId"; "requestId"; "ledgerTransactionId"; "clientReference"; "accountId";
   "walletId"; "keyId"; "descriptorFingerprint"; "derivationContextHash"; "derivationContext";
   "chain"; "fromAddress"; "toAddress"; "asset"; "tokenStandard"; "tokenContractCanonical";
   "tokenDecimals"; "amountAtomic"; "transferKind"; "internalRecipient"; "networkFeeAsset";
   "maxNetworkFeeAtomic"; "requestedChainParams"].
Definition derivation_keys : list string :=
  ["profileId"; "profileTemplateId"; "profileVersion"; "chain"; "algorithm"; "curve"; "scheme";
   "accountPath"; "childPath"; "fullPath"; "addressEncoding"; "expectedAddress";
   "expectedPublicKey"; "publicKeyFormat"; "descriptorVersion"; "keyVersion"].

(** One round of [for k := range d]. *)
Definition derivation_member_ok (d : Object) (k : string) : bool :=
  if (k =s "profileVersion") || (k =s "descriptorVersion") || (k =s "keyVersion")
  then (1 <=? integer d k)%Z && (integer d k <=? 2147483647)%Z
  else bounded (str d k) 1024.

(** The [coretss.DerivationContext] literal. *)
Definition core_context (d : Object) (chain : string) : CoreDerivationContext := {|
  cd_ProfileID := str d "profileId"; cd_ProfileTemplateID := str d "profileTemplateId";
  cd_ProfileVersion := u32 (integer d "profileVersion"); cd_Chain := chain;
  cd_Algorithm := str d "algorithm"; cd_Curve := str d "curve"; cd_Scheme := str d "scheme";
  cd_AccountPath := str d "accountPath"; cd_ChildPath := str d "childPath";
  cd_FullPath := str d "fullPath"; cd_AddressEncoding := str d "addressEncoding";
  cd_ExpectedAddress := str d "expectedAddress"; cd_DerivedPublicKey := str d "expectedPublicKey";
  cd_PublicKeyFormat := str d "publicKeyFormat";
  cd_DescriptorVersion := u32 (integer d "descriptorVersion");
  cd_KeyVersion := u32 (integer d "keyVersion") |}.

Definition transfer_kind_ok (v : Object) : bool :=
  if str v "transferKind" =s "INTERNAL_TRANSFER" then
    let r := rawObject v "internalRecipient" in
    closed r ["accountId"; "walletId"] && bounded (str r "accountId") 128
    && bounded (str r "walletId") 128
  else (str v "transferKind" =s "EXTERNAL_WITHDRAWAL") && isNull v "internalRecipient".

Definition ParseAuthorization (raw : bytes) : res Object :=
  v ← parse raw 16384 true;
  _ ← ensure (closed v authorization_keys && (integer v "version" =? 1)%Z) invalid;
  _ ← ensure (forallb (fun k => bounded (str v k) 128)
                ["orgId"; "requestId"; "ledgerTransactionId"; "accountId"; "walletId"; "keyId"]) invalid;
  _ ← ensure (isNull v "clientReference" || bounded (str v "clientReference") 128) invalid;
  _ ← ParseDescriptorFingerprint (str v "descriptorFingerprint");
  _ ← ensure (hex256 (str v "derivationContextHash")) invalid;
  let chain := str v "chain" in
  validateChain ← of_option (authorizationValidator chain) invalid;
  let d := rawObject v "derivationContext" in
  _ ← ensure (closed d derivation_keys) invalid;
  _ ← ensure (forallb (fun kv => derivation_member_ok d kv.1) (map_to_list d)) invalid;
  _ ← ensure ((str d "algorithm" =s "ECDSA") && (str d "curve" =s "secp256k1")
              && (str d "scheme" =s "bip32_secp256k1")
              && (str d "publicKeyFormat" =s "uncompressed_hex")
              && (str d "chain" =s chain)
              && (str d "expectedAddress" =s str v "fromAddress")) invalid;
  _ ← ensure (match derivation_context_hash (core_context d chain) with
              | Ok got => got =s str v "derivationContextHash"
              | Fail _ => false
              end) invalid;
  pubRaw ← of_option (hex_decode (str d "expectedPublicKey")) invalid;
  _ ← ensure ((zlen pubRaw =? 65)%Z && (first_code pubRaw =? 4)%N) invalid;
  pub ← of_option (parse_pubkey pubRaw) invalid;
  _ ← validateChain v pub;
  _ ← ensure (transfer_kind_ok v) invalid;
  Ok v.

Definition envelope_keys : list string :=
  ["version"; "domain"; "audience"; "orgId"; "requestId"; "authorizationHash"; "decision";
   "reason"; "source"; "externalDecisionReference"; "decidedAt"; "signingKeyId"].

Definition ParseDecisionEnvelope (raw : bytes) : res Object :=
  v ← parse raw 4096 true;
  _ ← ensure (closed v envelope_keys && (integer v "version" =? 1)%Z
              && (str v "domain" =s "brosettlement.co-signer.approval-decision")
              && (str v "audience" =s "brosettlement-transfer-approval")) invalid;
  _ ← ensure (forallb (fun k => bounded (str v k) 128) ["orgId"; "requestId"; "signingKeyId"]) invalid;
  let decision := str v "decision" in
  let source := str v "source" in
  if negb (hex256 (str v "authorizationHash")) || negb (timestamp (str v "decidedAt"))
     || ((decision <>s "APPROVED") && (decision <>s "REJECTED"))
     || negb (validReason v "reason" (decision =s "REJECTED"))
     || ((source <>s "external") && (source <>s "auto_approve"))
     || (negb (isNull v "externalDecisionReference")
         && negb (bounded (str v "externalDecisionReference") 128))
     || ((source =s "auto_approve")
         && ((decision <>s "APPROVED") || negb (isNull v "externalDecisionReference")))
  then Fail invalid else Ok v.

Record Receipt := { Envelope : Object; EnvelopeBytes : bytes; Signature : bytes }.

Definition ParseReceipt (raw : bytes) : res Receipt :=
  v ← parse raw 8192 false;
  _ ← ensure (closed v ["version"; "envelopeBase64"; "signatureBase64"]
              && (integer v "version" =? 1)%Z) invalid;
  envelope ← standardBase64 (str v "envelopeBase64") None;
  signature ← standardBase64 (str v "signatureBase64") (Some 64%Z);
  parsed ← ParseDecisionEnvelope envelope;
  Ok {| Envelope := parsed; EnvelopeBytes := envelope; Signature := signature |}.

Record TrustedReceipt := {
  tr_OrgID : string; tr_RequestID : string; tr_AuthorizationHash : string;
  tr_SigningKeyID : string; tr_PublicKey : bytes; tr_Eligible : bool;
}.

Definition VerifyReceipt (raw : bytes) (trusted : TrustedReceipt) : res Receipt :=
  r ← ParseReceipt raw;
  _ ← ensure (forallb (fun kv => str (Envelope r) kv.1 =s kv.2)
                [("orgId", tr_OrgID trusted); ("requestId", tr_RequestID trusted);
                 ("authorizationHash", tr_AuthorizationHash trusted);
                 ("signingKeyId", tr_SigningKeyID trusted)]) invalid;
  _ ← ensure (tr_Eligible trusted && (zlen (tr_PublicKey trusted) =? 32)%Z
              && ed25519_verify (tr_PublicKey trusted) (DecisionDomain +:+ EnvelopeBytes r)
                   (Signature r)) invalid;
  Ok r.

Definition SameReceipt (left right : bytes) : res bool :=
  a ← ParseReceipt left;
  b ← ParseReceipt right;
  Ok ((EnvelopeBytes a =s EnvelopeBytes b) && (Signature a =s Signature b)).

Definition ParseOrganizationResponse (raw : bytes) (orgID requestID authorizationHash : string)
  : res Object :=
  v ← parse raw 65536 false;
  let status := str v "status" in
  if negb (closed v ["version"; "orgId"; "requestId"; "authorizationHash"; "status"; "reason";
                     "decisionReference"])
     || negb (integer v "version" =? 1)%Z || (str v "orgId" <>s orgID)
     || (str v "requestId" <>s requestID) || (str v "authorizationHash" <>s authorizationHash)
     || ((status <>s "PENDING") && (status <>s "APPROVED") && (status <>s "REJECTED"))
     || negb (validReason v "reason" (status =s "REJECTED"))
     || (negb (isNull v "decisionReference") && negb (bounded (str v "decisionReference") 128))
     || ((status =s "PENDING") && negb (isNull v "decisionReference"))
  then Fail invalid else Ok v.

(** The outcomes and dispositions an application receipt may combine. *)
Definition application_valid (outcome disposition : string) : bool :=
  ((outcome =s "ACCEPTED") && (disposition =s "APPLIED"))
  || ((outcome =s "EXACT_REPLAY")
      && ((disposition =s "APPLIED") || (disposition =s "NOT_APPLIED_CANCELLED")))
  || ((outcome =s "NOT_APPLIED_CANCELLED") && (disposition =s outcome))
  || ((outcome =s "TERMINAL_CONFLICT") && (disposition =s outcome)).

Definition ParseDecisionApplication (raw : bytes) : res Object :=
  v ← parse raw 4096 false;
  _ ← ensure (closed v ["version"; "requestId"; "outcome"; "disposition"]
              && (integer v "version" =? 1)%Z && bounded (str v "requestId") 128) invalid;
  _ ← ensure (application_valid (str v "outcome") (str v "disposition")) invalid;
  Ok v.

Record PendingItem := {
  pi_RequestID : string; pi_CreatedAt : string; pi_Authorization : bytes;
  pi_AuthorizationHash : string;
}.

Definition OrganizationID (item : PendingItem) : res string :=
  auth ← jcs_transform (pi_Authorization item);
  a ← ParseAuthorization auth;
  if (pi_RequestID item <>s str a "requestId") || (hash auth <>s pi_AuthorizationHash item)
  then Fail invalid else Ok (str a "orgId").

(** The raw elements of a JSON array ([[]json.RawMessage]). *)
Fixpoint raw_elements_from (fuel : nat) (s : string) : option (list bytes) :=
  match fuel with
  | O => None
  | S n =>
      '(v, r) ← raw_value s;
      match skip_ws r with
      | String "]" _ => Some [v]
      | String "," r => l ← raw_elements_from n r; Some (v :: l)
      | _ => None
      end
  end.
Definition raw_elements (s : bytes) : option (list bytes) :=
  match json_parse s with
  | Some (JArr []) => Some []
  | Some (JArr _) =>
      match skip_ws s with
      | String "[" r => raw_elements_from (String.length s) r
      | _ => None
      end
  | _ => None
  end.

(** The item of a row, and the loop of [ParsePendingPage] over the rows. *)
Definition page_row (item : bytes) : res PendingItem :=
  row ← parse item 32768 false;
  _ ← ensure (closed row ["requestId"; "createdAt"; "authorization"; "authorizationHash"]
              && timestamp (str row "createdAt")) invalid;
  Ok {| pi_RequestID := str row "requestId"; pi_CreatedAt := str row "createdAt";
        pi_Authorization := member row "authorization";
        pi_AuthorizationHash := str row "authorizationHash" |}.

Fixpoint page_rows (items : list bytes) (seen : gset string)
    (previousTime previousID pageOrgID : string) : res unit :=
  match items with
  | [] => Ok ()
  | item :: items =>
      row ← page_row item;
      let id := pi_RequestID row in
      let created := pi_CreatedAt row in
      _ ← ensure (negb (bool_decide (id ∈ seen) || str_ltb created previousTime
                        || ((created =s previousTime) && str_leb id previousID))) invalid;
      orgID ← OrganizationID row;
      _ ← ensure ((pageOrgID =s "") || (pageOrgID =s orgID)) invalid;
      page_rows items ({[id]} ∪ seen) created id orgID
  end.

Definition ParsePendingPage (raw : bytes) : res unit :=
  v ← parse raw (2 * 1024 * 1024) false;
  _ ← ensure (closed v ["version"; "items"; "nextCursor"] && (integer v "version" =? 1)%Z) invalid;
  _ ← ensure (isNull v "nextCursor"
              || (negb (zlen (str v "nextCursor") =? 0)%Z
                  && (zlen (str v "nextCursor") <=? 4096)%Z)) invalid;
  _ ← ensure (isNull v "nextCursor" || str_forall (in_range 33 126) (str v "nextCursor")) invalid;
  items ← of_option (raw_elements (member v "items")) invalid;
  _ ← ensure (List.length items <=? 100)%nat invalid;
  page_rows items ∅ "" "" "".
End Wire.

(** * Facts *)

(** [closed] accepts only the objects whose key set is the expected one. *)
Lemma closed_spec (v : Object) (ks : list string) :
  NoDup ks -> closed v ks = true -> dom v = list_to_set ks.
Proof.
  intros Hnd Hc. unfold closed in Hc. apply andb_true_iff in Hc as [Hsz Hall].
  apply Nat.eqb_eq in Hsz. rewrite forallb_forall in Hall.
  symmetry. apply set_subseteq_size_eq.
  - intros k Hk. apply elem_of_list_to_set, list_elem_of_In, Hall in Hk.
    apply elem_of_dom. unfold is_some in Hk. destruct (v !! k); [eauto|done].
  - rewrite size_dom, size_list_to_set, Hsz; [lia|done].
Qed.

Lemma bounded_nonempty s n : bounded s n = true -> s <> "".
Proof. intros Hb ->. done. Qed.

Lemma digits_value_mono s acc : (0 <= acc)%Z -> (acc <= digits_value acc s)%Z.
Proof. revert acc. induction s as [|c s IH]; cbn; intros; [lia|]. etrans; [|apply IH]; lia. Qed.

Lemma uint_positive s : uintPattern s = true -> s <> "0" -> (0 < big s)%Z.
Proof.
  unfold uintPattern, unsignedJSONInteger. intros Hp Hz.
  apply orb_true_iff in Hp as [Hp|Hp]; split_bools; [done|].
  destruct s as [|c r]; [done|]. split_bools. unfold in_range in *. split_bools_N.
  assert (Hb : big (String c r) = digits_value 0 (String c r)).
  { unfold big, parse_big, parse_digits, is_digit in *.
    destruct c as [[] [] [] [] [] [] [] []]; cbn in *; try discriminate;
      unfold is_digit in *; by rewrite H0. }
  rewrite Hb. cbn. assert (1 <= Z.of_N (code c - 48))%Z by (rewrite N2Z.inj_sub; lia).
  pose proof (digits_value_mono r (0 * 10 + Z.of_N (code c - 48))). lia.
Qed.

Section WireFacts.
Context `{Externals}.

Lemma parse_Ok raw maximum canonical v :
  parse raw maximum canonical = Ok v ->
  unmarshal_object raw = Some v /\ rejectDuplicateKeys raw = Ok () /\ (zlen raw <= maximum)%Z
  /\ utf8_valid raw = true /\ (canonical = true -> jcs_transform raw = Ok raw).
Proof.
  unfold parse. intros Hp. step_if Hp. split_bools. inv_ok.
  match goal with x : option unit |- _ => destruct x end; inv_ok.
  match goal with Hd : DecodeClosed _ _ = _ |- _ => apply DecodeClosed_Ok in Hd as (j & Hj & Ha & _) end.
  split_and!; try done; [apply walk_document_spec; eauto|].
  intros ->. by eapply requireCanonicalJCS_Ok.
Qed.

(** What every accepted decision envelope says. *)
Definition decision_wf (v : Object) : Prop :=
  dom v = list_to_set envelope_keys
  /\ (str v "decision" = "APPROVED" /\ isNull v "reason" = true \/ str v "decision" = "REJECTED")
  /\ (str v "source" = "external"
      \/ str v "source" = "auto_approve" /\ str v "decision" = "APPROVED")
  /\ hex256 (str v "authorizationHash") = true /\ timestamp (str v "decidedAt") = true
  /\ bounded (str v "requestId") 128 = true /\ bounded (str v "signingKeyId") 128 = true.

Lemma ParseDecisionEnvelope_Ok raw v :
  ParseDecisionEnvelope raw = Ok v -> decision_wf v /\ jcs_transform raw = Ok raw.
Proof.
  unfold ParseDecisionEnvelope. intros Hp. inv_ok.
  match goal with Hp : parse _ _ _ = _ |- _ => apply parse_Ok in Hp as (_ & _ & _ & _ & Hj) end.
  step_if Hp. inv_ok. split_bools. split; [|by apply Hj].
  assert (Hd : str v "decision" = "APPROVED" \/ str v "decision" = "REJECTED").
  { match goal with Ed : (_ <>s "APPROVED") && _ = false |- _ =>
      apply andb_false_iff in Ed as [Ed|Ed]; split_bools; auto end. }
  split_and!; try done.
  - apply closed_spec; [by_eval|done].
  - destruct Hd as [Hd|Hd]; [left|by right]. split; [done|].
    match goal with Hr : validReason _ _ _ = true |- _ => rewrite Hd in Hr; exact Hr end.
  - match goal with Es : (_ <>s "external") && _ = false |- _ =>
      apply andb_false_iff in Es as [Es|Es]; split_bools; [by left|right] end.
    split; [done|].
    match goal with Ea : (_ =s "auto_approve") && _ = false |- _ =>
      apply andb_false_iff in Ea as [Ea|Ea]; split_bools; [congruence|done] end.
  - match goal with Hb : forallb _ _ = true |- _ => cbn in Hb; rename Hb into Hb0 end. split_bools. done.
  - match goal with Hb : forallb _ _ = true |- _ => cbn in Hb; rename Hb into Hb0 end. split_bools. done.
Qed.
End WireFacts.
Section WireTheorems.
Context `{Externals}.

Lemma standardBase64_Ok s n b : standardBase64 s n = Ok b ->
  b64_encode b64_std b = s /\ (forall k, n = Some k -> zlen b = k).
Proof.
  unfold standardBase64. intros Hs. step_if Hs. step_if Hs. inv_ok. split_bools.
  split; [done|]. intros k ->. by split_bools.
Qed.

(** The parsed envelope is a function of the envelope bytes. *)
Lemma ParseReceipt_Ok raw r : ParseReceipt raw = Ok r ->
  ParseDecisionEnvelope (EnvelopeBytes r) = Ok (Envelope r) /\ zlen (Signature r) = 64%Z.
Proof.
  unfold ParseReceipt. intros Hr. inv_ok. cbn. split; [done|].
  match goal with Hs : standardBase64 _ (Some 64%Z) = _ |- _ => apply standardBase64_Ok in Hs as [_ Hs] end.
  eauto.
Qed.

(** (C9) A receipt is verified only if its signature is a valid Ed25519 signature,
    under the eligible trusted key, over the decision domain followed by the exact
    envelope bytes; the envelope is canonical, binds the expected organization,
    request, authorization hash and signing key, and carries one well-formed
    decision, of which only APPROVED can come from auto-approval. *)
Theorem VerifyReceipt_sound raw trusted r :
  VerifyReceipt raw trusted = Ok r ->
  ed25519_verify (tr_PublicKey trusted) (DecisionDomain +:+ EnvelopeBytes r) (Signature r) = true
  /\ tr_Eligible trusted = true /\ zlen (tr_PublicKey trusted) = 32%Z /\ zlen (Signature r) = 64%Z
  /\ jcs_transform (EnvelopeBytes r) = Ok (EnvelopeBytes r)
  /\ str (Envelope r) "orgId" = tr_OrgID trusted
  /\ str (Envelope r) "requestId" = tr_RequestID trusted
  /\ str (Envelope r) "authorizationHash" = tr_AuthorizationHash trusted
  /\ str (Envelope r) "signingKeyId" = tr_SigningKeyID trusted
  /\ decision_wf (Envelope r).
Proof.
  unfold VerifyReceipt. intros Hr. inv_ok.
  match goal with Hp : ParseReceipt _ = _ |- _ => apply ParseReceipt_Ok in Hp as [He Hs] end.
  apply ParseDecisionEnvelope_Ok in He as [Hwf Hj].
  match goal with Hf : forallb _ _ = true |- _ => cbn in Hf end.
  split_bools. by split_and!.
Qed.

(** (C11) [SameReceipt] is the right notion of replay: it is decided by the signed
    bytes alone, so two receipts it identifies carry the same parsed decision and
    verify under exactly the same trust, whatever their JSON wrapping. *)
Theorem SameReceipt_interchangeable left right :
  SameReceipt left right = Ok true ->
  ParseReceipt left = ParseReceipt right
  /\ forall trusted, VerifyReceipt left trusted = VerifyReceipt right trusted.
Proof.
  unfold SameReceipt. intros Hs. inv_ok. split_bools.
  match goal with H1 : ParseReceipt left = Ok ?a, H2 : ParseReceipt right = Ok ?b |- _ =>
    pose proof (ParseReceipt_Ok _ _ H1) as [Ha _]; pose proof (ParseReceipt_Ok _ _ H2) as [Hb _];
    assert (Hab : a = b); [destruct a, b; cbn in *; subst; congruence|subst;
    assert (ParseReceipt left = ParseReceipt right) as E by congruence] end.
  split; [done|]. intros trusted. unfold VerifyReceipt. by rewrite E.
Qed.
End WireTheorems.
Section AuthorizationTheorems.
Context `{Externals}.

Lemma validateTransferAsset_Ok v native standard u :
  validateTransferAsset v native standard = Ok u ->
  (0 < big (str v "amountAtomic") < 2 ^ 256)%Z /\ str v "networkFeeAsset" = native
  /\ (isNull v "tokenStandard" = true /\ str v "asset" = native
      \/ str v "tokenStandard" = standard
         /\ evmAddress (str v "tokenContractCanonical") = true).
Proof.
  unfold validateTransferAsset. intros Hv. step_if Hv. step_if Hv. split_bools.
  split_and!; [apply uint_positive; done|lia|done|].
  step_if Hv; step_if Hv; split_bools; [left|right]; done.
Qed.

(** The address an accepted public key has on a chain. *)
Definition chain_address (chain : string) (pub : bytes) : string :=
  if has_prefix "ethereum:" chain then "0x" +:+ hex_encode (publicKeyAddressBytes pub)
  else base58_check_encode (publicKeyAddressBytes pub) 65.

Lemma validateChain_Ok chain validate v pub u :
  authorizationValidator chain = Some validate -> validate v pub = Ok u ->
  str v "fromAddress" = chain_address chain pub
  /\ (0 < big (str v "amountAtomic") < 2 ^ 256)%Z
  /\ chain ∈ ["ethereum:mainnet"; "ethereum:sepolia"; "tron:mainnet"; "tron:nile"]
  /\ (has_prefix "tron:" chain = true -> isNull v "tokenStandard" = true ->
      (big (str v "amountAtomic") <= 2 ^ 53 - 1)%Z).
Proof.
  unfold authorizationValidator. intros Ha Hv.
  destruct ((chain =s "ethereum:mainnet") || _) eqn:E1; [|step_if Ha];
    injection Ha as <-; match goal with E : _ || _ = true |- _ => apply orb_true_iff in E as [E|E] end;
    split_bools; subst chain.
  1,2: unfold validateEthereumAuthorization in Hv; step_if Hv; inv_ok; split_bools;
    match goal with Ht : validateTransferAsset _ _ _ = _ |- _ =>
      apply validateTransferAsset_Ok in Ht as (Hb & _) end;
    split_and!; [done|lia|lia|by_eval|done].
  all: unfold validateTronAuthorization in Hv; step_if Hv; inv_ok; split_bools;
    match goal with Ht : validateTransferAsset _ _ _ = _ |- _ =>
      apply validateTransferAsset_Ok in Ht as (Hb & _) end;
    step_if Hv; split_and!; [done|lia|lia|by_eval|]; intros _ Hn; rewrite Hn in *;
    match goal with E : true && _ = false |- _ => cbn [andb] in E end; split_bools; lia.
Qed.

(** (C10) An accepted authorization is canonical and has exactly the contract's
    fields; its chain is one of the four supported networks; its source address is
    the one its derived public key has on that chain; the hash of its derivation
    context is the one it states; the amount is positive and fits 256 bits (native
    TRX also fits a safe integer); and an internal recipient is present exactly
    for internal transfers. *)
Theorem ParseAuthorization_sound raw v :
  ParseAuthorization raw = Ok v ->
  let d := rawObject v "derivationContext" in
  jcs_transform raw = Ok raw
  /\ dom v = list_to_set authorization_keys /\ dom d = list_to_set derivation_keys
  /\ str v "chain" ∈ ["ethereum:mainnet"; "ethereum:sepolia"; "tron:mainnet"; "tron:nile"]
  /\ str d "chain" = str v "chain"
  /\ derivation_context_hash (core_context d (str v "chain")) = Ok (str v "derivationContextHash")
  /\ (exists key pub, hex_decode (str d "expectedPublicKey") = Some key
        /\ parse_pubkey key = Some pub
        /\ str v "fromAddress" = chain_address (str v "chain") pub
        /\ str d "expectedAddress" = str v "fromAddress")
  /\ (0 < big (str v "amountAtomic") < 2 ^ 256)%Z
  /\ (has_prefix "tron:" (str v "chain") = true -> isNull v "tokenStandard" = true ->
      (big (str v "amountAtomic") <= 2 ^ 53 - 1)%Z)
  /\ (str v "transferKind" = "INTERNAL_TRANSFER"
      \/ str v "transferKind" = "EXTERNAL_WITHDRAWAL" /\ isNull v "internalRecipient" = true).
Proof.
  unfold ParseAuthorization. intros Hp. inv_ok.
  match goal with Hp : parse _ _ _ = _ |- _ => apply parse_Ok in Hp as (_ & _ & _ & _ & Hj) end.
  split_bools. cbv zeta in *. inv_ok.
  match goal with Ha : authorizationValidator _ = Some _, Hv : _ v _ = Ok _ |- _ =>
    destruct (validateChain_Ok _ _ _ _ _ Ha Hv) as (Hf & Hb & Hc & Ht) end.
  match goal with Hd : match derivation_context_hash _ with _ => _ end = true |- _ =>
    destruct (derivation_context_hash _) eqn:Eh; [|done]; split_bools; subst end.
  assert (Hk : str v "transferKind" = "INTERNAL_TRANSFER"
               \/ str v "transferKind" = "EXTERNAL_WITHDRAWAL" /\ isNull v "internalRecipient" = true).
  { match goal with Hk : transfer_kind_ok _ = true |- _ => unfold transfer_kind_ok in Hk;
      destruct (_ =s _) eqn:Ek in Hk; split_bools; auto end. }
  refine (conj (Hj eq_refl) (conj _ (conj _ (conj Hc (conj _ (conj _ (conj _ (conj Hb (conj Ht Hk)))))))));
    [apply closed_spec; [by_eval|assumption]..|assumption|congruence|eauto 10].
Qed.
End AuthorizationTheorems.

Section PageTheorems.
Context `{Externals}.

Lemma OrganizationID_nonempty item org : OrganizationID item = Ok org -> org <> "".
Proof.
  unfold OrganizationID, ParseAuthorization. intros Ho. inv_ok. step_if Ho. inv_ok.
  match goal with Hb : forallb _ ["orgId"; _; _; _; _; _] = true |- _ => cbn in Hb end.
  split_bools. by eapply bounded_nonempty.
Qed.

(** The order of a page: by creation time, then by request id. *)
Definition item_lt (a b : PendingItem) : Prop :=
  str_ltb (pi_CreatedAt a) (pi_CreatedAt b) = true
  \/ pi_CreatedAt a = pi_CreatedAt b /\ str_ltb (pi_RequestID a) (pi_RequestID b) = true.

Lemma item_lt_trans a b c : item_lt a b -> item_lt b c -> item_lt a c.
Proof.
  unfold item_lt. intros [Ha|[Ha Ha']] [Hb|[Hb Hb']]; rewrite ?Ha, <- ?Hb in *; eauto using str_lt_trans.
Qed.

Lemma page_rows_Ok items seen pt pid porg u :
  page_rows items seen pt pid porg = Ok u -> exists rows,
  Forall2 (fun item row => page_row item = Ok row) items rows
  /\ Forall (fun row => pi_RequestID row ∉ seen) rows /\ NoDup (pi_RequestID <$> rows)
  /\ Sorted item_lt ({| pi_RequestID := pid; pi_CreatedAt := pt; pi_Authorization := "";
                        pi_AuthorizationHash := "" |} :: rows)
  /\ exists org, Forall (fun row => OrganizationID row = Ok org) rows /\ (porg <> "" -> org = porg).
Proof.
  revert seen pt pid porg. induction items as [|item items IH]; cbn [page_rows]; intros seen pt pid porg Hp.
  { exists []. split_and!; try by constructor. exists porg. split; [constructor|done]. }
  inv_ok. match goal with r : PendingItem |- _ => rename r into row end.
  match goal with o : string, Ho : OrganizationID row = Ok _ |- _ =>
    pose proof (OrganizationID_nonempty _ _ Ho) as Hne; rename Ho into Horg end.
  apply IH in Hp as (rows & Hrows & Hseen & Hnd & Hsort & org & Horgs & Hsame). split_bools.
  exists (row :: rows). split_and!.
  - by constructor.
  - constructor; [done|]. eapply Forall_impl; [exact Hseen|]. set_solver.
  - apply NoDup_cons; split; [|done]. intros Hin. apply list_elem_of_fmap in Hin as (r & Er & Hr).
    rewrite Forall_forall in Hseen. specialize (Hseen r Hr). set_solver.
  - constructor.
    + apply Sorted_inv in Hsort as [Hs Hh]. constructor; [done|].
      destruct rows; [constructor|]. constructor. by apply HdRel_inv in Hh.
    + constructor. unfold item_lt; cbn.
      match goal with Hl : str_ltb _ pt = false |- _ => destruct (str_ltb_false _ _ Hl) as [?|He]; [by left|] end.
      right. split; [done|]. match goal with Hl : _ && str_leb _ _ = false |- _ =>
        apply andb_false_iff in Hl as [Hl|Hl]; [split_bools; congruence|by apply str_leb_false] end.
  - match goal with Ho : _ || _ = true |- _ => rename Ho into Hor end.
    exists org. rewrite (Hsame Hne) in *. split; [by constructor|].
    intros Hpo. apply orb_true_iff in Hor as [?|?]; split_bools; congruence.
Qed.

(** An accepted discovery page has at most 100 items, each a well-formed row
    whose authorization validates and hashes to the stated value; the rows are
    strictly ordered by creation time and then request id, no request id occurs
    twice, and all of them belong to one organization. *)
Theorem ParsePendingPage_sound raw :
  ParsePendingPage raw = Ok () -> exists v items rows org,
  parse raw (2 * 1024 * 1024) false = Ok v /\ raw_elements (member v "items") = Some items
  /\ (List.length rows <= 100)%nat
  /\ Forall2 (fun item row => page_row item = Ok row) items rows
  /\ NoDup (pi_RequestID <$> rows) /\ StronglySorted item_lt rows
  /\ Forall (fun row => OrganizationID row = Ok org) rows.
Proof.
  unfold ParsePendingPage. intros Hp. inv_ok.
  apply page_rows_Ok in Hp as (rows & Hrows & _ & Hnd & Hsort & org & Horg & _).
  do 4 eexists. split_and!; try done.
  - rewrite <- (Forall2_length _ _ _ Hrows). by apply Nat.leb_le.
  - apply Sorted_inv in Hsort as [Hsort _]. apply Sorted_StronglySorted; [|done].
    intros ???. apply item_lt_trans.
Qed.
End PageTheorems.

(** * Concrete documents, for [toy_externals] *)

Definition fixture_authorization : bytes := jtext (
  "{'accountId':'acc-1','amountAtomic':'1000','asset':'ETH','chain':'ethereum:sepolia','clien"
  ++ "tReference':null,'derivationContext':{'accountPath':'m/44/60/0','addressEncoding':'evm_hex"
  ++ "','algorithm':'ECDSA','chain':'ethereum:sepolia','childPath':'0/7','curve':'secp256k1','de"
  ++ "scriptorVersion':1,'expectedAddress':'0xc9a29e8f9c757fcf9811603a8c447cd1d9151108','expecte"
  ++ "dPublicKey':'04000102030405060708090a0b0c0d0e0f101112131415161718191a1b1c1d1e1f20212223242"
  ++ "5262728292a2b2c2d2e2f303132333435363738393a3b3c3d3e3f','fullPath':'m/44/60/0/0/7','keyVers"
  ++ "ion':1,'profileId':'p','profileTemplateId':'t','profileVersion':1,'publicKeyFormat':'uncom"
  ++ "pressed_hex','scheme':'bip32_secp256k1'},'derivationContextHash':'8b606c61f1d16b2c963f02d2"
  ++ "aa58fd82bfde5f8150f588c86a790573aca49de2','descriptorFingerprint':'AAAAAAAAAAAAAAAAAAAAAAA"
  ++ "AAAAAAAAAAAAAAAAAAAA','fromAddress':'0xc9a29e8f9c757fcf9811603a8c447cd1d9151108','internal"
  ++ "Recipient':null,'keyId':'key-1','ledgerTransactionId':'ltx-1','maxNetworkFeeAtomic':'21000"
  ++ "000','networkFeeAsset':'ETH','orgId':'org-1','requestId':'req-1','requestedChainParams':nu"
  ++ "ll,'toAddress':'0x1111111111111111111111111111111111111111','tokenContractCanonical':null,"
  ++ "'tokenDecimals':null,'tokenStandard':null,'transferKind':'EXTERNAL_WITHDRAWAL','version':1"
  ++ ",'walletId':'wal-1'}").

Definition fixture_hash : string := Eval vm_compute in hash fixture_authorization.
Definition fixture_private : bytes := "0123456789abcdef0123456789abcdefABCDEFGHIJKLMNOPABCDEFGHIJKLMNOP".
Definition fixture_public : bytes := "ABCDEFGHIJKLMNOPABCDEFGHIJKLMNOP".

Definition fixture_envelope : bytes := jtext (
  "{'audience':'brosettlement-transfer-approval','authorizationHash':'" ++ fixture_hash
  ++ "','decidedAt':'2026-03-01T10:20:30.400Z','decision':'APPROVED',"
  ++ "'domain':'brosettlement.co-signer.approval-decision','externalDecisionReference':null,"
  ++ "'orgId':'org-1','reason':null,'requestId':'req-1','signingKeyId':'approval-key-1',"
  ++ "'source':'external','version':1}").

(** Two receipts with the same signed content and different JSON text. *)
Definition receipt_text (space : string) : bytes := jtext (
  "{'version':1," ++ space ++ "'envelopeBase64':'" ++ b64_encode b64_std fixture_envelope
  ++ "','signatureBase64':'"
  ++ b64_encode b64_std (ed25519_sign fixture_private (DecisionDomain ++ fixture_envelope)) ++ "'}").
Definition fixture_receipt : bytes := Eval vm_compute in receipt_text "".
Definition fixture_receipt_spaced : bytes := Eval vm_compute in receipt_text "  ".
Definition fixture_trusted : TrustedReceipt := {|
  tr_OrgID := "org-1"; tr_RequestID := "req-1"; tr_AuthorizationHash := fixture_hash;
  tr_SigningKeyID := "approval-key-1"; tr_PublicKey := fixture_public; tr_Eligible := true |}.

Definition fixture_page : bytes := Eval vm_compute in
  jtext "{'version':1,'items':[{'requestId':'req-1','createdAt':'2026-03-01T10:20:30.400Z','authorization':"
  ++ fixture_authorization ++ jtext (",'authorizationHash':'" ++ fixture_hash ++ "'}],'nextCursor':null}").

Lemma VerifyReceipt_witness : exists r,
  VerifyReceipt fixture_receipt fixture_trusted = Ok r /\ str (Envelope r) "requestId" = "req-1".
Proof.
  destruct (is_ok_ex (VerifyReceipt fixture_receipt fixture_trusted)) as [r E]; [vm_compute; reflexivity|].
  exists r. split; [exact E|].
  destruct (VerifyReceipt_sound _ _ _ E) as (_ & _ & _ & _ & _ & _ & Hr & _). exact Hr.
Defined.

Lemma SameReceipt_witness :
  SameReceipt fixture_receipt fixture_receipt_spaced = Ok true
  /\ fixture_receipt <> fixture_receipt_spaced
  /\ VerifyReceipt fixture_receipt fixture_trusted = VerifyReceipt fixture_receipt_spaced fixture_trusted.
Proof.
  assert (E : SameReceipt fixture_receipt fixture_receipt_spaced = Ok true) by (vm_compute; reflexivity).
  split_and!; [exact E|discriminate|].
  exact (proj2 (SameReceipt_interchangeable _ _ E) fixture_trusted).
Defined.

Lemma ParseAuthorization_witness : exists v,
  ParseAuthorization fixture_authorization = Ok v /\ (0 < big (str v "amountAtomic") < 2 ^ 256)%Z.
Proof.
  destruct (is_ok_ex (ParseAuthorization fixture_authorization)) as [v E]; [vm_compute; reflexivity|].
  exists v. split; [exact E|].
  destruct (ParseAuthorization_sound _ _ E) as (_ & _ & _ & _ & _ & _ & _ & Hb & _). exact Hb.
Defined.

Lemma ParsePendingPage_witness :
  ParsePendingPage fixture_page = Ok () /\ exists rows, StronglySorted item_lt rows
  /\ (List.length rows <= 100)%nat.
Proof.
  assert (E : ParsePendingPage fixture_page = Ok ()) by (vm_compute; reflexivity).
  split; [exact E|].
  destruct (ParsePendingPage_sound _ E) as (_ & _ & rows & _ & _ & _ & Hl & _ & _ & Hs & _). eauto.
Defined.
