(* ===== verification/SigningPolicy.v ===== *)
(** [internal/signingpolicy]: the policy context of a SIGN intent, the routing table
    of the two supported protocols, and the comparison of the exact unsigned
    transaction bytes with the approved authorization. *)
From stdpp Require Import base tactics option list strings numbers gmap.
From Stdlib Require Import ZArith Lia Ascii String.
From S2P Require Import Prelude GoText Sha256 Json StrictJson Externals Mpc2of3 ApprovalWire.

#[local] Open Scope string_scope.

(** * context.go *)

Record PolicyContext := {
  AmountAtomic : string; Asset : string; Chain : string; ChainID : string;
  FeeLimitSun : option string; FromAddress : string; GasLimit : string; MaxFeePerGas : string;
  MaxPriorityFeePerGas : string; Nonce : string; ToAddress : string;
  TokenContractCanonical : option string; TokenDecimals : option Z; TokenStandard : option string;
  TransactionType : Z; ctx_Version : Z;
}.

Definition zero_context : PolicyContext := Build_PolicyContext "" "" "" "" None "" "" "" "" "" "" None None None 0 0.

Definition decode_Context_fields : list (string * setter PolicyContext) :=
  [("amountAtomic", set_string (fun s '(Build_PolicyContext _ b c d e f g h i j k l m n o p) => Build_PolicyContext s b c d e f g h i j k l m n o p));
   ("asset", set_string (fun s '(Build_PolicyContext a _ c d e f g h i j k l m n o p) => Build_PolicyContext a s c d e f g h i j k l m n o p));
   ("chain", set_string (fun s '(Build_PolicyContext a b _ d e f g h i j k l m n o p) => Build_PolicyContext a b s d e f g h i j k l m n o p));
   ("chainId", set_string (fun s '(Build_PolicyContext a b c _ e f g h i j k l m n o p) => Build_PolicyContext a b c s e f g h i j k l m n o p));
   ("feeLimitSun", set_opt_string (fun s '(Build_PolicyContext a b c d _ f g h i j k l m n o p) => Build_PolicyContext a b c d s f g h i j k l m n o p));
   ("fromAddress", set_string (fun s '(Build_PolicyContext a b c d e _ g h i j k l m n o p) => Build_PolicyContext a b c d e s g h i j k l m n o p));
   ("gasLimit", set_string (fun s '(Build_PolicyContext a b c d e f _ h i j k l m n o p) => Build_PolicyContext a b c d e f s h i j k l m n o p));
   ("maxFeePerGas", set_string (fun s '(Build_PolicyContext a b c d e f g _ i j k l m n o p) => Build_PolicyContext a b c d e f g s i j k l m n o p));
   ("maxPriorityFeePerGas", set_string (fun s '(Build_PolicyContext a b c d e f g h _ j k l m n o p) => Build_PolicyContext a b c d e f g h s j k l m n o p));
   ("nonce", set_string (fun s '(Build_PolicyContext a b c d e f g h i _ k l m n o p) => Build_PolicyContext a b c d e f g h i s k l m n o p));
   ("toAddress", set_string (fun s '(Build_PolicyContext a b c d e f g h i j _ l m n o p) => Build_PolicyContext a b c d e f g h i j s l m n o p));
   ("tokenContractCanonical", set_opt_string (fun s '(Build_PolicyContext a b c d e f g h i j k _ m n o p) => Build_PolicyContext a b c d e f g h i j k s m n o p));
   ("tokenDecimals", set_opt_int (fun s '(Build_PolicyContext a b c d e f g h i j k l _ n o p) => Build_PolicyContext a b c d e f g h i j k l s n o p));
   ("tokenStandard", set_opt_string (fun s '(Build_PolicyContext a b c d e f g h i j k l m _ o p) => Build_PolicyContext a b c d e f g h i j k l m s o p));
   ("transactionType", set_uint32 (fun s '(Build_PolicyContext a b c d e f g h i j k l m n _ p) => Build_PolicyContext a b c d e f g h i j k l m n s p));
   ("version", set_uint32 (fun s '(Build_PolicyContext a b c d e f g h i j k l m n o _) => Build_PolicyContext a b c d e f g h i j k l m n o s))].

Definition ethereumPolicyFields : list string :=
  ["amountAtomic"; "asset"; "chain"; "chainId"; "fromAddress"; "gasLimit"; "maxFeePerGas";
   "maxPriorityFeePerGas"; "nonce"; "toAddress"; "tokenContractCanonical"; "tokenDecimals";
   "tokenStandard"; "transactionType"; "version"].
Definition tronPolicyFields : list string :=
  ["amountAtomic"; "asset"; "chain"; "feeLimitSun"; "fromAddress"; "toAddress";
   "tokenContractCanonical"; "tokenDecimals"; "tokenStandard"].

Definition policyFieldsForContext (fields : Object) : list string :=
  if is_some (fields !! "version") then ethereumPolicyFields else tronPolicyFields.

(** [Context.UnmarshalJSON]. *)
Definition Context_UnmarshalJSON (raw : bytes) : res PolicyContext :=
  fields ← of_option (unmarshal_object raw) (ENew "json");
  _ ← ensure (closed fields (policyFieldsForContext fields))
        (ENew "SIGN policy context has invalid fields");
  v ← of_option (json_parse raw) (ENew "json");
  of_option (decode_struct decode_Context_fields zero_context v) (ENew "json").

(** * numbers.go *)

Definition maxProducerSafeInteger : Z := 2 ^ 53 - 1.

Definition canonicalUint (value : string) : bool :=
  if value =s "0" then true
  else match value with
       | "" => false
       | String c r => if (code c <? 49)%N || (57 <? code c)%N then false else str_forall is_digit r
       end.
Definition canonicalPositiveUint (value : string) : bool := (value <>s "0") && canonicalUint value.

(** [big.Int.Cmp] as -1, 0 or 1. *)
Definition big_cmp (a b : Z) : Z := match (a ?= b)%Z with Lt => -1 | Eq => 0 | Gt => 1 end.
Definition compareUint (left right : string) : Z :=
  match parse_big left, parse_big right with
  | Some l, Some r => big_cmp l r
  | _, _ => 1
  end.

Definition number (v : string) : option Z := parse_big v.
(** [number(v)] where the text is known to be a number. *)
Definition num (v : string) : Z := default 0%Z (number v).

(** * token_call.go *)

(** [n.FillBytes(buf)] of a buffer of [len] bytes: big-endian, zero-padded. *)
Fixpoint fill_bytes (len : nat) (n : Z) : bytes :=
  match len with
  | O => ""
  | S k => fill_bytes k (n / 256) +:+ String (char (Z.to_N (n mod 256))) ""
  end.
Definition zeros (n : nat) : bytes := of_codes (replicate n 0%N).

Definition trim_prefix (p s : string) : string := default s (strip_prefix p s).

(** A nil slice is the empty one: the code compares it by content only. *)
Definition transferCall (address amount : string) : bytes :=
  match hex_decode (trim_prefix "0x" address), number amount with
  | Some addr, Some n =>
      if negb (zlen addr =? 20)%Z || (n <? 0)%Z || (2 ^ 256 <=? n)%Z then ""
      else of_codes [169; 5; 156; 187]%N +:+ zeros 12 +:+ addr +:+ fill_bytes 32 n
  | _, _ => ""
  end.

(** * ethereum.go *)

Definition ethereumPayloadType := "ethereum-transaction".
Definition ethereumHashAlgorithm := "keccak256".

Definition ethereumChainID (chain : string) : string :=
  if chain =s "ethereum:mainnet" then "1"
  else if chain =s "ethereum:sepolia" then "11155111" else "".
Definition isEthereumChain (chain : string) : bool := ethereumChainID chain <>s "".

Definition canonicalEVMAddress (value : string) : bool :=
  (zlen value =? 42)%Z && has_prefix "0x" value && str_forall lower_hex (str_drop 2 value).

Definition AddressValidationError (field : string) : error :=
  ENew ("payload.policyContext." +:+ field +:+ ": noncanonical_address").

Definition validateEthereumAddresses (policy : PolicyContext) : res unit :=
  if negb (canonicalEVMAddress (FromAddress policy)) then Fail (AddressValidationError "fromAddress")
  else if negb (canonicalEVMAddress (ToAddress policy)) then Fail (AddressValidationError "toAddress")
  else match TokenStandard policy, TokenContractCanonical policy with
       | Some _, Some contract =>
           if negb (canonicalEVMAddress contract)
           then Fail (AddressValidationError "tokenContractCanonical") else Ok ()
       | _, _ => Ok ()
       end.

Definition validateEthereumContext (policy : PolicyContext) : res unit :=
  _ ← validateEthereumAddresses policy;
  let wantChainID := ethereumChainID (Chain policy) in
  if negb (ctx_Version policy =? 1)%Z || negb (TransactionType policy =? 2)%Z || (wantChainID =s "")
     || (ChainID policy <>s wantChainID)
     || negb (canonicalUint (AmountAtomic policy)) || negb (canonicalUint (Nonce policy))
     || negb (canonicalPositiveUint (GasLimit policy))
     || negb (canonicalPositiveUint (MaxFeePerGas policy))
     || negb (canonicalUint (MaxPriorityFeePerGas policy))
     || (0 <? compareUint (MaxPriorityFeePerGas policy) (MaxFeePerGas policy))%Z
  then Fail (ENew "SIGN claim Ethereum policy context is invalid")
  else match TokenStandard policy with
       | None =>
           if (Asset policy <>s "ETH") || is_some (TokenContractCanonical policy)
              || is_some (TokenDecimals policy)
           then Fail (ENew "SIGN claim Ethereum native asset context is invalid") else Ok ()
       | Some standard =>
           if (standard <>s "erc20") || negb (is_some (TokenContractCanonical policy))
              || match TokenDecimals policy with
                 | None => true
                 | Some d => (d <? 0)%Z || (255 <? d)%Z
                 end
              || (Asset policy =s "ETH")
           then Fail (ENew "SIGN claim Ethereum token context is invalid") else Ok ()
       end.

Record Tuple := {
  tu_Algorithm : string; tu_Curve : string; tu_Chain : string; tu_DigestType : string;
  tu_HashAlgorithm : string; tu_PayloadType : string; tu_AddressEncoding : string;
}.

Definition validEthereumTuple (tuple : Tuple) : bool :=
  isEthereumChain (tu_Chain tuple) && (tu_AddressEncoding tuple =s "evm_hex").

(** * tron.go *)

Definition tronPayloadType := "tron-transaction".
Definition tronHashAlgorithm := "sha256".

Definition isTronChain (chain : string) : bool := (chain =s "tron:mainnet") || (chain =s "tron:nile").

Definition validateTronContext (policy : PolicyContext) : res unit :=
  if negb (isTronChain (Chain policy)) then Fail (ENew "SIGN claim TRON network is unsupported")
  else if negb (ctx_Version policy =? 0)%Z || negb (TransactionType policy =? 0)%Z
          || (ChainID policy <>s "") || (Nonce policy <>s "") || (GasLimit policy <>s "")
          || (MaxFeePerGas policy <>s "") || (MaxPriorityFeePerGas policy <>s "")
  then Fail (ENew "SIGN claim policy context mismatch") else Ok ().

Definition validTronTuple (tuple : Tuple) : bool :=
  isTronChain (tu_Chain tuple)
  && ((tu_AddressEncoding tuple =s "tron_base58") || (tu_AddressEncoding tuple =s "base58check")
      || (tu_AddressEncoding tuple =s "tron_base58check")).

(** * prepared.go: data *)

Record ApprovedExecution := {
  ae_Version : Z; ae_RequestID : string; ae_OutgoingID : string; ae_Authorization : bytes;
  ae_AuthorizationHash : string; ae_DecisionReceipt : bytes;
}.
Record PreparedTransfer := {
  pt_Version : Z; pt_Encoding : string; pt_UnsignedTransaction : string;
  pt_NetworkFeeAsset : string; pt_NetworkFeeBudgetAtomic : string; pt_FeeEvidence : bytes;
}.

Definition err_prepared : error := ESent ErrPrepared.

(** [closedStruct]: a closed decode, every field present, and none null but
    [feeEvidence]. *)
Definition closedStruct {A} (decode : json -> option A) (tags : list string) (raw : bytes) : res A :=
  a ← DecodeClosed decode raw;
  m ← of_option (unmarshal_object raw) err_prepared;
  if negb (closed m tags)
     || existsb (fun k => isNull m k && (k <>s "feeEvidence")) tags
  then Fail err_prepared else Ok a.

(** [bytes.Equal(v, json.Marshal(w))] for the pointer types it is used at. *)
Definition marshal_opt_string (w : option string) : bytes :=
  match w with Some s => quote s | None => "null" end.
Definition marshal_opt_int (w : option Z) : bytes :=
  match w with Some z => format_int z | None => "null" end.
Definition nullEqual (v w : bytes) : bool := v =s w.

(** * ethereum_prepared.go and tron_prepared.go *)

(** [unsignedType2]: numbers are non-negative; the access list holds raw items. *)
Record unsignedType2 := {
  t2_ChainID : Z; t2_Nonce : Z; t2_Priority : Z; t2_MaxFee : Z; t2_Gas : Z; t2_To : bytes;
  t2_Value : Z; t2_Data : bytes; t2_AccessList : list bytes;
}.

(** The fields of the TRON protocol buffers that the code reads. *)
Record TronAny := { any_TypeUrl : string; any_Value : bytes; any_unknown : bytes }.
Record TronContract := {
  tc_Type : Z; tc_Parameter : option TronAny; tc_Provider : bytes; tc_ContractName : bytes;
  tc_PermissionId : Z; tc_unknown : bytes;
}.
Record TransactionRaw := {
  tx_RefBlockBytes : bytes; tx_RefBlockNum : Z; tx_RefBlockHash : bytes; tx_Expiration : Z;
  tx_Auths : list bytes; tx_Data : bytes; tx_Contract : list TronContract; tx_Scripts : bytes;
  tx_Timestamp : Z; tx_FeeLimit : Z; tx_unknown : bytes;
}.
Record TransferContract := {
  tf_OwnerAddress : bytes; tf_ToAddress : bytes; tf_Amount : Z; tf_unknown : bytes;
}.
Record TriggerSmartContract := {
  ts_OwnerAddress : bytes; ts_ContractAddress : bytes; ts_CallValue : Z; ts_Data : bytes;
  ts_CallTokenValue : Z; ts_TokenId : Z; ts_unknown : bytes;
}.

(** A message type of the protocol-buffer library: [proto.Unmarshal], the unknown
    fields it kept, and the deterministic [proto.Marshal]. *)
Record Codec (A : Type) := {
  unmarshal : bytes -> option A; unknown : A -> bytes; marshal : A -> option bytes;
}.
Arguments unmarshal {A}. Arguments unknown {A}. Arguments marshal {A}.

(** The transaction codecs the code calls: go-ethereum's RLP for [unsignedType2] and
    the generated TRON protocol buffers, with the size of an envelope that carries an
    empty raw message and one 65-byte signature. *)
Class TxCodecs := {
  rlp_decode : bytes -> option unsignedType2;
  rlp_encode : unsignedType2 -> option bytes;
  tx_codec : Codec TransactionRaw;
  transfer_codec : Codec TransferContract;
  trigger_codec : Codec TriggerSmartContract;
  empty_signed_size : Z;
}.

Definition strictProto {A} (c : Codec A) (raw : bytes) : res A :=
  match unmarshal c raw with
  | None => Fail err_prepared
  | Some m =>
      if negb (zlen (unknown c m) =? 0)%Z then Fail err_prepared
      else match marshal c m with
           | Some b => if raw =s b then Ok m else Fail err_prepared
           | None => Fail err_prepared
           end
  end.

Record TronFeeParameters := {
  TransactionFeeSunPerBandwidth : string; CreateAccountFeeSun : string;
  CreateNewAccountFeeInSystemContractSun : string; CreateNewAccountBandwidthRate : string;
}.
Record TronFeeQuote := {
  q_Version : Z; q_DestinationAccountExists : bool; q_ChainParameters : TronFeeParameters;
  q_AmountAtomic : string; q_SignedTransactionBytes : Z; q_BandwidthBytes : Z;
}.

Definition fee_parameter_tags : list string :=
  ["transactionFeeSunPerBandwidth"; "createAccountFeeSun"; "createNewAccountFeeInSystemContractSun";
   "createNewAccountBandwidthRate"].
Definition fee_quote_tags : list string :=
  ["version"; "destinationAccountExists"; "chainParameters"; "amountAtomic";
   "signedTransactionBytes"; "bandwidthBytes"].

Definition zero_fee_parameters : TronFeeParameters := Build_TronFeeParameters "" "" "" "".
Definition decode_TronFeeParameters : json -> option TronFeeParameters :=
  decode_struct
    [("transactionFeeSunPerBandwidth", set_string (fun s '(Build_TronFeeParameters _ b c d) => Build_TronFeeParameters s b c d));
     ("createAccountFeeSun", set_string (fun s '(Build_TronFeeParameters a _ c d) => Build_TronFeeParameters a s c d));
     ("createNewAccountFeeInSystemContractSun", set_string (fun s '(Build_TronFeeParameters a b _ d) => Build_TronFeeParameters a b s d));
     ("createNewAccountBandwidthRate", set_string (fun s '(Build_TronFeeParameters a b c _) => Build_TronFeeParameters a b c s))]
    zero_fee_parameters.

(** The nested value decodes through [TronFeeParameters.UnmarshalJSON], so its members
    are exactly the four tags and none is null. *)
Definition exact_members (tags : list string) (v : json) : bool :=
  match v with
  | JObj l => (List.length l =? List.length tags)%nat
              && forallb (fun t => bool_decide (t ∈ map fst l)) tags
              && forallb (fun kv => match kv.2 with JNull => false | _ => true end) l
  | _ => false
  end.
Definition set_fee_parameters (upd : TronFeeParameters -> TronFeeQuote -> TronFeeQuote)
    : setter TronFeeQuote := fun v a =>
  if exact_members fee_parameter_tags v
  then p ← decode_TronFeeParameters v; Some (upd p a) else None.
Definition decode_TronFeeQuote : json -> option TronFeeQuote :=
  decode_struct
    [("version", set_int (fun s '(Build_TronFeeQuote _ b c d e f) => Build_TronFeeQuote s b c d e f));
     ("destinationAccountExists", set_bool (fun s '(Build_TronFeeQuote a _ c d e f) => Build_TronFeeQuote a s c d e f));
     ("chainParameters", set_fee_parameters (fun s '(Build_TronFeeQuote a b _ d e f) => Build_TronFeeQuote a b s d e f));
     ("amountAtomic", set_string (fun s '(Build_TronFeeQuote a b c _ e f) => Build_TronFeeQuote a b c s e f));
     ("signedTransactionBytes", set_int (fun s '(Build_TronFeeQuote a b c d _ f) => Build_TronFeeQuote a b c d s f));
     ("bandwidthBytes", set_int (fun s '(Build_TronFeeQuote a b c d e _) => Build_TronFeeQuote a b c d e s))]
    (Build_TronFeeQuote 0 false zero_fee_parameters "" 0 0).

(** [json.Unmarshal(evidence, &quote)]: [Some None] is the nil quote of a null. *)
Definition decode_quote (evidence : bytes) : option (option TronFeeQuote) :=
  match json_parse evidence with
  | Some JNull => Some None
  | Some _ =>
      match closedStruct decode_TronFeeQuote fee_quote_tags evidence with
      | Ok q => Some (Some q)
      | Fail _ => None
      end
  | None => None
  end.

(** [int64] arithmetic wraps. *)
Definition i64 (z : Z) : Z := ((z + 2 ^ 63) mod 2 ^ 64 - 2 ^ 63)%Z.

(** The loop of [varintSize]; ten rounds consume any 64-bit length. *)
Fixpoint varint_rounds (fuel : nat) (s n : Z) : Z :=
  match fuel with
  | O => s
  | S k => if (128 <=? n)%Z then varint_rounds k (s + 1) (Z.shiftr n 7) else s
  end.
Definition varintSize (n : Z) : Z := varint_rounds 10 1 n.

Definition canonicalTronPolicyToken (p : PolicyContext) : option string :=
  if isTronChain (Chain p) then
    match TokenStandard p with
    | Some s => if s =s "TRC20" then Some "trc20" else Some s
    | None => None
    end
  else TokenStandard p.

Section Prepared.
Context `{Externals} `{TxCodecs}.

Record preparedVerification := { pv_digest : bytes; pv_budget : string }.

Definition verifyEthereumBytes (raw : bytes) (p : PolicyContext) : res string :=
  match raw with
  | String "002" body =>
      if (zlen raw <? 2)%Z then Fail err_prepared else
      match rlp_decode body with
      | None => Fail err_prepared
      | Some tx =>
          if match rlp_encode tx with Some encoded => encoded <>s body | None => true end
             || negb (List.length (t2_AccessList tx) =? 0)%nat
             || negb (zlen (t2_To tx) =? 20)%Z
             || (format_int (t2_ChainID tx) <>s ethereumChainID (Chain p))
             || (format_int (t2_ChainID tx) <>s ChainID p)
             || (format_int (t2_Nonce tx) <>s Nonce p)
             || (format_int (t2_Gas tx) <>s GasLimit p)
             || (format_int (t2_MaxFee tx) <>s MaxFeePerGas p)
             || (format_int (t2_Priority tx) <>s MaxPriorityFeePerGas p)
             || (t2_Gas tx <=? 0)%Z || (t2_MaxFee tx <=? 0)%Z
             || (t2_MaxFee tx <? t2_Priority tx)%Z
             || (2 ^ 256 <=? t2_Value tx)%Z || (2 ^ 256 <=? t2_MaxFee tx)%Z
             || (2 ^ 256 <=? t2_Priority tx)%Z || (2 ^ 64 <=? t2_Gas tx)%Z
             || (maxProducerSafeInteger <? t2_Nonce tx)%Z
          then Fail err_prepared
          else
            let to := "0x" +:+ hex_encode (t2_To tx) in
            let bad :=
              match TokenStandard p with
              | None =>
                  (Asset p <>s "ETH") || (to <>s ToAddress p)
                  || (format_int (t2_Value tx) <>s AmountAtomic p)
                  || negb (zlen (t2_Data tx) =? 0)%Z
              | Some standard =>
                  (standard <>s "erc20")
                  || match TokenContractCanonical p with Some c => to <>s c | None => true end
                  || negb (t2_Value tx =? 0)%Z
                  || (t2_Data tx <>s transferCall (ToAddress p) (AmountAtomic p))
              end in
            if bad then Fail err_prepared
            else Ok (format_int (t2_Gas tx * t2_MaxFee tx))
      end
  | _ => Fail err_prepared
  end.

Definition verifyEthereumPrepared (raw : bytes) (prepared : PreparedTransfer) (policy : PolicyContext)
    (auth : Object) (_ : time) : res preparedVerification :=
  if (pt_NetworkFeeAsset prepared <>s "ETH") || negb (nullEqual (pt_FeeEvidence prepared) "null")
     || negb (nullEqual (member auth "tokenStandard") (marshal_opt_string (TokenStandard policy)))
  then Fail err_prepared
  else
    budget ← verifyEthereumBytes raw policy;
    let params := rawObject auth "requestedChainParams" in
    let p := rawObject params "ethereum" in
    if (0 <? size params)%nat
       && ((str p "maxFeePerGas" <>s MaxFeePerGas policy)
           || (str p "maxPriorityFeePerGas" <>s MaxPriorityFeePerGas policy))
    then Fail err_prepared
    else Ok {| pv_digest := keccak256 raw; pv_budget := budget |}.

Definition tronAddress (address : string) : bytes :=
  match base58_check_decode address with
  | Some (p, v) => if negb (v =? 65)%N || negb (zlen p =? 20)%Z then "" else String (char v) p
  | None => ""
  end.

(** [now.UnixMilli()]. *)
Definition unix_milli (t : time) : Z := (t / millisecond)%Z.

Definition transaction_bad (tx : TransactionRaw) (now_ms : Z) : bool :=
  negb (List.length (tx_Contract tx) =? 1)%nat || negb (zlen (tx_RefBlockBytes tx) =? 2)%Z
  || negb (zlen (tx_RefBlockHash tx) =? 8)%Z || negb (tx_RefBlockNum tx =? 0)%Z
  || negb (List.length (tx_Auths tx) =? 0)%nat || negb (zlen (tx_Data tx) =? 0)%Z
  || negb (zlen (tx_Scripts tx) =? 0)%Z || (tx_Timestamp tx <=? 0)%Z
  || (i64 (now_ms + 1000) <? tx_Timestamp tx)%Z
  || (i64 (tx_Expiration tx - now_ms) <=? 60000)%Z
  || (tx_Expiration tx <=? tx_Timestamp tx)%Z
  || (86340000 <? i64 (tx_Expiration tx - tx_Timestamp tx))%Z
  || (tx_FeeLimit tx <? 0)%Z || (maxProducerSafeInteger <? tx_FeeLimit tx)%Z.

(** [tron.Transaction_Contract_TransferContract] and [.._TriggerSmartContract]. *)
Definition TransferContractType : Z := 1.
Definition TriggerSmartContractType : Z := 31.

Definition native_bad (p : PolicyContext) (tx : TransactionRaw) (c : TronContract) (any : TronAny) : bool :=
  negb (tc_Type c =? TransferContractType)%Z
  || (any_TypeUrl any <>s "type.googleapis.com/protocol.TransferContract")
  || match strictProto transfer_codec (any_Value any) with
     | Fail _ => true
     | Ok v =>
         (tf_OwnerAddress v <>s tronAddress (FromAddress p))
         || (tf_ToAddress v <>s tronAddress (ToAddress p))
         || (tf_Amount v <=? 0)%Z || (maxProducerSafeInteger <? tf_Amount v)%Z
         || (format_int (tf_Amount v) <>s AmountAtomic p)
         || negb (tx_FeeLimit tx =? 0)%Z || is_some (FeeLimitSun p) || (Asset p <>s "TRX")
     end.

(** [hex.DecodeString] returns the bytes decoded before an error. *)
Fixpoint hex_decode_prefix (s : string) : bytes :=
  match s with
  | String a (String b r) =>
      match hex_value a, hex_value b with
      | Some x, Some y => String (char (16 * x + y)) (hex_decode_prefix r)
      | _, _ => ""
      end
  | _ => ""
  end.
Definition token_contract_bytes (p : PolicyContext) : bytes :=
  match TokenContractCanonical p with
  | Some c => String (char 65) (hex_decode_prefix (trim_prefix "0x" c))
  | None => ""
  end.

Definition token_bad (standard : string) (p : PolicyContext) (tx : TransactionRaw) (c : TronContract)
    (any : TronAny) : bool :=
  let addr := tronAddress (ToAddress p) in
  ((standard <>s "trc20") && (standard <>s "TRC20"))
  || negb (tc_Type c =? TriggerSmartContractType)%Z
  || (any_TypeUrl any <>s "type.googleapis.com/protocol.TriggerSmartContract")
  || match strictProto trigger_codec (any_Value any) with
     | Fail _ => true
     | Ok v =>
         (ts_OwnerAddress v <>s tronAddress (FromAddress p))
         || (ts_ContractAddress v <>s token_contract_bytes p)
         || negb (zlen addr =? 21)%Z
         || (ts_Data v <>s transferCall ("0x" +:+ hex_encode (str_drop 1 addr)) (AmountAtomic p))
         || negb (ts_CallValue v =? 0)%Z || negb (ts_CallTokenValue v =? 0)%Z
         || negb (ts_TokenId v =? 0)%Z
         || match FeeLimitSun p with
            | None => true
            | Some limit => format_int (tx_FeeLimit tx) <>s limit
            end
         || (tx_FeeLimit tx <=? 0)%Z
     end.

Definition verifyTronBytes (raw : bytes) (p : PolicyContext) (now : time) : res unit :=
  tx ← strictProto tx_codec raw;
  if transaction_bad tx (unix_milli now) then Fail err_prepared else
  match tx_Contract tx with
  | c :: _ =>
      match tc_Parameter c with
      | None => Fail err_prepared
      | Some any =>
          if negb (zlen (tc_unknown c) =? 0)%Z || negb (tc_PermissionId c =? 0)%Z
             || negb (zlen (tc_Provider c) =? 0)%Z || negb (zlen (tc_ContractName c) =? 0)%Z
             || negb (zlen (any_unknown any) =? 0)%Z
          then Fail err_prepared
          else if match TokenStandard p with
                  | None => native_bad p tx c any
                  | Some standard => token_bad standard p tx c any
                  end
          then Fail err_prepared else Ok ()
      end
  | [] => Fail err_prepared
  end.

Definition tronBudget (raw : bytes) (p : PolicyContext) (q : TronFeeQuote) : string :=
  let params := q_ChainParameters q in
  let signed := (empty_signed_size + zlen raw + varintSize (zlen raw) - 1)%Z in
  let bandwidth := (signed + 64)%Z in
  if negb (q_Version q =? 1)%Z then ""
  else if negb (forallb canonicalUint
                  [TransactionFeeSunPerBandwidth params; CreateAccountFeeSun params;
                   CreateNewAccountFeeInSystemContractSun params;
                   CreateNewAccountBandwidthRate params; q_AmountAtomic q]) then ""
  else if negb (q_SignedTransactionBytes q =? signed)%Z || negb (q_BandwidthBytes q =? bandwidth)%Z
  then ""
  else
    let budget := (bandwidth * num (TransactionFeeSunPerBandwidth params))%Z in
    let budget :=
      if negb (is_some (FeeLimitSun p)) && negb (q_DestinationAccountExists q)
      then (budget * num (CreateNewAccountBandwidthRate params)
            + num (CreateAccountFeeSun params)
            + num (CreateNewAccountFeeInSystemContractSun params))%Z
      else budget in
    match FeeLimitSun p with
    | Some limit =>
        if negb (canonicalUint limit) then ""
        else let budget := (budget + num limit)%Z in
             if format_int budget <>s q_AmountAtomic q then "" else format_int budget
    | None => if format_int budget <>s q_AmountAtomic q then "" else format_int budget
    end.

Definition verifyTronPrepared (raw : bytes) (prepared : PreparedTransfer) (policy : PolicyContext)
    (auth : Object) (now : time) : res preparedVerification :=
  if pt_NetworkFeeAsset prepared <>s "TRX" then Fail err_prepared else
  match decode_quote (pt_FeeEvidence prepared) with
  | Some (Some quote) =>
      if negb (nullEqual (member auth "tokenStandard")
                 (marshal_opt_string (canonicalTronPolicyToken policy)))
      then Fail err_prepared
      else
        _ ← verifyTronBytes raw policy now;
        let params := rawObject auth "requestedChainParams" in
        let p := rawObject params "tron" in
        if (0 <? size params)%nat && (member p "feeLimitSun" <>s "null")
           && negb (nullEqual (member p "feeLimitSun") (marshal_opt_string (FeeLimitSun policy)))
        then Fail err_prepared
        else Ok {| pv_digest := sha256 raw; pv_budget := tronBudget raw policy quote |}
  | _ => Fail err_prepared
  end.

(** * protocol.go *)

Record protocol := {
  hashAlgorithm : string;
  supportsChain : string -> bool;
  validTuple : Tuple -> bool;
  validateContext : PolicyContext -> res unit;
  verifyPrepared : bytes -> PreparedTransfer -> PolicyContext -> Object -> time -> res preparedVerification;
}.

Definition protocolForPayload (payloadType : string) : option protocol :=
  if payloadType =s ethereumPayloadType then
    Some {| hashAlgorithm := ethereumHashAlgorithm; supportsChain := isEthereumChain;
            validTuple := validEthereumTuple; validateContext := validateEthereumContext;
            verifyPrepared := verifyEthereumPrepared |}
  else if payloadType =s tronPayloadType then
    Some {| hashAlgorithm := tronHashAlgorithm; supportsChain := isTronChain;
            validTuple := validTronTuple; validateContext := validateTronContext;
            verifyPrepared := verifyTronPrepared |}
  else None.

Definition ValidPayloadHash (payloadType hashAlg : string) : bool :=
  match protocolForPayload payloadType with
  | Some p => hashAlgorithm p =s hashAlg
  | None => false
  end.

(** * validate.go *)

Definition ValidateTuple (tuple : Tuple) : res unit :=
  let t := {| tu_Algorithm := to_lower (trim_space (tu_Algorithm tuple));
              tu_Curve := to_lower (trim_space (tu_Curve tuple));
              tu_Chain := trim_space (tu_Chain tuple);
              tu_DigestType := trim_space (tu_DigestType tuple);
              tu_HashAlgorithm := trim_space (tu_HashAlgorithm tuple);
              tu_PayloadType := trim_space (tu_PayloadType tuple);
              tu_AddressEncoding := trim_space (tu_AddressEncoding tuple) |} in
  if (tu_Algorithm t <>s "ecdsa") || (tu_Curve t <>s "secp256k1") || (tu_DigestType t <>s "transaction")
  then Fail (ENew "unsupported signing tuple")
  else match protocolForPayload (tu_PayloadType t) with
       | Some p =>
           if (tu_HashAlgorithm t =s hashAlgorithm p) && validTuple p t then Ok ()
           else Fail (ENew "unsupported signing tuple")
       | None => Fail (ENew "unsupported signing tuple")
       end.

Definition ValidateContext (policy : option PolicyContext) (chain payloadType expectedAddress : string)
    : res unit :=
  match policy with
  | None => Fail (ENew "SIGN claim policy context is incomplete")
  | Some policy =>
      if (Asset policy =s "") || (AmountAtomic policy =s "") || (FromAddress policy =s "")
         || (ToAddress policy =s "") || (Chain policy =s "")
      then Fail (ENew "SIGN claim policy context is incomplete")
      else match protocolForPayload payloadType with
           | None => Fail (ENew "SIGN claim signing payload type is unsupported")
           | Some p =>
               _ ← validateContext p policy;
               if (Chain policy <>s chain) || (FromAddress policy <>s expectedAddress)
               then Fail (ENew "SIGN claim policy context mismatch") else Ok ()
           end
  end.

(** * prepared.go: VerifyPrepared *)

(** The result carries the parsed authorization ([VerifiedPrepared]). *)
Definition VerifyPrepared (a : option ApprovedExecution) (prepared : option PreparedTransfer)
    (policy : option PolicyContext) (digest : bytes) (payloadType algorithm : string) (now : time)
    : res Object :=
  match a, prepared, policy with
  | Some a, Some prepared, Some policy =>
      _ ← ensure ((ae_Version a =? 1)%Z && ValidReference (ae_OutgoingID a)
                  && (ae_RequestID a <>s "") && (pt_Version prepared =? 1)%Z
                  && (pt_Encoding prepared =s "hex")
                  && canonicalUint (pt_NetworkFeeBudgetAtomic prepared)) err_prepared;
      canonical ← of_option (match jcs_transform (ae_Authorization a) with
                             | Ok c => Some c | Fail _ => None end) err_prepared;
      auth ← of_option (match ParseAuthorization canonical with
                        | Ok v => Some v | Fail _ => None end) err_prepared;
      _ ← ensure ((sha256_hex canonical =s ae_AuthorizationHash a)
                  && (str auth "requestId" =s ae_RequestID a)) err_prepared;
      _ ← ensure (forallb (fun kw => str auth kw.1 =s kw.2)
                    [("chain", Chain policy); ("asset", Asset policy);
                     ("fromAddress", FromAddress policy); ("toAddress", ToAddress policy);
                     ("amountAtomic", AmountAtomic policy);
                     ("networkFeeAsset", pt_NetworkFeeAsset prepared)]) err_prepared;
      _ ← ensure (nullEqual (member auth "tokenDecimals") (marshal_opt_int (TokenDecimals policy))
                  && nullEqual (member auth "tokenContractCanonical")
                       (marshal_opt_string (TokenContractCanonical policy))
                  && (num (pt_NetworkFeeBudgetAtomic prepared)
                      <=? num (str auth "maxNetworkFeeAtomic"))%Z) err_prepared;
      raw ← of_option (hex_decode (pt_UnsignedTransaction prepared)) err_prepared;
      _ ← ensure (negb (zlen raw =? 0)%Z && (zlen raw <=? 16384)%Z
                  && (hex_encode raw =s pt_UnsignedTransaction prepared)) err_prepared;
      p ← of_option (protocolForPayload payloadType) err_prepared;
      _ ← ensure ((algorithm =s hashAlgorithm p) && supportsChain p (Chain policy)) err_prepared;
      verified ← of_option (match verifyPrepared p raw prepared policy auth now with
                            | Ok v => Some v | Fail _ => None end) err_prepared;
      _ ← ensure ((pv_budget verified <>s "")
                  && (pv_budget verified =s pt_NetworkFeeBudgetAtomic prepared)
                  && (pv_digest verified =s digest)) err_prepared;
      Ok auth
  | _, _, _ => Fail err_prepared
  end.
End Prepared.

(** * The ABI call *)

Lemma fill_bytes_length len n : String.length (fill_bytes len n) = len.
Proof.
  revert n. induction len as [|k IH]; intros n; [done|]. cbn [fill_bytes].
  rewrite sapp_length, IH. cbn. lia.
Qed.

Lemma sapp_inj_len s s' t t' :
  String.length s = String.length s' -> s +:+ t = s' +:+ t' -> s = s' /\ t = t'.
Proof.
  revert s'. induction s as [|c s IH]; intros [|c' s']; cbn; try done; intros Hl.
  rewrite !sapp_cons. intros [= -> E]. apply IH in E as [-> ->]; [done|lia].
Qed.

Lemma fill_bytes_inj len n m :
  (0 <= n < 256 ^ Z.of_nat len)%Z -> (0 <= m < 256 ^ Z.of_nat len)%Z ->
  fill_bytes len n = fill_bytes len m -> n = m.
Proof.
  revert n m. induction len as [|k IH]; intros n m Hn Hm E; [lia|].
  cbn [fill_bytes] in E.
  apply sapp_inj_len in E as [E1 E2]; [|by rewrite !fill_bytes_length].
  rewrite Nat2Z.inj_succ, Z.pow_succ_r in Hn, Hm by lia.
  apply IH in E1; [|split; [apply Z.div_pos; lia|apply Z.div_lt_upper_bound; lia]..].
  injection E2 as E2. apply (f_equal code) in E2.
  pose proof (Z.mod_pos_bound n 256 ltac:(lia)). pose proof (Z.mod_pos_bound m 256 ltac:(lia)).
  rewrite !code_char in E2 by lia.
  rewrite (Z.div_mod n 256), (Z.div_mod m 256), E1 by lia. lia.
Qed.

Lemma transferCall_shape address amount :
  transferCall address amount <> "" -> exists addr n,
  hex_decode (trim_prefix "0x" address) = Some addr /\ String.length addr = 20%nat
  /\ number amount = Some n /\ (0 <= n < 2 ^ 256)%Z
  /\ transferCall address amount
     = of_codes [169; 5; 156; 187]%N +:+ zeros 12 +:+ addr +:+ fill_bytes 32 n.
Proof.
  unfold transferCall, zlen. destruct (hex_decode _) as [addr|]; [|done].
  destruct (number amount) as [n|]; [|done]. destruct (_ || _) eqn:E; [done|]. split_bools.
  intros _. exists addr, n. split_and!; try done; lia.
Qed.

(** The token call data determines the transfer: equal non-empty call data
    means the same recipient bytes and the same amount, so comparing the data of an
    unsigned transaction with the expected call pins both. *)
Theorem transferCall_injective address amount address' amount' :
  transferCall address amount <> "" ->
  transferCall address amount = transferCall address' amount' ->
  hex_decode (trim_prefix "0x" address) = hex_decode (trim_prefix "0x" address')
  /\ number amount = number amount'.
Proof.
  intros Hne E. pose proof Hne as Hne'. rewrite E in Hne'.
  apply transferCall_shape in Hne as (a & n & -> & Hl & -> & Hb & E1).
  apply transferCall_shape in Hne' as (a' & n' & -> & Hl' & -> & Hb' & E2).
  rewrite E1, E2 in E. apply sapp_inj_len in E as [_ E]; [|done].
  apply sapp_inj_len in E as [_ E]; [|done]. apply sapp_inj_len in E as [-> E]; [|congruence].
  apply fill_bytes_inj in E; [by subst|lia..].
Qed.

Lemma transferCall_witness :
  transferCall "0x1111111111111111111111111111111111111111" "1000" <> ""
  /\ hex_decode (trim_prefix "0x" "0x1111111111111111111111111111111111111111")
     = hex_decode (trim_prefix "0x" "1111111111111111111111111111111111111111").
Proof.
  assert (Hne : transferCall "0x1111111111111111111111111111111111111111" "1000" <> "")
    by (vm_compute; discriminate).
  split; [exact Hne|].
  refine (proj1 (transferCall_injective _ "1000" _ "1000" Hne _)). vm_compute. reflexivity.
Defined.

(** * What a verified prepared transfer guarantees *)

Lemma format_int_uint z : uintPattern (format_int z) = true -> (0 <= z)%Z.
Proof. destruct z as [|p|p]; [lia|lia|]. cbn. discriminate. Qed.

Lemma num_format z : (0 <= z)%Z -> num (format_int z) = z.
Proof. intros. unfold num, number. by rewrite parse_big_format. Qed.

Section PreparedFacts.
Context `{Externals} `{TxCodecs}.

(** The authorization document that was approved and its parsed form. *)
Definition approved (a : ApprovedExecution) (auth : Object) : Prop :=
  exists canonical, jcs_transform (ae_Authorization a) = Ok canonical
  /\ ParseAuthorization canonical = Ok auth /\ sha256_hex canonical = ae_AuthorizationHash a
  /\ str auth "requestId" = ae_RequestID a.

(** The terms of the authorization that the policy context and the prepared transfer
    repeat, and the fee bound. *)
Definition terms_agree (auth : Object) (policy : PolicyContext) (prepared : PreparedTransfer) : Prop :=
  str auth "chain" = Chain policy /\ str auth "asset" = Asset policy
  /\ str auth "fromAddress" = FromAddress policy /\ str auth "toAddress" = ToAddress policy
  /\ str auth "amountAtomic" = AmountAtomic policy
  /\ member auth "tokenContractCanonical" = marshal_opt_string (TokenContractCanonical policy)
  /\ (num (pt_NetworkFeeBudgetAtomic prepared) <= num (str auth "maxNetworkFeeAtomic"))%Z.

Lemma VerifyPrepared_Ok a prepared policy digest payloadType algorithm now auth :
  VerifyPrepared (Some a) (Some prepared) (Some policy) digest payloadType algorithm now = Ok auth ->
  approved a auth /\ terms_agree auth policy prepared
  /\ exists raw p v, hex_encode raw = pt_UnsignedTransaction prepared
     /\ protocolForPayload payloadType = Some p /\ algorithm = hashAlgorithm p
     /\ supportsChain p (Chain policy) = true
     /\ verifyPrepared p raw prepared policy auth now = Ok v
     /\ pv_budget v = pt_NetworkFeeBudgetAtomic prepared /\ pv_budget v <> "" /\ pv_digest v = digest
     /\ ValidReference (ae_OutgoingID a) = true.
Proof.
  unfold VerifyPrepared. intros Hv. inv_ok.
  repeat match goal with
  | E : match jcs_transform ?x with _ => _ end = Some _ |- _ =>
      destruct (jcs_transform x) eqn:?; [|done]
  | E : match ParseAuthorization ?x with _ => _ end = Some _ |- _ =>
      destruct (ParseAuthorization x) eqn:?; [|done]
  | E : match verifyPrepared ?p ?a ?b ?c ?d ?e with _ => _ end = Some _ |- _ =>
      destruct (verifyPrepared p a b c d e) eqn:?; [|done]
  | E : Some _ = Some _ |- _ => injection E as <-
  | E : forallb _ _ = true |- _ => cbn [forallb fst snd] in E
  end.
  unfold nullEqual in *. split_bools.
  split; [|split].
  - eexists. split_and!; eassumption.
  - unfold terms_agree. split_and!; assumption.
  - eexists _, _, _. split_and!; eassumption.
Qed.

Lemma authorization_asset a auth : approved a auth ->
  exists native standard, validateTransferAsset auth native standard = Ok ().
Proof.
  intros (c & _ & Hp & _). unfold ParseAuthorization in Hp. inv_ok.
  match goal with Ha : authorizationValidator _ = Some _ |- _ => unfold authorizationValidator in Ha;
    destruct ((_ =s "ethereum:mainnet") || _) in Ha; [|step_if Ha]; injection Ha as <- end.
  all: match goal with
       | Hc : validateEthereumAuthorization _ _ = _ |- _ =>
           unfold validateEthereumAuthorization in Hc; step_if Hc
       | Hc : validateTronAuthorization _ _ = _ |- _ =>
           unfold validateTronAuthorization in Hc; step_if Hc
       end; inv_ok.
  all: match goal with Ht : validateTransferAsset _ ?n ?s = Ok ?u |- _ =>
         destruct u; exists n, s; exact Ht end.
Qed.

Lemma authorization_amount a auth : approved a auth -> uintPattern (str auth "amountAtomic") = true.
Proof.
  intros Ha. apply authorization_asset in Ha as (native & standard & Ht).
  unfold validateTransferAsset in Ht. step_if Ht. by split_bools.
Qed.

Lemma authorization_contract a auth : approved a auth -> isNull auth "tokenStandard" = false ->
  member auth "tokenContractCanonical" <> "null".
Proof.
  intros Ha Hn Hc. apply authorization_asset in Ha as (native & standard & Ht).
  apply validateTransferAsset_Ok in Ht as (_ & _ & [[Hn' _]|[_ Hv]]); [congruence|].
  unfold str in Hv. rewrite Hc in Hv. done.
Qed.
End PreparedFacts.

Section PreparedTheorems.
Context `{Externals} `{TxCodecs}.

(** What the Ethereum transaction [tx] does, in the words of the authorization. *)
Definition ethereum_effect (auth : Object) (tx : unsignedType2) : Prop :=
  (isNull auth "tokenStandard" = true /\ "0x" +:+ hex_encode (t2_To tx) = str auth "toAddress"
   /\ t2_Value tx = num (str auth "amountAtomic") /\ t2_Data tx = "")
  \/ (member auth "tokenStandard" = quote "erc20"
      /\ member auth "tokenContractCanonical" = quote ("0x" +:+ hex_encode (t2_To tx))
      /\ t2_Value tx = 0%Z
      /\ t2_Data tx = transferCall (str auth "toAddress") (str auth "amountAtomic")).

Lemma verifyEthereumBytes_Ok raw p budget : verifyEthereumBytes raw p = Ok budget ->
  exists body tx, raw = String "002" body /\ rlp_encode tx = Some body
  /\ t2_AccessList tx = [] /\ String.length (t2_To tx) = 20%nat
  /\ format_int (t2_ChainID tx) = ethereumChainID (Chain p)
  /\ (0 < t2_Gas tx)%Z /\ (0 < t2_MaxFee tx)%Z /\ (t2_Priority tx <= t2_MaxFee tx)%Z
  /\ budget = format_int (t2_Gas tx * t2_MaxFee tx)
  /\ match TokenStandard p with
     | None => "0x" +:+ hex_encode (t2_To tx) = ToAddress p
               /\ format_int (t2_Value tx) = AmountAtomic p /\ t2_Data tx = ""
     | Some standard => standard = "erc20"
               /\ TokenContractCanonical p = Some ("0x" +:+ hex_encode (t2_To tx))
               /\ t2_Value tx = 0%Z /\ t2_Data tx = transferCall (ToAddress p) (AmountAtomic p)
     end.
Proof.
  unfold verifyEthereumBytes. intros Hv.
  destruct raw as [|c body]; [done|].
  destruct c as [[] [] [] [] [] [] [] []]; try done.
  step_if Hv. step_if Hv. step_if Hv. cbv zeta in Hv. step_if Hv. inv_ok.
  match goal with E : rlp_decode _ = Some ?t |- _ => exists body, t end.
  unfold zlen in *. split_bools.
  destruct (rlp_encode _) eqn:Er; [|done]. split_bools. subst.
  split_and!; try done; try lia.
  - match goal with E : (List.length _ =? 0)%nat = true |- _ => by apply Nat.eqb_eq, nil_length_inv in E end.
  - destruct (TokenStandard p); split_bools; split_and!; try done.
    + match goal with E : match TokenContractCanonical p with _ => _ end = false |- _ =>
        destruct (TokenContractCanonical p); [split_bools; by subst|done] end.
    + destruct (t2_Data _); [done|cbn in *; lia].
Qed.

(** The transfer of an Ethereum authorization, as the bytes to be signed: the digest is
    the hash of the canonical type-2 encoding of a transaction with that effect. *)
Definition ethereum_transfer (auth : Object) (prepared : PreparedTransfer) (digest : bytes) : Prop :=
  exists body tx, let raw := String "002" body in
  hex_encode raw = pt_UnsignedTransaction prepared /\ digest = keccak256 raw
  /\ rlp_encode tx = Some body /\ t2_AccessList tx = []
  /\ format_int (t2_ChainID tx) = ethereumChainID (str auth "chain")
  /\ ethereum_effect auth tx
  /\ (t2_Gas tx * t2_MaxFee tx = num (pt_NetworkFeeBudgetAtomic prepared))%Z
  /\ (t2_Gas tx * t2_MaxFee tx <= num (str auth "maxNetworkFeeAtomic"))%Z.

Lemma VerifyPrepared_ethereum_facts a prepared policy digest algorithm now auth :
  VerifyPrepared (Some a) (Some prepared) (Some policy) digest ethereumPayloadType algorithm now
    = Ok auth ->
  approved a auth /\ ethereum_transfer auth prepared digest.
Proof.
  intros Hv. apply VerifyPrepared_Ok in Hv as (Ha & Ht & raw & p & v & Hraw & Hp & _ & _ & Hpv & Hb & _ & Hd & _).
  split; [done|]. injection Hp as <-. cbn [verifyPrepared] in Hpv.
  destruct Ht as (Hc & _ & _ & Hto & Ham & Htok & Hfee).
  pose proof (authorization_amount _ _ Ha) as Hu.
  unfold verifyEthereumPrepared in Hpv. step_if Hpv. inv_ok. cbv zeta in Hpv. step_if Hpv. inv_ok.
  match goal with Hv : verifyEthereumBytes _ _ = _ |- _ =>
    apply verifyEthereumBytes_Ok in Hv as (body & tx & -> & Henc & Hal & _ & Hcid & Hg & Hm & _ & -> & Heff) end.
  assert (Hprod : (t2_Gas tx * t2_MaxFee tx = num (pt_NetworkFeeBudgetAtomic prepared))%Z).
  { cbn in Hb. rewrite <- Hb, num_format; lia. }
  exists body, tx. cbv zeta. split_and!; try done; [congruence| |lia].
  unfold nullEqual in *. split_bools. unfold ethereum_effect.
  destruct (TokenStandard policy) as [standard|]; destruct_and! Heff.
  - right. subst standard. split_and!; try done; [|congruence]. rewrite Htok.
    match goal with E : TokenContractCanonical _ = _ |- _ => by rewrite E end.
  - left. split_and!; [|congruence| |done].
    + unfold isNull. by apply String.eqb_eq.
    + assert (Hf : str auth "amountAtomic" = format_int (t2_Value tx)) by congruence.
      rewrite Hf in *. apply format_int_uint in Hu. by rewrite num_format.
Qed.

(** (C7) If an Ethereum transfer passes [VerifyPrepared], the digest to be signed is
    the Keccak-256 of the exact unsigned transaction; those bytes are the canonical
    type-2 encoding of a transaction on the approved chain, without access list,
    that moves exactly the approved amount of the approved asset to the approved
    recipient; its worst-case fee is the stated budget and within the approved cap. *)
Theorem VerifyPrepared_ethereum a prepared policy digest algorithm now auth :
  VerifyPrepared (Some a) (Some prepared) (Some policy) digest ethereumPayloadType algorithm now
    = Ok auth ->
  approved a auth /\ exists body tx, let raw := String "002" body in
  hex_encode raw = pt_UnsignedTransaction prepared /\ digest = keccak256 raw
  /\ rlp_encode tx = Some body /\ t2_AccessList tx = []
  /\ format_int (t2_ChainID tx) = ethereumChainID (str auth "chain")
  /\ ethereum_effect auth tx
  /\ (t2_Gas tx * t2_MaxFee tx = num (pt_NetworkFeeBudgetAtomic prepared))%Z
  /\ (t2_Gas tx * t2_MaxFee tx <= num (str auth "maxNetworkFeeAtomic"))%Z.
Proof. exact (VerifyPrepared_ethereum_facts a prepared policy digest algorithm now auth). Qed.
End PreparedTheorems.

(** * TRON *)

Definition int64 (z : Z) : Prop := (- 2 ^ 63 <= z < 2 ^ 63)%Z.

Lemma i64_small z : int64 z -> i64 z = z.
Proof. unfold int64, i64. intros. rewrite Z.mod_small by lia. lia. Qed.

Section TronTheorems.
Context `{Externals} `{TxCodecs}.

(** The timestamps of a decoded transaction are [int64] fields, and sizes are
    not negative. *)
Hypothesis tx_int64 : forall raw tx, unmarshal tx_codec raw = Some tx ->
  int64 (tx_Expiration tx) /\ int64 (tx_Timestamp tx).
Hypothesis empty_signed_nonneg : (0 <= empty_signed_size)%Z.

Lemma strictProto_Ok {A} (c : Codec A) raw m : strictProto c raw = Ok m ->
  unmarshal c raw = Some m /\ marshal c m = Some raw /\ unknown c m = "".
Proof.
  unfold strictProto, zlen. intros Hs. step_if Hs. step_if Hs. step_if Hs. step_if Hs.
  inv_ok. split_bools. subst. split_and!; try done. by destruct (unknown c m).
Qed.

(** The timing window of a transaction, over the integers. *)
Definition tron_window (tx : TransactionRaw) (now_ms : Z) : Prop :=
  (0 < tx_Timestamp tx <= now_ms + 1000)%Z /\ (now_ms + 60000 < tx_Expiration tx)%Z
  /\ (tx_Timestamp tx < tx_Expiration tx <= tx_Timestamp tx + 86340000)%Z.

Lemma transaction_bad_false tx now_ms :
  int64 (tx_Expiration tx) -> int64 (tx_Timestamp tx) -> (0 <= now_ms < 2 ^ 62)%Z ->
  transaction_bad tx now_ms = false ->
  tron_window tx now_ms /\ List.length (tx_Contract tx) = 1%nat /\ tx_Data tx = ""
  /\ tx_Auths tx = [] /\ (0 <= tx_FeeLimit tx <= maxProducerSafeInteger)%Z.
Proof.
  unfold transaction_bad, tron_window, zlen. intros He Ht Hn Hb. split_bools.
  repeat match goal with E : (_ =? _)%nat = true |- _ => apply Nat.eqb_eq in E end.
  unfold int64 in *.
  pose proof (i64_small (now_ms + 1000) ltac:(unfold int64; lia)).
  pose proof (i64_small (tx_Expiration tx - now_ms) ltac:(unfold int64; lia)).
  pose proof (i64_small (tx_Expiration tx - tx_Timestamp tx) ltac:(unfold int64; lia)).
  split_and!; try lia; [by destruct (tx_Data tx)|by apply nil_length_inv].
Qed.

(** What the TRON transaction does, in the words of the authorization. *)
Definition tron_effect (auth : Object) (tx : TransactionRaw) (c : TronContract) (any : TronAny) : Prop :=
  (isNull auth "tokenStandard" = true /\ tc_Type c = TransferContractType /\ exists v,
   marshal transfer_codec v = Some (any_Value any)
   /\ tf_OwnerAddress v = tronAddress (str auth "fromAddress")
   /\ tf_ToAddress v = tronAddress (str auth "toAddress")
   /\ tf_Amount v = num (str auth "amountAtomic") /\ tx_FeeLimit tx = 0%Z)
  \/ (member auth "tokenStandard" = quote "trc20" /\ tc_Type c = TriggerSmartContractType /\ exists v contract,
      marshal trigger_codec v = Some (any_Value any)
      /\ ts_OwnerAddress v = tronAddress (str auth "fromAddress")
      /\ member auth "tokenContractCanonical" = quote contract
      /\ ts_ContractAddress v = String (char 65) (hex_decode_prefix (trim_prefix "0x" contract))
      /\ ts_Data v = transferCall ("0x" +:+ hex_encode (str_drop 1 (tronAddress (str auth "toAddress"))))
                       (str auth "amountAtomic")
      /\ ts_CallValue v = 0%Z /\ ts_CallTokenValue v = 0%Z
      /\ (0 < tx_FeeLimit tx <= num (str auth "maxNetworkFeeAtomic"))%Z).

Lemma canonicalUint_num s : canonicalUint s = true -> (0 <= num s)%Z.
Proof.
  unfold canonicalUint, num, number. intros Hc. step_if Hc; [by split_bools; subst|].
  destruct s as [|c r]; [done|]. step_if Hc. split_bools_N.
  rewrite parse_big_digits; [|cbn; rewrite Hc; unfold is_digit, in_range; apply andb_true_iff; split; [apply andb_true_iff; rewrite !N.leb_le; lia|done]|done].
  cbn. etrans; [|apply digits_value_mono]; lia.
Qed.

Lemma varintSize_pos n : (1 <= varintSize n)%Z.
Proof.
  unfold varintSize. assert (Hg : forall k s n, (1 <= s)%Z -> (1 <= varint_rounds k s n)%Z).
  { clear. induction k as [|k IH]; intros s n Hs; cbn; [lia|]. destruct (_ <=? _)%Z; [apply IH; lia|lia]. }
  by apply Hg.
Qed.

Lemma tronBudget_limit raw p q limit :
  tronBudget raw p q <> "" -> FeeLimitSun p = Some limit -> (num limit <= num (tronBudget raw p q))%Z.
Proof.
  unfold tronBudget. cbv zeta. intros Hne Hl. rewrite Hl in *. cbn [is_some negb andb] in *.
  destruct (negb (q_Version q =? 1)%Z); [done|]. destruct (negb (forallb _ _)) eqn:Ef; [done|].
  destruct (_ || _) in *; [done|]. destruct (negb (canonicalUint limit)) eqn:Ec; [done|].
  destruct (_ <>s _) in *; [done|]. split_bools. cbn in Ef. split_bools.
  match goal with Hc : canonicalUint (TransactionFeeSunPerBandwidth _) = true |- _ =>
    apply canonicalUint_num in Hc end.
  apply canonicalUint_num in Ec. pose proof (varintSize_pos (zlen raw)). unfold zlen in *.
  match goal with |- (_ <= num (format_int (?b * ?f + _)))%Z =>
    assert (0 <= b * f)%Z by (apply Z.mul_nonneg_nonneg; lia) end.
  rewrite num_format; lia.
Qed.

Lemma verifyTronBytes_Ok raw p now u :
  (0 <= unix_milli now < 2 ^ 62)%Z -> verifyTronBytes raw p now = Ok u ->
  exists tx c any, marshal tx_codec tx = Some raw /\ unknown tx_codec tx = ""
  /\ tron_window tx (unix_milli now) /\ tx_Contract tx = [c] /\ tc_Parameter c = Some any
  /\ tc_PermissionId c = 0%Z /\ tx_Data tx = ""
  /\ match TokenStandard p with
     | None => native_bad p tx c any = false
     | Some standard => token_bad standard p tx c any = false
     end.
Proof.
  unfold verifyTronBytes. intros Hn Hv. inv_ok.
  match goal with Hs : strictProto _ _ = Ok ?t |- _ => rename t into tx;
    apply strictProto_Ok in Hs as (Hu & Hm & Hk) end.
  step_if Hv. destruct (tx_int64 _ _ Hu) as [He Ht].
  destruct (transaction_bad_false _ _ He Ht Hn E) as (Hw & Hl & Hd & _ & _).
  destruct (tx_Contract tx) as [|c [|]] eqn:Ec; [done| |done].
  destruct (tc_Parameter c) as [any|] eqn:Ep; [|done]. step_if Hv. step_if Hv. split_bools.
  exists tx, c, any. split_and!; try done. by destruct (TokenStandard p).
Qed.

(** (C8) If a TRON transfer passes [VerifyPrepared], the digest to be signed is the
    SHA-256 of the exact raw transaction, which is the deterministic encoding, without
    unknown fields, of a single-contract transaction that moves the approved amount
    from the approved sender to the approved recipient (natively, or by a TRC-20 call
    whose fee limit is within the approved fee cap); it is still valid for more than
    60 s, was not made more than 1 s in the future and lives at most 23 h 59 min, and
    no [int64] wrap-around can defeat these bounds. *)
Theorem VerifyPrepared_tron a prepared policy digest algorithm now auth :
  (0 <= unix_milli now < 2 ^ 62)%Z ->
  VerifyPrepared (Some a) (Some prepared) (Some policy) digest tronPayloadType algorithm now
    = Ok auth ->
  approved a auth /\ exists raw tx c any,
  hex_encode raw = pt_UnsignedTransaction prepared /\ digest = sha256 raw
  /\ marshal tx_codec tx = Some raw /\ unknown tx_codec tx = ""
  /\ tron_window tx (unix_milli now) /\ tx_Contract tx = [c] /\ tc_Parameter c = Some any
  /\ tron_effect auth tx c any.
Proof.
  intros Hn Hv.
  apply VerifyPrepared_Ok in Hv as (Ha & Ht & raw & p & v & Hraw & Hp & _ & Hch & Hpv & Hb & Hbn & Hd & _).
  split; [done|]. injection Hp as <-. cbn [verifyPrepared supportsChain] in Hpv, Hch.
  destruct Ht as (Hc & _ & Hfrom & Hto & Ham & Htok & Hfee).
  pose proof (authorization_amount _ _ Ha) as Hu.
  unfold verifyTronPrepared in Hpv. step_if Hpv. do 2 step_if Hpv. step_if Hpv. inv_ok.
  cbv zeta in Hpv. step_if Hpv. inv_ok. cbn [pv_budget pv_digest] in *.
  match goal with Hv : verifyTronBytes _ _ _ = _ |- _ =>
    apply (verifyTronBytes_Ok _ _ _ _ Hn) in Hv as (tx & c & any & Hm & Hk & Hw & Hcs & Hpar & _ & _ & Heff) end.
  exists raw, tx, c, any. split_and!; try done. unfold nullEqual, canonicalTronPolicyToken in *. rewrite Hch in *.
  split_bools. unfold tron_effect. rewrite Hto, Hfrom, Ham.
  destruct (TokenStandard policy) as [standard|] eqn:Es; [right|left].
  - unfold token_bad in Heff. cbv zeta in Heff. split_bools.
    destruct (strictProto trigger_codec _) as [call|] eqn:Et; [|done]. split_bools.
    apply strictProto_Ok in Et as (_ & Hmt & _).
    destruct (FeeLimitSun policy) as [limit|] eqn:El; [|done].
    unfold token_contract_bytes in *.
    destruct (TokenContractCanonical policy) as [contract|] eqn:Ect.
    + split; [|split; [done|exists call, contract]].
      { match goal with E : (_ <>s "trc20") && _ = false |- _ => apply andb_false_iff in E as [E|E] end;
          split_bools; subst; done. }
      split_and!; try done. split_bools. subst limit.
      pose proof (tronBudget_limit _ _ _ _ Hbn El) as Hlim. rewrite Hb in Hlim.
      rewrite num_format in Hlim by lia. lia.
    + destruct (authorization_contract _ _ Ha); [|done]. unfold isNull. apply String.eqb_neq.
      destruct (standard =s "TRC20"); intros Hnull; rewrite Hnull in *; done.
  - unfold native_bad in Heff. split_bools.
    destruct (strictProto transfer_codec _) as [pay|] eqn:Et; [|done]. split_bools.
    apply strictProto_Ok in Et as (_ & Hmt & _).
    split; [|split; [done|exists pay]].
    { unfold isNull. by apply String.eqb_eq. }
    split_and!; try done. rewrite <- Ham in *.
    match goal with E : format_int _ = str _ _ |- _ => rewrite <- E in * end.
    rewrite num_format; lia.
Qed.
End TronTheorems.

(** * Concrete instances *)

(** Codecs that write a message as a JSON array; a toy for evaluating the theorems. *)
Definition jnum (z : Z) : json := JNum (format_int z).
Definition jhex (b : bytes) : json := JStr (hex_encode b).
Definition get_num (v : json) : option Z := match v with JNum l => parse_int64 l | _ => None end.
Definition get_hex (v : json) : option bytes := match v with JStr s => hex_decode s | _ => None end.

Definition toy_rlp_encode (t : unsignedType2) : option bytes :=
  Some (json_print (JArr [jnum (t2_ChainID t); jnum (t2_Nonce t); jnum (t2_Priority t);
    jnum (t2_MaxFee t); jnum (t2_Gas t); jhex (t2_To t); jnum (t2_Value t); jhex (t2_Data t)])).
Definition toy_rlp_decode (raw : bytes) : option unsignedType2 :=
  match json_parse raw with
  | Some (JArr [a; b; c; d; e; f; g; h]) =>
      a ← get_num a; b ← get_num b; c ← get_num c; d ← get_num d; e ← get_num e;
      f ← get_hex f; g ← get_num g; h ← get_hex h;
      Some (Build_unsignedType2 a b c d e f g h [])
  | _ => None
  end.

Definition toy_tx_marshal (t : TransactionRaw) : option bytes :=
  match tx_Contract t with
  | [c] =>
      any ← tc_Parameter c;
      Some (json_print (JArr [jhex (tx_RefBlockBytes t); jhex (tx_RefBlockHash t);
        jnum (tx_Expiration t); jnum (tx_Timestamp t); jnum (tx_FeeLimit t); jnum (tc_Type c);
        JStr (any_TypeUrl any); jhex (any_Value any)]))
  | _ => None
  end.
Definition toy_tx_unmarshal (raw : bytes) : option TransactionRaw :=
  match json_parse raw with
  | Some (JArr [a; b; c; d; e; f; JStr g; h]) =>
      a ← get_hex a; b ← get_hex b; c ← get_num c; d ← get_num d; e ← get_num e; f ← get_num f;
      h ← get_hex h;
      Some (Build_TransactionRaw a 0 b c [] "" [Build_TronContract f (Some (Build_TronAny g h "")) "" "" 0 ""]
              "" d e "")
  | _ => None
  end.
Definition toy_transfer_codec : Codec TransferContract := {|
  unmarshal raw := match json_parse raw with
                   | Some (JArr [a; b; c]) =>
                       a ← get_hex a; b ← get_hex b; c ← get_num c; Some (Build_TransferContract a b c "")
                   | _ => None
                   end;
  unknown := tf_unknown;
  marshal t := Some (json_print (JArr [jhex (tf_OwnerAddress t); jhex (tf_ToAddress t); jnum (tf_Amount t)])) |}.
Definition toy_trigger_codec : Codec TriggerSmartContract := {|
  unmarshal raw := match json_parse raw with
                   | Some (JArr [a; b; c]) =>
                       a ← get_hex a; b ← get_hex b; c ← get_hex c;
                       Some (Build_TriggerSmartContract a b 0 c 0 0 "")
                   | _ => None
                   end;
  unknown := ts_unknown;
  marshal t := Some (json_print (JArr [jhex (ts_OwnerAddress t); jhex (ts_ContractAddress t); jhex (ts_Data t)])) |}.

#[export] Instance toy_codecs : TxCodecs := {|
  rlp_decode := toy_rlp_decode; rlp_encode := toy_rlp_encode;
  tx_codec := {| unmarshal := toy_tx_unmarshal; unknown := tx_unknown; marshal := toy_tx_marshal |};
  transfer_codec := toy_transfer_codec; trigger_codec := toy_trigger_codec;
  empty_signed_size := 69 |}.

(** The approval, prepared transfer and policy of the Ethereum authorization fixture. *)
Definition fixture_approval : ApprovedExecution := {|
  ae_Version := 1; ae_RequestID := "req-1"; ae_OutgoingID := "outgoing-1";
  ae_Authorization := fixture_authorization; ae_AuthorizationHash := fixture_hash;
  ae_DecisionReceipt := fixture_receipt |}.
Definition fixture_to : string := "0x1111111111111111111111111111111111111111".
Definition fixture_tx : bytes := Eval vm_compute in
  String "002" (default "" (toy_rlp_encode
    (Build_unsignedType2 11155111 5 100 1000 21000 (default "" (hex_decode (str_drop 2 fixture_to))) 1000 "" []))).
Definition fixture_prepared : PreparedTransfer := {|
  pt_Version := 1; pt_Encoding := "hex"; pt_UnsignedTransaction := hex_encode fixture_tx;
  pt_NetworkFeeAsset := "ETH"; pt_NetworkFeeBudgetAtomic := "21000000"; pt_FeeEvidence := "null" |}.
Definition fixture_policy : PolicyContext := {|
  AmountAtomic := "1000"; Asset := "ETH"; Chain := "ethereum:sepolia"; ChainID := "11155111";
  FeeLimitSun := None; FromAddress := "0xc9a29e8f9c757fcf9811603a8c447cd1d9151108";
  GasLimit := "21000"; MaxFeePerGas := "1000"; MaxPriorityFeePerGas := "100"; Nonce := "5";
  ToAddress := fixture_to; TokenContractCanonical := None; TokenDecimals := None;
  TokenStandard := None; TransactionType := 2; ctx_Version := 1 |}.

Lemma VerifyPrepared_ethereum_witness : exists auth body,
  VerifyPrepared (Some fixture_approval) (Some fixture_prepared) (Some fixture_policy)
    (keccak256 fixture_tx) ethereumPayloadType "keccak256" 0 = Ok auth
  /\ keccak256 fixture_tx = keccak256 (String "002" body).
Proof.
  destruct (is_ok_ex (VerifyPrepared (Some fixture_approval) (Some fixture_prepared) (Some fixture_policy)
    (keccak256 fixture_tx) ethereumPayloadType "keccak256" 0)) as [auth E]; [vm_compute; reflexivity|].
  destruct (VerifyPrepared_ethereum _ _ _ _ _ _ _ E) as (_ & body & tx & _ & Hd & _).
  exists auth, body. split; [exact E|exact Hd].
Defined.

(** A TRC-20 transfer. *)
Definition fixture_tron_authorization : bytes := jtext (
  "{'accountId':'acc-1','amountAtomic':'1000','asset':'USDT','chain':'tron:nile','clientRefer"
  ++ "ence':null,'derivationContext':{'accountPath':'m/44/195/0','addressEncoding':'tron_base58'"
  ++ ",'algorithm':'ECDSA','chain':'tron:nile','childPath':'0/7','curve':'secp256k1','descriptor"
  ++ "Version':1,'expectedAddress':'41c9a29e8f9c757fcf9811603a8c447cd1d9151108','expectedPublicK"
  ++ "ey':'04000102030405060708090a0b0c0d0e0f101112131415161718191a1b1c1d1e1f2021222324252627282"
  ++ "92a2b2c2d2e2f303132333435363738393a3b3c3d3e3f','fullPath':'m/44/195/0/0/7','keyVersion':1,"
  ++ "'profileId':'p','profileTemplateId':'t','profileVersion':1,'publicKeyFormat':'uncompressed"
  ++ "_hex','scheme':'bip32_secp256k1'},'derivationContextHash':'42486e1af25439d51383d5307213ad7"
  ++ "031fe209fcf288ab67925b48e007de1ff','descriptorFingerprint':'AAAAAAAAAAAAAAAAAAAAAAAAAAAAAA"
  ++ "AAAAAAAAAAAAA','fromAddress':'41c9a29e8f9c757fcf9811603a8c447cd1d9151108','internalRecipie"
  ++ "nt':null,'keyId':'key-1','ledgerTransactionId':'ltx-1','maxNetworkFeeAtomic':'21000000','n"
  ++ "etworkFeeAsset':'TRX','orgId':'org-1','requestId':'req-2','requestedChainParams':null,'toA"
  ++ "ddress':'412222222222222222222222222222222222222222','tokenContractCanonical':'0x333333333"
  ++ "3333333333333333333333333333333','tokenDecimals':6,'tokenStandard':'trc20','transferKind':"
  ++ "'EXTERNAL_WITHDRAWAL','version':1,'walletId':'wal-1'}").
Definition fixture_tron_approval : ApprovedExecution := {|
  ae_Version := 1; ae_RequestID := "req-2"; ae_OutgoingID := "outgoing-2";
  ae_Authorization := fixture_tron_authorization;
  ae_AuthorizationHash := sha256_hex fixture_tron_authorization; ae_DecisionReceipt := "" |}.
Definition fixture_tron_policy : PolicyContext := {|
  AmountAtomic := "1000"; Asset := "USDT"; Chain := "tron:nile"; ChainID := "";
  FeeLimitSun := Some "15000000"; FromAddress := "41c9a29e8f9c757fcf9811603a8c447cd1d9151108";
  GasLimit := ""; MaxFeePerGas := ""; MaxPriorityFeePerGas := ""; Nonce := "";
  ToAddress := "412222222222222222222222222222222222222222";
  TokenContractCanonical := Some "0x3333333333333333333333333333333333333333";
  TokenDecimals := Some 6%Z; TokenStandard := Some "TRC20"; TransactionType := 0; ctx_Version := 0 |}.
Definition fixture_tron_tx : bytes := Eval vm_compute in
  default "" (toy_tx_marshal (Build_TransactionRaw "ab" 0 "abcdefgh" 1800000100000 [] ""
    [Build_TronContract 31 (Some (Build_TronAny "type.googleapis.com/protocol.TriggerSmartContract"
       (default "" (marshal toy_trigger_codec (Build_TriggerSmartContract
          (tronAddress (FromAddress fixture_tron_policy)) (token_contract_bytes fixture_tron_policy) 0
          (transferCall "0x2222222222222222222222222222222222222222" "1000") 0 0 ""))) "")) "" "" 0 ""]
    "" 1800000000000 15000000 "")).
Definition fixture_bandwidth : Z := Eval vm_compute in
  (69 + zlen fixture_tron_tx + varintSize (zlen fixture_tron_tx) - 1 + 64)%Z.
Definition fixture_tron_budget : string := Eval vm_compute in
  format_int (fixture_bandwidth * 1000 + 15000000).
Definition fixture_tron_prepared : PreparedTransfer := {|
  pt_Version := 1; pt_Encoding := "hex"; pt_UnsignedTransaction := hex_encode fixture_tron_tx;
  pt_NetworkFeeAsset := "TRX"; pt_NetworkFeeBudgetAtomic := fixture_tron_budget;
  pt_FeeEvidence := jtext (
    "{'version':1,'destinationAccountExists':true,'chainParameters':{'transactionFeeSunPerBandwidth':'1000',"
    ++ "'createAccountFeeSun':'0','createNewAccountFeeInSystemContractSun':'0',"
    ++ "'createNewAccountBandwidthRate':'1'},'amountAtomic':'" ++ fixture_tron_budget
    ++ "','signedTransactionBytes':" ++ format_int (fixture_bandwidth - 64)
    ++ ",'bandwidthBytes':" ++ format_int fixture_bandwidth ++ "}") |}.
Definition fixture_tron_now : time := (1800000010000 * millisecond)%Z.

Lemma toy_tx_int64 raw tx : toy_tx_unmarshal raw = Some tx ->
  int64 (tx_Expiration tx) /\ int64 (tx_Timestamp tx).
Proof.
  assert (Hn : forall v z, get_num v = Some z -> int64 z).
  { intros [] z; cbn; try done. unfold parse_int64. destruct (parse_big _) as [y|]; [|done]. cbn.
    destruct (_ && _) eqn:E; [|done]. intros [= <-]. split_bools. unfold int64, min_int64, max_int64 in *. lia. }
  unfold toy_tx_unmarshal. intros Hu. repeat (case_match; try discriminate Hu).
  repeat match type of Hu with (?m ≫= _) = Some _ => destruct m eqn:?; cbn in Hu; [|discriminate Hu] end.
  injection Hu as <-. cbn. eauto.
Qed.

Lemma VerifyPrepared_tron_witness : exists auth raw,
  VerifyPrepared (Some fixture_tron_approval) (Some fixture_tron_prepared) (Some fixture_tron_policy)
    (sha256 fixture_tron_tx) tronPayloadType "sha256" fixture_tron_now = Ok auth
  /\ sha256 fixture_tron_tx = sha256 raw.
Proof.
  destruct (is_ok_ex (VerifyPrepared (Some fixture_tron_approval) (Some fixture_tron_prepared)
    (Some fixture_tron_policy) (sha256 fixture_tron_tx) tronPayloadType "sha256" fixture_tron_now))
    as [auth E]; [vm_compute; reflexivity|].
  assert (Hn : (0 <= unix_milli fixture_tron_now < 2 ^ 62)%Z) by (vm_compute; split; [discriminate|reflexivity]).
  assert (Hs : (0 <= empty_signed_size)%Z) by (vm_compute; discriminate).
  destruct (@VerifyPrepared_tron _ toy_codecs toy_tx_int64 Hs _ _ _ _ _ _ _ Hn E) as (_ & raw & tx & c & any & _ & Hd & _).
  exists auth, raw. split; [exact E|exact Hd].
Defined.
