(* ===== verification/FileSystem.v ===== *)
(** The file system the durable components use: visible directory entries, the
    entries that survive a crash, file contents not yet flushed, and a schedule of
    injected faults that makes any system call fail before or after its effect.
    Operations run in a state-and-error monad over this world. *)
From stdpp Require Import base tactics option list strings numbers gmap relations.
From Stdlib Require Import ZArith Lia Ascii String.
From S2P Require Import Prelude GoText Paths.

#[local] Open Scope string_scope.

(** A path is its directory and its base name. *)
Abbreviation path := (string * string)%type.

Inductive fkind := Regular | Symlink | Special.
Record file := { f_kind : fkind; f_uid : Z; f_perm : Z; f_data : bytes }.

(** What [os.Stat] says of a directory. *)
Record FileInfo := { fi_isdir : bool; fi_uid : Z; fi_perm : Z; fi_dev : Z; fi_ino : Z }.

#[global] Instance fkind_eq_dec : EqDecision fkind.
Proof. solve_decision. Defined.

(** The outcome of one system call: it works, fails without effect, fails after its
    effect, or (for a write) transfers fewer bytes than asked and reports no error.  An
    injected fault is an I/O error, never one of the errors that state a fact about the
    directory ([ErrExist], [ErrNotExist]). *)
Inductive outcome := Good | Bad (msg : string) | Late (msg : string) | Short (n : nat).

Record world := {
  vis : gmap path file;           (* what reads see *)
  dur : gmap path file;           (* the directory entries that survive a crash *)
  dirty : gset path;              (* files whose contents are not flushed *)
  dirs : gmap string FileInfo;
  links : gmap string string;     (* symbolic links to directories *)
  euid : Z;
  sched : list outcome;
}.

Definition with_vis (w : world) v := Build_world v (dur w) (dirty w) (dirs w) (links w) (euid w) (sched w).
Definition with_dur (w : world) d := Build_world (vis w) d (dirty w) (dirs w) (links w) (euid w) (sched w).
Definition with_dirty (w : world) d := Build_world (vis w) (dur w) d (dirs w) (links w) (euid w) (sched w).
Definition with_dirs (w : world) d := Build_world (vis w) (dur w) (dirty w) d (links w) (euid w) (sched w).
Definition with_sched (w : world) s := Build_world (vis w) (dur w) (dirty w) (dirs w) (links w) (euid w) s.

(** Reduces the record updates of a world, and nothing of the finite maps. *)
Ltac wsimpl :=
  cbn [fst snd vis dur dirty dirs links euid sched with_vis with_dur with_dirty with_dirs with_sched].

(** * The monad *)

Definition M (A : Type) : Type := world -> res A * world.
#[global] Instance M_ret : MRet M := fun A a w => (Ok a, w).
#[global] Instance M_bind : MBind M := fun A B f m w =>
  match m w with
  | (Ok a, w) => f a w
  | (Fail e, w) => (Fail e, w)
  end.
Definition throw {A} (e : error) : M A := fun w => (Fail e, w).
Definition lift {A} (r : res A) : M A := fun w => (r, w).
(** The result of an operation as a value, for code that inspects the error. *)
Definition attempt {A} (m : M A) : M (res A) := fun w => let '(r, w) := m w in (Ok r, w).
(** [defer cleanup]: it runs whatever happened, and its own error is dropped. *)
Definition defer {A} (cleanup : M unit) (m : M A) : M A := fun w =>
  let '(r, w) := m w in let '(_, w) := cleanup w in (r, w).

(** A system call consumes one outcome of the schedule. *)
Definition sys {A} (act : M A) : M A := fun w =>
  match sched w with
  | [] => act w
  | Bad msg :: s => (Fail (ENew msg), with_sched w s)
  | Late msg :: s => let '(_, w) := act (with_sched w s) in (Fail (ENew msg), w)
  | _ :: s => act (with_sched w s)
  end.

(** * System calls *)

Definition perm_0600 : Z := 384.

(** [os.Stat] of a directory. *)
Definition stat_dir (d : string) : M FileInfo := sys (fun w =>
  match dirs w !! d with Some i => (Ok i, w) | None => (Fail (ESent ErrNotExist), w) end).

(** [os.Geteuid()]. *)
Definition get_euid : M Z := fun w => (Ok (euid w), w).

(** [filepath.EvalSymlinks] of an absolute directory path. *)
Definition eval_symlinks (d : string) : M string := sys (fun w =>
  let d := default d (links w !! d) in
  match dirs w !! d with Some _ => (Ok d, w) | None => (Fail (ESent ErrNotExist), w) end).

(** [os.CreateTemp] with a pattern that ends in a star: mode 0600 and a name
    with the prefix that no entry has (the standard library draws it at random). *)
Fixpoint digits_of (n : nat) : string :=
  match n with O => "0" | S n => String "0" (digits_of n) end.
Definition longest (w : world) : nat :=
  map_fold (fun p _ n => Nat.max n (String.length p.2)) 0%nat (vis w).
Definition fresh_name (prefix : string) (w : world) : string := prefix +:+ digits_of (longest w).
Definition create_temp (d prefix : string) : M path := sys (fun w =>
  let p := (d, fresh_name prefix w) in
  (Ok p, with_vis w (<[p := {| f_kind := Regular; f_uid := euid w; f_perm := perm_0600; f_data := "" |}]> (vis w)))).

Definition chmod (p : path) (perm : Z) : M unit := sys (fun w =>
  (Ok (), with_vis w (alter (fun f => {| f_kind := f_kind f; f_uid := f_uid f; f_perm := perm;
                                         f_data := f_data f |}) p (vis w)))).

(** [f.Write(raw)]: the number of bytes written. *)
Definition append_to (p : path) (raw : bytes) (w : world) : world :=
  with_dirty (with_vis w (alter (fun f => {| f_kind := f_kind f; f_uid := f_uid f; f_perm := f_perm f;
                                             f_data := f_data f +:+ raw |}) p (vis w)))
    ({[p]} ∪ dirty w).
Definition write (p : path) (raw : bytes) : M Z := fun w =>
  match sched w with
  | Short n :: s => let raw := str_take n raw in (Ok (zlen raw), append_to p raw (with_sched w s))
  | _ => sys (fun w => (Ok (zlen raw), append_to p raw w)) w
  end.

(** [f.Sync()]. *)
Definition fsync (p : path) : M unit := sys (fun w => (Ok (), with_dirty w (dirty w ∖ {[p]}))).
Definition close : M unit := sys (fun w => (Ok (), w)).

(** [renameat2(src, dst, RENAME_NOREPLACE)]. *)
Definition rename_noreplace (src dst : path) : M unit := sys (fun w =>
  match vis w !! dst, vis w !! src with
  | Some _, _ => (Fail (ESent ErrExist), w)
  | None, None => (Fail (ESent ErrNotExist), w)
  | None, Some f =>
      (Ok (), with_dirty (with_vis w (<[dst := f]> (delete src (vis w))))
                (if decide (src ∈ dirty w) then {[dst]} ∪ dirty w ∖ {[src]} else dirty w))
  end).

(** [os.Remove]. *)
Definition remove (p : path) : M unit := sys (fun w =>
  match vis w !! p with
  | Some _ => (Ok (), with_vis w (delete p (vis w)))
  | None => (Fail (ESent ErrNotExist), w)
  end).

(** Opening a directory and flushing it: its entries become durable as they are. *)
Definition sync_entries (d : string) (w : world) : gmap path file :=
  filter (fun kv => kv.1.1 = d) (vis w) ∪ filter (fun kv => kv.1.1 <> d) (dur w).
Definition sync_dir (d : string) : M unit :=
  _ ← sys (fun w => (Ok (), w));
  sys (fun w => (Ok (), with_dur w (sync_entries d w))).

(** [os.Lstat] of an entry. *)
Definition lstat (p : path) : M file := sys (fun w =>
  match vis w !! p with Some f => (Ok f, w) | None => (Fail (ESent ErrNotExist), w) end).

(** [os.Lstat] of a directory path: whether it is a symbolic link, and what it says. *)
Definition lstat_dir (d : string) : M (bool * FileInfo) := sys (fun w =>
  match links w !! d, dirs w !! d with
  | Some _, _ => (Ok (true, {| fi_isdir := false; fi_uid := euid w; fi_perm := 511; fi_dev := 0; fi_ino := 0 |}), w)
  | None, Some i => (Ok (false, i), w)
  | None, None =>
      match vis w !! (Dir d, Base d) with
      | Some f => (Ok (bool_decide (f_kind f = Symlink),
                       {| fi_isdir := false; fi_uid := f_uid f; fi_perm := f_perm f; fi_dev := 0; fi_ino := 0 |}), w)
      | None => (Fail (ESent ErrNotExist), w)
      end
  end).

(** Opening without following symbolic links. *)
Definition open_nofollow (p : path) : M file := sys (fun w =>
  match vis w !! p with
  | Some f => match f_kind f with Symlink => (Fail (ENew "ELOOP"), w) | _ => (Ok f, w) end
  | None => (Fail (ESent ErrNotExist), w)
  end).

(** [os.Mkdir] of a clean rooted path, mode 0700: a directory of the parent's file system
    with an inode number that no directory has. *)
Definition fresh_ino (w : world) : Z := (1 + map_fold (fun _ i n => Z.max n (fi_ino i)) 0 (dirs w))%Z.
Definition mkdir (d : string) : M unit := sys (fun w =>
  match dirs w !! d, links w !! d, vis w !! (Dir d, Base d) with
  | None, None, None =>
      match dirs w !! Dir d with
      | Some parent =>
          (Ok (), with_dirs w (<[d := {| fi_isdir := true; fi_uid := euid w; fi_perm := 448;
                                         fi_dev := fi_dev parent; fi_ino := fresh_ino w |}]> (dirs w)))
      | None => (Fail (ESent ErrNotExist), w)
      end
  | _, _, _ => (Fail (ESent ErrExist), w)
  end).

(** [open(p, O_RDWR|O_CREAT, 0600)] of an entry that is absent or a regular file. *)
Definition open_create (p : path) : M unit := sys (fun w =>
  match vis w !! p with
  | Some _ => (Ok (), w)
  | None => (Ok (), with_vis w (<[p := {| f_kind := Regular; f_uid := euid w; f_perm := perm_0600; f_data := "" |}]> (vis w)))
  end).

(** * Crashes *)

(** After a crash an entry is as it was last made durable or as it was last visible;
    the contents of an unflushed file are arbitrary.  What is found is on disk. *)
Definition crash (w w' : world) : Prop :=
  (forall p, p ∉ dirty w -> vis w' !! p = dur w !! p \/ vis w' !! p = vis w !! p)
  /\ dur w' = vis w' /\ dirty w' = ∅ /\ euid w' = euid w.

(** * Stability of published files *)

(** Names of files that may be rewritten or removed: the journal and the artifact stores
    give hidden names to the files they prepare or probe with, and only to those, except
    for the identity of the journal, which is published under a hidden name. *)
Definition hidden (b : string) : bool := has_prefix "." b.
Definition journalIdentityName : string := ".approval-journal.json".
Definition temp_name (b : string) : bool := hidden b && (b <>s journalIdentityName).
Definition temporary (p : path) : bool := temp_name p.2.

(** Durable entries are visible, and only temporary files are unflushed. *)
Definition inv (w : world) : Prop :=
  (forall p f, temporary p = false -> dur w !! p = Some f -> vis w !! p = Some f)
  /\ (forall p, p ∈ dirty w -> temporary p = true).

(** No published file is changed or removed, in what is visible and what is durable. *)
Definition evolves (w w' : world) : Prop :=
  (forall p f, temporary p = false -> vis w !! p = Some f -> vis w' !! p = Some f)
  /\ (forall p f, temporary p = false -> dur w !! p = Some f -> dur w' !! p = Some f)
  /\ euid w' = euid w.

#[export] Instance evolves_preorder : PreOrder evolves.
Proof. split; [done|]. intros ??? (?&?&E1) (?&?&E2). split_and!; eauto. congruence. Qed.

(** An operation that keeps the invariant and leaves published files alone. *)
Definition safe {A} (m : M A) : Prop :=
  forall w, inv w -> inv (m w).2 /\ evolves w (m w).2.

Lemma longest_ge w p f : vis w !! p = Some f -> (String.length p.2 <= longest w)%nat.
Proof.
  unfold longest. generalize (vis w). intros m. revert p f.
  induction m as [|q g m Hq IH] using map_ind; intros p f; [by rewrite lookup_empty|].
  rewrite map_fold_insert_L by (done || intros; lia).
  rewrite lookup_insert_Some. intros [[<- _]|[_ Hp]]; [lia|]. apply IH in Hp. lia.
Qed.

Lemma digits_of_length n : String.length (digits_of n) = S n.
Proof. induction n as [|n IH]; cbn; [done|]. by rewrite IH. Qed.

Lemma fresh_name_fresh d prefix w : vis w !! (d, fresh_name prefix w) = None.
Proof.
  destruct (vis w !! _) as [f|] eqn:E; [|done]. apply longest_ge in E. cbn in E.
  unfold fresh_name in E. rewrite sapp_length, digits_of_length in E. lia.
Qed.

(** * Composing safe operations *)

Lemma safe_ret {A} (a : A) : safe (mret a).
Proof. by intros w Hw. Qed.
Lemma safe_throw {A} e : safe (throw e : M A).
Proof. by intros w Hw. Qed.
Lemma safe_lift {A} (r : res A) : safe (lift r).
Proof. by intros w Hw. Qed.

Lemma safe_bind {A B} (m : M A) (k : A -> M B) :
  safe m -> (forall a, safe (k a)) -> safe (m ≫= k).
Proof.
  intros Hm Hk w Hw. unfold mbind, M_bind. specialize (Hm w Hw).
  destruct (m w) as [[a|e] w1]; [|done]. destruct Hm as [Hi He].
  destruct (Hk a w1 Hi) as [Hi' He']. split; [done|]. by etrans.
Qed.

Lemma safe_attempt {A} (m : M A) : safe m -> safe (attempt m).
Proof. intros Hm w Hw. unfold attempt. specialize (Hm w Hw). by destruct (m w). Qed.

Lemma safe_defer {A} c (m : M A) : safe c -> safe m -> safe (defer c m).
Proof.
  intros Hc Hm w Hw. unfold defer. specialize (Hm w Hw). destruct (m w) as [r w1]. destruct Hm as [Hi He].
  specialize (Hc w1 Hi). destruct (c w1) as [r' w2]. cbn in *. split; [tauto|]. etrans; [done|tauto].
Qed.

Lemma inv_sched w s : inv (with_sched w s) <-> inv w.
Proof. done. Qed.
Lemma evolves_sched w s w' : evolves (with_sched w s) w' <-> evolves w w'.
Proof. done. Qed.

Lemma safe_sys {A} (act : M A) : safe act -> safe (sys act).
Proof.
  intros Ha w Hw. unfold sys. destruct (sched w) as [|[] s]; cbn; [by apply Ha|exact (Ha (with_sched w s) Hw)|done| |exact (Ha (with_sched w s) Hw)].
  specialize (Ha (with_sched w s) Hw). by destruct (act (with_sched w s)).
Qed.

(** A successful system call is its action. *)
Lemma sys_Ok {A} (act : M A) w a w' :
  sys act w = (Ok a, w') -> exists s, act (with_sched w s) = (Ok a, w').
Proof.
  unfold sys. intros Hs. destruct w as [v d dt di li eu sc]. cbn [sched] in Hs.
  destruct sc as [|[] s]; try done; eauto.
  destruct (act _) as [r w1]; discriminate Hs.
Qed.

(** A failed one failed by itself, or by an injected I/O error. *)
Lemma sys_Fail {A} (act : M A) w e w' :
  sys act w = (Fail e, w') -> (exists msg, e = ENew msg) \/ exists s, act (with_sched w s) = (Fail e, w').
Proof.
  unfold sys. intros Hs. destruct w as [v d dt di li eu sc]. cbn [sched] in Hs.
  destruct sc as [|[] s]; try (injection Hs as <- <-); eauto.
  destruct (act _) as [r w1]. injection Hs as <- <-. eauto.
Qed.

(** A view of the world that an action keeps is kept by the call. *)
Lemma sys_keep {A B} (view : world -> B) (act : M A) w :
  (forall w s, view (with_sched w s) = view w) -> (forall w, view (act w).2 = view w) ->
  view (sys act w).2 = view w.
Proof.
  intros Hs Ha. unfold sys. destruct (sched w) as [|[] s]; cbn; rewrite ?Ha, ?Hs; try done.
  specialize (Ha (with_sched w s)). destruct (act _). cbn in *. by rewrite Ha, Hs.
Qed.

Lemma bind_Ok_inv {A B} (m : M A) (k : A -> M B) w b w' :
  (m ≫= k) w = (Ok b, w') -> exists a w1, m w = (Ok a, w1) /\ k a w1 = (Ok b, w').
Proof. unfold mbind, M_bind. destruct (m w) as [[a|e] w1]; [eauto|done]. Qed.

Lemma bind_keep {A B C} (view : world -> C) (m : M A) (k : A -> M B) w :
  (forall w, view (m w).2 = view w) -> (forall a w, view (k a w).2 = view w) ->
  view ((m ≫= k) w).2 = view w.
Proof.
  intros Hm Hk. unfold mbind, M_bind. specialize (Hm w). destruct (m w) as [[a|e] w1]; cbn in *; [|done].
  by rewrite Hk.
Qed.

(** Operations that only look. *)
Definition pure_read {A} (act : M A) : Prop := forall w, (act w).2 = w.
Lemma safe_read {A} (act : M A) : pure_read act -> safe (sys act).
Proof. intros Hp. apply safe_sys. intros w Hw. by rewrite Hp. Qed.

Lemma safe_stat_dir d : safe (stat_dir d).
Proof. apply safe_read. intros w. by case_match. Qed.
Lemma safe_get_euid : safe get_euid.
Proof. by intros w Hw. Qed.
Lemma safe_eval_symlinks d : safe (eval_symlinks d).
Proof. apply safe_read. intros w. cbv zeta. by case_match. Qed.
Lemma safe_lstat p : safe (lstat p).
Proof. apply safe_read. intros w. by case_match. Qed.
Lemma safe_lstat_dir d : safe (lstat_dir d).
Proof. apply safe_read. intros w. by repeat case_match. Qed.
Lemma safe_open_nofollow p : safe (open_nofollow p).
Proof. apply safe_read. intros w. by repeat case_match. Qed.
Lemma safe_close : safe close.
Proof. by apply safe_read. Qed.

Lemma hidden_app prefix s : hidden prefix = true -> hidden (prefix +:+ s) = true.
Proof.
  unfold hidden, has_prefix. rewrite !bool_decide_eq_true. destruct prefix as [|c prefix]; [by intros []|].
  rewrite sapp_cons. cbn [strip_prefix]. destruct (Ascii.eqb "." c); [|by intros []]. eauto.
Qed.
(** No name drawn at random is the identity's: it ends in a digit. *)
Fixpoint last_is (p : ascii -> bool) (s : string) : bool :=
  match s with "" => false | String c "" => p c | String _ s => last_is p s end.
Lemma last_is_app p s t : t <> "" -> last_is p (s +:+ t) = last_is p t.
Proof.
  intros Ht. induction s as [|c s IH]; [done|]. rewrite sapp_cons. cbn [last_is]. rewrite IH.
  destruct (s +:+ t) eqn:E; [|done]. destruct s; [|done]. by destruct t.
Qed.
Lemma last_is_digits n : last_is is_digit (digits_of n) = true.
Proof. induction n as [|[|n] IH]; [done|done|]. exact IH. Qed.
Lemma fresh_not_identity prefix w : (fresh_name prefix w =s journalIdentityName) = false.
Proof.
  apply String.eqb_neq. intros E. apply (f_equal (last_is is_digit)) in E. unfold fresh_name in E.
  rewrite last_is_app in E by (by destruct (longest w)).
  rewrite last_is_digits in E. discriminate E.
Qed.
Lemma temporary_fresh d prefix w : hidden prefix = true -> temporary (d, fresh_name prefix w) = true.
Proof.
  intros Hp. unfold temporary, temp_name. cbn [snd]. rewrite fresh_not_identity. unfold fresh_name.
  by rewrite hidden_app.
Qed.

(** Updates confined to a temporary file. *)
Lemma safe_vis_temp {A} (act : M A) p :
  temporary p = true ->
  (forall w q, q <> p -> vis (act w).2 !! q = vis w !! q) ->
  (forall w, dur (act w).2 = dur w /\ euid (act w).2 = euid w) ->
  (forall w q, q ∈ dirty (act w).2 -> q = p \/ q ∈ dirty w) -> safe (sys act).
Proof.
  intros Ht Hv Hd Hq. apply safe_sys. intros w [Hi1 Hi2]. destruct (Hd w) as [Hd1 Hd2].
  assert (Hne : forall q, temporary q = false -> q <> p) by congruence.
  split; split.
  - intros q f Hf. rewrite Hd1, Hv by auto. eauto.
  - intros q Hin. apply Hq in Hin as [->|?]; auto.
  - intros q f Hf. rewrite Hv by auto. done.
  - split; [|done]. intros q f _. by rewrite Hd1.
Qed.

Lemma safe_remove p : temporary p = true -> safe (remove p).
Proof.
  intros Ht. apply (safe_vis_temp _ p Ht).
  - intros w q Hq. case_match; cbn; [|done]. by rewrite lookup_delete_ne.
  - intros w. by case_match.
  - intros w q Hq. case_match; auto.
Qed.

Lemma safe_open_create p : temporary p = true -> safe (open_create p).
Proof.
  intros Ht. apply (safe_vis_temp _ p Ht).
  - intros w q Hq. case_match; cbn; [done|]. by rewrite lookup_insert_ne.
  - intros w. by case_match.
  - intros w q Hq. case_match; auto.
Qed.
Lemma safe_mkdir d : safe (mkdir d).
Proof. apply safe_sys. intros w Hw. by repeat case_match. Qed.

Lemma safe_sync_dir d : safe (sync_dir d).
Proof.
  unfold sync_dir. apply safe_bind; [by apply safe_read|]. intros _. apply safe_sys.
  intros w [Hi1 Hi2]. cbn. unfold sync_entries.
  assert (Hl : forall p f, temporary p = false -> dur w !! p = Some f -> sync_entries d w !! p = Some f).
  { intros p f Ht Hf. unfold sync_entries. rewrite lookup_union_Some_raw.
    destruct (decide (p.1 = d)) as [E|E].
    - left. apply map_lookup_filter_Some. eauto.
    - right. split; [|by apply map_lookup_filter_Some].
      apply map_lookup_filter_None. right. by intros ? _ ?. }
  split; split; cbn; [|done|done|split; [|done]; exact Hl].
  intros p f Ht Hf. apply lookup_union_Some_raw in Hf as [Hf|[_ Hf]];
    apply map_lookup_filter_Some in Hf as [Hf _]; eauto.
Qed.

Lemma safe_fsync p : safe (fsync p).
Proof.
  apply safe_sys. intros w [Hi1 Hi2]. split; [split; [done|]|done]. cbn. set_solver.
Qed.

Lemma sync_dir_vis d w : vis (sync_dir d w).2 = vis w.
Proof. apply bind_keep; intros; by apply sys_keep. Qed.

(** After a successful directory flush the directory's entries are durable. *)
Lemma sync_dir_Ok d w w' p f :
  sync_dir d w = (Ok (), w') -> p.1 = d -> vis w !! p = Some f -> dur w' !! p = Some f.
Proof.
  unfold sync_dir. intros Hs Hd Hf. apply bind_Ok_inv in Hs as (u & w1 & H1 & H2).
  apply sys_Ok in H1 as [s1 [= _ <-]]. apply sys_Ok in H2 as [s2 [= <-]]. wsimpl.
  unfold sync_entries. wsimpl. apply lookup_union_Some_raw. left. by apply map_lookup_filter_Some.
Qed.

(** The entries, visible and durable. *)
Definition entries (w : world) : gmap path file * gmap path file := (vis w, dur w).

(** Operations that change no entry. *)
Definition looks {A} (m : M A) : Prop := forall w, entries (m w).2 = entries w.
Lemma looks_ret {A} (a : A) : looks (mret a).
Proof. done. Qed.
Lemma looks_throw {A} e : looks (throw e : M A).
Proof. done. Qed.
Lemma looks_lift {A} (r : res A) : looks (lift r).
Proof. done. Qed.
Lemma looks_bind {A B} (m : M A) (k : A -> M B) : looks m -> (forall a, looks (k a)) -> looks (m ≫= k).
Proof. intros Hm Hk w. by apply bind_keep. Qed.
Lemma looks_attempt {A} (m : M A) : looks m -> looks (attempt m).
Proof. intros Hm w. unfold attempt. specialize (Hm w). by destruct (m w). Qed.
Lemma looks_sys {A} (act : M A) : (forall w, entries (act w).2 = entries w) -> looks (sys act).
Proof. intros Ha w. by apply sys_keep. Qed.
Lemma looks_stat_dir d : looks (stat_dir d).
Proof. apply looks_sys. intros w. by case_match. Qed.
Lemma looks_lstat p : looks (lstat p).
Proof. apply looks_sys. intros w. by case_match. Qed.
Lemma looks_open_nofollow p : looks (open_nofollow p).
Proof. apply looks_sys. intros w. by repeat case_match. Qed.
Lemma looks_get_euid : looks get_euid.
Proof. done. Qed.
Lemma looks_fsync p : looks (fsync p).
Proof. by apply looks_sys. Qed.
Lemma looks_eval_symlinks d : looks (eval_symlinks d).
Proof. apply looks_sys. intros w. cbv zeta. by case_match. Qed.
#[export] Hint Resolve looks_ret looks_throw looks_lift looks_stat_dir looks_lstat
  looks_open_nofollow looks_get_euid looks_fsync looks_eval_symlinks : safe.

Lemma attempt_Ok_inv {A} (m : M A) w r w' : attempt m w = (r, w') -> exists r', r = Ok r' /\ m w = (r', w').
Proof. unfold attempt. destruct (m w) as [r1 w1]. intros [= <- <-]. eauto. Qed.

#[export] Hint Resolve safe_ret safe_throw safe_lift safe_attempt safe_stat_dir safe_lstat safe_lstat_dir
  safe_get_euid safe_eval_symlinks
  safe_open_nofollow safe_close safe_sync_dir safe_remove safe_open_create safe_mkdir safe_fsync : safe.

(** Decomposes a monadic program into its calls. *)
Ltac solve_looks :=
  repeat first
    [ progress (intros)
    | solve [eauto with safe]
    | apply looks_bind
    | apply looks_attempt
    | solve [by apply looks_sys]
    | match goal with
      | |- looks (match ?x with _ => _ end) => destruct x
      | |- looks (if ?b then _ else _) => destruct b
      end ].
Ltac solve_safe :=
  repeat first
    [ progress (intros)
    | solve [eauto with safe]
    | apply safe_bind
    | apply safe_defer
    | apply safe_attempt
    | solve [by apply safe_read]
    | match goal with
      | |- safe (match ?x with _ => _ end) => destruct x
      | |- safe (if ?b then _ else _) => destruct b
      end ].
