(* ===== verification/Publish.v ===== *)
(** Publishing a file without replacing one: a temporary file is created, filled,
    flushed and renamed, and its directory flushed.  The approval journal and the
    artifact stores both publish this way; the triples below hold under any schedule
    of faults. *)
From stdpp Require Import base tactics option list strings numbers gmap relations.
From Stdlib Require Import ZArith Lia Ascii String.
From S2P Require Import Prelude GoText FileSystem.

#[local] Open Scope string_scope.

(** Partial correctness with the result, error or not, in the postcondition. *)
Definition hoare {A} (P : world -> Prop) (m : M A) (Q : res A -> world -> Prop) : Prop :=
  forall w, P w -> Q (m w).1 (m w).2.

Lemma hoare_bind {A B} P (m : M A) (k : A -> M B) Q R :
  hoare P m Q ->
  (forall a, hoare (Q (Ok a)) (k a) R) ->
  (forall e w, Q (Fail e) w -> R (Fail e) w) -> hoare P (m ≫= k) R.
Proof.
  intros Hm Hk He w Hw. specialize (Hm w Hw). unfold mbind, M_bind.
  destruct (m w) as [[a|e] w1]; cbn in *; [by apply Hk|by apply He].
Qed.

Lemma hoare_defer {A} P c (m : M A) Q R :
  hoare P m Q -> (forall r, hoare (Q r) c (fun _ => R r)) -> hoare P (defer c m) R.
Proof.
  intros Hm Hc w Hw. specialize (Hm w Hw). unfold defer. destruct (m w) as [r w1]. cbn in Hm.
  specialize (Hc r w1 Hm). by destruct (c w1).
Qed.

Lemma hoare_attempt {A} P (m : M A) Q :
  hoare P m Q -> hoare P (attempt m) (fun r w => match r with Ok r => Q r w | Fail _ => False end).
Proof. intros Hm w Hw. specialize (Hm w Hw). unfold attempt. by destruct (m w). Qed.

Lemma hoare_ret {A} (a : A) (Q : res A -> world -> Prop) : hoare (Q (Ok a)) (mret a) Q.
Proof. by intros w. Qed.

Lemma hoare_pre {A} (P P' : world -> Prop) (m : M A) Q : (forall w, P' w -> P w) -> hoare P m Q -> hoare P' m Q.
Proof. intros HP Hm w Hw. by apply Hm, HP. Qed.

(** A system call: the action's own specification, and that a failure before or after
    it still satisfies the postcondition. *)
Lemma hoare_sys {A} P (act : M A) (Q : res A -> world -> Prop) :
  (forall w s, P w -> P (with_sched w s)) ->
  hoare P act Q -> (forall e w, P w -> Q (Fail e) w) ->
  (forall r e w, Q r w -> Q (Fail e) w) -> hoare P (sys act) Q.
Proof.
  intros Hs Ha Hb Hl w Hw. unfold sys. destruct (sched w) as [|[] s]; cbn; eauto.
  specialize (Ha (with_sched w s) (Hs w s Hw)). destruct (act (with_sched w s)); eauto.
Qed.

Section Publish.
Variables (w0 : world) (p : path).
Hypothesis Hp : temporary p = false.

(** The world while a file is being prepared: nothing published has changed. *)
Definition untouched (w : world) : Prop :=
  inv w /\ evolves w0 w /\ (forall q, temporary q = false -> vis w !! q = vis w0 !! q).

(** The temporary file [f] holds [g]. *)
Definition prepared_file (f : path) (g : file) (flushed : bool) (w : world) : Prop :=
  untouched w /\ temporary f = true /\ vis w !! f = Some g /\ (flushed = true -> f ∉ dirty w).

(** The world once [g] may have been published at [p]. *)
Definition published (g : file) (w : world) : Prop :=
  inv w /\ evolves w0 w /\ (forall q, temporary q = false -> q <> p -> vis w !! q = vis w0 !! q)
  /\ (vis w !! p = vis w0 !! p \/ vis w0 !! p = None /\ vis w !! p = Some g).

Definition new_file (raw : bytes) : file :=
  {| f_kind := Regular; f_uid := euid w0; f_perm := perm_0600; f_data := raw |}.

Lemma untouched_published g w : untouched w -> published g w.
Proof. intros (?&?&?). split_and!; auto. Qed.

Lemma untouched_temp w v dt : untouched w ->
  (forall q, temporary q = false -> v !! q = vis w !! q) ->
  (forall q, q ∈ dt -> temporary q = true) ->
  untouched (with_dirty (with_vis w v) dt).
Proof. clear Hp p.
  intros ((Hi1 & Hi2) & (He1 & He2 & He3) & Hu) Hv Hd.
  split; [split; [|exact Hd]|split; [split; [|split; [exact He2|exact He3]]|]]; wsimpl.
  - intros q f Ht Hf. rewrite Hv by done. eauto.
  - intros q f Ht Hf. rewrite Hv by done. eauto.
  - intros q Ht. rewrite Hv by done. auto.
Qed.

Lemma create_temp_spec d prefix : hidden prefix = true ->
  hoare untouched (create_temp d prefix) (fun r w =>
    match r with Ok f => prepared_file f (new_file "") false w | Fail _ => untouched w end).
Proof.
  clear Hp p. intros Hpre. apply hoare_sys; [done| |done|intros [f|e'] e w Hr; [apply Hr|done]].
  intros w Hu. wsimpl. assert (Hn : temporary (d, fresh_name prefix w) = true) by (by apply temporary_fresh).
  assert (euid w = euid w0) as Heu by apply Hu.
  split; [|split; [done|split; [|done]]].
  - apply (untouched_temp w (<[_ := _]> (vis w)) (dirty w)); [done| |apply Hu].
    intros q Hq. wsimpl. rewrite lookup_insert_ne; [done|congruence].
  - wsimpl. rewrite lookup_insert_eq. unfold new_file. by rewrite Heu.
Qed.

Lemma chmod_spec f g :
  hoare (prepared_file f g false) (chmod f perm_0600) (fun r w =>
    match r with
    | Ok _ => prepared_file f {| f_kind := f_kind g; f_uid := f_uid g; f_perm := perm_0600; f_data := f_data g |} false w
    | Fail _ => untouched w end).
Proof. clear Hp p.
  apply hoare_sys; [done| |intros e w Hr; apply Hr|intros [u|e'] e w Hr; [apply Hr|done]].
  intros w (Hu & Ht & Hv & _). wsimpl. split; [|split; [done|split; [|done]]].
  - apply (untouched_temp w (alter _ f (vis w)) (dirty w)); [done| |apply Hu].
    intros q Hq. wsimpl. rewrite lookup_alter_ne; [done|congruence].
  - wsimpl. by rewrite lookup_alter_eq, Hv.
Qed.

Lemma append_prepared f g w raw : prepared_file f g false w ->
  prepared_file f {| f_kind := f_kind g; f_uid := f_uid g; f_perm := f_perm g; f_data := f_data g +:+ raw |}
    false (append_to f raw w).
Proof. clear Hp p.
  intros (Hu & Ht & Hv & _). unfold append_to. split; [|split; [done|split; [|done]]].
  - apply untouched_temp; [done| |].
    + intros q Hq. rewrite lookup_alter_ne; [done|congruence].
    + intros q Hq. destruct Hu as ((_ & Hi) & _). set_solver.
  - wsimpl. by rewrite lookup_alter_eq, Hv.
Qed.

Lemma str_take_full n s : zlen (str_take n s) = zlen s -> str_take n s = s.
Proof. clear Hp p.
  unfold zlen. revert n. induction s as [|c s IH]; intros [|n]; cbn; try done.
  intros E. f_equal. apply IH. lia.
Qed.

Lemma write_spec f g raw :
  hoare (prepared_file f g false) (write f raw) (fun r w =>
    untouched w /\ (r = Ok (zlen raw) ->
      prepared_file f {| f_kind := f_kind g; f_uid := f_uid g; f_perm := f_perm g; f_data := f_data g +:+ raw |} false w)).
Proof. clear Hp p.
  intros w Hw. unfold write.
  assert (Hs : forall w, prepared_file f g false w -> untouched (append_to f raw w)
    /\ prepared_file f {| f_kind := f_kind g; f_uid := f_uid g; f_perm := f_perm g; f_data := f_data g +:+ raw |} false (append_to f raw w)).
  { intros w' Hw'. apply (append_prepared f g w' raw) in Hw'. split; [apply Hw'|done]. }
  unfold sys. destruct (sched w) as [|[] s]; wsimpl.
  - split; [|intros _]; by apply Hs.
  - split; [|intros _]; by apply (Hs (with_sched w s)).
  - split; [apply Hw|done].
  - split; [by apply (Hs (with_sched w s))|done].
  - split; [eapply (append_prepared f g (with_sched w s)); exact Hw|].
    intros [= E]. rewrite (str_take_full _ _ E). by apply (Hs (with_sched w s)).
Qed.

Lemma fsync_spec f g :
  hoare (prepared_file f g false) (fsync f) (fun r w =>
    match r with Ok _ => prepared_file f g true w | Fail _ => untouched w end).
Proof. clear Hp p.
  apply hoare_sys; [done| |intros e w Hr; apply Hr|intros [u|e'] e w Hr; [apply Hr|done]].
  intros w (Hu & Ht & Hv & _). wsimpl. split; [|split; [done|split; [done|wsimpl; set_solver]]].
  apply (untouched_temp w (vis w)); [done|done|]. destruct Hu as ((_ & Hi) & _). set_solver.
Qed.

Lemma close_spec (P : world -> Prop) : (forall w s, P w -> P (with_sched w s)) -> hoare P close (fun _ => P).
Proof. clear Hp p. intros Hs. apply hoare_sys; [exact Hs|by intros w Hw|by intros|by intros]. Qed.

Lemma rename_spec f g :
  hoare (prepared_file f g true) (rename_noreplace f p) (fun r w =>
    published g w /\ (r = Ok () -> vis w0 !! p = None /\ vis w !! p = Some g)).
Proof.
  apply hoare_sys; [done| |intros e w Hr; split; [apply untouched_published, Hr|done]|by intros r e w [Hr _]].
  intros w (Hu & Ht & Hv & Hd). wsimpl. rewrite Hv.
  destruct (vis w !! p) as [h|] eqn:Evp; wsimpl.
  { split; [by apply untouched_published|done]. }
  rewrite decide_False by auto.
  destruct Hu as ((Hi1 & Hi2) & (He1 & He2 & He3) & Hu).
  assert (Hfp : f <> p) by congruence.
  assert (Hw0 : vis w0 !! p = None) by (by rewrite <- Hu).
  assert (Hq : forall q, temporary q = false -> q <> p -> (<[p:=g]> (delete f (vis w))) !! q = vis w !! q).
  { intros q Hq Hne. rewrite lookup_insert_ne, lookup_delete_ne; congruence. }
  split; [|intros _; split; [done|wsimpl; by rewrite lookup_insert_eq]].
  split; [split; [|exact Hi2]|split; [split; [|split; [exact He2|exact He3]]|split]]; wsimpl.
  - intros q h Hq' Hh. destruct (decide (q = p)) as [->|Hne].
    + exfalso. specialize (Hi1 p h Hp Hh). congruence.
    + rewrite Hq by done. eauto.
  - intros q h Hq' Hh. destruct (decide (q = p)) as [->|Hne]; [congruence|]. rewrite Hq by done. eauto.
  - intros q Hq' Hne. rewrite Hq, Hu by done. done.
  - right. split; [done|]. by rewrite lookup_insert_eq.
Qed.

(** What the caller learns from the result of publishing. *)
Definition publish_post (g : file) (r : res unit) (w : world) : Prop :=
  published g w /\ (r = Ok () -> vis w0 !! p = None /\ vis w !! p = Some g /\ dur w !! p = Some g).

Lemma untouched_post g e w : untouched w -> publish_post g (Fail e) w.
Proof. intros Hu. split; [by apply untouched_published|done]. Qed.

Lemma published_safe {A} g (m : M A) : safe m ->
  (forall w q, temporary q = false -> vis (m w).2 !! q = vis w !! q) ->
  forall r w, publish_post g r w -> publish_post g r (m w).2.
Proof.
  intros Hm Hv r w [(Hi & He & Hq & Hor) Hr]. destruct (Hm w Hi) as [Hi' He'].
  split; [split_and!; [done|by etrans| |]|].
  - intros q Ht Hne. by rewrite Hv, Hq.
  - by rewrite Hv.
  - intros Hok. destruct (Hr Hok) as (H1 & H2 & H3). rewrite Hv by done. split_and!; [done..|].
    by apply He'.
Qed.

Lemma remove_keeps f w q : temporary f = true -> temporary q = false -> vis (remove f w).2 !! q = vis w !! q.
Proof. clear Hp p.
  intros Hf Hq. assert (f <> q) by congruence. apply (sys_keep (fun w => vis w !! q)); [done|].
  intros w'. destruct (vis w' !! f); wsimpl; [by rewrite lookup_delete_ne|done].
Qed.

Lemma sync_dir_post g :
  hoare (fun w => published g w /\ vis w0 !! p = None /\ vis w !! p = Some g) (sync_dir p.1) (publish_post g).
Proof.
  intros w (Hpub & Hn & Hv). pose proof (safe_sync_dir p.1 w (proj1 Hpub)) as [Hi' He'].
  pose proof (sync_dir_vis p.1 w) as Hvis. destruct Hpub as (Hi & He & Hq & _).
  split; [split_and!; [done|by etrans|by rewrite Hvis|right; by rewrite Hvis]|].
  intros Hok. split_and!; [done|by rewrite Hvis|].
  destruct (sync_dir p.1 w) as [r w'] eqn:Es. cbn in Hok. subst r. by eapply sync_dir_Ok.
Qed.

(** The preparation of the file, with any specification of what publishes it. *)
Lemma publish_body_prepared f raw (R : res unit -> world -> Prop) :
  hoare (prepared_file f (new_file raw) true) (_ ← rename_noreplace f p; sync_dir p.1) R ->
  (forall e w, untouched w -> R (Fail e) w) ->
  hoare (prepared_file f (new_file "") false)
    (_ ← chmod f perm_0600;
     n ← write f raw;
     if negb (n =? zlen raw)%Z then throw (ESent ErrShortWrite)
     else _ ← fsync f; _ ← close; _ ← rename_noreplace f p; sync_dir p.1) R.
Proof. clear Hp.
  intros HR Hu. eapply hoare_bind; [apply chmod_spec| |intros e w; apply Hu]. intros [].
  eapply hoare_bind; [apply write_spec| |intros e w Hw; apply Hu; exact (proj1 Hw)].
  intros n. destruct (n =? zlen raw)%Z eqn:En; split_bools; cbn [negb].
  2: { intros w Hw. apply Hu. exact (proj1 Hw). }
  subst n. eapply (hoare_bind _ _ _ (fun r w =>
    match r with Ok _ => prepared_file f (new_file raw) true w | Fail _ => untouched w end));
    [| |intros e w; apply Hu].
  { intros w [_ Hw]. apply fsync_spec. exact (Hw eq_refl). }
  intros []. eapply hoare_bind; [by apply close_spec| |intros e w Hw; apply Hu, Hw]. intros []. exact HR.
Qed.

Lemma publish_body_spec f raw :
  hoare (prepared_file f (new_file "") false)
    (_ ← chmod f perm_0600;
     n ← write f raw;
     if negb (n =? zlen raw)%Z then throw (ESent ErrShortWrite)
     else _ ← fsync f; _ ← close; _ ← rename_noreplace f p; sync_dir p.1)
    (publish_post (new_file raw)).
Proof.
  apply publish_body_prepared; [|apply untouched_post].
  eapply hoare_bind; [apply rename_spec| |intros e w Hw; split; [apply Hw|done]].
  intros []. intros w [Hw Hok]. apply sync_dir_post. destruct (Hok eq_refl). done.
Qed.

End Publish.

Lemma untouched_safe w0 {A} (m : M A) : safe m ->
  (forall w q, temporary q = false -> vis (m w).2 !! q = vis w !! q) ->
  forall w, untouched w0 w -> untouched w0 (m w).2.
Proof.
  intros Hm Hv w (Hi & He & Hu). destruct (Hm w Hi) as [Hi' He']. split_and!; [done|by etrans|].
  intros q Hq. rewrite Hv by done. auto.
Qed.

Lemma untouched_start w : inv w -> untouched w w.
Proof. intros Hi. split; [done|split; [reflexivity|done]]. Qed.

(** Publishing at a hidden path, as the probes of the journal and of the stores do. *)
Lemma rename_hidden w0 p f g : temporary p = true ->
  hoare (prepared_file w0 f g true) (rename_noreplace f p) (fun _ => untouched w0).
Proof.
  intros Hp. apply hoare_sys; [done| |intros e w Hr; apply Hr|done].
  intros w (Hu & Ht & Hv & Hd). wsimpl. rewrite Hv. destruct (vis w !! p); [done|].
  rewrite decide_False by auto. apply (untouched_temp w0 w _ (dirty w)); [done| |apply Hu].
  intros q Hq. rewrite lookup_insert_ne, lookup_delete_ne; [done|congruence..].
Qed.

(** * Crashes *)

(** A crash keeps the invariant and every durable file that is not a temporary one. *)
Lemma crash_keeps w w' : inv w -> crash w w' ->
  inv w' /\ forall p f, temporary p = false -> dur w !! p = Some f -> dur w' !! p = Some f.
Proof.
  intros [Hi1 Hi2] (Hc & Hd & Hdirty & _). split; [split|].
  - intros p f _ Hf. by rewrite <- Hd.
  - rewrite Hdirty. set_solver.
  - intros p f Hp Hf. rewrite Hd. destruct (Hc p) as [E|E]; [|congruence|rewrite E; eauto].
    intros Hin. apply Hi2 in Hin. congruence.
Qed.
