(* ===== verification/Journal.v ===== *)
(** [internal/approval]: the durable approval journal (journal.go, journal_read.go,
    journal_records.go, files.go, fs_unix.go, fs_linux.go).  Each request has up to
    five immutable files; the operations run one at a time under the journal's
    mutex, so a run of the journal is a sequence of them. *)
From stdpp Require Import base tactics option list strings numbers gmap relations.
From Stdlib Require Import ZArith Lia Ascii String.
From S2P Require Import Prelude GoText Sha256 Json StrictJson Externals Mpc2of3 ApprovalWire SigningPolicy FileSystem.

#[local] Open Scope string_scope.

Definition err_integrity : error := ESent ErrIntegrity.
Definition err_conflict : error := ESent ErrConflict.

(** * journal_records.go: the records *)

Definition admissionFields : list string :=
  ["version"; "orgId"; "requestId"; "authorizationHash"; "mode"; "endpoint"; "admittedAt"].
Definition receiptFields : list string :=
  ["version"; "orgId"; "requestId"; "authorizationHash"; "signingKeyId"; "publicKey"; "bytes"].
Definition acknowledgementFields : list string :=
  ["version"; "orgId"; "requestId"; "receiptHash"; "application"].
Definition executionFields : list string :=
  ["version"; "orgId"; "requestId"; "outgoingId"; "authorizationHash"; "executionDigest";
   "payloadType"; "hashAlgorithm"].
Definition executionKnownFields : list string :=
  ["version"; "orgId"; "requestId"; "authorizationHash"; "bindingHash"].

Record Admission := {
  ad_Version : Z; ad_OrgID : string; ad_RequestID : string; ad_AuthorizationHash : string;
  ad_Mode : string; ad_Endpoint : option string; ad_AdmittedAt : string;
}.
Record SavedReceipt := {
  sr_Version : Z; sr_OrgID : string; sr_RequestID : string; sr_AuthorizationHash : string;
  sr_SigningKeyID : string; sr_PublicKey : bytes; sr_Bytes : bytes;
}.
Record ExecutionBinding := {
  ex_Version : Z; ex_OrgID : string; ex_RequestID : string; ex_OutgoingID : string;
  ex_AuthorizationHash : string; ex_ExecutionDigest : string; ex_PayloadType : string;
  ex_HashAlgorithm : string;
}.
Record executionKnown := {
  ek_Version : Z; ek_OrgID : string; ek_RequestID : string; ek_AuthorizationHash : string;
  ek_BindingHash : string;
}.
Record deliveryAck := {
  da_Version : Z; da_OrgID : string; da_RequestID : string; da_ReceiptHash : string;
  da_Application : bytes;
}.

#[global] Instance ExecutionBinding_eq_dec : EqDecision ExecutionBinding.
Proof. solve_decision. Defined.

(** [json.Marshal] of the records. *)

Definition admission_json (a : Admission) : json :=
  JObj [("version", jint (ad_Version a)); ("orgId", JStr (ad_OrgID a));
        ("requestId", JStr (ad_RequestID a)); ("authorizationHash", JStr (ad_AuthorizationHash a));
        ("mode", JStr (ad_Mode a)); ("endpoint", jopt (ad_Endpoint a));
        ("admittedAt", JStr (ad_AdmittedAt a))].
Definition receipt_json (r : SavedReceipt) : json :=
  JObj [("version", jint (sr_Version r)); ("orgId", JStr (sr_OrgID r));
        ("requestId", JStr (sr_RequestID r)); ("authorizationHash", JStr (sr_AuthorizationHash r));
        ("signingKeyId", JStr (sr_SigningKeyID r)); ("publicKey", jbytes (sr_PublicKey r));
        ("bytes", jbytes (sr_Bytes r))].
Definition execution_json (x : ExecutionBinding) : json :=
  JObj [("version", jint (ex_Version x)); ("orgId", JStr (ex_OrgID x));
        ("requestId", JStr (ex_RequestID x)); ("outgoingId", JStr (ex_OutgoingID x));
        ("authorizationHash", JStr (ex_AuthorizationHash x));
        ("executionDigest", JStr (ex_ExecutionDigest x)); ("payloadType", JStr (ex_PayloadType x));
        ("hashAlgorithm", JStr (ex_HashAlgorithm x))].
Definition known_json (k : executionKnown) : json :=
  JObj [("version", jint (ek_Version k)); ("orgId", JStr (ek_OrgID k));
        ("requestId", JStr (ek_RequestID k)); ("authorizationHash", JStr (ek_AuthorizationHash k));
        ("bindingHash", JStr (ek_BindingHash k))].
Definition ack_json (a : deliveryAck) : json :=
  JObj [("version", jint (da_Version a)); ("orgId", JStr (da_OrgID a));
        ("requestId", JStr (da_RequestID a)); ("receiptHash", JStr (da_ReceiptHash a));
        ("application", jbytes (da_Application a))].

Definition decode_admission : json -> option Admission :=
  decode_struct
    [("version", set_int (fun s '(Build_Admission _ b c d e f g) => Build_Admission s b c d e f g));
     ("orgId", set_string (fun s '(Build_Admission a _ c d e f g) => Build_Admission a s c d e f g));
     ("requestId", set_string (fun s '(Build_Admission a b _ d e f g) => Build_Admission a b s d e f g));
     ("authorizationHash", set_string (fun s '(Build_Admission a b c _ e f g) => Build_Admission a b c s e f g));
     ("mode", set_string (fun s '(Build_Admission a b c d _ f g) => Build_Admission a b c d s f g));
     ("endpoint", set_opt_string (fun s '(Build_Admission a b c d e _ g) => Build_Admission a b c d e s g));
     ("admittedAt", set_string (fun s '(Build_Admission a b c d e f _) => Build_Admission a b c d e f s))]
    (Build_Admission 0 "" "" "" "" None "").
Definition decode_receipt : json -> option SavedReceipt :=
  decode_struct
    [("version", set_int (fun s '(Build_SavedReceipt _ b c d e f g) => Build_SavedReceipt s b c d e f g));
     ("orgId", set_string (fun s '(Build_SavedReceipt a _ c d e f g) => Build_SavedReceipt a s c d e f g));
     ("requestId", set_string (fun s '(Build_SavedReceipt a b _ d e f g) => Build_SavedReceipt a b s d e f g));
     ("authorizationHash", set_string (fun s '(Build_SavedReceipt a b c _ e f g) => Build_SavedReceipt a b c s e f g));
     ("signingKeyId", set_string (fun s '(Build_SavedReceipt a b c d _ f g) => Build_SavedReceipt a b c d s f g));
     ("publicKey", set_bytes (fun s '(Build_SavedReceipt a b c d e _ g) => Build_SavedReceipt a b c d e s g));
     ("bytes", set_bytes (fun s '(Build_SavedReceipt a b c d e f _) => Build_SavedReceipt a b c d e f s))]
    (Build_SavedReceipt 0 "" "" "" "" "" "").
Definition decode_execution : json -> option ExecutionBinding :=
  decode_struct
    [("version", set_int (fun s '(Build_ExecutionBinding _ b c d e f g h) => Build_ExecutionBinding s b c d e f g h));
     ("orgId", set_string (fun s '(Build_ExecutionBinding a _ c d e f g h) => Build_ExecutionBinding a s c d e f g h));
     ("requestId", set_string (fun s '(Build_ExecutionBinding a b _ d e f g h) => Build_ExecutionBinding a b s d e f g h));
     ("outgoingId", set_string (fun s '(Build_ExecutionBinding a b c _ e f g h) => Build_ExecutionBinding a b c s e f g h));
     ("authorizationHash", set_string (fun s '(Build_ExecutionBinding a b c d _ f g h) => Build_ExecutionBinding a b c d s f g h));
     ("executionDigest", set_string (fun s '(Build_ExecutionBinding a b c d e _ g h) => Build_ExecutionBinding a b c d e s g h));
     ("payloadType", set_string (fun s '(Build_ExecutionBinding a b c d e f _ h) => Build_ExecutionBinding a b c d e f s h));
     ("hashAlgorithm", set_string (fun s '(Build_ExecutionBinding a b c d e f g _) => Build_ExecutionBinding a b c d e f g s))]
    (Build_ExecutionBinding 0 "" "" "" "" "" "" "").
Definition decode_known : json -> option executionKnown :=
  decode_struct
    [("version", set_int (fun s '(Build_executionKnown _ b c d e) => Build_executionKnown s b c d e));
     ("orgId", set_string (fun s '(Build_executionKnown a _ c d e) => Build_executionKnown a s c d e));
     ("requestId", set_string (fun s '(Build_executionKnown a b _ d e) => Build_executionKnown a b s d e));
     ("authorizationHash", set_string (fun s '(Build_executionKnown a b c _ e) => Build_executionKnown a b c s e));
     ("bindingHash", set_string (fun s '(Build_executionKnown a b c d _) => Build_executionKnown a b c d s))]
    (Build_executionKnown 0 "" "" "" "").
Definition decode_ack : json -> option deliveryAck :=
  decode_struct
    [("version", set_int (fun s '(Build_deliveryAck _ b c d e) => Build_deliveryAck s b c d e));
     ("orgId", set_string (fun s '(Build_deliveryAck a _ c d e) => Build_deliveryAck a s c d e));
     ("requestId", set_string (fun s '(Build_deliveryAck a b _ d e) => Build_deliveryAck a b s d e));
     ("receiptHash", set_string (fun s '(Build_deliveryAck a b c _ e) => Build_deliveryAck a b c s e));
     ("application", set_bytes (fun s '(Build_deliveryAck a b c d _) => Build_deliveryAck a b c d s))]
    (Build_deliveryAck 0 "" "" "" "").

(** [State]: what is known of a request; an empty application is an absent one. *)
Record State := {
  st_Admission : option Admission; st_Receipt : option SavedReceipt; st_Application : bytes;
  st_Execution : option ExecutionBinding;
}.

(** The lock and the open directory handle are represented by their effects; [j_scan]
    is what the directory stream has still to yield. *)
Record Journal := {
  j_directory : string; j_identity : FileInfo; j_closed : bool; j_scan : option (list string);
}.

Definition digest (raw : bytes) : string := sha256_hex raw.
Definition recordKey (org request : string) : string :=
  digest (org +:+ String "000" request).
Definition record_name (org request kind : string) : string :=
  recordKey org request +:+ "." +:+ kind +:+ ".json".
Definition journal_path (j : Journal) (org request kind : string) : path :=
  (j_directory j, record_name org request kind).

(** The keys of a document decoded into a map. *)
Definition object_keys (raw : bytes) : option (gset string) :=
  match json_parse raw with
  | Some (JObj l) => Some (list_to_set (map fst l))
  | Some JNull => Some ∅
  | _ => None
  end.

Definition decodeRecord {A} (decode : json -> option A) (fields : list string) (raw : bytes) : res A :=
  match DecodeClosed decode raw with
  | Fail e => Fail (EJoin [err_integrity; e])
  | Ok a =>
      match object_keys raw with
      | None => Fail err_integrity
      | Some m =>
          if (size m =? List.length fields)%nat && forallb (fun k => bool_decide (k ∈ m)) fields
          then Ok a else Fail err_integrity
      end
  end.

Section JournalOps.
Context `{Externals} `{TxCodecs}.

Definition validEndpoint (value : string) : bool := https_endpoint value.

Definition admission_validate (a : Admission) : res unit :=
  if negb (ad_Version a =? 1)%Z || negb (ValidReference (ad_OrgID a))
     || negb (ValidReference (ad_RequestID a))
     || negb (ValidAuthorizationHash (ad_AuthorizationHash a))
     || negb (ValidTimestamp (ad_AdmittedAt a))
  then Fail err_integrity
  else match ad_Endpoint a with
       | None => if ad_Mode a =s "auto_approve" then Ok () else Fail err_integrity
       | Some endpoint =>
           if (ad_Mode a =s "external") && validEndpoint endpoint then Ok () else Fail err_integrity
       end.

Definition validateReceipt (a : Admission) (r : SavedReceipt) : res unit :=
  if negb (sr_Version r =? 1)%Z || (sr_OrgID r <>s ad_OrgID a) || (sr_RequestID r <>s ad_RequestID a)
     || (sr_AuthorizationHash r <>s ad_AuthorizationHash a)
  then Fail err_integrity
  else
    v ← VerifyReceipt (sr_Bytes r)
          {| tr_OrgID := ad_OrgID a; tr_RequestID := ad_RequestID a;
             tr_AuthorizationHash := ad_AuthorizationHash a; tr_SigningKeyID := sr_SigningKeyID r;
             tr_PublicKey := sr_PublicKey r; tr_Eligible := true |};
    ensure (str (Envelope v) "source" =s ad_Mode a) err_integrity.

Definition validateApplication (raw : bytes) (request : string) : res unit :=
  v ← ParseDecisionApplication raw;
  ensure (str v "requestId" =s request) err_integrity.

Definition validateDigest (s : string) : res unit := ensure (ValidExecutionDigest s) err_integrity.

Definition validateExecution (s : State) (x : ExecutionBinding) : res unit :=
  match st_Admission s, st_Receipt s with
  | Some admission, Some receipt =>
      if st_Application s =s "" then Fail err_integrity else
      match ParseDecisionApplication (st_Application s) with
      | Fail _ => Fail err_integrity
      | Ok v =>
          if str v "disposition" <>s "APPLIED" then Fail err_integrity else
          match ParseReceipt (sr_Bytes receipt) with
          | Fail _ => Fail err_integrity
          | Ok r =>
              if str (Envelope r) "decision" <>s "APPROVED" then Fail err_integrity
              else if negb (ex_Version x =? 1)%Z || (ex_OrgID x <>s ad_OrgID admission)
                      || (ex_RequestID x <>s ad_RequestID admission)
                      || (ex_AuthorizationHash x <>s ad_AuthorizationHash admission)
                      || negb (ValidReference (ex_OutgoingID x))
              then Fail err_integrity
              else if negb (ValidPayloadHash (ex_PayloadType x) (ex_HashAlgorithm x))
              then Fail err_integrity
              else validateDigest (ex_ExecutionDigest x)
          end
      end
  | _, _ => Fail err_integrity
  end.

(** * fs_unix.go *)

Definition validateJournalDirectory (i : FileInfo) (uid : Z) : res unit :=
  if negb (fi_isdir i) || negb (fi_uid i =? uid)%Z
  then Fail (EWrap "approval directory must be owned by the running process user" err_integrity)
  else if negb (Z.land (fi_perm i) 448 =? 448)%Z || negb (Z.land (fi_perm i) 18 =? 0)%Z
  then Fail (EWrap "approval directory requires owner access and no group or other write" err_integrity)
  else Ok ().

Definition readJournalFile (p : path) : M bytes :=
  f ← open_nofollow p;
  uid ← get_euid;
  _ ← sys (fun w => (Ok (), w));
  if negb (f_uid f =? uid)%Z || negb (bool_decide (f_kind f = Regular))
     || negb (f_perm f =? perm_0600)%Z || (zlen (f_data f) <? 1)%Z || (32768 <? zlen (f_data f))%Z
  then throw err_integrity
  else
    b ← attempt (sys (fun w => (Ok (f_data f), w)));
    match b with
    | Fail e => throw (EJoin [err_integrity; e])
    | Ok b =>
        if (32768 <? zlen b)%Z then throw (EJoin [err_integrity])
        else _ ← fsync p; mret b
    end.

(** * files.go *)

Definition publishJournalFile (p : path) (raw : bytes) : M unit :=
  f ← create_temp p.1 ".approval-tmp-";
  defer (remove f)
    (defer close
       (_ ← chmod f perm_0600;
        n ← write f raw;
        if negb (n =? zlen raw)%Z then throw (ESent ErrShortWrite)
        else
          _ ← fsync f;
          _ ← close;
          _ ← rename_noreplace f p;
          sync_dir p.1)).

(** [os.SameFile]. *)
Definition same_file (a b : FileInfo) : bool :=
  (fi_dev a =? fi_dev b)%Z && (fi_ino a =? fi_ino b)%Z.

(** [Journal.check]. *)
Definition check (j : Journal) : M unit :=
  if j_closed j then throw err_integrity
  else
    info ← stat_dir (j_directory j);
    if negb (same_file info (j_identity j)) then throw err_integrity
    else uid ← get_euid; lift (validateJournalDirectory info uid).

Definition publish (j : Journal) (p : path) (raw : bytes) : M unit :=
  _ ← check j; publishJournalFile p raw.

Definition put (j : Journal) (p : path) (value : json) : M unit :=
  let raw := json_print value in
  if (zlen raw =? 0)%Z || (32768 <? zlen raw)%Z then throw err_integrity
  else
    r ← attempt (publish j p raw);
    match r with
    | Ok _ => mret ()
    | Fail e =>
        if errors_is e ErrExist then
          old ← readJournalFile p;
          if old <>s raw then throw err_conflict else sync_dir (j_directory j)
        else throw e
    end.

(** [Journal.read]: the record, if its file exists. *)
Definition read {A} (j : Journal) (org request kind : string) (decode : json -> option A)
    (fields : list string) : M (option A) :=
  raw ← attempt (readJournalFile (journal_path j org request kind));
  match raw with
  | Fail e => if errors_is e ErrNotExist then mret None else throw e
  | Ok raw => a ← lift (decodeRecord decode fields raw); mret (Some a)
  end.

(** * journal_read.go *)

Definition loadAdmission (j : Journal) (org request : string) : M (option Admission) :=
  found ← read j org request "admission" decode_admission admissionFields;
  match found with
  | None => mret None
  | Some admission =>
      if (ad_OrgID admission <>s org) || (ad_RequestID admission <>s request)
         || negb (is_ok (admission_validate admission))
      then throw err_integrity else mret (Some admission)
  end.

Definition loadReceipt (j : Journal) (org request : string) (admission : option Admission)
    : M (option SavedReceipt) :=
  found ← read j org request "receipt" decode_receipt receiptFields;
  match found with
  | None => mret None
  | Some receipt =>
      match admission with
      | None => throw err_integrity
      | Some admission =>
          if negb (is_ok (validateReceipt admission receipt)) then throw err_integrity
          else mret (Some receipt)
      end
  end.

Definition loadAcknowledgement (j : Journal) (org request : string) (receipt : option SavedReceipt)
    : M bytes :=
  found ← read j org request "ack" decode_ack acknowledgementFields;
  match found with
  | None => mret ""
  | Some ack =>
      match receipt with
      | None => throw err_integrity
      | Some receipt =>
          if negb (da_Version ack =? 1)%Z || (da_OrgID ack <>s org) || (da_RequestID ack <>s request)
             || (da_ReceiptHash ack <>s digest (sr_Bytes receipt))
          then throw err_integrity
          else _ ← lift (validateApplication (da_Application ack) request); mret (da_Application ack)
      end
  end.

Definition loadExecution (j : Journal) (org request : string) (state : State)
    : M (option ExecutionBinding) :=
  execution ← read j org request "execution" decode_execution executionFields;
  known ← read j org request "execution-known" decode_known executionKnownFields;
  match execution, known with
  | None, None => mret None
  | Some execution, Some known =>
      _ ← lift (validateExecution state execution);
      raw ← readJournalFile (journal_path j org request "execution");
      match st_Admission state with
      | None => throw err_integrity
      | Some admission =>
          if negb (ek_Version known =? 1)%Z || (ek_OrgID known <>s org)
             || (ek_RequestID known <>s request)
             || (ek_AuthorizationHash known <>s ad_AuthorizationHash admission)
          then throw err_integrity
          else if ek_BindingHash known <>s digest raw then throw err_integrity
          else mret (Some execution)
      end
  | _, _ => throw err_integrity
  end.

Definition loadStateLocked (j : Journal) (org request : string) : M State :=
  if negb (ValidReference org) || negb (ValidReference request) then throw err_integrity
  else
    _ ← check j;
    admission ← loadAdmission j org request;
    receipt ← loadReceipt j org request admission;
    application ← loadAcknowledgement j org request receipt;
    execution ← loadExecution j org request
                  {| st_Admission := admission; st_Receipt := receipt;
                     st_Application := application; st_Execution := None |};
    _ ← sync_dir (j_directory j);
    mret {| st_Admission := admission; st_Receipt := receipt; st_Application := application;
            st_Execution := execution |}.

Definition Load : Journal -> string -> string -> M State := loadStateLocked.

(** One iteration of the loop of [PendingReceipts], for one name. *)
Definition pending_name (j : Journal) (name : string) : M (option SavedReceipt) :=
  if negb (has_suffix ".receipt.json" name) then mret None
  else
    raw ← readJournalFile (j_directory j, name);
    match decodeRecord decode_receipt receiptFields raw with
    | Fail _ => throw err_integrity
    | Ok receipt =>
        if name <>s record_name (sr_OrgID receipt) (sr_RequestID receipt) "receipt"
        then throw err_integrity
        else
          state ← loadStateLocked j (sr_OrgID receipt) (sr_RequestID receipt);
          if st_Application state =s "" then mret (st_Receipt state) else mret None
    end.

(** The scan: the receipt found, the joined record errors, and the rest of the stream
    ([None] once the end was seen). *)
Fixpoint pending_scan (j : Journal) (limit : nat) (names : list string) (recordErr : option error)
    : M (list SavedReceipt * option error * option (list string)) :=
  match limit with
  | O => mret ([], recordErr, Some names)
  | S limit =>
      scanned ← attempt (sys (fun w => (Ok (), w)));
      match scanned, names with
      | Fail scanErr, _ => mret ([], Some scanErr, Some names)
      | Ok _, [] => mret ([], recordErr, None)
      | Ok _, name :: names =>
          r ← attempt (pending_name j name);
          match r with
          | Fail e => pending_scan j limit names (errors_join [recordErr; Some e])
          | Ok None => pending_scan j limit names recordErr
          | Ok (Some receipt) => mret ([receipt], recordErr, Some names)
          end
      end
  end.

(** [listing] is what the directory stream yields when it is opened here. *)
Definition PendingReceipts (j : Journal) (limit : Z) (listing : list string)
    : M (list SavedReceipt * option error * Journal) :=
  if (limit <? 1)%Z || (1000 <? limit)%Z then throw err_integrity
  else
    _ ← check j;
    names ← match j_scan j with
            | Some names => mret names
            | None => sys (fun w => (Ok listing, w))
            end;
    '(receipts, recordErr, rest) ← pending_scan j (Z.to_nat limit) names None;
    mret (receipts, recordErr,
          {| j_directory := j_directory j; j_identity := j_identity j; j_closed := j_closed j;
             j_scan := rest |}).

(** * journal.go *)

Definition Admit (j : Journal) (admission : Admission) : M unit :=
  _ ← lift (admission_validate admission);
  state ← loadStateLocked j (ad_OrgID admission) (ad_RequestID admission);
  match st_Admission state with
  | Some old =>
      let admission := {| ad_Version := ad_Version admission; ad_OrgID := ad_OrgID admission;
                          ad_RequestID := ad_RequestID admission;
                          ad_AuthorizationHash := ad_AuthorizationHash admission;
                          ad_Mode := ad_Mode admission; ad_Endpoint := ad_Endpoint admission;
                          ad_AdmittedAt := ad_AdmittedAt old |} in
      if json_print (admission_json old) <>s json_print (admission_json admission)
      then throw err_conflict else mret ()
  | None =>
      put j (journal_path j (ad_OrgID admission) (ad_RequestID admission) "admission")
        (admission_json admission)
  end.

Definition SaveReceipt (j : Journal) (receipt : SavedReceipt) : M unit :=
  state ← loadStateLocked j (sr_OrgID receipt) (sr_RequestID receipt);
  match st_Admission state with
  | None => throw err_integrity
  | Some admission =>
      _ ← lift (validateReceipt admission receipt);
      put j (journal_path j (sr_OrgID receipt) (sr_RequestID receipt) "receipt") (receipt_json receipt)
  end.

Definition Acknowledge (j : Journal) (org request : string) (application : bytes) : M unit :=
  state ← loadStateLocked j org request;
  match st_Receipt state with
  | None => throw err_integrity
  | Some receipt =>
      _ ← lift (validateApplication application request);
      put j (journal_path j org request "ack")
        (ack_json {| da_Version := 1; da_OrgID := org; da_RequestID := request;
                     da_ReceiptHash := digest (sr_Bytes receipt); da_Application := application |})
  end.

Definition known_of (x : ExecutionBinding) : executionKnown :=
  {| ek_Version := 1; ek_OrgID := ex_OrgID x; ek_RequestID := ex_RequestID x;
     ek_AuthorizationHash := ex_AuthorizationHash x;
     ek_BindingHash := digest (json_print (execution_json x)) |}.

Definition BindExecution (j : Journal) (execution : ExecutionBinding) : M unit :=
  state ← loadStateLocked j (ex_OrgID execution) (ex_RequestID execution);
  _ ← lift (validateExecution state execution);
  _ ← put j (journal_path j (ex_OrgID execution) (ex_RequestID execution) "execution-known")
        (known_json (known_of execution));
  put j (journal_path j (ex_OrgID execution) (ex_RequestID execution) "execution")
    (execution_json execution).
End JournalOps.
