(* ===== verification/JournalProofs.v ===== *)
(** Proofs about the approval journal: what its files say, that published evidence is
    permanent under faults and crashes, and that the journal refines an abstract one. *)
From stdpp Require Import base tactics option list strings numbers gmap relations.
From Stdlib Require Import ZArith Lia Ascii String.
From S2P Require Import Prelude GoText Sha256 Json StrictJson Externals Mpc2of3 ApprovalWire SigningPolicy FileSystem Publish Journal.

#[local] Open Scope string_scope.

(** * Publishing a record *)

Lemma publish_untouched w0 p raw : temporary p = false ->
  hoare (untouched w0) (publishJournalFile p raw) (publish_post w0 p (new_file w0 raw)).
Proof.
  intros Hp. unfold publishJournalFile.
  eapply hoare_bind; [by apply create_temp_spec| |intros e w; by apply untouched_post]. intros f w Hf.
  assert (Ht : temporary f = true) by apply Hf.
  eapply (hoare_defer (prepared_file w0 f (new_file w0 "") false) _ _ (publish_post w0 p (new_file w0 raw))); [| |done].
  - eapply hoare_defer; [by apply publish_body_spec|]. intros r w1 Hr.
    apply (published_safe w0 p Hp _ close); [apply safe_close| |done]. intros w2 q _. by apply (sys_keep (fun w => vis w !! q)).
  - intros r w1 Hr. apply (published_safe w0 p Hp _ (remove f)); [by apply safe_remove| |done].
    intros w2 q Hq. by apply remove_keeps.
Qed.

(** Publishing at a non-temporary path, whatever the faults: published files keep their
    contents, the path gets at most the complete new contents, and a nil result means
    the path was free and now durably has them. *)
Lemma publishJournalFile_spec p raw w :
  temporary p = false -> inv w ->
  publish_post w p (new_file w raw) (publishJournalFile p raw w).1 (publishJournalFile p raw w).2.
Proof. intros Hp Hi. apply publish_untouched; [done|]. split; [done|split; [reflexivity|done]]. Qed.

(** At a temporary path, as the startup probe uses it, publishing touches no file. *)
Lemma publish_hidden w0 p raw : temporary p = true ->
  hoare (untouched w0) (publishJournalFile p raw) (fun _ => untouched w0).
Proof.
  intros Hp. unfold publishJournalFile.
  eapply hoare_bind; [by apply create_temp_spec| |done]. intros f w Hf.
  assert (Ht : temporary f = true) by apply Hf.
  refine (hoare_defer _ _ _ (fun _ => untouched w0) (fun _ => untouched w0) _ _ w Hf).
  - apply (hoare_defer _ _ _ (fun _ => untouched w0)); [apply publish_body_prepared; [|done]|].
    + eapply hoare_bind; [by apply rename_hidden| |done]. intros [] w1 Hw.
      by apply untouched_safe; [apply safe_sync_dir|intros w2 q _; rewrite sync_dir_vis|].
    + intros r w1 Hr. by apply untouched_safe; [apply safe_close|intros w2 q _; apply (sys_keep (fun w => vis w !! q))|].
  - intros r w1 Hr. by apply untouched_safe; [apply safe_remove|intros w2 q Hq; apply remove_keeps|].
Qed.

Lemma safe_publishJournalFile p raw : safe (publishJournalFile p raw).
Proof.
  intros w Hw. destruct (temporary p) eqn:Hp.
  - destruct (publish_hidden w p raw Hp w (untouched_start w Hw)) as (?&?&_). done.
  - destruct (publishJournalFile_spec p raw w Hp Hw) as [(Hi & He & _) _]. done.
Qed.

(** * Every operation is safe *)

Lemma hex_digit_not_dot d : (d < 16)%N -> Ascii.eqb "." (hex_digit d) = false.
Proof.
  intros Hd. apply negb_true_iff.
  exact (forallb_below (fun d => negb (Ascii.eqb "." (hex_digit d))) 16 eq_refl d Hd).
Qed.

Lemma record_not_temporary j org request kind : temporary (journal_path j org request kind) = false.
Proof.
  unfold temporary, journal_path, record_name, recordKey, digest, sha256_hex. cbn [snd].
  pose proof (sha256_length (org +:+ String "000" request)) as Hl.
  destruct (sha256 _) as [|c s]; [done|]. cbn [hex_encode]. rewrite sapp_cons.
  assert (Hd : (code c / 16 < 16)%N) by (apply N.Div0.div_lt_upper_bound; pose proof (code_bound c); lia).
  apply hex_digit_not_dot in Hd.
  unfold temp_name, hidden, has_prefix. cbn [strip_prefix]. by rewrite Hd.
Qed.
#[export] Hint Resolve record_not_temporary : safe.

Section JournalSafety.
Context `{Externals} `{TxCodecs}.

Lemma safe_readJournalFile p : safe (readJournalFile p).
Proof. unfold readJournalFile. solve_safe. Qed.
Lemma looks_readJournalFile p : looks (readJournalFile p).
Proof. unfold readJournalFile. solve_looks. Qed.
#[local] Hint Resolve safe_readJournalFile looks_readJournalFile safe_publishJournalFile : safe.

Lemma safe_check j : safe (check j).
Proof. unfold check. solve_safe. Qed.
Lemma looks_check j : looks (check j).
Proof. unfold check. solve_looks. Qed.
#[local] Hint Resolve safe_check looks_check : safe.

Lemma safe_put j p v : temporary p = false -> safe (put j p v).
Proof. intros Hp. unfold put, publish. cbv zeta. solve_safe. Qed.
#[local] Hint Resolve safe_put : safe.

Lemma safe_read_record {A} j org request kind (decode : json -> option A) fields :
  safe (read j org request kind decode fields).
Proof. unfold read. solve_safe. Qed.
Lemma looks_read {A} j org request kind (decode : json -> option A) fields :
  looks (read j org request kind decode fields).
Proof. unfold read. solve_looks. Qed.
#[local] Hint Resolve safe_read_record looks_read : safe.

Lemma safe_loadStateLocked j org request : safe (loadStateLocked j org request).
Proof.
  unfold loadStateLocked, loadAdmission, loadReceipt, loadAcknowledgement, loadExecution. solve_safe.
Qed.
#[local] Hint Resolve safe_loadStateLocked : safe.

Lemma safe_Admit j a : safe (Admit j a).
Proof. unfold Admit. solve_safe. Qed.
Lemma safe_SaveReceipt j r : safe (SaveReceipt j r).
Proof. unfold SaveReceipt. solve_safe. Qed.
Lemma safe_Acknowledge j org request application : safe (Acknowledge j org request application).
Proof. unfold Acknowledge. solve_safe. Qed.
Lemma safe_BindExecution j x : safe (BindExecution j x).
Proof. unfold BindExecution. solve_safe. Qed.
Lemma safe_pending_scan j limit names recordErr : safe (pending_scan j limit names recordErr).
Proof.
  revert names recordErr. induction limit as [|limit IH]; intros; cbn [pending_scan]; [solve_safe|].
  unfold pending_name. solve_safe.
Qed.
Lemma safe_PendingReceipts j limit listing : safe (PendingReceipts j limit listing).
Proof. unfold PendingReceipts. pose proof safe_pending_scan. solve_safe. Qed.
End JournalSafety.
#[export] Hint Resolve safe_readJournalFile safe_check safe_put safe_read_record safe_loadStateLocked
  looks_readJournalFile looks_check looks_read : safe.

(** * What the results mean *)

(** The file [p] durably has the contents [raw]. *)
Definition durable (w : world) (p : path) (raw : bytes) : Prop :=
  exists f, dur w !! p = Some f /\ f_data f = raw.
(** The file [p] is visible with the contents [raw]. *)
Definition visible (w : world) (p : path) (raw : bytes) : Prop :=
  exists f, vis w !! p = Some f /\ f_data f = raw.

Lemma durable_evolves w w' p raw :
  temporary p = false -> evolves w w' -> durable w p raw -> durable w' p raw.
Proof. intros Hp (_ & He & _) (f & Hf & Hr). exists f. eauto. Qed.
Lemma durable_visible w p raw : temporary p = false -> inv w -> durable w p raw -> visible w p raw.
Proof. intros Hp [Hi _] (f & Hf & Hr). exists f. eauto. Qed.
Lemma visible_unique w p raw raw' : visible w p raw -> visible w p raw' -> raw = raw'.
Proof. intros (f & Hf & <-) (f' & Hf' & <-). congruence. Qed.
Lemma durable_unique w p raw raw' : durable w p raw -> durable w p raw' -> raw = raw'.
Proof. intros (f & Hf & <-) (f' & Hf' & <-). congruence. Qed.
Lemma visible_entries w w' p raw : entries w' = entries w -> visible w p raw -> visible w' p raw.
Proof. unfold entries, visible. intros [= -> _]. done. Qed.

(** Splits a successful run of a monadic program into its steps. *)
Ltac run_ok :=
  repeat match goal with
  | Hr : (_ ≫= _) _ = (Ok _, _) |- _ => apply bind_Ok_inv in Hr as (? & ? & ? & Hr)
  | Hr : mret _ _ = (Ok _, _) |- _ => unfold mret, M_ret in Hr; simplify_eq
  | Hr : throw _ _ = (Ok _, _) |- _ => discriminate Hr
  | Hr : lift _ _ = (Ok _, _) |- _ => unfold lift in Hr; injection Hr as Hr <-
  | Hr : attempt _ _ = (Ok _, _) |- _ => apply attempt_Ok_inv in Hr as (? & [= ->] & Hr)
  | Hr : (match ?x with _ => _ end) _ = (Ok _, _) |- _ => destruct x eqn:?; try discriminate Hr
  | Hr : (if ?x then _ else _) _ = (Ok _, _) |- _ => destruct x eqn:?; try discriminate Hr
  end.

Section JournalFacts.
Context `{Externals} `{TxCodecs}.

Lemma looks_entries {A} (m : M A) w r w' : looks m -> m w = (r, w') -> entries w' = entries w.
Proof. intros Hl Hm. specialize (Hl w). by rewrite Hm in Hl. Qed.

Lemma safe_run {A} (m : M A) w r w' : safe m -> m w = (r, w') -> inv w -> inv w' /\ evolves w w'.
Proof. intros Hs Hm Hw. specialize (Hs w Hw). by rewrite Hm in Hs. Qed.

Lemma readJournalFile_Ok p w raw w' :
  readJournalFile p w = (Ok raw, w') -> visible w p raw /\ entries w' = entries w.
Proof.
  intros Hr. split; [|exact (looks_entries _ _ _ _ (looks_readJournalFile p) Hr)].
  unfold readJournalFile in Hr. apply bind_Ok_inv in Hr as (f & w1 & H1 & Hr).
  apply sys_Ok in H1 as [s H1]. unfold with_sched in H1. cbn [vis] in H1.
  destruct (vis w !! p) as [f'|] eqn:Ef; [|done]. exists f'. split; [done|].
  assert (f' = f) as -> by (destruct (f_kind f'); congruence). run_ok.
  match goal with Hs : sys _ _ = (Ok _, _) |- _ => apply sys_Ok in Hs as [? [= ? ?]] end. done.
Qed.

Lemma publish_Ok j p raw w w' : temporary p = false -> inv w ->
  publish j p raw w = (Ok (), w') -> durable w' p raw.
Proof.
  intros Hp Hi Hr. unfold publish in Hr. run_ok.
  match goal with Hc : check _ _ = _ |- _ => apply (safe_run _ _ _ _ (safe_check j)) in Hc as [Hi1 _]; [|done] end.
  destruct (publishJournalFile_spec p raw x0 Hp Hi1) as [_ Hpost]. rewrite Hr in Hpost. cbn in Hpost.
  destruct (Hpost eq_refl) as (_ & _ & Hd). eexists. by split.
Qed.

(** A nil result of [put] means the record is durably there, whether this call or an
    earlier one wrote it. *)
Lemma put_Ok j p v w w' : temporary p = false -> p.1 = j_directory j -> inv w ->
  put j p v w = (Ok (), w') -> durable w' p (json_print v).
Proof.
  intros Hp Hd Hi Hr. unfold put in Hr. cbv zeta in Hr. run_ok.
  - match goal with u : unit |- _ => destruct u end. by eapply publish_Ok.
  - split_bools. subst.
    match goal with Hc : readJournalFile _ _ = _ |- _ => apply readJournalFile_Ok in Hc as [Hv Hent] end.
    apply (visible_entries _ _ _ _ Hent) in Hv as (f & Hf & Hraw).
    exists f. split; [|done]. by eapply sync_dir_Ok.
Qed.

Lemma read_Some {A} j org request kind (decode : json -> option A) fields w a w' :
  read j org request kind decode fields w = (Ok (Some a), w') ->
  entries w' = entries w /\ exists raw, visible w (journal_path j org request kind) raw
  /\ decodeRecord decode fields raw = Ok a.
Proof.
  intros Hr. split; [exact (looks_entries _ _ _ _ (looks_read _ _ _ _ _ _) Hr)|]. unfold read in Hr. run_ok.
  match goal with Hc : readJournalFile _ _ = _ |- _ => apply readJournalFile_Ok in Hc as [Hv _] end. eauto.
Qed.

Lemma read_entries {A} j org request kind (decode : json -> option A) fields w r w' :
  read j org request kind decode fields w = (r, w') -> entries w' = entries w.
Proof. apply looks_entries, looks_read. Qed.

(** The evidence behind a loaded state: every part is decoded from a file that [has]
    its contents, and rests on the parts before it. *)
Record evidence (has : path -> bytes -> Prop) (j : Journal) (org request : string) (st : State) : Prop := {
  ev_admission a : st_Admission st = Some a ->
    ad_OrgID a = org /\ ad_RequestID a = request /\ admission_validate a = Ok ()
    /\ exists raw, has (journal_path j org request "admission") raw
       /\ decodeRecord decode_admission admissionFields raw = Ok a;
  ev_receipt r : st_Receipt st = Some r -> exists a, st_Admission st = Some a
    /\ validateReceipt a r = Ok ()
    /\ exists raw, has (journal_path j org request "receipt") raw
       /\ decodeRecord decode_receipt receiptFields raw = Ok r;
  ev_application : st_Application st <> "" -> exists r, st_Receipt st = Some r
    /\ validateApplication (st_Application st) request = Ok ()
    /\ exists raw ack, has (journal_path j org request "ack") raw
       /\ decodeRecord decode_ack acknowledgementFields raw = Ok ack
       /\ da_Application ack = st_Application st /\ da_ReceiptHash ack = digest (sr_Bytes r);
  ev_execution x : st_Execution st = Some x ->
    validateExecution st x = Ok ()
    /\ exists raw, has (journal_path j org request "execution") raw
       /\ decodeRecord decode_execution executionFields raw = Ok x
    /\ exists kraw k, has (journal_path j org request "execution-known") kraw
       /\ decodeRecord decode_known executionKnownFields kraw = Ok k
       /\ ek_BindingHash k = digest raw;
}.

Lemma is_ok_unit (r : res unit) : is_ok r = true -> r = Ok ().
Proof. by destruct r as [[]|]. Qed.

Lemma loadAdmission_Ok j org request w r w' : loadAdmission j org request w = (Ok r, w') ->
  entries w' = entries w /\ forall a, r = Some a ->
  ad_OrgID a = org /\ ad_RequestID a = request /\ admission_validate a = Ok ()
  /\ exists raw, visible w (journal_path j org request "admission") raw
     /\ decodeRecord decode_admission admissionFields raw = Ok a.
Proof.
  unfold loadAdmission. intros Hr. run_ok.
  - match goal with Hc : read _ _ _ _ _ _ _ = _ |- _ => apply read_Some in Hc as (He & raw & Hv & Hd) end.
    split; [done|]. intros ? [= <-]. split_bools. split_and!; try done; [by apply is_ok_unit|eauto].
  - split; [by eapply read_entries|done].
Qed.

Lemma loadReceipt_Ok j org request adm w r w' : loadReceipt j org request adm w = (Ok r, w') ->
  entries w' = entries w /\ forall s, r = Some s -> exists a, adm = Some a /\ validateReceipt a s = Ok ()
  /\ exists raw, visible w (journal_path j org request "receipt") raw
     /\ decodeRecord decode_receipt receiptFields raw = Ok s.
Proof.
  unfold loadReceipt. intros Hr. run_ok.
  - match goal with Hc : read _ _ _ _ _ _ _ = _ |- _ => apply read_Some in Hc as (He & raw & Hv & Hd) end.
    split; [done|]. intros ? [= <-]. split_bools. eexists. split_and!; [done|by apply is_ok_unit|eauto].
  - split; [by eapply read_entries|done].
Qed.

Lemma loadAcknowledgement_Ok j org request rec w app w' :
  loadAcknowledgement j org request rec w = (Ok app, w') ->
  entries w' = entries w /\ (app <> "" -> exists r, rec = Some r /\ validateApplication app request = Ok ()
  /\ exists raw ack, visible w (journal_path j org request "ack") raw
     /\ decodeRecord decode_ack acknowledgementFields raw = Ok ack
     /\ da_Application ack = app /\ da_ReceiptHash ack = digest (sr_Bytes r)).
Proof.
  unfold loadAcknowledgement. intros Hr. run_ok.
  - match goal with Hc : read _ _ _ _ _ _ _ = _ |- _ => apply read_Some in Hc as (He & raw & Hv & Hd) end.
    split; [done|]. intros _. split_bools. match goal with u : unit |- _ => destruct u end.
    eexists. split_and!; [done|done|]. eexists _, _. split_and!; done.
  - split; [by eapply read_entries|done].
Qed.

Lemma validateExecution_state st st' x : st_Admission st = st_Admission st' ->
  st_Receipt st = st_Receipt st' -> st_Application st = st_Application st' ->
  validateExecution st x = validateExecution st' x.
Proof. unfold validateExecution. by intros -> -> ->. Qed.

Lemma loadExecution_Ok j org request st w r w' : loadExecution j org request st w = (Ok r, w') ->
  entries w' = entries w /\ forall x, r = Some x -> validateExecution st x = Ok ()
  /\ exists raw, visible w (journal_path j org request "execution") raw
     /\ decodeRecord decode_execution executionFields raw = Ok x
  /\ exists kraw k, visible w (journal_path j org request "execution-known") kraw
     /\ decodeRecord decode_known executionKnownFields kraw = Ok k /\ ek_BindingHash k = digest raw.
Proof.
  unfold loadExecution. intros Hr. run_ok.
  - repeat match goal with Hc : read _ _ _ _ _ _ _ = (Ok (Some _), _) |- _ =>
      apply read_Some in Hc as (? & ? & ? & ?) end.
    match goal with Hc : readJournalFile _ _ = _ |- _ => apply readJournalFile_Ok in Hc as [Hv Hent] end.
    split; [congruence|]. intros ? [= <-]. split_bools. match goal with u : unit |- _ => destruct u end.
    assert (Hx : visible x2 (journal_path j org request "execution") x1)
      by (eapply (visible_entries w); [congruence|done]).
    rewrite (visible_unique _ _ _ _ Hv Hx) in *. split; [done|]. exists x1. split_and!; [done..|].
    exists x, e0. split_and!; [|done..]. by eapply visible_entries; [symmetry|].
  - split; [|done]. repeat match goal with Hc : read _ _ _ _ _ _ _ = _ |- _ => apply read_entries in Hc end.
    congruence.
Qed.

Lemma evidence_mono (has has' : path -> bytes -> Prop) j org request st :
  (forall kind raw, has (journal_path j org request kind) raw -> has' (journal_path j org request kind) raw) ->
  evidence has j org request st -> evidence has' j org request st.
Proof.
  intros Hm [H1 H2 H3 H4]. constructor.
  - intros a Ha. destruct (H1 a Ha) as (? & ? & ? & raw & Hv & ?). eauto 10.
  - intros r Hr. destruct (H2 r Hr) as (a & ? & ? & raw & Hv & ?). eauto 10.
  - intros Hne. destruct (H3 Hne) as (r & ? & ? & raw & ack & Hv & ? & ? & ?). eauto 12.
  - intros x Hx. destruct (H4 x Hx) as (? & raw & Hv & ? & kraw & k & Hkv & ? & ?).
    split; [done|]. exists raw. split_and!; [auto|done|]. exists kraw, k. auto.
Qed.

(** The reads of a load change no entry and are followed by a directory flush. *)
Lemma loadStateLocked_parts j org request w st w' :
  loadStateLocked j org request w = (Ok st, w') ->
  evidence (visible w) j org request st
  /\ exists wl, entries wl = entries w /\ sync_dir (j_directory j) wl = (Ok (), w').
Proof.
  unfold loadStateLocked. intros Hr. destruct (_ || _); [discriminate Hr|]. run_ok.
  match goal with
    H0 : check _ _ = _, H1 : loadAdmission _ _ _ _ = _, H2 : loadReceipt _ _ _ _ _ = _,
    H3 : loadAcknowledgement _ _ _ _ _ = _, H4 : loadExecution _ _ _ _ _ = _ |- _ =>
    apply (looks_entries _ _ _ _ (looks_check j)) in H0;
    apply loadAdmission_Ok in H1 as [Ea Ha]; apply loadReceipt_Ok in H2 as [Er Hrc];
    apply loadAcknowledgement_Ok in H3 as [Ek Hk]; apply loadExecution_Ok in H4 as [Ex Hx] end.
  match goal with Hs : sync_dir _ ?w1 = (Ok ?u, _) |- _ => destruct u; rename w1 into wl end.
  split; [|exists wl; split; [congruence|done]].
  assert (Hvis : forall w1 p raw, entries w1 = entries w -> visible w1 p raw -> visible w p raw)
    by (intros w1 p raw He; apply visible_entries; by symmetry).
  constructor; cbn [st_Admission st_Receipt st_Application st_Execution].
  - intros a Hsome. destruct (Ha a Hsome) as (? & ? & ? & raw & Hv & ?). split_and!; try done.
    exists raw. split; [|done]. eapply Hvis; [|exact Hv]. congruence.
  - intros r Hsome. destruct (Hrc r Hsome) as (a & ? & ? & raw & Hv & ?). exists a. split_and!; try done.
    exists raw. split; [|done]. eapply Hvis; [|exact Hv]. congruence.
  - intros Hne. destruct (Hk Hne) as (r & ? & ? & raw & ack & Hv & ? & ? & ?). exists r. split_and!; try done.
    exists raw, ack. split_and!; try done. eapply Hvis; [|exact Hv]. congruence.
  - intros x' Hsome. destruct (Hx x' Hsome) as (? & raw & Hv & ? & kraw & k & Hkv & ? & ?).
    split; [done|]. exists raw. split; [eapply Hvis; [|exact Hv]; congruence|]. split; [done|].
    exists kraw, k. split_and!; try done. eapply Hvis; [|exact Hkv]. congruence.
Qed.

Lemma loadStateLocked_evidence j org request w st w' :
  loadStateLocked j org request w = (Ok st, w') -> evidence (durable w') j org request st.
Proof.
  intros Hr. apply loadStateLocked_parts in Hr as (Hev & wl & He & Hs).
  eapply evidence_mono; [|exact Hev]. intros kind raw (f & Hf & Hd). exists f. split; [|done].
  eapply sync_dir_Ok; [exact Hs|done|]. unfold entries in He. by simplify_eq; rewrite ?H2 in *; congruence.
Qed.
End JournalFacts.

(** * Records round-trip *)

Lemma decodeRecord_print {A} (decode : json -> option A) fields l a :
  json_wf (JObj l) = true -> acceptable (fun _ => true) (JObj l) -> decode (JObj l) = Some a ->
  map fst l = fields -> decodeRecord decode fields (json_print (JObj l)) = Ok a.
Proof.
  intros Hwf Hacc Hd Hk. unfold decodeRecord.
  rewrite (DecodeClosed_print decode _ _ Hwf Hacc Hd). unfold object_keys.
  rewrite (json_parse_print _ Hwf), Hk. rewrite size_list_to_set.
  - rewrite Nat.eqb_refl. cbn [andb].
    assert (forallb (fun k => bool_decide (k ∈ (list_to_set fields : gset string))) fields = true) as ->; [|done].
    apply forallb_forall. intros k Hin. apply bool_decide_eq_true, elem_of_list_to_set. by apply list_elem_of_In.
  - rewrite <- Hk. by eapply acceptable_keys.
Qed.

(** Closes the round trip of a record whose version is 1 and whose strings are UTF-8. *)
Ltac record_roundtrip decode eta :=
  apply decodeRecord_print;
  [ cbn [json_wf forallb fst snd jbytes jint jopt]; repeat match goal with |- _ && _ = true => apply andb_true_iff; split end;
    lazymatch goal with
    | E : ?a |- ?a => exact E
    | |- utf8_valid (b64_encode _ _) = true => apply b64_utf8
    | _ => vm_compute; reflexivity
    end
  | apply acceptableb_spec; vm_compute; reflexivity
  | unfold decode; apply decode_obj;
    repeat (eapply assign_cons; [reflexivity|first [apply set_bytes_encode|reflexivity]|]); exact eta
  | reflexivity ].

Abbreviation utf8s := (Forall (fun s => utf8_valid s = true)).

Lemma execution_roundtrip x :
  ex_Version x = 1%Z ->
  utf8s [ex_OrgID x; ex_RequestID x; ex_OutgoingID x; ex_AuthorizationHash x; ex_ExecutionDigest x;
         ex_PayloadType x; ex_HashAlgorithm x] ->
  decodeRecord decode_execution executionFields (json_print (execution_json x)) = Ok x.
Proof.
  intros Hv Hs. rewrite !Forall_cons in Hs. destruct_and! Hs.
  assert (Heta : Some (Build_ExecutionBinding 1 (ex_OrgID x) (ex_RequestID x) (ex_OutgoingID x) (ex_AuthorizationHash x) (ex_ExecutionDigest x) (ex_PayloadType x) (ex_HashAlgorithm x)) = Some x)
    by (clear - Hv; destruct x; cbn in Hv; by subst).
  unfold execution_json. rewrite Hv. record_roundtrip decode_execution Heta.
Qed.

Lemma known_roundtrip k :
  ek_Version k = 1%Z -> utf8s [ek_OrgID k; ek_RequestID k; ek_AuthorizationHash k; ek_BindingHash k] ->
  decodeRecord decode_known executionKnownFields (json_print (known_json k)) = Ok k.
Proof.
  intros Hv Hs. rewrite !Forall_cons in Hs. destruct_and! Hs.
  assert (Heta : Some (Build_executionKnown 1 (ek_OrgID k) (ek_RequestID k) (ek_AuthorizationHash k) (ek_BindingHash k)) = Some k)
    by (clear - Hv; destruct k; cbn in Hv; by subst).
  unfold known_json. rewrite Hv. record_roundtrip decode_known Heta.
Qed.

Lemma ack_roundtrip a :
  da_Version a = 1%Z -> utf8s [da_OrgID a; da_RequestID a; da_ReceiptHash a] ->
  decodeRecord decode_ack acknowledgementFields (json_print (ack_json a)) = Ok a.
Proof.
  intros Hv Hs. rewrite !Forall_cons in Hs. destruct_and! Hs.
  assert (Heta : Some (Build_deliveryAck 1 (da_OrgID a) (da_RequestID a) (da_ReceiptHash a) (da_Application a)) = Some a)
    by (clear - Hv; destruct a; cbn in Hv; by subst).
  unfold ack_json. rewrite Hv. record_roundtrip decode_ack Heta.
Qed.

Lemma receipt_roundtrip r :
  sr_Version r = 1%Z ->
  utf8s [sr_OrgID r; sr_RequestID r; sr_AuthorizationHash r; sr_SigningKeyID r] ->
  decodeRecord decode_receipt receiptFields (json_print (receipt_json r)) = Ok r.
Proof.
  intros Hv Hs. rewrite !Forall_cons in Hs. destruct_and! Hs.
  assert (Heta : Some (Build_SavedReceipt 1 (sr_OrgID r) (sr_RequestID r) (sr_AuthorizationHash r) (sr_SigningKeyID r) (sr_PublicKey r) (sr_Bytes r)) = Some r)
    by (clear - Hv; destruct r; cbn in Hv; by subst).
  unfold receipt_json. rewrite Hv. record_roundtrip decode_receipt Heta.
Qed.

Lemma admission_roundtrip a :
  ad_Version a = 1%Z ->
  utf8s [ad_OrgID a; ad_RequestID a; ad_AuthorizationHash a; ad_Mode a; ad_AdmittedAt a] ->
  (forall e, ad_Endpoint a = Some e -> utf8_valid e = true) ->
  decodeRecord decode_admission admissionFields (json_print (admission_json a)) = Ok a.
Proof.
  intros Hv Hs He. rewrite !Forall_cons in Hs. destruct_and! Hs.
  assert (Heta : Some (Build_Admission 1 (ad_OrgID a) (ad_RequestID a) (ad_AuthorizationHash a) (ad_Mode a)
                         (ad_Endpoint a) (ad_AdmittedAt a)) = Some a)
    by (clear - Hv; destruct a; cbn in Hv; by subst).
  unfold admission_json. rewrite Hv. destruct (ad_Endpoint a) as [e|]; cbn [jopt];
    [specialize (He e eq_refl)|clear He]; record_roundtrip decode_admission Heta.
Qed.

(** * Validated strings are UTF-8, so that records keep them exactly *)

Lemma bounded_utf8 s n : bounded s n = true -> utf8_valid s = true.
Proof. unfold bounded. intros Hb. by split_bools. Qed.

Lemma hex_utf8 s : utf8_valid (hex_encode s) = true.
Proof.
  apply ascii_utf8. induction s as [|c s IH]; [done|]. cbn [hex_encode str_forall]. rewrite IH, andb_true_r.
  assert (Hd : forall d, (d < 16)%N -> (code (hex_digit d) <? 128)%N = true)
    by (intros d Hd; exact (forallb_below (fun d => (code (hex_digit d) <? 128)%N) 16 eq_refl d Hd)).
  rewrite !Hd; [done|apply N.mod_lt; lia|apply N.Div0.div_lt_upper_bound; pose proof (code_bound c); lia].
Qed.

(** [s] is some ASCII text followed by [r]. *)
Definition ascii_then (s r : string) : Prop :=
  exists pre, s = pre +:+ r /\ str_forall (fun c => (code c <? 128)%N) pre = true.

Lemma str_forall_app p s t : str_forall p (s +:+ t) = str_forall p s && str_forall p t.
Proof.
  induction s as [|c s IH]; [done|]. rewrite sapp_cons. cbn. by rewrite IH, andb_assoc.
Qed.

Lemma ascii_then_trans s t r : ascii_then s t -> ascii_then t r -> ascii_then s r.
Proof.
  intros (a & -> & Ha) (b & -> & Hb). exists (a +:+ b). rewrite sapp_assoc. split; [done|].
  by rewrite str_forall_app, Ha, Hb.
Qed.

Lemma run_of_ascii p n s r : (forall c, p c = true -> (code c <? 128)%N = true) ->
  run_of p n s = Some r -> ascii_then s r.
Proof.
  intros Hp. revert s. induction n as [|n IH]; intros s Hr; cbn in Hr.
  { injection Hr as <-. exists "". by rewrite sapp_nil. }
  destruct s as [|c s]; [done|]. destruct (p c) eqn:Ec; [|done].
  apply IH in Hr as (pre & -> & Hpre). exists (String c pre). rewrite sapp_cons. split; [done|]. cbn.
  by rewrite Hp, Hpre.
Qed.

Lemma strip_prefix_ascii q s r : str_forall (fun c => (code c <? 128)%N) q = true ->
  strip_prefix q s = Some r -> ascii_then s r.
Proof.
  intros Hq. exists q. split; [|done]. clear Hq. revert s H. induction q as [|c q IH]; intros s Hs; cbn in Hs.
  { injection Hs as <-. by rewrite sapp_nil. }
  destruct s as [|d s]; [done|]. destruct (Ascii.eqb_spec c d); [subst|done]. rewrite sapp_cons. f_equal. auto.
Qed.

Lemma digit_ascii c : is_digit c = true -> (code c <? 128)%N = true.
Proof. unfold is_digit, in_range. intros Hc. split_bools_N. apply N.ltb_lt. lia. Qed.
Lemma lower_hex_ascii c : lower_hex c = true -> (code c <? 128)%N = true.
Proof.
  unfold lower_hex, in_range. intros Hc. apply orb_true_iff in Hc as [Hc|Hc]; split_bools_N; apply N.ltb_lt; lia.
Qed.

Lemma ascii_then_utf8 s r : ascii_then s r -> str_forall (fun c => (code c <? 128)%N) r = true -> utf8_valid s = true.
Proof. intros (pre & -> & Hp) Hr. apply ascii_utf8. by rewrite str_forall_app, Hp, Hr. Qed.

Lemma hex256_utf8 s : hex256 s = true -> utf8_valid s = true.
Proof.
  unfold hex256. intros Hs. destruct (run_of _ _ _) as [r|] eqn:Er; [|done]. split_bools. subst.
  by eapply ascii_then_utf8; [eapply run_of_ascii; [apply lower_hex_ascii|done]|].
Qed.

Lemma two_ascii s n r : two s = Some (n, r) -> ascii_then s r.
Proof.
  unfold two. destruct (run_of _ _ _) as [r'|] eqn:Er; [|done]. cbn.
  destruct (parse_digits _); [|done]. cbn. intros [= _ <-]. by eapply run_of_ascii; [apply digit_ascii|].
Qed.

Lemma timestamp_utf8 s : timestamp s = true -> utf8_valid s = true.
Proof.
  unfold timestamp, parse_millis. intros Ht.
  destruct (timestampPattern s) as [fields|] eqn:E; [|done]. clear Ht. unfold timestampPattern in E.
  repeat match type of E with
  | (?m ≫= _) = Some _ => destruct m as [?|] eqn:?; cbn [mbind option_bind] in E; [|discriminate E]
  | (let '(_, _) := ?x in _) = Some _ => destruct x
  end.
  destruct (_ =s "Z") eqn:Ez; [|done]. split_bools. subst.
  repeat match goal with
  | Hr : run_of is_digit _ _ = Some _ |- _ => apply (run_of_ascii _ _ _ _ digit_ascii) in Hr
  | Hr : strip_prefix _ _ = Some _ |- _ => apply strip_prefix_ascii in Hr; [|done]
  | Hr : two _ = Some _ |- _ => apply two_ascii in Hr
  end.
  eapply (ascii_then_utf8 _ "Z"); [|done]. eauto 20 using ascii_then_trans.
Qed.

(** * The abstract journal *)

Section Refinement.
Context `{Externals} `{TxCodecs}.

Lemma readJournalFile_absent p w e w' :
  readJournalFile p w = (Fail e, w') -> errors_is e ErrNotExist = true -> vis w !! p = None.
Proof.
  unfold readJournalFile. intros Hr Hn. unfold mbind, M_bind in Hr.
  destruct (open_nofollow p w) as [[f|e1] w1] eqn:Eo.
  - exfalso. clear Eo. destruct (get_euid w1) as [[uid|e2] w2] eqn:Eu; [|discriminate Eu].
    destruct (sys _ w2) as [[[]|e3] w3] eqn:Es.
    2: { injection Hr as <- _. apply sys_Fail in Es as [[msg ->]|[s [=]]]. done. }
    clear Es. destruct (_ || _).
    { unfold throw in Hr. injection Hr as <- _. done. }
    unfold attempt in Hr. destruct (sys _ w3) as [[b|e4] w4] eqn:Es.
    + destruct (_ <? _)%Z; [injection Hr as <- _; done|]. unfold fsync in Hr.
      destruct (sys _ w4) as [[[]|e5] w5] eqn:Ef; [discriminate Hr|].
      injection Hr as <- _. apply sys_Fail in Ef as [[msg ->]|[s [=]]]. done.
    + injection Hr as <- _. apply sys_Fail in Es as [[msg ->]|[s [=]]]. done.
  - injection Hr as <- _. unfold open_nofollow in Eo. apply sys_Fail in Eo as [[msg ->]|[s Ho]]; [done|].
    cbn [vis with_sched] in Ho. destruct (vis w !! p) as [f|]; [|done].
    destruct (f_kind f); try discriminate Ho. injection Ho as <- _. done.
Qed.

Lemma read_None {A} j org request kind (decode : json -> option A) fields w w' :
  read j org request kind decode fields w = (Ok None, w') ->
  entries w' = entries w /\ vis w !! journal_path j org request kind = None.
Proof.
  intros Hr. split; [by eapply read_entries|]. unfold read in Hr. run_ok.
  by eapply readJournalFile_absent.
Qed.

(** The files of a request say that its state is [st]. *)
Record represents (j : Journal) (org request : string) (w : world) (st : State) : Prop := {
  rep_refs : ValidReference org = true /\ ValidReference request = true;
  rep_evidence : evidence (visible w) j org request st;
  rep_admission : st_Admission st = None -> vis w !! journal_path j org request "admission" = None;
  rep_receipt : st_Receipt st = None -> vis w !! journal_path j org request "receipt" = None;
  rep_application : st_Application st = "" -> vis w !! journal_path j org request "ack" = None;
  rep_execution : st_Execution st = None ->
    vis w !! journal_path j org request "execution" = None
    /\ vis w !! journal_path j org request "execution-known" = None;
}.

Lemma loadAdmission_None j org request w w' : loadAdmission j org request w = (Ok None, w') ->
  vis w !! journal_path j org request "admission" = None.
Proof. unfold loadAdmission. intros Hr. run_ok. by eapply read_None. Qed.
Lemma loadReceipt_None j org request adm w w' : loadReceipt j org request adm w = (Ok None, w') ->
  vis w !! journal_path j org request "receipt" = None.
Proof. unfold loadReceipt. intros Hr. run_ok. by eapply read_None. Qed.
Lemma loadAcknowledgement_None j org request rec w w' :
  loadAcknowledgement j org request rec w = (Ok "", w') -> vis w !! journal_path j org request "ack" = None.
Proof.
  unfold loadAcknowledgement. intros Hr. run_ok; [|by eapply read_None].
  exfalso. match goal with Hv : validateApplication _ _ = Ok _, Ha : da_Application _ = "" |- _ =>
    rewrite Ha in Hv; by vm_compute in Hv end.
Qed.
Lemma loadExecution_None j org request st w w' : loadExecution j org request st w = (Ok None, w') ->
  vis w !! journal_path j org request "execution" = None
  /\ vis w !! journal_path j org request "execution-known" = None.
Proof.
  unfold loadExecution. intros Hr. run_ok.
  repeat match goal with Hc : read _ _ _ _ _ _ _ = _ |- _ => apply read_None in Hc as [? ?] end.
  split; [done|]. unfold entries in *. congruence.
Qed.

(** A loaded state is the one the files represent, and they are durable. *)
Lemma loadStateLocked_represents j org request w st w' :
  loadStateLocked j org request w = (Ok st, w') ->
  represents j org request w st /\ vis w' = vis w /\ evidence (durable w') j org request st.
Proof.
  intros Hr. pose proof (loadStateLocked_evidence _ _ _ _ _ _ Hr) as Hev.
  pose proof (loadStateLocked_parts _ _ _ _ _ _ Hr) as (Hvis & wl & He & Hs).
  pose proof (sync_dir_vis (j_directory j) wl) as Hsv. rewrite Hs in Hsv. cbn in Hsv.
  assert (Hw : vis w' = vis w) by (unfold entries in He; congruence).
  clear Hs Hsv He wl. split; [|done].
  unfold loadStateLocked in Hr. destruct (_ || _) eqn:Erefs; [discriminate Hr|]. split_bools. run_ok.
  match goal with
    H0 : check _ _ = _, H1 : loadAdmission _ _ _ _ = (Ok ?a, _), H2 : loadReceipt _ _ _ _ _ = (Ok ?r, _),
    H3 : loadAcknowledgement _ _ _ _ _ = (Ok ?k, _), H4 : loadExecution _ _ _ _ _ = (Ok ?e, _) |- _ =>
    pose proof (loadAdmission_Ok _ _ _ _ _ _ H1) as [Ea _]; pose proof (loadReceipt_Ok _ _ _ _ _ _ _ H2) as [Er _];
    pose proof (loadAcknowledgement_Ok _ _ _ _ _ _ _ H3) as [Ek _];
    pose proof (looks_entries _ _ _ _ (looks_check j) H0) as Ec;
    assert (Na : a = None -> _) by (intros ->; exact (loadAdmission_None _ _ _ _ _ H1));
    assert (Nr : r = None -> _) by (intros ->; exact (loadReceipt_None _ _ _ _ _ _ H2));
    assert (Nk : k = "" -> _) by (intros ->; exact (loadAcknowledgement_None _ _ _ _ _ _ H3));
    assert (Nx : e = None -> _) by (intros ->; exact (loadExecution_None _ _ _ _ _ _ H4)) end.
  unfold entries in *. constructor; cbn [st_Admission st_Receipt st_Application st_Execution]; try done.
  - intros Hn. specialize (Na Hn). congruence.
  - intros Hn. specialize (Nr Hn). congruence.
  - intros Hn. specialize (Nk Hn). congruence.
  - intros Hn. destruct (Nx Hn). split; congruence.
Qed.

(** The state that files represent is determined. *)
Lemma represents_functional j org request w st st' :
  represents j org request w st -> represents j org request w st' -> st = st'.
Proof.
  intros [_ [A1 R1 K1 X1] NA NR NK NX] [_ [A2 R2 K2 X2] NA' NR' NK' NX'].
  assert (Hclash : forall p raw, visible w p raw -> vis w !! p = None -> False) by (intros p raw (f & Hf & _); congruence).
  destruct st as [a r k x], st' as [a' r' k' x']. cbn [st_Admission st_Receipt st_Application st_Execution] in *.
  f_equal.
  - destruct a as [a|], a' as [a'|]; [| | |done].
    + destruct (A1 a eq_refl) as (_ & _ & _ & raw & Hv & Hd). destruct (A2 a' eq_refl) as (_ & _ & _ & raw' & Hv' & Hd').
      rewrite (visible_unique _ _ _ _ Hv Hv') in Hd. congruence.
    + destruct (A1 a eq_refl) as (_ & _ & _ & raw & Hv & _). exfalso. eauto.
    + destruct (A2 a' eq_refl) as (_ & _ & _ & raw & Hv & _). exfalso. eauto.
  - destruct r as [r|], r' as [r'|]; [| | |done].
    + destruct (R1 r eq_refl) as (_ & _ & _ & raw & Hv & Hd). destruct (R2 r' eq_refl) as (_ & _ & _ & raw' & Hv' & Hd').
      rewrite (visible_unique _ _ _ _ Hv Hv') in Hd. congruence.
    + destruct (R1 r eq_refl) as (_ & _ & _ & raw & Hv & _). exfalso. eauto.
    + destruct (R2 r' eq_refl) as (_ & _ & _ & raw & Hv & _). exfalso. eauto.
  - destruct (decide (k = "")) as [->|Hk], (decide (k' = "")) as [->|Hk']; [done|..].
    + destruct (K2 Hk') as (_ & _ & _ & raw & ack & Hv & _). exfalso. eauto.
    + destruct (K1 Hk) as (_ & _ & _ & raw & ack & Hv & _). exfalso. eauto.
    + destruct (K1 Hk) as (_ & _ & _ & raw & ack & Hv & Hd & <- & _).
      destruct (K2 Hk') as (_ & _ & _ & raw' & ack' & Hv' & Hd' & <- & _).
      rewrite (visible_unique _ _ _ _ Hv Hv') in Hd. congruence.
  - destruct x as [x|], x' as [x'|]; [| | |done].
    + destruct (X1 x eq_refl) as (_ & raw & Hv & Hd & _). destruct (X2 x' eq_refl) as (_ & raw' & Hv' & Hd' & _).
      rewrite (visible_unique _ _ _ _ Hv Hv') in Hd. congruence.
    + destruct (X1 x eq_refl) as (_ & raw & Hv & _). exfalso. eapply Hclash; [done|by apply NX'].
    + destruct (X2 x' eq_refl) as (_ & raw & Hv & _). exfalso. eapply Hclash; [done|by apply NX].
Qed.

(** * Operations as steps of an abstract journal *)

Inductive jop :=
  | OpAdmit (a : Admission)
  | OpReceipt (r : SavedReceipt)
  | OpAck (org request : string) (application : bytes)
  | OpBind (x : ExecutionBinding).

Definition jop_run (j : Journal) (o : jop) : M unit :=
  match o with
  | OpAdmit a => Admit j a
  | OpReceipt r => SaveReceipt j r
  | OpAck org request application => Acknowledge j org request application
  | OpBind x => BindExecution j x
  end.
Definition jop_key (o : jop) : string * string :=
  match o with
  | OpAdmit a => (ad_OrgID a, ad_RequestID a)
  | OpReceipt r => (sr_OrgID r, sr_RequestID r)
  | OpAck org request _ => (org, request)
  | OpBind x => (ex_OrgID x, ex_RequestID x)
  end.

(** The abstract journal accepts evidence in order, never replaces any, and treats an
    equal repetition as done. *)
Definition same_terms (a old : Admission) : Prop :=
  ad_Version a = ad_Version old /\ ad_OrgID a = ad_OrgID old /\ ad_RequestID a = ad_RequestID old
  /\ ad_AuthorizationHash a = ad_AuthorizationHash old /\ ad_Mode a = ad_Mode old
  /\ ad_Endpoint a = ad_Endpoint old.
Definition enabled (o : jop) (st : State) : Prop :=
  match o with
  | OpAdmit a => admission_validate a = Ok ()
      /\ forall old, st_Admission st = Some old -> same_terms a old
  | OpReceipt r => (exists a, st_Admission st = Some a /\ validateReceipt a r = Ok ())
      /\ (st_Receipt st = None \/ st_Receipt st = Some r)
  | OpAck _ request application => is_Some (st_Receipt st)
      /\ validateApplication application request = Ok ()
      /\ (st_Application st = "" \/ st_Application st = application)
  | OpBind x => validateExecution st x = Ok ()
      /\ (st_Execution st = None \/ st_Execution st = Some x)
  end.
Definition effect (o : jop) (st : State) : State :=
  match o with
  | OpAdmit a =>
      match st_Admission st with
      | Some _ => st
      | None => {| st_Admission := Some a; st_Receipt := st_Receipt st;
                   st_Application := st_Application st; st_Execution := st_Execution st |}
      end
  | OpReceipt r => {| st_Admission := st_Admission st; st_Receipt := Some r;
                      st_Application := st_Application st; st_Execution := st_Execution st |}
  | OpAck _ _ application => {| st_Admission := st_Admission st; st_Receipt := st_Receipt st;
                                st_Application := application; st_Execution := st_Execution st |}
  | OpBind x => {| st_Admission := st_Admission st; st_Receipt := st_Receipt st;
                   st_Application := st_Application st; st_Execution := Some x |}
  end.

Lemma journal_path_kind j org request k k' :
  journal_path j org request k = journal_path j org request k' -> k = k'.
Proof.
  unfold journal_path, record_name. intros [= E]. apply sapp_inj_len in E as [_ E]; [|done].
  apply sapp_inj_len in E as [_ E]; [|done]. by apply sapp_inj_r in E.
Qed.

(** Publishing touches one name, and only if it was free. *)
Lemma publish_frame j p raw w r w' : temporary p = false -> inv w -> publish j p raw w = (r, w') ->
  (forall q, temporary q = false -> q <> p -> vis w' !! q = vis w !! q)
  /\ (vis w !! p = None \/ r <> Ok () /\ vis w' !! p = vis w !! p).
Proof.
  intros Hp Hi Hr. unfold publish, mbind, M_bind in Hr. destruct (check j w) as [[[]|ec] w1] eqn:Ec;
    pose proof (looks_entries _ _ _ _ (looks_check j) Ec) as Hent;
    assert (Hvw : vis w1 = vis w) by (unfold entries in Hent; congruence).
  - pose proof (safe_run _ _ _ _ (safe_check j) Ec Hi) as [Hi1 _].
    destruct (publishJournalFile_spec p raw w1 Hp Hi1) as [(_ & _ & Hq & Hor) Hok].
    rewrite Hr, Hvw in *. cbn in *. split; [done|]. destruct Hor as [Hor|[Hor _]]; [|by left].
    destruct r as [[]|]; [left; by apply Hok|right; done].
  - injection Hr as <- <-. rewrite Hvw. split; [done|]. right. done.
Qed.

(** Everything a nil result of [put] means. *)
Lemma put_post j p v w w' : temporary p = false -> p.1 = j_directory j -> inv w ->
  put j p v w = (Ok (), w') ->
  durable w' p (json_print v) /\ inv w' /\ evolves w w'
  /\ (forall q, temporary q = false -> q <> p -> vis w' !! q = vis w !! q)
  /\ (vis w !! p = None \/ visible w p (json_print v)).
Proof.
  intros Hp Hd Hi Hr. split; [by eapply put_Ok|].
  destruct (safe_run _ _ _ _ (safe_put j p v Hp) Hr Hi) as [Hi' He']. split; [done|split; [done|]].
  unfold put in Hr. cbv zeta in Hr. run_ok;
    match goal with Hpb : publish _ _ _ _ = _ |- _ =>
      apply (publish_frame _ _ _ _ _ _ Hp Hi) in Hpb as [Hq Hor] end.
  - split; [done|]. left. destruct Hor as [|[Hne _]]; [done|]. destruct Hne.
    by repeat match goal with u : unit |- _ => destruct u end.
  - match goal with Hc : readJournalFile _ _ = _ |- _ => apply readJournalFile_Ok in Hc as [Hv Hent] end.
    match goal with Hs : sync_dir ?d ?w1 = _ |- _ => pose proof (sync_dir_vis d w1) as Hsv; rewrite Hs in Hsv; cbn in Hsv end.
    assert (Hvis : vis w' = vis x0) by (unfold entries in Hent; congruence).
    split; [by rewrite Hvis|]. destruct Hor as [Hn|[_ Hsame]]; [by left|right]. split_bools. subst.
    destruct Hv as (f & Hf & Hraw). exists f. rewrite <- Hsame. done.
Qed.

(** Adding one file leaves the evidence of the other kinds as it was. *)
Lemma visible_frame j org request kind kind' w w' raw :
  (forall q, temporary q = false -> q <> journal_path j org request kind -> vis w' !! q = vis w !! q) ->
  kind' <> kind -> visible w (journal_path j org request kind') raw ->
  visible w' (journal_path j org request kind') raw.
Proof.
  intros Hq Hk (f & Hf & Hd). exists f. rewrite Hq; [done|apply record_not_temporary|].
  intros E. by apply journal_path_kind in E.
Qed.

Lemma absent_frame j org request kind kind' w w' :
  (forall q, temporary q = false -> q <> journal_path j org request kind -> vis w' !! q = vis w !! q) ->
  kind' <> kind -> vis w !! journal_path j org request kind' = None ->
  vis w' !! journal_path j org request kind' = None.
Proof.
  intros Hq Hk Hn. rewrite Hq; [done|apply record_not_temporary|]. intros E. by apply journal_path_kind in E.
Qed.

(** The strings of a validated record. *)
Lemma admission_utf8 a : admission_validate a = Ok () ->
  ad_Version a = 1%Z /\ ValidReference (ad_OrgID a) = true /\ ValidReference (ad_RequestID a) = true
  /\ utf8s [ad_OrgID a; ad_RequestID a; ad_AuthorizationHash a; ad_Mode a; ad_AdmittedAt a].
Proof.
  unfold admission_validate. intros Ha. destruct (_ || _) eqn:E; [done|]. split_bools.
  assert (Hm : utf8_valid (ad_Mode a) = true).
  { destruct (ad_Endpoint a); [destruct (_ && _) eqn:Em; [|done]; split_bools|destruct (_ =s _) eqn:Em; [|done]; split_bools];
      match goal with Hm : ad_Mode a = _ |- _ => rewrite Hm end; done. }
  split_and!; try done.
  repeat constructor; [by eapply bounded_utf8|by eapply bounded_utf8|by apply hex256_utf8|done|by apply timestamp_utf8].
Qed.

Lemma receipt_utf8 a r : admission_validate a = Ok () -> validateReceipt a r = Ok () ->
  sr_Version r = 1%Z /\ sr_OrgID r = ad_OrgID a /\ sr_RequestID r = ad_RequestID a
  /\ utf8s [sr_OrgID r; sr_RequestID r; sr_AuthorizationHash r; sr_SigningKeyID r].
Proof.
  intros Ha Hr. apply admission_utf8 in Ha as (_ & _ & _ & Hu). rewrite !Forall_cons in Hu. destruct_and! Hu.
  unfold validateReceipt in Hr. step_if Hr. split_bools. inv_ok.
  match goal with Hv : VerifyReceipt _ _ = Ok ?v |- _ => rename v into rc; rename Hv into Hver end.
  unfold VerifyReceipt in Hver. inv_ok.
  match goal with Hp : ParseReceipt _ = _ |- _ => apply ParseReceipt_Ok in Hp as [He _] end.
  apply ParseDecisionEnvelope_Ok in He as [(_ & _ & _ & _ & _ & _ & Hb) _].
  match goal with Hf : forallb _ _ = true |- _ => cbn in Hf end. split_bools.
  split_and!; try done. repeat constructor; try congruence. 
  match goal with Hk : str _ "signingKeyId" = _ |- _ => rewrite <- Hk end. by eapply bounded_utf8.
Qed.

Lemma ValidPayloadHash_cases payloadType alg : ValidPayloadHash payloadType alg = true ->
  payloadType = ethereumPayloadType /\ alg = ethereumHashAlgorithm
  \/ payloadType = tronPayloadType /\ alg = tronHashAlgorithm.
Proof.
  unfold ValidPayloadHash, protocolForPayload.
  destruct (payloadType =s ethereumPayloadType) eqn:E1; [|destruct (payloadType =s tronPayloadType) eqn:E2; [|done]];
    cbn [hashAlgorithm]; intros Ha; split_bools; auto.
Qed.

Lemma execution_utf8 st a x : st_Admission st = Some a -> admission_validate a = Ok () ->
  validateExecution st x = Ok () ->
  ex_Version x = 1%Z /\ ex_OrgID x = ad_OrgID a /\ ex_RequestID x = ad_RequestID a
  /\ utf8s [ex_OrgID x; ex_RequestID x; ex_OutgoingID x; ex_AuthorizationHash x; ex_ExecutionDigest x;
            ex_PayloadType x; ex_HashAlgorithm x].
Proof.
  intros Hst Ha Hx. apply admission_utf8 in Ha as (_ & _ & _ & Hu). rewrite !Forall_cons in Hu. destruct_and! Hu.
  unfold validateExecution in Hx. rewrite Hst in Hx. do 8 step_if Hx. split_bools.
  unfold validateDigest, ValidExecutionDigest in Hx. inv_ok.
  destruct (standardBase64 _ _) as [b|] eqn:Eb; [|done]. apply standardBase64_Ok in Eb as [Eb _].
  assert (Hp : utf8_valid (ex_PayloadType x) = true /\ utf8_valid (ex_HashAlgorithm x) = true).
  { match goal with Hv : ValidPayloadHash _ _ = true |- _ => apply ValidPayloadHash_cases in Hv as [[-> ->]|[-> ->]] end;
      split; reflexivity. }
  split_and!; try done. repeat constructor; try congruence; try tauto.
  - by eapply bounded_utf8.
  - rewrite <- Eb. apply b64_utf8.
Qed.
End Refinement.

Section RefinementSteps.
Context `{Externals} `{TxCodecs}.

Lemma represents_vis j org request w w' st :
  (forall kind, vis w' !! journal_path j org request kind = vis w !! journal_path j org request kind) ->
  represents j org request w st -> represents j org request w' st.
Proof.
  intros Hv [Hr He Ha Hrc Hk Hx]. constructor; rewrite ?Hv; auto.
  eapply evidence_mono; [|exact He]. intros kind raw (f & Hf & Hd). exists f. by rewrite Hv.
Qed.

(** What one successful write of a record of some kind gives. *)
Record wrote (j : Journal) (org request kind : string) (w w' : world) (raw : bytes) : Prop := {
  wr_new : visible w' (journal_path j org request kind) raw;
  wr_old : vis w !! journal_path j org request kind = None
           \/ visible w (journal_path j org request kind) raw;
  wr_frame kind' : kind' <> kind ->
    vis w' !! journal_path j org request kind' = vis w !! journal_path j org request kind';
  wr_same f : vis w !! journal_path j org request kind = Some f ->
    vis w' !! journal_path j org request kind = Some f;
}.

Lemma put_wrote j org request kind v w w' : inv w ->
  put j (journal_path j org request kind) v w = (Ok (), w') ->
  wrote j org request kind w w' (json_print v) /\ inv w'
  /\ durable w' (journal_path j org request kind) (json_print v).
Proof.
  intros Hi Hp. apply put_post in Hp as (Hd & Hi' & He & Hq & Hor); [|apply record_not_temporary|done|done].
  split; [|done]. constructor; [|done| |].
  - apply durable_visible; [apply record_not_temporary|done|done].
  - intros kind' Hk. apply Hq; [apply record_not_temporary|]. intros E. by apply journal_path_kind in E.
  - intros f Hf. apply He; [apply record_not_temporary|done].
Qed.

(** A record that was there already stays, and is the one written. *)
Lemma wrote_again j org request kind w w' raw raw0 st :
  wrote j org request kind w w' raw -> visible w (journal_path j org request kind) raw0 ->
  raw = raw0 /\ (represents j org request w st -> represents j org request w' st).
Proof.
  intros [Hn Ho Hf Hs] Hv. split.
  - destruct Ho as [Ho|Ho]; [destruct Hv as (f & Hf' & _); congruence|by eapply visible_unique].
  - apply represents_vis. intros kind'. destruct (decide (kind' = kind)) as [->|]; [|by apply Hf].
    destruct Hv as (f & Hf' & _). rewrite Hf'. auto.
Qed.

Lemma wrote_visible j org request kind w w' raw kind' raw' : wrote j org request kind w w' raw ->
  kind' <> kind -> visible w (journal_path j org request kind') raw' ->
  visible w' (journal_path j org request kind') raw'.
Proof. intros Hw Hk (f & Hf & Hd). exists f. by rewrite (wr_frame _ _ _ _ _ _ _ Hw). Qed.

Lemma step_receipt j w w' st a r :
  let org := sr_OrgID r in let request := sr_RequestID r in
  represents j org request w st -> st_Admission st = Some a -> validateReceipt a r = Ok () ->
  wrote j org request "receipt" w w' (json_print (receipt_json r)) ->
  (st_Receipt st = None \/ st_Receipt st = Some r)
  /\ represents j org request w' (effect (OpReceipt r) st).
Proof.
  intros org request Hrep Ha Hv Hw. pose proof (rep_evidence _ _ _ _ _ Hrep) as Hev.
  destruct (ev_admission _ _ _ _ _ Hev a Ha) as (Ho & Hq & Hval & _).
  destruct (receipt_utf8 a r Hval Hv) as (Hver & _ & _ & Hu).
  pose proof (receipt_roundtrip r Hver Hu) as Hrt.
  destruct (st_Receipt st) as [r0|] eqn:Er.
  - destruct (ev_receipt _ _ _ _ _ Hev r0 Er) as (_ & _ & _ & raw & Hraw & Hd).
    destruct (wrote_again _ _ _ _ _ _ _ _ st Hw Hraw) as [<- Hst]. assert (r0 = r) as -> by congruence.
    split; [by right|].
    assert (effect (OpReceipt r) st = st) as -> by (clear - Er; destruct st; cbn in Er; by subst). by apply Hst.
  - split; [by left|]. destruct Hrep as [Hrf He HA HR HK HX].
    assert (Happ : st_Application st = "").
    { destruct (decide (st_Application st = "")) as [|Hne]; [done|].
      destruct (ev_application _ _ _ _ _ Hev Hne) as (? & ? & _). congruence. }
    assert (Hex : st_Execution st = None).
    { destruct (st_Execution st) as [x|] eqn:Ex; [|done].
      destruct (ev_execution _ _ _ _ _ Hev x Ex) as [Hvx _]. unfold validateExecution in Hvx.
      rewrite Er in Hvx. by destruct (st_Admission st). }
    constructor; cbn [effect st_Admission st_Receipt st_Application st_Execution]; try done.
    + constructor; cbn [st_Admission st_Receipt st_Application st_Execution]; try congruence.
      * intros a' Ha'. destruct (ev_admission _ _ _ _ _ Hev a' Ha') as (? & ? & ? & raw & Hvis & ?).
        split_and!; try done. exists raw. split; [|done]. by eapply wrote_visible.
      * intros r' [= <-]. exists a. split_and!; try done. eexists. split; [by apply (wr_new _ _ _ _ _ _ _ Hw)|done].
    + congruence.
    + intros _. rewrite (wr_frame _ _ _ _ _ _ _ Hw) by done. auto.
    + intros _. rewrite !(wr_frame _ _ _ _ _ _ _ Hw) by done. auto.
Qed.

Lemma validateApplication_nonempty application request :
  validateApplication application request = Ok () -> application <> "".
Proof. intros Hv ->. by vm_compute in Hv. Qed.

Lemma no_execution_without_application has j org request st : evidence has j org request st ->
  st_Application st = "" -> st_Execution st = None.
Proof.
  intros Hev Happ. destruct (st_Execution st) as [x|] eqn:Ex; [|done].
  destruct (ev_execution _ _ _ _ _ Hev x Ex) as [Hvx _]. unfold validateExecution in Hvx.
  rewrite Happ in Hvx. destruct (st_Admission st); [|done]. by destruct (st_Receipt st).
Qed.

Definition ack_of (org request : string) (r : SavedReceipt) (application : bytes) : deliveryAck :=
  {| da_Version := 1; da_OrgID := org; da_RequestID := request;
     da_ReceiptHash := digest (sr_Bytes r); da_Application := application |}.

Lemma step_ack j org request w w' st r application :
  represents j org request w st -> st_Receipt st = Some r -> validateApplication application request = Ok () ->
  wrote j org request "ack" w w' (json_print (ack_json (ack_of org request r application))) ->
  (st_Application st = "" \/ st_Application st = application)
  /\ represents j org request w' (effect (OpAck org request application) st).
Proof.
  intros Hrep Hr Hv Hw. pose proof (rep_evidence _ _ _ _ _ Hrep) as Hev.
  assert (Hrt : decodeRecord decode_ack acknowledgementFields
            (json_print (ack_json (ack_of org request r application))) = Ok (ack_of org request r application)).
  { apply ack_roundtrip; [done|]. destruct (rep_refs _ _ _ _ _ Hrep) as [H1 H2].
    repeat constructor; cbn; [by eapply bounded_utf8|by eapply bounded_utf8|apply hex_utf8]. }
  destruct (decide (st_Application st = "")) as [Happ|Hne].
  - split; [by left|]. pose proof (no_execution_without_application _ _ _ _ _ Hev Happ) as Hex.
    destruct Hrep as [Hrf He HA HR HK HX].
    constructor; cbn [effect st_Admission st_Receipt st_Application st_Execution]; try done.
    + constructor; cbn [st_Admission st_Receipt st_Application st_Execution]; try congruence.
      * intros a Ha. destruct (ev_admission _ _ _ _ _ Hev a Ha) as (? & ? & ? & raw & Hvis & ?).
        split_and!; try done. exists raw. split; [|done]. by eapply wrote_visible.
      * intros r' Hr'. destruct (ev_receipt _ _ _ _ _ Hev r' Hr') as (a & ? & ? & raw & Hvis & ?).
        exists a. split_and!; try done. exists raw. split; [|done]. by eapply wrote_visible.
      * intros _. exists r. split_and!; try done. eexists _, (ack_of org request r application).
        split_and!; [apply (wr_new _ _ _ _ _ _ _ Hw)|done|done|done].
    + intros Hn. rewrite (wr_frame _ _ _ _ _ _ _ Hw) by done. auto.
    + congruence.
    + intros E. by apply validateApplication_nonempty in Hv.
    + intros _. rewrite !(wr_frame _ _ _ _ _ _ _ Hw) by done. auto.
  - destruct (ev_application _ _ _ _ _ Hev Hne) as (r0 & _ & _ & raw & ack & Hraw & Hd & Happ & _).
    destruct (wrote_again _ _ _ _ _ _ _ _ st Hw Hraw) as [<- Hst].
    assert (ack = ack_of org request r application) as -> by congruence. cbn [da_Application ack_of] in Happ.
    split; [by right|].
    assert (effect (OpAck org request application) st = st) as -> by (clear - Happ; destruct st; cbn in Happ; by subst).
    by apply Hst.
Qed.

Lemma step_bind j w w1 w' st x :
  let org := ex_OrgID x in let request := ex_RequestID x in
  represents j org request w st -> validateExecution st x = Ok () ->
  wrote j org request "execution-known" w w1 (json_print (known_json (known_of x))) ->
  wrote j org request "execution" w1 w' (json_print (execution_json x)) ->
  (st_Execution st = None \/ st_Execution st = Some x)
  /\ represents j org request w' (effect (OpBind x) st).
Proof.
  intros org request Hrep Hv Hwk Hwx. pose proof (rep_evidence _ _ _ _ _ Hrep) as Hev.
  destruct (st_Admission st) as [a|] eqn:Ea; [|unfold validateExecution in Hv; by rewrite Ea in Hv].
  destruct (ev_admission _ _ _ _ _ Hev a Ea) as (Ho & Hq & Hval & _).
  destruct (execution_utf8 st a x Ea Hval Hv) as (Hver & _ & _ & Hu).
  pose proof (execution_roundtrip x Hver Hu) as Hrt.
  assert (Hkt : decodeRecord decode_known executionKnownFields (json_print (known_json (known_of x))) = Ok (known_of x)).
  { rewrite !Forall_cons in Hu. destruct_and! Hu. apply known_roundtrip; [done|].
    repeat constructor; try done. apply hex_utf8. }
  destruct (st_Execution st) as [x0|] eqn:Ex.
  - destruct (ev_execution _ _ _ _ _ Hev x0 Ex) as (_ & raw & Hraw & Hd & kraw & k & Hkraw & _).
    destruct (wrote_again _ _ _ _ _ _ _ _ st Hwk Hkraw) as [_ Hst].
    assert (Hraw1 : visible w1 (journal_path j org request "execution") raw) by (by eapply wrote_visible).
    destruct (wrote_again _ _ _ _ _ _ _ _ st Hwx Hraw1) as [<- Hst'].
    assert (x0 = x) as -> by congruence. split; [by right|].
    assert (effect (OpBind x) st = st) as -> by (clear - Ex; destruct st; cbn in Ex; by subst). by apply Hst', Hst.
  - split; [by left|]. destruct Hrep as [Hrf He HA HR HK HX].
    assert (Hvis : forall kind raw, kind <> "execution" -> kind <> "execution-known" ->
      visible w (journal_path j org request kind) raw -> visible w' (journal_path j org request kind) raw).
    { intros. eapply wrote_visible; [exact Hwx|done|]. by eapply wrote_visible. }
    assert (Habs : forall kind, kind <> "execution" -> kind <> "execution-known" ->
      vis w !! journal_path j org request kind = None -> vis w' !! journal_path j org request kind = None).
    { intros. rewrite (wr_frame _ _ _ _ _ _ _ Hwx), (wr_frame _ _ _ _ _ _ _ Hwk) by done. done. }
    constructor; cbn [effect st_Admission st_Receipt st_Application st_Execution]; try congruence; auto.
    constructor; cbn [st_Admission st_Receipt st_Application st_Execution]; try congruence.
    + intros a' Ha'. destruct (ev_admission _ _ _ _ _ Hev a' Ha') as (? & ? & ? & raw & Hvs & ?).
      split_and!; try done. exists raw. split; [|done]. by apply Hvis.
    + intros r' Hr'. destruct (ev_receipt _ _ _ _ _ Hev r' Hr') as (a' & ? & ? & raw & Hvs & ?).
      exists a'. split_and!; try done. exists raw. split; [|done]. by apply Hvis.
    + intros Hne. destruct (ev_application _ _ _ _ _ Hev Hne) as (r & ? & ? & raw & ack & Hvs & ? & ? & ?).
      exists r. split_and!; try done. exists raw, ack. split_and!; try done. by apply Hvis.
    + intros x' [= <-]. split; [by erewrite validateExecution_state; [exact Hv|..]|].
      eexists. split; [apply (wr_new _ _ _ _ _ _ _ Hwx)|]. split; [done|].
      eexists _, (known_of x). split; [|done].
      eapply wrote_visible; [exact Hwx|done|apply (wr_new _ _ _ _ _ _ _ Hwk)].
Qed.
End RefinementSteps.

Section JournalTheorems.
Context `{Externals} `{TxCodecs}.

(** Admissions carry the configured endpoint, which is UTF-8 text. *)
Definition endpoint_utf8 (a : Admission) : Prop := forall e, ad_Endpoint a = Some e -> utf8_valid e = true.
Definition endpoints_utf8 (o : jop) (st : State) : Prop :=
  match o with
  | OpAdmit a => endpoint_utf8 a /\ forall old, st_Admission st = Some old -> endpoint_utf8 old
  | _ => True
  end.

Lemma step_admit_new j w w' st a :
  let org := ad_OrgID a in let request := ad_RequestID a in
  represents j org request w st -> st_Admission st = None -> admission_validate a = Ok () ->
  endpoint_utf8 a -> wrote j org request "admission" w w' (json_print (admission_json a)) ->
  represents j org request w' (effect (OpAdmit a) st).
Proof.
  intros org request Hrep Ha Hval Hep Hw. pose proof (rep_evidence _ _ _ _ _ Hrep) as Hev.
  destruct (admission_utf8 a Hval) as (Hver & _ & _ & Hu).
  pose proof (admission_roundtrip a Hver Hu Hep) as Hrt.
  assert (Hr : st_Receipt st = None).
  { destruct (st_Receipt st) as [r|] eqn:Er; [|done].
    destruct (ev_receipt _ _ _ _ _ Hev r Er) as (a' & Ha' & _). congruence. }
  assert (Happ : st_Application st = "").
  { destruct (decide (st_Application st = "")) as [|Hne]; [done|].
    destruct (ev_application _ _ _ _ _ Hev Hne) as (r & Hr' & _). congruence. }
  pose proof (no_execution_without_application _ _ _ _ _ Hev Happ) as Hex.
  destruct Hrep as [Hrf He HA HR HK HX]. unfold effect. rewrite Ha.
  constructor; cbn [st_Admission st_Receipt st_Application st_Execution]; try done.
  - constructor; cbn [st_Admission st_Receipt st_Application st_Execution]; try congruence.
    intros a' [= <-]. split_and!; try done. eexists. split; [apply (wr_new _ _ _ _ _ _ _ Hw)|done].
  - intros _. rewrite (wr_frame _ _ _ _ _ _ _ Hw) by done. auto.
  - intros _. rewrite (wr_frame _ _ _ _ _ _ _ Hw) by done. auto.
  - intros _. rewrite !(wr_frame _ _ _ _ _ _ _ Hw) by done. auto.
Qed.

Lemma admit_terms a old :
  admission_validate a = Ok () -> admission_validate old = Ok () -> endpoint_utf8 a -> endpoint_utf8 old ->
  json_print (admission_json old)
  = json_print (admission_json {| ad_Version := ad_Version a; ad_OrgID := ad_OrgID a;
                  ad_RequestID := ad_RequestID a; ad_AuthorizationHash := ad_AuthorizationHash a;
                  ad_Mode := ad_Mode a; ad_Endpoint := ad_Endpoint a; ad_AdmittedAt := ad_AdmittedAt old |}) ->
  same_terms a old.
Proof.
  intros Ha Ho Hea Heo E. apply admission_utf8 in Ha as (Hv & _ & _ & Hu), Ho as (Hv' & _ & _ & Hu').
  pose proof (admission_roundtrip old Hv' Hu' Heo) as Hrt. rewrite E in Hrt.
  rewrite admission_roundtrip in Hrt; [|done| |done].
  - injection Hrt as <-. unfold same_terms. cbn. done.
  - cbn. rewrite !Forall_cons in *. tauto.
Qed.

(** All files of the request that can be seen are durable. *)
Definition settled (j : Journal) (org request : string) (w : world) : Prop :=
  forall kind raw, visible w (journal_path j org request kind) raw ->
                   durable w (journal_path j org request kind) raw.

Lemma load_settled j org request w st w' :
  loadStateLocked j org request w = (Ok st, w') -> settled j org request w'.
Proof.
  intros Hr kind raw (f & Hf & Hd). apply loadStateLocked_parts in Hr as (_ & wl & _ & Hs).
  pose proof (sync_dir_vis (j_directory j) wl) as Hv. rewrite Hs in Hv. cbn in Hv. rewrite Hv in Hf.
  exists f. split; [|done]. by eapply sync_dir_Ok.
Qed.

Lemma put_settled j org request kind v w w' : inv w -> settled j org request w ->
  put j (journal_path j org request kind) v w = (Ok (), w') -> settled j org request w'.
Proof.
  intros Hi Hs Hp kind' raw Hv.
  pose proof (safe_run _ _ _ _ (safe_put j _ v (record_not_temporary j org request kind)) Hp Hi) as [_ He].
  apply (put_wrote _ _ _ _ _ _ _ Hi) in Hp as (Hw & _ & Hd).
  destruct (decide (kind' = kind)) as [->|Hk].
  - by rewrite (visible_unique _ _ _ _ Hv (wr_new _ _ _ _ _ _ _ Hw)).
  - eapply durable_evolves; [apply record_not_temporary|exact He|]. apply Hs.
    destruct Hv as (f & Hf & Hr). exists f. by rewrite <- (wr_frame _ _ _ _ _ _ _ Hw).
Qed.

Lemma load_step j org request w st st' w' :
  inv w -> represents j org request w st -> loadStateLocked j org request w = (Ok st', w') ->
  st' = st /\ inv w' /\ represents j org request w' st /\ settled j org request w'.
Proof.
  intros Hi Hrep Hl. pose proof (load_settled _ _ _ _ _ _ Hl).
  pose proof (safe_run _ _ _ _ (safe_loadStateLocked j org request) Hl Hi) as [Hi' _].
  apply loadStateLocked_represents in Hl as (Hrep' & Hv & _).
  rewrite (represents_functional _ _ _ _ _ _ Hrep' Hrep). split_and!; try done.
  eapply represents_vis; [|exact Hrep]. intros. by rewrite Hv.
Qed.

(** (C5) The journal refines the abstract journal: whatever faults are injected, an
    operation that returns nil was enabled in the state its request's files represent
    (evidence in order, never replaced, equal repetition allowed), leaves files that
    represent exactly the abstract effect, and all of them are durable. *)
Theorem journal_refines j o w w' st :
  let '(org, request) := jop_key o in
  inv w -> represents j org request w st -> endpoints_utf8 o st -> jop_run j o w = (Ok (), w') ->
  enabled o st /\ represents j org request w' (effect o st) /\ settled j org request w' /\ inv w'.
Proof.
  destruct o as [a|r|org request application|x]; cbn [jop_key jop_run endpoints_utf8 enabled];
    intros Hi Hrep Hu Hrun.
  - unfold Admit in Hrun. run_ok; match goal with Hl : loadStateLocked _ _ _ _ = _ |- _ =>
      destruct (load_step _ _ _ _ _ _ _ Hi Hrep Hl) as (-> & Hi1 & Hrep1 & Hs1) end;
      match goal with u : unit |- _ => destruct u end.
    + split_bools. pose proof (ev_admission _ _ _ _ _ (rep_evidence _ _ _ _ _ Hrep) _ Heqo) as (_ & _ & Hvo & _).
      destruct Hu as [Hua Huo]. split_and!; try done.
      * intros old Hold. assert (old = a0) as -> by congruence. apply admit_terms; auto.
      * unfold effect. by rewrite Heqo.
    + destruct (put_wrote _ _ _ _ _ _ _ Hi1 Hrun) as (Hw & Hi' & _).
      split_and!; try done; [congruence| |exact (put_settled _ _ _ _ _ _ _ Hi1 Hs1 Hrun)].
      apply (step_admit_new j x2 w'); [done..|exact (proj1 Hu)|done].
  - unfold SaveReceipt in Hrun. run_ok; match goal with Hl : loadStateLocked _ _ _ _ = _ |- _ =>
      destruct (load_step _ _ _ _ _ _ _ Hi Hrep Hl) as (-> & Hi1 & Hrep1 & Hs1) end.
    match goal with u : unit |- _ => destruct u end.
    destruct (put_wrote _ _ _ _ _ _ _ Hi1 Hrun) as (Hw & Hi' & _).
    destruct (step_receipt _ _ _ _ _ _ Hrep1 Heqo ltac:(eassumption) Hw) as [Hor Hr].
    split_and!; eauto. exact (put_settled _ _ _ _ _ _ _ Hi1 Hs1 Hrun).
  - unfold Acknowledge in Hrun. run_ok; match goal with Hl : loadStateLocked _ _ _ _ = _ |- _ =>
      destruct (load_step _ _ _ _ _ _ _ Hi Hrep Hl) as (-> & Hi1 & Hrep1 & Hs1) end.
    match goal with u : unit |- _ => destruct u end.
    destruct (put_wrote _ _ _ _ _ _ _ Hi1 Hrun) as (Hw & Hi' & _).
    destruct (step_ack _ _ _ _ _ _ _ _ Hrep1 Heqo ltac:(eassumption) Hw) as [Hor Hr].
    split_and!; eauto. exact (put_settled _ _ _ _ _ _ _ Hi1 Hs1 Hrun).
  - unfold BindExecution in Hrun. run_ok; match goal with Hl : loadStateLocked _ _ _ _ = _ |- _ =>
      destruct (load_step _ _ _ _ _ _ _ Hi Hrep Hl) as (-> & Hi1 & Hrep1 & Hs1) end.
    repeat match goal with u : unit |- _ => destruct u end.
    match goal with Hp1 : put _ _ _ _ = (Ok (), ?w2) , Hp2 : put _ _ _ ?w2 = (Ok (), w') |- _ =>
      destruct (put_wrote _ _ _ _ _ _ _ Hi1 Hp1) as (Hw1 & Hi2 & _);
      destruct (put_wrote _ _ _ _ _ _ _ Hi2 Hp2) as (Hw2 & Hi' & _);
      pose proof (put_settled _ _ _ _ _ _ _ Hi1 Hs1 Hp1) as Hs2;
      pose proof (put_settled _ _ _ _ _ _ _ Hi2 Hs2 Hp2) as Hs3 end.
    destruct (step_bind _ _ _ _ _ _ Hrep1 ltac:(eassumption) Hw1 Hw2) as [Hor Hr].
    split_and!; eauto.
Qed.
End JournalTheorems.

(** * Runs *)

Section Runs.
Context `{Externals} `{TxCodecs}.

(** A step of a running system on the journal files: an operation of any journal handle
    (whatever it returns), a change of the environment that leaves the files alone
    (which faults are due, directory metadata), or a crash. *)
Inductive jstep : world -> world -> Prop :=
  | jstep_op j o w : jstep w (jop_run j o w).2
  | jstep_load j org request w : jstep w (Load j org request w).2
  | jstep_pending j limit listing w : jstep w (PendingReceipts j limit listing w).2
  | jstep_env w w' : vis w' = vis w -> dur w' = dur w -> dirty w' = dirty w -> euid w' = euid w -> jstep w w'
  | jstep_crash w w' : crash w w' -> jstep w w'.

Lemma safe_jop j o : safe (jop_run j o).
Proof.
  destruct o; [apply safe_Admit|apply safe_SaveReceipt|apply safe_Acknowledge|apply safe_BindExecution].
Qed.

Lemma crash_durable w w' : inv w -> crash w w' ->
  inv w' /\ forall p raw, temporary p = false -> durable w p raw -> durable w' p raw.
Proof.
  intros Hi Hc. destruct (crash_keeps w w' Hi Hc) as [Hi' Hk]. split; [done|].
  intros p raw Hp (f & Hf & Hr). exists f. auto.
Qed.

Lemma jstep_durable w w' : jstep w w' -> inv w ->
  inv w' /\ forall p raw, temporary p = false -> durable w p raw -> durable w' p raw.
Proof.
  intros Hs Hi. destruct Hs as [j o w|j org request w|j limit listing w|w w' Hv Hd Hdt _|w w' Hc];
    [..|by apply crash_durable].
  4: { unfold inv, durable. rewrite Hv, Hd, Hdt. done. }
  - destruct (safe_jop j o w Hi) as [Hi' He]. split; [done|]. intros p raw Hp. by apply durable_evolves.
  - destruct (safe_loadStateLocked j org request w Hi) as [Hi' He]. split; [done|]. intros p raw Hp. by apply durable_evolves.
  - destruct (safe_PendingReceipts j limit listing w Hi) as [Hi' He]. split; [done|]. intros p raw Hp. by apply durable_evolves.
Qed.

Lemma jsteps_durable w w' : rtc jstep w w' -> inv w ->
  inv w' /\ forall p raw, temporary p = false -> durable w p raw -> durable w' p raw.
Proof.
  induction 1 as [w|w w1 w' Hs _ IH]; intros Hi; [done|].
  destruct (jstep_durable _ _ Hs Hi) as [Hi1 Hd1]. destruct (IH Hi1) as [Hi2 Hd2]. auto.
Qed.

Lemma bind_durable j x w w' : inv w -> BindExecution j x w = (Ok (), w') ->
  inv w' /\ durable w' (journal_path j (ex_OrgID x) (ex_RequestID x) "execution-known")
              (json_print (known_json (known_of x)))
  /\ durable w' (journal_path j (ex_OrgID x) (ex_RequestID x) "execution") (json_print (execution_json x)).
Proof.
  intros Hi Hb. unfold BindExecution in Hb. run_ok. repeat match goal with u : unit |- _ => destruct u end.
  match goal with Hl : loadStateLocked _ _ _ _ = _ |- _ =>
    destruct (safe_run _ _ _ _ (safe_loadStateLocked j _ _) Hl Hi) as [Hi1 _] end.
  match goal with Hp1 : put _ _ _ _ = (Ok (), ?w2) , Hp2 : put _ _ _ ?w2 = (Ok (), w') |- _ =>
    destruct (put_wrote _ _ _ _ _ _ _ Hi1 Hp1) as (_ & Hi2 & Hd1);
    destruct (put_wrote _ _ _ _ _ _ _ Hi2 Hp2) as (_ & Hi' & Hd2);
    pose proof (safe_run _ _ _ _ (safe_put j _ _ (record_not_temporary j _ _ _)) Hp2 Hi2) as [_ He] end.
  split_and!; [done| |done]. eapply durable_evolves; [apply record_not_temporary|exact He|done].
Qed.

(** The record a successful binding is made of round-trips. *)
Lemma bind_roundtrip j x w w' : BindExecution j x w = (Ok (), w') ->
  decodeRecord decode_execution executionFields (json_print (execution_json x)) = Ok x.
Proof.
  intros Hb. unfold BindExecution in Hb. run_ok. repeat match goal with u : unit |- _ => destruct u end.
  match goal with Hl : loadStateLocked _ _ _ _ = (Ok ?st, _), Hv : validateExecution ?st _ = _ |- _ =>
    apply loadStateLocked_evidence in Hl; destruct (st_Admission st) as [a|] eqn:Ea;
    [|unfold validateExecution in Hv; by rewrite Ea in Hv];
    destruct (ev_admission _ _ _ _ _ Hl a Ea) as (_ & _ & Hval & _);
    destruct (execution_utf8 _ _ _ Ea Hval Hv) as (Hver & _ & _ & Hu) end.
  by apply execution_roundtrip.
Qed.

(** A binding that returned nil and is still there leaves room for no other one. *)
Lemma bound_once j j' x y w1 w2 w3 w4 : inv w3 -> BindExecution j x w1 = (Ok (), w2) ->
  durable w3 (journal_path j (ex_OrgID x) (ex_RequestID x) "execution") (json_print (execution_json x)) ->
  BindExecution j' y w3 = (Ok (), w4) -> j_directory j = j_directory j' ->
  ex_OrgID x = ex_OrgID y -> ex_RequestID x = ex_RequestID y -> x = y.
Proof.
  intros Hi3 Hx Hd3 Hy Hj Ho Hq.
  destruct (safe_BindExecution j' y w3 Hi3) as [Hi4 He4]. rewrite Hy in Hi4, He4. cbn in Hi4, He4.
  apply (durable_evolves _ _ _ _ (record_not_temporary _ _ _ _) He4) in Hd3.
  destruct (bind_durable _ _ _ _ Hi3 Hy) as (_ & _ & Hd4).
  unfold journal_path in *. rewrite Hj, Ho, Hq in Hd3.
  pose proof (durable_unique _ _ _ _ Hd3 Hd4) as E.
  pose proof (bind_roundtrip _ _ _ _ Hx) as Rx. pose proof (bind_roundtrip _ _ _ _ Hy) as Ry.
  rewrite E in Rx. congruence.
Qed.

(** At most one execution per approved request: if binding [x] returned nil, then
    after any run of the journal (operations with faults, restarts, crashes) a binding
    that returns nil for the same request in the same directory is of the same [x]. *)
Theorem execution_binding_unique j j' x y w1 w2 w3 w4 :
  inv w1 -> BindExecution j x w1 = (Ok (), w2) -> rtc jstep w2 w3 ->
  BindExecution j' y w3 = (Ok (), w4) -> j_directory j = j_directory j' ->
  ex_OrgID x = ex_OrgID y -> ex_RequestID x = ex_RequestID y -> x = y.
Proof.
  intros Hi Hx Hrun Hy Hj Ho Hq.
  destruct (bind_durable _ _ _ _ Hi Hx) as (Hi2 & _ & Hd2).
  destruct (jsteps_durable _ _ Hrun Hi2) as [Hi3 Hd3].
  eapply (bound_once j j' x y w1 w2 w3 w4); eauto with safe.
Qed.

(** (C6) Evidence is permanent: the files behind a state that [Load] returned are
    durable, form a complete chain (admission, then a receipt verified against it, then
    an application of it, then an execution of an APPROVED and APPLIED decision), and
    keep their exact contents in every later world, across faults and crashes. *)
Theorem Load_permanent j org request w st w1 w2 :
  inv w -> Load j org request w = (Ok st, w1) -> rtc jstep w1 w2 ->
  evidence (durable w2) j org request st.
Proof.
  intros Hi Hl Hrun. pose proof (loadStateLocked_evidence _ _ _ _ _ _ Hl) as Hev.
  destruct (safe_run _ _ _ _ (safe_loadStateLocked j org request) Hl Hi) as [Hi1 _].
  destruct (jsteps_durable _ _ Hrun Hi1) as [_ Hd].
  eapply evidence_mono; [|exact Hev]. intros kind raw. apply Hd, record_not_temporary.
Qed.
End Runs.

(** * A concrete run *)

Definition fixture_info : FileInfo :=
  {| fi_isdir := true; fi_uid := 1000; fi_perm := 448; fi_dev := 1; fi_ino := 7 |}.
Definition fixture_world : world := {|
  vis := ∅; dur := ∅; dirty := ∅; dirs := {["/journal" := fixture_info]}; links := ∅;
  euid := 1000; sched := [] |}.
Definition fixture_journal : Journal :=
  {| j_directory := "/journal"; j_identity := fixture_info; j_closed := false; j_scan := None |}.
Definition fixture_admission : Admission := {|
  ad_Version := 1; ad_OrgID := "org-1"; ad_RequestID := "req-1"; ad_AuthorizationHash := fixture_hash;
  ad_Mode := "external"; ad_Endpoint := Some "https://org.example/approve";
  ad_AdmittedAt := "2026-03-01T10:20:00.000Z" |}.
Definition fixture_saved : SavedReceipt := {|
  sr_Version := 1; sr_OrgID := "org-1"; sr_RequestID := "req-1"; sr_AuthorizationHash := fixture_hash;
  sr_SigningKeyID := "approval-key-1"; sr_PublicKey := fixture_public; sr_Bytes := fixture_receipt |}.
Definition fixture_application : bytes :=
  jtext "{'version':1,'requestId':'req-1','outcome':'ACCEPTED','disposition':'APPLIED'}".
Definition fixture_execution : ExecutionBinding := {|
  ex_Version := 1; ex_OrgID := "org-1"; ex_RequestID := "req-1"; ex_OutgoingID := "outgoing-1";
  ex_AuthorizationHash := fixture_hash;
  ex_ExecutionDigest := b64_encode b64_std (keccak256 fixture_tx);
  ex_PayloadType := ethereumPayloadType; ex_HashAlgorithm := ethereumHashAlgorithm |}.

(** The worlds after admission, receipt, acknowledgement and binding. *)
Definition world_admitted : world := (Admit fixture_journal fixture_admission fixture_world).2.
Definition world_decided : world := (SaveReceipt fixture_journal fixture_saved world_admitted).2.
Definition world_applied : world :=
  (Acknowledge fixture_journal "org-1" "req-1" fixture_application world_decided).2.
Definition world_bound : world := (BindExecution fixture_journal fixture_execution world_applied).2.

Lemma fixture_world_inv : inv fixture_world.
Proof. split; [intros p f _; cbn; by rewrite lookup_empty|]. cbn. set_solver. Qed.

Lemma run_fst {A} (m : M A) w r : (m w).1 = r -> m w = (r, (m w).2).
Proof. by destruct (m w); cbn; intros ->. Qed.

Lemma fixture_run :
  Admit fixture_journal fixture_admission fixture_world = (Ok (), world_admitted)
  /\ SaveReceipt fixture_journal fixture_saved world_admitted = (Ok (), world_decided)
  /\ Acknowledge fixture_journal "org-1" "req-1" fixture_application world_decided = (Ok (), world_applied)
  /\ BindExecution fixture_journal fixture_execution world_applied = (Ok (), world_bound).
Proof.
  assert (E1 : (Admit fixture_journal fixture_admission fixture_world).1 = Ok ()) by (vm_compute; reflexivity).
  assert (E2 : (SaveReceipt fixture_journal fixture_saved world_admitted).1 = Ok ()) by (vm_compute; reflexivity).
  assert (E3 : (Acknowledge fixture_journal "org-1" "req-1" fixture_application world_decided).1 = Ok ())
    by (vm_compute; reflexivity).
  assert (E4 : (BindExecution fixture_journal fixture_execution world_applied).1 = Ok ())
    by (vm_compute; reflexivity).
  apply run_fst in E1, E2, E3, E4. exact (conj E1 (conj E2 (conj E3 E4))).
Qed.

Lemma inv_after {A} (m : M A) w r w' : safe m -> m w = (r, w') -> inv w -> inv w'.
Proof. intros Hs Hm Hi. by destruct (safe_run _ _ _ _ Hs Hm Hi). Qed.

Lemma fixture_invs : inv world_admitted /\ inv world_decided /\ inv world_applied /\ inv world_bound.
Proof.
  destruct fixture_run as (H1 & H2 & H3 & H4).
  pose proof (inv_after _ _ _ _ (safe_Admit _ _) H1 fixture_world_inv) as I1.
  pose proof (inv_after _ _ _ _ (safe_SaveReceipt _ _) H2 I1) as I2.
  pose proof (inv_after _ _ _ _ (safe_Acknowledge _ _ _ _) H3 I2) as I3.
  pose proof (inv_after _ _ _ _ (safe_BindExecution _ _) H4 I3) as I4. exact (conj I1 (conj I2 (conj I3 I4))).
Qed.

Lemma execution_binding_unique_witness :
  BindExecution fixture_journal fixture_execution world_applied = (Ok (), world_bound)
  /\ fixture_execution = fixture_execution.
Proof.
  destruct fixture_run as (_ & _ & _ & H4). destruct fixture_invs as (_ & _ & I3 & _). split; [exact H4|].
  destruct (BindExecution fixture_journal fixture_execution world_bound) as [r w4] eqn:E.
  assert (Hr : r = Ok ()) by (apply (f_equal fst) in E; cbn in E; rewrite <- E; vm_compute; reflexivity).
  subst r.
  exact (execution_binding_unique fixture_journal fixture_journal fixture_execution fixture_execution
           world_applied world_bound world_bound w4 I3 H4 (rtc_refl _ _) E eq_refl eq_refl eq_refl).
Defined.

Lemma Load_permanent_witness : exists st,
  st_Execution st = Some fixture_execution
  /\ evidence (durable (Load fixture_journal "org-1" "req-1" world_bound).2) fixture_journal "org-1" "req-1" st.
Proof.
  destruct fixture_invs as (_ & _ & _ & I4).
  destruct (Load fixture_journal "org-1" "req-1" world_bound) as [[st|e] w1] eqn:E.
  - exists st. split.
    + apply (f_equal (fun r => match r.1 with Ok st => st_Execution st | _ => None end)) in E.
      cbn [fst] in E. rewrite <- E. vm_compute. reflexivity.
    + exact (Load_permanent fixture_journal "org-1" "req-1" world_bound st w1 w1 I4 E (rtc_refl _ _)).
  - exfalso. apply (f_equal (fun r => is_ok r.1)) in E. cbn [fst is_ok] in E. revert E. vm_compute. discriminate.
Defined.

Lemma journal_refines_witness : exists st,
  represents fixture_journal "org-1" "req-1" world_admitted st
  /\ represents fixture_journal "org-1" "req-1" world_decided (effect (OpReceipt fixture_saved) st).
Proof.
  destruct fixture_invs as (I1 & _). destruct fixture_run as (_ & H2 & _).
  destruct (loadStateLocked fixture_journal "org-1" "req-1" world_admitted) as [[st|e] w1] eqn:E.
  - apply loadStateLocked_represents in E as (Hrep & _). exists st. split; [exact Hrep|].
    exact (proj1 (proj2 (journal_refines fixture_journal (OpReceipt fixture_saved) world_admitted world_decided st
             I1 Hrep I H2))).
  - exfalso. apply (f_equal (fun r => is_ok r.1)) in E. cbn [fst is_ok] in E. revert E. vm_compute. discriminate.
Defined.
