(* ===== verification/JournalInit.v ===== *)
(** [internal/approval]: opening the approval journal (journal_init.go, the opening part
    of journal.go, the probe of files.go, the directory checks of config.go) and the file
    lock of [internal/lifecycle] it takes.  A managed journal is bound to the primary
    share store: an identity, published in both directories, names the journal's. *)
From stdpp Require Import base tactics option list strings numbers gmap relations.
From Stdlib Require Import ZArith Lia Ascii String.
From S2P Require Import Prelude GoText Paths Sha256 Json StrictJson Externals Mpc2of3 ApprovalWire SigningPolicy FileSystem Publish Journal.

#[local] Open Scope string_scope.

(** * config.go: directories *)

(** [canonical]: the resolved path, or the resolved nearest ancestor that exists with the
    rest of the path joined to it.  [tail] is reversed, as in the code. *)
Fixpoint canonical (fuel : nat) (path : string) (tail : list string) : M string :=
  match fuel with
  | O => throw (ENew "no ancestor")
  | S fuel =>
      resolved ← attempt (eval_symlinks path);
      match resolved with
      | Ok resolved => mret (foldl Join resolved (reverse tail))
      | Fail err =>
          if negb (errors_is err ErrNotExist) then throw err
          else
            let parent := Dir path in
            if parent =s path then throw err
            else canonical fuel parent (tail ++ [Base path])
      end
  end.
(** Every step to a parent shortens the path. *)
Definition canonical_path (path : string) : M string := canonical (S (String.length path)) path [].

Definition within (path parent : string) : bool :=
  let rel := Rel parent path in
  (rel =s ".") || ((rel <>s "..") && negb (has_prefix "../" rel)).

Definition ValidateDirectories (journal : string) (shares : list string) : M unit :=
  j ← canonical_path (Clean journal);
  (fix each (shares : list string) : M unit :=
     match shares with
     | [] => mret ()
     | s :: shares =>
         p ← canonical_path s;
         if within j p || within p j
         then throw (ENew "approval journal overlaps a share directory") else each shares
     end) shares.

(** * lock_unix.go *)

(** What [flock(LOCK_EX|LOCK_NB)] says. *)
Inductive flock_result := Locked | WouldBlock | FlockFailed (e : error).

Definition AcquireLifetimeLock (p : path) (flock : flock_result) : M unit :=
  opened ← attempt (open_create p);
  match opened with
  | Fail err => throw (EWrap "open lifetime lock" err)
  | Ok _ =>
      match flock with
      | Locked => mret ()
      | WouldBlock => _ ← attempt close; throw (ESent ErrLockHeld)
      | FlockFailed err => _ ← attempt close; throw (EWrap "acquire lifetime lock" err)
      end
  end.
(** [LifetimeLock.Close]: closing the descriptor releases the lock. *)
Definition lock_Close : M unit := close.

(** * files.go: the probe *)

Definition probe_open : bytes := "approval-v1".

Definition probe_checks (j : Journal) (name : path) : M unit :=
  _ ← publish j name probe_open;
  again ← attempt (publish j name "changed");
  match again with
  | Ok _ => throw err_integrity
  | Fail e =>
      if negb (errors_is e ErrExist) then throw err_integrity
      else
        raw ← attempt (readJournalFile name);
        match raw with
        | Fail _ => throw err_integrity
        | Ok raw =>
            if raw <>s probe_open then throw err_integrity
            else _ ← remove name; sync_dir (j_directory j)
        end
  end.
Definition probe (j : Journal) : M unit :=
  name ← create_temp (j_directory j) ".approval-probe-";
  _ ← attempt close;
  _ ← attempt (remove name);
  defer (remove name) (probe_checks j name).

(** * journal.go: opening and closing *)

Definition lock_name : string := ".approval.lock".

Definition OpenJournal (directory : string) (flock : flock_result) : M Journal :=
  if negb (IsAbs directory) then throw err_integrity
  else
    dir ← eval_symlinks directory;
    info ← stat_dir dir;
    uid ← get_euid;
    _ ← lift (validateJournalDirectory info uid);
    let lockPath := (dir, lock_name) in
    lockInfo ← attempt (lstat lockPath);
    _ ← match lockInfo with
        | Ok f => if negb (bool_decide (f_kind f = Regular)) || negb (f_perm f =? perm_0600)%Z
                  then throw err_integrity else mret ()
        | Fail err => if negb (errors_is err ErrNotExist) then throw err else mret ()
        end;
    _ ← AcquireLifetimeLock lockPath flock;
    let journal := {| j_directory := dir; j_identity := info; j_closed := false; j_scan := None |} in
    probed ← attempt (probe journal);
    match probed with
    | Ok _ => mret journal
    | Fail err => _ ← attempt lock_Close; throw err
    end.

(** [Journal.Close]: closing the directory stream and the lock, once. *)
Definition Close (j : Journal) : M (Journal * option error) :=
  if j_closed j then mret (j, None)
  else
    scanErr ← match j_scan j with
              | Some _ => attempt close
              | None => mret (Ok ())
              end;
    lockErr ← attempt lock_Close;
    let of_res (r : res unit) := match r with Ok _ => None | Fail e => Some e end in
    mret ({| j_directory := j_directory j; j_identity := j_identity j; j_closed := true; j_scan := None |},
          errors_join [of_res scanErr; of_res lockErr]).

(** * journal_init.go *)

Record journalIdentity := { ji_Version : Z; ji_ID : string; ji_Directory : string }.
Definition identityFields : list string := ["version"; "id"; "directory"].
Definition identity_json (i : journalIdentity) : json :=
  JObj [("version", jint (ji_Version i)); ("id", JStr (ji_ID i)); ("directory", JStr (ji_Directory i))].
Definition decode_identity : json -> option journalIdentity :=
  decode_struct
    [("version", set_int (fun s '(Build_journalIdentity _ b c) => Build_journalIdentity s b c));
     ("id", set_string (fun s '(Build_journalIdentity a _ c) => Build_journalIdentity a s c));
     ("directory", set_string (fun s '(Build_journalIdentity a b _) => Build_journalIdentity a b s))]
    (Build_journalIdentity 0 "" "").

Definition sameFilesystem (a b : FileInfo) : bool := (fi_dev a =? fi_dev b)%Z.

Definition check_dir (info : FileInfo) : M unit :=
  uid ← get_euid; lift (validateJournalDirectory info uid).

(** The journal directory named by the caller: resolved, with its parent and, when it
    exists, what [os.Stat] says of it. *)
Definition resolve_journal (directory primary : string) : M (string * string * option FileInfo) :=
  parent ← eval_symlinks (Dir directory);
  let directory := Join parent (Base directory) in
  _ ← ValidateDirectories directory [primary];
  entry ← attempt (lstat_dir directory);
  match entry with
  | Fail err => if errors_is err ErrNotExist then mret (directory, parent, None) else throw err
  | Ok _ =>
      directory ← eval_symlinks directory;
      info ← stat_dir directory;
      _ ← check_dir info;
      mret (directory, Dir directory, Some info)
  end.

Definition check_filesystem (parent : string) (primaryInfo : FileInfo) (info : option FileInfo) : M unit :=
  parentInfo ← stat_dir parent;
  _ ← check_dir parentInfo;
  if negb (sameFilesystem primaryInfo parentInfo)
     || match info with Some info => negb (sameFilesystem primaryInfo info) | None => false end
  then throw (EWrap "automatic journal must share the primary store filesystem" err_integrity)
  else mret ().

(** The marker exists: the journal it names must be there, with the same identity. *)
Definition reopen_journal (directory primary : string) (marker : bytes) (flock : flock_result) : M Journal :=
  identity ← lift (decodeRecord decode_identity identityFields marker);
  if negb (ji_Version identity =? 1)%Z
     || match hex_decode (ji_ID identity) with Some id => negb (zlen id =? 32)%Z | None => true end
     || (ji_Directory identity <>s directory)
  then throw err_integrity
  else
    stored ← attempt (readJournalFile (directory, journalIdentityName));
    let replaced err := throw (EWrap "initialized journal is missing or replaced"
                                 (EJoin (err_integrity :: match err with Some e => [e] | None => [] end))) in
    match stored with
    | Fail err => replaced (Some err)
    | Ok stored =>
        if stored <>s marker then replaced None
        else _ ← sync_dir primary; OpenJournal directory flock
    end.

(** No marker: a fresh identity, published in the primary store and then in the journal. *)
Definition initialize_journal (directory parent primary : string) (missing autoInitialize : bool)
    (flock : flock_result) (entropy : res bytes) : M Journal :=
  entry ← attempt (lstat (directory, journalIdentityName));
  match entry with
  | Ok _ => throw err_integrity
  | Fail err =>
      if negb (errors_is err ErrNotExist) then throw err
      else
        _ ← (if missing
             then (if negb autoInitialize then throw (ESent ErrNotExist) else mkdir directory)
             else mret ());
        _ ← sync_dir parent;
        journal ← OpenJournal directory flock;
        published ← attempt
          (id ← lift entropy;
           let marker := json_print (identity_json
             {| ji_Version := 1; ji_ID := hex_encode id; ji_Directory := directory |}) in
           _ ← publishJournalFile (primary, journalIdentityName) marker;
           publishJournalFile (directory, journalIdentityName) marker);
        match published with
        | Ok _ => mret journal
        | Fail err => _ ← Close journal; throw err
        end
  end.

(** [flock] is what the lock's system call says and [entropy] what [rand.Read] fills the
    32-byte identity with. *)
Definition openManagedJournal (directory primary : string) (autoInitialize : bool)
    (flock : flock_result) (entropy : res bytes) : M Journal :=
  if negb (IsAbs primary) || negb (IsAbs directory) then throw err_integrity
  else
    let directory := Clean directory in
    primary ← eval_symlinks primary;
    primaryInfo ← stat_dir primary;
    _ ← check_dir primaryInfo;
    '(directory, parent, info) ← resolve_journal directory primary;
    _ ← (if autoInitialize then check_filesystem parent primaryInfo info else mret ());
    marker ← attempt (readJournalFile (primary, journalIdentityName));
    match marker with
    | Ok marker => reopen_journal directory primary marker flock
    | Fail err =>
        if negb (errors_is err ErrNotExist) then throw err
        else initialize_journal directory parent primary (match info with None => true | _ => false end)
               autoInitialize flock entropy
    end.
