(* ===== verification/JournalInitProofs.v ===== *)
(** Proofs about opening the approval journal: the journal lies outside the primary store,
    its identity is durable in both directories, it cannot be exchanged for another one
    later, and so one approved request has one execution across every reopening. *)
From stdpp Require Import base tactics option list strings numbers gmap relations.
From Stdlib Require Import ZArith Lia Ascii String.
From S2P Require Import Prelude GoText Paths Sha256 Json StrictJson Externals Mpc2of3 ApprovalWire SigningPolicy FileSystem Publish Journal JournalProofs JournalInit.

#[local] Open Scope string_scope.

(** * Every step is safe *)

Lemma safe_canonical fuel path tail : safe (canonical fuel path tail).
Proof.
  revert path tail. induction fuel as [|fuel IH]; intros path tail; cbn [canonical]; cbv zeta; solve_safe.
Qed.
Lemma safe_canonical_path path : safe (canonical_path path).
Proof. apply safe_canonical. Qed.
#[export] Hint Resolve safe_canonical_path : safe.
Lemma safe_ValidateDirectories journal shares : safe (ValidateDirectories journal shares).
Proof.
  unfold ValidateDirectories. apply safe_bind; [solve_safe|]. intros c.
  induction shares as [|s shares IH]; solve_safe.
Qed.
Lemma safe_publish j p raw : safe (publish j p raw).
Proof. unfold publish. apply safe_bind; [apply safe_check|intros _; apply safe_publishJournalFile]. Qed.
#[export] Hint Resolve safe_ValidateDirectories safe_publish safe_readJournalFile safe_publishJournalFile : safe.

Lemma probe_name_temporary d w : temporary (d, fresh_name ".approval-probe-" w) = true.
Proof. by apply temporary_fresh. Qed.
Lemma create_temp_temporary d prefix w p w' : hidden prefix = true ->
  create_temp d prefix w = (Ok p, w') -> temporary p = true /\ p.1 = d.
Proof.
  intros Hp Hc. apply sys_Ok in Hc as [s [= <- _]]. split; [by apply temporary_fresh|done].
Qed.
Lemma safe_probe_checks j name : temporary name = true -> safe (probe_checks j name).
Proof. intros Hn. unfold probe_checks. solve_safe. Qed.
Lemma safe_create_temp d prefix : hidden prefix = true -> safe (create_temp d prefix).
Proof.
  intros Hp w Hw. pose proof (create_temp_spec w d prefix Hp w (untouched_start w Hw)) as Hc.
  destruct (create_temp d prefix w) as [[p|e] w1]; cbn in *; [by destruct Hc as [(?&?&?) _]|by destruct Hc as (?&?&?)].
Qed.
Lemma safe_probe j : safe (probe j).
Proof.
  intros w Hw. unfold probe. unfold mbind at 1 4, M_bind at 1 4.
  pose proof (safe_create_temp (j_directory j) ".approval-probe-" eq_refl w Hw) as [Hi He].
  destruct (create_temp _ _ w) as [[name|e] w1] eqn:Ec; cbn in *; [|done].
  apply create_temp_temporary in Ec as [Hn _]; [|done].
  destruct ((_ ← attempt close; _ ← attempt (remove name); defer (remove name) (probe_checks j name)) w1) as [r w2] eqn:Er.
  apply (safe_run _ _ _ _) in Er; [..|done].
  - destruct Er. split; [done|]. by etrans.
  - pose proof (safe_probe_checks j name Hn). solve_safe.
Qed.
#[export] Hint Resolve safe_probe : safe.

Lemma safe_AcquireLifetimeLock d flock : safe (AcquireLifetimeLock (d, lock_name) flock).
Proof.
  unfold AcquireLifetimeLock. assert (safe (open_create (d, lock_name))) by by apply safe_open_create. solve_safe.
Qed.
#[export] Hint Resolve safe_AcquireLifetimeLock : safe.
Lemma safe_OpenJournal directory flock : safe (OpenJournal directory flock).
Proof. unfold OpenJournal, lock_Close. solve_safe. Qed.
Lemma safe_Close j : safe (Close j).
Proof. unfold Close, lock_Close. solve_safe. Qed.
#[export] Hint Resolve safe_OpenJournal safe_Close : safe.
Lemma safe_openManagedJournal directory primary autoInitialize flock entropy :
  safe (openManagedJournal directory primary autoInitialize flock entropy).
Proof.
  unfold openManagedJournal, resolve_journal, check_filesystem, check_dir, reopen_journal, initialize_journal. solve_safe.
Qed.

(** * Resolving directories *)

(** The directory tree: directories are named by clean rooted paths, and a symbolic link is
    resolved to what is not a link. *)
Record tree (w : world) : Prop := {
  tree_dirs d : is_Some (dirs w !! d) -> IsAbs d = true /\ Clean d = d;
  tree_links d e : links w !! d = Some e -> links w !! e = None;
}.
Definition layout (w : world) := (dirs w, links w).
Definition still {A} (m : M A) : Prop := forall w, layout (m w).2 = layout w.

(** [d] resolves to the directory [e]. *)
Definition resolves (w : world) (d e : string) : Prop := default d (links w !! d) = e /\ is_Some (dirs w !! e).

Lemma still_bind {A B} (m : M A) (k : A -> M B) : still m -> (forall a, still (k a)) -> still (m ≫= k).
Proof. intros Hm Hk w. by apply bind_keep. Qed.
Lemma still_attempt {A} (m : M A) : still m -> still (attempt m).
Proof. intros Hm w. unfold attempt. specialize (Hm w). by destruct (m w). Qed.
Lemma still_sys {A} (act : M A) : (forall w, layout (act w).2 = layout w) -> still (sys act).
Proof. intros Ha w. by apply sys_keep. Qed.
Lemma still_eval_symlinks d : still (eval_symlinks d).
Proof. apply still_sys. intros w. cbv zeta. by case_match. Qed.
Lemma still_stat_dir d : still (stat_dir d).
Proof. apply still_sys. intros w. by case_match. Qed.
Lemma still_lstat_dir d : still (lstat_dir d).
Proof. apply still_sys. intros w. by repeat case_match. Qed.
Lemma still_canonical fuel path tail : still (canonical fuel path tail).
Proof.
  revert path tail. induction fuel as [|fuel IH]; intros path tail; cbn [canonical]; [done|].
  apply still_bind; [apply still_attempt, still_eval_symlinks|]. intros [r|e]; [done|].
  destruct (negb (errors_is e ErrNotExist)); [done|]. cbv zeta. destruct (Dir path =s path); [done|apply IH].
Qed.
Lemma still_ValidateDirectories journal shares : still (ValidateDirectories journal shares).
Proof.
  unfold ValidateDirectories. apply still_bind; [apply still_canonical|]. intros c.
  induction shares as [|s shares IH]; [done|]. apply still_bind; [apply still_canonical|]. intros p.
  by destruct (within c p || within p c).
Qed.

Lemma still_run {A} (m : M A) w r w' : still m -> m w = (r, w') -> layout w' = layout w.
Proof. intros Hm E. specialize (Hm w). by rewrite E in Hm. Qed.
Lemma tree_layout w w' : layout w' = layout w -> tree w -> tree w'.
Proof. unfold layout. intros [= Hd Hl] [H1 H2]. split; rewrite ?Hd, ?Hl; eauto. Qed.
Lemma resolves_layout w w' d e : layout w' = layout w -> resolves w' d e -> resolves w d e.
Proof. unfold layout, resolves. by intros [= -> ->]. Qed.

Lemma eval_symlinks_run d w r w' : eval_symlinks d w = (r, w') ->
  layout w' = layout w /\ (forall e, r = Ok e -> resolves w d e)
  /\ (forall err, r = Fail err -> errors_is err ErrNotExist = true -> forall e, ~ resolves w d e).
Proof.
  intros E. split; [exact (still_run _ _ _ _ (still_eval_symlinks d) E)|].
  unfold eval_symlinks, sys in E. unfold resolves.
  destruct (sched w) as [|[] s]; cbn in E; repeat case_match; simplify_eq; split; intros; simplify_eq; eauto;
    intros [Hd [i Hi]]; subst; congruence.
Qed.
Lemma resolves_functional w d e e' : resolves w d e -> resolves w d e' -> e = e'.
Proof. intros [<- _] [<- _]. done. Qed.
(** What a path resolves to resolves to itself, and is clean. *)
Lemma resolves_idem w d e : tree w -> resolves w d e -> resolves w e e /\ IsAbs e = true /\ Clean e = e.
Proof.
  intros Ht [He Hs]. split; [|by apply (tree_dirs w Ht)]. split; [|done].
  destruct (links w !! d) as [e'|] eqn:El; cbn in He; subst.
  - by rewrite (tree_links w Ht _ _ El).
  - by rewrite El.
Qed.

(** More fuel than the length of the path changes nothing: the walk to the ancestors of a
    rooted path ends before it runs out. *)
Lemma canonical_fuel n path tail w : IsAbs path = true -> (String.length path < n)%nat ->
  canonical n path tail w = canonical (S (String.length path)) path tail w.
Proof.
  enough (Hgen : forall m n path tail w, IsAbs path = true -> (String.length path < m)%nat -> (String.length path < n)%nat ->
    canonical m path tail w = canonical n path tail w) by (intros Hp Hn; apply Hgen; [done|done|lia]).
  clear. induction m as [|m IH]; intros [|n] path tail w Hp Hm Hn; [lia..|]. cbn [canonical].
  unfold mbind, M_bind. destruct (attempt (eval_symlinks path) w) as [[[r|e]|e] w1]; [done| |done].
  destruct (negb (errors_is e ErrNotExist)); [done|]. cbv zeta.
  destruct (Dir_shorter path Hp) as [->|Hlt]; [by rewrite String.eqb_refl|].
  destruct (Dir path =s path); [done|]. apply IH; [by apply Dir_abs|lia..].
Qed.

(** The canonical path of what exists is what it resolves to. *)
Lemma canonical_resolves path w c w' e : canonical_path path w = (Ok c, w') -> resolves w path e -> c = e.
Proof.
  unfold canonical_path. cbn [canonical]. intros E He. unfold mbind, M_bind, attempt in E.
  destruct (eval_symlinks path w) as [[r|err] w1] eqn:Ev; apply eval_symlinks_run in Ev as (_ & Hok & Hne); cbn in E.
  - unfold mret, M_ret in E. simplify_eq. exact (resolves_functional _ _ _ _ (Hok _ eq_refl) He).
  - destruct (errors_is err ErrNotExist) eqn:En; [|done]. exfalso. by eapply Hne.
Qed.
(** The canonical path of a directory that is still to be made in an existing parent. *)
Lemma canonical_missing path parent w c w' : canonical_path path w = (Ok c, w') ->
  (forall e, ~ resolves w path e) -> resolves w (Dir path) parent -> c = Join parent (Base path).
Proof.
  unfold canonical_path. intros E Hn Hp. cbn [canonical] in E. unfold mbind at 1, M_bind at 1, attempt at 1 in E.
  destruct (eval_symlinks path w) as [[r|err] w1] eqn:Ev; apply eval_symlinks_run in Ev as (Hl & Hok & _); cbn in E.
  { exfalso. by eapply Hn, Hok. }
  destruct (negb (errors_is err ErrNotExist)); [done|]. destruct (Dir path =s path); [done|].
  destruct (String.length path) as [|n]; [done|]. cbn [canonical] in E. unfold mbind, M_bind, attempt in E.
  assert (Hp1 : resolves w1 (Dir path) parent) by (by apply (resolves_layout _ _ _ _ (eq_sym Hl))).
  destruct (eval_symlinks (Dir path) w1) as [[r|err'] w2] eqn:Ev2; apply eval_symlinks_run in Ev2 as (_ & Hok2 & Hne2); cbn in E.
  - unfold mret, M_ret in E. simplify_eq. f_equal. exact (resolves_functional _ _ _ _ (Hok2 _ eq_refl) Hp1).
  - destruct (errors_is err' ErrNotExist) eqn:En; [|done]. exfalso. by eapply Hne2.
Qed.

(** ** The journal lies outside the share store *)

Definition disjoint_paths (p q : string) : Prop :=
  ~ components p `prefix_of` components q /\ ~ components q `prefix_of` components p.

Lemma layout_eq w w' : layout w' = layout w -> dirs w' = dirs w /\ links w' = links w.
Proof. unfold layout. by intros [= -> ->]. Qed.
#[local] Opaque layout.

Lemma within_prefix path parent : IsAbs path = true -> IsAbs parent = true ->
  within path parent = bool_decide (components parent `prefix_of` components path).
Proof. intros H1 H2. by apply Rel_inside. Qed.

Lemma ValidateDirectories_Ok journal share w u w' : ValidateDirectories journal [share] w = (Ok u, w') ->
  exists j p w1 w2, canonical_path (Clean journal) w = (Ok j, w1) /\ canonical_path share w1 = (Ok p, w2)
  /\ within j p = false /\ within p j = false.
Proof.
  unfold ValidateDirectories. intros E. apply bind_Ok_inv in E as (j & w1 & E1 & E).
  apply bind_Ok_inv in E as (p & w2 & E2 & E). exists j, p, w1, w2.
  destruct (within j p), (within p j); by cbn in E.
Qed.

Lemma lstat_dir_missing d w e w' : lstat_dir d w = (Fail e, w') -> errors_is e ErrNotExist = true ->
  links w !! d = None /\ dirs w !! d = None.
Proof. unfold lstat_dir, sys. intros E He. destruct (sched w) as [|[] s]; cbn in E; repeat case_match; by simplify_eq. Qed.

Lemma resolve_journal_Ok directory primary w D parent info w' :
  tree w -> IsAbs directory = true -> Clean directory = directory -> resolves w primary primary ->
  resolve_journal directory primary w = (Ok (D, parent, info), w') ->
  IsAbs D = true /\ disjoint_paths primary D /\ links w !! D = None /\ layout w' = layout w.
Proof.
  intros Ht Ha Hc Hp E. unfold resolve_journal in E.
  apply bind_Ok_inv in E as (par & w1 & E1 & E). apply eval_symlinks_run in E1 as (L1 & R1 & _).
  specialize (R1 _ eq_refl). destruct (resolves_idem w _ _ Ht R1) as (Rp & Pa & Pc).
  cbv zeta in E. set (dir1 := Join par (Base directory)) in *.
  destruct (Join_clean par (Base directory) Pa (Base_ne _)) as [Da Dc]. fold dir1 in Da, Dc.
  apply bind_Ok_inv in E as (u & w2 & E2 & E).
  pose proof (still_run _ _ _ _ (still_ValidateDirectories _ _) E2) as L2. rewrite L1 in L2.
  apply ValidateDirectories_Ok in E2 as (cj & cp & v1 & v2 & C1 & C2 & W1 & W2). rewrite Dc in C1.
  pose proof (still_run _ _ _ _ (still_canonical _ _ _) C1) as LC. rewrite L1 in LC.
  assert (cp = primary) as -> by (eapply canonical_resolves; [exact C2|by eapply resolves_layout]).
  assert (Hp' : IsAbs primary = true) by (by apply (tree_dirs w Ht), (proj2 Hp)).
  assert (Hdis : forall d, IsAbs d = true -> cj = d -> disjoint_paths primary d).
  { intros d Hd ->. rewrite within_prefix in W1, W2 by done. by apply bool_decide_eq_false in W1, W2. }
  apply bind_Ok_inv in E as (entry & w3 & E3 & E). apply attempt_Ok_inv in E3 as (entry' & [= ->] & E3).
  pose proof (still_run _ _ _ _ (still_lstat_dir _) E3) as L3. rewrite L2 in L3.
  destruct entry' as [[sl fi]|e].
  - apply bind_Ok_inv in E as (d2 & w4 & E4 & E). apply eval_symlinks_run in E4 as (L4 & R4 & _).
    specialize (R4 _ eq_refl). apply (resolves_layout w) in R4; [|done]. rewrite L3 in L4.
    destruct (resolves_idem w _ _ Ht R4) as (Rd & Aa & Ac).
    assert (LD : links w !! d2 = None).
    { destruct (links w !! dir1) as [e|] eqn:El; destruct R4 as [R4 _]; rewrite El in R4; cbn in R4; subst;
        [by eapply tree_links|done]. }
    apply bind_Ok_inv in E as (i & w5 & E5 & E). pose proof (still_run _ _ _ _ (still_stat_dir _) E5) as L5.
    apply bind_Ok_inv in E as (u' & w6 & E6 & E). unfold mret, M_ret in E. injection E as <- <- <- <-.
    assert (layout w6 = layout w5) as L6.
    { unfold check_dir in E6. apply bind_Ok_inv in E6 as (uid & w7 & [= _ <-] & E6). unfold lift in E6. by simplify_eq. }
    assert (cj = d2) by (eapply canonical_resolves; [exact C1|apply (resolves_layout w1 w); [by rewrite L1|exact R4]]).
    split_and!; [done|by apply Hdis|done|congruence].
  - destruct (errors_is e ErrNotExist) eqn:En; [|done]. unfold mret, M_ret in E. injection E as <- <- <- <-.
    apply lstat_dir_missing in E3 as [N1 N2]; [|done].
    assert (Hl : links w !! dir1 = None /\ dirs w !! dir1 = None) by (by destruct (layout_eq _ _ L2) as [<- <-]).
    destruct Hl as [Hl Hd].
    split_and!; [done|apply Hdis; [done|]|done|congruence].
    destruct (clean_cases directory Ha Hc) as [->|(l & x & -> & Hpl & Hx)].
    { exfalso. change (Base "/") with "/" in *. unfold dir1 in *. rewrite Join_slash in Hd by done.
      destruct Rp as [_ [i Hi]]. congruence. }
    pose proof (components_plain par Pa) as Hlp. rewrite Clean_rooted in Pc by done.
    unfold dir1 in *. rewrite Base_rooted in * by done. rewrite <- Pc in C1, Hl, Hd |- *.
    rewrite Join_rooted in * by done.
    eapply canonical_missing in C1; [rewrite C1|intros e' [He' [i Hi]]|].
    + rewrite Base_rooted by done. by rewrite Join_rooted.
    + destruct (layout_eq _ _ L1) as [Ld Ll].
      rewrite Ll, Hl in He'. cbn in He'. subst e'. rewrite Ld in Hi. congruence.
    + rewrite Dir_rooted by done. rewrite Pc. by eapply resolves_layout.
Qed.

(** * Opening *)

(** What is published in a directory is durable once the probe has passed. *)
Lemma probe_durable j w w' p raw : inv w -> probe j w = (Ok (), w') ->
  p.1 = j_directory j -> temporary p = false -> visible w p raw -> durable w' p raw.
Proof.
  intros Hi E Hd Hp (f & Hf & Hraw). unfold probe in E.
  apply bind_Ok_inv in E as (name & w1 & E1 & E).
  destruct (create_temp_temporary _ ".approval-probe-" _ _ _ eq_refl E1) as [Hn _].
  destruct (safe_run _ _ _ _ (safe_create_temp (j_directory j) ".approval-probe-" eq_refl) E1 Hi) as [Hi1 He1].
  apply bind_Ok_inv in E as (u1 & w2 & E2 & E).
  destruct (safe_run _ _ _ _ (safe_attempt close safe_close) E2 Hi1) as [Hi2 He2].
  apply bind_Ok_inv in E as (u2 & w3 & E3 & E).
  destruct (safe_run _ _ _ _ (safe_attempt _ (safe_remove name Hn)) E3 Hi2) as [Hi3 He3].
  unfold defer in E. destruct (probe_checks j name w3) as [r w4] eqn:E4.
  destruct (remove name w4) as [r' w5] eqn:E5. injection E as -> <-.
  assert (exists w6, inv w6 /\ evolves w3 w6 /\ sync_dir (j_directory j) w6 = (Ok (), w4)) as (w6 & Hi6 & He6 & Hs).
  { clear E5 He1 He2 He3 Hi1 Hi2 E1 E2 E3. unfold probe_checks in E4.
    apply bind_Ok_inv in E4 as (a1 & v1 & P1 & E4).
    destruct (safe_run _ _ _ _ (safe_publish _ _ _) P1 Hi3) as [Hv1 Hev1].
    apply bind_Ok_inv in E4 as (a2 & v2 & P2 & E4).
    destruct (safe_run _ _ _ _ (safe_attempt _ (safe_publish _ _ _)) P2 Hv1) as [Hv2 Hev2].
    destruct a2 as [|e]; [done|]. destruct (negb (errors_is e ErrExist)); [done|].
    apply bind_Ok_inv in E4 as (a3 & v3 & P3 & E4).
    destruct (safe_run _ _ _ _ (safe_attempt _ (safe_readJournalFile _)) P3 Hv2) as [Hv3 Hev3].
    destruct a3 as [raw3|]; [|done]. destruct (raw3 <>s probe_open); [done|].
    apply bind_Ok_inv in E4 as (a4 & v4 & P4 & E4).
    destruct (safe_run _ _ _ _ (safe_remove name Hn) P4 Hv3) as [Hv4 Hev4].
    exists v4. split_and!; [done| |done]. etrans; [exact Hev1|]. etrans; [exact Hev2|]. by etrans. }
  assert (Hvis : vis w6 !! p = Some f) by (apply He6, He3, He2, He1; done).
  pose proof (sync_dir_Ok _ _ _ _ _ Hs Hd Hvis) as Hdur.
  destruct (safe_run _ _ _ _ (safe_sync_dir _) Hs Hi6) as [Hi4 _].
  destruct (safe_run _ _ _ _ (safe_remove name Hn) E5 Hi4) as [_ He5].
  exists f. split; [by apply He5|done].
Qed.

Lemma OpenJournal_Ok directory flock w j w' : inv w -> OpenJournal directory flock w = (Ok j, w') ->
  resolves w directory (j_directory j) /\ validateJournalDirectory (j_identity j) (euid w) = Ok ()
  /\ j_closed j = false
  /\ (forall p raw, p.1 = j_directory j -> temporary p = false -> visible w p raw -> durable w' p raw).
Proof.
  intros Hi E. unfold OpenJournal in E. destruct (negb (IsAbs directory)); [done|].
  apply bind_Ok_inv in E as (dir & w1 & E1 & E).
  destruct (safe_run _ _ _ _ (safe_eval_symlinks _) E1 Hi) as [Hi1 He1]. apply eval_symlinks_run in E1 as (_ & R & _).
  apply bind_Ok_inv in E as (info & w2 & E2 & E). destruct (safe_run _ _ _ _ (safe_stat_dir _) E2 Hi1) as [Hi2 He2].
  apply bind_Ok_inv in E as (uid & w3 & E3 & E). unfold get_euid in E3. injection E3 as <- <-.
  apply bind_Ok_inv in E as (u & w4 & E4 & E). unfold lift in E4. injection E4 as E4 <-.
  cbv zeta in E. apply bind_Ok_inv in E as (li & w5 & E5 & E).
  destruct (safe_run _ _ _ _ (safe_attempt _ (safe_lstat _)) E5 Hi2) as [Hi5 He5].
  apply bind_Ok_inv in E as (u6 & w6 & E6 & E).
  eapply safe_run in E6 as [Hi6 He6]; [|solve_safe|done].
  apply bind_Ok_inv in E as (u7 & w7 & E7 & E).
  destruct (safe_run _ _ _ _ (safe_AcquireLifetimeLock _ _) E7 Hi6) as [Hi7 He7].
  apply bind_Ok_inv in E as (pr & w8 & E8 & E). apply attempt_Ok_inv in E8 as (pr' & [= ->] & E8).
  destruct pr' as [[]|e]; [|by apply bind_Ok_inv in E as (? & ? & _ & [=])].
  unfold mret, M_ret in E. injection E as <- <-.
  split; [exact (R _ eq_refl)|split; [|split; [done|]]].
  - cbn [j_identity]. destruct u. rewrite <- E4. f_equal. destruct He1 as (_ & _ & <-). by destruct He2 as (_ & _ & <-).
  - intros p raw Hd Hp (f & Hf & Hraw). eapply probe_durable; [exact Hi7|exact E8|done|done|].
    exists f. split; [|done]. apply He7, He6, He5, He2, He1; done.
Qed.

Lemma identity_not_temporary d : temporary (d, journalIdentityName) = false.
Proof. done. Qed.
#[export] Hint Resolve identity_not_temporary : safe.

Definition decodes_to (raw : bytes) (directory : string) : Prop :=
  exists id, decodeRecord decode_identity identityFields raw
             = Ok {| ji_Version := 1; ji_ID := id; ji_Directory := directory |}.

Lemma identity_roundtrip id directory : utf8_valid directory = true ->
  decodes_to (json_print (identity_json {| ji_Version := 1; ji_ID := hex_encode id; ji_Directory := directory |})) directory.
Proof.
  intros Hu. exists (hex_encode id). pose proof (hex_utf8 id) as Hh. revert Hh. generalize (hex_encode id) as h. intros h Hh.
  unfold identity_json. cbn [ji_Version ji_ID ji_Directory].
  record_roundtrip decode_identity (eq_refl (Some {| ji_Version := 1; ji_ID := h; ji_Directory := directory |})).
Qed.

(** The identity behind an opened journal: durable in the primary store and in the
    journal, naming the journal's directory. *)
Record managed (w : world) (primary : string) (j : Journal) (raw : bytes) : Prop := {
  mg_marker : durable w (primary, journalIdentityName) raw;
  mg_identity : durable w (j_directory j, journalIdentityName) raw;
  mg_names : decodes_to raw (j_directory j);
}.

Lemma publishJournalFile_durable p raw w w' : temporary p = false -> inv w ->
  publishJournalFile p raw w = (Ok (), w') -> vis w !! p = None /\ durable w' p raw.
Proof.
  intros Hp Hi E. pose proof (publishJournalFile_spec p raw w Hp Hi) as [_ Hok]. rewrite E in Hok.
  destruct (Hok eq_refl) as (Hn & _ & Hd). split; [done|]. eexists. by split.
Qed.
Lemma unpublished_before w w' p : evolves w w' -> temporary p = false -> vis w' !! p = None -> vis w !! p = None.
Proof. intros (He & _) Hp Hn. destruct (vis w !! p) as [f|] eqn:E; [|done]. by rewrite (He p f Hp E) in Hn. Qed.

Lemma still_readJournalFile p : still (readJournalFile p).
Proof.
  unfold readJournalFile. apply still_bind; [apply still_sys; intros w; by repeat case_match|intros f].
  apply still_bind; [done|intros uid]. apply still_bind; [by apply still_sys|intros _].
  destruct (_ || _); [done|]. apply still_bind; [apply still_attempt, still_sys; done|intros [b|e]; [|done]].
  destruct (32768 <? zlen b)%Z; [done|]. apply still_bind; [by apply still_sys|done].
Qed.
Lemma still_lstat p : still (lstat p).
Proof. apply still_sys. intros w. by case_match. Qed.
Lemma still_sync_dir d : still (sync_dir d).
Proof. apply still_bind; [|intros _]; by apply still_sys. Qed.
Lemma links_mkdir d w r w' : mkdir d w = (r, w') -> links w' = links w.
Proof.
  intros E. change w' with (r, w').2. rewrite <- E. apply (sys_keep links); [done|].
  intros w1. by repeat case_match.
Qed.

(** Both files are there, with the same identity of this directory. *)
Lemma reopen_journal_Ok directory primary marker flock w j w' : inv w ->
  visible w (primary, journalIdentityName) marker -> reopen_journal directory primary marker flock w = (Ok j, w') ->
  visible w (directory, journalIdentityName) marker /\ decodes_to marker directory
  /\ durable w' (primary, journalIdentityName) marker
  /\ exists w1, inv w1 /\ evolves w w1 /\ layout w1 = layout w /\ OpenJournal directory flock w1 = (Ok j, w').
Proof.
  intros Hi Hv E. unfold reopen_journal in E.
  apply bind_Ok_inv in E as (i & w1 & E1 & E). unfold lift in E1. injection E1 as E1 <-.
  destruct (negb (ji_Version i =? 1)%Z || _ || _) eqn:Ec; [done|].
  apply orb_false_iff in Ec as [Ec Hdir]. apply orb_false_iff in Ec as [Hver _].
  apply negb_false_iff in Hdir, Hver. apply String.eqb_eq in Hdir. apply Z.eqb_eq in Hver.
  apply bind_Ok_inv in E as (st & w2 & E2 & E). apply attempt_Ok_inv in E2 as (st' & [= ->] & E2). cbv zeta in E.
  destruct st' as [stored|e]; [|done]. destruct (stored <>s marker) eqn:Es; [done|].
  apply negb_false_iff, String.eqb_eq in Es as ->.
  destruct (safe_run _ _ _ _ (safe_readJournalFile _) E2 Hi) as [Hi2 He2].
  pose proof (still_run _ _ _ _ (still_readJournalFile _) E2) as L2. apply readJournalFile_Ok in E2 as [Hid _].
  apply bind_Ok_inv in E as (u & w3 & E3 & E). destruct u.
  destruct (safe_run _ _ _ _ (safe_sync_dir _) E3 Hi2) as [Hi3 He3].
  pose proof (still_run _ _ _ _ (still_sync_dir _) E3) as L3.
  split; [done|split; [|split]].
  - exists (ji_ID i). rewrite E1. f_equal. destruct i; cbn in *; by subst.
  - destruct Hv as (f & Hf & Hr). destruct (safe_run _ _ _ _ (safe_OpenJournal _ _) E Hi3) as [_ (_ & Hd & _)].
    exists f. split; [|done]. apply Hd; [done|]. eapply sync_dir_Ok; [exact E3|done|]. by apply He2.
  - exists w3. split_and!; [done|by etrans|congruence|done].
Qed.

(** Neither file is there before, both are afterwards. *)
Lemma initialize_journal_Ok directory parent primary missing autoInitialize flock entropy w j w' : inv w ->
  directory <> primary ->
  initialize_journal directory parent primary missing autoInitialize flock entropy w = (Ok j, w') ->
  vis w !! (directory, journalIdentityName) = None /\ vis w !! (primary, journalIdentityName) = None
  /\ (exists id, let marker := json_print (identity_json
        {| ji_Version := 1; ji_ID := hex_encode id; ji_Directory := directory |}) in
      durable w' (primary, journalIdentityName) marker /\ durable w' (directory, journalIdentityName) marker)
  /\ exists w1 w2, inv w1 /\ evolves w w1 /\ links w1 = links w /\ evolves w2 w'
     /\ OpenJournal directory flock w1 = (Ok j, w2).
Proof.
  intros Hi Hne E. unfold initialize_journal in E.
  apply bind_Ok_inv in E as (en & w1 & E1 & E). apply attempt_Ok_inv in E1 as (en' & [= ->] & E1).
  destruct en' as [|e]; [done|]. destruct (negb (errors_is e ErrNotExist)); [done|].
  destruct (safe_run _ _ _ _ (safe_lstat _) E1 Hi) as [Hi1 He1].
  pose proof (still_run _ _ _ _ (still_lstat _) E1) as L1. destruct (layout_eq _ _ L1) as [_ K1].
  apply bind_Ok_inv in E as (u2 & w2 & E2 & E).
  eapply (safe_run _ _ _ _) in E2 as HE2; [|solve_safe|done]. destruct HE2 as [Hi2 He2].
  assert (K2 : links w2 = links w1).
  { destruct missing; [destruct autoInitialize|]; [|done|by injection E2 as _ <-].
    cbn in E2. exact (links_mkdir _ _ _ _ E2). }
  apply bind_Ok_inv in E as (u3 & w3 & E3 & E). destruct (safe_run _ _ _ _ (safe_sync_dir _) E3 Hi2) as [Hi3 He3].
  pose proof (still_run _ _ _ _ (still_sync_dir _) E3) as L3. destruct (layout_eq _ _ L3) as [_ K3].
  apply bind_Ok_inv in E as (j' & w4 & E4 & E). destruct (safe_run _ _ _ _ (safe_OpenJournal _ _) E4 Hi3) as [Hi4 He4].
  apply bind_Ok_inv in E as (pub & w5 & E5 & E). apply attempt_Ok_inv in E5 as (pub' & [= ->] & E5).
  destruct pub' as [[]|e']; [|by apply bind_Ok_inv in E as (? & ? & _ & [=])].
  unfold mret, M_ret in E. injection E as <- <-.
  apply bind_Ok_inv in E5 as (id & w6 & E6 & E5). unfold lift in E6. injection E6 as _ <-. cbv zeta in E5.
  apply bind_Ok_inv in E5 as (u7 & w7 & E7 & E5). destruct u7.
  destruct (safe_run _ _ _ _ (safe_publishJournalFile _ _) E7 Hi4) as [Hi7 He7].
  destruct (safe_run _ _ _ _ (safe_publishJournalFile _ _) E5 Hi7) as [Hi5 He5].
  apply publishJournalFile_durable in E7 as [N1 D1]; [|done|done].
  apply publishJournalFile_durable in E5 as [N2 D2]; [|done|done].
  assert (He : evolves w w4) by (etrans; [exact He1|]; etrans; [exact He2|]; by etrans).
  split_and!.
  - eapply unpublished_before; [|done|exact N2]. by etrans.
  - by eapply unpublished_before.
  - exists id. split; [|done]. by eapply durable_evolves.
  - exists w3, w4. split_and!; [done|etrans; [exact He1|]; by etrans|congruence|by etrans|done].
Qed.

Lemma still_check_dir info : still (check_dir info).
Proof. by apply still_bind. Qed.
Lemma still_check_filesystem parent primaryInfo info : still (check_filesystem parent primaryInfo info).
Proof.
  apply still_bind; [apply still_stat_dir|intros i]. apply still_bind; [apply still_check_dir|intros _]. by destruct (_ || _).
Qed.

Lemma safe_check_filesystem parent primaryInfo info : safe (check_filesystem parent primaryInfo info).
Proof. unfold check_filesystem, check_dir. solve_safe. Qed.
Lemma looks_check_dir info : looks (check_dir info).
Proof. unfold check_dir. solve_looks. Qed.
#[export] Hint Resolve looks_check_dir : safe.
Lemma looks_check_filesystem parent primaryInfo info : looks (check_filesystem parent primaryInfo info).
Proof. unfold check_filesystem. solve_looks. Qed.
Lemma looks_canonical fuel path tail : looks (canonical fuel path tail).
Proof. revert path tail. induction fuel as [|fuel IH]; intros path tail; cbn [canonical]; cbv zeta; solve_looks. Qed.
Lemma looks_lstat_dir d : looks (lstat_dir d).
Proof. apply looks_sys. intros w. by repeat case_match. Qed.
#[export] Hint Resolve looks_canonical looks_lstat_dir : safe.
Lemma looks_ValidateDirectories journal shares : looks (ValidateDirectories journal shares).
Proof.
  unfold ValidateDirectories, canonical_path. apply looks_bind; [solve_looks|]. intros c.
  induction shares as [|s shares IH]; solve_looks.
Qed.
#[export] Hint Resolve looks_ValidateDirectories : safe.
Lemma looks_resolve_journal directory primary : looks (resolve_journal directory primary).
Proof. unfold resolve_journal. solve_looks. Qed.
Lemma IsAbs_clean p : IsAbs p = true -> IsAbs (Clean p) = true /\ Clean (Clean p) = Clean p.
Proof. intros Hp. split; [rewrite Clean_rooted by done; apply IsAbs_rooted|by apply Clean_idem]. Qed.

Section Managed.
Context `{Externals} `{TxCodecs}.

(** The first part of opening: the two directories, outside one another. *)
Lemma openManagedJournal_parts directory primary autoInitialize flock entropy w j w' :
  inv w -> tree w -> openManagedJournal directory primary autoInitialize flock entropy w = (Ok j, w') ->
  exists P D parent missing w1, resolves w primary P /\ disjoint_paths P D /\ links w !! D = None
  /\ inv w1 /\ evolves w w1 /\ entries w1 = entries w /\ links w1 = links w
  /\ ((exists marker, visible w (P, journalIdentityName) marker /\ reopen_journal D P marker flock w1 = (Ok j, w'))
      \/ initialize_journal D parent P missing autoInitialize flock entropy w1 = (Ok j, w')).
Proof.
  intros Hi Ht E. unfold openManagedJournal in E. destruct (negb (IsAbs primary) || _) eqn:Ea; [done|].
  apply orb_false_iff in Ea as [_ Hd]. apply negb_false_iff in Hd. cbv zeta in E.
  apply bind_Ok_inv in E as (P & w1 & E1 & E).
  destruct (safe_run _ _ _ _ (safe_eval_symlinks _) E1 Hi) as [Hi1 He1].
  pose proof (looks_entries _ _ _ _ (looks_eval_symlinks _) E1) as N1.
  apply eval_symlinks_run in E1 as (L1 & R1 & _). specialize (R1 _ eq_refl).
  destruct (resolves_idem _ _ _ Ht R1) as (RP & _).
  apply bind_Ok_inv in E as (pinfo & w2 & E2 & E).
  destruct (safe_run _ _ _ _ (safe_stat_dir _) E2 Hi1) as [Hi2 He2].
  pose proof (looks_entries _ _ _ _ (looks_stat_dir _) E2) as N2.
  pose proof (still_run _ _ _ _ (still_stat_dir _) E2) as L2.
  apply bind_Ok_inv in E as (u3 & w3 & E3 & E).
  assert (w3 = w2) as ->.
  { unfold check_dir in E3. apply bind_Ok_inv in E3 as (uid & v & [= _ <-] & E3). unfold lift in E3. by injection E3. }
  apply bind_Ok_inv in E as ([[D parent] info] & w4 & E4 & E).
  eapply safe_run in E4 as HE4; [|unfold resolve_journal, check_dir; solve_safe|done]. destruct HE4 as [Hi4 He4].
  eapply looks_entries in E4 as N4; [|apply looks_resolve_journal].
  destruct (IsAbs_clean directory Hd) as [Ha Hc].
  assert (L2' : layout w2 = layout w) by congruence.
  apply resolve_journal_Ok in E4 as (_ & Hdis & HlD & L4);
    [|by eapply tree_layout|done|done|apply (resolves_layout w2 w); [by rewrite L2'|exact RP]].
  apply bind_Ok_inv in E as (u5 & w5 & E5 & E).
  assert (inv w5 /\ evolves w4 w5 /\ layout w5 = layout w4 /\ entries w5 = entries w4) as (Hi5 & He5 & L5 & N5).
  { destruct autoInitialize; [|injection E5 as _ <-; done].
    pose proof (safe_run _ _ _ _ (safe_check_filesystem _ _ _) E5 Hi4) as [? ?].
    pose proof (still_run _ _ _ _ (still_check_filesystem _ _ _) E5) as ?.
    pose proof (looks_entries _ _ _ _ (looks_check_filesystem _ _ _) E5) as ?. done. }
  apply bind_Ok_inv in E as (mk & w6 & E6 & E). apply attempt_Ok_inv in E6 as (mk' & [= ->] & E6).
  destruct (safe_run _ _ _ _ (safe_readJournalFile _) E6 Hi5) as [Hi6 He6].
  pose proof (still_run _ _ _ _ (still_readJournalFile _) E6) as L6.
  pose proof (looks_entries _ _ _ _ (looks_readJournalFile _) E6) as N6.
  assert (HL : layout w6 = layout w) by congruence.
  assert (HE : evolves w w6) by (etrans; [exact He1|]; etrans; [exact He2|]; etrans; [exact He4|]; by etrans).
  assert (HN : entries w6 = entries w) by congruence.
  destruct (layout_eq _ _ L2') as [_ K2]. rewrite K2 in HlD. destruct (layout_eq _ _ HL) as [_ K6].
  exists P, D, parent, (match info with None => true | _ => false end), w6. split_and!; try done.
  destruct mk' as [marker|e].
  - left. exists marker. split; [|done]. apply readJournalFile_Ok in E6 as [Hv _].
    apply (visible_entries w5); [congruence|done].
  - right. by destruct (negb (errors_is e ErrNotExist)).
Qed.

Lemma resolves_unlinked w d e : links w !! d = None -> resolves w d e -> e = d.
Proof. intros Hl [He _]. by rewrite Hl in He. Qed.
Lemma visible_evolves w w' p raw : evolves w w' -> temporary p = false -> visible w p raw -> visible w' p raw.
Proof. intros (He & _) Hp (f & Hf & Hr). exists f. auto. Qed.

Lemma openManagedJournal_managed directory primary autoInitialize flock entropy w j w' :
  inv w -> tree w -> utf8_valid (j_directory j) = true ->
  openManagedJournal directory primary autoInitialize flock entropy w = (Ok j, w') ->
  exists P raw, resolves w primary P /\ disjoint_paths P (j_directory j) /\ managed w' P j raw
  /\ validateJournalDirectory (j_identity j) (euid w) = Ok () /\ j_closed j = false
  /\ (visible w (P, journalIdentityName) raw /\ visible w (j_directory j, journalIdentityName) raw
      \/ vis w !! (P, journalIdentityName) = None /\ vis w !! (j_directory j, journalIdentityName) = None).
Proof.
  intros Hi Ht Hu E.
  apply openManagedJournal_parts in E as (P & D & parent & missing & w1 & HP & Hdis & HlD & Hi1 & He1 & HN & HL & E); [|done..].
  assert (Hback : forall p raw, visible w1 p raw -> visible w p raw) by (intros p raw; by apply visible_entries).
  assert (Heu : euid w1 = euid w) by apply He1.
  destruct E as [(raw & Hv & E)|E].
  - apply (visible_evolves w w1) in Hv as Hv1; [|done|done].
    destruct (reopen_journal_Ok _ _ _ _ _ _ _ Hi1 Hv1 E) as (Hid & Hnm & Hdm & w2 & Hi2 & He2 & L2 & Eo).
    destruct (OpenJournal_Ok _ _ _ _ _ Hi2 Eo) as (Ro & Hown & Hcl & Hdur).
    destruct (layout_eq _ _ L2) as [_ K2].
    apply resolves_unlinked in Ro; [|by rewrite K2, HL]. rewrite Ro in *.
    exists P, raw. split_and!; [done|done| |rewrite <- Heu; by destruct He2 as (_ & _ & <-)|done|left; auto].
    split; rewrite ?Ro; [done|apply Hdur; [done|done|by apply (visible_evolves w1 w2)]|done].
  - assert (Hne : D <> P) by (intros ->; by apply (proj1 Hdis)).
    destruct (initialize_journal_Ok _ _ _ _ _ _ _ _ _ _ Hi1 Hne E)
      as (N1 & N2 & (id & D1 & D2) & w2 & w3 & Hi2 & He2 & K2 & He3 & Eo).
    destruct (OpenJournal_Ok _ _ _ _ _ Hi2 Eo) as (Ro & Hown & Hcl & _).
    apply resolves_unlinked in Ro; [|by rewrite K2, HL]. rewrite Ro in *.
    assert (Hvis : vis w1 = vis w) by (unfold entries in HN; congruence). rewrite Hvis in N1, N2.
    eexists P, _. split_and!; [done|done| |rewrite <- Heu; by destruct He2 as (_ & _ & <-)|done|right; auto].
    split; rewrite ?Ro; [exact D1|exact D2|by apply identity_roundtrip].
Qed.

(** (C4) A managed journal is bound to the primary store.  When opening succeeds, whatever
    faults occurred: the journal lies outside the resolved primary store and the store
    outside it; one identity is durable in both directories and names the journal's; the
    directory belongs to the process and only it may write there; and the identity was
    either in both directories before, unchanged, or in neither, so that lost or foreign
    evidence is never taken for a fresh installation. *)
Theorem managed_open_sound directory primary autoInitialize flock entropy w j w' :
  inv w -> tree w -> utf8_valid (j_directory j) = true ->
  openManagedJournal directory primary autoInitialize flock entropy w = (Ok j, w') ->
  exists P raw, resolves w primary P /\ disjoint_paths P (j_directory j) /\ managed w' P j raw
  /\ validateJournalDirectory (j_identity j) (euid w) = Ok () /\ j_closed j = false
  /\ (visible w (P, journalIdentityName) raw /\ visible w (j_directory j, journalIdentityName) raw
      \/ vis w !! (P, journalIdentityName) = None /\ vis w !! (j_directory j, journalIdentityName) = None).
Proof.
  apply openManagedJournal_managed.
Qed.

(** A step of an installation over its lifetime: a step on the journal files (operations of
    any handle, environment, crash), an attempt to open the journal with any settings, or
    the closing of a handle. *)
Inductive mstep : world -> world -> Prop :=
  | mstep_journal w w' : jstep w w' -> mstep w w'
  | mstep_open directory primary autoInitialize flock entropy w :
      mstep w (openManagedJournal directory primary autoInitialize flock entropy w).2
  | mstep_close j w : mstep w (Close j w).2.

Lemma mstep_durable w w' : mstep w w' -> inv w ->
  inv w' /\ forall p raw, temporary p = false -> durable w p raw -> durable w' p raw.
Proof.
  intros Hs Hi. destruct Hs as [w w' Hs|directory primary ai flock entropy w|j w]; [by apply jstep_durable|..].
  - destruct (safe_openManagedJournal directory primary ai flock entropy w Hi) as [Hi' He].
    split; [done|]. intros p raw Hp. by apply durable_evolves.
  - destruct (safe_Close j w Hi) as [Hi' He]. split; [done|]. intros p raw Hp. by apply durable_evolves.
Qed.
Lemma msteps_durable w w' : rtc mstep w w' -> inv w ->
  inv w' /\ forall p raw, temporary p = false -> durable w p raw -> durable w' p raw.
Proof.
  induction 1 as [w|w w1 w' Hs _ IH]; intros Hi; [done|].
  destruct (mstep_durable _ _ Hs Hi) as [Hi1 Hd1]. destruct (IH Hi1) as [Hi2 Hd2]. auto.
Qed.

(** A later opening over the same primary store finds the same journal. *)
Lemma managed_journal_pinned j j' P raw w1 w2 directory primary autoInitialize flock entropy w3 :
  inv w1 -> managed w1 P j raw -> rtc mstep w1 w2 -> tree w2 -> utf8_valid (j_directory j') = true ->
  openManagedJournal directory primary autoInitialize flock entropy w2 = (Ok j', w3) ->
  resolves w2 primary P -> j_directory j' = j_directory j.
Proof.
  intros Hi [Hm _ Hn] Hrun Ht Hu E HP. destruct (msteps_durable _ _ Hrun Hi) as [Hi2 Hd2].
  apply Hd2 in Hm; [|done]. apply durable_visible in Hm; [|done|done].
  apply openManagedJournal_managed in E as (P' & raw' & HP' & _ & [_ _ Hn'] & _ & _ & Hor); [|done..].
  rewrite (resolves_functional _ _ _ _ HP' HP) in Hor. destruct Hor as [[Hv _]|[Hv _]].
  - rewrite (visible_unique _ _ _ _ Hv Hm) in Hn'. destruct Hn as [id Hn], Hn' as [id' Hn']. congruence.
  - destruct Hm as (f & Hf & _). congruence.
Qed.

(** (C3) One execution per approved request over the lifetime of the installation: the
    journal is opened and a binding of [x] returns nil; after any faults, crashes, other
    openings and other settings, the journal is opened again over the same primary store,
    with any journal directory configured.  Then it is the same journal, and a binding that
    returns nil for the same request is of the same [x]: pointing the configuration at
    another directory cannot make the signer forget. *)
Theorem managed_execution_unique directory primary ai flock entropy directory' primary' ai' flock' entropy'
    j j' P x y w1 w2 w3 w4 w5 w6 w7 w8 :
  inv w1 -> tree w1 -> resolves w1 primary P -> utf8_valid (j_directory j) = true ->
  openManagedJournal directory primary ai flock entropy w1 = (Ok j, w2) ->
  rtc mstep w2 w3 -> BindExecution j x w3 = (Ok (), w4) -> rtc mstep w4 w5 ->
  tree w5 -> resolves w5 primary' P -> utf8_valid (j_directory j') = true ->
  openManagedJournal directory' primary' ai' flock' entropy' w5 = (Ok j', w6) ->
  rtc mstep w6 w7 -> BindExecution j' y w7 = (Ok (), w8) ->
  ex_OrgID x = ex_OrgID y -> ex_RequestID x = ex_RequestID y ->
  j_directory j' = j_directory j /\ x = y.
Proof.
  intros Hi1 Ht1 HP1 Hu E1 R1 Hx R2 Ht5 HP5 Hu' E2 R3 Hy Ho Hq.
  destruct (safe_run _ _ _ _ (safe_openManagedJournal _ _ _ _ _) E1 Hi1) as [Hi2 _].
  destruct (openManagedJournal_managed _ _ _ _ _ _ _ _ Hi1 Ht1 Hu E1) as (P1 & raw & HP1' & _ & Hm & _).
  rewrite (resolves_functional _ _ _ _ HP1' HP1) in Hm.
  destruct (msteps_durable _ _ R1 Hi2) as [Hi3 _]. destruct (bind_durable _ _ _ _ Hi3 Hx) as (Hi4 & _ & Hd4).
  destruct (msteps_durable _ _ R2 Hi4) as [Hi5 Hd5].
  assert (R : rtc mstep w2 w5).
  { etrans; [exact R1|]. eapply rtc_l; [|exact R2]. apply mstep_journal.
    pose proof (jstep_op j (OpBind x) w3) as Hs. cbn [jop_run] in Hs. by rewrite Hx in Hs. }
  assert (Hj : j_directory j' = j_directory j) by (by eapply (managed_journal_pinned j j' P raw w2 w5)).
  split; [done|]. destruct (safe_run _ _ _ _ (safe_openManagedJournal _ _ _ _ _) E2 Hi5) as [Hi6 He6].
  destruct (msteps_durable _ _ R3 Hi6) as [Hi7 Hd7].
  eapply (bound_once j j' x y w3 w4 w7 w8); [done|done| |done|done|done|done].
  apply Hd7, (durable_evolves w5 w6), Hd5; auto with safe.
Qed.
End Managed.

(** * A concrete installation *)

Definition dir_info (ino : Z) : FileInfo :=
  {| fi_isdir := true; fi_uid := 1000; fi_perm := 448; fi_dev := 1; fi_ino := ino |}.
Definition install_dirs : gmap string FileInfo :=
  {["/" := dir_info 1; "/srv" := dir_info 2; "/srv/primary" := dir_info 3]}.
Definition install_world : world := {|
  vis := ∅; dur := ∅; dirty := ∅; dirs := install_dirs; links := ∅; euid := 1000; sched := [] |}.
Definition install_id : bytes := "0123456789abcdef0123456789abcdef".
Definition install_open (w : world) : res Journal * world :=
  openManagedJournal "/srv/approval" "/srv/primary" true Locked (Ok install_id) w.
Definition install_journal : Journal :=
  {| j_directory := "/srv/approval"; j_identity := dir_info 4; j_closed := false; j_scan := None |}.

Definition world_opened : world := (install_open install_world).2.
Definition installed_admitted : world := (Admit install_journal fixture_admission world_opened).2.
Definition installed_decided : world := (SaveReceipt install_journal fixture_saved installed_admitted).2.
Definition installed_applied : world :=
  (Acknowledge install_journal "org-1" "req-1" fixture_application installed_decided).2.
Definition installed_bound : world := (BindExecution install_journal fixture_execution installed_applied).2.
(** The process restarts and opens the journal again. *)
Definition installed_again : world := (install_open installed_bound).2.

Lemma install_tree w : dirs w = install_dirs \/ dirs w = <["/srv/approval" := dir_info 4]> install_dirs -> links w = ∅ -> tree w.
Proof.
  intros Hd Hl. split; [|intros d e; by rewrite Hl, lookup_empty].
  assert (Hall : map_Forall (fun d (_ : FileInfo) => (IsAbs d && (Clean d =s d)) = true) (dirs w)).
  { destruct Hd as [-> | ->]; unfold install_dirs;
      repeat (apply map_Forall_insert_2; [reflexivity|]); apply map_Forall_empty || (apply map_Forall_singleton; reflexivity). }
  intros d [i Hi]. specialize (Hall d i Hi). cbn beta in Hall. apply andb_true_iff in Hall as [Ha Hc].
  split; [done|]. by apply String.eqb_eq.
Qed.
Lemma install_world_tree : tree install_world.
Proof. apply install_tree; [by left|done]. Qed.
Lemma install_inv : inv install_world.
Proof. split; [intros p f _; cbn; by rewrite lookup_empty|]. cbn. set_solver. Qed.

Lemma install_opens : install_open install_world = (Ok install_journal, world_opened).
Proof.
  assert (E : (install_open install_world).1 = Ok install_journal) by (vm_compute; reflexivity). exact (run_fst _ _ _ E).
Qed.
Lemma install_opens_again : install_open installed_bound = (Ok install_journal, installed_again).
Proof.
  assert (E : (install_open installed_bound).1 = Ok install_journal) by (vm_compute; reflexivity). exact (run_fst _ _ _ E).
Qed.
Lemma install_binds : BindExecution install_journal fixture_execution installed_applied = (Ok (), installed_bound).
Proof.
  assert (E : (BindExecution install_journal fixture_execution installed_applied).1 = Ok ()) by (vm_compute; reflexivity). exact (run_fst _ _ _ E).
Qed.
Lemma install_bound_tree : tree installed_bound.
Proof. apply install_tree; [right|]; vm_compute; reflexivity. Qed.
Lemma install_run : rtc mstep world_opened installed_applied.
Proof.
  eapply rtc_l; [apply mstep_journal, (jstep_op install_journal (OpAdmit fixture_admission))|].
  eapply rtc_l; [apply mstep_journal, (jstep_op install_journal (OpReceipt fixture_saved))|].
  eapply rtc_l; [apply mstep_journal, (jstep_op install_journal (OpAck "org-1" "req-1" fixture_application))|].
  apply rtc_refl.
Qed.

Lemma install_resolves : resolves install_world "/srv/primary" "/srv/primary".
Proof. split; [vm_compute; reflexivity|eexists; vm_compute; reflexivity]. Qed.
Lemma install_bound_resolves : resolves installed_bound "/srv/primary" "/srv/primary".
Proof. split; [vm_compute; reflexivity|eexists; vm_compute; reflexivity]. Qed.

Lemma managed_open_sound_witness : exists P raw, managed world_opened P install_journal raw
  /\ vis install_world !! (P, journalIdentityName) = None.
Proof.
  destruct (managed_open_sound "/srv/approval" "/srv/primary" true Locked (Ok install_id) install_world install_journal
    world_opened install_inv install_world_tree eq_refl install_opens)
    as (P & raw & _ & _ & Hm & _). exists P, raw. split; [exact Hm|apply lookup_empty].
Defined.

Lemma managed_execution_unique_witness :
  j_directory install_journal = j_directory install_journal /\ fixture_execution = fixture_execution.
Proof.
  destruct (BindExecution install_journal fixture_execution installed_again) as [r w8] eqn:E.
  assert (Hr : r = Ok ()) by (apply (f_equal fst) in E; cbn in E; rewrite <- E; vm_compute; reflexivity). subst r.
  exact (managed_execution_unique "/srv/approval" "/srv/primary" true Locked (Ok install_id)
    "/srv/approval" "/srv/primary" true Locked (Ok install_id) install_journal install_journal "/srv/primary"
    fixture_execution fixture_execution install_world world_opened installed_applied installed_bound installed_bound
    installed_again installed_again w8 install_inv install_world_tree
    install_resolves eq_refl install_opens install_run install_binds (rtc_refl _ _)
    install_bound_tree install_bound_resolves eq_refl
    install_opens_again (rtc_refl _ _) E eq_refl eq_refl).
Defined.
