(* ===== verification/Router.v ===== *)
(** [internal/localrouter]: the router that joins the two local parties of a DKG
    session to each other and to the platform.  [validation.go] is modelled by the
    functions on [frameValidator]; [router.go] by [lstep], which performs one atomic
    section of a goroutine (between two points where another one can run), and by
    [rstep], which interleaves any number of goroutines. *)
From stdpp Require Import base tactics option list strings numbers gmap relations.
From Stdlib Require Import ZArith Lia Ascii String.
From S2P Require Import Prelude GoText Sha256.

#[local] Open Scope string_scope.

(** * The frame of the MPC core library, with the fields the repository uses *)

Record Frame := {
  f_SessionID : string; f_MessageID : string; f_Seq : Z; f_Round : Z; f_RoundHint : Z;
  f_Broadcast : bool; f_Stage : string; f_Protocol : string; f_FromParty : string;
  f_ToParty : string; f_MessageType : string; f_Payload : bytes; f_PayloadHash : string;
  f_DerivationContextHash : string;
}.

#[export] Instance Frame_eq_dec : EqDecision Frame.
Proof. solve_decision. Defined.

(** * validation.go *)

Record Config := {
  SessionID : string; PlatformPartyID : string; PrimaryPartyID : string;
  RecoveryPartyID : string; Stage : string; Protocol : string;
}.

(** [frameRecord.digest]. *)
Abbreviation frameRecord := bytes (only parsing).
Record sequenceRecord := { messageID : string; digest : bytes }.

Record frameValidator := {
  seen : gmap string frameRecord;
  maxSequence : gmap string Z;
  sequenceOwner : gmap string (gmap Z sequenceRecord);
}.

Definition newFrameValidator : frameValidator :=
  {| seen := ∅; maxSequence := ∅; sequenceOwner := ∅ |}.

Definition payloadHash (payload : bytes) : string :=
  hex_encode (String.substring 0 8 (sha256 payload)).

Definition frameKey (frame : Frame) : string :=
  let recipient := if f_Broadcast frame then "*" else f_ToParty frame in
  String.concat "|" [f_SessionID frame; f_FromParty frame; recipient; f_MessageID frame;
                     format_int (f_Seq frame)].

(** [%t] and the [\x00]-separated [Sprintf] formats. *)
Definition format_bool (b : bool) : string := if b then "true" else "false".
Definition nul : ascii := "000".
Definition nul_join : list string -> string := String.concat (String nul "").

Definition frame_text (frame : Frame) : string :=
  nul_join [f_SessionID frame; f_Stage frame; f_Protocol frame; format_int (f_Seq frame);
    format_int (f_Round frame); format_int (f_RoundHint frame); format_bool (f_Broadcast frame);
    f_FromParty frame; f_ToParty frame; f_MessageType frame; f_PayloadHash frame;
    f_DerivationContextHash frame; hex_encode (f_Payload frame)].
Definition frameDigest (frame : Frame) : bytes := sha256 (frame_text frame).

Definition sequence_text (frame : Frame) : string :=
  nul_join [f_SessionID frame; f_Stage frame; f_Protocol frame; format_int (f_Seq frame);
    format_int (f_Round frame); format_int (f_RoundHint frame); format_bool (f_Broadcast frame);
    f_FromParty frame; f_MessageType frame; f_PayloadHash frame;
    f_DerivationContextHash frame; hex_encode (f_Payload frame)].
Definition frameSequenceDigest (frame : Frame) : bytes := sha256 (sequence_text frame).

Definition validateRecipient (c : Config) (frame : Frame) : option error :=
  if f_Broadcast frame then
    if f_ToParty frame <>s "" then Some (ESent ErrInvalidFrame) else None
  else if (f_ToParty frame =s "") || (f_ToParty frame =s f_FromParty frame) then
    Some (ESent ErrInvalidFrame)
  else if (f_ToParty frame <>s PlatformPartyID c) && (f_ToParty frame <>s PrimaryPartyID c)
          && (f_ToParty frame <>s RecoveryPartyID c) then Some (ESent ErrInvalidFrame)
  else None.

(** The checks of [validateAndRecord] before it touches its tables. *)
Definition invalid_header (c : Config) (frame : Frame) (authenticatedSender : string) : bool :=
  (f_SessionID frame <>s SessionID c) || (f_Stage frame <>s Stage c)
  || negb (equal_fold (f_Protocol frame) (Protocol c))
  || (f_FromParty frame <>s authenticatedSender) || (f_MessageID frame =s "")
  || (f_Seq frame =? 0)%Z
  || ((f_Round frame =? 0)%Z && (f_RoundHint frame =? 0)%Z) || (f_Payload frame =s "").

(** A Go map read of an absent key gives the zero value. *)
Definition max_of (v : frameValidator) (party : string) : Z :=
  default 0%Z (maxSequence v !! party).
Definition owners_of (v : frameValidator) (party : string) : gmap Z sequenceRecord :=
  default ∅ (sequenceOwner v !! party).

Definition owner_conflict (o : option sequenceRecord) (frame : Frame) : bool :=
  match o with
  | Some owner => (messageID owner <>s f_MessageID frame)
                  || (digest owner <>s frameSequenceDigest frame)
  | None => false
  end.

Definition validateAndRecord (c : Config) (v : frameValidator) (frame : Frame)
    (authenticatedSender : string) : frameValidator * option error :=
  if invalid_header c frame authenticatedSender then (v, Some (ESent ErrInvalidFrame))
  else if negb (f_Round frame =? 0)%Z && negb (f_RoundHint frame =? 0)%Z
          && negb (f_Round frame =? f_RoundHint frame)%Z then (v, Some (ESent ErrInvalidFrame))
  else if (f_PayloadHash frame <>s "")
          && (f_PayloadHash frame <>s payloadHash (f_Payload frame)) then
    (v, Some (ESent ErrInvalidFrame))
  else match validateRecipient c frame with
  | Some e => (v, Some e)
  | None =>
    let from := f_FromParty frame in
    let owners := owners_of v from in
    let v := {| seen := seen v; maxSequence := maxSequence v;
                sequenceOwner := <[from := owners]> (sequenceOwner v) |} in
    if (f_Seq frame <? max_of v from)%Z then (v, Some (ESent ErrInvalidFrame))
    else if owner_conflict (owners !! f_Seq frame) frame then (v, Some (ESent ErrFrameConflict))
    else match seen v !! frameKey frame with
    | Some previous =>
        if previous <>s frameDigest frame then (v, Some (ESent ErrFrameConflict))
        else (v, Some (ESent ErrDuplicateFrame))
    | None =>
        ({| seen := <[frameKey frame := frameDigest frame]> (seen v);
            maxSequence :=
              if (max_of v from <? f_Seq frame)%Z
              then <[from := f_Seq frame]> (maxSequence v) else maxSequence v;
            sequenceOwner :=
              <[from := <[f_Seq frame := {| messageID := f_MessageID frame;
                                            digest := frameSequenceDigest frame |}]> owners]>
              (sequenceOwner v) |}, None)
    end
  end.

(** * router.go: shared state *)

Definition partyQueueCapacity : nat := 256.

(** [endpoints] maps a local party to the contents of its inbound channel;
    [receiveCancel] says whether a cancel function is stored and [receiveCanceled]
    whether it was called; the [Once] values and closable channels are flags. *)
Record Router := {
  config : Config;
  validator : frameValidator;
  endpoints : gmap string (list Frame);
  terminalErr : option error;
  finishing : bool;
  receiveCancel : bool;
  receiveCanceled : bool;
  startOnce : bool;
  closeOnce : bool;
  finishOnce : bool;
  receiveDone : bool;
  finishErr : option error;
  finished : bool;
  done : bool;
}.

Definition New (c : Config) : res Router :=
  if (SessionID c =s "") || (Stage c =s "") || (Protocol c =s "") || (PlatformPartyID c =s "")
     || (PrimaryPartyID c =s "") || (RecoveryPartyID c =s "") then
    Fail (ENew "local router requires a complete immutable frame context")
  else if (PlatformPartyID c =s PrimaryPartyID c) || (PlatformPartyID c =s RecoveryPartyID c)
          || (PrimaryPartyID c =s RecoveryPartyID c) then
    Fail (ENew "local router parties must be distinct")
  else Ok {| config := c; validator := newFrameValidator;
             endpoints := <[PrimaryPartyID c := []]> {[RecoveryPartyID c := []]};
             terminalErr := None; finishing := false; receiveCancel := false;
             receiveCanceled := false; startOnce := false; closeOnce := false;
             finishOnce := false; receiveDone := false; finishErr := None;
             finished := false; done := false |}.

(** [Transport(partyID)] finds an endpoint or reports [ErrUnsupportedParty]. *)
Definition Transport (r : Router) (partyID : string) : res string :=
  match endpoints r !! partyID with
  | Some _ => Ok partyID
  | None => Fail (ESent ErrUnsupportedParty)
  end.

Definition set_validator (v : frameValidator) (r : Router) : Router :=
  Build_Router (config r) v (endpoints r) (terminalErr r) (finishing r) (receiveCancel r)
    (receiveCanceled r) (startOnce r) (closeOnce r) (finishOnce r) (receiveDone r)
    (finishErr r) (finished r) (done r).
Definition set_endpoints (q : gmap string (list Frame)) (r : Router) : Router :=
  Build_Router (config r) (validator r) q (terminalErr r) (finishing r) (receiveCancel r)
    (receiveCanceled r) (startOnce r) (closeOnce r) (finishOnce r) (receiveDone r)
    (finishErr r) (finished r) (done r).

Definition currentError (r : Router) : option error :=
  if done r then
    match terminalErr r with Some e => Some e | None => Some (ESent ErrRouterClosed) end
  else None.

Definition Err : Router -> option error := currentError.

Definition markReceiverDone (r : Router) : Router :=
  Build_Router (config r) (validator r) (endpoints r) (terminalErr r) (finishing r)
    (receiveCancel r) (receiveCanceled r) (startOnce r) (closeOnce r) (finishOnce r) true
    (finishErr r) (finished r) (done r).

(** The body under [closeOnce], shared by [fail] and [closeNormally]: the error to
    store, then the cancellation of the receiver and the closing of [done]. *)
Definition close_with (e : option error) (r : Router) : Router :=
  Build_Router (config r) (validator r) (endpoints r) e (finishing r) (receiveCancel r)
    (receiveCanceled r || receiveCancel r) (startOnce r) true (finishOnce r) (receiveDone r)
    (finishErr r) (finished r) true.

Definition fail (err : option error) (r : Router) : Router :=
  let err := match err with Some e => e | None => ESent ErrRouterClosed end in
  if closeOnce r then r else close_with (Some err) r.

Definition closeNormally (r : Router) : Router :=
  if closeOnce r then r
  else close_with (match terminalErr r with
                   | None => Some (ESent ErrRouterClosed)
                   | e => e
                   end) r.

(** [Start].  Its [Once] body has one critical section; a concurrent [Finish] that
    reaches [startOnce] waits for it, so the body is one atomic step.  The flag says
    whether the receiver goroutine is started. *)
Definition Start (r : Router) : Router * bool :=
  if startOnce r then (r, false)
  else
    let blocked := finishing r || bool_decide (is_Some (terminalErr r)) in
    (Build_Router (config r) (validator r) (endpoints r) (terminalErr r) (finishing r)
       (if blocked then receiveCancel r else true) (receiveCanceled r) true (closeOnce r)
       (finishOnce r) (receiveDone r || blocked) (finishErr r) (finished r) (done r),
     negb blocked).

(** The sections of [Finish], in the order it performs them. *)
Definition finish_begin (r : Router) : Router :=
  Build_Router (config r) (validator r) (endpoints r) (terminalErr r) true (receiveCancel r)
    (receiveCanceled r) (startOnce r) (closeOnce r) true (receiveDone r) (finishErr r)
    (finished r) (done r).
Definition finish_start_once (r : Router) : Router :=
  if startOnce r then r
  else Build_Router (config r) (validator r) (endpoints r) (terminalErr r) (finishing r)
    (receiveCancel r) (receiveCanceled r) true (closeOnce r) (finishOnce r) true (finishErr r)
    (finished r) (done r).
Definition finish_cancel (r : Router) : Router :=
  Build_Router (config r) (validator r) (endpoints r) (terminalErr r) (finishing r)
    (receiveCancel r) (receiveCanceled r || receiveCancel r) (startOnce r) (closeOnce r)
    (finishOnce r) (receiveDone r) (finishErr r) (finished r) (done r).
Definition finish_read (r : Router) : Router :=
  Build_Router (config r) (validator r) (endpoints r) (terminalErr r) (finishing r)
    (receiveCancel r) (receiveCanceled r) (startOnce r) (closeOnce r) (finishOnce r)
    (receiveDone r) (terminalErr r) (finished r) (done r).
Definition finish_close (r : Router) : Router :=
  let r := match finishErr r with None => closeNormally r | Some _ => r end in
  Build_Router (config r) (validator r) (endpoints r) (terminalErr r) (finishing r)
    (receiveCancel r) (receiveCanceled r) (startOnce r) (closeOnce r) (finishOnce r)
    (receiveDone r) (finishErr r) true (done r).

(** * router.go: goroutines *)

(** Where a frame goes: a local party's channel or the platform transport. *)
Inductive target := Local (party : string) | Network.
#[export] Instance target_eq_dec : EqDecision target.
Proof. solve_decision. Defined.

Inductive origin := FromParty | FromNetwork.
#[export] Instance origin_eq_dec : EqDecision origin.
Proof. solve_decision. Defined.

(** The points of a goroutine at which others can run. *)
Inductive pc :=
  | StartCall
  | SendCheck (party : string) (frame : Frame)
  | SendValidate (party : string) (frame : Frame)
  | Routing (who : origin) (frame : Frame) (targets : list target)
  | SendReturned (e : option error)
  | RecvCheck (party : string)
  | RecvSelect (party : string)
  | RecvRecheck (party : string) (outcome : res Frame)
  | RecvReturned (r : res Frame)
  | NetRecv
  | NetValidate (frame : Frame)
  | NetError (e : error)
  | NetFail (e : error)
  | NetExit
  | FinishCall
  | FinishStart
  | FinishCancel
  | FinishWait
  | FinishRead
  | FinishClose
  | FinishJoin
  | FinishReturned (e : option error)
  | Returned.

(** What the code does not decide: the outcome of a call of the network transport,
    or the ready case that a [select] takes ([ctx.Err()] for [SelCtx]). *)
Inductive choice :=
  | NoChoice
  | NetworkFrame (r : res Frame)
  | NetworkSent (e : option error)
  | SelQueue | SelDone | SelCtx (e : error) | SelDefault.

(** The observable events of a step. *)
Inductive event :=
  | Routed (t : target) (frame : Frame)
  | Pulled (party : string) (frame : Frame)
  | Received (party : string) (frame : Frame)
  | Spawn (p : pc).

Definition cloneFrame (frame : Frame) : Frame := frame.

(** [deliver]: the case [c] of its [select], where it is ready. *)
Definition deliver (r : Router) (partyID : string) (frame : Frame) (c : choice)
    : option (Router * option error) :=
  match endpoints r !! partyID with
  | None => Some (r, Some (ESent ErrUnsupportedParty))
  | Some inbound =>
      match c with
      | SelQueue =>
          if (List.length inbound <? partyQueueCapacity)%nat then
            Some (set_endpoints (<[partyID := (inbound ++ [cloneFrame frame])%list]> (endpoints r)) r,
                  None)
          else None
      | SelDone => if done r then Some (r, currentError r) else None
      | SelCtx e => Some (r, Some e)
      | SelDefault =>
          if negb (List.length inbound <? partyQueueCapacity)%nat && negb (done r) then
            Some (r, Some (ESent ErrQueueOverflow))
          else None
      | _ => None
      end
  end.

(** The destinations of a validated frame, in the order of the calls. *)
Definition outbound_targets (c : Config) (authenticatedSender : string) (frame : Frame)
    : list target :=
  if f_Broadcast frame then
    let localParty := if authenticatedSender =s PrimaryPartyID c
                      then RecoveryPartyID c else PrimaryPartyID c in
    [Local localParty; Network]
  else if f_ToParty frame =s PlatformPartyID c then [Network]
  else [Local (f_ToParty frame)].

Definition inbound_targets (c : Config) (frame : Frame) : res (list target) :=
  if f_Broadcast frame then Ok [Local (PrimaryPartyID c); Local (RecoveryPartyID c)]
  else if (f_ToParty frame <>s PrimaryPartyID c) && (f_ToParty frame <>s RecoveryPartyID c) then
    Fail (ESent ErrInvalidFrame)
  else Ok [Local (f_ToParty frame)].

(** After the last delivery, or at the first error. *)
Definition route_return (who : origin) (e : option error) : pc :=
  match who, e with
  | FromParty, e => SendReturned e
  | FromNetwork, None => NetRecv
  | FromNetwork, Some e => NetError e
  end.

Definition route_next (who : origin) (frame : Frame) (targets : list target) : pc :=
  match targets with [] => route_return who None | _ => Routing who frame targets end.

(** One delivery of [routeOutbound] or [receiveNetwork]. *)
Definition route_step (r : Router) (who : origin) (frame : Frame) (t : target)
    (rest : list target) (c : choice) : option (Router * pc * option event) :=
  match t with
  | Local party =>
      match deliver r party frame c with
      | None => None
      | Some (r, Some e) => Some (r, route_return who (Some e), None)
      | Some (r, None) => Some (r, route_next who frame rest, Some (Routed t frame))
      end
  | Network =>
      match c with
      | NetworkSent e => Some (r, route_return who e, Some (Routed Network frame))
      | _ => None
      end
  end.

(** [routeOutbound] up to its deliveries. *)
Definition send_validate (r : Router) (party : string) (frame : Frame) : Router * pc :=
  if finishing r then (r, SendReturned (Some (ESent ErrRouterClosed)))
  else match validateAndRecord (config r) (validator r) frame party with
  | (v, Some e) => (set_validator v r, SendReturned (Some e))
  | (v, None) => (set_validator v r,
                  route_next FromParty frame (outbound_targets (config r) party frame))
  end.

(** [receiveNetwork] from the frame to its deliveries. *)
Definition net_validate (r : Router) (frame : Frame) : Router * pc :=
  if finishing r then (r, NetExit)
  else match validateAndRecord (config r) (validator r) frame (PlatformPartyID (config r)) with
  | (v, Some e) => (set_validator v r, NetFail e)
  | (v, None) =>
      (set_validator v r,
       match inbound_targets (config r) frame with
       | Fail e => NetFail e
       | Ok targets => route_next FromNetwork frame targets
       end)
  end.

(** [RecvFrame] of an endpoint at its [select]. *)
Definition recv_select (r : Router) (party : string) (c : choice)
    : option (Router * pc * option event) :=
  match c, endpoints r !! party with
  | SelQueue, Some (frame :: rest) =>
      Some (set_endpoints (<[party := rest]> (endpoints r)) r, RecvRecheck party (Ok frame),
            Some (Pulled party frame))
  | SelDone, _ =>
      match currentError r with
      | Some e => Some (r, RecvReturned (Fail e), None)
      | None => None
      end
  | SelCtx e, _ => Some (r, RecvRecheck party (Fail e), None)
  | _, _ => None
  end.

Definition recv_recheck (r : Router) (party : string) (outcome : res Frame)
    : Router * pc * option event :=
  match currentError r with
  | Some e => (r, RecvReturned (Fail e), None)
  | None => (r, RecvReturned outcome,
             match outcome with Ok frame => Some (Received party frame) | Fail _ => None end)
  end.

(** One atomic section of a goroutine; [None] when it is blocked, or when the
    choice does not apply. *)
Definition lstep (r : Router) (p : pc) (c : choice) : option (Router * pc * option event) :=
  match p with
  | StartCall =>
      let '(r, spawn) := Start r in
      Some (r, Returned, if spawn then Some (Spawn NetRecv) else None)
  | SendCheck party frame =>
      Some (r, match currentError r with
               | Some e => SendReturned (Some e)
               | None => SendValidate party frame
               end, None)
  | SendValidate party frame => Some (send_validate r party frame, None)
  | Routing who frame (t :: rest) => route_step r who frame t rest c
  | RecvCheck party =>
      Some (r, match currentError r with
               | Some e => RecvReturned (Fail e)
               | None => RecvSelect party
               end, None)
  | RecvSelect party => recv_select r party c
  | RecvRecheck party outcome => Some (recv_recheck r party outcome)
  | NetRecv =>
      match c with
      | NetworkFrame (Ok frame) => Some (r, NetValidate frame, None)
      | NetworkFrame (Fail e) => Some (r, NetError e, None)
      | _ => None
      end
  | NetValidate frame => Some (net_validate r frame, None)
  | NetError e =>
      Some (r, if errors_is e Canceled && finishing r then NetExit else NetFail e, None)
  | NetFail e => Some (fail (Some e) r, NetExit, None)
  | NetExit => Some (markReceiverDone r, Returned, None)
  | FinishCall =>
      if finishOnce r then Some (r, FinishJoin, None) else Some (finish_begin r, FinishStart, None)
  | FinishStart => Some (finish_start_once r, FinishCancel, None)
  | FinishCancel => Some (finish_cancel r, FinishWait, None)
  | FinishWait => if receiveDone r then Some (r, FinishRead, None) else None
  | FinishRead => Some (finish_read r, FinishClose, None)
  | FinishClose => Some (finish_close r, FinishReturned (finishErr r), None)
  | FinishJoin => if finished r then Some (r, FinishReturned (finishErr r), None) else None
  | _ => None
  end.

(** * The system: a pool of goroutines over one router *)

(** [routed] is the log of deliveries in the order they happened, [pulled] what the
    endpoints' [RecvFrame] took from the channels, [received] what it returned. *)
Record system := {
  router : Router;
  threads : gmap nat pc;
  routed : list (target * Frame);
  pulled : list (string * Frame);
  received : list (string * Frame);
}.

Definition record (e : event) (s : system) : system :=
  match e with
  | Routed t f => Build_system (router s) (threads s) (routed s ++ [(t, f)])%list (pulled s) (received s)
  | Pulled p f => Build_system (router s) (threads s) (routed s) (pulled s ++ [(p, f)])%list (received s)
  | Received p f => Build_system (router s) (threads s) (routed s) (pulled s) (received s ++ [(p, f)])%list
  | Spawn p => Build_system (router s) (<[fresh (dom (threads s)) := p]> (threads s))
                 (routed s) (pulled s) (received s)
  end.

Definition run_thread (tid : nat) (c : choice) (s : system) : option system :=
  match threads s !! tid with
  | None => None
  | Some p =>
      match lstep (router s) p c with
      | None => None
      | Some (r, p', e) =>
          let s := Build_system r (<[tid := p']> (threads s)) (routed s) (pulled s) (received s) in
          Some (match e with Some e => record e s | None => s end)
      end
  end.

(** The calls a client can make. *)
Definition entry (r : Router) (p : pc) : Prop :=
  match p with
  | StartCall | FinishCall => True
  | SendCheck party _ | RecvCheck party => exists q, Transport r party = Ok q
  | _ => False
  end.

Inductive rstep : system -> system -> Prop :=
  | rstep_call s tid p : threads s !! tid = None -> entry (router s) p ->
      rstep s (Build_system (router s) (<[tid := p]> (threads s)) (routed s) (pulled s) (received s))
  | rstep_run s tid c s' : run_thread tid c s = Some s' -> rstep s s'.

Definition initial (r : Router) : system := Build_system r ∅ [] [] [].

Definition reachable (c : Config) (s : system) : Prop :=
  exists r, New c = Ok r /\ rtc rstep (initial r) s.
