(* ===== verification/RouterProofs.v ===== *)
(** What the local router guarantees, for every interleaving of its goroutines: only
    genuine frames are routed, each to the parties it names, at most once, never two
    contents under one sequence number; the queues are bounded first-in first-out
    buffers; and [Finish] reports exactly the error that stopped the receiver. *)
From stdpp Require Import base tactics option list strings numbers gmap relations fin_maps.
From Stdlib Require Import ZArith Lia Ascii String Sorted.
From S2P Require Import Prelude GoText Sha256 Router.

#[local] Open Scope string_scope.

(** * The validator *)

(** The tables hold a frame. *)
Definition accepted (v : frameValidator) (f : Frame) : Prop :=
  seen v !! frameKey f = Some (frameDigest f) /\
  owners_of v (f_FromParty f) !! f_Seq f =
    Some {| messageID := f_MessageID f; digest := frameSequenceDigest f |} /\
  (f_Seq f <= max_of v (f_FromParty f))%Z.

(** The header checks passed. *)
Definition genuine (c : Config) (f : Frame) : Prop :=
  f_SessionID f = SessionID c /\ f_Stage f = Stage c /\
  equal_fold (f_Protocol f) (Protocol c) = true /\
  f_MessageID f <> "" /\ f_Seq f <> 0%Z /\ f_Payload f <> "" /\
  (f_PayloadHash f = "" \/ f_PayloadHash f = payloadHash (f_Payload f)).

Lemma owner_conflict_false o f : owner_conflict o f = false ->
  o = None \/ o = Some {| messageID := f_MessageID f; digest := frameSequenceDigest f |}.
Proof.
  destruct o as [[m d]|]; [|by left]. cbn. intros. split_bools.
  right. by subst.
Qed.

#[local] Opaque frameKey frameDigest frameSequenceDigest payloadHash equal_fold owner_conflict.

(** Acceptance: everything [validateAndRecord] checked, and what it wrote. *)
Lemma validateAndRecord_ok c v f sender v' :
  validateAndRecord c v f sender = (v', None) ->
  genuine c f /\ f_FromParty f = sender /\ validateRecipient c f = None /\
  seen v !! frameKey f = None /\ (max_of v sender <= f_Seq f)%Z /\ accepted v' f.
Proof.
  unfold validateAndRecord. intros H.
  step_if H. step_if H. step_if H. step_if H. step_if H. step_if H. step_if H.
  { step_if H. }
  unfold invalid_header in E. split_bools. injection H as <-.
  repeat split; try done.
  - destruct (f_PayloadHash f =s "") eqn:Eh; split_bools; [by left|].
    right. apply andb_false_iff in E1 as [E1|E1]; split_bools; congruence.
  - cbn in *. unfold max_of in *. cbn in *. subst sender. lia.
  - cbn. by rewrite lookup_insert_eq.
  - unfold owners_of. cbn. rewrite lookup_insert_eq. cbn. by rewrite lookup_insert_eq.
  - unfold max_of. cbn. case_match; [by rewrite lookup_insert_eq|].
    split_bools. unfold max_of in *. cbn in *. lia.
Qed.

(** The tables only grow. *)
Lemma validateAndRecord_mono c v f sender g :
  accepted v g -> accepted (validateAndRecord c v f sender).1 g.
Proof.
  unfold validateAndRecord. intros (Hs & Ho & Hm).
  set (v1 := {| seen := seen v; maxSequence := maxSequence v; sequenceOwner := _ |}).
  assert (H1 : accepted v1 g).
  { split_and!; [done| |done]. unfold owners_of, v1. cbn.
    destruct (decide (f_FromParty f = f_FromParty g)) as [->|];
      [by rewrite lookup_insert_eq|by rewrite lookup_insert_ne]. }
  repeat (case_match; [done|]).
  case_match; [by case_match|]. cbn. destruct H1 as (_ & Ho1 & _).
  split_and!.
  - cbn. rewrite lookup_insert_ne; [done|]. intros Ek. cbn in *. congruence.
  - unfold owners_of. cbn. destruct (decide (f_FromParty f = f_FromParty g)) as [E|];
      [|by rewrite !lookup_insert_ne].
    rewrite E, lookup_insert_eq. cbn. destruct (decide (f_Seq f = f_Seq g)) as [Es|];
      [|by rewrite lookup_insert_ne].
    rewrite Es, lookup_insert_eq. f_equal.
    match goal with H : owner_conflict _ _ = false |- _ => apply owner_conflict_false in H as [H|H];
      rewrite Es, E, Ho in H; congruence end.
  - unfold max_of. cbn. case_match; [|done].
    destruct (decide (f_FromParty f = f_FromParty g)) as [E|];
      [|by rewrite lookup_insert_ne].
    rewrite E, lookup_insert_eq. split_bools. unfold max_of in *. cbn in *. rewrite E in *. lia.
Qed.

(** * One goroutine *)

Definition local (c : Config) (p : string) : Prop := p = PrimaryPartyID c \/ p = RecoveryPartyID c.

Definition distinct (c : Config) : Prop :=
  PlatformPartyID c <> PrimaryPartyID c /\ PlatformPartyID c <> RecoveryPartyID c /\
  PrimaryPartyID c <> RecoveryPartyID c.

(** A delivery to the right place: a local party other than the sender that the
    frame names or that a broadcast reaches, or, for a local sender's frame, the
    platform. *)
Definition addressed (c : Config) (t : target) (f : Frame) : Prop :=
  match t with
  | Local p => local c p /\ p <> f_FromParty f /\ (f_Broadcast f = true \/ f_ToParty f = p)
  | Network => local c (f_FromParty f) /\
               (f_Broadcast f = true \/ f_ToParty f = PlatformPartyID c)
  end.

Definition sender_of (c : Config) (who : origin) (f : Frame) : Prop :=
  match who with
  | FromNetwork => f_FromParty f = PlatformPartyID c
  | FromParty => local c (f_FromParty f)
  end.

Definition thread_ok (r : Router) (p : pc) : Prop :=
  match p with
  | SendCheck party _ | SendValidate party _ | RecvCheck party | RecvSelect party
  | RecvRecheck party _ => local (config r) party
  | Routing who f ts =>
      genuine (config r) f /\ accepted (validator r) f /\ sender_of (config r) who f /\
      NoDup ts /\ Forall (fun t => addressed (config r) t f) ts
  | _ => True
  end.

Lemma validateRecipient_None c f : validateRecipient c f = None ->
  (f_Broadcast f = true /\ f_ToParty f = "") \/
  (f_Broadcast f = false /\ f_ToParty f <> f_FromParty f /\
   (f_ToParty f = PlatformPartyID c \/ local c (f_ToParty f))).
Proof.
  unfold validateRecipient. intros H. step_if H; step_if H; split_bools; [by left|].
  step_if H. right. split_and!; [done..|]. unfold local.
  repeat match goal with H : _ && _ = false |- _ => apply andb_false_iff in H as [H|H] end;
    split_bools; auto.
Qed.

(** Only validated frames are handed to the deliveries, with the right targets. *)
Lemma outbound_targets_ok c f sender : distinct c -> local c sender ->
  f_FromParty f = sender -> validateRecipient c f = None ->
  outbound_targets c sender f <> [] /\
  NoDup (outbound_targets c sender f) /\ Forall (fun t => addressed c t f) (outbound_targets c sender f).
Proof.
  intros (D1 & D2 & D3) Hl <- Hr. apply validateRecipient_None in Hr.
  unfold outbound_targets. destruct Hr as [[Hb _]|(Hb & Hne & Ht)]; rewrite Hb.
  - split_and!; [done|repeat constructor; set_solver|].
    rewrite !Forall_cons, Forall_nil; cbn; unfold local in *.
    case_match; split_bools; split_and!; auto; destruct Hl; congruence.
  - case_match; split_bools; (split_and!; [done|repeat constructor; set_solver|]);
      rewrite !Forall_cons, Forall_nil; cbn; naive_solver.
Qed.

Lemma inbound_targets_ok c f ts : distinct c ->
  f_FromParty f = PlatformPartyID c -> inbound_targets c f = Ok ts ->
  ts <> [] /\ NoDup ts /\ Forall (fun t => addressed c t f) ts.
Proof.
  intros (D1 & D2 & D3) Hf. unfold inbound_targets. destruct (f_Broadcast f) eqn:Hb.
  - intros [= <-]. split_and!; [done|repeat constructor; set_solver|].
    rewrite !Forall_cons, Forall_nil; cbn; unfold local; rewrite ?Hf;
      split_and!; auto; congruence.
  - case_match; [done|]. intros [= <-]. split_and!; [done|repeat constructor; set_solver|].
    match goal with H : _ && _ = false |- _ => apply andb_false_iff in H as [H|H] end;
      split_bools; rewrite !Forall_cons, Forall_nil; cbn; unfold local; rewrite ?Hf;
      split_and!; auto; congruence.
Qed.

(** The frame that passes validation with a platform origin always has a local
    destination, so the last guard of [receiveNetwork] never fires. *)
Lemma inbound_targets_total c f : f_FromParty f = PlatformPartyID c ->
  validateRecipient c f = None -> exists ts, inbound_targets c f = Ok ts.
Proof.
  intros Hf Hr. apply validateRecipient_None in Hr. unfold inbound_targets.
  destruct Hr as [[-> _]|(-> & Hne & Ht)]; [eauto|].
  rewrite Hf in Hne. unfold local in Ht.
  destruct Ht as [|[Ht|Ht]]; [done| |]; rewrite Ht, String.eqb_refl; cbn; rewrite ?andb_false_r; eauto.
Qed.

(** Case analysis of one step. *)
Ltac run_step H :=
  unfold lstep, send_validate, net_validate, route_step, deliver, recv_select, recv_recheck,
    Start, route_next, finish_start_once, finish_close, fail, closeNormally in H;
  split_matches H;
  simplify_eq.

Lemma insert_same_dom {A} (m : gmap string A) p l l' q : m !! p = Some l ->
  is_Some (<[p := l']> m !! q) <-> is_Some (m !! q).
Proof.
  intros Hp. destruct (decide (p = q)) as [<-|].
  - rewrite lookup_insert_eq, Hp. split; eauto.
  - by rewrite lookup_insert_ne.
Qed.

Lemma lstep_grows r p c r' p' e : lstep r p c = Some (r', p', e) ->
  config r' = config r /\ (forall g, accepted (validator r) g -> accepted (validator r') g) /\
  (forall q, is_Some (endpoints r' !! q) <-> is_Some (endpoints r !! q)).
Proof.
  intros H. 
  assert (Hv : forall f sender v o g,
    validateAndRecord (config r) (validator r) f sender = (v, o) ->
    accepted (validator r) g -> accepted v g).
  { intros f sender v o g E. intros Hg.
    eapply (validateAndRecord_mono (config r) (validator r) f sender) in Hg. by rewrite E in Hg. }
  destruct p; run_step H; cbn; split_and!; try done; try (intros; by eapply insert_same_dom); eauto.
Qed.

Lemma thread_ok_mono r p c r' p' e q : lstep r p c = Some (r', p', e) ->
  thread_ok r q -> thread_ok r' q.
Proof.
  intros (Hc & Ha & _)%lstep_grows. unfold thread_ok. rewrite Hc.
  destruct q; try done. intros (? & ? & ? & ? & ?). split_and!; auto.
Qed.

(** What a step can emit, from which point. *)
Definition event_ok (p : pc) (e : option event) : Prop :=
  match e with
  | Some (Routed t f) => exists who rest, p = Routing who f (t :: rest)
  | Some (Spawn q) => p = StartCall /\ q = NetRecv
  | Some (Pulled party f) => p = RecvSelect party
  | Some (Received party f) => p = RecvRecheck party (Ok f)
  | None => True
  end.

Lemma lstep_event r p c r' p' e : lstep r p c = Some (r', p', e) -> event_ok p e.
Proof. intros H. destruct p; run_step H; cbn; eauto. Qed.

Lemma thread_ok_route_next r who f ts :
  thread_ok r (Routing who f ts) -> thread_ok r (route_next who f ts).
Proof. by destruct ts, who. Qed.

Lemma send_validate_ok r party f r' p' : distinct (config r) -> local (config r) party ->
  send_validate r party f = (r', p') -> thread_ok r' p'.
Proof.
  intros Hd Hl H. unfold send_validate in H. case_match; simplify_eq; [done|].
  destruct (validateAndRecord _ _ _ _) as [v [e|]] eqn:E; simplify_eq; [done|].
  apply validateAndRecord_ok in E as (Hg & Hf & Hr & _ & _ & Ha).
  destruct (outbound_targets_ok _ _ _ Hd Hl Hf Hr) as (_ & Hn & Hall).
  apply thread_ok_route_next. cbn. rewrite <- Hf in Hl. by split_and!.
Qed.

Lemma net_validate_ok r f r' p' : distinct (config r) ->
  net_validate r f = (r', p') -> thread_ok r' p'.
Proof.
  intros Hd H. unfold net_validate in H. case_match; simplify_eq; [done|].
  destruct (validateAndRecord _ _ _ _) as [v [e|]] eqn:E; simplify_eq; [done|].
  apply validateAndRecord_ok in E as (Hg & Hf & Hr & _ & _ & Ha).
  case_match eqn:Et; [|done].
  destruct (inbound_targets_ok _ _ _ Hd Hf Et) as (_ & Hn & Hall).
  apply thread_ok_route_next. by split_and!.
Qed.

Lemma route_step_ok r who f t rest c r' p' e : thread_ok r (Routing who f (t :: rest)) ->
  route_step r who f t rest c = Some (r', p', e) -> thread_ok r' p'.
Proof.
  intros (Hg & Ha & Hs & [_ Hn]%NoDup_cons & [_ Hall]%Forall_cons) H.
  assert (Ht : forall r2 q, config r2 = config r -> validator r2 = validator r ->
    q = route_next who f rest \/ (exists e', q = route_return who e') -> thread_ok r2 q).
  { intros r2 q Hc Hv [->|[e' ->]]; [|by destruct who, e'].
    apply thread_ok_route_next. cbn. rewrite Hc, Hv. by split_and!. }
  unfold route_step, deliver in H.
  destruct t; repeat (case_match; simplify_eq); apply Ht; eauto.
Qed.

Lemma lstep_ok r p c r' p' e : distinct (config r) -> thread_ok r p ->
  lstep r p c = Some (r', p', e) -> thread_ok r' p'.
Proof.
  intros Hd Hp H. destruct p; try (run_step H; cbn; done).
  - injection H as H _. by eapply send_validate_ok.
  - destruct targets; [done|]. by eapply route_step_ok.
  - injection H as H _. by eapply net_validate_ok.
Qed.

(** * The system *)

Definition emitted_route (e : option event) : list (target * Frame) :=
  match e with Some (Routed t f) => [(t, f)] | _ => [] end.
Definition emitted_pull (e : option event) : list (string * Frame) :=
  match e with Some (Pulled p f) => [(p, f)] | _ => [] end.
Definition emitted_receive (e : option event) : list (string * Frame) :=
  match e with Some (Received p f) => [(p, f)] | _ => [] end.

(** One step of the system as one step of one goroutine. *)
Record ran (tid : nat) (p : pc) (c : choice) (p' : pc) (e : option event) (s s' : system) : Prop := {
  ran_at : threads s !! tid = Some p;
  ran_step : lstep (router s) p c = Some (router s', p', e);
  ran_self : threads s' !! tid = Some p';
  ran_threads : forall t q, threads s' !! t = Some q -> t <> tid ->
    threads s !! t = Some q \/ (threads s !! t = None /\ p = StartCall /\ q = NetRecv);
  ran_spawn : forall t q, threads s' !! t = Some q -> threads s !! t = None -> t <> tid ->
    e = Some (Spawn q) /\
    forall t' q', threads s' !! t' = Some q' -> threads s !! t' = None -> t' = t;
  ran_others : forall t q, threads s !! t = Some q -> t <> tid -> threads s' !! t = Some q;
  ran_routed : routed s' = (routed s ++ emitted_route e)%list;
  ran_pulled : pulled s' = (pulled s ++ emitted_pull e)%list;
  ran_received : received s' = (received s ++ emitted_receive e)%list;
}.

Lemma run_thread_inv tid c s s' : run_thread tid c s = Some s' ->
  exists p p' e, ran tid p c p' e s s'.
Proof.
  unfold run_thread. destruct (threads s !! tid) as [p|] eqn:Et; [|done].
  destruct (lstep (router s) p c) as [[[r' p'] e]|] eqn:El; [|done].
  intros [= <-]. pose proof (lstep_event _ _ _ _ _ _ El) as He.
  exists p, p', e.
  assert (Hq : (exists q, e = Some (Spawn q)) \/ (forall q, e <> Some (Spawn q)))
    by (destruct e as [[]|]; naive_solver).
  destruct Hq as [[q ->]|Hq]; cycle 1.
  { destruct e as [[t f|pt f|pt f|q]|]; try (by destruct (Hq q));
      (split; cbn; rewrite ?app_nil_r; auto; try by rewrite lookup_insert_eq);
      (intros t0 q0; destruct (decide (t0 = tid)) as [->|];
      [by intros|rewrite lookup_insert_ne by done; (naive_solver || congruence)]). }
  cbn in He.
  destruct He as [-> ->]. set (m := <[tid := p']> (threads s)).
  assert (Hfr : m !! fresh (dom m) = None) by (apply not_elem_of_dom, is_fresh).
  assert (Hne : tid <> fresh (dom m)).
  { intros E. rewrite <- E in Hfr. unfold m in Hfr. by rewrite lookup_insert_eq in Hfr. }
  assert (Hnone : threads s !! fresh (dom m) = None).
  { by rewrite <- (lookup_insert_ne (threads s) tid _ p' Hne). }
  constructor; cbn [router threads routed pulled received record emitted_route emitted_pull
    emitted_receive]; rewrite ?app_nil_r; auto; fold m.
  - rewrite lookup_insert_ne by congruence. unfold m. by rewrite lookup_insert_eq.
  - intros t q. destruct (decide (fresh (dom m) = t)) as [<-|].
    + rewrite lookup_insert_eq. intros [= <-]. naive_solver.
    + rewrite lookup_insert_ne by done. intros Hq Htid. unfold m in Hq.
      rewrite lookup_insert_ne in Hq by done. by left.
  - intros t q. destruct (decide (fresh (dom m) = t)) as [<-|].
    + rewrite lookup_insert_eq. intros [= <-] _ _. split; [done|].
      intros t' q'. destruct (decide (fresh (dom m) = t')) as [|]; [done|].
      rewrite lookup_insert_ne by done. unfold m.
      destruct (decide (tid = t')) as [<-|]; [congruence|].
      rewrite lookup_insert_ne by done. congruence.
    + rewrite lookup_insert_ne by done. intros Hq Hn Htid. unfold m in Hq.
      rewrite lookup_insert_ne in Hq by done. congruence.
  - intros t q Hq Htid. rewrite lookup_insert_ne by congruence. unfold m.
    by rewrite lookup_insert_ne.
Qed.

Arguments ran_at {_ _ _ _ _ _ _}.
Arguments ran_step {_ _ _ _ _ _ _}.
Arguments ran_self {_ _ _ _ _ _ _}.
Arguments ran_threads {_ _ _ _ _ _ _}.
Arguments ran_spawn {_ _ _ _ _ _ _}.
Arguments ran_others {_ _ _ _ _ _ _}.
Arguments ran_routed {_ _ _ _ _ _ _}.
Arguments ran_pulled {_ _ _ _ _ _ _}.
Arguments ran_received {_ _ _ _ _ _ _}.

(** Invariants are proved by induction over calls and steps. *)
Lemma reachable_invariant (I : system -> Prop) c :
  (forall r, New c = Ok r -> I (initial r)) ->
  (forall s tid p, I s -> threads s !! tid = None -> entry (router s) p ->
     I (Build_system (router s) (<[tid := p]> (threads s)) (routed s) (pulled s) (received s))) ->
  (forall s s' tid p ch p' e, I s -> ran tid p ch p' e s s' -> I s') ->
  forall s, reachable c s -> I s.
Proof.
  intros Hi Hc Hr s (r & Hn & Hrun). apply Hi in Hn. clear Hi. revert Hn.
  induction Hrun as [|s1 s2 s3 Hstep _ IH]; [done|]. intros H1. apply IH.
  destruct Hstep as [s1 tid p Ht He|s1 tid ch s2 Hrun]; [by apply Hc|].
  apply run_thread_inv in Hrun as (p & p' & e & Hran). by eapply Hr.
Qed.

Definition entry_ok (c : Config) (s : system) (x : target * Frame) : Prop :=
  genuine c x.2 /\ accepted (validator (router s)) x.2 /\ addressed c x.1 x.2.

Record base (c : Config) (s : system) : Prop := {
  base_config : config (router s) = c;
  base_distinct : distinct c;
  base_endpoints : forall q, is_Some (endpoints (router s) !! q) <-> local c q;
  base_threads : forall t p, threads s !! t = Some p -> thread_ok (router s) p;
  base_routed : forall x, x ∈ routed s -> entry_ok c s x;
}.

Lemma New_inv c r : New c = Ok r -> distinct c /\ config r = c /\
  endpoints r = <[PrimaryPartyID c := []]> {[RecoveryPartyID c := []]} /\
  validator r = newFrameValidator /\ startOnce r = false /\ receiveDone r = false /\
  done r = false /\ terminalErr r = None /\ closeOnce r = false /\ finishOnce r = false /\
  finished r = false /\ finishErr r = None.
Proof.
  unfold New. case_match; [done|]. case_match; [done|]. intros [= <-]. split_bools.
  by repeat split.
Qed.

Lemma base_initial c r : New c = Ok r -> base c (initial r).
Proof.
  intros (Hd & Hc & He & _)%New_inv. split; cbn; try done.
  - intros q. rewrite He. unfold local. rewrite lookup_insert_is_Some, lookup_singleton_is_Some.
    split; [intros [-> | [_ ->]]; auto|].
    intros [-> | ->]; auto. right. split; [|done]. by destruct Hd as (_ & _ & ?).
  - by intros x Hx%elem_of_nil.
Qed.

Lemma base_call c s tid p : base c s -> threads s !! tid = None -> entry (router s) p ->
  base c (Build_system (router s) (<[tid := p]> (threads s)) (routed s) (pulled s) (received s)).
Proof.
  intros [Hc Hd He Ht Hr] _ Hp. split; try done.
  cbn. intros t q [[_ <-]|[_ Hq]]%lookup_insert_Some; [|by eapply Ht].
  destruct p; try done; cbn in Hp; destruct Hp as [q Hp]; cbn;
    unfold Transport in Hp; case_match; try done; rewrite Hc; by apply He.
Qed.

Lemma base_ran c s s' tid p ch p' e : base c s -> ran tid p ch p' e s s' -> base c s'.
Proof.
  intros [Hc Hd He Ht Hr] H. pose proof (lstep_grows _ _ _ _ _ _ (ran_step H)) as (Hc' & Ha & Hdom).
  split; [congruence|done| | |].
  - intros q. by rewrite Hdom.
  - intros t q Hq. destruct (decide (t = tid)) as [->|Hne].
    + rewrite (ran_self H) in Hq. injection Hq as <-.
      eapply lstep_ok; [by rewrite Hc|eapply Ht, H|apply H].
    + destruct (ran_threads H t q Hq Hne) as [Hq'|(_ & _ & ->)]; [|done].
      eapply thread_ok_mono; [apply H|by eapply Ht].
  - intros x. rewrite (ran_routed H), elem_of_app. intros [Hx|Hx].
    + destruct (Hr x Hx) as (? & ? & ?). split_and!; auto.
    + pose proof (lstep_event _ _ _ _ _ _ (ran_step H)) as Hev.
      destruct e as [[]|]; cbn in Hx; try by apply elem_of_nil in Hx.
      apply list_elem_of_singleton in Hx as ->. destruct Hev as (who & rest & ->).
      destruct (Ht _ _ (ran_at H)) as (Hg & Hacc & _ & _ & [Had _]%Forall_cons).
      rewrite Hc in *. split_and!; auto.
Qed.

Lemma reachable_base c s : reachable c s -> base c s.
Proof.
  apply reachable_invariant; [apply base_initial|intros; by apply base_call|].
  intros. by eapply base_ran.
Qed.

(** ** At most once *)

Definition keyed (x : target * Frame) : target * string := (x.1, frameKey x.2).

(** How a goroutine comes to hold deliveries: by validating a frame whose key was
    not in the tables, or by making the previous delivery of the same frame. *)
Lemma lstep_to_routing r p c r' who f ts e :
  lstep r p c = Some (r', Routing who f ts, e) ->
  (seen (validator r) !! frameKey f = None /\ e = None /\ forall w g us, p <> Routing w g us) \/
  (exists t, p = Routing who f (t :: ts) /\ e = Some (Routed t f)).
Proof.
  intros H. destruct p; try (by run_step H).
  - left. unfold lstep, send_validate in H. case_match; simplify_eq.
    destruct (validateAndRecord _ _ _ _) as [v [e'|]] eqn:E; simplify_eq.
    apply validateAndRecord_ok in E as (_ & _ & _ & Hk & _).
    unfold route_next, route_return in *. case_match; simplify_eq. by split_and!.
  - right. unfold lstep, route_step, deliver, route_return, route_next, route_return in H.
    destruct targets as [|t rest]; [done|]. exists t.
    destruct t; repeat (case_match; simplify_eq); eauto.
  - left. unfold lstep, net_validate in H. case_match; simplify_eq.
    destruct (validateAndRecord _ _ _ _) as [v [e'|]] eqn:E; simplify_eq.
    apply validateAndRecord_ok in E as (_ & _ & _ & Hk & _).
    unfold route_next, route_return in *. repeat (case_match; simplify_eq). by split_and!.
Qed.

Record unique (s : system) : Prop := {
  unique_routed : NoDup (keyed <$> routed s);
  unique_pending : forall tid who f ts t, threads s !! tid = Some (Routing who f ts) ->
    t ∈ ts -> (t, frameKey f) ∉ keyed <$> routed s;
  unique_keys : forall t1 t2 w1 w2 f1 f2 ts1 ts2,
    threads s !! t1 = Some (Routing w1 f1 ts1) -> threads s !! t2 = Some (Routing w2 f2 ts2) ->
    t1 <> t2 -> frameKey f1 <> frameKey f2;
}.

(** A frame that is routed or about to be has its key in the tables. *)
Lemma base_pending_seen c s tid who f ts : base c s ->
  threads s !! tid = Some (Routing who f ts) -> is_Some (seen (validator (router s)) !! frameKey f).
Proof. intros Hb Ht. destruct (base_threads _ _ Hb _ _ Ht) as (_ & [-> _] & _). eauto. Qed.

Lemma base_routed_seen c s t k : base c s -> (t, k) ∈ keyed <$> routed s ->
  is_Some (seen (validator (router s)) !! k).
Proof.
  intros Hb ([t' f] & [= -> ->] & Hx)%list_elem_of_fmap.
  destruct (base_routed _ _ Hb _ Hx) as (_ & [Hs _] & _). cbn in Hs. rewrite Hs. eauto.
Qed.

Lemma unique_call s tid p : unique s -> threads s !! tid = None -> entry (router s) p ->
  unique (Build_system (router s) (<[tid := p]> (threads s)) (routed s) (pulled s) (received s)).
Proof.
  intros [Hr Hp Hk] Hn He.
  assert (Hold : forall t who f ts, <[tid := p]> (threads s) !! t = Some (Routing who f ts) ->
    threads s !! t = Some (Routing who f ts)).
  { intros t who f ts [[_ ->]|[_ ?]]%lookup_insert_Some; done. }
  split; cbn; eauto.
Qed.

(** Every goroutine that holds deliveries after a step held them before, or has
    just validated their frame, or has just made the one before them. *)
Lemma ran_pending_old {tid p ch p' e s s'} : ran tid p ch p' e s s' ->
  forall t who f ts, threads s' !! t = Some (Routing who f ts) -> t <> tid ->
  threads s !! t = Some (Routing who f ts).
Proof. intros H t who f ts Ht Hne. by destruct (ran_threads H _ _ Ht Hne) as [|(_ & _ & ?)]. Qed.

Lemma ran_pending_self {tid p ch p' e s s'} : ran tid p ch p' e s s' ->
  forall who f ts, threads s' !! tid = Some (Routing who f ts) ->
  (seen (validator (router s)) !! frameKey f = None /\ e = None) \/
  (exists t, p = Routing who f (t :: ts) /\ e = Some (Routed t f)).
Proof.
  intros H who f ts Ht. rewrite (ran_self H) in Ht. injection Ht as ->.
  destruct (lstep_to_routing _ _ _ _ _ _ _ _ (ran_step H)) as [(? & ? & _)|]; auto.
Qed.

Lemma ran_delivery {c tid p ch p' s s' t f} : base c s ->
  ran tid p ch p' (Some (Routed t f)) s s' -> exists who rest,
  threads s !! tid = Some (Routing who f (t :: rest)) /\ p = Routing who f (t :: rest) /\
  t ∉ rest.
Proof.
  intros Hb H. destruct (lstep_event _ _ _ _ _ _ (ran_step H)) as (who & rest & ->).
  exists who, rest. pose proof (ran_at H) as Hat. split; [done|]. split; [done|].
  by destruct (base_threads _ _ Hb _ _ Hat) as (_ & _ & _ & [? _]%NoDup_cons & _).
Qed.

Lemma ran_keys {tid p ch p' e s s'} : ran tid p ch p' e s s' ->
  keyed <$> routed s' = ((keyed <$> routed s) ++ (keyed <$> emitted_route e))%list.
Proof. intros H. by rewrite (ran_routed H), fmap_app. Qed.

Lemma ran_key_cases {tid p ch p' e s s'} x : ran tid p ch p' e s s' ->
  x ∈ keyed <$> routed s' ->
  x ∈ keyed <$> routed s \/ exists t f, e = Some (Routed t f) /\ x = (t, frameKey f).
Proof.
  intros H. rewrite (ran_keys H), elem_of_app. intros [Hx|Hx]; [by left|right].
  destruct e as [[t f| | |]|]; cbn in Hx; try by apply elem_of_nil in Hx.
  apply list_elem_of_singleton in Hx. eauto.
Qed.

Lemma unique_pending_ran c s s' tid p ch p' e : base c s -> unique s -> ran tid p ch p' e s s' ->
  forall t0 who f ts t, threads s' !! t0 = Some (Routing who f ts) -> t ∈ ts ->
  (t, frameKey f) ∉ keyed <$> routed s'.
Proof.
  intros Hb [Hr Hp Hk] H t0 who f ts t Ht Hin Hx.
  destruct (decide (t0 = tid)) as [->|Hne].
  - destruct (ran_pending_self H _ _ _ Ht) as [(Hs & ->)|(t1 & -> & ->)].
    + destruct (ran_key_cases _ H Hx) as [Hx'|(? & ? & ? & _)]; [|done].
      apply (base_routed_seen c s) in Hx' as [? ?]; [congruence|done].
    + destruct (ran_delivery Hb H) as (who' & rest & Hat & [= <- <-] & Hn).
      destruct (ran_key_cases _ H Hx) as [Hx'|(? & ? & [= <- <-] & [= ->])]; [|done].
      eapply (Hp _ _ _ _ _ Hat); [by right|done].
  - pose proof (ran_pending_old H _ _ _ _ Ht Hne) as Ho.
    destruct (ran_key_cases _ H Hx) as [Hx'|(t1 & f1 & -> & [= <- Hkey])]; [by eapply Hp|].
    destruct (ran_delivery Hb H) as (who' & rest & Hat & _). by eapply (Hk t0 tid).
Qed.

Lemma unique_keys_ran c s s' tid p ch p' e : base c s -> unique s -> ran tid p ch p' e s s' ->
  forall t1 t2 w1 w2 f1 f2 ts1 ts2,
    threads s' !! t1 = Some (Routing w1 f1 ts1) -> threads s' !! t2 = Some (Routing w2 f2 ts2) ->
    t1 <> t2 -> frameKey f1 <> frameKey f2.
Proof.
  intros Hb [Hr Hp Hk] H t1 t2 w1 w2 f1 f2 ts1 ts2 H1 H2 Hne.
  assert (Hone : forall t who f ts who' f' ts', threads s' !! t = Some (Routing who f ts) ->
    threads s' !! tid = Some (Routing who' f' ts') -> t <> tid -> frameKey f <> frameKey f').
  { intros t who f ts who' f' ts' Ht Ht' Hne'. pose proof (ran_pending_old H _ _ _ _ Ht Hne') as Ho.
    destruct (ran_pending_self H _ _ _ Ht') as [(Hs & _)|(t3 & -> & _)].
    - destruct (base_pending_seen c s _ _ _ _ Hb Ho) as [? ?]. congruence.
    - eapply Hk; [exact Ho|apply H|done]. }
  destruct (decide (t1 = tid)) as [->|Hn1].
  { intros E. symmetry in E. revert E. by eapply Hone. }
  destruct (decide (t2 = tid)) as [->|Hn2]; [by eapply Hone|].
  eapply (Hk t1 t2); eauto using ran_pending_old.
Qed.

Lemma unique_ran c s s' tid p ch p' e : base c s -> unique s -> ran tid p ch p' e s s' -> unique s'.
Proof.
  intros Hb Hu H. split; [|by eapply unique_pending_ran|by eapply unique_keys_ran].
  destruct Hu as [Hr Hp _]. rewrite (ran_keys H).
  destruct e as [[t f| | |]|]; cbn; rewrite ?app_nil_r; auto.
  destruct (ran_delivery Hb H) as (who & rest & Hat & _). apply NoDup_app. split_and!; [done| |].
  - intros x Hx ->%list_elem_of_singleton. revert Hx. eapply Hp; [done|set_solver].
  - apply NoDup_singleton.
Qed.

Lemma reachable_unique c s : reachable c s -> unique s.
Proof.
  intros Hs. apply (reachable_invariant (fun s => base c s /\ unique s) c) in Hs; [apply Hs|..].
  - intros r Hr. split; [by apply base_initial|]. split; cbn.
    + constructor.
    + by intros.
    + by intros.
  - intros s0 tid p [Hb Hu] Hn He. split; [by apply base_call|by apply unique_call].
  - intros s0 s1 tid p ch p' e [Hb Hu] H. split; [by eapply base_ran|by eapply unique_ran].
Qed.

(** ** The receiver and Finish *)

(** A goroutine that is the network receiver, and one that is inside [Finish]. *)
Definition receiver (p : pc) : bool :=
  match p with
  | NetRecv | NetValidate _ | NetError _ | NetFail _ | NetExit | Routing FromNetwork _ _ => true
  | _ => false
  end.
Definition finisher (p : pc) : bool :=
  match p with
  | FinishStart | FinishCancel | FinishWait | FinishRead | FinishClose => true
  | _ => false
  end.

(** What the flags say while a goroutine is at a point. *)
Definition point_ok (r : Router) (p : pc) : Prop :=
  match p with
  | FinishStart => finishing r = true
  | FinishCancel | FinishWait => finishing r = true /\ startOnce r = true
  | FinishRead => finishing r = true /\ receiveDone r = true
  | FinishClose => finishing r = true /\ receiveDone r = true /\ finishErr r = terminalErr r
  | FinishReturned e => finished r = true /\ e = finishErr r
  | _ => True
  end.

Record flags_ok (r : Router) : Prop := {
  flags_done : done r = true <-> is_Some (terminalErr r);
  flags_close : closeOnce r = done r;
  flags_started : receiveDone r = true -> startOnce r = true;
  flags_finished : finished r = true ->
    receiveDone r = true /\ finishing r = true /\ done r = true /\
    (terminalErr r = finishErr r \/
     finishErr r = None /\ terminalErr r = Some (ESent ErrRouterClosed));
  flags_finish_once : finished r = true -> finishOnce r = true;
}.

Record control (s : system) : Prop := {
  control_flags : flags_ok (router s);
  control_points : forall t p, threads s !! t = Some p -> point_ok (router s) p;
  control_receiver : forall t p, threads s !! t = Some p -> receiver p = true ->
    startOnce (router s) = true /\ receiveDone (router s) = false;
  control_one_receiver : forall t1 t2 p1 p2, threads s !! t1 = Some p1 -> threads s !! t2 = Some p2 ->
    receiver p1 = true -> receiver p2 = true -> t1 = t2;
  control_finisher : forall t p, threads s !! t = Some p -> finisher p = true ->
    finishOnce (router s) = true /\ finished (router s) = false;
  control_one_finisher : forall t1 t2 p1 p2, threads s !! t1 = Some p1 -> threads s !! t2 = Some p2 ->
    finisher p1 = true -> finisher p2 = true -> t1 = t2;
}.

(** Validation and deliveries leave the flags alone. *)
Definition same_flags (r r' : Router) : Prop :=
  terminalErr r' = terminalErr r /\ finishing r' = finishing r /\ startOnce r' = startOnce r /\
  closeOnce r' = closeOnce r /\ finishOnce r' = finishOnce r /\ receiveDone r' = receiveDone r /\
  finishErr r' = finishErr r /\ finished r' = finished r /\ done r' = done r.

Definition flag_step (p : pc) : bool :=
  match p with
  | StartCall | NetFail _ | NetExit | FinishCall | FinishStart | FinishCancel | FinishRead
  | FinishClose => true
  | _ => false
  end.

Lemma lstep_same_flags r p c r' p' e : lstep r p c = Some (r', p', e) ->
  flag_step p = false -> same_flags r r'.
Proof. intros H Hp. destruct p; try done; run_step H; by repeat split. Qed.

Lemma same_flags_ok r r' : same_flags r r' -> flags_ok r -> flags_ok r'.
Proof.
  intros (E1 & E2 & E3 & E4 & E5 & E6 & E7 & E8 & E9) [F1 F2 F3 F4 F5].
  split; rewrite ?E1, ?E2, ?E3, ?E4, ?E5, ?E6, ?E7, ?E8, ?E9; done.
Qed.

Lemma same_flags_point r r' p : same_flags r r' -> point_ok r p -> point_ok r' p.
Proof.
  intros (E1 & E2 & E3 & E4 & E5 & E6 & E7 & E8 & E9).
  destruct p; cbn; rewrite ?E1, ?E2, ?E3, ?E4, ?E5, ?E6, ?E7, ?E8, ?E9; done.
Qed.

Lemma flags_close_with e r : flags_ok r -> finished r = false ->
  flags_ok (close_with (Some e) r).
Proof.
  intros [F1 F2 F3 F4 F5] Hf. split; cbn; try done; congruence.
Qed.

(** The effect of a step on the flags, given what the stepping goroutine is. *)
Lemma lstep_flags r p c r' p' e : lstep r p c = Some (r', p', e) ->
  flags_ok r -> point_ok r p -> (receiver p = true -> receiveDone r = false) ->
  (receiver p = true -> startOnce r = true) ->
  (finisher p = true -> finishOnce r = true /\ finished r = false) ->
  flags_ok r'.
Proof.
  intros H HF Hp Hr Hs Hf. destruct (flag_step p) eqn:Efs; [|by eapply same_flags_ok, HF; eapply lstep_same_flags].
  assert (Hnf : receiver p = true \/ finisher p = true -> finished r = false).
  { intros [Hx|Hx]; [|by apply Hf]. specialize (Hr Hx).
    destruct (finished r) eqn:E; [|done]. apply (flags_finished _ HF) in E as (? & _). congruence. }
  pose proof HF as [F1 F2 F3 F4 F5].
  destruct p; try discriminate Efs; cbn in *.
  - unfold Start in H. destruct (startOnce r) eqn:Es; injection H as <- <- <-; [by split; rewrite ?Es|].
    split; cbn; try done.
    intros Hfin. destruct (F4 Hfin) as (Hrd & ?). rewrite Hrd. done.
  - injection H as <- <- <-. unfold fail. case_match; [done|]. apply flags_close_with; [done|by apply Hnf; left].
  - injection H as <- <- <-. split; cbn; auto.
    intros Hfin. rewrite Hnf in Hfin; auto. done.
  - destruct (finishOnce r); injection H as <- <- <-; [done|]. split; cbn; auto.
    intros Hfin. destruct (F4 Hfin) as (? & ? & ?). auto.
  - injection H as <- <- <-. unfold finish_start_once. case_match; [done|]. split; cbn; auto.
    intros Hfin. rewrite Hnf in Hfin; auto. done.
  - injection H as <- <- <-. by split.
  - injection H as <- <- <-. split; cbn; auto. intros Hfin. rewrite Hnf in Hfin; auto. done.
  - injection H as <- <- <-. destruct Hp as (Hfg & Hrd & He). unfold finish_close, closeNormally.
    destruct (finishErr r) eqn:Efe.
    + split; cbn; auto; [|by intros; apply Hf]. intros _. split_and!; auto.
      * apply F1. rewrite <- He. eauto.
      * left. congruence.
    + rewrite <- He. assert (Hd : done r = false).
      { destruct (done r) eqn:E; [|done]. destruct (proj1 F1 eq_refl) as [? E']. congruence. }
      rewrite F2, Hd. split; cbn; auto; [split; eauto|by intros; split_and!; auto|by intros; apply Hf].
Qed.

Lemma lstep_point r p c r' p' e : lstep r p c = Some (r', p', e) ->
  flags_ok r -> point_ok r p -> point_ok r' p'.
Proof.
  intros H HF Hp. destruct p; run_step H; cbn in *; tauto || done || (destruct who; cbn; try case_match; done).
Qed.

Lemma lstep_monotone r p c r' p' e : lstep r p c = Some (r', p', e) ->
  (finishing r = true -> finishing r' = true) /\ (startOnce r = true -> startOnce r' = true) /\
  (receiveDone r = true -> receiveDone r' = true) /\ (finished r = true -> finished r' = true) /\
  (finishOnce r = true -> finishOnce r' = true) /\ (done r = true -> done r' = true).
Proof.
  intros H. destruct (flag_step p) eqn:Efs.
  - destruct p; try discriminate Efs; run_step H; cbn; split_and!; auto; intros ->; done.
  - destruct (lstep_same_flags _ _ _ _ _ _ H Efs) as (_ & -> & -> & _ & -> & -> & _ & -> & ->).
    by split_and!.
Qed.

(** The error fields change only in the receiver's [fail] and in [Finish]. *)
Lemma lstep_errors r p c r' p' e : lstep r p c = Some (r', p', e) ->
  (receiver p = false -> finisher p = false -> terminalErr r' = terminalErr r) /\
  (finisher p = false -> finishErr r' = finishErr r).
Proof.
  intros H. destruct (flag_step p) eqn:Efs.
  - destruct p; try discriminate Efs; run_step H; cbn; split; intros; done.
  - destruct (lstep_same_flags _ _ _ _ _ _ H Efs) as (-> & _ & _ & _ & _ & _ & -> & _). done.
Qed.

Lemma lstep_other_point r p c r' p' e q : lstep r p c = Some (r', p', e) -> point_ok r q ->
  (finisher q = true -> finisher p = false) -> (receiveDone r = true -> receiver p = false) ->
  (finished r = true -> finisher p = false) -> point_ok r' q.
Proof.
  intros H Hq H1 H2 H3.
  destruct (lstep_monotone _ _ _ _ _ _ H) as (M1 & M2 & M3 & M4 & _).
  destruct (lstep_errors _ _ _ _ _ _ H) as [E1 E2].
  destruct q; cbn in *; try done; auto.
  - destruct Hq; auto.
  - destruct Hq; auto.
  - destruct Hq; auto.
  - destruct Hq as (? & ? & ?). split_and!; auto. rewrite E1, E2; auto.
  - destruct Hq as [? ->]. split; auto. rewrite E2; auto.
Qed.

Lemma lstep_receiver r p c r' p' e : lstep r p c = Some (r', p', e) ->
  (receiver p' = true -> receiver p = true) /\
  (startOnce r = true -> receiveDone r = false -> receiveDone r' = true -> p = NetExit /\ p' = Returned) /\
  (forall q, e = Some (Spawn q) -> startOnce r = false /\ startOnce r' = true /\
    receiveDone r' = receiveDone r).
Proof.
  intros H. destruct p; run_step H; cbn in *; split_and!; intros; simplify_eq/=; try done; try congruence;
    rewrite ?orb_true_iff, ?orb_false_r in *; try congruence; auto;
    try (by destruct who).
  all: match goal with H : _ = true |- _ => rewrite ?negb_true_iff in H end; split_and!; auto.
Qed.

Lemma lstep_finisher r p c r' p' e : lstep r p c = Some (r', p', e) -> finisher p' = true ->
  (finisher p = true /\ finished r' = finished r /\ finishOnce r' = finishOnce r) \/
  (finishOnce r = false /\ finishOnce r' = true /\ finished r' = finished r).
Proof.
  intros H Hp'. destruct p; run_step H; cbn in *; try done; auto;
    destruct who; cbn in *; try case_match; done.
Qed.

Lemma control_initial c r : New c = Ok r -> control (initial r).
Proof.
  intros (_ & _ & _ & _ & Hs & Hr & Hd & Ht & Hc & Hf & Hfd & He)%New_inv.
  split; cbn; try (intros; by rewrite lookup_empty in * ); try (intros ? ? ?; by rewrite lookup_empty).
  split; rewrite ?Hs, ?Hr, ?Hd, ?Ht, ?Hc, ?Hf, ?Hfd, ?He; done.
Qed.

(** A call adds a goroutine that is neither the receiver nor inside [Finish]. *)
Lemma control_call s tid p : control s -> threads s !! tid = None -> entry (router s) p ->
  control (Build_system (router s) (<[tid := p]> (threads s)) (routed s) (pulled s) (received s)).
Proof.
  intros [C1 C2 C3 C4 C5 C6] Hn He.
  assert (Hnew : receiver p = false /\ finisher p = false /\ point_ok (router s) p)
    by (destruct p; done).
  destruct Hnew as (N1 & N2 & N3).
  assert (Hold : forall t q, <[tid := p]> (threads s) !! t = Some q ->
    (t = tid /\ q = p) \/ threads s !! t = Some q).
  { intros t q [[-> ->]|[_ ?]]%lookup_insert_Some; auto. }
  split; cbn; [done|..].
  - intros t q [[-> ->]|Hq]%Hold; eauto.
  - intros t q [[-> ->]|Hq]%Hold; [congruence|eauto].
  - intros t1 t2 p1 p2 [[-> ->]|H1]%Hold [[-> ->]|H2]%Hold; try congruence. eauto.
  - intros t q [[-> ->]|Hq]%Hold; [congruence|eauto].
  - intros t1 t2 p1 p2 [[-> ->]|H1]%Hold [[-> ->]|H2]%Hold; try congruence. eauto.
Qed.

(** Who the receiver is after a step: the same goroutine, or the one just started. *)
Lemma ran_receiver {tid p ch p' e s s'} : control s -> ran tid p ch p' e s s' ->
  forall t q, threads s' !! t = Some q -> receiver q = true ->
  (exists q0, threads s !! t = Some q0 /\ receiver q0 = true) \/
  (threads s !! t = None /\ e = Some (Spawn q) /\ t <> tid).
Proof.
  intros C H t q Hq Hr. destruct (decide (t = tid)) as [->|Hne].
  - left. rewrite (ran_self H) in Hq. injection Hq as <-. exists p.
    split; [apply H|]. by apply (lstep_receiver _ _ _ _ _ _ (ran_step H)).
  - destruct (ran_threads H _ _ Hq Hne) as [Ho|(Hn & _)]; [eauto|].
    right. split_and!; [done| |done]. by apply (ran_spawn H _ _ Hq Hn Hne).
Qed.

Lemma control_receiver_ran tid p ch p' e s s' : control s -> ran tid p ch p' e s s' ->
  forall t q, threads s' !! t = Some q -> receiver q = true ->
  startOnce (router s') = true /\ receiveDone (router s') = false.
Proof.
  intros C H t q Hq Hr.
  destruct (lstep_receiver _ _ _ _ _ _ (ran_step H)) as (_ & R2 & R3).
  destruct (lstep_monotone _ _ _ _ _ _ (ran_step H)) as (_ & M2 & _).
  destruct (ran_receiver C H t q Hq Hr) as [(q0 & Hq0 & Hr0)|(Hn & -> & _)].
  - destruct (control_receiver _ C _ _ Hq0 Hr0) as [Hs Hd]. split; [by apply M2|].
    destruct (receiveDone (router s')) eqn:E; [|done].
    destruct (R2 Hs Hd eq_refl) as [-> ->].
    assert (t = tid) as -> by (eapply (control_one_receiver _ C); [exact Hq0|apply H|done|done]).
    rewrite (ran_self H) in Hq. by injection Hq as <-.
  - destruct (R3 _ eq_refl) as (Hs0 & Hs & ->). split; [done|].
    destruct (receiveDone (router s)) eqn:E; [|done].
    apply (flags_started _ (control_flags _ C)) in E. congruence.
Qed.

Lemma control_one_receiver_ran tid p ch p' e s s' : control s -> ran tid p ch p' e s s' ->
  forall t1 t2 p1 p2, threads s' !! t1 = Some p1 -> threads s' !! t2 = Some p2 ->
  receiver p1 = true -> receiver p2 = true -> t1 = t2.
Proof.
  intros C H t1 t2 p1 p2 H1 H2 R1 R2.
  destruct (lstep_receiver _ _ _ _ _ _ (ran_step H)) as (_ & _ & R3).
  destruct (ran_receiver C H _ _ H1 R1) as [(q1 & Hq1 & Hr1)|(Hn1 & E1 & Hne1)];
    destruct (ran_receiver C H _ _ H2 R2) as [(q2 & Hq2 & Hr2)|(Hn2 & E2 & Hne2)].
  - by eapply (control_one_receiver _ C).
  - destruct (R3 _ E2) as (Hs & _). destruct (control_receiver _ C _ _ Hq1 Hr1). congruence.
  - destruct (R3 _ E1) as (Hs & _). destruct (control_receiver _ C _ _ Hq2 Hr2). congruence.
  - by apply (ran_spawn H _ _ H2 Hn2 Hne2) with p1.
Qed.

Lemma lstep_finished r p c r' p' e : lstep r p c = Some (r', p', e) -> finisher p = false ->
  finished r' = finished r.
Proof. intros H Hp. destruct p; run_step H; cbn in *; done. Qed.

Lemma control_finisher_ran tid p ch p' e s s' : control s -> ran tid p ch p' e s s' ->
  forall t q, threads s' !! t = Some q -> finisher q = true ->
  (t = tid \/ finisher p = false /\ threads s !! t = Some q) /\
  finishOnce (router s') = true /\ finished (router s') = false.
Proof.
  intros C H t q Hq Hf.
  destruct (lstep_monotone _ _ _ _ _ _ (ran_step H)) as (_ & _ & _ & _ & M5 & _).
  destruct (decide (t = tid)) as [->|Hne].
  - split; [by left|]. rewrite (ran_self H) in Hq. injection Hq as <-.
    destruct (lstep_finisher _ _ _ _ _ _ (ran_step H) Hf) as [(Hp & -> & ->)|(Ho & -> & ->)].
    + eapply (control_finisher _ C); [apply H|done].
    + split; [done|]. destruct (finished (router s)) eqn:E; [|done].
      apply (flags_finish_once _ (control_flags _ C)) in E. congruence.
  - destruct (ran_threads H _ _ Hq Hne) as [Ho|(_ & _ & ->)]; [|done].
    destruct (control_finisher _ C _ _ Ho Hf) as [F1 F2].
    assert (Hp : finisher p = false).
    { destruct (finisher p) eqn:E; [|done]. destruct Hne.
      eapply (control_one_finisher _ C); [exact Ho|apply H|done|done]. }
    split; [by right|]. split; [by apply M5|].
    by rewrite (lstep_finished _ _ _ _ _ _ (ran_step H) Hp).
Qed.

Lemma control_ran tid p ch p' e s s' : control s -> ran tid p ch p' e s s' -> control s'.
Proof.
  intros C H. pose proof C as [C1 C2 C3 C4 C5 C6]. pose proof (ran_at H) as Hat.
  split.
  - eapply lstep_flags; [apply H|done|by eapply C2|..]; intros; [by eapply C3..|by eapply C5].
  - intros t q Hq. destruct (decide (t = tid)) as [->|Hne].
    + rewrite (ran_self H) in Hq. injection Hq as <-. eapply lstep_point; [apply H|done|by eapply C2].
    + destruct (ran_threads H _ _ Hq Hne) as [Ho|(_ & _ & ->)]; [|done].
      eapply lstep_other_point; [apply H|by eapply C2|..].
      * intros Hf. destruct (finisher p) eqn:E; [|done]. destruct Hne. by eapply C6.
      * intros Hd. destruct (receiver p) eqn:E; [|done]. destruct (C3 _ _ Hat E). congruence.
      * intros Hd. destruct (finisher p) eqn:E; [|done]. destruct (C5 _ _ Hat E). congruence.
  - by eapply control_receiver_ran.
  - by eapply control_one_receiver_ran.
  - intros t q Hq Hf. by eapply control_finisher_ran.
  - intros t1 t2 p1 p2 H1 H2 F1 F2.
    destruct (control_finisher_ran _ _ _ _ _ _ _ C H _ _ H1 F1) as [[->|[G1 O1]] _];
      destruct (control_finisher_ran _ _ _ _ _ _ _ C H _ _ H2 F2) as [[->|[G2 O2]] _]; try done.
    + rewrite (ran_self H) in H1. injection H1 as <-.
      destruct (lstep_finisher _ _ _ _ _ _ (ran_step H) F1) as [(? & _)|(? & _)]; [congruence|].
      destruct (C5 _ _ O2 F2). congruence.
    + rewrite (ran_self H) in H2. injection H2 as <-.
      destruct (lstep_finisher _ _ _ _ _ _ (ran_step H) F2) as [(? & _)|(? & _)]; [congruence|].
      destruct (C5 _ _ O1 F1). congruence.
    + by eapply C6.
Qed.

Lemma reachable_control c s : reachable c s -> control s.
Proof.
  apply reachable_invariant; [apply control_initial|intros; by apply control_call|].
  intros. by eapply control_ran.
Qed.

(** ** Queues and order *)

Definition routed_to (p : string) (l : list (target * Frame)) : list Frame :=
  omap (fun x => if decide (x.1 = Local p) then Some x.2 else None) l.
Definition taken (p : string) (l : list (string * Frame)) : list Frame :=
  omap (fun x => if decide (x.1 = p) then Some x.2 else None) l.
Definition sequences (p : string) (l : list (target * Frame)) : list Z :=
  omap (fun x => if decide (f_FromParty x.2 = p) then Some (f_Seq x.2) else None) l.

(** A party's channel is a bounded first-in first-out buffer of its deliveries. *)
Definition queues (s : system) : Prop := forall p q, endpoints (router s) !! p = Some q ->
  (List.length q <= partyQueueCapacity)%nat /\
  (taken p (pulled s) ++ q)%list = routed_to p (routed s).

Lemma currentError_done r : done r = true -> currentError r = None -> False.
Proof. unfold currentError. intros ->. by case_match. Qed.

Lemma lstep_queue r p c r' p' e q l' : lstep r p c = Some (r', p', e) ->
  endpoints r' !! q = Some l' -> exists l, endpoints r !! q = Some l /\
  match e with
  | Some (Routed (Local party) f) =>
      if decide (party = q) then l' = (l ++ [f])%list /\ (List.length l < partyQueueCapacity)%nat else l' = l
  | Some (Pulled party f) => if decide (party = q) then l = f :: l' else l' = l
  | _ => l' = l
  end.
Proof.
  intros H Hq. destruct p; run_step H; cbn in *; eauto;
    try (exfalso; eapply currentError_done; eassumption);
    (apply lookup_insert_Some in Hq as [[<- <-]|[Hne Hq]]; eexists; (split; [eassumption|]));
    case_decide; try done; (split; [done|by apply Nat.ltb_lt]).
Qed.

Lemma queues_ran tid p ch p' e s s' : queues s -> ran tid p ch p' e s s' -> queues s'.
Proof.
  intros Q H q l' Hq. destruct (lstep_queue _ _ _ _ _ _ _ _ (ran_step H) Hq) as (l & Hl & He).
  destruct (Q _ _ Hl) as [Hlen Heq]. rewrite (ran_pulled H), (ran_routed H).
  unfold taken, routed_to in *. rewrite !omap_app, <- Heq.
  destruct e as [[[party|] f|party f|party f|]|]; cbn; rewrite ?app_nil_r; try (by subst).
  - case_decide; [destruct He as [-> ?]|subst l'].
    + subst. rewrite decide_True by done. rewrite length_app, app_assoc. cbn. split; [lia|done].
    + rewrite decide_False by congruence. by rewrite app_nil_r.
  - case_decide.
    + subst. cbn in *. rewrite <- app_assoc. split; [lia|done].
    + subst. by rewrite app_nil_r.
Qed.

Lemma queues_initial c r : New c = Ok r -> queues (initial r).
Proof.
  intros (_ & _ & He & _)%New_inv p q. cbn. rewrite He.
  intros [[_ <-]|[_ [_ <-]%lookup_singleton_Some]]%lookup_insert_Some; cbn;
    (split; [unfold partyQueueCapacity; lia|done]).
Qed.

Lemma reachable_queues c s : reachable c s -> queues s.
Proof.
  apply reachable_invariant; [apply queues_initial|by intros|]. intros. by eapply queues_ran.
Qed.

(** The platform's frames are delivered in the order of their sequence numbers. *)
Record ordered (c : Config) (s : system) : Prop := {
  ordered_log : StronglySorted Z.le (sequences (PlatformPartyID c) (routed s));
  ordered_pending : forall t f ts, threads s !! t = Some (Routing FromNetwork f ts) ->
    Forall (fun n => n <= f_Seq f)%Z (sequences (PlatformPartyID c) (routed s));
}.

Lemma sorted_snoc (l : list Z) z : StronglySorted Z.le l -> Forall (fun n => n <= z)%Z l ->
  StronglySorted Z.le (l ++ [z])%list.
Proof.
  induction 1 as [|x l Hs IH Hx]; cbn; [by repeat constructor|].
  intros [Hz Hl]%Forall_cons. constructor; [auto|]. apply Forall_app. auto.
Qed.

Lemma lstep_validated r p c r' who f ts e : lstep r p c = Some (r', Routing who f ts, e) ->
  (forall w g us, p <> Routing w g us) -> (max_of (validator r) (f_FromParty f) <= f_Seq f)%Z.
Proof.
  intros H Hp. destruct p; try (by run_step H).
  - unfold lstep, send_validate in H. case_match; simplify_eq.
    destruct (validateAndRecord _ _ _ _) as [v [e'|]] eqn:E; simplify_eq.
    apply validateAndRecord_ok in E as (_ & Hf & _ & _ & Hm & _).
    unfold route_next, route_return in *. case_match; simplify_eq. done.
  - by destruct (Hp who0 frame targets).
  - unfold lstep, net_validate in H. case_match; simplify_eq.
    destruct (validateAndRecord _ _ _ _) as [v [e'|]] eqn:E; simplify_eq.
    apply validateAndRecord_ok in E as (_ & Hf & _ & _ & Hm & _).
    unfold route_next, route_return in *. repeat (case_match; simplify_eq). by rewrite Hf.
Qed.

Lemma sequences_bounded c s : base c s ->
  Forall (fun n => n <= max_of (validator (router s)) (PlatformPartyID c))%Z
    (sequences (PlatformPartyID c) (routed s)).
Proof.
  intros Hb. apply Forall_forall. intros n (x & Hx & Hn)%list_elem_of_omap.
  case_decide as E; [|done]. injection Hn as <-.
  destruct (base_routed _ _ Hb _ Hx) as (_ & (_ & _ & Hm) & _). by rewrite E in Hm.
Qed.

Lemma ran_sequences {tid p ch p' e s s'} q : ran tid p ch p' e s s' ->
  sequences q (routed s') = (sequences q (routed s) ++ sequences q (emitted_route e))%list.
Proof. intros H. rewrite (ran_routed H). apply omap_app. Qed.

(** Only the receiver routes the platform's frames. *)
Lemma routes_platform c s tid who f t rest : base c s ->
  threads s !! tid = Some (Routing who f (t :: rest)) -> f_FromParty f = PlatformPartyID c ->
  who = FromNetwork.
Proof.
  intros Hb Ht Hf. destruct (base_threads _ _ Hb _ _ Ht) as (_ & _ & Hs & _).
  rewrite (base_config _ _ Hb) in Hs. destruct who; [|done]. cbn in Hs. rewrite Hf in Hs.
  destruct (base_distinct _ _ Hb) as (D1 & D2 & _). by destruct Hs.
Qed.

Lemma ordered_ran c tid p ch p' e s s' : base c s -> control s -> ordered c s ->
  ran tid p ch p' e s s' -> ordered c s'.
Proof.
  intros Hb C [O1 O2] H. set (P := PlatformPartyID c) in *.
  assert (Hnew : sequences P (emitted_route e) = [] \/ exists t f rest,
    e = Some (Routed t f) /\ p = Routing FromNetwork f (t :: rest) /\
    sequences P (emitted_route e) = [f_Seq f]).
  { destruct e as [[t f| | |]|]; cbn; auto. case_decide as E; [|by left]. right.
    destruct (ran_delivery Hb H) as (who & rest & Hat & -> & _).
    pose proof (routes_platform c s _ _ _ _ _ Hb Hat E) as ->. exists t, f, rest. done. }
  split; fold P; rewrite (ran_sequences P H).
  - destruct Hnew as [->|(t & f & rest & -> & -> & ->)]; [by rewrite app_nil_r|].
    apply sorted_snoc; [done|]. eapply O2, H.
  - intros t0 f0 ts0 Ht. apply Forall_app.
    destruct (decide (t0 = tid)) as [->|Hne].
    + destruct (ran_pending_self H _ _ _ Ht) as [(_ & ->)|(t1 & -> & ->)].
      * split; [|by constructor].
        rewrite (ran_self H) in Ht. injection Ht as ->.
        destruct (lstep_to_routing _ _ _ _ _ _ _ _ (ran_step H)) as [(_ & _ & Hn)|(? & _ & ?)]; [|done].
        pose proof (lstep_validated _ _ _ _ _ _ _ _ (ran_step H) Hn) as Hm.
        pose proof (base_ran _ _ _ _ _ _ _ _ Hb H) as Hb'.
        destruct (base_threads _ _ Hb' _ _ (ran_self H)) as (_ & _ & Hs & _). cbn in Hs.
        rewrite (base_config _ _ Hb') in Hs. rewrite Hs in Hm.
        eapply Forall_impl; [by apply sequences_bounded|]. cbn. lia.
      * split; [eapply O2, H|]. cbn. case_decide; repeat constructor. lia.
    + pose proof (ran_pending_old H _ _ _ _ Ht Hne) as Ho. split; [by eapply O2|].
      destruct Hnew as [->|(t & f & rest & _ & -> & _)]; [constructor|].
      destruct Hne. by eapply (control_one_receiver _ C); [exact Ho|apply H|..].
Qed.

Lemma reachable_ordered c s : reachable c s -> ordered c s.
Proof.
  intros Hs. apply (reachable_invariant (fun s => base c s /\ control s /\ ordered c s) c) in Hs;
    [apply Hs|..].
  - intros r Hr. split_and!; [by apply base_initial|by eapply control_initial|].
    split; cbn; [constructor|by intros].
  - intros s0 tid p (Hb & Hc & [O1 O2]) Hn He.
    split_and!; [by apply base_call|by apply control_call|]. split; cbn; [done|].
    intros t f ts [[_ ->]|[_ Hq]]%lookup_insert_Some; [done|eauto].
  - intros s0 s1 tid p ch p' e (Hb & Hc & Ho) H.
    split_and!; [by eapply base_ran|by eapply control_ran|by eapply ordered_ran].
Qed.

(** ** After Finish *)

Lemma lstep_validator r p c r' p' e : lstep r p c = Some (r', p', e) -> finishing r = true ->
  validator r' = validator r.
Proof. intros H Hf. destruct p; run_step H; cbn in *; congruence. Qed.

Lemma lstep_received r p c r' p' e party f : lstep r p c = Some (r', p', e) -> done r = true ->
  e <> Some (Received party f).
Proof.
  intros H Hd ->. pose proof (currentError_done r Hd) as Hc. destruct p; run_step H; done.
Qed.

(** Once [Finish] has returned, no step changes the outcome, accepts a frame or hands
    one to a party. *)
Lemma finished_step c s s' : reachable c s -> finished (router s) = true -> rstep s s' ->
  finished (router s') = true /\ terminalErr (router s') = terminalErr (router s) /\
  validator (router s') = validator (router s) /\ received s' = received s.
Proof.
  intros Hr Hf Hstep. pose proof (reachable_control _ _ Hr) as C.
  destruct (flags_finished _ (control_flags _ C) Hf) as (Hrd & Hfg & Hd & _).
  destruct Hstep as [s tid p Ht He|s tid ch s' Hrun]; [done|].
  apply run_thread_inv in Hrun as (p & p' & e & H).
  assert (receiver p = false /\ finisher p = false) as [H1 H2].
  { split; destruct (_ p) eqn:E; try done.
    - destruct (control_receiver _ C _ _ (ran_at H) E). congruence.
    - destruct (control_finisher _ C _ _ (ran_at H) E). congruence. }
  split_and!.
  - by rewrite (lstep_finished _ _ _ _ _ _ (ran_step H) H2).
  - by apply (lstep_errors _ _ _ _ _ _ (ran_step H)).
  - by eapply lstep_validator; [apply H|].
  - rewrite (ran_received H). destruct e as [[]|]; cbn; rewrite ?app_nil_r; try done.
    by destruct (lstep_received _ _ _ _ _ _ party frame (ran_step H) Hd).
Qed.

Lemma reachable_step c s s' : reachable c s -> rstep s s' -> reachable c s'.
Proof. intros (r & Hn & Hrun) H. exists r. split; [done|]. by eapply rtc_r. Qed.

Lemma finished_steps c s s' : rtc rstep s s' -> reachable c s -> finished (router s) = true ->
  terminalErr (router s') = terminalErr (router s) /\
  validator (router s') = validator (router s) /\ received s' = received s.
Proof.
  induction 1 as [|s s1 s' Hstep _ IH]; [done|]. intros Hr Hf.
  destruct (finished_step _ _ _ Hr Hf Hstep) as (Hf1 & <- & <- & <-).
  apply IH; [|done]. by eapply reachable_step.
Qed.

(** * Payloads and digests *)

Definition no_nul (c : ascii) : bool := negb (Ascii.eqb c nul).

Lemma last_field a b x y : str_forall no_nul x = true -> str_forall no_nul y = true ->
  a +:+ String nul x = b +:+ String nul y -> x = y.
Proof.
  assert (Hno : forall a x y, str_forall no_nul x = true -> x = a +:+ String nul y -> False).
  { intros a0 x0 y0 H ->. induction a0 as [|k a0 IH]; [by rewrite sapp_nil in H|].
    rewrite sapp_cons in H. cbn in H. split_bools. auto. }
  intros Hx Hy. revert b. induction a as [|k a IH]; intros [|l b]; rewrite ?sapp_nil, ?sapp_cons.
  - by intros [= ->].
  - intros [= <- E]. by destruct (Hno b x y Hx).
  - intros [= -> E]. by destruct (Hno a y x Hy).
  - intros [= -> E]. by eapply IH.
Qed.

Lemma hex_no_nul s : str_forall no_nul (hex_encode s) = true.
Proof.
  assert (Hd : forall n, (n < 16)%N -> no_nul (hex_digit n) = true)
    by (apply (forallb_below (fun n => no_nul (hex_digit n)) 16); vm_compute; reflexivity).
  induction s as [|c s IH]; [done|]. cbn [hex_encode str_forall].
  rewrite !Hd, IH; [done|..].
  - apply N.mod_lt. lia.
  - apply N.Div0.div_lt_upper_bound. pose proof (code_bound c). lia.
Qed.

Lemma nul_join_last l x y : exists a, nul_join (y :: l ++ [x])%list = a +:+ String nul x.
Proof.
  unfold nul_join. revert y. induction l as [|z l IH]; intros y.
  - exists y. cbn. by rewrite sapp_cons, sapp_nil.
  - destruct (IH z) as [a Ha]. exists (y +:+ String nul "" +:+ a).
    change ((z :: l) ++ [x])%list with (z :: (l ++ [x]))%list.
    cbn [String.concat]. cbn [String.concat] in Ha. rewrite Ha.
    by rewrite !sapp_assoc.
Qed.

Lemma sequence_text_payload f g : sequence_text f = sequence_text g -> f_Payload f = f_Payload g.
Proof.
  assert (H : forall k, exists a, sequence_text k = a +:+ String nul (hex_encode (f_Payload k))).
  { intros k. unfold sequence_text.
    eapply (nul_join_last [_; _; _; _; _; _; _; _; _; _] _ _). }
  destruct (H f) as [a ->], (H g) as [b ->]. intros E.
  apply last_field in E; [|apply hex_no_nul..].
  pose proof (hex_decode_encode (f_Payload f)) as Hf. rewrite E, hex_decode_encode in Hf. congruence.
Qed.

(** * Properties *)

(** (C13) Only genuine frames are routed, each only where it belongs, and each at most
    once per destination.  In every interleaving, a frame that was put into a party's
    channel or handed to the platform transport has the session, stage and protocol of
    the router's context, a payload that matches its declared hash, and a sender other
    than the destination; it is a broadcast or names that destination; what goes out to
    the platform comes from a local party; and no two deliveries to one destination
    have the same session, sender, recipient, message identifier and sequence number. *)
Theorem router_delivers_once (c : Config) (s : system) :
  reachable c s ->
  NoDup ((fun x => (x.1, frameKey x.2)) <$> routed s) /\
  forall t f, (t, f) ∈ routed s -> genuine c f /\ addressed c t f.
Proof.
  intros Hs. split; [apply (unique_routed _ (reachable_unique _ _ Hs))|].
  intros t f Hf. by destruct (base_routed _ _ (reachable_base _ _ Hs) _ Hf) as (? & _ & ?).
Qed.

(** (C14) No equivocation: two deliveries, to any destinations, of frames with the same
    sender and sequence number carry the same message identifier and the same payload,
    unless the two frames' digest inputs are a SHA-256 collision. *)
Theorem router_no_equivocation (c : Config) (s : system) t f u g :
  reachable c s -> (t, f) ∈ routed s -> (u, g) ∈ routed s ->
  f_FromParty f = f_FromParty g -> f_Seq f = f_Seq g ->
  f_MessageID f = f_MessageID g /\
  (f_Payload f = f_Payload g \/
   (sequence_text f <> sequence_text g /\ sha256 (sequence_text f) = sha256 (sequence_text g))).
Proof.
  intros Hs Hf Hg Hp Hq. pose proof (reachable_base _ _ Hs) as Hb.
  destruct (base_routed _ _ Hb _ Hf) as (_ & (_ & Of & _) & _).
  destruct (base_routed _ _ Hb _ Hg) as (_ & (_ & Og & _) & _). cbn in *.
  rewrite Hp, Hq, Og in Of. injection Of as Hm Hd. split; [done|].
  destruct (decide (sequence_text f = sequence_text g)) as [E|E]; [left|by right].
  by apply sequence_text_payload.
Qed.

(** The channels are bounded first-in first-out buffers, and the platform's
    frames keep their order: a party's channel holds at most its capacity; what the
    party has taken from it followed by what is still in it is exactly the sequence of
    deliveries to that party; and deliveries of platform frames have non-decreasing
    sequence numbers. *)
Theorem router_queues_in_order (c : Config) (s : system) :
  reachable c s ->
  (forall p q, endpoints (router s) !! p = Some q ->
     (List.length q <= partyQueueCapacity)%nat /\
     (taken p (pulled s) ++ q)%list = routed_to p (routed s)) /\
  StronglySorted Z.le (sequences (PlatformPartyID c) (routed s)).
Proof.
  intros Hs. split; [apply (reachable_queues _ _ Hs)|apply (ordered_log _ _ (reachable_ordered _ _ Hs))].
Qed.

(** [Finish] reports why the router stopped, and stops it for good.  When a call
    of [Finish] has returned [e], the receiver goroutine has ended and the router's
    error is [e], or [ErrRouterClosed] when [e] is nil; in every continuation that error
    stays the same, no further frame is accepted and no party receives one. *)
Theorem router_finish (c : Config) (s s' : system) tid e :
  reachable c s -> threads s !! tid = Some (FinishReturned e) -> rtc rstep s s' ->
  (forall t p, threads s !! t = Some p -> receiver p = false) /\
  Err (router s) = Some (default (ESent ErrRouterClosed) e) /\
  terminalErr (router s') = terminalErr (router s) /\
  validator (router s') = validator (router s) /\ received s' = received s.
Proof.
  intros Hs Ht Hrun. pose proof (reachable_control _ _ Hs) as C.
  destruct (control_points _ C _ _ Ht) as [Hf ->].
  destruct (flags_finished _ (control_flags _ C) Hf) as (Hrd & _ & Hd & He).
  split_and!; [|..|by eapply finished_steps|by eapply finished_steps|by eapply finished_steps].
  - intros t p Hp. destruct (receiver p) eqn:E; [|done].
    destruct (control_receiver _ C _ _ Hp E). congruence.
  - unfold Err, currentError. rewrite Hd.
    destruct (proj1 (flags_done _ (control_flags _ C)) Hd) as [x Hx]. rewrite Hx.
    destruct He as [He|[He1 He2]]; [rewrite <- He, Hx; done|]. rewrite He1. cbn. congruence.
Qed.

(** * A concrete session *)

(** A script of calls and steps, and the run it performs. *)
Inductive action := Call (tid : nat) (p : pc) | Run (tid : nat) (c : choice).

Definition entryb (r : Router) (p : pc) : bool :=
  match p with
  | StartCall | FinishCall => true
  | SendCheck party _ | RecvCheck party => is_ok (Transport r party)
  | _ => false
  end.

Definition act (a : action) (s : system) : option system :=
  match a with
  | Call tid p =>
      match threads s !! tid with
      | Some _ => None
      | None =>
          if entryb (router s) p then
            Some (Build_system (router s) (<[tid := p]> (threads s)) (routed s) (pulled s) (received s))
          else None
      end
  | Run tid c => run_thread tid c s
  end.

Fixpoint play (l : list action) (s : system) : option system :=
  match l with
  | [] => Some s
  | a :: l => match act a s with Some s => play l s | None => None end
  end.

Lemma act_rstep a s s' : act a s = Some s' -> rstep s s'.
Proof.
  destruct a as [tid p|tid c]; cbn; [|apply rstep_run].
  destruct (threads s !! tid) eqn:Et; [done|]. case_match eqn:E; [|done]. intros [= <-].
  apply rstep_call; [done|].
  destruct p; try done; cbn in *; apply is_ok_ex in E as [q E]; eauto.
Qed.

Lemma play_rtc l s s' : play l s = Some s' -> rtc rstep s s'.
Proof.
  revert s. induction l as [|a l IH]; intros s; cbn; [by intros [= ->]|].
  case_match eqn:E; [|done]. intros H. eapply rtc_l; [by eapply act_rstep|by apply IH].
Qed.

Definition fixture_config : Config := {|
  SessionID := "s-1"; PlatformPartyID := "mpc-signer"; PrimaryPartyID := "primary";
  RecoveryPartyID := "recovery"; Stage := "dkg"; Protocol := "ECDSA" |}.

Definition fixture_frame (from to message : string) (seq : Z) (broadcast : bool) (payload : bytes) : Frame := {|
  f_SessionID := "s-1"; f_MessageID := message; f_Seq := seq; f_Round := 1; f_RoundHint := 0;
  f_Broadcast := broadcast; f_Stage := "dkg"; f_Protocol := "ecdsa"; f_FromParty := from;
  f_ToParty := to; f_MessageType := "KGRound1"; f_Payload := payload; f_PayloadHash := "";
  f_DerivationContextHash := "" |}.

(** The primary broadcasts, the platform answers the recovery party, which receives
    both, and the router is finished. *)
Definition fixture_broadcast : Frame := fixture_frame "primary" "" "m-1" 1 true "hello".
Definition fixture_answer : Frame := fixture_frame "mpc-signer" "recovery" "m-2" 7 false "world".
Definition fixture_script : list action :=
  [Call 0 StartCall; Run 0 NoChoice; Call 2 (SendCheck "primary" fixture_broadcast);
   Run 2 NoChoice; Run 2 NoChoice; Run 2 SelQueue; Run 2 (NetworkSent None);
   Run 1 (NetworkFrame (Ok fixture_answer)); Run 1 NoChoice; Run 1 SelQueue;
   Call 3 (RecvCheck "recovery"); Run 3 NoChoice; Run 3 SelQueue; Run 3 NoChoice;
   Call 4 FinishCall; Run 4 NoChoice; Run 4 NoChoice; Run 4 NoChoice;
   Run 1 (NetworkFrame (Fail (ESent Canceled))); Run 1 NoChoice; Run 1 NoChoice;
   Run 4 NoChoice; Run 4 NoChoice; Run 4 NoChoice].

Definition fixture_router : res Router := New fixture_config.
Definition fixture_system : option system :=
  match fixture_router with Ok r => play fixture_script (initial r) | Fail _ => None end.

Lemma fixture_reachable s : fixture_system = Some s -> reachable fixture_config s.
Proof.
  unfold fixture_system, fixture_router. destruct (New fixture_config) as [r|] eqn:E; [|done].
  intros H. exists r. split; [done|]. by apply play_rtc in H.
Qed.

(** What the run shows. *)
Definition observe (s : system) : list (target * Frame) * option pc :=
  (routed s, threads s !! 4%nat).
Example fixture_observed : observe <$> fixture_system =
  Some ([(Local "recovery", fixture_broadcast); (Network, fixture_broadcast);
         (Local "recovery", fixture_answer)], Some (FinishReturned None)).
Proof. vm_compute. reflexivity. Qed.

(** A system of the fixture, with its observation. *)
Lemma fixture_state : exists s, reachable fixture_config s /\
  routed s = [(Local "recovery", fixture_broadcast); (Network, fixture_broadcast);
              (Local "recovery", fixture_answer)] /\
  threads s !! 4%nat = Some (FinishReturned None).
Proof.
  pose proof fixture_observed as H. apply fmap_Some in H as (s & E & H).
  exists s. split; [by apply fixture_reachable|]. split.
  - exact (f_equal fst (eq_sym H)).
  - exact (f_equal snd (eq_sym H)).
Qed.

Lemma router_delivers_once_witness : exists s, reachable fixture_config s /\
  (genuine fixture_config fixture_answer /\ addressed fixture_config (Local "recovery") fixture_answer).
Proof.
  destruct fixture_state as (s & Hs & Hr & _). exists s. split; [done|].
  apply (router_delivers_once fixture_config s Hs). rewrite Hr. set_solver.
Defined.

Lemma router_no_equivocation_witness : exists s, reachable fixture_config s /\
  f_MessageID fixture_broadcast = f_MessageID fixture_broadcast.
Proof.
  destruct fixture_state as (s & Hs & Hr & _). exists s. split; [done|].
  apply (router_no_equivocation fixture_config s (Local "recovery") fixture_broadcast
           Network fixture_broadcast Hs); [rewrite Hr; set_solver..|reflexivity|reflexivity].
Defined.

Lemma router_queues_in_order_witness : exists s, reachable fixture_config s /\
  StronglySorted Z.le (sequences "mpc-signer" (routed s)).
Proof.
  destruct fixture_state as (s & Hs & Hr & _). exists s. split; [done|].
  apply (router_queues_in_order fixture_config s Hs).
Defined.

Lemma router_finish_witness : exists s, reachable fixture_config s /\
  Err (router s) = Some (ESent ErrRouterClosed).
Proof.
  destruct fixture_state as (s & Hs & _ & Ht). exists s. split; [done|].
  apply (router_finish fixture_config s s 4 None Hs Ht). apply rtc_refl.
Defined.
