(* ===== verification/GoTime.v ===== *)
(** The part of Go's [time] package that reads and prints RFC 3339 timestamps:
    [time.Parse] and [Time.UnmarshalJSON] with the layouts [RFC3339] and
    [RFC3339Nano], which accept the same texts, and [Format(RFC3339Nano)]. *)
From stdpp Require Import base tactics option list strings numbers.
From Stdlib Require Import ZArith Lia Ascii String.
From S2P Require Import Prelude GoText ApprovalWire.

#[local] Open Scope string_scope.

(** An instant with the zone offset, in seconds, that it was written with. *)
Record stamp := { instant : time; offset : Z }.

(** [getnum(s, false)]: one or two digits. *)
Definition one_or_two (s : string) : option (Z * string) :=
  match two s with
  | Some r => Some r
  | None => r ← run_of is_digit 1 s; n ← parse_digits (str_take 1 s); Some (n, r)
  end.

(** A fraction of a second after a period or a comma: nanoseconds, of which digits
    after the ninth are dropped. *)
Fixpoint digit_run (s : string) : string * string :=
  match s with
  | String c r => if is_digit c then let '(d, k) := digit_run r in (String c d, k) else ("", s)
  | "" => ("", "")
  end.
Definition nanoseconds (digits : string) : Z :=
  let d := str_take 9 digits in
  (default 0 (parse_digits d) * 10 ^ (9 - zlen d))%Z.
Definition fraction (s : string) : Z * string :=
  match s with
  | String c r =>
      if (Ascii.eqb c "." || Ascii.eqb c ",") && bool_decide (is_Some (run_of is_digit 1 r)) then
        let '(d, k) := digit_run r in (nanoseconds d, k)
      else (0%Z, s)
  | "" => (0%Z, s)
  end.

(** [Z07:00]: offsets up to 24 hours and 60 minutes are in range. *)
Definition zone (s : string) : option Z :=
  if s =s "Z" then Some 0%Z
  else match s with
  | String sign r =>
      '(hr, r) ← two r; r ← strip_prefix ":" r; '(mm, r) ← two r;
      if (r =s "") && (hr <=? 24)%Z && (mm <=? 60)%Z then
        if Ascii.eqb sign "+" then Some ((hr * 60 + mm) * 60)%Z
        else if Ascii.eqb sign "-" then Some (- ((hr * 60 + mm) * 60))%Z
        else None
      else None
  | "" => None
  end.

Definition parse_time (s : string) : option stamp :=
  r ← run_of is_digit 4 s; year ← parse_digits (str_take 4 s);
  r ← strip_prefix "-" r; '(month, r) ← two r;
  r ← strip_prefix "-" r; '(day, r) ← two r;
  r ← strip_prefix "T" r; '(hour, r) ← one_or_two r;
  r ← strip_prefix ":" r; '(minute, r) ← two r;
  r ← strip_prefix ":" r; '(sec, r) ← two r;
  let '(nsec, r) := fraction r in
  off ← zone r;
  if ((1 <=? month) && (month <=? 12) && (1 <=? day) && (day <=? days_in month year)
      && (hour <? 24) && (minute <? 60) && (sec <? 60))%Z
  then Some {| instant := ((((unix_days year month day * 24 + hour) * 60 + minute) * 60 + sec - off)
                            * second + nsec)%Z;
               offset := off |}
  else None.

(** [Format(RFC3339Nano)] of a stamp in the four-digit years. *)
Definition pad2 (z : Z) : string := if (z <? 10)%Z then "0" +:+ format_int z else format_int z.
Definition pad_to (n : nat) (s : string) : string :=
  String.concat "" (replicate (n - String.length s) "0") +:+ s.

(** The civil date of a day number, by the year and then the month it falls in. *)
Fixpoint year_of (fuel : nat) (y days : Z) : Z :=
  match fuel with
  | O => y
  | S n => if (unix_days (y + 1) 1 1 <=? days)%Z then year_of n (y + 1) days else y
  end.
Fixpoint month_of (fuel : nat) (y m days : Z) : Z :=
  match fuel with
  | O => m
  | S n => if (m <? 12)%Z && (unix_days y (m + 1) 1 <=? days)%Z then month_of n y (m + 1) days else m
  end.

Fixpoint trim_zeros (fuel : nat) (s : string) : string :=
  match fuel with
  | O => s
  | S n => if has_suffix "0" s then trim_zeros n (str_take (String.length s - 1) s) else s
  end.

Definition format_fraction (nsec : Z) : string :=
  if (nsec =? 0)%Z then "" else "." +:+ trim_zeros 9 (pad_to 9 (format_int nsec)).

Definition format_zone (off : Z) : string :=
  if (off =? 0)%Z then "Z"
  else
    let minutes := (Z.abs off / 60)%Z in
    (if (off <? 0)%Z then "-" else "+") +:+ pad2 (minutes / 60) +:+ ":" +:+ pad2 (minutes mod 60).

Definition format_time (t : stamp) : string :=
  let nsec := (instant t mod second)%Z in
  let local := (instant t / second + offset t)%Z in
  let days := (local / 86400)%Z in
  let secs := (local mod 86400)%Z in
  let y := year_of 10000 0 days in
  let m := month_of 12 y 1 days in
  pad_to 4 (format_int y) +:+ "-" +:+ pad2 m +:+ "-" +:+ pad2 (days - unix_days y m 1 + 1) +:+ "T"
  +:+ pad2 (secs / 3600) +:+ ":" +:+ pad2 (secs / 60 mod 60) +:+ ":" +:+ pad2 (secs mod 60)
  +:+ format_fraction nsec +:+ format_zone (offset t).

(** Texts in the layout are read and printed back; the parser is as lenient as Go's. *)
Example parse_time_utc : parse_time "2024-02-29T23:59:59.5Z" =
  Some {| instant := 1709251199500000000; offset := 0 |}.
Proof. vm_compute. reflexivity. Qed.
Example parse_time_lenient : parse_time "2024-01-01T1:02:03,123+02:00" = parse_time "2024-01-01T01:02:03.123+02:00".
Proof. vm_compute. reflexivity. Qed.
Example parse_time_range : parse_time "2023-02-29T00:00:00Z" = None /\ parse_time "2023-02-28T24:00:00Z" = None.
Proof. vm_compute. split; reflexivity. Qed.
Example format_time_back : format_time <$> parse_time "2024-02-29T23:59:59.5-03:30" = Some "2024-02-29T23:59:59.5-03:30".
Proof. vm_compute. reflexivity. Qed.
