(* ===== verification/RawJson.v ===== *)
(** [encoding/json] into structs whose fields keep raw text ([json.RawMessage]) or
    have their own decoders: the members of an object are grouped by the field they
    are assigned to, and each field is read from the values assigned to it, in order. *)
From stdpp Require Import base tactics option list strings numbers gmap.
From Stdlib Require Import ZArith Lia Ascii String.
From S2P Require Import Prelude GoText Json StrictJson ApprovalWire GoTime.

#[local] Open Scope string_scope.

(** The field a member name selects: an exact match, else the first match up to case. *)
Definition resolve (names : list string) (k : string) : option string :=
  if bool_decide (k ∈ names) then Some k
  else snd <$> list_find (fun n => fold_case k = fold_case n) names.

Abbreviation members := (list (string * bytes)).

(** The values assigned to a field. *)
Definition assigned (names : list string) (l : members) (field : string) : list bytes :=
  omap (fun kv => if bool_decide (resolve names kv.1 = Some field) then Some kv.2 else None) l.

Definition unknown_member (names : list string) (l : members) : bool :=
  existsb (fun kv => bool_decide (resolve names kv.1 = None)) l.

(** A member is decoded onto the value so far; [null] keeps it. *)
Definition onto {A} (dec : bytes -> option A) (acc : option A) (raw : bytes) : option A :=
  match acc with None => None | Some a => if raw =s "null" then Some a else dec raw end.
Definition field_of {A} (dec : bytes -> option A) (zero : A) (vs : list bytes) : option A :=
  fold_left (onto dec) vs (Some zero).
(** A pointer, slice or map field: [null] makes it nil. *)
Definition onto_nilable {A} (dec : bytes -> option A) (acc : option (option A)) (raw : bytes)
    : option (option A) :=
  match acc with
  | None => None
  | Some _ => if raw =s "null" then Some None else Some <$> dec raw
  end.
Definition nilable {A} (dec : bytes -> option A) (vs : list bytes) : option (option A) :=
  fold_left (onto_nilable dec) vs (Some None).

(** Values of the basic types. *)
Definition dec_string (raw : bytes) : option string :=
  match json_parse raw with Some (JStr s) => Some s | _ => None end.
Definition dec_int (raw : bytes) : option Z :=
  match json_parse raw with Some (JNum l) => parse_int64 l | _ => None end.
Definition dec_uint64 (raw : bytes) : option Z :=
  match json_parse raw with Some (JNum l) => parse_uint64 l | _ => None end.
Definition dec_uint32 (raw : bytes) : option Z :=
  z ← dec_uint64 raw; if (z <? 2 ^ 32)%Z then Some z else None.
Definition dec_bool (raw : bytes) : option bool :=
  match json_parse raw with Some (JBool b) => Some b | _ => None end.
Definition dec_bytes (raw : bytes) : option bytes :=
  v ← json_parse raw; bytes_of_json v.
Definition dec_time (raw : bytes) : option stamp := s ← dec_string raw; parse_time s.
Definition dec_strings (raw : bytes) : option (list string) :=
  match json_parse raw with
  | Some (JArr l) => mapM (fun v => match v with JStr s => Some s | JNull => Some "" | _ => None end) l
  | _ => None
  end.
Definition dec_list {A} (dec : bytes -> option A) (raw : bytes) : option (list A) :=
  l ← raw_elements raw; mapM dec l.

(** A field whose type has its own [UnmarshalJSON] sees [null] too. *)
Definition custom {A} (dec : bytes -> option A) (zero : A) (vs : list bytes) : option A :=
  fold_left (fun acc raw => match acc with None => None | Some _ => dec raw end) vs (Some zero).
Definition raw_message (vs : list bytes) : bytes := default "" (last vs).

(** The members of a struct value; [strict] is [DisallowUnknownFields]. *)
Definition struct_members (strict : bool) (names : list string) (raw : bytes) : option members :=
  match json_parse raw with
  | Some (JObj _) =>
      l ← raw_members raw;
      if strict && unknown_member names l then None else Some l
  | Some JNull => Some []
  | _ => None
  end.

(** [json.Marshal] of a [RawMessage]: invalid text is an error; otherwise white space
    outside strings is dropped and the characters HTML escapes are escaped. *)
Fixpoint compact_text (in_string escaped : bool) (s : string) : string :=
  match s with
  | "" => ""
  | String c r =>
      if in_string then
        let in_string' := escaped || negb (Ascii.eqb c dquote) in
        let escaped' := negb escaped && Ascii.eqb c backslash in
        match c, r with
        | "<"%char, _ => "\u003c" +:+ compact_text in_string' escaped' r
        | ">"%char, _ => "\u003e" +:+ compact_text in_string' escaped' r
        | "&"%char, _ => "\u0026" +:+ compact_text in_string' escaped' r
        | "226"%char, String "128" (String "168" r) => "\u2028" +:+ compact_text in_string' escaped' r
        | "226"%char, String "128" (String "169" r) => "\u2029" +:+ compact_text in_string' escaped' r
        | _, _ => String c (compact_text in_string' escaped' r)
        end
      else if is_ws c then compact_text false false r
      else String c (compact_text (Ascii.eqb c dquote) false r)
  end.
Definition marshal_raw (raw : bytes) : option bytes :=
  match json_parse raw with Some _ => Some (compact_text false false raw) | None => None end.

(** [json.Marshal] of a map whose values are already encoded, in key order. *)
Definition object_text (members : list (string * bytes)) : bytes :=
  "{" +:+ commas (map (fun kv => quote kv.1 +:+ ":" +:+ kv.2) members) +:+ "}".
