(* ===== verification/Monolith.v ===== *)
(** [internal/monolith]: the client of the backend.  The wire types with their
    decoders, the session lifecycle projection, discovery listings, the claim of an
    intent, the delivery of results, and the signed, retried HTTP exchange they
    share.  The network is a script of responses, one per attempt. *)
From stdpp Require Import base tactics option list strings numbers gmap.
From Stdlib Require Import ZArith Lia Ascii String.
From S2P Require Import Prelude GoText Sha256 Json StrictJson Externals Mpc2of3 ApprovalWire SigningPolicy GoTime RawJson.

#[local] Open Scope string_scope.

(** * types.go: the session lifecycle *)

Definition err_lifecycle : error := ESent ErrInvalidLifecycle.

(** [DeadlineZone] is the zone the deadline was written with, which
    [Deadline.Format] prints. *)
Record SessionLifecycle := {
  sl_SessionID : string; sl_Status : string; StartedAt : option time; Deadline : time;
  DeadlineZone : Z; ExecutionExpiresAt : option time;
}.

Definition zero_session : SessionLifecycle := Build_SessionLifecycle "" "" None zero_time 0 None.

Definition is_none {A} (o : option A) : bool := match o with None => true | _ => false end.
Definition lifecycle_statuses : list string := ["PENDING"; "RUNNING"; "COMPLETED"; "FAILED"; "TIMED_OUT"].

(** [time.Unix(0, 0)]. *)
Definition unix_epoch : time := 0.

(** [want]: five minutes after the start, capped by the deadline. *)
Definition execution_limit (started deadline : time) : time :=
  let want := (started + 300 * second)%Z in
  if time_before deadline want then deadline else want.

Definition Validate (s : SessionLifecycle) (kind sessionID : string) (deadline : time) : res unit :=
  if (sl_SessionID s =s "") || ((sessionID <>s "") && (sl_SessionID s <>s sessionID))
     || negb (time_after (Deadline s) unix_epoch)
     || (negb (time_is_zero deadline) && negb (time_equal (Deadline s) deadline))
  then Fail err_lifecycle
  else if negb (existsb (String.eqb (sl_Status s)) lifecycle_statuses) then Fail err_lifecycle
  else if ((sl_Status s =s "PENDING") && is_some (StartedAt s))
          || ((sl_Status s =s "RUNNING") && is_none (StartedAt s)) then Fail err_lifecycle
  else if match StartedAt s with
          | Some t => negb (time_after t unix_epoch) || negb (time_before t (Deadline s))
          | None => false
          end then Fail err_lifecycle
  else if (is_none (StartedAt s) && is_some (ExecutionExpiresAt s))
          || ((kind =s "DKG") && is_some (ExecutionExpiresAt s)) then Fail err_lifecycle
  else if (kind =s "SIGN") && is_some (StartedAt s) && is_none (ExecutionExpiresAt s) then
    Fail err_lifecycle
  else match ExecutionExpiresAt s with
  | Some t =>
      match StartedAt s with
      | None => Fail err_lifecycle
      | Some started =>
          if negb (time_equal t (execution_limit started (Deadline s))) then Fail err_lifecycle
          else Ok ()
      end
  | None => Ok ()
  end.

(** [SessionLifecycle.UnmarshalJSON]: exactly the five members, three of them not
    null, and a lifecycle that is valid on its own. *)
Definition session_names : list string := ["sessionId"; "status"; "startedAt"; "deadline"; "executionExpiresAt"].
Definition session_members_bad (fields : Object) : bool :=
  negb (size fields =? 5)%nat
  || existsb (fun name =>
       match fields !! name with
       | None => true
       | Some v => (name <>s "startedAt") && (name <>s "executionExpiresAt") && (v =s "null")
       end) session_names.

Definition decode_session (raw : bytes) : option SessionLifecycle :=
  l ← struct_members false session_names raw;
  let get := assigned session_names l in
  id ← field_of dec_string "" (get "sessionId");
  status ← field_of dec_string "" (get "status");
  started ← nilable dec_time (get "startedAt");
  deadline ← field_of dec_time {| instant := zero_time; offset := 0 |} (get "deadline");
  expires ← nilable dec_time (get "executionExpiresAt");
  Some {| sl_SessionID := id; sl_Status := status; StartedAt := instant <$> started;
          Deadline := instant deadline; DeadlineZone := offset deadline;
          ExecutionExpiresAt := instant <$> expires |}.

Definition session_UnmarshalJSON (raw : bytes) : res SessionLifecycle :=
  fields ← of_option (unmarshal_object raw) err_lifecycle;
  _ ← ensure (negb (session_members_bad fields)) err_lifecycle;
  s ← of_option (decode_session raw) err_lifecycle;
  _ ← Validate s "" "" zero_time;
  Ok s.

Definition res_option {A} (r : res A) : option A := match r with Ok a => Some a | Fail _ => None end.

(** * types.go: messages, intents and claims *)

Record InboundMessage := {
  im_DeliverySeq : Z; im_ProtocolSeq : Z; im_MessageID : string; im_Round : Z;
  im_FromPartyID : string; im_ToPartyID : string; im_Broadcast : bool; im_Payload : bytes;
  im_DerivationContextHash : string;
}.
Definition message_names : list string :=
  ["deliverySeq"; "protocolSeq"; "messageId"; "round"; "fromPartyId"; "toPartyId"; "broadcast";
   "payload"; "derivationContextHash"].
Definition decode_message (raw : bytes) : option InboundMessage :=
  l ← struct_members true message_names raw;
  let get := assigned message_names l in
  dseq ← field_of dec_uint64 0%Z (get "deliverySeq"); pseq ← field_of dec_uint64 0%Z (get "protocolSeq");
  id ← field_of dec_string "" (get "messageId"); round ← field_of dec_uint32 0%Z (get "round");
  from ← field_of dec_string "" (get "fromPartyId"); to ← field_of dec_string "" (get "toPartyId");
  broadcast ← field_of dec_bool false (get "broadcast"); payload ← nilable dec_bytes (get "payload");
  hash ← field_of dec_string "" (get "derivationContextHash");
  Some {| im_DeliverySeq := dseq; im_ProtocolSeq := pseq; im_MessageID := id; im_Round := round;
          im_FromPartyID := from; im_ToPartyID := to; im_Broadcast := broadcast;
          im_Payload := default "" payload; im_DerivationContextHash := hash |}.

Record MessagesResult := { mr_Session : SessionLifecycle; mr_Messages : list InboundMessage }.

(** [MessagesResult.UnmarshalJSON]. *)
Definition messages_UnmarshalJSON (raw : bytes) : res MessagesResult :=
  fields ← of_option (unmarshal_object raw) err_lifecycle;
  _ ← ensure ((size fields =? 2)%nat && is_some (fields !! "session") && is_some (fields !! "messages")
              && (member fields "messages" <>s "null")) err_lifecycle;
  _ ← (match rejectDuplicateKeys raw with Ok u => Ok u | Fail _ => Fail err_lifecycle end);
  out ← of_option (
    let names := ["session"; "messages"] in
    l ← struct_members true names raw;
    session ← custom (fun raw => res_option (session_UnmarshalJSON raw)) zero_session (assigned names l "session");
    messages ← nilable (dec_list decode_message) (assigned names l "messages");
    Some {| mr_Session := session; mr_Messages := default [] messages |}) err_lifecycle;
  _ ← Validate (mr_Session out) "" "" zero_time;
  Ok out.

Record DerivationContext := {
  dc_ProfileID : string; dc_ProfileTemplateID : string; dc_Chain : string; dc_Algorithm : string;
  dc_Curve : string; dc_Scheme : string; dc_AccountPath : string; dc_ChildPath : string;
  dc_FullPath : string; dc_AddressEncoding : string; dc_ExpectedAddress : string;
  dc_ExpectedPublicKey : string; dc_PublicKeyFormat : string; dc_DescriptorVersion : Z;
  dc_ProfileVersion : Z; dc_KeyVersion : Z;
}.

Record IntentPayload := {
  ip_Type : string; ip_OrgID : string; ip_WalletID : string; ip_KeyID : string;
  ip_ProfileID : string; ip_ProfileVersion : Z; ip_ProfileTemplateID : string;
  ip_Parties : list string; ip_Threshold : Z; ip_Algorithm : string; ip_Curve : string;
  ip_Chain : string; ip_Digest : bytes; ip_DigestType : string; ip_HashAlgorithm : string;
  ip_SigningPayloadType : string; ip_ChainCode : string; ip_ChainCodeHash : string;
  ip_DerivationScheme : string; ip_DescriptorBytes : bytes; ip_DescriptorFingerprint : string;
  ip_DerivationContextHash : string; ip_PartyID : string;
  ip_DerivationContext : option DerivationContext; ip_PolicyContext : option PolicyContext;
}.

Record Intent := {
  in_Version : Z; in_Approval : option ApprovedExecution; in_Prepared : option PreparedTransfer;
  in_Session : SessionLifecycle; in_CreatedAt : time; in_DeadlineRaw : string;
  in_DiscoveryStatus : string; in_IntentID : string; in_SessionID : string; in_Type : string;
  in_ExpiresAt : time; in_Payload : IntentPayload;
}.

Record ClaimResult := {
  cr_Version : Z; cr_Approval : option ApprovedExecution; cr_Prepared : option PreparedTransfer;
  cr_Session : SessionLifecycle; cr_HTTPStatus : Z; cr_IntentID : string; cr_SessionID : string;
  cr_Type : string; cr_Payload : IntentPayload; cr_Status : string; cr_Deadline : time;
  cr_DeadlineRaw : string; cr_OrgID : string; cr_KeyID : string; cr_DescriptorBytes : bytes;
  cr_DescriptorFingerprint : string; cr_ChainCode : bytes;
}.

Definition derivation_names : list string :=
  ["profileId"; "profileTemplateId"; "chain"; "algorithm"; "curve"; "scheme"; "accountPath";
   "childPath"; "fullPath"; "addressEncoding"; "expectedAddress"; "expectedPublicKey";
   "publicKeyFormat"; "descriptorVersion"; "profileVersion"; "keyVersion"].
Definition decode_derivation (raw : bytes) : option DerivationContext :=
  l ← struct_members true derivation_names raw;
  let text k := field_of dec_string "" (assigned derivation_names l k) in
  let number k := field_of dec_uint32 0%Z (assigned derivation_names l k) in
  a ← text "profileId"; b ← text "profileTemplateId"; c ← text "chain"; d ← text "algorithm";
  e ← text "curve"; f ← text "scheme"; g ← text "accountPath"; h ← text "childPath";
  i ← text "fullPath"; j ← text "addressEncoding"; k ← text "expectedAddress";
  m ← text "expectedPublicKey"; n ← text "publicKeyFormat"; o ← number "descriptorVersion";
  p ← number "profileVersion"; q ← number "keyVersion";
  Some (Build_DerivationContext a b c d e f g h i j k m n o p q).

Definition payload_names : list string :=
  ["type"; "orgId"; "walletId"; "keyId"; "profileId"; "profileVersion"; "profileTemplateId";
   "parties"; "threshold"; "algorithm"; "curve"; "chain"; "digest"; "digestType"; "hashAlgorithm";
   "signingPayloadType"; "chainCode"; "chainCodeHash"; "derivationScheme"; "descriptorBytesBase64";
   "descriptorFingerprint"; "derivationContextHash"; "partyId"; "derivationContext"; "policyContext"].
(** A nil pointer of a type with its own decoder stays nil on [null]. *)
Definition decode_payload (raw : bytes) : option IntentPayload :=
  l ← struct_members true payload_names raw;
  let get := assigned payload_names l in
  let text k := field_of dec_string "" (get k) in
  let number k := field_of dec_uint32 0%Z (get k) in
  let data k := (default "") <$> nilable dec_bytes (get k) in
  a ← text "type"; b ← text "orgId"; c ← text "walletId"; d ← text "keyId"; e ← text "profileId";
  f ← number "profileVersion"; g ← text "profileTemplateId";
  h ← nilable dec_strings (get "parties"); i ← number "threshold"; j ← text "algorithm";
  k ← text "curve"; m ← text "chain"; n ← data "digest"; o ← text "digestType";
  p ← text "hashAlgorithm"; q ← text "signingPayloadType"; r ← text "chainCode";
  s ← text "chainCodeHash"; t ← text "derivationScheme"; u ← data "descriptorBytesBase64";
  v ← text "descriptorFingerprint"; w ← text "derivationContextHash"; x ← text "partyId";
  y ← nilable decode_derivation (get "derivationContext");
  z ← nilable (fun raw => res_option (Context_UnmarshalJSON raw)) (get "policyContext");
  Some (Build_IntentPayload a b c d e f g (default [] h) i j k m n o p q r s t u v w x y z).

(** [ApprovedExecution.UnmarshalJSON] and [PreparedTransfer.UnmarshalJSON]: closed
    structs that keep the authorization, receipt and evidence as raw text. *)
Definition approval_names : list string :=
  ["version"; "requestId"; "outgoingId"; "authorization"; "authorizationHash"; "decisionReceipt"].
Definition decode_approval (raw : bytes) : option ApprovedExecution :=
  _ ← res_option (rejectDuplicateKeys raw);
  l ← struct_members true approval_names raw;
  let get := assigned approval_names l in
  version ← field_of dec_int 0%Z (get "version"); request ← field_of dec_string "" (get "requestId");
  outgoing ← field_of dec_string "" (get "outgoingId");
  hash ← field_of dec_string "" (get "authorizationHash");
  m ← unmarshal_object raw;
  if negb (closed m approval_names) || existsb (isNull m) approval_names then None
  else Some {| ae_Version := version; ae_RequestID := request; ae_OutgoingID := outgoing;
               ae_Authorization := raw_message (get "authorization"); ae_AuthorizationHash := hash;
               ae_DecisionReceipt := raw_message (get "decisionReceipt") |}.

Definition prepared_names : list string :=
  ["version"; "encoding"; "unsignedTransaction"; "networkFeeAsset"; "networkFeeBudgetAtomic"; "feeEvidence"].
Definition decode_prepared (raw : bytes) : option PreparedTransfer :=
  _ ← res_option (rejectDuplicateKeys raw);
  l ← struct_members true prepared_names raw;
  let get := assigned prepared_names l in
  version ← field_of dec_int 0%Z (get "version"); encoding ← field_of dec_string "" (get "encoding");
  tx ← field_of dec_string "" (get "unsignedTransaction");
  asset ← field_of dec_string "" (get "networkFeeAsset");
  budget ← field_of dec_string "" (get "networkFeeBudgetAtomic");
  m ← unmarshal_object raw;
  if negb (closed m prepared_names)
     || existsb (fun k => isNull m k && (k <>s "feeEvidence")) prepared_names then None
  else Some {| pt_Version := version; pt_Encoding := encoding; pt_UnsignedTransaction := tx;
               pt_NetworkFeeAsset := asset; pt_NetworkFeeBudgetAtomic := budget;
               pt_FeeEvidence := raw_message (get "feeEvidence") |}.

Definition claim_names : list string :=
  ["version"; "approval"; "prepared"; "session"; "httpStatus"; "intentId"; "sessionId"; "type";
   "payload"; "status"; "deadline"; "orgId"; "keyId"; "descriptorBytesBase64";
   "descriptorFingerprint"; "chainCodeBase64"].
Definition zero_payload : IntentPayload :=
  Build_IntentPayload "" "" "" "" "" 0 "" [] 0 "" "" "" "" "" "" "" "" "" "" "" "" "" "" None None.
Definition decode_claim (raw : bytes) : option ClaimResult :=
  l ← struct_members true claim_names raw;
  let get := assigned claim_names l in
  let text k := field_of dec_string "" (get k) in
  let data k := (default "") <$> nilable dec_bytes (get k) in
  version ← field_of dec_int 0%Z (get "version"); approval ← nilable decode_approval (get "approval");
  prepared ← nilable decode_prepared (get "prepared");
  session ← custom (fun raw => res_option (session_UnmarshalJSON raw)) zero_session (get "session");
  status ← field_of dec_int 0%Z (get "httpStatus"); intent ← text "intentId"; sid ← text "sessionId";
  kind ← text "type"; payload ← field_of decode_payload zero_payload (get "payload");
  state ← text "status";
  deadline ← field_of dec_time {| instant := zero_time; offset := 0 |} (get "deadline");
  org ← text "orgId"; key ← text "keyId"; descriptor ← data "descriptorBytesBase64";
  fingerprint ← text "descriptorFingerprint"; code ← data "chainCodeBase64";
  Some {| cr_Version := version; cr_Approval := approval; cr_Prepared := prepared;
          cr_Session := session; cr_HTTPStatus := status; cr_IntentID := intent; cr_SessionID := sid;
          cr_Type := kind; cr_Payload := payload; cr_Status := state; cr_Deadline := instant deadline;
          cr_DeadlineRaw := ""; cr_OrgID := org; cr_KeyID := key; cr_DescriptorBytes := descriptor;
          cr_DescriptorFingerprint := fingerprint; cr_ChainCode := code |}.

Definition err_envelope : error := ESent ErrClaimEnvelopeInvalid.

Definition with_deadline_raw (s : string) (r : ClaimResult) : ClaimResult :=
  Build_ClaimResult (cr_Version r) (cr_Approval r) (cr_Prepared r) (cr_Session r) (cr_HTTPStatus r)
    (cr_IntentID r) (cr_SessionID r) (cr_Type r) (cr_Payload r) (cr_Status r) (cr_Deadline r) s
    (cr_OrgID r) (cr_KeyID r) (cr_DescriptorBytes r) (cr_DescriptorFingerprint r) (cr_ChainCode r).

Definition sign_claim_fields : list string :=
  ["version"; "approval"; "prepared"; "httpStatus"; "intentId"; "sessionId"; "type"; "payload";
   "status"; "deadline"; "session"].

(** The exact digest text of a SIGN payload. *)
Definition sign_claim_digest_ok (fields : Object) : bool :=
  match unmarshal_object (member fields "payload") with
  | None => false
  | Some payload =>
      match payload !! "digest" with
      | None => false
      | Some raw =>
          match field_of dec_string "" [raw] with
          | Some encoded => ValidExecutionDigest encoded
          | None => false
          end
      end
  end.

(** [retainExactResponseFields]. *)
Definition retainExactResponseFields (r : ClaimResult) (raw : bytes) : res ClaimResult :=
  l ← of_option (struct_members false ["deadline"] raw) (ENew "json");
  exact ← of_option (field_of dec_string "" (assigned ["deadline"] l "deadline")) (ENew "json");
  fields ← of_option (unmarshal_object raw) (ENew "json");
  if (cr_Type r <>s "SIGN")
     && existsb (fun name => is_some (fields !! name)) ["version"; "approval"; "prepared"] then
    Fail err_envelope
  else if (cr_Type r =s "SIGN")
          && (negb (size fields =? 11)%nat || negb (cr_Version r =? 2)%Z
              || existsb (fun key => is_none (fields !! key)) sign_claim_fields
              || is_none (cr_Approval r) || is_none (cr_Prepared r)
              || negb (sign_claim_digest_ok fields)) then Fail err_envelope
  else Ok (with_deadline_raw exact r).

Section Client.
Context `{Externals}.

Definition descriptor_payload (r : ClaimResult) (intentType : string) : IntentPayload :=
  let p := cr_Payload r in
  let base parties threshold alg curve hash scheme :=
    Build_IntentPayload intentType (cr_OrgID r) (ip_WalletID p) (cr_KeyID r) (ip_ProfileID p)
      (ip_ProfileVersion p) (ip_ProfileTemplateID p) parties threshold alg curve (ip_Chain p)
      (ip_Digest p) (ip_DigestType p) (ip_HashAlgorithm p) (ip_SigningPayloadType p)
      (hex_encode (cr_ChainCode r)) hash scheme (cr_DescriptorBytes r) (cr_DescriptorFingerprint r)
      (ip_DerivationContextHash p) (ip_PartyID p) (ip_DerivationContext p) (ip_PolicyContext p) in
  match ParseCanonicalDescriptor (cr_DescriptorBytes r) with
  | Ok (d, _) =>
      base (party_PartyID <$> kd_Parties d) (u32 (kd_Threshold d)) (kd_Algorithm d) (kd_Curve d)
           (kd_ChainCodeHash d) (kd_DerivationScheme d)
  | Fail _ =>
      base (ip_Parties p) (ip_Threshold p) (ip_Algorithm p) (ip_Curve p) (ip_ChainCodeHash p)
           (ip_DerivationScheme p)
  end.

(** [ClaimResult.Intent]. *)
Definition claim_Intent (r : ClaimResult) : Intent :=
  let described := negb (zlen (cr_DescriptorBytes r) =? 0)%Z in
  let intentType := if described && (cr_Type r =s "") then "DKG" else cr_Type r in
  {| in_Version := cr_Version r; in_Approval := cr_Approval r; in_Prepared := cr_Prepared r;
     in_Session := cr_Session r; in_CreatedAt := zero_time; in_DeadlineRaw := "";
     in_DiscoveryStatus := ""; in_IntentID := cr_IntentID r; in_SessionID := cr_SessionID r;
     in_Type := intentType; in_ExpiresAt := cr_Deadline r;
     in_Payload := if described then descriptor_payload r intentType else cr_Payload r |}.

(** * claim.go: validation *)

Definition validateClaimEnvelope (claim : ClaimResult) (expectedType : string) : res unit :=
  if (expectedType =s "SIGN") && ((cr_Type claim <>s "SIGN") || negb (cr_Version claim =? 2)%Z) then
    Fail err_envelope
  else if cr_SessionID claim =s "" then Fail (ENew "claim session identity is required")
  else if time_is_zero (cr_Deadline claim) || (cr_DeadlineRaw claim =s "") then
    Fail (ENew "claim deadline is required")
  else
    _ ← Validate (cr_Session claim) expectedType (cr_SessionID claim) (cr_Deadline claim);
    if cr_Status claim <>s "CLAIMED" then Fail (ENew "claim response status is invalid")
    else
      let actualType := in_Type (claim_Intent claim) in
      if negb (equal_fold actualType expectedType) then
        Fail (ENew "claim response kind does not match requested intent type")
      else if actualType =s "SIGN" then Ok ()
      else if actualType =s "DKG" then
        if (ip_Type (cr_Payload claim) <>s "") && (ip_Type (cr_Payload claim) <>s "DKG") then
          Fail (ENew "DKG claim payload kind mismatch")
        else Ok ()
      else if negb (zlen (cr_DescriptorBytes claim) =? 0)%Z then Ok ()
      else Fail (ENew "claim response kind is invalid").

Definition sign_payload_incomplete (claim : ClaimResult) : bool :=
  let payload := cr_Payload claim in
  (cr_IntentID claim =s "") || (cr_SessionID claim =s "") || time_is_zero (cr_Deadline claim)
  || (cr_DeadlineRaw claim =s "") || (cr_OrgID claim <>s "") || (cr_KeyID claim <>s "")
  || negb (zlen (cr_DescriptorBytes claim) =? 0)%Z || (cr_DescriptorFingerprint claim <>s "")
  || negb (zlen (cr_ChainCode claim) =? 0)%Z
  || (ip_Type payload <>s "SIGN") || (ip_OrgID payload =s "") || (ip_KeyID payload =s "")
  || (ip_WalletID payload =s "") || (ip_ProfileID payload =s "") || (ip_ProfileTemplateID payload =s "")
  || (ip_ProfileVersion payload =? 0)%Z || (List.length (ip_Parties payload) <? 2)%nat
  || (ip_Threshold payload <? 2)%Z || (ip_Algorithm payload =s "") || (ip_Curve payload =s "")
  || (ip_Chain payload =s "") || (zlen (ip_Digest payload) =? 0)%Z || (ip_DigestType payload =s "")
  || (ip_HashAlgorithm payload =s "") || (ip_SigningPayloadType payload =s "")
  || (ip_DerivationContextHash payload =s "") || (ip_PartyID payload =s "")
  || is_none (ip_DerivationContext payload) || (ip_ChainCode payload <>s "")
  || (ip_ChainCodeHash payload <>s "") || (ip_DerivationScheme payload <>s "")
  || negb (zlen (ip_DescriptorBytes payload) =? 0)%Z || (ip_DescriptorFingerprint payload <>s "").

Definition validateSignClaimPayload (claim : ClaimResult) : res unit :=
  if sign_payload_incomplete claim then Fail (ENew "SIGN claim response is incomplete") else Ok ().

Definition derivation_incomplete (d : DerivationContext) : bool :=
  (dc_ProfileID d =s "") || (dc_ProfileTemplateID d =s "") || (dc_Chain d =s "")
  || (dc_Algorithm d =s "") || (dc_Curve d =s "") || (dc_Scheme d =s "") || (dc_AccountPath d =s "")
  || (dc_ChildPath d =s "") || (dc_FullPath d =s "") || (dc_PublicKeyFormat d =s "")
  || (dc_DescriptorVersion d =? 0)%Z || (dc_ProfileVersion d =? 0)%Z || (dc_KeyVersion d =? 0)%Z.

(** A nil derivation context was already refused by [validateSignClaimPayload]; the
    dereference of it would panic, which the failure stands for. *)
Definition validateSignDerivationContext (payload : IntentPayload) : res unit :=
  match ip_DerivationContext payload with
  | None => Fail (ENew "nil pointer dereference")
  | Some d =>
      if derivation_incomplete d then Fail (ENew "SIGN claim derivation context is incomplete")
      else if (ip_ProfileID payload <>s dc_ProfileID d)
              || (ip_ProfileTemplateID payload <>s dc_ProfileTemplateID d)
              || negb (ip_ProfileVersion payload =? dc_ProfileVersion d)%Z
              || (ip_Chain payload <>s dc_Chain d)
              || negb (equal_fold (ip_Algorithm payload) (dc_Algorithm d))
              || negb (equal_fold (ip_Curve payload) (dc_Curve d)) then
        Fail (ENew "SIGN claim derivation context mismatch")
      else Ok ()
  end.

Definition validateSignClaimResult (claim : ClaimResult) : res unit :=
  _ ← validateSignClaimPayload claim;
  _ ← validateSignDerivationContext (cr_Payload claim);
  let p := cr_Payload claim in
  ValidateContext (ip_PolicyContext p) (ip_Chain p) (ip_SigningPayloadType p)
    (match ip_DerivationContext p with Some d => dc_ExpectedAddress d | None => "" end).

Definition intentTypePath (intentType : string) : res string :=
  let t := to_upper (trim_space intentType) in
  if t =s "DKG" then Ok "dkg"
  else if t =s "SIGN" then Ok "sign"
  else Fail (ENew "unsupported intent type").

(** * client.go *)

Definition maxAttempts : nat := 3.
Definition maxTerminalResponseBytes : nat := 8192.
Definition maxClaimResponseBytes : nat := 131072.

Record Client := { baseURL : string; keyID : string; privateKey : bytes }.

(** [errors.As(err, *httpStatusError)]: the status code, or 0. *)
Fixpoint statusCode (e : error) : Z :=
  match e with
  | EStatus code _ => code
  | EWrap _ e => statusCode e
  | EJoin es =>
      (fix first l := match l with
                      | [] => 0%Z
                      | e :: l => if (statusCode e =? 0)%Z then first l else statusCode e
                      end) es
  | _ => 0%Z
  end.

Definition isRetryable (e : error) : bool := negb (errors_is e Canceled).
Definition isAmbiguous (e : error) : bool :=
  (statusCode e =? 0)%Z && negb (errors_is e Canceled).
Definition backoff (attempt : Z) : duration :=
  if (attempt <? 1)%Z then 0%Z else (Z.shiftl 1 (attempt - 1) * 10 * millisecond)%Z.

(** [url.PathEscape]. *)
Definition upper_hex_digit (n : N) : ascii := if (n <? 10)%N then char (48 + n) else char (55 + n).
Definition path_plain (c : ascii) : bool :=
  in_range 48 57 c || in_range 65 90 c || in_range 97 122 c
  || str_exists (Ascii.eqb c) "-_.~$&+=:@".
Fixpoint path_escape (s : string) : string :=
  match s with
  | "" => ""
  | String c s =>
      if path_plain c then String c (path_escape s)
      else String "%" (String (upper_hex_digit (code c / 16))
             (String (upper_hex_digit (code c mod 16)) (path_escape s)))
  end.

(** A signed request: what goes on the wire, and the text the signature covers. *)
Record Request := {
  rq_method : string; rq_path : string; rq_body : bytes; rq_idempotency : string;
  rq_bodyHash : string; rq_timestamp : string; rq_nonce : string; rq_keyID : string;
  rq_signature : string;
}.

(** What one attempt draws from its environment: the clock in seconds, the random
    nonce, the request URI that [net/url] gives for the address, and the exchange. *)
Inductive exchange :=
  | TransportError (e : error)
  | Response (status : Z) (body : bytes) (readErr : option error).
Record attempt := {
  at_unix : Z; at_nonce : res bytes; at_uri : res string; at_exchange : exchange;
}.

Definition newline : string := String (char 10) "".
Definition canonical_request (method uri bodyHash timestamp nonce keyID : string) : string :=
  String.concat newline [to_upper method; uri; bodyHash; timestamp; nonce; keyID].

Definition signRequest (c : Client) (method path uri : string) (body : bytes) (key : string) (a : attempt)
    : res Request :=
  nonce ← at_nonce a;
  let timestamp := format_int (at_unix a) in
  let nonce := hex_encode nonce in
  let bodyHash := if (zlen body =? 0)%Z then "" else hex_encode (sha256 body) in
  Ok {| rq_method := method; rq_path := path; rq_body := body; rq_idempotency := key;
        rq_bodyHash := bodyHash; rq_timestamp := timestamp; rq_nonce := nonce; rq_keyID := keyID c;
        rq_signature := b64_encode b64_std (ed25519_sign (privateKey c)
          (canonical_request method uri bodyHash timestamp nonce (keyID c))) |}.

Definition newRequest (c : Client) (method path : string) (body : bytes) (key : string) (a : attempt)
    : res Request :=
  uri ← at_uri a;
  signRequest c method path uri body key a.

Definition isClaimResponse (path : string) : bool :=
  has_prefix "/api/v2/co-signer/intents/sign/" path && has_suffix "/claim" path.

(** The error of reading a claim response wraps the unknown outcome. *)
Definition claim_error (e : error) : error :=
  EJoin [ESent ErrClaimOutcomeUnknown; err_envelope; e].

(** What an attempt means: a final result, or an error after which another attempt
    may follow. *)
Inductive verdict (A : Type) := Final (r : res A) | Retry (e : error).
Arguments Final {A} r.
Arguments Retry {A} e.

Section Exchange.
Context {A : Type} (out : option (bytes -> res A)) (zero : A).

(** One round of the loop of [doJSONAttempts] after the request was built. *)
Definition judge (path : string) (expectedStatus : Z) (x : exchange) : verdict A :=
  match x with
  | TransportError e => if isRetryable e then Retry e else Final (Fail e)
  | Response status body readErr =>
      let claimResponse := isClaimResponse path in
      let respBody := if claimResponse then str_take (maxClaimResponseBytes + 1) body else body in
      let readErr :=
        if claimResponse && ((Z.of_nat maxClaimResponseBytes <? zlen respBody)%Z || negb (utf8_valid respBody))
        then Some err_envelope else readErr in
      match readErr with
      | Some e => Retry (if claimResponse then claim_error e else e)
      | None =>
          if (500 <=? status)%Z then Retry (EStatus status respBody)
          else if (status <? 200)%Z || (300 <=? status)%Z then Final (Fail (EStatus status respBody))
          else if negb (expectedStatus =? 0)%Z && negb (status =? expectedStatus)%Z then
            Final (Fail (EStatus status respBody))
          else match out with
          | None => Final (Ok zero)
          | Some decode =>
              if (zlen respBody =? 0)%Z then Final (Ok zero)
              else match decode respBody with
              | Ok a => Final (Ok a)
              | Fail e => Final (Fail (if claimResponse then claim_error e else e))
              end
          end
      end
  end.

(** [doJSONAttempts]: the requests it sends, in order, and its result; [None] when
    the script has fewer attempts than the loop makes. *)
Fixpoint attempts_loop (c : Client) (method path : string) (body : bytes) (key : string)
    (expectedStatus : Z) (remaining : nat) (script : list attempt)
    : list Request * option (res A) :=
  match remaining, script with
  | O, _ => ([], Some (Fail (ENew "request failed")))
  | _, [] => ([], None)
  | S n, a :: script =>
      match newRequest c method path body key a with
      | Fail e => ([], Some (Fail e))
      | Ok rq =>
          match judge path expectedStatus (at_exchange a), n with
          | Final r, _ => ([rq], Some r)
          | Retry e, O => ([rq], Some (Fail e))
          | Retry e, S _ =>
              let '(sent, r) := attempts_loop c method path body key expectedStatus n script in
              (rq :: sent, r)
          end
      end
  end.

Definition doJSONAttempts (c : Client) (method path : string) (body : bytes) (key : string)
    (expectedStatus : Z) (attempts : nat) (script : list attempt) : list Request * option (res A) :=
  attempts_loop c method path body key expectedStatus attempts script.

Definition doJSON (c : Client) (method path : string) (body : bytes) (key : string)
    (expectedStatus : Z) (script : list attempt) : list Request * option (res A) :=
  doJSONAttempts c method path body key expectedStatus maxAttempts script.

End Exchange.

(** * claim.go: [ClaimIntent] *)

Definition unknown_claim (e : error) : error := EWrap "claim" (EJoin [ESent ErrClaimOutcomeUnknown; err_envelope; e]).

(** The response decoder of a claim: closed decoding, then the exact fields. *)
Definition decode_claim_response (raw : bytes) : res ClaimResult :=
  _ ← rejectDuplicateKeys raw;
  r ← of_option (decode_claim raw) (ENew "json: cannot unmarshal");
  retainExactResponseFields r raw.

Definition zero_claim : ClaimResult :=
  Build_ClaimResult 0 None None zero_session 0 "" "" "" zero_payload "" zero_time "" "" "" "" "" "".

(** How an error of the exchange is reported. *)
Definition classify_claim_error (e : error) : error :=
  if (statusCode e =? 409)%Z then ESent ErrAlreadyClaimed
  else if (statusCode e =? 404)%Z then ESent ErrNotFound
  else if isAmbiguous e || (500 <=? statusCode e)%Z || errors_is e Canceled then
    EJoin [ESent ErrClaimOutcomeUnknown; e]
  else e.

(** The checks on a decoded response.  A rejected SIGN payload is returned together
    with its error. *)
Definition accept_claim (intentType intentID : string) (out : ClaimResult)
    : res (ClaimResult * option error) :=
  if negb (cr_HTTPStatus out =? 200)%Z then
    Fail (unknown_claim (ENew "claim response body HTTP status mismatch"))
  else if equal_fold intentType "SIGN" && (cr_IntentID out <>s intentID) then
    Fail (unknown_claim (ENew "claim intent identity mismatch"))
  else match validateClaimEnvelope out intentType with
  | Fail e => Fail (unknown_claim e)
  | Ok _ =>
      if in_Type (claim_Intent out) =s "SIGN" then
        match validateSignClaimResult out with
        | Fail e => Ok (out, Some (EJoin [ESent ErrSignClaimRejected; e]))
        | Ok _ => Ok (out, None)
        end
      else Ok (out, None)
  end.

Definition claim_path (pathType intentID : string) : string :=
  "/api/v2/co-signer/intents/" +:+ pathType +:+ "/" +:+ path_escape intentID +:+ "/claim".

Definition ClaimIntent (c : Client) (intentType intentID : string) (script : list attempt)
    : list Request * option (res (ClaimResult * option error)) :=
  match intentTypePath intentType with
  | Fail e => ([], Some (Fail e))
  | Ok pathType =>
      let '(sent, r) := doJSONAttempts (Some decode_claim_response) zero_claim c "POST"
                          (claim_path pathType intentID) "" intentID 200 1 script in
      (sent, match r with
             | None => None
             | Some (Fail e) => Some (Fail (classify_claim_error e))
             | Some (Ok out) => Some (accept_claim intentType intentID out)
             end)
  end.

(** * messages.go *)

Record OutboundFrame := {
  of_AuthenticatedPartyID : string; of_Broadcast : bool; of_FromPartyID : string; of_IntentID : string;
  of_MessageID : string; of_OrgID : string; of_Payload : bytes; of_ProtocolSeq : Z; of_Round : Z;
  of_SessionID : string; of_ToPartyID : string; of_DerivationContextHash : string;
}.

(** [json.Marshal] of an [OutboundFrame]: a nil payload prints as null, which a
    frame of the transport never has. *)
Definition outbound_json (f : OutboundFrame) : bytes :=
  json_print (JObj [("authenticatedPartyId", JStr (of_AuthenticatedPartyID f));
    ("broadcast", JBool (of_Broadcast f)); ("fromPartyId", JStr (of_FromPartyID f));
    ("intentId", JStr (of_IntentID f)); ("messageId", JStr (of_MessageID f));
    ("orgId", JStr (of_OrgID f)); ("payload", JStr (b64_encode b64_std (of_Payload f)));
    ("protocolSeq", JNum (format_int (of_ProtocolSeq f))); ("round", JNum (format_int (of_Round f)));
    ("sessionId", JStr (of_SessionID f)); ("toPartyId", JStr (of_ToPartyID f))]).

Definition PostMessage (c : Client) (sessionID : string) (frame : OutboundFrame) (script : list attempt)
    : list Request * option (res unit) :=
  doJSON None () c "POST" ("/api/v1/co-signer/sessions/" +:+ path_escape sessionID +:+ "/messages")
    (outbound_json frame) (of_MessageID frame) 0 script.

(** [GetMessages]: one attempt. *)
Definition parse_messages (sessionID : string) (x : exchange) : res MessagesResult :=
  match x with
  | TransportError e => Fail e
  | Response status body readErr =>
      if negb (status =? 200)%Z then Fail (EStatus status "")
      else match readErr with
      | Some e => Fail e
      | None =>
          match (_ ← rejectDuplicateKeys body; messages_UnmarshalJSON body) with
          | Fail e => Fail (EWrap "invalid session lifecycle" err_lifecycle)
          | Ok out => _ ← Validate (mr_Session out) "" sessionID zero_time; Ok out
          end
      end
  end.
Definition GetMessages (c : Client) (sessionID : string) (afterSeq : Z) (a : attempt)
    : list Request * res MessagesResult :=
  match newRequest c "GET" ("/api/v1/co-signer/sessions/" +:+ path_escape sessionID
          +:+ "/messages?afterSeq=" +:+ format_int afterSeq) "" "" a with
  | Fail e => ([], Fail e)
  | Ok rq => ([rq], parse_messages sessionID (at_exchange a))
  end.

(** * results.go *)

Record IntentResult := { ir_Status : string; ErrorCode : string; ErrorMessage : string }.

Definition marshalSignResult (result : IntentResult) : res bytes :=
  if ir_Status result =s "COMPLETED" then
    if (ErrorCode result <>s "") || (ErrorMessage result <>s "") then
      Fail (ENew "completed SIGN result must be minimal")
    else Ok (json_print (JObj [("status", JStr (ir_Status result))]))
  else if ir_Status result =s "FAILED" then
    Ok (json_print (JObj (
      (if ErrorCode result <>s "" then [("errorCode", JStr (ErrorCode result))] else [])
      ++ (if ErrorMessage result <>s "" then [("errorMessage", JStr (ErrorMessage result))] else [])
      ++ [("status", JStr (ir_Status result))])%list))
  else Fail (ENew "invalid SIGN result status").

Record SignResultRequest := { sr_body : string; sr_status : string }.
Definition NewSignResultRequest (result : IntentResult) : res SignResultRequest :=
  body ← marshalSignResult result; Ok {| sr_body := body; sr_status := ir_Status result |}.

Record outcome_wire := { ow_status : string; ow_http : Z; ow_outcome : string }.
Definition decode_outcome : json -> option outcome_wire :=
  decode_struct
    [("authoritativeStatus", set_string (fun s '(Build_outcome_wire _ b c) => Build_outcome_wire s b c));
     ("httpStatus", set_int (fun s '(Build_outcome_wire a _ c) => Build_outcome_wire a s c));
     ("outcome", set_string (fun s '(Build_outcome_wire a b _) => Build_outcome_wire a b s))]
    (Build_outcome_wire "" 0 "").

Definition parseSignResultOutcome (statusCode : Z) (body : bytes) (submittedStatus : string) : res unit :=
  match DecodeClosed decode_outcome body with
  | Fail e => Fail (EWrap "decode SIGN result outcome" e)
  | Ok outcome =>
      if negb (ow_http outcome =? statusCode)%Z then Fail (ENew "SIGN result HTTP status mismatch")
      else if (statusCode =? 200)%Z then
        if (ow_outcome outcome <>s "ACCEPTED") && (ow_outcome outcome <>s "EXACT_REPLAY") then
          Fail (ENew "invalid successful SIGN result outcome")
        else if (ow_status outcome <>s submittedStatus)
                || ((ow_status outcome <>s "COMPLETED") && (ow_status outcome <>s "FAILED")) then
          Fail (ENew "successful SIGN result authoritative status mismatch")
        else Ok ()
      else if (statusCode =? 409)%Z then
        if (ow_outcome outcome <>s "TERMINAL_CONFLICT")
           || ((ow_status outcome <>s "COMPLETED") && (ow_status outcome <>s "FAILED")
               && (ow_status outcome <>s "TIMED_OUT")) then
          Fail (ENew "invalid conflicting SIGN result outcome")
        else Fail (EConflict (ow_status outcome))
      else Fail (EStatus statusCode body)
  end.

(** [PostSignResult]: one attempt with a bounded response. *)
Definition PostSignResult (c : Client) (intentID : string) (result : SignResultRequest) (a : attempt)
    : list Request * res unit :=
  match newRequest c "POST" ("/api/v1/co-signer/intents/sign/" +:+ path_escape intentID +:+ "/result")
          (sr_body result) intentID a with
  | Fail e => ([], Fail e)
  | Ok rq =>
      ([rq],
       match at_exchange a with
       | TransportError e => Fail e
       | Response status body readErr =>
           let responseBody := str_take (maxTerminalResponseBytes + 1) body in
           match readErr with
           | Some e => Fail e
           | None =>
               if (Z.of_nat maxTerminalResponseBytes <? zlen responseBody)%Z then
                 Fail (ENew "SIGN result response is too large")
               else if (500 <=? status)%Z then Fail (EStatus status responseBody)
               else parseSignResultOutcome status responseBody (sr_status result)
           end
       end)
  end.

Record TerminalHTTPResponse := { th_StatusCode : Z; th_Body : bytes; ProtocolViolation : string }.

(** The response of one terminal attempt. *)
Definition terminal_response (x : exchange) : res TerminalHTTPResponse :=
  match x with
  | TransportError e => Fail e
  | Response status body readErr =>
      let responseBody := str_take (maxTerminalResponseBytes + 1) body in
      match readErr with
      | Some e => Fail e
      | None =>
          if (Z.of_nat maxTerminalResponseBytes <? zlen responseBody)%Z then
            Ok {| th_StatusCode := status; th_Body := "";
                  ProtocolViolation := "authoritative_response_too_large" |}
          else Ok {| th_StatusCode := status; th_Body := responseBody; ProtocolViolation := "" |}
      end
  end.
Definition PostTerminalResult (c : Client) (intentID : string) (body : bytes) (a : attempt)
    : list Request * res TerminalHTTPResponse :=
  match newRequest c "POST" ("/api/v1/co-signer/intents/dkg/" +:+ path_escape intentID +:+ "/result")
          body intentID a with
  | Fail e => ([], Fail e)
  | Ok rq => ([rq], terminal_response (at_exchange a))
  end.

(** * discovery.go *)

Record ActionableIntent := {
  ai_Session : SessionLifecycle; ai_CreatedAt : time; ai_CreatedAtRaw : string; ai_Deadline : time;
  ai_DeadlineRaw : string; ai_DescriptorBytes : bytes; ai_DescriptorFingerprint : string;
  ai_IntentID : string; ai_KeyID : string; ai_OrgID : string; ai_SessionID : string;
  ai_Status : string; ai_Type : string;
}.
Record ActionableListing := {
  al_HTTPStatus : Z; OwnClaimedDKG : list ActionableIntent; OwnClaimedSign : list ActionableIntent;
  Pending : list ActionableIntent;
}.

Record actionableIntentWire := {
  aw_Session : SessionLifecycle; aw_CreatedAt : string; aw_Deadline : string;
  aw_DescriptorBytes : string; aw_DescriptorFingerprint : string; aw_IntentID : string;
  aw_KeyID : string; aw_OrgID : string; aw_SessionID : string; aw_Status : string; aw_Type : string;
  aw_fields : gset string;
}.
Definition actionable_names : list string :=
  ["session"; "createdAt"; "deadline"; "descriptorBytesBase64"; "descriptorFingerprint"; "intentId";
   "keyId"; "orgId"; "sessionId"; "status"; "type"].

(** [actionableIntentWire.UnmarshalJSON]. *)
Definition decode_wire (raw : bytes) : option actionableIntentWire :=
  fields ← unmarshal_object raw;
  if existsb (fun name => negb (bool_decide (name ∈ actionable_names))) (elements (dom fields)) then None
  else
    l ← struct_members true actionable_names raw;
    let get := assigned actionable_names l in
    let text k := field_of dec_string "" (get k) in
    session ← custom (fun raw => res_option (session_UnmarshalJSON raw)) zero_session (get "session");
    created ← text "createdAt"; deadline ← text "deadline"; descriptor ← text "descriptorBytesBase64";
    fingerprint ← text "descriptorFingerprint"; intent ← text "intentId"; key ← text "keyId";
    org ← text "orgId"; sid ← text "sessionId"; status ← text "status"; kind ← text "type";
    Some {| aw_Session := session; aw_CreatedAt := created; aw_Deadline := deadline;
            aw_DescriptorBytes := descriptor; aw_DescriptorFingerprint := fingerprint;
            aw_IntentID := intent; aw_KeyID := key; aw_OrgID := org; aw_SessionID := sid;
            aw_Status := status; aw_Type := kind; aw_fields := dom fields |}.

Definition hasExactFields (wire : actionableIntentWire) (expected : list string) : bool :=
  let expected := (expected ++ ["session"])%list in
  (size (aw_fields wire) =? List.length expected)%nat
  && forallb (fun name => bool_decide (name ∈ aw_fields wire)) expected.

Definition dkg_fields : list string :=
  ["createdAt"; "deadline"; "descriptorBytesBase64"; "descriptorFingerprint"; "intentId"; "keyId";
   "orgId"; "sessionId"; "status"; "type"].
Definition claimed_sign_fields : list string :=
  ["createdAt"; "deadline"; "intentId"; "keyId"; "orgId"; "sessionId"; "status"; "type"].
Definition pending_sign_fields : list string := ["createdAt"; "intentId"; "keyId"; "orgId"; "status"; "type"].

(** The field rules of each collection. *)
Definition dkg_shape_bad (wire : actionableIntentWire) (status : string) : bool :=
  negb (hasExactFields wire dkg_fields) || (aw_Type wire <>s "DKG") || (aw_Status wire <>s status)
  || (aw_SessionID wire =s "") || (aw_Deadline wire =s "") || (aw_DescriptorBytes wire =s "")
  || (aw_DescriptorFingerprint wire =s "").
Definition collection_check (wire : actionableIntentWire) (collection : string) : res unit :=
  if collection =s "own claimed DKG" then
    if dkg_shape_bad wire "CLAIMED" then Fail (ENew "own claimed DKG fields are invalid") else Ok ()
  else if collection =s "own claimed SIGN" then
    if negb (hasExactFields wire claimed_sign_fields) || (aw_Type wire <>s "SIGN")
       || (aw_Status wire <>s "CLAIMED") || (aw_SessionID wire =s "") || (aw_Deadline wire =s "")
       || (aw_DescriptorBytes wire <>s "") || (aw_DescriptorFingerprint wire <>s "")
    then Fail (ENew "own claimed SIGN fields are invalid") else Ok ()
  else if collection =s "pending" then
    if aw_Type wire =s "DKG" then
      if dkg_shape_bad wire "PENDING" then Fail (ENew "pending DKG fields are invalid") else Ok ()
    else if aw_Type wire =s "SIGN" then
      if negb (hasExactFields wire pending_sign_fields) || (aw_Status wire <>s "PENDING")
         || (aw_SessionID wire <>s "") || (aw_Deadline wire <>s "")
         || (aw_DescriptorBytes wire <>s "") || (aw_DescriptorFingerprint wire <>s "")
      then Fail (ENew "pending SIGN fields are invalid") else Ok ()
    else Fail (ENew "pending intent type is invalid")
  else Fail (ENew "actionable listing collection is invalid").

(** Canonical padded base64. *)
Definition strict_descriptor (s : string) : res bytes :=
  if s =s "" then Ok ""
  else match b64_decode b64_std true s with
  | Some b => if b64_encode b64_std b =s s then Ok b
              else Fail (ENew "actionable listing descriptor is not canonical padded base64")
  | None => Fail (ENew "actionable listing descriptor is not canonical padded base64")
  end.

Definition decodeActionableIntent (wire : actionableIntentWire) (collection : string)
    : res ActionableIntent :=
  if (aw_IntentID wire =s "") || (aw_KeyID wire =s "") || (aw_OrgID wire =s "")
     || (aw_Type wire =s "") || (aw_Status wire =s "") then
    Fail (ENew "actionable listing identity is incomplete")
  else
    createdAt ← of_option (parse_time (aw_CreatedAt wire)) (ENew "actionable listing createdAt is invalid");
    deadline ← (if aw_Deadline wire <>s "" then
                  of_option (parse_time (aw_Deadline wire)) (ENew "actionable listing deadline is invalid")
                else Ok {| instant := zero_time; offset := 0 |});
    descriptor ← strict_descriptor (aw_DescriptorBytes wire);
    _ ← collection_check wire collection;
    let session := aw_Session wire in
    _ ← Validate session (aw_Type wire) (aw_SessionID wire) (instant deadline);
    let unset := time_is_zero (instant deadline) in
    Ok {| ai_Session := session; ai_CreatedAt := instant createdAt; ai_CreatedAtRaw := aw_CreatedAt wire;
          ai_Deadline := if unset then Deadline session else instant deadline;
          ai_DeadlineRaw :=
            if unset then format_time {| instant := Deadline session; offset := DeadlineZone session |}
            else aw_Deadline wire;
          ai_DescriptorBytes := descriptor; ai_DescriptorFingerprint := aw_DescriptorFingerprint wire;
          ai_IntentID := aw_IntentID wire; ai_KeyID := aw_KeyID wire; ai_OrgID := aw_OrgID wire;
          ai_SessionID := if aw_SessionID wire =s "" then sl_SessionID session else aw_SessionID wire;
          ai_Status := aw_Status wire; ai_Type := aw_Type wire |}.

Definition decodeActionableCollection (items : list actionableIntentWire) (collection : string)
    : res (list ActionableIntent) :=
  foldr (fun item acc =>
    match decodeActionableIntent item collection with
    | Fail e => Fail (EWrap "decode listing item" e)
    | Ok intent => rest ← acc; Ok (intent :: rest)
    end) (Ok []) items.

Record listing_wire := {
  lw_HTTPStatus : Z; lw_dkg : option (list actionableIntentWire);
  lw_sign : option (list actionableIntentWire); lw_pending : option (list actionableIntentWire);
}.
Definition listing_names : list string := ["httpStatus"; "ownClaimedDkg"; "ownClaimedSign"; "pending"].
Definition decode_listing (raw : bytes) : res listing_wire :=
  _ ← rejectDuplicateKeys raw;
  of_option (
    l ← struct_members true listing_names raw;
    let get := assigned listing_names l in
    status ← field_of dec_int 0%Z (get "httpStatus");
    dkg ← nilable (dec_list decode_wire) (get "ownClaimedDkg");
    sign ← nilable (dec_list decode_wire) (get "ownClaimedSign");
    pending ← nilable (dec_list decode_wire) (get "pending");
    Some (Build_listing_wire status dkg sign pending)) (ENew "json: cannot unmarshal").

Definition accept_listing (wire : listing_wire) : res ActionableListing :=
  if negb (lw_HTTPStatus wire =? 200)%Z then Fail (ENew "actionable listing body HTTP status mismatch")
  else match lw_dkg wire, lw_sign wire, lw_pending wire with
  | Some dkg, Some sign, Some pending =>
      dkg ← decodeActionableCollection dkg "own claimed DKG";
      sign ← decodeActionableCollection sign "own claimed SIGN";
      pending ← decodeActionableCollection pending "pending";
      Ok {| al_HTTPStatus := lw_HTTPStatus wire; OwnClaimedDKG := dkg; OwnClaimedSign := sign;
            Pending := pending |}
  | _, _, _ => Fail (ENew "actionable listing collections are required")
  end.

Definition ListActionableIntents (c : Client) (script : list attempt)
    : list Request * option (res ActionableListing) :=
  let '(sent, r) := doJSON (Some decode_listing) (Build_listing_wire 0 None None None) c "GET"
                      "/api/v1/co-signer/intents/pending" "" "" 200 script in
  (sent, (fun r => wire ← r; accept_listing wire) <$> r).

(** [GetPendingIntents]. *)
Definition intent_of_item (item : ActionableIntent) : Intent :=
  {| in_Version := 0; in_Approval := None; in_Prepared := None; in_Session := ai_Session item;
     in_CreatedAt := ai_CreatedAt item; in_DeadlineRaw := ai_DeadlineRaw item;
     in_DiscoveryStatus := ai_Status item; in_IntentID := ai_IntentID item;
     in_SessionID := ai_SessionID item; in_Type := ai_Type item; in_ExpiresAt := ai_Deadline item;
     in_Payload := Build_IntentPayload (ai_Type item) (ai_OrgID item) "" (ai_KeyID item) "" 0 "" [] 0
       "" "" "" "" "" "" "" "" "" "" (ai_DescriptorBytes item) (ai_DescriptorFingerprint item)
       "" "" None None |}.
Definition GetPendingIntents (c : Client) (script : list attempt) : list Request * option (res (list Intent)) :=
  let '(sent, r) := ListActionableIntents c script in
  (sent, (fun r => listing ← r;
            Ok (intent_of_item <$> (OwnClaimedSign listing ++ Pending listing)%list)) <$> r).

(** * approval.go *)

Record PendingPage := { pp_Version : Z; pp_Items : list PendingItem; pp_NextCursor : option string }.

(** [url.Values.Encode]'s escaping. *)
Definition query_plain (c : ascii) : bool :=
  in_range 48 57 c || in_range 65 90 c || in_range 97 122 c || str_exists (Ascii.eqb c) "-_.~".
Fixpoint query_escape (s : string) : string :=
  match s with
  | "" => ""
  | String c s =>
      if query_plain c then String c (query_escape s)
      else if Ascii.eqb c " " then String "+" (query_escape s)
      else String "%" (String (upper_hex_digit (code c / 16))
             (String (upper_hex_digit (code c mod 16)) (query_escape s)))
  end.

(** [approvalHTTP]: one attempt, no redirects, a bounded response. *)
Definition approvalHTTP (c : Client) (method path : string) (body : bytes) (maximum : nat) (a : attempt)
    : list Request * res (Z * bytes) :=
  match newRequest c method path body "" a with
  | Fail e => ([], Fail e)
  | Ok rq =>
      ([rq],
       match at_exchange a with
       | TransportError _ => Fail (ENew "approval backend transport failed")
       | Response status body readErr =>
           let raw := str_take (maximum + 1) body in
           if is_some readErr || (Z.of_nat maximum <? zlen raw)%Z then
             Fail (ENew "invalid approval backend response size")
           else Ok (status, raw)
       end)
  end.

(** [json.Unmarshal] of a page and of a row: names match up to case, unknown ones are
    dropped. *)
Definition item_names : list string := ["requestId"; "createdAt"; "authorization"; "authorizationHash"].
Definition decode_item (raw : bytes) : option PendingItem :=
  l ← struct_members false item_names raw;
  let get := assigned item_names l in
  request ← field_of dec_string "" (get "requestId"); created ← field_of dec_string "" (get "createdAt");
  hash ← field_of dec_string "" (get "authorizationHash");
  Some {| pi_RequestID := request; pi_CreatedAt := created;
          pi_Authorization := raw_message (get "authorization"); pi_AuthorizationHash := hash |}.
Definition page_names : list string := ["version"; "items"; "nextCursor"].
Definition decode_page (raw : bytes) : option PendingPage :=
  l ← struct_members false page_names raw;
  let get := assigned page_names l in
  version ← field_of dec_int 0%Z (get "version"); items ← nilable (dec_list decode_item) (get "items");
  cursor ← nilable dec_string (get "nextCursor");
  Some {| pp_Version := version; pp_Items := default [] items; pp_NextCursor := cursor |}.

Definition invalid_cursor (raw : bytes) : bool :=
  match (l ← struct_members false ["code"] raw; field_of dec_string "" (assigned ["code"] l "code")) with
  | Some code => code =s "INVALID_CURSOR"
  | None => false
  end.

Definition accept_page (status : Z) (raw : bytes) : res PendingPage :=
  if negb (status =? 200)%Z then
    if (status =? 400)%Z && invalid_cursor raw then Fail (ESent ErrInvalidApprovalCursor)
    else Fail (ENew "approval discovery HTTP status")
  else
    _ ← ParsePendingPage raw;
    page ← of_option (decode_page raw) (ENew "json");
    if (50 <? List.length (pp_Items page))%nat then
      Fail (ENew "approval discovery exceeded requested page limit")
    else Ok page.

Definition PendingApprovals (c : Client) (cursor : string) (a : attempt) : list Request * res PendingPage :=
  if (4096 <? zlen cursor)%Z then ([], Fail (ENew "invalid approval cursor"))
  else
    let query := (if cursor <>s "" then "cursor=" +:+ query_escape cursor +:+ "&" else "") +:+ "limit=50" in
    let '(sent, r) := approvalHTTP c "GET" ("/api/v1/co-signer/approval-requests?" +:+ query) ""
                        (N.to_nat (2 * 1024 * 1024)) a in
    (sent, '(status, raw) ← r; accept_page status raw).

(** [PathEscape], with the dot segments escaped too. *)
Definition approval_segment (request : string) : string :=
  let segment := path_escape request in
  if segment =s "." then "%2E" else if segment =s ".." then "%2E%2E" else segment.

Definition accept_application (request : string) (status : Z) (raw : bytes) : res bytes :=
  if negb (status =? 200)%Z && negb (status =? 409)%Z then Fail (ENew "approval decision HTTP status")
  else
    v ← ParseDecisionApplication raw;
    if (str v "requestId" <>s request)
       || negb (Bool.eqb (status =? 409)%Z (str v "outcome" =s "TERMINAL_CONFLICT")) then
      Fail (ENew "approval decision response status or binding mismatch")
    else Ok raw.

Definition SendApprovalDecision (c : Client) (request : string) (body : bytes) (a : attempt)
    : list Request * res bytes :=
  if negb (ValidReference request) || (zlen body =? 0)%Z || (8192 <? zlen body)%Z then
    ([], Fail (ENew "invalid approval decision request"))
  else
    let '(sent, r) := approvalHTTP c "POST" ("/api/v1/co-signer/approval-requests/"
                        +:+ approval_segment request +:+ "/decision") body 4096 a in
    (sent, '(status, raw) ← r; accept_application request status raw).

End Client.

Arguments Final {A} r.
Arguments Retry {A} e.
