(* ===== verification/MonolithProofs.v ===== *)
(** What the backend client guarantees: the exact meaning of a valid session
    lifecycle, how often and with what a request is retried, what an accepted claim
    is bound to and how a failed one is classified, and the binding of listed intents
    to their sessions. *)
From stdpp Require Import base tactics option list strings numbers gmap.
From Stdlib Require Import ZArith Lia Ascii String.
From S2P Require Import Prelude GoText Sha256 Json StrictJson Externals Mpc2of3 ApprovalWire SigningPolicy GoTime RawJson Monolith.

#[local] Open Scope string_scope.

(** * Session lifecycles *)

(** A lifecycle observation bound to a session and a deadline: a known status that
    agrees with the start time, a start strictly inside the session, no execution
    limit for DKG, one for a started SIGN, and the limit at five minutes after the
    start or at the deadline, whichever is first. *)
Definition lifecycle_ok (s : SessionLifecycle) (kind sessionID : string) (deadline : time) : Prop :=
  sl_SessionID s <> "" /\ (sessionID = "" \/ sl_SessionID s = sessionID) /\
  (0 < Deadline s)%Z /\ (deadline = zero_time \/ Deadline s = deadline) /\
  In (sl_Status s) lifecycle_statuses /\
  (sl_Status s = "PENDING" -> StartedAt s = None) /\
  (sl_Status s = "RUNNING" -> is_Some (StartedAt s)) /\
  (forall t, StartedAt s = Some t -> (0 < t < Deadline s)%Z) /\
  (kind = "DKG" -> ExecutionExpiresAt s = None) /\
  (kind = "SIGN" -> is_Some (StartedAt s) -> is_Some (ExecutionExpiresAt s)) /\
  (forall e, ExecutionExpiresAt s = Some e -> exists t, StartedAt s = Some t /\
     e = Z.min (t + 300 * second) (Deadline s)).

Lemma execution_limit_min t d : execution_limit t d = Z.min (t + 300 * second) d.
Proof. unfold execution_limit, time_before. case_match; split_bools; lia. Qed.

Lemma existsb_eqb_In s l : existsb (String.eqb s) l = true <-> In s l.
Proof.
  rewrite existsb_exists. split.
  - intros (x & Hx & Hs). apply String.eqb_eq in Hs. by subst.
  - intros Hs. exists s. split; [done|apply String.eqb_refl].
Qed.

(** A guard [p && q] that did not fire. *)
Lemma guard_imp (p q : bool) : p && q = false <-> (p = true -> q = false).
Proof. destruct p, q; naive_solver. Qed.

Lemma eqb_guard a b (q : bool) : (a =s b) && q = false <-> (a = b -> q = false).
Proof. rewrite guard_imp. by rewrite String.eqb_eq. Qed.

Lemma neqb_guard a b (q : bool) : (a <>s b) && q = false <-> (a = b \/ q = false).
Proof.
  rewrite guard_imp, negb_true_iff, String.eqb_neq. destruct (decide (a = b)); naive_solver.
Qed.

(** [Validate] accepts exactly the valid lifecycles. *)
Lemma Validate_ok s kind sessionID deadline :
  Validate s kind sessionID deadline = Ok () <-> lifecycle_ok s kind sessionID deadline.
Proof.
  unfold Validate, lifecycle_ok, time_after, time_equal, time_before, time_is_zero, unix_epoch.
  rewrite <- existsb_eqb_In.
  destruct (_ || _ || _ || _) eqn:E1.
  { split; [done|]. intros (H1 & H2 & H3 & H4 & _). exfalso. revert E1.
    apply not_true_iff_false. rewrite !orb_false_iff, neqb_guard, guard_imp.
    rewrite !negb_false_iff, negb_true_iff, Z.ltb_lt, Z.eqb_eq, String.eqb_neq, Z.eqb_neq.
    rewrite String.eqb_eq. naive_solver. }
  rewrite !orb_false_iff, neqb_guard, guard_imp in E1.
  rewrite !negb_false_iff, negb_true_iff, Z.ltb_lt, Z.eqb_eq, String.eqb_neq, Z.eqb_neq in E1.
  rewrite String.eqb_eq in E1. destruct E1 as (((H1 & H2) & H3) & H4).
  destruct (existsb _ _) eqn:E2; cbn [negb]; [|by split; [|intros (_ & _ & _ & _ & ? & _)]].
  destruct (StartedAt s) as [t|], (ExecutionExpiresAt s) as [e|]; cbn [is_some is_none andb orb negb];
    rewrite ?andb_true_r, ?andb_false_r, ?orb_false_r, ?orb_false_l.
  all: destruct (sl_Status s =s "PENDING") eqn:P, (sl_Status s =s "RUNNING") eqn:R,
    (kind =s "DKG") eqn:D, (kind =s "SIGN") eqn:S; cbn [negb andb orb]; split_bools.
  all: try match goal with |- context [(0 <? ?t)%Z] =>
    destruct (0 <? t)%Z eqn:T1, (t <? Deadline s)%Z eqn:T2; cbn [negb orb]; split_bools end.
  all: try match goal with |- context [execution_limit ?t ?d] =>
    rewrite (execution_limit_min t d);
    match goal with |- context [(?e =? ?x)%Z] => destruct (e =? x)%Z eqn:X; cbn [negb]; split_bools end
  end.
  all: split; [intros HF; try discriminate HF; split_and!; try done; intros; simplify_eq; eauto; lia|].
  all: intros (_ & _ & _ & _ & _ & X1 & X2 & X3 & X4 & X5 & X6); try done; exfalso.
  all: first [by specialize (X1 P)|by destruct (X2 R)|by specialize (X4 D)|
    by destruct (X5 S (mk_is_Some _ _ eq_refl))|specialize (X3 _ eq_refl); lia|
    by destruct (X6 _ eq_refl) as (? & [= <-] & ?)].
Qed.

(** * Retried exchanges *)

Section Exchanges.
Context `{Externals} {A : Type} (out : option (bytes -> res A)) (zero : A).

(** A request that carries exactly the given method, path, body and idempotency key,
    with a body hash for a body that is not empty. *)
Definition carries (c : Client) (method path : string) (body : bytes) (key : string) (rq : Request) : Prop :=
  rq_method rq = method /\ rq_path rq = path /\ rq_body rq = body /\ rq_idempotency rq = key /\
  rq_keyID rq = keyID c /\
  rq_bodyHash rq = (if (zlen body =? 0)%Z then "" else hex_encode (sha256 body)).

Lemma newRequest_carries c method path body key a rq :
  newRequest c method path body key a = Ok rq -> carries c method path body key rq.
Proof. unfold newRequest, signRequest. intros Hr. inv_ok. done. Qed.

Definition retried (path : string) (expected : Z) (a : attempt) : Prop :=
  exists e, judge out zero path expected (at_exchange a) = Retry e.

Lemma attempts_loop_spec c method path body key expected n script sent r :
  attempts_loop out zero c method path body key expected n script = (sent, r) ->
  (List.length sent <= n)%nat /\ Forall (carries c method path body key) sent /\
  ((n <= List.length script)%nat -> is_Some r) /\
  (forall i, (S i < List.length sent)%nat -> exists a, script !! i = Some a /\ retried path expected a).
Proof.
  revert script sent r. induction n as [|n IH]; intros script sent r; cbn.
  { intros [= <- <-]. cbn. split_and!; [lia|done|eauto|lia]. }
  destruct script as [|a script]; [intros [= <- <-]; cbn; split_and!; [lia|done|lia|lia]|].
  destruct (newRequest c method path body key a) as [rq|e] eqn:Er;
    [|intros [= <- <-]; cbn; split_and!; [lia|done|eauto|lia]].
  apply newRequest_carries in Er.
  assert (Hone : forall x, ([rq], Some x) = (sent, r) ->
    (List.length sent <= S n)%nat /\ Forall (carries c method path body key) sent /\
    ((S n <= S (List.length script))%nat -> is_Some r) /\
    (forall i, (S i < List.length sent)%nat -> exists b, (a :: script) !! i = Some b /\ retried path expected b)).
  { intros x [= <- <-]. cbn. split_and!; [lia|by apply Forall_singleton|eauto|lia]. }
  destruct (judge out zero path expected (at_exchange a)) as [x|e] eqn:Ej; [apply Hone|].
  destruct n as [|n]; [apply Hone|].
  destruct (attempts_loop out zero c method path body key expected (S n) script) as [sent' r'] eqn:El.
  intros [= <- <-]. destruct (IH _ _ _ El) as (Hl & Hf & Hs & Hp). cbn [List.length].
  split_and!; [lia|by constructor|intros; apply Hs; lia|].
  intros [|i] Hi; [exists a; split; [done|by exists e]|]. apply Hp. lia.
Qed.

End Exchanges.

(** Retries are bounded and repeat one request.  Whatever the backend and the
    network do, a call makes at most its number of attempts; every request it sends
    has the same method, path, body, body hash and idempotency key; a further request
    follows only a transport error that is not a cancellation, a failed read or a
    status of 500 or more; and the call always comes to a result. *)
Theorem doJSONAttempts_bounded `{Externals} {A} (out : option (bytes -> res A)) (zero : A) c method
    path body key expected attempts script sent r :
  doJSONAttempts out zero c method path body key expected attempts script = (sent, r) ->
  (List.length sent <= attempts)%nat /\ Forall (carries c method path body key) sent /\
  ((attempts <= List.length script)%nat -> is_Some r) /\
  forall i, (S i < List.length sent)%nat -> exists a, script !! i = Some a /\
    match at_exchange a with
    | TransportError e => errors_is e Canceled = false
    | Response status response readErr =>
        is_Some readErr \/ (500 <= status)%Z \/
        (isClaimResponse path = true /\
         ((Z.of_nat maxClaimResponseBytes < zlen (str_take (maxClaimResponseBytes + 1) response))%Z \/
          utf8_valid (str_take (maxClaimResponseBytes + 1) response) = false))
    end.
Proof.
  intros E. apply attempts_loop_spec in E as (Hl & Hf & Hs & Hp). split_and!; [done..|].
  intros i Hi. destruct (Hp i Hi) as (a & Ha & e & Hj). exists a. split; [done|].
  unfold judge in Hj. destruct (at_exchange a) as [x|status response readErr].
  - destruct (isRetryable x) eqn:Er; [|done]. unfold isRetryable in Er. by split_bools.
  - destruct (isClaimResponse path) eqn:Ec; cbn [andb] in Hj.
    + destruct (_ || negb _) eqn:Eb in Hj.
      * right. right. split; [done|]. apply orb_true_iff in Eb as [Eb|Eb]; split_bools; auto.
      * destruct readErr; [by left; eauto|]. right. left. split_matches Hj. by split_bools.
    + destruct readErr; [by left; eauto|]. right. left. split_matches Hj. by split_bools.
Qed.

(** * Claims *)

(** What the acceptance of a SIGN claim established. *)
Definition sign_claim_ok `{Externals} (intentID : string) (out : ClaimResult) : Prop :=
  cr_HTTPStatus out = 200%Z /\ cr_IntentID out = intentID /\ cr_Type out = "SIGN" /\
  cr_Version out = 2%Z /\ cr_Status out = "CLAIMED" /\ cr_SessionID out <> "" /\
  sl_SessionID (cr_Session out) = cr_SessionID out /\ Deadline (cr_Session out) = cr_Deadline out /\
  lifecycle_ok (cr_Session out) "SIGN" (cr_SessionID out) (cr_Deadline out).

Definition sign_payload_ok `{Externals} (out : ClaimResult) : Prop :=
  let p := cr_Payload out in
  ip_Type p = "SIGN" /\ ip_OrgID p <> "" /\ ip_KeyID p <> "" /\ ip_PartyID p <> "" /\
  ip_Digest p <> "" /\ (2 <= ip_Threshold p)%Z /\ (2 <= List.length (ip_Parties p))%nat /\
  ip_DescriptorBytes p = "" /\ cr_DescriptorBytes out = "" /\
  exists d, ip_DerivationContext p = Some d /\ derivation_incomplete d = false /\
    ip_ProfileID p = dc_ProfileID d /\ ip_ProfileTemplateID p = dc_ProfileTemplateID d /\
    ip_ProfileVersion p = dc_ProfileVersion d /\ ip_Chain p = dc_Chain d /\
    ValidateContext (ip_PolicyContext p) (ip_Chain p) (ip_SigningPayloadType p) (dc_ExpectedAddress d)
      = Ok ().

Lemma zlen_0 s : (zlen s =? 0)%Z = true -> s = "".
Proof. unfold zlen. destruct s; [done|]. cbn. intros. split_bools. lia. Qed.
Lemma zlen_not_0 s : (zlen s =? 0)%Z = false -> s <> "".
Proof. intros Hs ->. done. Qed.

Section Claims.
Context `{Externals}.

Lemma validateClaimEnvelope_sign out :
  validateClaimEnvelope out "SIGN" = Ok () ->
  cr_Type out = "SIGN" /\ cr_Version out = 2%Z /\ cr_Status out = "CLAIMED" /\
  cr_SessionID out <> "" /\ cr_Deadline out <> zero_time /\
  lifecycle_ok (cr_Session out) "SIGN" (cr_SessionID out) (cr_Deadline out).
Proof.
  unfold validateClaimEnvelope, time_is_zero. intros Hv. step_if Hv. step_if Hv. step_if Hv.
  inv_ok. step_if Hv. rewrite String.eqb_refl in E. cbn in E. split_bools.
  match goal with Hx : Validate _ _ _ _ = Ok ?u |- _ => destruct u; apply Validate_ok in Hx end.
  by split_and!.
Qed.

Lemma validateSignClaimResult_ok out : validateSignClaimResult out = Ok () -> sign_payload_ok out.
Proof.
  unfold validateSignClaimResult, validateSignClaimPayload, validateSignDerivationContext. intros Hv.
  inv_ok. step_if H0. step_if H1. step_if H1. step_if H1.
  unfold sign_payload_incomplete in E. split_bools.
  repeat match goal with Hx : (zlen _ =? 0)%Z = true |- _ => apply zlen_0 in Hx end.
  unfold sign_payload_ok. split_and!; try done.
  - intros Hd. match goal with Hx : zlen (ip_Digest _) <> 0%Z |- _ => rewrite Hd in Hx; by destruct Hx end.
  - match goal with Hx : (_ <? 2)%nat = false |- _ => by apply Nat.ltb_ge in Hx end.
  - by apply zlen_0, Z.eqb_eq.
  - by apply zlen_0, Z.eqb_eq.
  - exists d. by split_and!.
Qed.

Lemma accept_claim_sign intentID out out' e :
  accept_claim "SIGN" intentID out = Ok (out', e) -> sign_claim_ok intentID out' /\
  (e = None -> sign_payload_ok out').
Proof.
  unfold accept_claim. intros Ha. step_if Ha. step_if Ha. step_if Ha. step_if Ha; cycle 1.
  { destruct a. apply validateClaimEnvelope_sign in E1 as (Ht & _). exfalso.
    unfold claim_Intent in E2. cbn in E2. rewrite Ht in E2. cbn in E2.
    rewrite andb_false_r in E2. done. }
  destruct a. apply validateClaimEnvelope_sign in E1 as (Ht & Hv & Hs & Hi & Hz & Hl).
  assert (Hok : sign_claim_ok intentID out).
  { assert (Hf : equal_fold "SIGN" "SIGN" = true) by (vm_compute; reflexivity).
    rewrite Hf in E0. cbn [andb] in E0. split_bools.
    unfold sign_claim_ok. pose proof Hl as (_ & [|] & _ & [|] & _); by split_and!. }
  step_if Ha; injection Ha as <- <-; (split; [done|]); [|done].
  intros _. destruct a. by apply validateSignClaimResult_ok.
Qed.

End Claims.

(** A single attempt: the request, if it could be built, and what its exchange means. *)
Lemma single_attempt `{Externals} {A} (out : option (bytes -> res A)) zero c method path body key expected
    script sent r :
  doJSONAttempts out zero c method path body key expected 1 script = (sent, Some r) ->
  exists a rest, script = a :: rest /\
  ((sent = [] /\ exists e, newRequest c method path body key a = Fail e /\ r = Fail e) \/
   (exists rq, sent = [rq] /\ carries c method path body key rq /\
    (judge out zero path expected (at_exchange a) = Final r \/
     exists e, judge out zero path expected (at_exchange a) = Retry e /\ r = Fail e))).
Proof.
  unfold doJSONAttempts. cbn. destruct script as [|a rest]; [done|]. intros E. exists a, rest.
  split; [done|]. destruct (newRequest c method path body key a) as [rq|e] eqn:Er.
  - right. exists rq. apply newRequest_carries in Er.
    destruct (judge out zero path expected (at_exchange a)) as [x|e]; simplify_eq;
      (split_and!; [done|done|]); [by left|right; eauto].
  - left. simplify_eq. eauto.
Qed.

(** An accepted SIGN claim is bound to what was claimed.  The claim made exactly
    one request, with the intent's identifier as idempotency key; the response names
    that intent, is a version 2 SIGN claim in state CLAIMED, and its session
    projection belongs to the claimed session, has the claimed deadline and satisfies
    the SIGN lifecycle rules; and when no payload error is reported the payload is
    complete, agrees with its derivation context and passes the policy checks. *)
Theorem ClaimIntent_sign_sound `{Externals} c intentID script sent out e :
  ClaimIntent c "SIGN" intentID script = (sent, Some (Ok (out, e))) ->
  (exists rq, sent = [rq] /\ carries c "POST" (claim_path "sign" intentID) "" intentID rq) /\
  sign_claim_ok intentID out /\ (e = None -> sign_payload_ok out).
Proof.
  unfold ClaimIntent. change (intentTypePath "SIGN") with (Ok "sign"). cbv beta iota.
  destruct (doJSONAttempts (Some decode_claim_response) zero_claim _ _ _ _ _ _ _ _) as [sent' r] eqn:E.
  intros [= <- Hr]. destruct r as [[out0|]|]; [|done|done]. injection Hr as Hr.
  apply accept_claim_sign in Hr as [H1 H2]. split; [|done].
  apply single_attempt in E as (a & rest & _ & [(_ & e' & _ & ?)|(rq & -> & Hc & _)]); [done|eauto].
Qed.

(** Errors of the decoder never carry a response status. *)
Definition plain (e : error) : Prop := statusCode e = 0%Z.

Lemma walk_plain n :
  (forall ts e, walk_value (fun _ => true) n ts = Fail e -> plain e) /\
  (forall seen ts e, walk_object (fun _ => true) n seen ts = Fail e -> plain e) /\
  (forall ts e, walk_array (fun _ => true) n ts = Fail e -> plain e).
Proof.
  induction n as [|n (IH1 & IH2 & IH3)]; [by split_and!; intros; simplify_eq/=|].
  split_and!.
  - intros ts e Hw. cbn in Hw. repeat (case_match; simplify_eq; try done); eauto.
  - intros seen ts e Hw. cbn in Hw. destruct (more ts); [|by repeat (case_match; simplify_eq)].
    repeat (case_match; simplify_eq; try done).
    destruct (walk_value _ n _) as [ts'|] eqn:E; cbn in Hw; [by eapply IH2|simplify_eq; by eapply IH1].
  - intros ts e Hw. cbn in Hw. destruct (more ts); [|by repeat (case_match; simplify_eq)].
    destruct (walk_value _ n _) as [ts'|] eqn:E; cbn in Hw; [by eapply IH3|simplify_eq; by eapply IH1].
Qed.

Lemma rejectDuplicateKeys_plain raw e : rejectDuplicateKeys raw = Fail e -> plain e.
Proof.
  unfold rejectDuplicateKeys, walk_document. destruct (json_parse raw) as [v|];
    cbn [of_option mbind res_bind]; [|by intros [= <-]].
  destruct (walk_value (fun _ => true) _ (tokens v)) as [ts|x] eqn:E; cbn [mbind res_bind].
  - unfold ensure. case_match; [done|]. by intros [= <-].
  - intros [= <-]. exact (proj1 (walk_plain _) _ _ E).
Qed.

Lemma of_option_plain {A} (o : option A) msg e : of_option o (ENew msg) = Fail e -> plain e.
Proof. destruct o; [done|]. by intros [= <-]. Qed.

Lemma bind_Fail {A B} (m : res A) (f : A -> res B) e :
  (m ≫= f) = Fail e -> m = Fail e \/ exists a, m = Ok a /\ f a = Fail e.
Proof. destruct m; cbn; [eauto|intros [= <-]; auto]. Qed.

Lemma decode_claim_response_plain raw e : decode_claim_response raw = Fail e -> plain e.
Proof.
  unfold decode_claim_response, retainExactResponseFields.
  intros [Hf|(u & _ & [Hf|(r & _ & Hf)]%bind_Fail)]%bind_Fail.
  - by eapply rejectDuplicateKeys_plain.
  - by eapply of_option_plain.
  - apply bind_Fail in Hf as [Hf|(l & _ & Hf)]; [by eapply of_option_plain|].
    apply bind_Fail in Hf as [Hf|(x & _ & Hf)]; [by eapply of_option_plain|].
    apply bind_Fail in Hf as [Hf|(fields & _ & Hf)]; [by eapply of_option_plain|].
    repeat case_match; by simplify_eq.
Qed.

(** An error of a claim exchange with a status below 500 is the backend's refusal. *)
Lemma claim_refused path a e :
  (forall x, at_exchange a = TransportError x -> plain x) ->
  (forall status body x, at_exchange a = Response status body (Some x) -> plain x) ->
  ~ (statusCode e = 0%Z \/ (500 <= statusCode e)%Z) ->
  judge (Some decode_claim_response) zero_claim path 200 (at_exchange a) = Final (Fail e) \/
  (exists x, judge (Some decode_claim_response) zero_claim path 200 (at_exchange a) = Retry x /\
     Fail e = @Fail ClaimResult x) ->
  exists status body, at_exchange a = Response status body None /\ status <> 200%Z /\ (status < 500)%Z /\
    exists text, e = EStatus status text.
Proof.
  intros Ht Hr Hn Hj. destruct (at_exchange a) as [x|status body readErr].
  { exfalso. apply Hn. left. specialize (Ht x eq_refl). cbn in Hj.
    destruct (isRetryable x); destruct Hj as [Hj|(y & Hj & Hy)]; simplify_eq; done. }
  assert (Hread : forall x, readErr = Some x -> plain x) by (intros x ->; by eapply Hr). clear Ht Hr.
  assert (Hc : forall b x, plain x -> plain (if b : bool then claim_error x else x)).
  { intros [] x Hx; [|done]. unfold plain in *. cbn. by rewrite Hx. }
  unfold judge in Hj. set (cl := isClaimResponse path) in Hj.
  set (response := if cl then _ else body) in Hj. cbv zeta in Hj.
  set (too_large := cl && _) in Hj.
  assert (Hplain : ~ plain e) by (intros Hp; apply Hn; by left).
  destruct (if too_large then Some err_envelope else readErr) as [x|] eqn:Ex.
  { exfalso. assert (plain x) by (destruct too_large; simplify_eq; eauto; done).
    destruct Hj as [Hj|(y & [= <-] & [= ->])]; [done|]. by apply Hplain, Hc. }
  assert (readErr = None) as -> by (destruct too_large; done).
  exists status, body. split; [done|].
  destruct (500 <=? status)%Z eqn:E5; split_bools.
  { exfalso. destruct Hj as [Hj|(y & [= <-] & [= ->])]; [done|]. apply Hn. by right. }
  destruct ((status <? 200)%Z || (300 <=? status)%Z) eqn:E2.
  { destruct Hj as [[= <-]|(y & ? & _)]; [|done]. split_and!; [|done|eauto].
    apply orb_true_iff in E2 as [E2|E2]; split_bools; lia. }
  cbn [negb Z.eqb andb] in Hj. destruct (negb (status =? 200)%Z) eqn:E3; split_bools.
  { destruct Hj as [[= <-]|(y & ? & _)]; [|done]. split_and!; [done|done|eauto]. }
  exfalso. destruct (zlen response =? 0)%Z; [by destruct Hj as [|(? & ? & _)]|].
  destruct (decode_claim_response response) as [?|x] eqn:Ed; [by destruct Hj as [|(? & ? & _)]|].
  destruct Hj as [[= <-]|(y & ? & _)]; [|done].
  by eapply Hplain, Hc, decode_claim_response_plain.
Qed.

(** (C15) A failed claim never hides a possible success.  When a claim request was sent
    and an error is returned, the error says that the outcome is unknown, unless the
    backend answered with a definite refusal: a readable response whose status is
    below 500 and not 200, reported as already claimed for 409 and as not found for
    404.  The hypothesis is what the HTTP library documents: its own errors carry no
    response status. *)
Theorem ClaimIntent_error_classified `{Externals} c intentType intentID a script sent e :
  (forall x, at_exchange a = TransportError x -> statusCode x = 0%Z) ->
  (forall status body x, at_exchange a = Response status body (Some x) -> statusCode x = 0%Z) ->
  ClaimIntent c intentType intentID (a :: script) = (sent, Some (Fail e)) -> sent <> [] ->
  errors_is e ErrClaimOutcomeUnknown = true \/
  exists status body, at_exchange a = Response status body None /\ status <> 200%Z /\ (status < 500)%Z /\
    (status = 409%Z -> e = ESent ErrAlreadyClaimed) /\ (status = 404%Z -> e = ESent ErrNotFound).
Proof.
  intros Ht Hrd Hc Hs. unfold ClaimIntent in Hc. destruct (intentTypePath intentType) as [p|]; [|by simplify_eq].
  cbv beta iota in Hc.
  destruct (doJSONAttempts (Some decode_claim_response) zero_claim _ _ _ _ _ _ _ _) as [sent' r] eqn:E.
  injection Hc as <- Hr. destruct r as [r|]; [|done].
  apply single_attempt in E as (a' & rest & [= <- <-] & [(-> & _)|(rq & _ & _ & Hj)]); [done|].
  destruct r as [out|e0].
  - injection Hr as Hr. left. unfold accept_claim in Hr.
    repeat (case_match; simplify_eq); done.
  - injection Hr as <-.
    assert (Hcl : statusCode e0 = 0%Z \/ (500 <= statusCode e0)%Z ->
      errors_is (classify_claim_error e0) ErrClaimOutcomeUnknown = true).
    { intros Hz. unfold classify_claim_error. rewrite !(proj2 (Z.eqb_neq _ _)) by lia.
      destruct (errors_is e0 Canceled) eqn:Ec; [by rewrite !orb_true_r|].
      unfold isAmbiguous. rewrite Ec. destruct Hz as [->|Hz]; [done|].
      rewrite (proj2 (Z.leb_le _ _) Hz), orb_true_r. done. }
    destruct (decide (statusCode e0 = 0%Z \/ (500 <= statusCode e0)%Z)) as [Hz|Hz]; [left; auto|right].
    apply claim_refused in Hj as (status & body & Hx & H200 & Hlt & text & ->); [|done..].
    exists status, body. split_and!; [done..|by intros ->|by intros ->].
Qed.

(** The session lifecycle check accepts exactly the observations that its rules
    describe: a non-empty session identifier that is the expected one, a deadline
    after the epoch that is the expected one, a known status that agrees with the
    start time, a start strictly between the epoch and the deadline, no execution
    limit for DKG or before the start, one for a started SIGN, and that limit at five
    minutes after the start or the deadline, whichever comes first. *)
Theorem Validate_spec (s : SessionLifecycle) (kind sessionID : string) (deadline : time) :
  Validate s kind sessionID deadline = Ok () <-> lifecycle_ok s kind sessionID deadline.
Proof. apply Validate_ok. Qed.

(** * Listings *)

(** A listed intent is complete and bound to its session projection. *)
Definition item_bound (kind status : string) (item : ActionableIntent) : Prop :=
  ai_Type item = kind /\ ai_Status item = status /\
  ai_IntentID item <> "" /\ ai_KeyID item <> "" /\ ai_OrgID item <> "" /\ ai_SessionID item <> "" /\
  sl_SessionID (ai_Session item) = ai_SessionID item /\ Deadline (ai_Session item) = ai_Deadline item /\
  lifecycle_ok (ai_Session item) kind (ai_SessionID item) (ai_Deadline item) /\
  (kind = "DKG" -> ai_DescriptorBytes item <> "" /\ ai_DescriptorFingerprint item <> "") /\
  (kind = "SIGN" -> ai_DescriptorBytes item = "").

Lemma b64_decode_empty : b64_decode b64_std true "" = Some "".
Proof. vm_compute. reflexivity. Qed.

Lemma strict_descriptor_ok s b : strict_descriptor s = Ok b -> (s = "" <-> b = "").
Proof.
  unfold strict_descriptor. case_match eqn:E; split_bools; [by intros [= <-]|].
  destruct (b64_decode b64_std true s) as [d|]; [|done]. case_match eqn:Ee; [|done].
  intros [= <-]. split_bools. split; [done|]. intros ->. by rewrite <- Ee.
Qed.

(** What the rules of a collection say of the kind, the state and the optional fields. *)
Lemma collection_check_ok wire collection : collection_check wire collection = Ok () ->
  (aw_Type wire = "DKG" /\ aw_SessionID wire <> "" /\ aw_DescriptorBytes wire <> "" /\
   aw_DescriptorFingerprint wire <> "" \/
   aw_Type wire = "SIGN" /\ aw_DescriptorBytes wire = "") /\
  (collection = "own claimed DKG" -> aw_Type wire = "DKG" /\ aw_Status wire = "CLAIMED") /\
  (collection = "own claimed SIGN" -> aw_Type wire = "SIGN" /\ aw_Status wire = "CLAIMED") /\
  (collection = "pending" -> aw_Status wire = "PENDING").
Proof.
  unfold collection_check, dkg_shape_bad. intros Hc.
  repeat match type of Hc with
  | (if ?b then _ else _) = _ => destruct b eqn:?; try discriminate Hc
  end; split_bools; subst; split_and!; try (by intros); auto.
  all: left; by split_and!.
Qed.

Lemma decodeActionableIntent_bound wire collection item :
  decodeActionableIntent wire collection = Ok item ->
  collection_check wire collection = Ok () /\
  item_bound (aw_Type wire) (aw_Status wire) item.
Proof.
  unfold decodeActionableIntent. intros Hd. step_if Hd. inv_ok.
  match goal with Hx : collection_check _ _ = Ok ?u |- _ => destruct u; rename Hx into Hc end.
  split; [done|]. apply collection_check_ok in Hc as (Hk & _).
  match goal with Hx : Validate _ _ _ _ = Ok ?u |- _ => destruct u; apply Validate_ok in Hx; rename Hx into Hl end.
  match goal with Hx : strict_descriptor _ = Ok _ |- _ => apply strict_descriptor_ok in Hx; rename Hx into Hs end.
  split_bools. unfold item_bound. cbn. unfold time_is_zero.
  pose proof Hl as (Hne & Hid & Hdl & Hdd & Hrest).
  set (dl := if (_ =? zero_time)%Z then _ else _). set (sid := if aw_SessionID wire =s "" then _ else _).
  assert (Edl : Deadline (aw_Session wire) = dl).
  { subst dl. destruct (_ =? zero_time)%Z eqn:Ez; [done|]. split_bools. by destruct Hdd. }
  assert (Esid : sl_SessionID (aw_Session wire) = sid).
  { subst sid. destruct (aw_SessionID wire =s "") eqn:Ez; [done|]. split_bools. by destruct Hid. }
  split_and!; try done; try congruence.
  - unfold lifecycle_ok. split_and!; [done|by right|done|by right|apply Hrest..].
  - destruct Hk as [(-> & _ & Hb & Hf)|(-> & _)]; [|done]. intros _. split; [|done]. by rewrite <- Hs.
  - destruct Hk as [(-> & _)|(-> & Hb)]; [done|]. intros _. by apply Hs.
Qed.

Lemma decodeActionableCollection_Forall items collection l :
  decodeActionableCollection items collection = Ok l ->
  Forall (fun item => exists wire, decodeActionableIntent wire collection = Ok item) l.
Proof.
  revert l. induction items as [|w items IH]; cbn; [by intros l [= <-]|].
  intros l. destruct (decodeActionableIntent w collection) as [item|] eqn:E; [|done].
  intros Hl. inv_ok. constructor; eauto.
Qed.

(** A decoded listing contains only intents of the right kind and state, each
    bound to its session: in every collection an item has non-empty identifiers, its
    session projection names the item's session and deadline and obeys the lifecycle
    rules of its kind; claimed collections hold claimed DKG and SIGN intents, the
    pending one holds pending intents, and exactly the DKG items carry a descriptor. *)
Theorem ListActionableIntents_bound `{Externals} c script sent listing :
  ListActionableIntents c script = (sent, Some (Ok listing)) ->
  Forall (item_bound "DKG" "CLAIMED") (OwnClaimedDKG listing) /\
  Forall (item_bound "SIGN" "CLAIMED") (OwnClaimedSign listing) /\
  Forall (fun item => item_bound (ai_Type item) "PENDING" item /\
            (ai_Type item = "DKG" \/ ai_Type item = "SIGN")) (Pending listing).
Proof.
  unfold ListActionableIntents. destruct (doJSON _ _ _ _ _ _ _ _ _) as [sent' r]. cbv beta iota.
  intros [= <- Hr]. destruct r as [r|]; [|done]. cbn in Hr. injection Hr as Hr. inv_ok.
  unfold accept_listing in Hr. step_if Hr. step_if Hr. step_if Hr. step_if Hr. inv_ok.
  repeat match goal with Hx : decodeActionableCollection _ _ = Ok _ |- _ =>
    apply decodeActionableCollection_Forall in Hx end.
  cbn [OwnClaimedDKG OwnClaimedSign Pending]. split_and!; (eapply Forall_impl; [eassumption|]);
    intros item (wire & [Hc Hb]%decodeActionableIntent_bound);
    apply collection_check_ok in Hc as (Hk & K1 & K2 & K3).
  - destruct (K1 eq_refl) as [Ek Es]. by rewrite Ek, Es in Hb.
  - destruct (K2 eq_refl) as [Ek Es]. by rewrite Ek, Es in Hb.
  - rewrite (K3 eq_refl) in Hb. pose proof Hb as (Ek & _). rewrite Ek. split; [done|].
    destruct Hk as [(? & _)|(? & _)]; auto.
Qed.

(** * Examples *)

Lemma pair_snd {A B} (p : A * B) b : p.2 = b -> p = (p.1, b).
Proof. destruct p. by intros <-. Qed.

Definition fixture_client : Client :=
  {| baseURL := "https://backend"; keyID := "key-1"; privateKey := fixture_private |}.
Definition fixture_attempt (x : exchange) : attempt :=
  {| at_unix := 1800000000; at_nonce := Ok "0123456789abcdef"; at_uri := Ok "/uri"; at_exchange := x |}.

(** Two failures are retried with the same request, and the third attempt succeeds. *)
Definition fixture_retries : list attempt :=
  [fixture_attempt (TransportError (ENew "timeout")); fixture_attempt (Response 503 "" None);
   fixture_attempt (Response 200 "" None)].
Definition fixture_post : list Request * option (res unit) :=
  doJSONAttempts None () fixture_client "POST" "/path" "{}" "id-1" 0 3 fixture_retries.
Definition fixture_sent : list Request := Eval vm_compute in fixture_post.1.

Lemma doJSONAttempts_bounded_witness : fixture_post.2 = Some (Ok ()) /\
  Forall (carries fixture_client "POST" "/path" "{}" "id-1") fixture_post.1.
Proof.
  split; [vm_compute; reflexivity|].
  apply (doJSONAttempts_bounded None () fixture_client "POST" "/path" "{}" "id-1" 0 3
           fixture_retries fixture_post.1 fixture_post.2 (surjective_pairing fixture_post)).
Defined.

(** A SIGN claim of an Ethereum transfer, and the backend's response to it. *)
Definition fixture_session_text : bytes :=
  "{'sessionId':'s-1','status':'RUNNING','startedAt':'2027-01-15T08:00:00Z','deadline':'2027-01-15T09:00:00Z','executionExpiresAt':'2027-01-15T08:05:00Z'}".
Definition fixture_policy_text : bytes :=
  "{'amountAtomic':'1000','asset':'ETH','chain':'ethereum:sepolia','chainId':'11155111','fromAddress':'0xc9a29e8f9c757fcf9811603a8c447cd1d9151108','gasLimit':'21000','maxFeePerGas':'1000','maxPriorityFeePerGas':'100','nonce':'5','toAddress':'0x1111111111111111111111111111111111111111','tokenContractCanonical':null,'tokenDecimals':null,'tokenStandard':null,'transactionType':2,'version':1}".
Definition fixture_derivation_text : bytes :=
  "{'profileId':'p-1','profileTemplateId':'t-1','chain':'ethereum:sepolia','algorithm':'ECDSA','curve':'secp256k1','scheme':'BIP32','accountPath':'m/44/60/0','childPath':'0/0','fullPath':'m/44/60/0/0/0','expectedAddress':'0xc9a29e8f9c757fcf9811603a8c447cd1d9151108','publicKeyFormat':'compressed','descriptorVersion':1,'profileVersion':1,'keyVersion':1}".
Definition fixture_payload_text : bytes :=
  "{'type':'SIGN','orgId':'org-1','walletId':'w-1','keyId':'k-1','profileId':'p-1','profileVersion':1,'profileTemplateId':'t-1','parties':['mpc-signer','co-signer'],'threshold':2,'algorithm':'ECDSA','curve':'secp256k1','chain':'ethereum:sepolia','digest':'MDEyMzQ1Njc4OWFiY2RlZjAxMjM0NTY3ODlhYmNkZWY=','digestType':'transaction','hashAlgorithm':'keccak256','signingPayloadType':'ethereum-transaction','derivationContextHash':'h-1','partyId':'co-signer','derivationContext':"
  +:+ fixture_derivation_text +:+ ",'policyContext':" +:+ fixture_policy_text +:+ "}".
Definition fixture_claim_text : bytes := jtext (
  "{'version':2,'approval':{'version':1,'requestId':'req-1','outgoingId':'o-1','authorization':{},'authorizationHash':'h','decisionReceipt':{}},'prepared':{'version':1,'encoding':'hex','unsignedTransaction':'00','networkFeeAsset':'ETH','networkFeeBudgetAtomic':'1','feeEvidence':null},'httpStatus':200,'intentId':'i-1','sessionId':'s-1','type':'SIGN','status':'CLAIMED','deadline':'2027-01-15T09:00:00Z','session':"
  +:+ fixture_session_text +:+ ",'payload':" +:+ fixture_payload_text +:+ "}").
Definition fixture_claim_script : list attempt := [fixture_attempt (Response 200 fixture_claim_text None)].

Definition accepted_claim (r : option (res (ClaimResult * option error))) : bool :=
  match r with Some (Ok (_, None)) => true | _ => false end.
Lemma accepted_claim_ex r : accepted_claim r = true -> exists out, r = Some (Ok (out, None)).
Proof. destruct r as [[[out [|]]|]|]; eauto; done. Qed.

Lemma ClaimIntent_sign_sound_witness : exists out,
  (ClaimIntent fixture_client "SIGN" "i-1" fixture_claim_script).2 = Some (Ok (out, None)) /\
  sign_claim_ok "i-1" out /\ sign_payload_ok out.
Proof.
  destruct (accepted_claim_ex (ClaimIntent fixture_client "SIGN" "i-1" fixture_claim_script).2) as [out E];
    [vm_compute; reflexivity|].
  exists out. split; [exact E|].
  destruct (ClaimIntent_sign_sound fixture_client "i-1" fixture_claim_script _ out None (pair_snd _ _ E))
    as (_ & H1 & H2).
  split; [exact H1|exact (H2 eq_refl)].
Defined.

Definition fixture_refusal : list attempt := [fixture_attempt (Response 409 "" None)].
Lemma ClaimIntent_error_classified_witness :
  ClaimIntent fixture_client "SIGN" "i-1" fixture_refusal =
    ((ClaimIntent fixture_client "SIGN" "i-1" fixture_refusal).1, Some (Fail (ESent ErrAlreadyClaimed))) /\
  exists status body, at_exchange (fixture_attempt (Response 409 "" None)) = Response status body None /\
    (status < 500)%Z.
Proof.
  assert (E : ClaimIntent fixture_client "SIGN" "i-1" fixture_refusal =
    ((ClaimIntent fixture_client "SIGN" "i-1" fixture_refusal).1, Some (Fail (ESent ErrAlreadyClaimed))))
    by (vm_compute; reflexivity).
  split; [exact E|].
  destruct (ClaimIntent_error_classified fixture_client "SIGN" "i-1" (fixture_attempt (Response 409 "" None)) []
    _ _ ltac:(done) ltac:(done) E) as [H|(status & body & H1 & _ & H2 & _)].
  - vm_compute. discriminate.
  - vm_compute in H. discriminate.
  - exists status, body. split; [exact H1|exact H2].
Defined.

(** A listing with a claimed DKG intent and a pending SIGN intent. *)
Definition fixture_listing_text : bytes := jtext (
  "{'httpStatus':200,'ownClaimedDkg':[{'session':{'sessionId':'s-2','status':'PENDING','startedAt':null,'deadline':'2027-01-15T09:00:00Z','executionExpiresAt':null},'createdAt':'2027-01-15T07:00:00Z','deadline':'2027-01-15T09:00:00Z','descriptorBytesBase64':'e30=','descriptorFingerprint':'f-1','intentId':'i-2','keyId':'k-2','orgId':'org-1','sessionId':'s-2','status':'CLAIMED','type':'DKG'}],'ownClaimedSign':[],'pending':[{'session':"
  +:+ fixture_session_text +:+ ",'createdAt':'2027-01-15T07:00:00Z','intentId':'i-1','keyId':'k-1','orgId':'org-1','status':'PENDING','type':'SIGN'}]}").
Definition fixture_listing_script : list attempt := [fixture_attempt (Response 200 fixture_listing_text None)].
Definition listed (r : option (res ActionableListing)) : bool :=
  match r with Some (Ok l) => (List.length (OwnClaimedDKG l) =? 1)%nat && (List.length (Pending l) =? 1)%nat | _ => false end.

Lemma listed_ex r : listed r = true -> exists l, r = Some (Ok l) /\ List.length (OwnClaimedDKG l) = 1%nat.
Proof.
  destruct r as [[l|]|]; [|done|done]. cbn. intros [Hl _]%andb_true_iff. apply Nat.eqb_eq in Hl. eauto.
Qed.

Lemma ListActionableIntents_bound_witness : exists l,
  (ListActionableIntents fixture_client fixture_listing_script).2 = Some (Ok l) /\
  List.length (OwnClaimedDKG l) = 1%nat /\ Forall (item_bound "DKG" "CLAIMED") (OwnClaimedDKG l).
Proof.
  destruct (listed_ex (ListActionableIntents fixture_client fixture_listing_script).2) as (l & E & Hl);
    [vm_compute; reflexivity|].
  exists l. split; [exact E|]. split; [exact Hl|].
  destruct (ListActionableIntents_bound fixture_client fixture_listing_script _ l (pair_snd _ _ E)) as [H _].
  exact H.
Defined.
