(* ===== verification/Bundle.v ===== *)
(** [internal/contract/bundle]: the verification of the contract fixtures the co-signer is
    built against.  A bundle is read through the functions that [os.ReadFile] and
    [filepath.WalkDir] are below its root; it does not change while it is verified. *)
From stdpp Require Import base tactics option list strings numbers gmap sorting.
From Stdlib Require Import ZArith Lia Ascii String.
From S2P Require Import Prelude GoText Paths Sha256 Json StrictJson Externals Mpc2of3 ApprovalWire SigningPolicy GoTime RawJson Monolith.

#[local] Open Scope string_scope.

(** * The bundle on disk *)

(** The contents of a path below the root, and the entries of the walk that are not
    directories, with whether they are regular files. *)
Record Root := { ReadFile : string -> res bytes; WalkDir : res (list (string * bool)) }.

Definition expectedSignerBundleIdentity := "dRgKBw7Y392uHY7AkBj5dkahjKmwYcFYhjtYv62-5mA".
Definition expectedHTTPBundleIdentity := "FTDwFxMF6H-johDYeeyMVxb2kxPcszVN8crqaKoqClA".
Definition expectedHTTPProducerCommit := "26552e0578527216a037fae3efd189d865b28910".

Definition signerPaths : list string :=
  ["descriptor/canonical.json"; "digest-jcs/jcs.json"; "digest-jcs/sha256.json"; "proto.sha256";
   "terminal-result/completed.json"; "terminal-result/failed.json"; "terminal-result/timed-out.json"].
Definition httpPaths : list string :=
  ["accepted-response.json"; "claim-response.json"; "conflict-response.json"; "listing-response.json";
   "mailbox-frame.json"; "messages-response.json"; "messages-terminal-response.json"; "replay-response.json";
   "sign-claim-response.json"; "sign-terminal-completed-request.json"; "sign-terminal-failed-request.json";
   "sign-terminal-timed-out-local.json"; "terminal-completed-request.json"; "terminal-failed-request.json"].

(** ** The patterns *)

Definition alphanumeric (c : ascii) : bool := in_range 48 57 c || in_range 65 90 c || in_range 97 122 c.
Definition identifierPattern (s : string) : bool :=
  match s with
  | String c r => alphanumeric c
                  && str_forall (fun c => alphanumeric c || Ascii.eqb c "." || Ascii.eqb c "_" || Ascii.eqb c ":"
                                          || Ascii.eqb c "-") r
  | "" => false
  end.
Definition gitCommitPattern (s : string) : bool := bool_decide (hex_run 40 s = Some "").
Definition messageIDPattern (s : string) : bool :=
  bool_decide ((r ← strip_prefix "msg_" s; hex_run 16 r) = Some "").
(** A dash and a run of hexadecimal digits. *)
Definition dash_run (n : nat) (s : string) : option string := r ← strip_prefix "-" s; hex_run n r.
Definition uuidV4Pattern (s : string) : bool :=
  bool_decide ((r ← hex_run 8 s; r ← dash_run 4 r; r ← strip_prefix "-4" r; r ← hex_run 3 r;
                r ← strip_prefix "-" r;
                match r with
                | String c r => if existsb (Ascii.eqb c) ["8"; "9"; "a"; "b"]%char
                                then r ← hex_run 3 r; dash_run 12 r else None
                | "" => None
                end) = Some "").

(** * Decoding *)

Record manifestFile := { mf_Path : string; mf_SHA256 : string }.
Record signerManifest := { sm_ContractVersion : Z; sm_Files : list manifestFile }.
Record httpManifest := { hm_BackendSourceCommit : string; hm_BundleVersion : Z; hm_Files : list manifestFile }.

Definition decode_manifestFile : json -> option manifestFile :=
  decode_struct
    [("path", set_string (fun s '(Build_manifestFile _ b) => Build_manifestFile s b));
     ("sha256", set_string (fun s '(Build_manifestFile a _) => Build_manifestFile a s))]
    (Build_manifestFile "" "").
Definition decode_signerManifest : json -> option signerManifest :=
  decode_struct
    [("contractVersion", set_int (fun s '(Build_signerManifest _ b) => Build_signerManifest s b));
     ("files", set_list decode_manifestFile (fun s '(Build_signerManifest a _) => Build_signerManifest a s))]
    (Build_signerManifest 0 []).
Definition decode_httpManifest : json -> option httpManifest :=
  decode_struct
    [("backendSourceCommit", set_string (fun s '(Build_httpManifest _ b c) => Build_httpManifest s b c));
     ("bundleVersion", set_int (fun s '(Build_httpManifest a _ c) => Build_httpManifest a s c));
     ("files", set_list decode_manifestFile (fun s '(Build_httpManifest a b _) => Build_httpManifest a b s))]
    (Build_httpManifest "" 0 []).

Definition digest (raw : bytes) : string := b64_encode b64_rawurl (sha256 raw).
Definition isDigest (raw : string) : bool := is_ok (ParseDescriptorFingerprint raw).
Definition equalStrings (left right : list string) : bool := bool_decide (left = right).
Definition sameKeys (fields : Object) (expected : list string) : bool :=
  (size fields =? List.length expected)%nat && forallb (fun key => is_some (fields !! key)) expected.

(** [json.Unmarshal] of a raw value into a variable of a basic type; [null] leaves it zero. *)
Definition unmarshal_string (raw : bytes) : option string :=
  match json_parse raw with Some (JStr s) => Some s | Some JNull => Some "" | _ => None end.
Definition unmarshal_int (raw : bytes) : option Z :=
  match json_parse raw with Some (JNum l) => parse_int64 l | Some JNull => Some 0%Z | _ => None end.
Definition unmarshal_bool (raw : bytes) : option bool :=
  match json_parse raw with Some (JBool b) => Some b | Some JNull => Some false | _ => None end.
Definition unmarshal_array (raw : bytes) : option (list bytes) :=
  match json_parse raw with Some (JArr _) => raw_elements raw | Some JNull => Some [] | _ => None end.

Definition objectRaw (raw : bytes) : Object := default ∅ (unmarshal_object raw).
Definition array (fields : Object) (key : string) : res (list bytes) :=
  of_option (unmarshal_array (member fields key)) (ENew "json: cannot unmarshal").
Definition stringValue (fields : Object) (key : string) : res string :=
  of_option (unmarshal_string (member fields key)) (ENew "json: cannot unmarshal").
Definition stringMust (fields : Object) (key : string) : string := default "" (unmarshal_string (member fields key)).
Definition integer (fields : Object) (key : string) : Z := default 0%Z (unmarshal_int (member fields key)).
Definition integerValue (fields : Object) (key : string) : res Z :=
  of_option (unmarshal_int (member fields key)) (ENew "invalid integer").
Definition boolean (fields : Object) (key : string) : res bool :=
  of_option (unmarshal_bool (member fields key)) (ENew "json: cannot unmarshal").
Definition identifier (value prefix : string) : bool :=
  (0 <? zlen value)%Z && (zlen value <=? 255)%Z && identifierPattern value
  && ((prefix =s "") || ((zlen prefix <? zlen value)%Z && has_prefix prefix value)).
(** The layout has milliseconds and the pattern is exact, so formatting gives the text back. *)
Definition exactUTC (value : string) : res time :=
  ms ← of_option (parse_millis value) (ENew "invalid exact UTC date"); Ok (ms * millisecond)%Z.
Definition parseStandardBase64 (value : string) (n : option Z) : res bytes :=
  decoded ← of_option (b64_decode b64_std false value) (ENew "invalid standard base64");
  _ ← ensure ((b64_encode b64_std decoded =s value)
              && match n with Some n => (zlen decoded =? n)%Z | None => true end) (ENew "invalid standard base64");
  Ok decoded.

(** * The manifest *)

Section Verify.
Context `{Externals} `{TxCodecs}.

Definition decodeClosed {A} (decode : json -> option A) (raw : bytes) (expected : list string) : res A :=
  _ ← requireCanonicalJCS raw;
  fields ← of_option (unmarshal_object raw) (ENew "json: cannot unmarshal");
  _ ← ensure (sameKeys fields expected) (ENew "invalid closed schema");
  DecodeClosed decode raw.

Fixpoint walk_regular (entries : list (string * bool)) : res (list string) :=
  match entries with
  | [] => Ok []
  | (path, regular) :: entries =>
      if negb regular then Fail (ENew "bundle entry is not a regular file")
      else files ← walk_regular entries; Ok (path :: files)
  end.
Definition bundleFiles (root : Root) : res (list string) :=
  entries ← WalkDir root; files ← walk_regular entries; Ok (sort_strings files).

Definition verifyManifest (root : Root) (expected : list string) (validate : bytes -> res unit)
    : res (bytes * list string) :=
  manifest ← ReadFile root "manifest.json";
  _ ← match requireCanonicalJCS manifest with Ok _ => Ok () | Fail err => Fail (EWrap "manifest" err) end;
  _ ← validate manifest;
  actual ← bundleFiles root;
  let want := sort_strings ("manifest.json" :: expected) in
  if negb (equalStrings actual want) then Fail (ENew "bundle contains missing or unexpected files")
  else Ok (manifest, actual).

Fixpoint verify_entries (root : Root) (entries : list manifestFile) (expected : list string) : res unit :=
  match entries, expected with
  | entry :: entries, path :: expected =>
      if mf_Path entry <>s path then Fail (ENew "manifest path is not canonical")
      else if negb (isDigest (mf_SHA256 entry)) then Fail (ENew "manifest digest is invalid")
      else
        contents ← ReadFile root (mf_Path entry);
        if digest contents <>s mf_SHA256 entry then Fail (ENew "manifest digest mismatch")
        else verify_entries root entries expected
  | _, _ => Ok ()
  end.
Definition verifyManifestEntries (root : Root) (entries : list manifestFile) (expected : list string) : res unit :=
  if negb (List.length entries =? List.length expected)%nat then Fail (ENew "manifest has an invalid file count")
  else verify_entries root entries expected.

Definition signer_manifest_ok (root : Root) (raw : bytes) : res unit :=
  manifest ← decodeClosed decode_signerManifest raw ["contractVersion"; "files"];
  if negb (sm_ContractVersion manifest =? 1)%Z then Fail (ENew "invalid signer manifest schema")
  else verifyManifestEntries root (sm_Files manifest) signerPaths.

Definition verifySignerVectors (root : Root) : res unit :=
  descriptor ← ReadFile root "descriptor/canonical.json";
  _ ← ParseCanonicalDescriptor descriptor;
  (fix each (names : list string) : res unit :=
     match names with
     | [] => Ok ()
     | name :: names =>
         raw ← ReadFile root ("terminal-result/" +:+ name);
         _ ← ParseCanonicalTerminalResult raw; each names
     end) ["completed.json"; "failed.json"; "timed-out.json"].

Definition VerifySignerBundle (root : Root) : res string :=
  '(manifestBytes, _) ← verifyManifest root signerPaths (signer_manifest_ok root);
  if digest manifestBytes <>s expectedSignerBundleIdentity then Fail (ENew "unexpected signer bundle identity")
  else _ ← verifySignerVectors root; Ok expectedSignerBundleIdentity.

(** * The HTTP fixtures *)

Record dkgFixture := {
  fx_intentID : string; fx_sessionID : string; fx_keyID : string; fx_orgID : string; fx_deadline : string;
  fx_descriptorBytes : string; fx_descriptorFingerprint : string; fx_createdAt : time; fx_descriptor : KeyDescriptorV1;
}.
Record signDiscoveryFixture := {
  sf_intentID : string; sf_sessionID : string; sf_keyID : string; sf_orgID : string; sf_deadline : string;
}.

Definition readObject (root : Root) (name : string) (expected : list string) : res Object :=
  raw ← ReadFile root name;
  _ ← match requireCanonicalJCS raw with Ok _ => Ok () | Fail err => Fail (EWrap name err) end;
  fields ← of_option (unmarshal_object raw) (ENew "json: cannot unmarshal");
  _ ← ensure (sameKeys fields expected) (ENew "invalid closed schema");
  Ok fields.

Definition validateLifecycle (fields : Object) (kind : string) : res unit :=
  _ ← rejectDuplicateKeys (member fields "session");
  session ← session_UnmarshalJSON (member fields "session");
  let value := stringMust fields "deadline" in
  deadline ← (if value =s "" then Ok zero_time else exactUTC value);
  Validate session kind (stringMust fields "sessionId") deadline.

Definition dkg_identity (intentID sessionID orgID keyID : string) : bool :=
  uuidV4Pattern intentID && uuidV4Pattern sessionID && identifier orgID "org-" && keyIDPattern keyID.

Definition descriptorFixture (fields : Object) (createdAt : time) : res dkgFixture :=
  let intentID := stringMust fields "intentId" in let sessionID := stringMust fields "sessionId" in
  let orgID := stringMust fields "orgId" in let keyID := stringMust fields "keyId" in
  _ ← ensure (dkg_identity intentID sessionID orgID keyID) (ENew "invalid DKG identity");
  raw ← parseStandardBase64 (stringMust fields "descriptorBytesBase64") None;
  '(descriptor, fingerprint) ← ParseCanonicalDescriptor raw;
  _ ← ensure ((kd_KeyID descriptor =s keyID)
              && (digest_String fingerprint =s stringMust fields "descriptorFingerprint"))
        (ENew "descriptor does not bind to DKG");
  Ok {| fx_intentID := intentID; fx_sessionID := sessionID; fx_keyID := keyID; fx_orgID := orgID; fx_deadline := "";
        fx_descriptorBytes := stringMust fields "descriptorBytesBase64";
        fx_descriptorFingerprint := digest_String fingerprint; fx_createdAt := createdAt; fx_descriptor := descriptor |}.

Definition with_deadline (f : dkgFixture) (deadline : string) : dkgFixture :=
  {| fx_intentID := fx_intentID f; fx_sessionID := fx_sessionID f; fx_keyID := fx_keyID f; fx_orgID := fx_orgID f;
     fx_deadline := deadline; fx_descriptorBytes := fx_descriptorBytes f;
     fx_descriptorFingerprint := fx_descriptorFingerprint f; fx_createdAt := fx_createdAt f;
     fx_descriptor := fx_descriptor f |}.

Definition parseDKG (fields : Object) (expectedStatus : string) : res dkgFixture :=
  _ ← validateLifecycle fields "DKG";
  _ ← ensure (sameKeys fields ["session"; "createdAt"; "deadline"; "descriptorBytesBase64"; "descriptorFingerprint";
                               "intentId"; "keyId"; "orgId"; "sessionId"; "status"; "type"]) (ENew "invalid DKG schema");
  _ ← ensure ((stringMust fields "type" =s "DKG") && (stringMust fields "status" =s expectedStatus))
        (ENew "invalid DKG type or status");
  createdAt ← exactUTC (stringMust fields "createdAt");
  deadline ← exactUTC (stringMust fields "deadline");
  _ ← ensure (time_before createdAt deadline) (ENew "invalid DKG deadline");
  fixture ← descriptorFixture fields createdAt;
  Ok (with_deadline fixture (stringMust fields "deadline")).

Definition parseClaim (fields : Object) : res dkgFixture :=
  _ ← validateLifecycle fields "DKG";
  _ ← ensure (dkg_identity (stringMust fields "intentId") (stringMust fields "sessionId") (stringMust fields "orgId")
                (stringMust fields "keyId")) (ENew "invalid claim identity");
  _ ← exactUTC (stringMust fields "deadline");
  fixture ← descriptorFixture fields zero_time;
  Ok (with_deadline fixture (stringMust fields "deadline")).

Definition parseSign (fields : Object) : res unit :=
  _ ← validateLifecycle fields "SIGN";
  _ ← ensure (sameKeys fields ["session"; "createdAt"; "intentId"; "keyId"; "orgId"; "status"; "type"]
              && (stringMust fields "type" =s "SIGN") && (stringMust fields "status" =s "PENDING")
              && uuidV4Pattern (stringMust fields "intentId") && identifier (stringMust fields "orgId") "org-"
              && keyIDPattern (stringMust fields "keyId")) (ENew "invalid pending SIGN");
  _ ← exactUTC (stringMust fields "createdAt"); Ok ().

Definition parseOwnedSign (fields : Object) : res signDiscoveryFixture :=
  _ ← validateLifecycle fields "SIGN";
  _ ← ensure (sameKeys fields ["session"; "createdAt"; "deadline"; "intentId"; "keyId"; "orgId"; "sessionId"; "status"; "type"]
              && (stringMust fields "type" =s "SIGN") && (stringMust fields "status" =s "CLAIMED"))
        (ENew "invalid own claimed SIGN schema");
  createdAt ← exactUTC (stringMust fields "createdAt");
  deadline ← exactUTC (stringMust fields "deadline");
  _ ← ensure (time_before createdAt deadline) (ENew "invalid own claimed SIGN deadline");
  let fixture := {| sf_intentID := stringMust fields "intentId"; sf_sessionID := stringMust fields "sessionId";
                    sf_keyID := stringMust fields "keyId"; sf_orgID := stringMust fields "orgId";
                    sf_deadline := stringMust fields "deadline" |} in
  _ ← ensure (dkg_identity (sf_intentID fixture) (sf_sessionID fixture) (sf_orgID fixture) (sf_keyID fixture))
        (ENew "invalid own claimed SIGN identity");
  Ok fixture.

Definition payload_keys : list string :=
  ["algorithm"; "chain"; "curve"; "derivationContext"; "derivationContextHash"; "digest"; "digestType"; "hashAlgorithm";
   "keyId"; "orgId"; "parties"; "partyId"; "policyContext"; "profileId"; "profileTemplateId"; "profileVersion";
   "signingPayloadType"; "threshold"; "type"; "walletId"].
Definition payload_texts : list string :=
  ["algorithm"; "chain"; "curve"; "derivationContextHash"; "digestType"; "hashAlgorithm"; "partyId"; "profileId";
   "profileTemplateId"; "signingPayloadType"; "walletId"].
Definition context_keys : list string :=
  ["accountPath"; "addressEncoding"; "algorithm"; "chain"; "childPath"; "curve"; "descriptorVersion"; "expectedAddress";
   "expectedPublicKey"; "fullPath"; "keyVersion"; "profileId"; "profileTemplateId"; "profileVersion"; "publicKeyFormat";
   "scheme"].
Definition context_texts : list string :=
  ["accountPath"; "addressEncoding"; "algorithm"; "chain"; "childPath"; "curve"; "expectedAddress"; "expectedPublicKey";
   "fullPath"; "profileId"; "profileTemplateId"; "publicKeyFormat"; "scheme"].
Definition present (fields : Object) (keys : list string) : bool :=
  forallb (fun key => stringMust fields key <>s "") keys.
Definition at_least (least : Z) (fields : Object) (key : string) : bool :=
  match integerValue fields key with Ok value => (least <=? value)%Z | Fail _ => false end.

Definition validateSignClaim (fields : Object) (listed : signDiscoveryFixture) : res unit :=
  _ ← validateLifecycle fields "SIGN";
  _ ← ensure ((integer fields "httpStatus" =? 200)%Z && (stringMust fields "type" =s "SIGN")
              && (stringMust fields "status" =s "CLAIMED")) (ENew "invalid SIGN claim status");
  _ ← ensure ((stringMust fields "intentId" =s sf_intentID listed) && (stringMust fields "sessionId" =s sf_sessionID listed)
              && (stringMust fields "deadline" =s sf_deadline listed)) (ENew "SIGN claim differs from discovery identity");
  _ ← exactUTC (stringMust fields "deadline");
  let payload := objectRaw (member fields "payload") in
  _ ← ensure (sameKeys payload payload_keys && (stringMust payload "type" =s "SIGN")
              && (stringMust payload "keyId" =s sf_keyID listed) && (stringMust payload "orgId" =s sf_orgID listed))
        (ENew "invalid SIGN claim payload schema or identity");
  _ ← ensure (present payload payload_texts) (ENew "invalid SIGN claim payload");
  digest ← parseStandardBase64 (stringMust payload "digest") None;
  _ ← ensure (digest <>s "") (ENew "invalid SIGN claim digest");
  parties ← array payload "parties";
  _ ← ensure (List.length parties =? 2)%nat (ENew "invalid SIGN claim parties");
  _ ← ensure (forallb (fun party => match unmarshal_string party with Some value => value <>s "" | None => false end) parties)
        (ENew "invalid SIGN claim party");
  threshold ← integerValue payload "threshold";
  _ ← ensure (threshold =? 2)%Z (ENew "invalid SIGN claim threshold");
  _ ← ensure (at_least 1 payload "profileVersion") (ENew "invalid SIGN claim profile version");
  let contextFields := objectRaw (member payload "derivationContext") in
  _ ← ensure (sameKeys contextFields context_keys) (ENew "invalid SIGN derivation context schema");
  _ ← ensure (present contextFields context_texts) (ENew "invalid SIGN derivation context");
  _ ← ensure (forallb (at_least 1 contextFields) ["descriptorVersion"; "keyVersion"; "profileVersion"])
        (ENew "invalid SIGN derivation context");
  _ ← ensure (zlen (member payload "policyContext") <=? 2048)%Z (ENew "invalid SIGN policy context schema");
  _ ← rejectDuplicateKeys (member payload "policyContext");
  policy ← Context_UnmarshalJSON (member payload "policyContext");
  ValidateContext (Some policy) (stringMust payload "chain") (stringMust payload "signingPayloadType")
    (stringMust contextFields "expectedAddress").

Definition validateSignTerminalFixtures (root : Root) : res unit :=
  completed ← readObject root "sign-terminal-completed-request.json" ["status"];
  _ ← ensure (stringMust completed "status" =s "COMPLETED") (ENew "invalid completed SIGN terminal request");
  failed ← readObject root "sign-terminal-failed-request.json" ["errorCode"; "status"];
  _ ← ensure ((stringMust failed "status" =s "FAILED") && (stringMust failed "errorCode" <>s ""))
        (ENew "invalid failed SIGN terminal request");
  timedOut ← readObject root "sign-terminal-timed-out-local.json" ["status"];
  _ ← ensure (stringMust timedOut "status" =s "TIMED_OUT") (ENew "invalid timed-out SIGN terminal request");
  Ok ().

Definition signCreatedAt (fields : Object) : time :=
  match exactUTC (stringMust fields "createdAt") with Ok t => t | Fail _ => zero_time end.

Definition validateMailbox (fields : Object) (claim : dkgFixture) : res unit :=
  _ ← ensure (uuidV4Pattern (stringMust fields "intentId")) (ENew "invalid mailbox intentId");
  _ ← ensure (identifier (stringMust fields "orgId") "org-") (ENew "invalid mailbox orgId");
  _ ← ensure (uuidV4Pattern (stringMust fields "sessionId") && messageIDPattern (stringMust fields "messageId"))
        (ENew "invalid mailbox session or message identity");
  _ ← ensure ((stringMust fields "intentId" =s fx_intentID claim) && (stringMust fields "sessionId" =s fx_sessionID claim)
              && (stringMust fields "orgId" =s fx_orgID claim)) (ENew "mailbox differs from claimed DKG");
  let authenticated := stringMust fields "authenticatedPartyId" in
  let from := stringMust fields "fromPartyId" in let to := stringMust fields "toPartyId" in
  broadcast ← boolean fields "broadcast";
  round ← integerValue fields "round";
  protocolSeq ← integerValue fields "protocolSeq";
  _ ← ensure (((authenticated =s "co-signer-primary") || (authenticated =s "co-signer-recovery"))
              && (authenticated =s from) && (0 <=? round)%Z && (0 <=? protocolSeq)%Z)
        (ENew "invalid party-bound mailbox frame");
  _ ← ensure (if (broadcast : bool) then to =s "broadcast"
              else (to <>s from) && ((to =s "mpc-signer") || (to =s "co-signer-primary") || (to =s "co-signer-recovery")))
        (ENew "invalid mailbox target");
  payload ← parseStandardBase64 (stringMust fields "payload") None;
  ensure ((payload <>s "") && (zlen payload <=? 2 ^ 20)%Z) (ENew "invalid mailbox payload").

(** The listing: the claimed and the pending DKG, and the claimed SIGN. *)
Definition verify_listing (root : Root) : res (dkgFixture * dkgFixture * signDiscoveryFixture) :=
  listing ← readObject root "listing-response.json" ["httpStatus"; "ownClaimedDkg"; "ownClaimedSign"; "pending"];
  _ ← ensure (integer listing "httpStatus" =? 200)%Z (ENew "invalid listing status");
  own ← array listing "ownClaimedDkg";
  ownSign ← array listing "ownClaimedSign";
  pending ← array listing "pending";
  match own, ownSign, pending with
  | [own], [ownSign], [pending0; pending1] =>
      claimed ← parseDKG (objectRaw own) "CLAIMED";
      pendingDKG ← parseDKG (objectRaw pending0) "PENDING";
      let sign := objectRaw pending1 in
      _ ← ensure (stringMust sign "type" =s "SIGN") (ENew "second pending intent must be SIGN");
      _ ← parseSign sign;
      claimedSign ← parseOwnedSign (objectRaw ownSign);
      _ ← ensure (time_before (fx_createdAt claimed) (fx_createdAt pendingDKG)
                  && time_before (fx_createdAt pendingDKG) (signCreatedAt sign))
            (ENew "pending intents are not sorted by createdAt,intentId");
      _ ← ensure ((fx_intentID claimed <>s fx_intentID pendingDKG) && (fx_sessionID claimed <>s fx_sessionID pendingDKG)
                  && (fx_keyID claimed <>s fx_keyID pendingDKG)) (ENew "listing reuses DKG identifier");
      let signKey := stringMust sign "keyId" in
      _ ← ensure ((signKey <>s fx_keyID pendingDKG) && (signKey <>s fx_keyID claimed)) (ENew "listing reuses keyId");
      Ok (claimed, pendingDKG, claimedSign)
  | _, _, _ => Fail (ENew "listing must contain one claimed DKG, one claimed SIGN, and pending DKG/SIGN pair")
  end.

Definition same_dkg (a b : dkgFixture) : bool :=
  (fx_intentID a =s fx_intentID b) && (fx_sessionID a =s fx_sessionID b) && (fx_keyID a =s fx_keyID b)
  && (fx_orgID a =s fx_orgID b) && (fx_deadline a =s fx_deadline b)
  && (fx_descriptorBytes a =s fx_descriptorBytes b) && (fx_descriptorFingerprint a =s fx_descriptorFingerprint b).

Definition verify_claim (root : Root) (pendingDKG : dkgFixture) : res dkgFixture :=
  claim ← readObject root "claim-response.json"
            ["session"; "chainCodeBase64"; "deadline"; "descriptorBytesBase64"; "descriptorFingerprint"; "httpStatus";
             "intentId"; "keyId"; "orgId"; "sessionId"; "status"];
  _ ← ensure ((integer claim "httpStatus" =? 200)%Z && (stringMust claim "status" =s "CLAIMED")) (ENew "invalid claim status");
  claimDKG ← parseClaim claim;
  _ ← ensure (same_dkg claimDKG pendingDKG) (ENew "claim differs from pending DKG");
  chain ← match parseStandardBase64 (stringMust claim "chainCodeBase64") (Some 32%Z) with
          | Ok chain => Ok chain
          | Fail _ => Fail (ENew "claim chain code does not match descriptor")
          end;
  _ ← ensure (digest chain =s kd_ChainCodeHash (fx_descriptor claimDKG)) (ENew "claim chain code does not match descriptor");
  Ok claimDKG.

Definition verify_messages (root : Root) (claimedSign : signDiscoveryFixture) (name status : string) (count : nat) : res unit :=
  raw ← ReadFile root name;
  _ ← rejectDuplicateKeys raw;
  result ← messages_UnmarshalJSON raw;
  deadline ← exactUTC (sf_deadline claimedSign);
  _ ← Validate (mr_Session result) "SIGN" (sf_sessionID claimedSign) deadline;
  ensure ((sl_Status (mr_Session result) =s status) && (List.length (mr_Messages result) =? count)%nat)
    (ENew "invalid messages fixture").

(** A terminal request bound to the claim: the fingerprint of its result. *)
Definition verify_terminal (root : Root) (claimDKG : dkgFixture) (name status : string) : res string :=
  request ← readObject root name ["terminalResult"; "terminalResultFingerprint"];
  '(terminal, fingerprint) ← ParseCanonicalTerminalResult (member request "terminalResult");
  _ ← ensure ((tr_Status terminal =s status) && (digest_String fingerprint =s stringMust request "terminalResultFingerprint"))
        (ENew "invalid terminal request");
  _ ← ensure ((tr_IntentID terminal =s fx_intentID claimDKG) && (tr_SessionID terminal =s fx_sessionID claimDKG)
              && (tr_KeyID terminal =s fx_keyID claimDKG)) (ENew "terminal differs from claimed DKG");
  _ ← ensure (match tr_Result terminal with
              | Some result => (Mpc2of3.cr_DescriptorFingerprint result =s fx_descriptorFingerprint claimDKG)
                               && (Mpc2of3.cr_ChainCodeHash result =s kd_ChainCodeHash (fx_descriptor claimDKG))
              | None => true
              end) (ENew "completed terminal is not bound to claim");
  Ok (digest_String fingerprint).

Definition verify_response (root : Root) (name outcome status : string) (httpStatus : Z) (fingerprint : string) : res unit :=
  response ← readObject root name ["authoritativeResultFingerprint"; "authoritativeStatus"; "httpStatus"; "outcome"];
  ensure ((integer response "httpStatus" =? httpStatus)%Z && (stringMust response "outcome" =s outcome)
          && (stringMust response "authoritativeStatus" =s status)
          && (stringMust response "authoritativeResultFingerprint" =s fingerprint)) (ENew "invalid response").

Definition verifyHTTPFixtures (root : Root) : res unit :=
  '(_, pendingDKG, claimedSign) ← verify_listing root;
  claimDKG ← verify_claim root pendingDKG;
  signClaim ← readObject root "sign-claim-response.json"
                ["session"; "deadline"; "httpStatus"; "intentId"; "payload"; "sessionId"; "status"; "type"];
  _ ← validateSignClaim signClaim claimedSign;
  _ ← verify_messages root claimedSign "messages-response.json" "RUNNING" 1;
  _ ← verify_messages root claimedSign "messages-terminal-response.json" "COMPLETED" 0;
  _ ← validateSignTerminalFixtures root;
  completed ← verify_terminal root claimDKG "terminal-completed-request.json" "COMPLETED";
  failed ← verify_terminal root claimDKG "terminal-failed-request.json" "FAILED";
  _ ← verify_response root "accepted-response.json" "ACCEPTED" "COMPLETED" 200 completed;
  _ ← verify_response root "replay-response.json" "EXACT_REPLAY" "COMPLETED" 200 completed;
  _ ← verify_response root "conflict-response.json" "TERMINAL_CONFLICT" "FAILED" 409 failed;
  frame ← readObject root "mailbox-frame.json"
            ["authenticatedPartyId"; "broadcast"; "fromPartyId"; "intentId"; "messageId"; "orgId"; "payload"; "protocolSeq";
             "round"; "sessionId"; "toPartyId"];
  validateMailbox frame claimDKG.

Definition http_manifest_ok (root : Root) (raw : bytes) : res unit :=
  manifest ← decodeClosed decode_httpManifest raw ["backendSourceCommit"; "bundleVersion"; "files"];
  if negb (hm_BundleVersion manifest =? 1)%Z || (hm_BackendSourceCommit manifest <>s expectedHTTPProducerCommit)
     || negb (gitCommitPattern (hm_BackendSourceCommit manifest))
  then Fail (ENew "invalid HTTP manifest schema")
  else verifyManifestEntries root (hm_Files manifest) httpPaths.

Definition VerifyHTTPBundle (root : Root) : res string :=
  '(manifestBytes, _) ← verifyManifest root httpPaths (http_manifest_ok root);
  if digest manifestBytes <>s expectedHTTPBundleIdentity then Fail (ENew "unexpected HTTP bundle identity")
  else _ ← verifyHTTPFixtures root; Ok expectedHTTPBundleIdentity.

(** * contract/approval/corpus.go *)

Record Vector := {
  ve_ID : string; ve_Kind : string; ve_InputBase64 : string; ve_InputSHA256 : string; ve_Expected : string;
  ve_Binding : bytes; ve_ComparisonBase64 : option string;
}.
Definition vector_names : list string :=
  ["id"; "kind"; "inputBase64"; "inputSHA256"; "expected"; "binding"; "comparisonBase64"].
Definition decode_Vector (raw : bytes) : option Vector :=
  l ← struct_members false vector_names raw;
  let get := assigned vector_names l in
  id ← field_of dec_string "" (get "id"); kind ← field_of dec_string "" (get "kind");
  input ← field_of dec_string "" (get "inputBase64"); sum ← field_of dec_string "" (get "inputSHA256");
  expected ← field_of dec_string "" (get "expected"); comparison ← nilable dec_string (get "comparisonBase64");
  Some {| ve_ID := id; ve_Kind := kind; ve_InputBase64 := input; ve_InputSHA256 := sum; ve_Expected := expected;
          ve_Binding := raw_message (get "binding"); ve_ComparisonBase64 := comparison |}.

Definition hexSeed (value : string) : res bytes :=
  b ← of_option (hex_decode value) invalid; _ ← ensure (zlen b =? 32)%Z invalid; Ok b.

Definition VerifyVector (v : Vector) (public : bytes) : res unit :=
  raw ← of_option (b64_decode b64_std false (ve_InputBase64 v)) (ENew "illegal base64 data");
  let binding := objectRaw (ve_Binding v) in
  let kind := ve_Kind v in
  if kind =s "authorization" then _ ← ParseAuthorization raw; Ok ()
  else if kind =s "receipt" then
    _ ← VerifyReceipt raw {| tr_OrgID := str binding "orgId"; tr_RequestID := str binding "requestId";
                             tr_AuthorizationHash := str binding "authorizationHash";
                             tr_SigningKeyID := str binding "signingKeyId"; tr_PublicKey := public;
                             tr_Eligible := default false (unmarshal_bool (member binding "eligible")) |};
    Ok ()
  else if kind =s "organization" then
    _ ← ParseOrganizationResponse raw (str binding "orgId") (str binding "requestId") (str binding "authorizationHash");
    Ok ()
  else if kind =s "application" then _ ← ParseDecisionApplication raw; Ok ()
  else if kind =s "replay" then
    comparison ← of_option (ve_ComparisonBase64 v) invalid;
    other ← standardBase64 comparison None;
    same ← SameReceipt raw other;
    ensure same invalid
  else if kind =s "page" then ParsePendingPage raw
  else Fail (ENew "unknown vector kind").

Definition required_vectors : list string :=
  ["APPROVAL-V1-001"; "APPROVAL-V1-002"; "APPROVAL-V1-003"; "APPROVAL-V1-004"; "APPROVAL-V1-005"; "APPROVAL-V1-006";
   "APPROVAL-V1-007"; "APPROVAL-V1-010"; "APPROVAL-V1-010-empty-page"; "APPROVAL-V1-010-end-page"].

(** One vector: its identifier, when it is intact and behaves as it says. *)
Definition check_vector (public rawVector : bytes) (seen : gset string) : res string :=
  fields ← parse rawVector 131072 false;
  _ ← ensure (closed fields vector_names) invalid;
  vector ← of_option (decode_Vector rawVector) invalid;
  _ ← ensure (negb (bool_decide (ve_ID vector ∈ seen)) && (ve_ID vector <>s "")
              && ((ve_Expected vector =s "ACCEPT") || (ve_Expected vector =s "REJECT"))) invalid;
  input ← match standardBase64 (ve_InputBase64 vector) None with
          | Ok input => Ok input
          | Fail _ => Fail (ENew "input integrity")
          end;
  _ ← ensure (hash input =s ve_InputSHA256 vector) (ENew "input integrity");
  _ ← ensure ((ve_Kind vector =s "cursor")
              || Bool.eqb (is_ok (VerifyVector vector public)) (ve_Expected vector =s "ACCEPT")) (ENew "expected");
  Ok (ve_ID vector).
Fixpoint check_vectors (public : bytes) (vectors : list bytes) (seen : gset string) : res (gset string) :=
  match vectors with
  | [] => Ok seen
  | rawVector :: vectors =>
      id ← check_vector public rawVector seen; check_vectors public vectors ({[id]} ∪ seen)
  end.

(** [key_of_seed] is [ed25519.NewKeyFromSeed]. *)
Definition VerifyCorpus (key_of_seed : bytes -> bytes) (raw : bytes) : res unit :=
  v ← parse raw (2 * 1024 * 1024) true;
  _ ← ensure (closed v ["schemaVersion"; "syntheticSeedHex"; "publicKeyBase64"; "cursorSecretBase64"; "vectors"]
              && (ApprovalWire.integer v "schemaVersion" =? 1)%Z) invalid;
  public ← standardBase64 (str v "publicKeyBase64") (Some 32%Z);
  _ ← standardBase64 (str v "cursorSecretBase64") (Some 32%Z);
  seedRaw ← hexSeed (str v "syntheticSeedHex");
  _ ← ensure (str_drop 32 (key_of_seed seedRaw) =s public) invalid;
  vectors ← of_option (unmarshal_array (member v "vectors")) invalid;
  _ ← ensure (40 <=? List.length vectors)%nat invalid;
  seen ← check_vectors public vectors ∅;
  ensure (forallb (fun id => bool_decide (id ∈ seen)) required_vectors) (ENew "missing required vector").

(** * contract/bundle/approval.go *)

Definition expectedApprovalProducerCommit := "50a9f299fde34e1c5ba1ff5564f7f992afa15b9a".
Definition expectedApprovalProducerSHA256 := "e0405837791ff64ebcb1dffee05a72c69037ad39111b67ab82c59bcd9537ff15".
Definition expectedApprovalBundleIdentity := "wIZBGwrhlPrsPS8JpuU8cMDemC9Sjtwukav2INrTF6E".
Definition producer_repository := "https://github.com/BroLabel/BroSettlement".

Record schemaVersions := { sv_Authorization : Z; sv_Receipt : Z; sv_PendingCursor : Z }.
Record approvalManifest := {
  am_BundleVersion : Z; am_ProducerRepository : string; am_ProducerCommit : string; am_ProducerPath : string;
  am_ProducerSHA256 : string; am_SchemaVersions : schemaVersions; am_Files : list manifestFile;
}.
Definition set_schemaVersions (upd : schemaVersions -> approvalManifest -> approvalManifest)
    (get : approvalManifest -> schemaVersions) : setter approvalManifest := fun v m =>
  match v with
  | JNull => Some m
  | JObj l =>
      versions ← assign_members
        [("authorization", set_int (fun s '(Build_schemaVersions _ b c) => Build_schemaVersions s b c));
         ("receipt", set_int (fun s '(Build_schemaVersions a _ c) => Build_schemaVersions a s c));
         ("pendingCursor", set_int (fun s '(Build_schemaVersions a b _) => Build_schemaVersions a b s))] l (get m);
      Some (upd versions m)
  | _ => None
  end.
Definition decode_approvalManifest : json -> option approvalManifest :=
  decode_struct
    [("bundleVersion", set_int (fun s '(Build_approvalManifest _ b c d e f g) => Build_approvalManifest s b c d e f g));
     ("producerRepository", set_string (fun s '(Build_approvalManifest a _ c d e f g) => Build_approvalManifest a s c d e f g));
     ("producerCommit", set_string (fun s '(Build_approvalManifest a b _ d e f g) => Build_approvalManifest a b s d e f g));
     ("producerPath", set_string (fun s '(Build_approvalManifest a b c _ e f g) => Build_approvalManifest a b c s e f g));
     ("producerSHA256", set_string (fun s '(Build_approvalManifest a b c d _ f g) => Build_approvalManifest a b c d s f g));
     ("schemaVersions", set_schemaVersions (fun s '(Build_approvalManifest a b c d e _ g) => Build_approvalManifest a b c d e s g) am_SchemaVersions);
     ("files", set_list decode_manifestFile (fun s '(Build_approvalManifest a b c d e f _) => Build_approvalManifest a b c d e f s))]
    (Build_approvalManifest 0 "" "" "" "" (Build_schemaVersions 0 0 0) []).

Definition approval_manifest_ok (root : Root) (raw : bytes) : res unit :=
  m ← decodeClosed decode_approvalManifest raw
        ["bundleVersion"; "producerRepository"; "producerCommit"; "producerPath"; "producerSHA256"; "schemaVersions"; "files"];
  _ ← ensure ((am_BundleVersion m =? 1)%Z && (am_ProducerRepository m =s producer_repository)
              && (am_ProducerCommit m =s expectedApprovalProducerCommit) && gitCommitPattern (am_ProducerCommit m)
              && (am_ProducerPath m =s "apps/client-api/test/contracts/approval/approval-corpus.ts")
              && (am_ProducerSHA256 m =s expectedApprovalProducerSHA256)
              && (sv_Authorization (am_SchemaVersions m) =? 1)%Z && (sv_Receipt (am_SchemaVersions m) =? 1)%Z
              && (sv_PendingCursor (am_SchemaVersions m) =? 1)%Z) (ENew "invalid approval manifest provenance");
  match am_Files m with
  | [file] =>
      _ ← ensure (mf_Path file =s "vectors.json") (ENew "invalid approval file list");
      content ← ReadFile root "vectors.json";
      ensure (mf_SHA256 file =s sha256_hex content) (ENew "approval vector content hash mismatch")
  | _ => Fail (ENew "invalid approval file list")
  end.

Definition VerifyApprovalBundle (key_of_seed : bytes -> bytes) (root : Root) : res string :=
  '(manifestBytes, _) ← verifyManifest root ["vectors.json"] (approval_manifest_ok root);
  if digest manifestBytes <>s expectedApprovalBundleIdentity then Fail (ENew "unexpected approval bundle identity")
  else
    raw ← ReadFile root "vectors.json";
    _ ← VerifyCorpus key_of_seed raw; Ok expectedApprovalBundleIdentity.

(** * signingpolicy/corpus.go and contract/bundle/prepared.go *)

(** [ReadPreparedCorpus]: [gunzip] is [compress/gzip], read to at most one byte over the limit. *)
Definition ReadPreparedCorpus (gunzip : bytes -> res bytes) (root : Root) : res bytes :=
  compressed ← ReadFile root "corpus.json.gz";
  raw ← gunzip compressed;
  if (2 * 1024 * 1024 <? zlen raw)%Z then Fail (ENew "prepared corpus exceeds size limit") else Ok raw.

Record PreparedVector := {
  pv_ID : string; pv_Valid : bool; pv_Approval : option ApprovedExecution; pv_Prepared : option PreparedTransfer;
  pv_Policy : option PolicyContext; pv_Digest : bytes; pv_PayloadType : string; pv_HashAlgorithm : string; pv_Now : Z;
}.
Definition prepared_names : list string :=
  ["id"; "valid"; "approval"; "prepared"; "policy"; "digest"; "payloadType"; "hashAlgorithm"; "now"].
Definition decode_PreparedVector (raw : bytes) : option PreparedVector :=
  l ← struct_members true prepared_names raw;
  let get := assigned prepared_names l in
  id ← field_of dec_string "" (get "id"); valid ← field_of dec_bool false (get "valid");
  approval ← nilable decode_approval (get "approval"); prepared ← nilable decode_prepared (get "prepared");
  policy ← nilable (fun raw => res_option (Context_UnmarshalJSON raw)) (get "policy");
  digest ← nilable dec_bytes (get "digest"); payload ← field_of dec_string "" (get "payloadType");
  hash ← field_of dec_string "" (get "hashAlgorithm"); now ← field_of dec_int 0%Z (get "now");
  Some {| pv_ID := id; pv_Valid := valid; pv_Approval := approval; pv_Prepared := prepared; pv_Policy := policy;
          pv_Digest := default "" digest; pv_PayloadType := payload; pv_HashAlgorithm := hash; pv_Now := now |}.
(** The identity of an item, read without the rest. *)
Definition decode_identity (raw : bytes) : option (string * bool) :=
  l ← struct_members false ["id"; "valid"] raw;
  id ← field_of dec_string "" (assigned ["id"; "valid"] l "id");
  valid ← field_of dec_bool false (assigned ["id"; "valid"] l "valid");
  Some (id, valid).

Definition accepts_prepared (item : bytes) : bool :=
  is_ok ((_ ← rejectDuplicateKeys item;
         v ← of_option (decode_PreparedVector item) (ENew "json: cannot unmarshal");
         VerifyPrepared (pv_Approval v) (pv_Prepared v) (pv_Policy v) (pv_Digest v) (pv_PayloadType v)
           (pv_HashAlgorithm v) (pv_Now v * millisecond)%Z) : res _).
Fixpoint check_prepared (items : list bytes) (seen : gset string) (positives : nat) : res nat :=
  match items with
  | [] => Ok positives
  | item :: items =>
      '(id, valid) ← of_option (decode_identity item) err_prepared;
      _ ← ensure ((id <>s "") && negb (bool_decide (id ∈ seen))) err_prepared;
      _ ← ensure (Bool.eqb (accepts_prepared item) valid) (ENew "prepared corpus acceptance mismatch");
      check_prepared items ({[id]} ∪ seen) (if (valid : bool) then S positives else positives)
  end.
Definition VerifyPreparedCorpus (raw : bytes) : res unit :=
  _ ← match rejectDuplicateKeys raw with Ok _ => Ok () | Fail _ => Fail err_prepared end;
  items ← of_option (unmarshal_array raw) err_prepared;
  _ ← ensure (0 <? List.length items)%nat err_prepared;
  positives ← check_prepared items ∅ 0;
  ensure (positives =? 8)%nat err_prepared.

Definition expectedPreparedProducerCommit := "50a9f299fde34e1c5ba1ff5564f7f992afa15b9a".
Definition expectedPreparedProducerSHA256 := "e8ac4e4ae7329393957118a3772465ace9951b2e85a758a889cd004f50911773".
Definition expectedPreparedBundleIdentity := "_lJqcPZNAXXMdCxzZWNDAh7Y3ytTMUoeDFE32772VC8".

Record preparedManifest := {
  pm_BundleVersion : Z; pm_ProducerRepository : string; pm_ProducerCommit : string; pm_ProducerPath : string;
  pm_ProducerSHA256 : string; pm_ClaimVersion : Z; pm_PreparedVersion : Z; pm_Files : list manifestFile;
}.
Definition decode_preparedManifest : json -> option preparedManifest :=
  decode_struct
    [("bundleVersion", set_int (fun s '(Build_preparedManifest _ b c d e f g h) => Build_preparedManifest s b c d e f g h));
     ("producerRepository", set_string (fun s '(Build_preparedManifest a _ c d e f g h) => Build_preparedManifest a s c d e f g h));
     ("producerCommit", set_string (fun s '(Build_preparedManifest a b _ d e f g h) => Build_preparedManifest a b s d e f g h));
     ("producerPath", set_string (fun s '(Build_preparedManifest a b c _ e f g h) => Build_preparedManifest a b c s e f g h));
     ("producerSHA256", set_string (fun s '(Build_preparedManifest a b c d _ f g h) => Build_preparedManifest a b c d s f g h));
     ("claimVersion", set_int (fun s '(Build_preparedManifest a b c d e _ g h) => Build_preparedManifest a b c d e s g h));
     ("preparedVersion", set_int (fun s '(Build_preparedManifest a b c d e f _ h) => Build_preparedManifest a b c d e f s h));
     ("files", set_list decode_manifestFile (fun s '(Build_preparedManifest a b c d e f g _) => Build_preparedManifest a b c d e f g s))]
    (Build_preparedManifest 0 "" "" "" "" 0 0 []).

(** The corpus the manifest pins; the code keeps it in a variable for the last check. *)
Definition prepared_content (gunzip : bytes -> res bytes) (root : Root) (raw : bytes) : res bytes :=
  m ← decodeClosed decode_preparedManifest raw
        ["bundleVersion"; "producerRepository"; "producerCommit"; "producerPath"; "producerSHA256"; "claimVersion";
         "preparedVersion"; "files"];
  _ ← ensure ((pm_BundleVersion m =? 1)%Z && (pm_ProducerRepository m =s producer_repository)
              && (pm_ProducerCommit m =s expectedPreparedProducerCommit)
              && (pm_ProducerPath m =s "apps/client-api/test/contracts/approval/prepared-sign.producer.ts")
              && (pm_ProducerSHA256 m =s expectedPreparedProducerSHA256)
              && (pm_ClaimVersion m =? 2)%Z && (pm_PreparedVersion m =? 1)%Z
              && match pm_Files m with [file] => mf_Path file =s "corpus.json" | _ => false end)
        (ENew "invalid prepared bundle provenance");
  content ← ReadPreparedCorpus gunzip root;
  _ ← ensure (match pm_Files m with [file] => mf_SHA256 file =s sha256_hex content | _ => false end)
        (ENew "prepared corpus hash mismatch");
  Ok content.

Definition VerifyPreparedBundle (gunzip : bytes -> res bytes) (root : Root) : res string :=
  '(manifest, _) ← verifyManifest root ["corpus.json.gz"]
                     (fun raw => _ ← prepared_content gunzip root raw; Ok ());
  if digest manifest <>s expectedPreparedBundleIdentity then Fail (ENew "unexpected prepared bundle identity")
  else
    content ← prepared_content gunzip root manifest;
    _ ← VerifyPreparedCorpus content; Ok expectedPreparedBundleIdentity.


(** * cmd/mpc-contracts *)

(** [verify] of the command: the printed lines, or the message it exits with. *)
Definition verify (key_of_seed : bytes -> bytes) (gunzip : bytes -> res bytes)
    (signerRoot httpRoot approvalRoot preparedRoot : Root) : res (list string) :=
  let failing msg (r : res string) := match r with Ok id => Ok id | Fail err => Fail (EWrap msg err) end in
  signerID ← failing "verify signer bundle" (VerifySignerBundle signerRoot);
  httpID ← failing "verify HTTP bundle" (VerifyHTTPBundle httpRoot);
  approvalID ← failing "verify approval bundle" (VerifyApprovalBundle key_of_seed approvalRoot);
  preparedID ← failing "verify prepared SIGN bundle" (VerifyPreparedBundle gunzip preparedRoot);
  Ok ["PREPARED-SIGN-V2 verified: " ++ preparedID; "APPROVAL-V1 verified: " ++ approvalID;
      "CONTRACT-BUNDLE-V1 verified: " ++ signerID; "COSIGNER-HTTP-V1 verified: " ++ httpID]%string.

End Verify.
