(* ===== verification/BundleFixtures.v ===== *)
(** The fixtures of the repository, byte for byte: the signer's contract bundle and the
    backend's HTTP bundle, as the trees the bundle verifiers read. *)
From stdpp Require Import base tactics option list strings numbers gmap.
From Stdlib Require Import ZArith Ascii String.
From S2P Require Import Prelude GoText Json Bundle.

#[local] Open Scope string_scope.

(** Text with a backquote standing for the JSON quote: the fixtures use the single one. *)
Definition btext (s : string) : bytes := str_map (fun c => if Ascii.eqb c "`" then dquote else c) s.
Definition newline : bytes := String (Ascii.ascii_of_nat 10) "".

(** A tree of regular files. *)
Definition root_of (files : list (string * bytes)) : Root :=
  {| ReadFile path := of_option (list_to_map (M := gmap string bytes) files !! path) (ENew "file does not exist");
     WalkDir := Ok (map (fun f => (f.1, true)) files) |}.

(** [contracts/mpc-2of3/v1]. *)
Definition signer_root_files : list (string * bytes) := [
  ("descriptor/canonical.json", btext (
    "{`algorithm`:`ECDSA`,`chainCodeHash`:`AAAAAAAAAAAAAAAAAAAAAAAAAAAAAAAAAAAAAAAAAAA`,`curve`:`secp"
    ++ "256k1`,`derivationScheme`:`bip32_secp256k1`,`descriptorKind`:`mpc-key-descriptor`,`descriptorVer"
    ++ "sion`:1,`keyId`:`mpc_key_123e4567-e89b-42d3-a456-426614174000`,`parties`:[{`partyId`:`mpc-signer"
    ++ "`,`purpose`:`platform`},{`partyId`:`co-signer-primary`,`purpose`:`primary`},{`partyId`:`co-signe"
    ++ "r-recovery`,`purpose`:`recovery`}],`protocolVersion`:1,`publicKeyFormat`:`compressed_sec1`,`thre"
    ++ "shold`:2}"));
  ("digest-jcs/jcs.json", btext (
    "{`a`:1,`b`:[true,`x`]}"));
  ("digest-jcs/sha256.json", btext (
    "{`input`:`descriptor`,`sha256`:`GUtSDcMDhLP8Iz4SN3iDXircNi2RxuMwFe09sjedfqE`}"));
  ("manifest.json", btext (
    "{`contractVersion`:1,`files`:[{`path`:`descriptor/canonical.json`,`sha256`:`EGwPFc4mUrwf-ePdP2Xe"
    ++ "hoh_rJODado_hZUsiBR2FGY`},{`path`:`digest-jcs/jcs.json`,`sha256`:`Y-gGPZ3G8P1aJLRwaBihZf1Xw1MbdE"
    ++ "Zs9d6mK_8JsLY`},{`path`:`digest-jcs/sha256.json`,`sha256`:`BGPPmSCABIEGM1-7FHoA8V8qJbXsdAeCxnIfN"
    ++ "XP7aWQ`},{`path`:`proto.sha256`,`sha256`:`WTZVZKQYtFfpziV0EOmodcoIUFB_0B_swF3xn_Tkxbs`},{`path`:"
    ++ "`terminal-result/completed.json`,`sha256`:`hIBiBRhPBmzmAMIzCpzMwsP4aCXxp_AeiJ6jCqHs3vA`},{`path`"
    ++ ":`terminal-result/failed.json`,`sha256`:`-iZW1dbxHFUNEZwwGyOYou7cRcXP2wvPxux8vMo3jpk`},{`path`:`"
    ++ "terminal-result/timed-out.json`,`sha256`:`f_A6e2O71oC1iFtjgzwBtLd4Z4eVDaMueTbyQfgLxL8`}]}"));
  ("proto.sha256", (btext (
    "6865218dbd3641419523983c7bdc372d0eb3fb876d3a7a4f2c2c1672b29464db")) ++ newline);
  ("terminal-result/completed.json", btext (
    "{`intentId`:`intent-123`,`keyId`:`mpc_key_123e4567-e89b-42d3-a456-426614174000`,`result`:{`accou"
    ++ "ntPublicKey`:`0279be667ef9dcbbac55a06295ce870b07029bfcdb2dce28d959f2815b16f81798`,`artifacts`:[{"
    ++ "`artifactFingerprint`:`AAAAAAAAAAAAAAAAAAAAAAAAAAAAAAAAAAAAAAAAAAA`,`partyId`:`co-signer-primary"
    ++ "`,`purpose`:`primary`},{`artifactFingerprint`:`AAAAAAAAAAAAAAAAAAAAAAAAAAAAAAAAAAAAAAAAAAA`,`par"
    ++ "tyId`:`co-signer-recovery`,`purpose`:`recovery`}],`chainCodeHash`:`AAAAAAAAAAAAAAAAAAAAAAAAAAAAA"
    ++ "AAAAAAAAAAAAAA`,`descriptorFingerprint`:`AAAAAAAAAAAAAAAAAAAAAAAAAAAAAAAAAAAAAAAAAAA`},`resultKi"
    ++ "nd`:`mpc-dkg-terminal-result`,`resultVersion`:1,`sessionId`:`dkg-123`,`status`:`COMPLETED`}"));
  ("terminal-result/failed.json", btext (
    "{`intentId`:`intent-123`,`keyId`:`mpc_key_123e4567-e89b-42d3-a456-426614174000`,`resultKind`:`mp"
    ++ "c-dkg-terminal-result`,`resultVersion`:1,`sessionId`:`dkg-123`,`status`:`FAILED`}"));
  ("terminal-result/timed-out.json", btext (
    "{`intentId`:`intent-123`,`keyId`:`mpc_key_123e4567-e89b-42d3-a456-426614174000`,`resultKind`:`mp"
    ++ "c-dkg-terminal-result`,`resultVersion`:1,`sessionId`:`dkg-123`,`status`:`TIMED_OUT`}"))
].
Definition signer_root : Root := root_of signer_root_files.

(** [testdata/mpc-co-signer-http/v1]. *)
Definition http_root_files : list (string * bytes) := [
  ("accepted-response.json", btext (
    "{`authoritativeResultFingerprint`:`Odr9l-f5Mhyyx4FAe1Ll3et0e2_CUP3_5eEacrJoyaM`,`authoritativeSt"
    ++ "atus`:`COMPLETED`,`httpStatus`:200,`outcome`:`ACCEPTED`}"));
  ("claim-response.json", btext (
    "{`chainCodeBase64`:`AAAAAAAAAAAAAAAAAAAAAAAAAAAAAAAAAAAAAAAAAAA=`,`deadline`:`2026-07-30T00:00:0"
    ++ "0.000Z`,`descriptorBytesBase64`:`eyJhbGdvcml0aG0iOiJFQ0RTQSIsImNoYWluQ29kZUhhc2giOiJabWg2cmZoaXZ"
    ++ "YZHNqOEdManAtT0lBaVhGSVZ1NGpPemtDcFpIUTFmS1NVIiwiY3VydmUiOiJzZWNwMjU2azEiLCJkZXJpdmF0aW9uU2NoZW1"
    ++ "lIjoiYmlwMzJfc2VjcDI1NmsxIiwiZGVzY3JpcHRvcktpbmQiOiJtcGMta2V5LWRlc2NyaXB0b3IiLCJkZXNjcmlwdG9yVmV"
    ++ "yc2lvbiI6MSwia2V5SWQiOiJtcGNfa2V5XzEyM2U0NTY3LWU4OWItNDJkMy1hNDU2LTQyNjYxNDE3NDAwMiIsInBhcnRpZXM"
    ++ "iOlt7InBhcnR5SWQiOiJtcGMtc2lnbmVyIiwicHVycG9zZSI6InBsYXRmb3JtIn0seyJwYXJ0eUlkIjoiY28tc2lnbmVyLXB"
    ++ "yaW1hcnkiLCJwdXJwb3NlIjoicHJpbWFyeSJ9LHsicGFydHlJZCI6ImNvLXNpZ25lci1yZWNvdmVyeSIsInB1cnBvc2UiOiJ"
    ++ "yZWNvdmVyeSJ9XSwicHJvdG9jb2xWZXJzaW9uIjoxLCJwdWJsaWNLZXlGb3JtYXQiOiJjb21wcmVzc2VkX3NlYzEiLCJ0aHJ"
    ++ "lc2hvbGQiOjJ9`,`descriptorFingerprint`:`owXeRUkKctags_JkTP2Xq7uiGEFz6riO1ZhW5jsg9tQ`,`httpStatus"
    ++ "`:200,`intentId`:`30000000-0000-4000-8000-000000000003`,`keyId`:`mpc_key_123e4567-e89b-42d3-a456"
    ++ "-426614174002`,`orgId`:`org-123`,`session`:{`deadline`:`2026-07-30T00:00:00.000Z`,`executionExpi"
    ++ "resAt`:null,`sessionId`:`20000000-0000-4000-8000-000000000003`,`startedAt`:null,`status`:`PENDIN"
    ++ "G`},`sessionId`:`20000000-0000-4000-8000-000000000003`,`status`:`CLAIMED`}"));
  ("conflict-response.json", btext (
    "{`authoritativeResultFingerprint`:`UR9pYZ-wBq1yCmIE_ENhU4Gzl9W2-2nIBGUn24FJm5s`,`authoritativeSt"
    ++ "atus`:`FAILED`,`httpStatus`:409,`outcome`:`TERMINAL_CONFLICT`}"));
  ("listing-response.json", btext (
    "{`httpStatus`:200,`ownClaimedDkg`:[{`createdAt`:`2026-07-29T00:00:00.000Z`,`deadline`:`2026-07-3"
    ++ "0T00:00:00.000Z`,`descriptorBytesBase64`:`eyJhbGdvcml0aG0iOiJFQ0RTQSIsImNoYWluQ29kZUhhc2giOiJabW"
    ++ "g2cmZoaXZYZHNqOEdManAtT0lBaVhGSVZ1NGpPemtDcFpIUTFmS1NVIiwiY3VydmUiOiJzZWNwMjU2azEiLCJkZXJpdmF0aW"
    ++ "9uU2NoZW1lIjoiYmlwMzJfc2VjcDI1NmsxIiwiZGVzY3JpcHRvcktpbmQiOiJtcGMta2V5LWRlc2NyaXB0b3IiLCJkZXNjcm"
    ++ "lwdG9yVmVyc2lvbiI6MSwia2V5SWQiOiJtcGNfa2V5XzEyM2U0NTY3LWU4OWItNDJkMy1hNDU2LTQyNjYxNDE3NDAwMSIsIn"
    ++ "BhcnRpZXMiOlt7InBhcnR5SWQiOiJtcGMtc2lnbmVyIiwicHVycG9zZSI6InBsYXRmb3JtIn0seyJwYXJ0eUlkIjoiY28tc2"
    ++ "lnbmVyLXByaW1hcnkiLCJwdXJwb3NlIjoicHJpbWFyeSJ9LHsicGFydHlJZCI6ImNvLXNpZ25lci1yZWNvdmVyeSIsInB1cn"
    ++ "Bvc2UiOiJyZWNvdmVyeSJ9XSwicHJvdG9jb2xWZXJzaW9uIjoxLCJwdWJsaWNLZXlGb3JtYXQiOiJjb21wcmVzc2VkX3NlYz"
    ++ "EiLCJ0aHJlc2hvbGQiOjJ9`,`descriptorFingerprint`:`zMH-tyqrcTXvMryug8o_iGvlRz2BHz8ganJK8nUfPRs`,`i"
    ++ "ntentId`:`30000000-0000-4000-8000-000000000002`,`keyId`:`mpc_key_123e4567-e89b-42d3-a456-4266141"
    ++ "74001`,`orgId`:`org-123`,`session`:{`deadline`:`2026-07-30T00:00:00.000Z`,`executionExpiresAt`:n"
    ++ "ull,`sessionId`:`20000000-0000-4000-8000-000000000002`,`startedAt`:null,`status`:`PENDING`},`ses"
    ++ "sionId`:`20000000-0000-4000-8000-000000000002`,`status`:`CLAIMED`,`type`:`DKG`}],`ownClaimedSign"
    ++ "`:[{`createdAt`:`2026-07-29T00:00:00.500Z`,`deadline`:`2026-07-30T00:00:00.000Z`,`intentId`:`300"
    ++ "00000-0000-4000-8000-000000000005`,`keyId`:`mpc_key_123e4567-e89b-42d3-a456-426614174004`,`orgId"
    ++ "`:`org-123`,`session`:{`deadline`:`2026-07-30T00:00:00.000Z`,`executionExpiresAt`:`2026-07-29T00"
    ++ ":05:00.500Z`,`sessionId`:`20000000-0000-4000-8000-000000000005`,`startedAt`:`2026-07-29T00:00:00"
    ++ ".500Z`,`status`:`RUNNING`},`sessionId`:`20000000-0000-4000-8000-000000000005`,`status`:`CLAIMED`"
    ++ ",`type`:`SIGN`}],`pending`:[{`createdAt`:`2026-07-29T00:00:01.000Z`,`deadline`:`2026-07-30T00:00"
    ++ ":00.000Z`,`descriptorBytesBase64`:`eyJhbGdvcml0aG0iOiJFQ0RTQSIsImNoYWluQ29kZUhhc2giOiJabWg2cmZoa"
    ++ "XZYZHNqOEdManAtT0lBaVhGSVZ1NGpPemtDcFpIUTFmS1NVIiwiY3VydmUiOiJzZWNwMjU2azEiLCJkZXJpdmF0aW9uU2NoZ"
    ++ "W1lIjoiYmlwMzJfc2VjcDI1NmsxIiwiZGVzY3JpcHRvcktpbmQiOiJtcGMta2V5LWRlc2NyaXB0b3IiLCJkZXNjcmlwdG9yV"
    ++ "mVyc2lvbiI6MSwia2V5SWQiOiJtcGNfa2V5XzEyM2U0NTY3LWU4OWItNDJkMy1hNDU2LTQyNjYxNDE3NDAwMiIsInBhcnRpZ"
    ++ "XMiOlt7InBhcnR5SWQiOiJtcGMtc2lnbmVyIiwicHVycG9zZSI6InBsYXRmb3JtIn0seyJwYXJ0eUlkIjoiY28tc2lnbmVyL"
    ++ "XByaW1hcnkiLCJwdXJwb3NlIjoicHJpbWFyeSJ9LHsicGFydHlJZCI6ImNvLXNpZ25lci1yZWNvdmVyeSIsInB1cnBvc2UiO"
    ++ "iJyZWNvdmVyeSJ9XSwicHJvdG9jb2xWZXJzaW9uIjoxLCJwdWJsaWNLZXlGb3JtYXQiOiJjb21wcmVzc2VkX3NlYzEiLCJ0a"
    ++ "HJlc2hvbGQiOjJ9`,`descriptorFingerprint`:`owXeRUkKctags_JkTP2Xq7uiGEFz6riO1ZhW5jsg9tQ`,`intentId"
    ++ "`:`30000000-0000-4000-8000-000000000003`,`keyId`:`mpc_key_123e4567-e89b-42d3-a456-426614174002`,"
    ++ "`orgId`:`org-123`,`session`:{`deadline`:`2026-07-30T00:00:00.000Z`,`executionExpiresAt`:null,`se"
    ++ "ssionId`:`20000000-0000-4000-8000-000000000003`,`startedAt`:null,`status`:`PENDING`},`sessionId`"
    ++ ":`20000000-0000-4000-8000-000000000003`,`status`:`PENDING`,`type`:`DKG`},{`createdAt`:`2026-07-2"
    ++ "9T00:00:02.000Z`,`intentId`:`30000000-0000-4000-8000-000000000004`,`keyId`:`mpc_key_123e4567-e89"
    ++ "b-42d3-a456-426614174003`,`orgId`:`org-123`,`session`:{`deadline`:`2026-07-30T00:00:00.000Z`,`ex"
    ++ "ecutionExpiresAt`:null,`sessionId`:`20000000-0000-4000-8000-000000000004`,`startedAt`:null,`stat"
    ++ "us`:`PENDING`},`status`:`PENDING`,`type`:`SIGN`}]}"));
  ("mailbox-frame.json", btext (
    "{`authenticatedPartyId`:`co-signer-primary`,`broadcast`:false,`fromPartyId`:`co-signer-primary`,"
    ++ "`intentId`:`30000000-0000-4000-8000-000000000003`,`messageId`:`msg_0123456789abcdef`,`orgId`:`or"
    ++ "g-123`,`payload`:`AA==`,`protocolSeq`:1,`round`:1,`sessionId`:`20000000-0000-4000-8000-000000000"
    ++ "003`,`toPartyId`:`mpc-signer`}"));
  ("manifest.json", btext (
    "{`backendSourceCommit`:`26552e0578527216a037fae3efd189d865b28910`,`bundleVersion`:1,`files`:[{`p"
    ++ "ath`:`accepted-response.json`,`sha256`:`kbGXQ_3KkNrctMOLbs15VwH03MPk3BgldAlbZeQJBQo`},{`path`:`c"
    ++ "laim-response.json`,`sha256`:`XK9yyrnm6sLU1x7r3gfbNXD4CZYqW7Y2xFwh5V2Pe24`},{`path`:`conflict-re"
    ++ "sponse.json`,`sha256`:`en_TL453odlbKXui_DwMLmmHDc9LYFYT2L_4EMpJFtU`},{`path`:`listing-response.j"
    ++ "son`,`sha256`:`Vm1-qsJY1yLwssl3jF8EPrccJwfNT9uepsRLi-MsPgI`},{`path`:`mailbox-frame.json`,`sha25"
    ++ "6`:`GlK0YU1QtM3t_Ghxwf-iC0b1jJpJAIrHLtsLIMAGK8Y`},{`path`:`messages-response.json`,`sha256`:`aPM"
    ++ "Rg7Bk_XFkwFtZ2D1lEp3awInmX7u7BqkCK_bMQyY`},{`path`:`messages-terminal-response.json`,`sha256`:`f"
    ++ "NFiL1WvRVEd_YBMoc0edtYidZNsVY2NuxdFerDLLCI`},{`path`:`replay-response.json`,`sha256`:`l9WNP4yemO"
    ++ "8msQKZQrqDdH8xYFFaasKCI7WnjjDEsrs`},{`path`:`sign-claim-response.json`,`sha256`:`wXub6Xho5HLO50f"
    ++ "p6ZLZ2ivt-wXkFA8sJycFsF-DQ-U`},{`path`:`sign-terminal-completed-request.json`,`sha256`:`9kl4ZaNm"
    ++ "M0-l9cdJWtblhwV9qQk6y8ecFEo_V-1SgGg`},{`path`:`sign-terminal-failed-request.json`,`sha256`:`uFi0"
    ++ "hWIOrGeexsSmISI-JeDYU4dWNfw_3LTmuQ6JhIU`},{`path`:`sign-terminal-timed-out-local.json`,`sha256`:"
    ++ "`T78pL0rOLStldaOKeqA7kRepd0Q8hc0aNy3zuRmJMvc`},{`path`:`terminal-completed-request.json`,`sha256"
    ++ "`:`JWk0Y-v2-7VDWsij9dOZu6upDe1vVWjONO5sLpRtBho`},{`path`:`terminal-failed-request.json`,`sha256`"
    ++ ":`E6W2_D4BcD9EpZot91ffOjS46SpD3Aj-VYE0Fn_Lnw0`}]}"));
  ("messages-response.json", btext (
    "{`messages`:[{`broadcast`:false,`deliverySeq`:1,`derivationContextHash`:`ctx-hash-1`,`fromPartyI"
    ++ "d`:`mpc-signer`,`messageId`:`msg_0123456789abcdef`,`payload`:`AQ==`,`protocolSeq`:1,`round`:1,`t"
    ++ "oPartyId`:`co-signer-primary`}],`session`:{`deadline`:`2026-07-30T00:00:00.000Z`,`executionExpir"
    ++ "esAt`:`2026-07-29T00:05:00.500Z`,`sessionId`:`20000000-0000-4000-8000-000000000005`,`startedAt`:"
    ++ "`2026-07-29T00:00:00.500Z`,`status`:`RUNNING`}}"));
  ("messages-terminal-response.json", btext (
    "{`messages`:[],`session`:{`deadline`:`2026-07-30T00:00:00.000Z`,`executionExpiresAt`:`2026-07-29"
    ++ "T00:05:00.500Z`,`sessionId`:`20000000-0000-4000-8000-000000000005`,`startedAt`:`2026-07-29T00:00"
    ++ ":00.500Z`,`status`:`COMPLETED`}}"));
  ("replay-response.json", btext (
    "{`authoritativeResultFingerprint`:`Odr9l-f5Mhyyx4FAe1Ll3et0e2_CUP3_5eEacrJoyaM`,`authoritativeSt"
    ++ "atus`:`COMPLETED`,`httpStatus`:200,`outcome`:`EXACT_REPLAY`}"));
  ("sign-claim-response.json", btext (
    "{`deadline`:`2026-07-30T00:00:00.000Z`,`httpStatus`:200,`intentId`:`30000000-0000-4000-8000-0000"
    ++ "00000005`,`payload`:{`algorithm`:`ECDSA`,`chain`:`tron:mainnet`,`curve`:`secp256k1`,`derivationC"
    ++ "ontext`:{`accountPath`:`m/44'/195'/0'`,`addressEncoding`:`base58check`,`algorithm`:`ECDSA`,`chai"
    ++ "n`:`tron:mainnet`,`childPath`:`0/0`,`curve`:`secp256k1`,`descriptorVersion`:1,`expectedAddress`:"
    ++ "`TAddress`,`expectedPublicKey`:`0279be667ef9dcbbac55a06295ce870b07029bfcdb2dce28d959f2815b16f817"
    ++ "98`,`fullPath`:`m/44'/195'/0'/0/0`,`keyVersion`:1,`profileId`:`profile-1`,`profileTemplateId`:`t"
    ++ "emplate-1`,`profileVersion`:1,`publicKeyFormat`:`compressed_sec1`,`scheme`:`bip32_secp256k1`},`d"
    ++ "erivationContextHash`:`ctx-hash-1`,`digest`:`qrvM`,`digestType`:`transaction`,`hashAlgorithm`:`s"
    ++ "ha256`,`keyId`:`mpc_key_123e4567-e89b-42d3-a456-426614174004`,`orgId`:`org-123`,`parties`:[`mpc-"
    ++ "signer`,`co-signer-primary`],`partyId`:`co-signer-primary`,`policyContext`:{`amountAtomic`:`100`"
    ++ ",`asset`:`TRX`,`chain`:`tron:mainnet`,`feeLimitSun`:null,`fromAddress`:`TAddress`,`toAddress`:`T"
    ++ "Destination`,`tokenContractCanonical`:null,`tokenDecimals`:null,`tokenStandard`:null},`profileId"
    ++ "`:`profile-1`,`profileTemplateId`:`template-1`,`profileVersion`:1,`signingPayloadType`:`tron-tra"
    ++ "nsaction`,`threshold`:2,`type`:`SIGN`,`walletId`:`40000000-0000-4000-8000-000000000005`},`sessio"
    ++ "n`:{`deadline`:`2026-07-30T00:00:00.000Z`,`executionExpiresAt`:`2026-07-29T00:05:00.500Z`,`sessi"
    ++ "onId`:`20000000-0000-4000-8000-000000000005`,`startedAt`:`2026-07-29T00:00:00.500Z`,`status`:`RU"
    ++ "NNING`},`sessionId`:`20000000-0000-4000-8000-000000000005`,`status`:`CLAIMED`,`type`:`SIGN`}"));
  ("sign-terminal-completed-request.json", btext (
    "{`status`:`COMPLETED`}"));
  ("sign-terminal-failed-request.json", btext (
    "{`errorCode`:`PRIMARY_SIGN_FAILED`,`status`:`FAILED`}"));
  ("sign-terminal-timed-out-local.json", btext (
    "{`status`:`TIMED_OUT`}"));
  ("terminal-completed-request.json", btext (
    "{`terminalResult`:{`intentId`:`30000000-0000-4000-8000-000000000003`,`keyId`:`mpc_key_123e4567-e"
    ++ "89b-42d3-a456-426614174002`,`result`:{`accountPublicKey`:`0279be667ef9dcbbac55a06295ce870b07029b"
    ++ "fcdb2dce28d959f2815b16f81798`,`artifacts`:[{`artifactFingerprint`:`AAAAAAAAAAAAAAAAAAAAAAAAAAAAA"
    ++ "AAAAAAAAAAAAAA`,`partyId`:`co-signer-primary`,`purpose`:`primary`},{`artifactFingerprint`:`AAAAA"
    ++ "AAAAAAAAAAAAAAAAAAAAAAAAAAAAAAAAAAAAAA`,`partyId`:`co-signer-recovery`,`purpose`:`recovery`}],`c"
    ++ "hainCodeHash`:`Zmh6rfhivXdsj8GLjp-OIAiXFIVu4jOzkCpZHQ1fKSU`,`descriptorFingerprint`:`owXeRUkKcta"
    ++ "gs_JkTP2Xq7uiGEFz6riO1ZhW5jsg9tQ`},`resultKind`:`mpc-dkg-terminal-result`,`resultVersion`:1,`ses"
    ++ "sionId`:`20000000-0000-4000-8000-000000000003`,`status`:`COMPLETED`},`terminalResultFingerprint`"
    ++ ":`Odr9l-f5Mhyyx4FAe1Ll3et0e2_CUP3_5eEacrJoyaM`}"));
  ("terminal-failed-request.json", btext (
    "{`terminalResult`:{`intentId`:`30000000-0000-4000-8000-000000000003`,`keyId`:`mpc_key_123e4567-e"
    ++ "89b-42d3-a456-426614174002`,`resultKind`:`mpc-dkg-terminal-result`,`resultVersion`:1,`sessionId`"
    ++ ":`20000000-0000-4000-8000-000000000003`,`status`:`FAILED`},`terminalResultFingerprint`:`UR9pYZ-w"
    ++ "Bq1yCmIE_ENhU4Gzl9W2-2nIBGUn24FJm5s`}"))
].
Definition http_root : Root := root_of http_root_files.
(** The same tree, its entries met in another order. *)
Definition backwards (files : list (string * bytes)) : Root := root_of (reverse files).
(** A tree with one file changed. *)
Definition tampered (files : list (string * bytes)) (path raw : string) : Root :=
  root_of (map (fun f => if f.1 =s path then (path, raw) else f) files).
