(* ===== verification/BundleProofs.v ===== *)
(** The facts about the contract bundles: what an accepted bundle contains, that its pin fixes
    the contents of its files, the bindings between the HTTP fixtures, and the two corpora. *)
From stdpp Require Import base tactics option list strings numbers gmap sorting.
From Stdlib Require Import ZArith Lia Ascii String.
From S2P Require Import Prelude GoText Paths Sha256 Json StrictJson Externals Mpc2of3 ApprovalWire SigningPolicy GoTime RawJson Monolith Bundle BundleFixtures.

#[local] Open Scope string_scope.

(** * Manifests *)

Lemma walk_regular_Ok entries files :
  walk_regular entries = Ok files -> files = entries.*1 /\ Forall (fun e => e.2 = true) entries.
Proof.
  revert files. induction entries as [|[path regular] entries IH]; intros files Hw; cbn in Hw.
  - by inv_ok.
  - destruct regular; [|done]. cbn in Hw. inv_ok. destruct (IH _ H) as [-> Hr].
    split; [done|by constructor].
Qed.

Lemma digest_inj a b : digest a = digest b -> sha256 a = sha256 b.
Proof. apply (b64_encode_inj b64_rawurl b64_rawurl_ok). Qed.
Lemma sha256_hex_inj a b : sha256_hex a = sha256_hex b -> sha256 a = sha256 b.
Proof. apply hex_encode_inj. Qed.

(** The files of a tree are regular and are exactly [paths]. *)
Definition holds_exactly (root : Root) (paths : list string) : Prop :=
  exists entries, WalkDir root = Ok entries /\ Forall (fun e => e.2 = true) entries /\ entries.*1 ≡ₚ paths.
(** Two trees have contents with one SHA-256 digest at a path: one text, or two colliding ones. *)
Definition agree (r1 r2 : Root) (path : string) : Prop :=
  exists a b, ReadFile r1 path = Ok a /\ ReadFile r2 path = Ok b /\ sha256 a = sha256 b.

Section Manifests.
Context `{Externals}.

Lemma verifyManifest_Ok root expected validate manifest files :
  verifyManifest root expected validate = Ok (manifest, files) ->
  ReadFile root "manifest.json" = Ok manifest /\ (exists u, requireCanonicalJCS manifest = Ok u)
  /\ validate manifest = Ok tt /\ holds_exactly root ("manifest.json" :: expected).
Proof.
  unfold verifyManifest, bundleFiles. intros Hv.
  apply bind_Ok in Hv as (raw & Hm & Hv). apply bind_Ok in Hv as (c & Hc & Hv).
  apply bind_Ok in Hv as ([] & Hval & Hv). apply bind_Ok in Hv as (actual & Hf & Hv).
  step_if Hv. injection Hv as -> ->. inv_ok. split_bools.
  match goal with Hw : walk_regular _ = _ |- _ => apply walk_regular_Ok in Hw as [-> Hr] end.
  apply bool_decide_eq_true in E.
  split_and!; [done|destruct (requireCanonicalJCS manifest); by eauto|done|].
  eexists. split_and!; [done|done|].
  etrans; [symmetry; apply sort_strings_perm|]. rewrite E. apply sort_strings_perm.
Qed.

(** Every file of an accepted manifest is read and has its digest. *)
Lemma verify_entries_Ok root entries expected u :
  verify_entries root entries expected = Ok u -> List.length entries = List.length expected ->
  Forall2 (fun e path => mf_Path e = path
                         /\ exists raw, ReadFile root path = Ok raw /\ digest raw = mf_SHA256 e) entries expected.
Proof.
  revert expected. induction entries as [|e entries IH]; intros [|path expected] Hv Hl; try done.
  cbn in Hv. step_if Hv. step_if Hv. inv_ok. step_if Hv. split_bools.
  constructor; [|apply IH; [done|cbn in Hl; lia]]. subst. eauto.
Qed.

(** One list of digests leaves one digest per file. *)
Lemma verifyManifestEntries_pin r1 r2 entries expected u v :
  verifyManifestEntries r1 entries expected = Ok u -> verifyManifestEntries r2 entries expected = Ok v ->
  Forall (agree r1 r2) expected.
Proof.
  unfold verifyManifestEntries. intros H1 H2. step_if H1. apply negb_false_iff, Nat.eqb_eq in E.
  apply verify_entries_Ok in H1; [|done]. apply verify_entries_Ok in H2; [|done]. clear E u v.
  revert H2. induction H1 as [|e path entries expected [Hp (raw & Hr & Hd)] _ IH]; intros H2; [constructor|].
  inversion H2 as [|? ? ? ? [_ (raw' & Hr' & Hd')] H2' ]; subst.
  constructor; [|by apply IH]. exists raw, raw'. split_and!; [done|done|]. apply digest_inj. congruence.
Qed.

End Manifests.

(** * The pins *)

Section Pins.
Context `{Externals} `{TxCodecs}.

(** A bundle's verifier and the paths of its files. *)
Inductive bundle_verifier : (Root -> res string) -> list string -> Prop :=
  | signer_verifier : bundle_verifier VerifySignerBundle signerPaths
  | http_verifier : bundle_verifier VerifyHTTPBundle httpPaths
  | approval_verifier key_of_seed : bundle_verifier (VerifyApprovalBundle key_of_seed) ["vectors.json"].

Lemma decodeClosed_Ok {A} (decode : json -> option A) raw expected (a b : A) :
  decodeClosed decode raw expected = Ok a -> decodeClosed decode raw expected = Ok b -> a = b.
Proof. congruence. Qed.

(** What the three verifiers share: a manifest under a pin, whose validation fixes the
    digests of the files. *)
Definition pinned (pin : string) (paths : list string) (ok : Root -> bytes -> res unit) (root : Root) : Prop :=
  exists manifest files, verifyManifest root paths (ok root) = Ok (manifest, files) /\ digest manifest = pin.
Definition fixes (ok : Root -> bytes -> res unit) (paths : list string) : Prop :=
  forall r1 r2 manifest, ok r1 manifest = Ok tt -> ok r2 manifest = Ok tt -> Forall (agree r1 r2) paths.

Lemma signer_manifest_fixes : fixes signer_manifest_ok signerPaths.
Proof.
  unfold fixes, signer_manifest_ok. intros r1 r2 manifest H1 H2. inv_ok. step_if H1. step_if H2.
  assert (x0 = x) as -> by congruence. by eapply verifyManifestEntries_pin.
Qed.
Lemma http_manifest_fixes : fixes http_manifest_ok httpPaths.
Proof.
  unfold fixes, http_manifest_ok. intros r1 r2 manifest H1 H2. inv_ok. step_if H1. step_if H2.
  assert (x0 = x) as -> by congruence. by eapply verifyManifestEntries_pin.
Qed.
Lemma approval_manifest_fixes : fixes approval_manifest_ok ["vectors.json"].
Proof.
  unfold fixes, approval_manifest_ok. intros r1 r2 manifest H1 H2.
  apply bind_Ok in H1 as (m & Hm & H1). apply bind_Ok in H2 as (m' & Hm' & H2).
  assert (m' = m) as -> by congruence. inv_ok. step_if H1. step_if H1. inv_ok. split_bools.
  constructor; [|constructor]. do 2 eexists. split_and!; [eassumption..|]. apply sha256_hex_inj. congruence.
Qed.

Lemma verifier_pinned verify paths : bundle_verifier verify paths ->
  exists pin ok, fixes ok paths
  /\ forall root identity, verify root = Ok identity -> identity = pin /\ pinned pin paths ok root.
Proof.
  intros [| |key].
  - exists expectedSignerBundleIdentity, signer_manifest_ok. split; [apply signer_manifest_fixes|].
    unfold VerifySignerBundle. intros root identity Hv. apply bind_Ok in Hv as ([m files] & Hm & Hv). step_if Hv.
    inv_ok. split_bools. split; [done|]. by exists m, files.
  - exists expectedHTTPBundleIdentity, http_manifest_ok. split; [apply http_manifest_fixes|].
    unfold VerifyHTTPBundle. intros root identity Hv. apply bind_Ok in Hv as ([m files] & Hm & Hv). step_if Hv.
    inv_ok. split_bools. split; [done|]. by exists m, files.
  - exists expectedApprovalBundleIdentity, approval_manifest_ok. split; [apply approval_manifest_fixes|].
    unfold VerifyApprovalBundle. intros root identity Hv. apply bind_Ok in Hv as ([m files] & Hm & Hv). step_if Hv.
    inv_ok. split_bools. split; [done|]. by exists m, files.
Qed.

(** (C34) The pins fix the fixtures.  Of any two trees a bundle's verifier accepts, both hold
    exactly the manifest and the bundle's files, all regular; their manifests have one SHA-256
    digest; and when the manifests are equal every file has one SHA-256 digest in both.  So a
    tree that differs from an accepted one and is accepted too exhibits a SHA-256 collision. *)
Theorem bundles_pinned verify paths r1 r2 i1 i2 :
  bundle_verifier verify paths -> verify r1 = Ok i1 -> verify r2 = Ok i2 ->
  i1 = i2
  /\ holds_exactly r1 ("manifest.json" :: paths) /\ holds_exactly r2 ("manifest.json" :: paths)
  /\ agree r1 r2 "manifest.json"
  /\ (ReadFile r1 "manifest.json" = ReadFile r2 "manifest.json" -> Forall (agree r1 r2) paths).
Proof.
  intros Hb H1 H2. destruct (verifier_pinned _ _ Hb) as (pin & ok & Hfix & Hpin).
  destruct (Hpin _ _ H1) as [-> (m1 & f1 & Hm1 & Hd1)]. destruct (Hpin _ _ H2) as [-> (m2 & f2 & Hm2 & Hd2)].
  apply verifyManifest_Ok in Hm1 as (Hr1 & _ & Hok1 & Hex1). apply verifyManifest_Ok in Hm2 as (Hr2 & _ & Hok2 & Hex2).
  split_and!; try done.
  - exists m1, m2. split_and!; [done|done|]. apply digest_inj. congruence.
  - intros E. assert (m2 = m1) as -> by congruence. by eapply Hfix.
Qed.
End Pins.

Lemma bundles_pinned_witness :
  VerifySignerBundle signer_root = Ok expectedSignerBundleIdentity
  /\ agree signer_root (backwards signer_root_files) "manifest.json"
  /\ is_ok (VerifySignerBundle (tampered signer_root_files "proto.sha256" "")) = false.
Proof.
  assert (H1 : VerifySignerBundle signer_root = Ok expectedSignerBundleIdentity) by (vm_compute; reflexivity).
  assert (H2 : VerifySignerBundle (backwards signer_root_files) = Ok expectedSignerBundleIdentity)
    by (vm_compute; reflexivity).
  destruct (bundles_pinned _ _ _ _ _ _ signer_verifier H1 H2) as (_ & _ & _ & Ha & _).
  split; [exact H1|split; [exact Ha|vm_compute; reflexivity]].
Defined.

(** * The HTTP fixtures *)

Section Fixtures.
Context `{Externals} `{TxCodecs}.

(** A fixture file as an object of raw members. *)
Definition object_at (root : Root) (name : string) (fields : Object) : Prop :=
  exists raw, ReadFile root name = Ok raw /\ unmarshal_object raw = Some fields.
(** A DKG fixture whose descriptor bytes are the descriptor, its key and its fingerprint. *)
Definition descriptor_bound (f : dkgFixture) : Prop :=
  exists raw fp, b64_decode b64_std false (fx_descriptorBytes f) = Some raw
  /\ ParseCanonicalDescriptor raw = Ok (fx_descriptor f, fp)
  /\ fx_descriptorFingerprint f = digest raw /\ kd_KeyID (fx_descriptor f) = fx_keyID f.
(** A terminal request about the key of a DKG fixture; [fp] is its result's fingerprint. *)
Definition terminal_bound (root : Root) (claim : dkgFixture) (name status fp : string) : Prop :=
  exists fields terminal sum, object_at root name fields
  /\ ParseCanonicalTerminalResult (member fields "terminalResult") = Ok (terminal, sum) /\ fp = digest_String sum
  /\ tr_Status terminal = status /\ tr_IntentID terminal = fx_intentID claim
  /\ tr_SessionID terminal = fx_sessionID claim /\ tr_KeyID terminal = fx_keyID claim
  /\ forall result, tr_Result terminal = Some result ->
       Mpc2of3.cr_DescriptorFingerprint result = fx_descriptorFingerprint claim
       /\ Mpc2of3.cr_ChainCodeHash result = kd_ChainCodeHash (fx_descriptor claim).
(** The backend's answer to a terminal request. *)
Definition answers_with (root : Root) (name outcome status : string) (http : Z) (fp : string) : Prop :=
  exists fields, object_at root name fields /\ integer fields "httpStatus" = http
  /\ stringMust fields "outcome" = outcome /\ stringMust fields "authoritativeStatus" = status
  /\ stringMust fields "authoritativeResultFingerprint" = fp.
(** A DKG fixture is what the members of an object say, with the status announced. *)
Record read_from (fields : Object) (status : string) (f : dkgFixture) : Prop := {
  rf_status : stringMust fields "status" = status;
  rf_intentID : fx_intentID f = stringMust fields "intentId";
  rf_sessionID : fx_sessionID f = stringMust fields "sessionId";
  rf_keyID : fx_keyID f = stringMust fields "keyId";
  rf_orgID : fx_orgID f = stringMust fields "orgId";
  rf_deadline : fx_deadline f = stringMust fields "deadline";
  rf_descriptorBytes : fx_descriptorBytes f = stringMust fields "descriptorBytesBase64";
  rf_descriptorFingerprint : fx_descriptorFingerprint f = stringMust fields "descriptorFingerprint";
}.
(** The listing's answer: the entry of the DKG already claimed, that of the claimed SIGN, and
    those of the two pending intents. *)
Definition listed (root : Root) (own ownSign pending sign : Object) : Prop :=
  exists listing rawOwn rawOwnSign rawPending rawSign, object_at root "listing-response.json" listing
  /\ array listing "ownClaimedDkg" = Ok [rawOwn] /\ array listing "ownClaimedSign" = Ok [rawOwnSign]
  /\ array listing "pending" = Ok [rawPending; rawSign]
  /\ own = objectRaw rawOwn /\ ownSign = objectRaw rawOwnSign /\ pending = objectRaw rawPending /\ sign = objectRaw rawSign.
(** Two objects agree in some members. *)
Definition same_members (a b : Object) (keys : list string) : Prop :=
  Forall (fun key => stringMust a key = stringMust b key) keys.

Lemma readObject_Ok root name expected fields :
  readObject root name expected = Ok fields -> object_at root name fields.
Proof. unfold readObject, object_at. intros Hr. inv_ok. eauto. Qed.

Lemma parseStandardBase64_Ok value n raw : parseStandardBase64 value n = Ok raw ->
  b64_decode b64_std false value = Some raw /\ (forall k, n = Some k -> zlen raw = k).
Proof.
  unfold parseStandardBase64. intros Hp. inv_ok. split_bools. split; [done|]. intros k ->. by split_bools.
Qed.

Lemma descriptorFixture_bound fields created f deadline :
  descriptorFixture fields created = Ok f -> descriptor_bound (with_deadline f deadline).
Proof.
  unfold descriptorFixture. intros Hf. apply bind_Ok in Hf as ([] & _ & Hf).
  apply bind_Ok in Hf as (raw & Hraw & Hf). apply bind_Ok in Hf as ([d fp] & Hd & Hf). inv_ok. split_bools.
  apply parseStandardBase64_Ok in Hraw as [Hraw _]. exists raw, fp. cbn. split_and!; try done.
  by destruct (ParseCanonicalDescriptor_facts _ _ _ Hd) as (_ & _ & _ & _ & _ & _ & _ & _ & _ & _ & -> & _).
Qed.
Lemma descriptorFixture_reads fields created f : descriptorFixture fields created = Ok f ->
  read_from fields (stringMust fields "status") (with_deadline f (stringMust fields "deadline")).
Proof.
  unfold descriptorFixture. intros Hf. apply bind_Ok in Hf as ([] & _ & Hf).
  apply bind_Ok in Hf as (raw & Hraw & Hf). apply bind_Ok in Hf as ([d fp] & Hd & Hf). inv_ok. split_bools. by split.
Qed.
Lemma parseDKG_bound fields status f : parseDKG fields status = Ok f -> descriptor_bound f /\ read_from fields status f.
Proof.
  unfold parseDKG. intros Hf. inv_ok. split_bools. split; [by eapply descriptorFixture_bound|].
  match goal with Hs : stringMust fields "status" = status |- _ => rewrite <- Hs end. by eapply descriptorFixture_reads.
Qed.
Lemma parseClaim_bound fields f : parseClaim fields = Ok f ->
  descriptor_bound f /\ read_from fields (stringMust fields "status") f.
Proof.
  unfold parseClaim. intros Hf. inv_ok. split; [by eapply descriptorFixture_bound|by eapply descriptorFixture_reads].
Qed.
Lemma parseOwnedSign_reads fields f : parseOwnedSign fields = Ok f -> f = {|
  sf_intentID := stringMust fields "intentId"; sf_sessionID := stringMust fields "sessionId";
  sf_keyID := stringMust fields "keyId"; sf_orgID := stringMust fields "orgId"; sf_deadline := stringMust fields "deadline" |}.
Proof. unfold parseOwnedSign. intros Hf. by inv_ok. Qed.

Lemma verify_listing_bound root claimed pending claimedSign :
  verify_listing root = Ok (claimed, pending, claimedSign) ->
  exists own ownSign entry sign, listed root own ownSign entry sign
  /\ descriptor_bound claimed /\ read_from own "CLAIMED" claimed
  /\ descriptor_bound pending /\ read_from entry "PENDING" pending
  /\ parseOwnedSign ownSign = Ok claimedSign
  /\ fx_intentID claimed <> fx_intentID pending /\ fx_sessionID claimed <> fx_sessionID pending
  /\ fx_keyID claimed <> fx_keyID pending.
Proof.
  unfold verify_listing. intros Hl. apply bind_Ok in Hl as (listing & Hread & Hl). apply bind_Ok in Hl as ([] & _ & Hl).
  apply bind_Ok in Hl as (own & Hown & Hl). apply bind_Ok in Hl as (ownSign & Hsign & Hl).
  apply bind_Ok in Hl as (entries & Hpending & Hl). do 7 step_if Hl. inv_ok. split_bools. apply readObject_Ok in Hread.
  repeat match goal with Hp : parseDKG _ _ = Ok _ |- _ => apply parseDKG_bound in Hp as [? ?] end.
  do 4 eexists. split_and!; try done. by do 5 eexists.
Qed.

Definition same_fields (a b : dkgFixture) : Prop :=
  fx_intentID a = fx_intentID b /\ fx_sessionID a = fx_sessionID b /\ fx_keyID a = fx_keyID b
  /\ fx_orgID a = fx_orgID b /\ fx_deadline a = fx_deadline b
  /\ fx_descriptor a = fx_descriptor b /\ fx_descriptorFingerprint a = fx_descriptorFingerprint b.
Lemma same_dkg_fields a b : descriptor_bound a -> descriptor_bound b -> same_dkg a b = true -> same_fields a b.
Proof.
  intros (raw & fp & Hraw & Hd & _) (raw' & fp' & Hraw' & Hd' & _) Hs. unfold same_dkg in Hs. split_bools.
  assert (raw' = raw) as -> by congruence. unfold same_fields. split_and!; congruence.
Qed.

Lemma verify_claim_bound root pending claim : descriptor_bound pending -> verify_claim root pending = Ok claim ->
  descriptor_bound claim /\ same_fields claim pending
  /\ exists fields chain, object_at root "claim-response.json" fields /\ read_from fields "CLAIMED" claim
     /\ b64_decode b64_std false (stringMust fields "chainCodeBase64") = Some chain /\ zlen chain = 32%Z
     /\ digest chain = kd_ChainCodeHash (fx_descriptor claim).
Proof.
  intros Hp. unfold verify_claim. intros Hc. apply bind_Ok in Hc as (fields & Hf & Hc).
  apply bind_Ok in Hc as ([] & Hst & Hc). apply bind_Ok in Hc as (c & Hclaim & Hc).
  apply bind_Ok in Hc as ([] & Hs & Hc). apply bind_Ok in Hc as (chain & Hchain & Hc). inv_ok. split_bools.
  apply parseClaim_bound in Hclaim as [Hb Hr]. apply readObject_Ok in Hf. split_and!; [done|by apply same_dkg_fields|].
  destruct (parseStandardBase64 _ _) eqn:E; [|done]. injection Hchain as ->.
  apply parseStandardBase64_Ok in E as [E Hn]. exists fields, chain. split_and!; try done; [|by apply Hn].
  match goal with Hs' : stringMust fields "status" = _ |- _ => by rewrite Hs' in Hr end.
Qed.

Lemma verify_claim_same root pending claim : verify_claim root pending = Ok claim ->
  fx_descriptorBytes claim = fx_descriptorBytes pending /\ fx_descriptorFingerprint claim = fx_descriptorFingerprint pending.
Proof.
  unfold verify_claim. intros Hc. do 3 apply bind_Ok in Hc as (? & _ & Hc). apply bind_Ok in Hc as ([] & Hs & Hc).
  inv_ok. unfold same_dkg in Hs. split_bools. done.
Qed.

Lemma verify_terminal_bound root claim name status fp :
  verify_terminal root claim name status = Ok fp -> terminal_bound root claim name status fp.
Proof.
  unfold verify_terminal. intros Hv. apply bind_Ok in Hv as (fields & Hf & Hv).
  apply bind_Ok in Hv as ([terminal sum] & Ht & Hv). inv_ok. split_bools. apply readObject_Ok in Hf.
  exists fields, terminal, sum. split_and!; try done. intros result Hr. rewrite Hr in *. by split_bools.
Qed.
Lemma verify_response_answers root name outcome status http fp u :
  verify_response root name outcome status http fp = Ok u -> answers_with root name outcome status http fp.
Proof.
  unfold verify_response. intros Hv. inv_ok. split_bools.
  match goal with Hr : readObject _ _ _ = _ |- _ => apply readObject_Ok in Hr end. eexists. by split_and!.
Qed.

(** The claimed SIGN is claimed again under the identity that the listing gave it. *)
Lemma validateSignClaim_same fields own f u : parseOwnedSign own = Ok f -> validateSignClaim fields f = Ok u ->
  same_members fields own ["intentId"; "sessionId"; "deadline"].
Proof.
  intros ->%parseOwnedSign_reads Hv. unfold validateSignClaim in Hv. apply bind_Ok in Hv as (? & _ & Hv).
  apply bind_Ok in Hv as (? & _ & Hv). apply bind_Ok in Hv as (? & He & _). inv_ok. split_bools. cbn in *.
  by repeat apply Forall_cons_2.
Qed.

(** (C35) The accepted HTTP fixtures describe one key generation.  The claim answer read from
    claim-response.json agrees with the first pending entry of listing-response.json in
    intent, session, key, organization, deadline, descriptor and fingerprint, and is another
    intent, session and key than the listing's DKG already claimed; the SIGN claim answer
    names the intent, session and deadline of the listing's claimed SIGN; the descriptor is the
    canonical one behind the fingerprint and names the key; the chain code is 32 bytes behind
    the descriptor's hash; the completed and the failed terminal request are about the claimed intent, session and key, a result carrying the descriptor's
    fingerprint and chain-code hash; the acceptance and the replay answer with the completed
    result's fingerprint and the conflict with the failed one's; and the mailbox frame is a
    co-signer party's own, of the claimed session. *)
Theorem HTTP_fixtures_bound root u :
  verifyHTTPFixtures root = Ok u ->
  exists own ownSign entry sign claimFields claimed pending claim completed failed,
    listed root own ownSign entry sign /\ object_at root "claim-response.json" claimFields
    /\ read_from own "CLAIMED" claimed /\ read_from entry "PENDING" pending /\ read_from claimFields "CLAIMED" claim
    /\ descriptor_bound claimed /\ descriptor_bound pending /\ descriptor_bound claim
    /\ fx_intentID claimed <> fx_intentID claim /\ fx_sessionID claimed <> fx_sessionID claim
    /\ fx_keyID claimed <> fx_keyID claim /\ same_fields claim pending
    /\ same_members claimFields entry
         ["intentId"; "sessionId"; "keyId"; "orgId"; "deadline"; "descriptorBytesBase64"; "descriptorFingerprint"]
    /\ (exists fields, object_at root "sign-claim-response.json" fields
        /\ same_members fields ownSign ["intentId"; "sessionId"; "deadline"])
    /\ (exists chain, b64_decode b64_std false (stringMust claimFields "chainCodeBase64") = Some chain
        /\ zlen chain = 32%Z /\ digest chain = kd_ChainCodeHash (fx_descriptor claim))
    /\ terminal_bound root claim "terminal-completed-request.json" "COMPLETED" completed
    /\ terminal_bound root claim "terminal-failed-request.json" "FAILED" failed
    /\ answers_with root "accepted-response.json" "ACCEPTED" "COMPLETED" 200 completed
    /\ answers_with root "replay-response.json" "EXACT_REPLAY" "COMPLETED" 200 completed
    /\ answers_with root "conflict-response.json" "TERMINAL_CONFLICT" "FAILED" 409 failed
    /\ exists frame, object_at root "mailbox-frame.json" frame
       /\ stringMust frame "intentId" = fx_intentID claim /\ stringMust frame "sessionId" = fx_sessionID claim
       /\ stringMust frame "authenticatedPartyId" = stringMust frame "fromPartyId"
       /\ (stringMust frame "fromPartyId" = "co-signer-primary" \/ stringMust frame "fromPartyId" = "co-signer-recovery").
Proof.
  unfold verifyHTTPFixtures. intros Hv. apply bind_Ok in Hv as ([[claimed pending] claimedSign] & Hl & Hv).
  apply bind_Ok in Hv as (claim & Hc & Hv). apply bind_Ok in Hv as (signClaim & Hsc & Hv).
  apply bind_Ok in Hv as (? & Hsv & Hv). do 2 apply bind_Ok in Hv as (? & _ & Hv).
  apply bind_Ok in Hv as ([] & _ & Hv).
  apply bind_Ok in Hv as (completed & Hco & Hv). apply bind_Ok in Hv as (failed & Hfa & Hv).
  apply bind_Ok in Hv as (? & Ha & Hv). apply bind_Ok in Hv as (? & Hr & Hv). apply bind_Ok in Hv as (? & Hk & Hv).
  apply bind_Ok in Hv as (frame & Hframe & Hv).
  apply verify_listing_bound in Hl as (own & ownSign & entry & sign & Hlist & Hb1 & Hr1 & Hb2 & Hr2 & Hos & Hi & Hs & Hkey).
  destruct (verify_claim_bound _ _ _ Hb2 Hc) as (Hb3 & Hsame & claimFields & chain & Hcf & Hr3 & Hchain & Hlen & Hdig).
  pose proof Hsame as (Ei & Es & Ek & Eo & Ed & _ & _).
  assert (Hbytes : fx_descriptorBytes claim = fx_descriptorBytes pending
                   /\ fx_descriptorFingerprint claim = fx_descriptorFingerprint pending) by (by eapply verify_claim_same).
  destruct Hbytes as [Eb Ef]. apply readObject_Ok in Hsc.
  exists own, ownSign, entry, sign, claimFields, claimed, pending, claim, completed, failed.
  split_and!; try done; try congruence.
  - destruct Hr2, Hr3. repeat apply Forall_cons_2; try apply Forall_nil_2; congruence.
  - exists signClaim. split; [done|]. by eapply validateSignClaim_same.
  - by exists chain.
  - by apply verify_terminal_bound.
  - by apply verify_terminal_bound.
  - by eapply verify_response_answers.
  - by eapply verify_response_answers.
  - by eapply verify_response_answers.
  - apply readObject_Ok in Hframe. exists frame. split; [done|].
    unfold validateMailbox in Hv. repeat (apply bind_Ok in Hv as (? & ? & Hv)). inv_ok. split_bools.
    split_and!; try done.
    match goal with E : (_ || _) = true |- _ => apply orb_true_iff in E as [E|E]; split_bools; [left|right]; congruence end.
Qed.
End Fixtures.

(** The repository's own fixtures pass, so the bindings hold of them. *)
Lemma HTTP_fixtures_bound_witness :
  VerifyHTTPBundle http_root = Ok expectedHTTPBundleIdentity
  /\ exists own ownSign entry sign claimFields, listed http_root own ownSign entry sign
     /\ object_at http_root "claim-response.json" claimFields
     /\ same_members claimFields entry
          ["intentId"; "sessionId"; "keyId"; "orgId"; "deadline"; "descriptorBytesBase64"; "descriptorFingerprint"].
Proof.
  split; [vm_compute; reflexivity|].
  assert (Hv : verifyHTTPFixtures http_root = Ok tt) by (vm_compute; reflexivity).
  destruct (HTTP_fixtures_bound http_root tt Hv)
    as (own & ownSign & entry & sign & claimFields & _ & _ & _ & _ & _ & Hl & Ho & _ & _ & _ & _ & _ & _ & _ & _ & _ & _ & Hm & _).
  exists own, ownSign, entry, sign, claimFields. exact (conj Hl (conj Ho Hm)).
Defined.

(** * The corpora *)

Section Corpora.
Context `{Externals} `{TxCodecs}.

(** An item of the prepared corpus: its identity, and a verdict that is the one it announces. *)
Definition prepared_item (item : bytes) (identity : string * bool) : Prop :=
  decode_identity item = Some identity /\ accepts_prepared item = identity.2.
Definition positives (ids : list (string * bool)) : nat := List.length (List.filter snd ids).

Lemma check_prepared_spec items seen n m :
  check_prepared items seen n = Ok m
  <-> exists ids, Forall2 prepared_item items ids /\ NoDup ids.*1 /\ "" ∉ ids.*1
      /\ Forall (fun id => id ∉ seen) ids.*1 /\ (m = n + positives ids)%nat.
Proof.
  revert seen n. induction items as [|item items IH]; intros seen n; cbn [check_prepared].
  - split; [intros [= <-]; exists []; unfold positives; cbn; split_and!; try constructor; [set_solver|lia]|].
    intros (ids & Hf & _ & _ & _ & ->). inversion Hf. subst. unfold positives. cbn. f_equal. lia.
  - rewrite bind_Ok. split.
    + intros ([id valid] & Hid & Hc). cbn in Hc. inv_ok. split_bools. apply IH in Hc as (ids & Hf & Hnd & Hne & Hseen & ->).
      exists ((id, valid) :: ids). unfold positives. cbn. split_and!.
      * constructor; [|done]. split; [done|]. cbn. by apply eqb_prop.
      * constructor; [|done]. intros Hin. rewrite Forall_forall in Hseen. specialize (Hseen _ Hin). set_solver.
      * rewrite not_elem_of_cons. done.
      * constructor; [done|]. eapply Forall_impl; [done|]. cbn. set_solver.
      * destruct valid; cbn; lia.
    + intros (ids & Hf & Hnd & Hne & Hseen & ->).
      inversion Hf as [|? [id valid] ? ids' [Hid Hacc] Hf']; subst. cbn in *.
      apply NoDup_cons in Hnd as [Hnin Hnd]. apply not_elem_of_cons in Hne as [Hne Hnes].
      apply Forall_cons in Hseen as [Hs Hseen]. rewrite Hid, Hacc. exists (id, valid). split; [done|]. cbn.
      assert ((id =s "") = false) as -> by (by apply String.eqb_neq). rewrite bool_decide_eq_false_2 by done.
      cbn. rewrite eqb_reflx. cbn. apply IH. exists ids'. split_and!; try done.
      * rewrite Forall_forall in *. intros x Hx. specialize (Hseen _ Hx).
        intros [->%elem_of_singleton|]%elem_of_union; done.
      * unfold positives. cbn. destruct valid; cbn; lia.
Qed.

(** A prepared corpus passes exactly when it is a non-empty JSON array without duplicate
    keys whose items have distinct non-empty identifiers and behave as they announce: the
    strict decoder and the transfer verifier accept an item if and only if it is marked valid,
    and exactly eight are. *)
Theorem VerifyPreparedCorpus_spec raw :
  VerifyPreparedCorpus raw = Ok tt
  <-> exists items ids, (exists u, rejectDuplicateKeys raw = Ok u) /\ unmarshal_array raw = Some items /\ items <> []
      /\ Forall2 prepared_item items ids /\ NoDup ids.*1 /\ "" ∉ ids.*1 /\ positives ids = 8%nat.
Proof.
  unfold VerifyPreparedCorpus. rewrite bind_Ok. split.
  - intros (u & Hd & Hv). inv_ok. destruct (rejectDuplicateKeys raw) eqn:Hr; [|done].
    match goal with Hc : check_prepared _ _ _ = _ |- _ =>
      apply check_prepared_spec in Hc as (ids & Hf & Hnd & Hne & _ & Hn) end.
    apply Nat.eqb_eq in Hv. exists x, ids. split_and!; eauto; [by destruct x|lia].
  - intros (items & ids & [u Hr] & Ha & Hi & Hf & Hnd & Hne & Hp). exists tt. rewrite Hr, Ha. split; [done|]. cbn.
    destruct items as [|item items]; [done|]. cbn [List.length Nat.ltb Nat.leb ensure mbind res_bind].
    rewrite bind_Ok. exists 8%nat. split; [|done]. apply check_prepared_spec. exists ids.
    split_and!; try done. apply Forall_forall. intros x Hx. set_solver.
Qed.

(** A vector of the approval corpus: its input has the announced digest, and the decoders
    accept it exactly when it announces so; cursors are the backend's own. *)
Definition vector_behaves (public rawVector : bytes) (v : Vector) : Prop :=
  decode_Vector rawVector = Some v /\ ve_ID v <> ""
  /\ (exists input, standardBase64 (ve_InputBase64 v) None = Ok input /\ hash input = ve_InputSHA256 v)
  /\ (ve_Expected v = "ACCEPT" \/ ve_Expected v = "REJECT")
  /\ (ve_Kind v = "cursor" \/ (is_ok (VerifyVector v public) = true <-> ve_Expected v = "ACCEPT")).

Lemma check_vector_Ok public rawVector seen id : check_vector public rawVector seen = Ok id ->
  exists v, vector_behaves public rawVector v /\ ve_ID v = id /\ id ∉ seen.
Proof.
  unfold check_vector. intros Hc. apply bind_Ok in Hc as (fields & _ & Hc). apply bind_Ok in Hc as ([] & _ & Hc).
  apply bind_Ok in Hc as (v & Hv & Hc). apply bind_Ok in Hc as ([] & He & Hc).
  apply bind_Ok in Hc as (input & Hi & Hc). inv_ok. split_bools.
  destruct (standardBase64 _ _) as [input'|] eqn:Hs; [|done]. injection Hi as ->. exists v. split_and!; try done.
  unfold vector_behaves. split_and!; try done; [by eauto| |].
  - match goal with E : ((_ =s "ACCEPT") || _) = true |- _ => apply orb_true_iff in E as [E|E]; split_bools; auto end.
  - match goal with E : ((_ =s "cursor") || _) = true |- _ => apply orb_true_iff in E as [Hk|Hk]; split_bools; [by left|right] end.
    apply eqb_prop in Hk. rewrite Hk. apply String.eqb_eq.
Qed.
Lemma check_vectors_Ok public vectors seen all : check_vectors public vectors seen = Ok all ->
  exists vs, Forall2 (vector_behaves public) vectors vs /\ NoDup (ve_ID <$> vs)
  /\ Forall (fun id => id ∉ seen) (ve_ID <$> vs) /\ all = list_to_set (ve_ID <$> vs) ∪ seen.
Proof.
  revert seen. induction vectors as [|raw vectors IH]; intros seen Hc; cbn in Hc.
  - inv_ok. exists []. cbn. split_and!; try constructor. set_solver.
  - apply bind_Ok in Hc as (id & Hv & Hc). apply check_vector_Ok in Hv as (v & Hv & <- & Hn).
    apply IH in Hc as (vs & Hf & Hnd & Hseen & ->). exists (v :: vs). cbn. rewrite Forall_forall in Hseen.
    split_and!; [by constructor| | |set_solver].
    + constructor; [|done]. intros Hin. specialize (Hseen _ Hin). set_solver.
    + constructor; [done|]. apply Forall_forall. intros x Hx. specialize (Hseen _ Hx). set_solver.
Qed.

(** An accepted approval corpus has at least forty vectors with distinct identifiers, the
    required ones among them, all intact and behaving as announced under its public key, which
    is the one of its published seed. *)
Theorem VerifyCorpus_sound key_of_seed raw u :
  VerifyCorpus key_of_seed raw = Ok u ->
  exists seed vectors vs, String.length seed = 32%nat /\ (40 <= List.length vectors)%nat
  /\ Forall2 (vector_behaves (str_drop 32 (key_of_seed seed))) vectors vs /\ NoDup (ve_ID <$> vs)
  /\ forall id, id ∈ required_vectors -> id ∈ ve_ID <$> vs.
Proof.
  unfold VerifyCorpus, hexSeed. intros Hv. repeat (apply bind_Ok in Hv as (? & ? & Hv)). inv_ok. split_bools.
  match goal with Hc : check_vectors _ _ _ = _ |- _ => apply check_vectors_Ok in Hc as (vs & Hf & Hnd & _ & ->) end.
  match goal with E : str_drop 32 _ = _ |- _ => rewrite <- E in Hf end.
  do 3 eexists. split_and!; [| |exact Hf|done|].
  - match goal with E : (zlen _ = 32)%Z |- _ => unfold zlen in E; lia end.
  - match goal with E : (40 <=? _)%nat = true |- _ => by apply Nat.leb_le in E end.
  - intros id Hid. rewrite forallb_forall in Hv. specialize (Hv _ (proj1 (list_elem_of_In _ _) Hid)).
    apply bool_decide_eq_true in Hv. set_solver.
Qed.
End Corpora.
