(* ===== verification/ShareStore.v ===== *)
(** [internal/sharestore]: the two stores of encrypted key-share artifacts.  A store is
    bound to one purpose, one directory and one key; an artifact is a canonical JSON
    envelope around an AES-GCM sealed payload, published without replacing a file.
    [ActivePair] is the registration that tells the MPC core's share writer which
    session, key and descriptor a share belongs to. *)
From stdpp Require Import base tactics option list strings numbers gmap relations.
From Stdlib Require Import ZArith Lia Ascii String.
From S2P Require Import Prelude GoText Paths Sha256 Json StrictJson Externals Mpc2of3 FileSystem.

#[local] Open Scope string_scope.

(** * config.go *)

Definition StorePurposePrimary := "primary".
Definition StorePurposeRecovery := "recovery".
Definition primaryPartyID := "co-signer-primary".
Definition recoveryPartyID := "co-signer-recovery".
Definition maxBindingIdentifierBytes : Z := 255.

(** [KeyProvider]; [kp_object] is its identity, which pointers compare. *)
Record KeyProvider := { kp_object : Z; kp_key : bytes; kp_keyRef : string }.
Record StoreConfig := { sc_purpose : string; sc_directory : string; sc_keyProvider : KeyProvider }.

Definition partyIDForPurpose (purpose : string) : res string :=
  if purpose =s StorePurposePrimary then Ok primaryPartyID
  else if purpose =s StorePurposeRecovery then Ok recoveryPartyID
  else Fail (ENew "unsupported store purpose").

Definition sc_PartyID (c : StoreConfig) : string :=
  match partyIDForPurpose (sc_purpose c) with Ok p => p | Fail _ => "" end.
Definition sc_KeyRef (c : StoreConfig) : string := kp_keyRef (sc_keyProvider c).

Definition validateBindingIdentifier (value : string) : res unit :=
  if (value =s "") || (maxBindingIdentifierBytes <? zlen value)%Z || (trim_space value <>s value)
     || str_exists (fun c => (code c <? 32)%N || (126 <? code c)%N) value
  then Fail (ENew "identifier must be a nonempty bounded printable ASCII identifier")
  else Ok ().

(** [NewKeyProvider]: the object is allocated at [object]. *)
Definition NewKeyProvider (object : Z) (encodedKey keyRef : string) : res KeyProvider :=
  _ ← validateBindingIdentifier keyRef;
  decoded ← of_option (b64_decode b64_std true encodedKey)
              (ENew "share encryption key must be canonical standard base64");
  _ ← ensure (b64_encode b64_std decoded =s encodedKey)
        (ENew "share encryption key must be canonical standard base64");
  _ ← ensure (zlen decoded =? 32)%Z (ENew "share encryption key must decode to 32 bytes");
  Ok {| kp_object := object; kp_key := decoded; kp_keyRef := keyRef |}.

Definition NewStoreConfig (purpose directory : string) (keyProvider : option KeyProvider) : res StoreConfig :=
  keyProvider ← of_option keyProvider (ENew "share encryption key provider is required");
  _ ← ensure (kp_keyRef keyProvider <>s "") (ENew "share encryption key provider is required");
  _ ← partyIDForPurpose purpose;
  let directory := Clean (trim_space directory) in
  _ ← ensure (IsAbs directory) (ENew "store directory must be absolute");
  _ ← ensure (directory <>s "/") (ENew "store directory must not be filesystem root");
  Ok {| sc_purpose := purpose; sc_directory := directory; sc_keyProvider := keyProvider |}.

Definition isWithin (path parent : string) : bool :=
  let relative := Rel parent path in
  (relative =s ".") || ((relative <>s "..") && negb (has_prefix "../" relative)).
Definition pathsOverlap (first second : string) : bool :=
  (first =s second) || isWithin first second || isWithin second first.

Definition ValidateStorePair (primary recovery : StoreConfig) : res unit :=
  if (sc_purpose primary <>s StorePurposePrimary) || (sc_purpose recovery <>s StorePurposeRecovery)
  then Fail (ENew "store pair must contain primary and recovery profiles")
  else if negb (kp_object (sc_keyProvider primary) =? kp_object (sc_keyProvider recovery))%Z
  then Fail (ENew "primary and recovery stores must share one key provider")
  else if pathsOverlap (sc_directory primary) (sc_directory recovery)
  then Fail (ENew "primary and recovery store directories must be distinct and non-overlapping")
  else Ok ().

(** * artifact.go: the codec *)

Definition artifactVersion : Z := 1.
Definition artifactPayloadVersion : Z := 1.
Definition artifactEncryption := "AES-256-GCM".
Definition artifactNonceBytes : Z := 12.
Definition artifactTagBytes : Z := 16.
Definition maxArtifactEnvelopeBytes : Z := 16 * 2 ^ 20.
Definition maxArtifactCipherBytes : Z := 12 * 2 ^ 20.
Definition maxArtifactPayloadBytes : Z := 8 * 2 ^ 20.

Definition canonicalKeyIDPattern : string -> bool := keyIDPattern.

Record artifactEncryptionV1 := {
  ae_Algorithm : string; ae_KeyRef : string; ae_Nonce : string; ae_Ciphertext : string; ae_Tag : string;
}.
Record artifactEnvelopeV1 := { env_Version : Z; env_Encryption : artifactEncryptionV1 }.
Record artifactPayloadV1 := {
  ap_ArtifactPayloadVersion : Z; ap_SessionID : string; ap_PartyID : string;
  ap_DescriptorBytesBase64 : string; ap_ShareBlob : string;
}.

Definition encryption_json (e : artifactEncryptionV1) : json :=
  JObj [("algorithm", JStr (ae_Algorithm e)); ("keyRef", JStr (ae_KeyRef e)); ("nonce", JStr (ae_Nonce e));
        ("ciphertext", JStr (ae_Ciphertext e)); ("tag", JStr (ae_Tag e))].
Definition envelope_json (e : artifactEnvelopeV1) : json :=
  JObj [("version", jint (env_Version e)); ("encryption", encryption_json (env_Encryption e))].
Definition payload_json (p : artifactPayloadV1) : json :=
  JObj [("artifactPayloadVersion", jint (ap_ArtifactPayloadVersion p)); ("sessionId", JStr (ap_SessionID p));
        ("partyId", JStr (ap_PartyID p)); ("descriptorBytesBase64", JStr (ap_DescriptorBytesBase64 p));
        ("shareBlob", JStr (ap_ShareBlob p))].

Definition set_encryption : list (string * setter artifactEncryptionV1) :=
  [("algorithm", set_string (fun s '(Build_artifactEncryptionV1 _ b c d e) => Build_artifactEncryptionV1 s b c d e));
   ("keyRef", set_string (fun s '(Build_artifactEncryptionV1 a _ c d e) => Build_artifactEncryptionV1 a s c d e));
   ("nonce", set_string (fun s '(Build_artifactEncryptionV1 a b _ d e) => Build_artifactEncryptionV1 a b s d e));
   ("ciphertext", set_string (fun s '(Build_artifactEncryptionV1 a b c _ e) => Build_artifactEncryptionV1 a b c s e));
   ("tag", set_string (fun s '(Build_artifactEncryptionV1 a b c d _) => Build_artifactEncryptionV1 a b c d s))].
Definition decode_envelope : json -> option artifactEnvelopeV1 :=
  decode_struct
    [("version", set_int (fun s '(Build_artifactEnvelopeV1 _ b) => Build_artifactEnvelopeV1 s b));
     ("encryption", fun v a =>
        e ← decode_struct set_encryption (env_Encryption a) v; Some (Build_artifactEnvelopeV1 (env_Version a) e))]
    (Build_artifactEnvelopeV1 0 (Build_artifactEncryptionV1 "" "" "" "" "")).
Definition decode_payload : json -> option artifactPayloadV1 :=
  decode_struct
    [("artifactPayloadVersion", set_int (fun s '(Build_artifactPayloadV1 _ b c d e) => Build_artifactPayloadV1 s b c d e));
     ("sessionId", set_string (fun s '(Build_artifactPayloadV1 a _ c d e) => Build_artifactPayloadV1 a s c d e));
     ("partyId", set_string (fun s '(Build_artifactPayloadV1 a b _ d e) => Build_artifactPayloadV1 a b s d e));
     ("descriptorBytesBase64", set_string (fun s '(Build_artifactPayloadV1 a b c _ e) => Build_artifactPayloadV1 a b c s e));
     ("shareBlob", set_string (fun s '(Build_artifactPayloadV1 a b c d _) => Build_artifactPayloadV1 a b c d s))]
    (Build_artifactPayloadV1 0 "" "" "" "").

Record PublishInput := {
  pi_SessionID : string; pi_KeyID : string; pi_PartyID : string; pi_DescriptorBytes : bytes;
  pi_CodecBlob : bytes;
}.
Record ExpectedArtifactContext := { xc_SessionID : string; xc_KeyID : string; xc_DescriptorBytes : bytes }.
Record ArtifactEvidence := {
  ev_SessionID : string; ev_KeyID : string; ev_PartyID : string; ev_Purpose : string;
  ev_DescriptorFingerprint : bytes; ev_AccountPublicKey : bytes; ev_ChainCodeHash : bytes;
  ev_CodecVersion : Z; ev_ArtifactFingerprint : bytes;
}.

Definition binding_error (what : string) : error := EWrap what (ESent ErrArtifactBinding).
Definition payload_error (what : string) : error := EWrap what (ESent ErrInvalidSharePayload).

(** [base64.StdEncoding.EncodedLen]. *)
Definition b64_encoded_len (n : Z) : Z := (n + 2) / 3 * 4.

Definition strictBase64 (field encoded : string) (maximum : Z) : res bytes :=
  if (encoded =s "") || (b64_encoded_len maximum <? zlen encoded)%Z then Fail (payload_error field)
  else match b64_decode b64_std true encoded with
       | None => Fail (payload_error field)
       | Some decoded =>
           if (maximum <? zlen decoded)%Z || (b64_encode b64_std decoded <>s encoded)
           then Fail (payload_error field) else Ok decoded
       end.

Section Codec.
Context `{Externals}.

Definition validatePublishInput (config : StoreConfig) (input : PublishInput) : res unit :=
  if pi_SessionID input =s "" then Fail (binding_error "session ID is required")
  else if pi_PartyID input <>s sc_PartyID config then Fail (binding_error "party ID")
  else match ParseCanonicalDescriptor (pi_DescriptorBytes input) with
  | Fail e => Fail (payload_error "descriptor")
  | Ok (descriptor, _) =>
      if kd_KeyID descriptor <>s pi_KeyID input then Fail (binding_error "key ID")
      else if negb (canonicalKeyIDPattern (pi_KeyID input)) then Fail (binding_error "key ID")
      else if (zlen (pi_CodecBlob input) =? 0)%Z || (maxArtifactPayloadBytes <? zlen (pi_CodecBlob input))%Z
      then Fail (payload_error "codec blob size")
      else _ ← inspect_key_material (pi_CodecBlob input); Ok ()
  end.

Definition encodeArtifactV1 (config : StoreConfig) (input : PublishInput) (nonce : bytes) : res bytes :=
  _ ← ensure (zlen nonce =? artifactNonceBytes)%Z (ENew "artifact nonce must be 12 bytes");
  _ ← validatePublishInput config input;
  let payloadBytes := json_print (payload_json {|
    ap_ArtifactPayloadVersion := artifactPayloadVersion; ap_SessionID := pi_SessionID input;
    ap_PartyID := pi_PartyID input;
    ap_DescriptorBytesBase64 := b64_encode b64_std (pi_DescriptorBytes input);
    ap_ShareBlob := b64_encode b64_std (pi_CodecBlob input) |}) in
  _ ← ensure (zlen payloadBytes <=? maxArtifactPayloadBytes)%Z (payload_error "decrypted payload exceeds limit");
  let sealed := gcm_seal (kp_key (sc_keyProvider config)) nonce payloadBytes in
  let cut := (String.length sealed - Z.to_nat artifactTagBytes)%nat in
  let finalBytes := json_print (envelope_json {|
    env_Version := artifactVersion;
    env_Encryption := {| ae_Algorithm := artifactEncryption; ae_KeyRef := sc_KeyRef config;
                         ae_Nonce := b64_encode b64_std nonce;
                         ae_Ciphertext := b64_encode b64_std (str_take cut sealed);
                         ae_Tag := b64_encode b64_std (str_drop cut sealed) |} |}) in
  _ ← ensure (zlen finalBytes <=? maxArtifactEnvelopeBytes)%Z (payload_error "artifact envelope exceeds limit");
  Ok finalBytes.

(** * runtime_loader.go *)

(** The authenticated payload of an envelope. *)
Definition open_envelope (config : StoreConfig) (finalBytes : bytes) : res bytes :=
  _ ← ensure (negb ((zlen finalBytes =? 0)%Z || (maxArtifactEnvelopeBytes <? zlen finalBytes)%Z))
        (payload_error "artifact envelope size");
  envelope ← match DecodeCanonical decode_envelope (fun e => json_print (envelope_json e)) finalBytes with
             | Ok e => Ok e
             | Fail _ => Fail (payload_error "decode artifact envelope")
             end;
  let encryption := env_Encryption envelope in
  _ ← ensure (negb (negb (env_Version envelope =? artifactVersion)%Z
                    || (ae_Algorithm encryption <>s artifactEncryption)
                    || (ae_KeyRef encryption <>s sc_KeyRef config)))
        (binding_error "artifact encryption contract");
  nonce ← strictBase64 "nonce" (ae_Nonce encryption) artifactNonceBytes;
  _ ← ensure (zlen nonce =? artifactNonceBytes)%Z (payload_error "nonce length");
  ciphertext ← strictBase64 "ciphertext" (ae_Ciphertext encryption) maxArtifactCipherBytes;
  tag ← strictBase64 "tag" (ae_Tag encryption) artifactTagBytes;
  _ ← ensure (negb (negb (zlen tag =? artifactTagBytes)%Z || (maxArtifactCipherBytes <? zlen ciphertext + zlen tag)%Z))
        (payload_error "ciphertext or tag length");
  of_option (gcm_open (kp_key (sc_keyProvider config)) nonce (ciphertext +:+ tag))
    (payload_error "decrypt artifact").

Definition loadValidatedRuntimeShare (config : StoreConfig) (expected : option ExpectedArtifactContext)
    (finalBytes : bytes) : res (bytes * ArtifactEvidence) :=
  payloadBytes ← open_envelope config finalBytes;
  _ ← ensure (negb ((zlen payloadBytes =? 0)%Z || (maxArtifactPayloadBytes <? zlen payloadBytes)%Z))
        (payload_error "artifact payload size");
  payload ← match DecodeCanonical decode_payload (fun p => json_print (payload_json p)) payloadBytes with
            | Ok p => Ok p
            | Fail _ => Fail (payload_error "decode artifact payload")
            end;
  _ ← ensure (negb (negb (ap_ArtifactPayloadVersion payload =? artifactPayloadVersion)%Z
                    || (ap_SessionID payload =s "") || (ap_PartyID payload <>s sc_PartyID config)))
        (binding_error "artifact payload contract");
  descriptorBytes ← strictBase64 "descriptorBytesBase64" (ap_DescriptorBytesBase64 payload) maxArtifactPayloadBytes;
  '(descriptor, descriptorFingerprint) ← match ParseCanonicalDescriptor descriptorBytes with
            | Ok d => Ok d
            | Fail _ => Fail (payload_error "descriptor")
            end;
  _ ← ensure (negb ((kd_KeyID descriptor =s "") || negb (canonicalKeyIDPattern (kd_KeyID descriptor))))
        (binding_error "descriptor key ID");
  _ ← match expected with
      | None => Ok ()
      | Some x =>
          ensure (negb ((xc_SessionID x =s "") || (xc_KeyID x <>s kd_KeyID descriptor)
                        || (ap_SessionID payload <>s xc_SessionID x)
                        || (descriptorBytes <>s xc_DescriptorBytes x)))
            (binding_error "expected artifact context")
      end;
  shareBlob ← strictBase64 "shareBlob" (ap_ShareBlob payload) maxArtifactPayloadBytes;
  inspected ← inspect_key_material shareBlob;
  _ ← match ParseChainCodeHash (kd_ChainCodeHash descriptor) with
      | Ok h => ensure (h =s km_ChainCodeHash inspected) (binding_error "chain code hash")
      | Fail _ => Fail (binding_error "chain code hash")
      end;
  _ ← ensure (negb ((kd_Algorithm descriptor <>s "ECDSA") || (kd_Curve descriptor <>s "secp256k1")
                    || (kd_PublicKeyFormat descriptor <>s "compressed_sec1")
                    || (kd_DerivationScheme descriptor <>s "bip32_secp256k1")))
        (binding_error "descriptor product contract");
  Ok (shareBlob, {|
    ev_SessionID := ap_SessionID payload; ev_KeyID := kd_KeyID descriptor; ev_PartyID := ap_PartyID payload;
    ev_Purpose := sc_purpose config; ev_DescriptorFingerprint := descriptorFingerprint;
    ev_AccountPublicKey := km_AccountPublicKey inspected; ev_ChainCodeHash := km_ChainCodeHash inspected;
    ev_CodecVersion := km_CodecVersion inspected; ev_ArtifactFingerprint := ArtifactFingerprintFor finalBytes |}).
End Codec.

(** * publisher.go over fs_linux.go, fs_darwin.go and fs_unsupported.go *)

(** [fmt.Errorf("...: %w", err)]. *)
Definition wrapped {A} (msg : string) (m : M A) : M A :=
  r ← attempt m; match r with Ok a => mret a | Fail e => throw (EWrap msg e) end.
(** A step on the open temporary file: an error closes it first. *)
Definition or_close {A} (msg : string) (m : M A) : M A :=
  r ← attempt m;
  match r with Ok a => mret a | Fail e => _ ← attempt close; throw (EWrap msg e) end.

Definition RenameNoReplace (oldPath newPath : path) : M unit :=
  r ← attempt (rename_noreplace oldPath newPath);
  match r with
  | Ok _ => mret ()
  | Fail e => if errors_is e ErrExist then throw (ESent ErrArtifactExists)
              else throw (EWrap "publish immutable artifact" e)
  end.
Definition SyncDirectory (directory : string) : M unit :=
  _ ← wrapped "sync artifact directory" (sync_dir directory);
  wrapped "close artifact directory" close.

(** The build constraints compile one of three files: fs_linux.go, fs_darwin.go, or
    fs_unsupported.go everywhere else. *)
Inductive platform := Linux | Darwin | OtherPlatform.
Definition publishPlatformSupported (pl : platform) : bool :=
  match pl with OtherPlatform => false | _ => true end.

(** The operations a publication is written against, with [Sync] of its temporary file. *)
Record publishOperations := {
  op_CreateTemp : string -> string -> M path;
  op_Remove : path -> M unit;
  op_RenameNoReplace : path -> path -> M unit;
  op_SyncDirectory : string -> M unit;
  op_Sync : path -> M unit;
}.
Definition realPublishOperations : publishOperations := {|
  op_CreateTemp := create_temp; op_Remove := remove; op_RenameNoReplace := RenameNoReplace;
  op_SyncDirectory := SyncDirectory; op_Sync := fsync |}.

(** On Darwin [fsync] hands the contents to the drive and only [F_FULLFSYNC] makes the
    drive write them: until then a crash can lose them. *)
Definition fcntl_full_fsync (p : path) : M unit := fsync p.
Definition darwin_Sync (p : path) : M unit :=
  _ ← sys (fun w => (Ok (), w));
  wrapped "full sync artifact file" (fcntl_full_fsync p).
(** [renamex_np] with [RENAME_EXCL] refuses an existing name as [RENAME_NOREPLACE] does. *)
Definition darwinPublishOperations : publishOperations := {|
  op_CreateTemp := create_temp; op_Remove := remove; op_RenameNoReplace := RenameNoReplace;
  op_SyncDirectory := SyncDirectory; op_Sync := darwin_Sync |}.

Section Operations_of.
Variable ops : publishOperations.

(** The part of [publishDurablyTracked] up to the rename. *)
Definition fill_and_rename (temp finalPath : path) (finalBytes : bytes) : M unit :=
  _ ← or_close "set artifact temp mode" (chmod temp perm_0600);
  written ← or_close "write artifact temp file" (write temp finalBytes);
  if negb (written =? zlen finalBytes)%Z then _ ← attempt close; throw (ESent ErrShortWrite)
  else
    _ ← or_close "sync artifact temp file" (op_Sync ops temp);
    _ ← wrapped "close artifact temp file" close;
    op_RenameNoReplace ops temp finalPath.

(** The pair [(published, err)] that [publishDurablyTracked] returns. *)
Definition publishDurablyTracked (finalPath : path) (finalBytes : bytes) : M (bool * option error) :=
  temp ← attempt (op_CreateTemp ops finalPath.1 ("." +:+ finalPath.2 +:+ ".tmp-"));
  match temp with
  | Fail e => mret (false, Some (EWrap "create artifact temp file" e))
  | Ok temp =>
      r ← attempt (fill_and_rename temp finalPath finalBytes);
      match r with
      | Fail e => _ ← attempt (op_Remove ops temp); mret (false, Some e)
      | Ok _ => s ← attempt (op_SyncDirectory ops finalPath.1); mret (true, err_of s)
      end
  end.
Definition publishDurably (finalPath : path) (finalBytes : bytes) : M unit :=
  '(_, err) ← publishDurablyTracked finalPath finalBytes; lift (lift_err err).
End Operations_of.

Definition publishArtifactFile (pl : platform) (finalPath : path) (finalBytes : bytes) : M unit :=
  match pl with
  | Linux => publishDurably realPublishOperations finalPath finalBytes
  | Darwin => publishDurably darwinPublishOperations finalPath finalBytes
  | OtherPlatform => throw (ESent ErrUnsupportedPublishPlatform)
  end.

(** [fs_linux.go]; what is read is what the open file holds. *)
Definition linux_readArtifactFile (p : path) : M bytes :=
  f ← open_nofollow p;
  _ ← sys (fun w => (Ok (), w));
  if negb (bool_decide (f_kind f = Regular)) then throw (ENew "immutable artifact is not a regular file")
  else if negb (f_perm f =? perm_0600)%Z then throw (ENew "immutable artifact permissions must be 0600")
  else if (zlen (f_data f) <=? 0)%Z || (maxArtifactEnvelopeBytes <? zlen (f_data f))%Z
  then throw (ENew "immutable artifact size is invalid")
  else
    raw ← sys (fun w => (Ok (f_data f), w));
    if (zlen raw =? 0)%Z || (maxArtifactEnvelopeBytes <? zlen raw)%Z
    then throw (ENew "immutable artifact size is invalid")
    else mret raw.
(** [fs_darwin.go] has the same text. *)
Definition darwin_readArtifactFile (p : path) : M bytes := linux_readArtifactFile p.
#[export] Instance file_eq_dec : EqDecision file.
Proof. solve_decision. Defined.
(** [fs_unsupported.go] looks at the path, opens it and compares the two.  Files have no
    inode numbers here: equality of what is seen stands for [os.SameFile]. *)
Definition unsupported_readArtifactFile (p : path) : M bytes :=
  info ← lstat p;
  if negb (bool_decide (f_kind info = Regular)) then throw (ENew "immutable artifact is not a regular no-follow file")
  else if negb (f_perm info =? perm_0600)%Z || (zlen (f_data info) <=? 0)%Z
          || (maxArtifactEnvelopeBytes <? zlen (f_data info))%Z
  then throw (ENew "immutable artifact metadata is invalid")
  else
    f ← open_nofollow p;
    openedInfo ← sys (fun w => (Ok f, w));
    if negb (bool_decide (info = openedInfo)) || negb (bool_decide (f_kind openedInfo = Regular))
    then throw (ENew "immutable artifact changed during no-follow open")
    else
      raw ← sys (fun w => (Ok (f_data f), w));
      if (zlen raw =? 0)%Z || (maxArtifactEnvelopeBytes <? zlen raw)%Z
      then throw (ENew "immutable artifact size is invalid")
      else mret raw.
Definition readArtifactFile (pl : platform) : path -> M bytes :=
  match pl with
  | Linux => linux_readArtifactFile
  | Darwin => darwin_readArtifactFile
  | OtherPlatform => unsupported_readArtifactFile
  end.

(** Other platforms have no owner to compare. *)
Definition validateStoreDirectoryOwner (pl : platform) (info : FileInfo) : M unit :=
  match pl with
  | OtherPlatform => mret ()
  | _ =>
      uid ← get_euid;
      if negb (fi_uid info =? uid)%Z
      then throw (ENew "artifact directory must be owned by the running process user")
      else mret ()
  end.

Definition ensurePrivateStoreDirectory (pl : platform) (directory : string) : M unit :=
  r ← attempt (lstat_dir directory);
  match r with
  | Fail e => if errors_is e ErrNotExist then throw (ENew "artifact destination must exist before startup")
              else throw (EWrap "inspect artifact directory" e)
  | Ok (symlink, info) =>
      if symlink || negb (fi_isdir info)
      then throw (ENew "artifact destination must be a regular directory, not a symlink")
      else if negb (Z.land (fi_perm info) 63 =? 0)%Z
      then throw (ENew "artifact directory permissions must be private")
      else validateStoreDirectoryOwner pl info
  end.

(** * Stores *)

(** [publishSupported], [publishFile] and [readFile] are those of the platform. *)
Record Store := { st_config : StoreConfig; st_platform : platform }.
Definition st_publishSupported (s : Store) : bool := publishPlatformSupported (st_platform s).

(** [OpenStore] returns a store also when only the directory is unusable. *)
Definition OpenStore (keyProviderSet : bool) (config : StoreConfig) (pl : platform)
    : M (option Store * option error) :=
  if negb keyProviderSet then mret (None, Some (ENew "artifact key provider is required"))
  else match partyIDForPurpose (sc_purpose config) with
  | Fail e => mret (None, Some e)
  | Ok _ =>
      let store := {| st_config := config; st_platform := pl |} in
      r ← attempt (ensurePrivateStoreDirectory pl (sc_directory config));
      match r with
      | Fail e => mret (Some store, Some e)
      | Ok _ => if negb (publishPlatformSupported pl) then mret (Some store, Some (ESent ErrUnsupportedPublishPlatform))
                else mret (Some store, None)
      end
  end.

Definition finalPath (s : Store) (keyID : string) : res path :=
  if negb (canonicalKeyIDPattern keyID) then Fail (ENew "artifact key ID is not canonical")
  else Ok (sc_directory (st_config s), keyID +:+ "." +:+ sc_purpose (st_config s) +:+ ".json").

Definition capabilityProbeFirstBytes := "mpc-artifact-capability-v1:first".
Definition capabilityProbeSecondBytes := "mpc-artifact-capability-v1:second".

Section Probe.
Variables (ops : publishOperations) (readFile : path -> M bytes).

(** The part of [probePublishCapability] that its deferred cleanup follows: whether the
    probe file is owned, and the error. *)
Definition probe_body (finalPath : path) : M (bool * option error) :=
  '(published, err) ← publishDurablyTracked ops finalPath capabilityProbeFirstBytes;
  match err with
  | Some e => mret (published, Some (EWrap "publish capability probe" e))
  | None =>
      '(replaced, noReplaceErr) ← publishDurablyTracked ops finalPath capabilityProbeSecondBytes;
      if (replaced : bool)
      then mret (true, Some (ENew "filesystem publication replaced an existing capability probe"))
      else if negb (is_err noReplaceErr ErrArtifactExists)
      then mret (published, Some (EWrap "filesystem does not provide create-only rename"
                                    (EJoin (omap id [noReplaceErr]))))
      else
        readback ← attempt (readFile finalPath);
        match readback with
        | Fail e => mret (published, Some (EWrap "read capability probe" e))
        | Ok readback =>
            if readback <>s capabilityProbeFirstBytes
            then mret (published, Some (ENew "create-only capability probe changed existing bytes"))
            else mret (published, None)
        end
  end.
Definition probePublishCapability (directory : string) (entropy : res bytes) : M unit :=
  match entropy with
  | Fail e => throw (EWrap "generate capability probe name" e)
  | Ok suffix =>
      let finalPath := (directory, ".artifact-capability-probe-" +:+ hex_encode suffix) in
      '(ownsFinal, err) ← probe_body finalPath;
      if (ownsFinal : bool) then
        removeErr ← attempt (wrapped "remove capability probe" (op_Remove ops finalPath));
        syncErr ← attempt (wrapped "sync capability probe cleanup" (op_SyncDirectory ops directory));
        lift (lift_err (errors_join [err; err_of removeErr; err_of syncErr]))
      else lift (lift_err err)
  end.
End Probe.

Definition probePlatformPublishCapability (pl : platform) (directory : string) (entropy : res bytes) : M unit :=
  match pl with
  | Linux => probePublishCapability realPublishOperations linux_readArtifactFile directory entropy
  | Darwin => probePublishCapability darwinPublishOperations darwin_readArtifactFile directory entropy
  | OtherPlatform => throw (ESent ErrUnsupportedPublishPlatform)
  end.

Definition ProbePublishCapability (s : Store) (ctxErr : option error) (entropy : res bytes) : M unit :=
  match ctxErr with
  | Some e => throw e
  | None =>
      if negb (st_publishSupported s) then throw (ESent ErrUnsupportedPublishPlatform)
      else
        _ ← ensurePrivateStoreDirectory (st_platform s) (sc_directory (st_config s));
        wrapped "probe immutable artifact publication"
          (probePlatformPublishCapability (st_platform s) (sc_directory (st_config s)) entropy)
  end.

Definition Exists (s : Store) (ctxErr : option error) (keyID : string) : M bool :=
  match ctxErr with
  | Some e => throw e
  | None =>
      p ← lift (finalPath s keyID);
      r ← attempt (lstat p);
      match r with
      | Ok _ => mret true
      | Fail e => if errors_is e ErrNotExist then mret false
                  else throw (EWrap "inspect addressed artifact path" e)
      end
  end.

Section Operations.
Context `{Externals}.

Definition InspectExisting (s : Store) (ctxErr : option error) (expected : ExpectedArtifactContext)
    : M ArtifactEvidence :=
  match ctxErr with
  | Some e => throw e
  | None =>
      p ← lift (finalPath s (xc_KeyID expected));
      r ← attempt (readArtifactFile (st_platform s) p);
      match r with
      | Fail e => if errors_is e ErrNotExist then throw (ESent ErrShareNotFound)
                  else throw (EWrap "read immutable artifact" e)
      | Ok finalBytes =>
          '(_, evidence) ← lift (loadValidatedRuntimeShare (st_config s) (Some expected) finalBytes);
          mret evidence
      end
  end.

(** [nonce] is what the random source gives; the context is asked before publishing and
    again before inspecting. *)
Definition PublishAndInspect (s : Store) (ctxErr ctxErrAfter : option error) (nonce : res bytes)
    (input : PublishInput) : M ArtifactEvidence :=
  match ctxErr with
  | Some e => throw e
  | None =>
      if negb (st_publishSupported s) then throw (ESent ErrUnsupportedPublishPlatform)
      else
        p ← lift (finalPath s (pi_KeyID input));
        nonce ← lift (match nonce with Ok n => Ok n | Fail e => Fail (EWrap "generate artifact nonce" e) end);
        finalBytes ← lift (encodeArtifactV1 (st_config s) input nonce);
        _ ← publishArtifactFile (st_platform s) p finalBytes;
        InspectExisting s ctxErrAfter {| xc_SessionID := pi_SessionID input; xc_KeyID := pi_KeyID input;
                                         xc_DescriptorBytes := pi_DescriptorBytes input |}
  end.

(** [PrimaryReader.LoadShare]. *)
Definition LoadShare (s : Store) (ctxErr : option error) (keyID : string) : M bytes :=
  match ctxErr with
  | Some e => throw e
  | None =>
      p ← lift (finalPath s keyID);
      r ← attempt (readArtifactFile (st_platform s) p);
      match r with
      | Fail e => if errors_is e ErrNotExist then throw (ESent ErrShareNotFound)
                  else throw (EWrap "read primary artifact" e)
      | Ok finalBytes =>
          '(stored, evidence) ← lift (loadValidatedRuntimeShare (st_config s) None finalBytes);
          if ev_KeyID evidence <>s keyID
          then throw (binding_error "requested key does not match primary artifact descriptor")
          else mret stored
      end
  end.
Definition NewPrimaryReader (s : option Store) : res Store :=
  s ← of_option s (ENew "primary reader requires a primary artifact store");
  _ ← ensure (sc_purpose (st_config s) =s StorePurposePrimary)
        (ENew "primary reader requires a primary artifact store");
  Ok s.

(** [PrimaryReader.ProbeReadCapability]: the directory is opened, looked at and closed. *)
Definition ProbeReadCapability (r : option Store) : M unit :=
  match r with
  | Some s =>
      if sc_KeyRef (st_config s) =s "" then throw (ENew "primary share reader key provider is unavailable")
      else
        let directory := sc_directory (st_config s) in
        _ ← wrapped "open primary artifact directory read-only" (stat_dir directory);
        defer close
          (info ← wrapped "stat primary artifact directory" (stat_dir directory);
           if negb (fi_isdir info) then throw (ENew "primary artifact path is not a directory") else mret ())
  | None => throw (ENew "primary share reader key provider is unavailable")
  end.

(** * active_pair.go *)

Record PairRegistration := {
  reg_SessionID : string; reg_KeyID : string; reg_PrimaryPartyID : string; reg_RecoveryPartyID : string;
  reg_DescriptorBytes : bytes;
}.
Record activePairState := {
  aps_generation : Z; aps_sessionID : string; aps_keyID : string; aps_primaryPartyID : string;
  aps_recoveryPartyID : string; aps_descriptorBytes : bytes; aps_fingerprint : bytes;
}.
Record ActivePair := { pair_generation : Z; pair_active : option activePairState }.
Record SaveShareInput := {
  ss_SessionID : string; ss_KeyID : string; ss_LocalPartyID : string;
  ss_OpaqueDescriptorFingerprint : bytes; ss_CodecBlob : bytes;
}.
Record resolvedPersistenceContext := {
  rc_SessionID : string; rc_KeyID : string; rc_PartyID : string; rc_DescriptorBytes : bytes;
  rc_CodecBlob : bytes;
}.

Definition NewActivePair : ActivePair := {| pair_generation := 0; pair_active := None |}.

(** A lease is the generation it was given; registering returns it with the new state. *)
Definition RegisterPair (registration : PairRegistration) (s : ActivePair) : res Z * ActivePair :=
  match ParseCanonicalDescriptor (reg_DescriptorBytes registration) with
  | Fail _ => (Fail (EWrap "invalid descriptor" (ESent ErrPersistenceContextMismatch)), s)
  | Ok (descriptor, fingerprint) =>
      if (reg_SessionID registration =s "") || (kd_KeyID descriptor <>s reg_KeyID registration)
         || (reg_PrimaryPartyID registration <>s primaryPartyID)
         || (reg_RecoveryPartyID registration <>s recoveryPartyID)
         || (reg_PrimaryPartyID registration =s reg_RecoveryPartyID registration)
      then (Fail (ESent ErrPersistenceContextMismatch), s)
      else match pair_active s with
      | Some _ => (Fail (ESent ErrPairAlreadyRegistered), s)
      | None =>
          let generation := u64 (pair_generation s + 1) in
          (Ok generation,
           {| pair_generation := generation;
              pair_active := Some {|
                aps_generation := generation; aps_sessionID := reg_SessionID registration;
                aps_keyID := reg_KeyID registration; aps_primaryPartyID := reg_PrimaryPartyID registration;
                aps_recoveryPartyID := reg_RecoveryPartyID registration;
                aps_descriptorBytes := reg_DescriptorBytes registration; aps_fingerprint := fingerprint |} |})
      end
  end.

Definition resolve (s : ActivePair) (input : SaveShareInput) : res resolvedPersistenceContext :=
  match pair_active s with
  | None => Fail (ESent ErrPairNotRegistered)
  | Some active =>
      let partyAllowed := (ss_LocalPartyID input =s aps_primaryPartyID active)
                          || (ss_LocalPartyID input =s aps_recoveryPartyID active) in
      if (ss_SessionID input <>s aps_sessionID active) || (ss_KeyID input <>s aps_keyID active)
         || negb partyAllowed || (ss_OpaqueDescriptorFingerprint input <>s aps_fingerprint active)
      then Fail (ESent ErrPersistenceContextMismatch)
      else Ok {| rc_SessionID := aps_sessionID active; rc_KeyID := aps_keyID active;
                 rc_PartyID := ss_LocalPartyID input; rc_DescriptorBytes := aps_descriptorBytes active;
                 rc_CodecBlob := ss_CodecBlob input |}
  end.

(** [PairLease.Release]. *)
Definition Release (generation : Z) (s : ActivePair) : ActivePair :=
  match pair_active s with
  | Some active =>
      if (aps_generation active =? generation)%Z
      then {| pair_generation := pair_generation s; pair_active := None |} else s
  | None => s
  end.

(** * routing_writer.go *)

Record RoutingWriter := { rw_primary : Store; rw_recovery : Store }.
Definition NewRoutingWriter (primary recovery : Store) : res RoutingWriter :=
  _ ← ValidateStorePair (st_config primary) (st_config recovery);
  Ok {| rw_primary := primary; rw_recovery := recovery |}.

Definition SaveShare (w : RoutingWriter) (pair : ActivePair) (ctxErr ctxErr1 ctxErr2 : option error)
    (nonce : res bytes) (input : SaveShareInput) : M unit :=
  match ctxErr with
  | Some e => throw e
  | None =>
      resolved ← lift (resolve pair input);
      store ← lift (if rc_PartyID resolved =s sc_PartyID (st_config (rw_recovery w)) then Ok (rw_recovery w)
                    else if rc_PartyID resolved <>s sc_PartyID (st_config (rw_primary w))
                    then Fail (ESent ErrPersistenceContextMismatch)
                    else Ok (rw_primary w));
      _ ← PublishAndInspect store ctxErr1 ctxErr2 nonce
            {| pi_SessionID := rc_SessionID resolved; pi_KeyID := rc_KeyID resolved;
               pi_PartyID := rc_PartyID resolved; pi_DescriptorBytes := rc_DescriptorBytes resolved;
               pi_CodecBlob := rc_CodecBlob resolved |};
      mret ()
  end.
End Operations.
