(* ===== verification/ShareStoreProofs.v ===== *)
(** Proofs about the artifact stores: artifacts round-trip, an accepted artifact is
    authentic and bound to its context, publication never changes an artifact, and
    shares are routed to the store of their party under one registration. *)
From stdpp Require Import base tactics option list strings numbers gmap relations.
From Stdlib Require Import ZArith Lia Ascii String.
From S2P Require Import Prelude GoText Sha256 Json StrictJson Externals Mpc2of3 FileSystem Publish ShareStore.

#[local] Open Scope string_scope.

(** * Publication *)

(** The postconditions below do not depend on which error is reported, nor on the rest
    of the schedule. *)
Definition any_error {A} (Q : res A -> world -> Prop) : Prop := forall e e' w, Q (Fail e) w -> Q (Fail e') w.
Definition any_sched (P : world -> Prop) : Prop := forall w s, P w -> P (with_sched w s).

Lemma hoare_wrapped {A} msg P (m : M A) Q : hoare P m Q -> any_error Q -> hoare P (wrapped msg m) Q.
Proof.
  intros Hm He w Hw. specialize (Hm w Hw). unfold wrapped, attempt, mbind, M_bind.
  destruct (m w) as [[a|e] w1]; cbn in *; [done|by eapply He].
Qed.

Lemma hoare_or_close {A} msg P (m : M A) Q :
  hoare P m Q -> any_error Q -> (forall e, any_sched (Q (Fail e))) -> hoare P (or_close msg m) Q.
Proof.
  intros Hm He Hs. unfold or_close. eapply hoare_bind; [apply hoare_attempt, Hm| |done].
  intros [a|e]; [apply hoare_ret|].
  eapply hoare_bind; [apply hoare_attempt, (close_spec (Q (Fail e))), Hs| |done].
  intros [u|e'] w Hw; by eapply He.
Qed.

Lemma SyncDirectory_vis d w : vis (SyncDirectory d w).2 = vis w.
Proof.
  unfold SyncDirectory, wrapped, attempt, mbind, M_bind. pose proof (sync_dir_vis d w) as Hv.
  destruct (sync_dir d w) as [[u|e] w1]; cbn in *; [|done].
  pose proof (sys_keep vis (fun w => (Ok (), w)) w1) as Hc. unfold close.
  destruct (sys _ w1) as [[u'|e'] w2]; cbn in *; rewrite Hc; done.
Qed.

Lemma SyncDirectory_post w0 p raw : temporary p = false ->
  hoare (fun w => published w0 p (new_file w0 raw) w /\ vis w0 !! p = None /\ vis w !! p = Some (new_file w0 raw))
    (SyncDirectory p.1) (publish_post w0 p (new_file w0 raw)).
Proof.
  intros Hp. unfold SyncDirectory. eapply hoare_bind; [apply hoare_wrapped|..].
  - by apply sync_dir_post.
  - intros e e' w [Hw _]. by split.
  - intros [] w Hw. pose proof (published_safe w0 p Hp (new_file w0 raw) (wrapped "close artifact directory" close)
      ltac:(unfold wrapped; solve_safe)) as Hc.
    assert (Hk : forall w q, temporary q = false -> vis (wrapped "close artifact directory" close w).2 !! q = vis w !! q).
    { intros w' q _. unfold wrapped, attempt, mbind, M_bind.
      pose proof (sys_keep vis (fun w => (Ok (), w)) w') as Hv. unfold close.
      destruct (sys _ w') as [[u|e] w2]; cbn in *; by rewrite Hv. }
    specialize (Hc Hk (Ok ()) w Hw). destruct Hc as [Hc1 Hc2]. split; [done|]. intros _. by apply Hc2.
  - by intros e w [Hw _].
Qed.

(** What a publication relies on, of any platform's operations.  [PublishLaws] is the
    contract between [publishDurablyTracked] and fs_linux.go or fs_darwin.go. *)
Class PublishLaws (ops : publishOperations) : Prop := {
  law_CreateTemp w0 d prefix : hidden prefix = true ->
    hoare (untouched w0) (op_CreateTemp ops d prefix) (fun r w =>
      match r with Ok f => prepared_file w0 f (new_file w0 "") false w | Fail _ => untouched w0 w end);
  law_Sync w0 f g : hoare (prepared_file w0 f g false) (op_Sync ops f) (fun r w =>
    match r with Ok _ => prepared_file w0 f g true w | Fail _ => untouched w0 w end);
  law_Rename w0 p f g : temporary p = false ->
    hoare (prepared_file w0 f g true) (op_RenameNoReplace ops f p) (fun r w =>
      published w0 p g w /\ (r = Ok () -> vis w0 !! p = None /\ vis w !! p = Some g));
  law_Rename_hidden w0 p f g : temporary p = true ->
    hoare (prepared_file w0 f g true) (op_RenameNoReplace ops f p) (fun _ => untouched w0);
  law_SyncDirectory w0 p raw : temporary p = false ->
    hoare (fun w => published w0 p (new_file w0 raw) w /\ vis w0 !! p = None /\ vis w !! p = Some (new_file w0 raw))
      (op_SyncDirectory ops p.1) (publish_post w0 p (new_file w0 raw));
  law_SyncDirectory_vis d w : vis (op_SyncDirectory ops d w).2 = vis w;
  law_SyncDirectory_safe d : safe (op_SyncDirectory ops d);
  law_Remove_keeps f w q : temporary f = true -> temporary q = false -> vis (op_Remove ops f w).2 !! q = vis w !! q;
  law_Remove_safe f : temporary f = true -> safe (op_Remove ops f);
}.

Section Artifact.
Context (ops : publishOperations) `{!PublishLaws ops}.
Variables (w0 : world) (p : path).

(** Filling the temporary file, with any specification of the final rename. *)
Lemma fill_and_rename_spec f raw (R : res unit -> world -> Prop) :
  hoare (prepared_file w0 f (new_file w0 raw) true) (op_RenameNoReplace ops f p) R ->
  (forall e w, untouched w0 w -> R (Fail e) w) -> any_error R ->
  hoare (prepared_file w0 f (new_file w0 "") false) (fill_and_rename ops f p raw) R.
Proof.
  intros Hr Hu He. unfold fill_and_rename.
  eapply hoare_bind; [apply hoare_or_close; [apply chmod_spec|by intros e e' w|by intros e w s]| |auto]. intros [].
  eapply hoare_bind; [apply hoare_or_close; [apply write_spec| |]| |intros e w Hw; exact (Hu _ _ (proj1 Hw))].
  { by intros e e' w [Hw _]. }
  { intros e w s [Hw _]. by split. }
  intros n. destruct (n =? zlen raw)%Z eqn:En; split_bools; cbn [negb].
  2: { apply (hoare_pre (untouched w0)); [by intros w [Hw _]|].
       eapply hoare_bind; [apply hoare_attempt, (close_spec (untouched w0)); done| |done].
       intros [u|e] w Hw; by apply Hu. }
  subst n. eapply (hoare_bind _ _ _ (fun r w => match r with
    | Ok _ => prepared_file w0 f (new_file w0 raw) true w | Fail _ => untouched w0 w end)); [| |auto].
  { apply (hoare_pre (prepared_file w0 f (new_file w0 raw) false)); [intros w [_ Hw]; exact (Hw eq_refl)|].
    apply hoare_or_close; [apply law_Sync|by intros e e' w'|by intros e w' s]. }
  intros []. eapply hoare_bind;
    [apply hoare_wrapped; [by apply close_spec|by intros e e' w]| |intros e w Hw; apply Hu, Hw].
  intros []. exact Hr.
Qed.

(** An artifact path: the file is published whole or not at all, never replaced, and
    a nil error means that it is new and durable. *)
Definition tracked_post (raw : bytes) (r : res (bool * option error)) (w : world) : Prop :=
  published w0 p (new_file w0 raw) w
  /\ (forall b err, r = Ok (b, err) -> err = None -> b = true /\ vis w0 !! p = None
        /\ vis w !! p = Some (new_file w0 raw) /\ dur w !! p = Some (new_file w0 raw)).

Lemma publishDurablyTracked_spec raw : temporary p = false ->
  hoare (untouched w0) (publishDurablyTracked ops p raw) (tracked_post raw).
Proof.
  intros Hp. unfold publishDurablyTracked.
  eapply hoare_bind; [apply hoare_attempt, law_CreateTemp, hidden_app; done| |done].
  intros [f|e] w Hf; [|split; [by apply untouched_published|by intros b err [= <- <-]]].
  assert (Ht : temporary f = true) by apply Hf. revert w Hf.
  apply (hoare_bind _ _ _ (fun r w => match r with
    | Ok (Ok _) => published w0 p (new_file w0 raw) w /\ vis w0 !! p = None /\ vis w !! p = Some (new_file w0 raw)
    | Ok (Fail _) => published w0 p (new_file w0 raw) w | Fail _ => False end)); [| |done].
  { intros w Hw. pose proof (fill_and_rename_spec f raw _ (law_Rename w0 p f (new_file w0 raw) Hp)) as Hs.
    apply hoare_attempt in Hs.
    - specialize (Hs w Hw). destruct (attempt _ w) as [[[[]|e]|e] w'] eqn:E; cbn in *; naive_solver.
    - intros e w' Hu. split; [by apply untouched_published|done].
    - intros e e' w' [Hu _]. by split. }
  intros [[]|e].
  - intros w Hw. unfold mbind, M_bind, attempt.
    pose proof (law_SyncDirectory w0 p raw Hp w Hw) as [Hs1 Hs2].
    destruct (op_SyncDirectory ops p.1 w) as [[[]|e] w']; cbn in *; split; try done.
    + intros b err [= <- <-] _. split; [done|]. by apply Hs2.
    + by intros b err [= <- <-].
  - intros w Hw. unfold mbind, M_bind, attempt.
    pose proof (published_safe w0 p Hp (new_file w0 raw) (op_Remove ops f) (law_Remove_safe f Ht)
      (fun w q Hq => law_Remove_keeps f w q Ht Hq) (Fail e) w) as Hs.
    destruct (op_Remove ops f w) as [r w']. cbn in *. split; [|by intros b err [= <- <-]].
    apply Hs. by split.
Qed.
End Artifact.

Lemma publishDurablyTracked_hidden ops `{!PublishLaws ops} w0 p raw : temporary p = true ->
  hoare (untouched w0) (publishDurablyTracked ops p raw) (fun _ => untouched w0).
Proof.
  intros Hp. unfold publishDurablyTracked.
  eapply hoare_bind; [apply hoare_attempt, law_CreateTemp, hidden_app; done| |done].
  intros [f|e] w Hf; [|done]. assert (Ht : temporary f = true) by apply Hf.
  refine (hoare_bind _ _ _ _ (fun _ => untouched w0) (hoare_attempt _ _ _
    (fill_and_rename_spec ops w0 p f raw (fun _ => untouched w0) (law_Rename_hidden w0 p f _ Hp) _ _)) _ _ w Hf); [done|by intros e e' w'| |done].
  clear w Hf. intros [[]|e] w Hw; unfold mbind, M_bind, attempt.
  - pose proof (untouched_safe w0 (op_SyncDirectory ops p.1) (law_SyncDirectory_safe p.1)
      (fun w q _ => f_equal (fun v => v !! q) (law_SyncDirectory_vis p.1 w)) w Hw) as Hs.
    by destruct (op_SyncDirectory ops p.1 w).
  - pose proof (untouched_safe w0 (op_Remove ops f) (law_Remove_safe f Ht) (fun w q Hq => law_Remove_keeps f w q Ht Hq) w Hw) as Hs.
    by destruct (op_Remove ops f w).
Qed.

Lemma safe_publishDurablyTracked ops `{!PublishLaws ops} p raw : safe (publishDurablyTracked ops p raw).
Proof.
  intros w Hi. destruct (temporary p) eqn:Hp.
  - destruct (publishDurablyTracked_hidden ops w p raw Hp w (untouched_start w Hi)) as (?&?&_). done.
  - destruct (publishDurablyTracked_spec ops w p raw Hp w (untouched_start w Hi)) as [(?&?&_) _]. done.
Qed.

(** ** The platforms *)

Lemma RenameNoReplace_post w0 p f g (R : res unit -> world -> Prop) :
  hoare (prepared_file w0 f g true) (rename_noreplace f p) R -> any_error R ->
  hoare (prepared_file w0 f g true) (RenameNoReplace f p) R.
Proof.
  intros Hr He. unfold RenameNoReplace. eapply hoare_bind; [apply hoare_attempt, Hr| |done].
  intros [[]|e] w Hw; [done|]. cbn. destruct (errors_is e ErrExist); by eapply He.
Qed.
Lemma safe_SyncDirectory d : safe (SyncDirectory d).
Proof. unfold SyncDirectory, wrapped. solve_safe. Qed.

#[export] Instance real_laws : PublishLaws realPublishOperations.
Proof.
  split; cbn; intros.
  - by apply create_temp_spec.
  - apply fsync_spec.
  - by apply RenameNoReplace_post; [apply rename_spec|intros e e' w' [? _]].
  - by apply RenameNoReplace_post; [apply rename_hidden|intros e e' w'].
  - by apply SyncDirectory_post.
  - apply SyncDirectory_vis.
  - apply safe_SyncDirectory.
  - by apply remove_keeps.
  - by apply safe_remove.
Qed.
(** Darwin differs in [Sync]: the first half leaves the contents where a crash loses them. *)
#[export] Instance darwin_laws : PublishLaws darwinPublishOperations.
Proof.
  destruct real_laws as [H1 H2 H3 H4 H5 H6 H7 H8 H9].
  constructor; [exact H1| |exact H3|exact H4|exact H5|exact H6|exact H7|exact H8|exact H9].
  intros w0 f g. cbn. unfold darwin_Sync.
  eapply (hoare_bind _ _ _ (fun _ => prepared_file w0 f g false)); [| |intros e w Hw; apply Hw].
  { apply hoare_sys; [by intros w s|by intros w|by intros|by intros]. }
  intros _. apply hoare_wrapped; [apply fsync_spec|by intros e e' w].
Qed.

Lemma safe_readArtifactFile pl p : safe (readArtifactFile pl p).
Proof.
  destruct pl; unfold readArtifactFile, darwin_readArtifactFile, linux_readArtifactFile, unsupported_readArtifactFile; solve_safe.
Qed.
#[export] Hint Resolve safe_readArtifactFile : safe.

Lemma probe_hidden directory suffix :
  temporary (directory, ".artifact-capability-probe-" +:+ suffix) = true.
Proof. done. Qed.
#[export] Hint Resolve probe_hidden : safe.

Section Safety.
Context `{Externals}.
Lemma safe_ensurePrivate pl d : safe (ensurePrivateStoreDirectory pl d).
Proof. unfold ensurePrivateStoreDirectory, validateStoreDirectoryOwner. solve_safe. Qed.
#[local] Hint Resolve safe_ensurePrivate : safe.
Lemma safe_OpenStore b c s : safe (OpenStore b c s).
Proof. unfold OpenStore. solve_safe. Qed.
Lemma safe_probePublishCapability ops `{!PublishLaws ops} readFile directory entropy :
  (forall p, safe (readFile p)) -> safe (probePublishCapability ops readFile directory entropy).
Proof.
  pose proof (safe_publishDurablyTracked ops). pose proof law_SyncDirectory_safe. pose proof law_Remove_safe. intros Hr.
  unfold probePublishCapability, probe_body, wrapped. solve_safe.
Qed.
Lemma safe_Probe s ctxErr entropy : safe (ProbePublishCapability s ctxErr entropy).
Proof.
  assert (safe (probePlatformPublishCapability (st_platform s) (sc_directory (st_config s)) entropy)).
  { pose proof (safe_readArtifactFile (st_platform s)) as Hr.
    destruct (st_platform s); cbn; [exact (safe_probePublishCapability _ _ _ _ Hr)..|solve_safe]. }
  unfold ProbePublishCapability, wrapped. solve_safe.
Qed.
Lemma safe_publishArtifactFile pl p raw : safe (publishArtifactFile pl p raw).
Proof.
  pose proof (safe_publishDurablyTracked realPublishOperations). pose proof (safe_publishDurablyTracked darwinPublishOperations).
  destruct pl; cbn; unfold publishDurably; solve_safe.
Qed.
#[local] Hint Resolve safe_publishArtifactFile : safe.
Lemma safe_Exists s ctxErr keyID : safe (Exists s ctxErr keyID).
Proof. unfold Exists. solve_safe. Qed.
Lemma safe_InspectExisting s ctxErr x : safe (InspectExisting s ctxErr x).
Proof. unfold InspectExisting. solve_safe. Qed.
Lemma safe_LoadShare s ctxErr k : safe (LoadShare s ctxErr k).
Proof. unfold LoadShare. solve_safe. Qed.
#[local] Hint Resolve safe_InspectExisting : safe.
Lemma safe_PublishAndInspect s c1 c2 nonce input : safe (PublishAndInspect s c1 c2 nonce input).
Proof. unfold PublishAndInspect. solve_safe. Qed.
#[local] Hint Resolve safe_PublishAndInspect : safe.
Lemma safe_SaveShare rw pair c c1 c2 nonce input : safe (SaveShare rw pair c c1 c2 nonce input).
Proof. unfold SaveShare. solve_safe. Qed.
End Safety.

(** * The codec *)

(** What AES-GCM promises: opening what was sealed under the same key and nonce gives
    the plaintext back, and sealing appends a tag of 16 bytes. *)
Class AEAD `{Externals} : Prop := {
  gcm_open_seal key nonce msg : gcm_open key nonce (gcm_seal key nonce msg) = Some msg;
  gcm_seal_length key nonce msg : String.length (gcm_seal key nonce msg) = (String.length msg + 16)%nat;
}.

(** The length of a padded encoding. *)
Lemma b64_std_length s : zlen (b64_encode b64_std s) = b64_encoded_len (zlen s).
Proof.
  unfold zlen, b64_encoded_len.
  induction s as [|a|a b|a b c r IH] using string_ind3; [done|done|done|].
  cbn [b64_encode String.length]. rewrite !Nat2Z.inj_succ, IH.
  replace (Z.succ (Z.succ (Z.succ (Z.of_nat (String.length r)))) + 2)%Z
    with (Z.of_nat (String.length r) + 2 + 1 * 3)%Z by lia.
  rewrite Z.div_add by lia. lia.
Qed.

Lemma zlen_zero s : (zlen s =? 0)%Z = (s =s "").
Proof. by destruct s. Qed.

Lemma strictBase64_encode field s maximum : s <> "" -> (zlen s <= maximum)%Z ->
  strictBase64 field (b64_encode b64_std s) maximum = Ok s.
Proof.
  intros Hs Hm. unfold strictBase64. rewrite <- zlen_zero, b64_std_length.
  assert (Hle : (b64_encoded_len (zlen s) <= b64_encoded_len maximum)%Z).
  { unfold b64_encoded_len. apply Z.mul_le_mono_nonneg_r; [lia|]. apply Z.div_le_mono; lia. }
  assert (Hpos : (0 < b64_encoded_len (zlen s))%Z).
  { unfold b64_encoded_len. assert (0 < zlen s)%Z by (destruct s; [done|unfold zlen; cbn; lia]).
    assert (1 <= (zlen s + 2) / 3)%Z by (apply Z.div_le_lower_bound; lia). lia. }
  rewrite (proj2 (Z.eqb_neq _ _)), (proj2 (Z.ltb_ge _ _)) by lia. cbn [orb].
  rewrite (b64_decode_encode _ b64_std_ok), String.eqb_refl, (proj2 (Z.ltb_ge _ _)) by lia. done.
Qed.

Lemma strictBase64_Ok field s maximum b : strictBase64 field s maximum = Ok b ->
  s = b64_encode b64_std b /\ (zlen b <= maximum)%Z /\ s <> "".
Proof.
  unfold strictBase64. intros Hs. do 3 step_if Hs. inv_ok. split_bools. split_and!; [done|lia|done].
Qed.

Ltac json_wf_ok :=
  cbn [json_wf forallb fst snd]; repeat match goal with |- _ && _ = true => apply andb_true_iff; split end;
  lazymatch goal with
  | E : ?a |- ?a => exact E
  | |- utf8_valid (b64_encode _ _) = true => apply b64_utf8
  | _ => vm_compute; reflexivity
  end.

Lemma payload_roundtrip p :
  ap_ArtifactPayloadVersion p = 1%Z -> utf8_valid (ap_SessionID p) = true -> utf8_valid (ap_PartyID p) = true ->
  (exists d s, ap_DescriptorBytesBase64 p = b64_encode b64_std d /\ ap_ShareBlob p = b64_encode b64_std s) ->
  DecodeCanonical decode_payload (fun p => json_print (payload_json p)) (json_print (payload_json p)) = Ok p.
Proof.
  destruct p as [v s q d b].
  cbn [ap_ArtifactPayloadVersion ap_SessionID ap_PartyID ap_DescriptorBytesBase64 ap_ShareBlob].
  intros -> Hs Hq (d' & b' & -> & ->). apply (DecodeCanonical_print _ payload_json); unfold payload_json;
    cbn [ap_ArtifactPayloadVersion ap_SessionID ap_PartyID ap_DescriptorBytesBase64 ap_ShareBlob].
  - json_wf_ok.
  - apply acceptableb_spec. vm_compute. reflexivity.
  - apply decode_obj. repeat (eapply assign_cons; [reflexivity|reflexivity|]). reflexivity.
Qed.

Lemma envelope_roundtrip e :
  env_Version e = 1%Z -> utf8_valid (ae_Algorithm (env_Encryption e)) = true ->
  utf8_valid (ae_KeyRef (env_Encryption e)) = true ->
  (exists n c t, ae_Nonce (env_Encryption e) = b64_encode b64_std n
     /\ ae_Ciphertext (env_Encryption e) = b64_encode b64_std c /\ ae_Tag (env_Encryption e) = b64_encode b64_std t) ->
  DecodeCanonical decode_envelope (fun e => json_print (envelope_json e)) (json_print (envelope_json e)) = Ok e.
Proof.
  destruct e as [v [a k n c t]].
  cbn [env_Version env_Encryption ae_Algorithm ae_KeyRef ae_Nonce ae_Ciphertext ae_Tag].
  intros -> Ha Hk (n' & c' & t' & -> & -> & ->). apply (DecodeCanonical_print _ envelope_json);
    unfold envelope_json, encryption_json; cbn [env_Version env_Encryption ae_Algorithm ae_KeyRef ae_Nonce ae_Ciphertext ae_Tag].
  - json_wf_ok.
  - apply acceptableb_spec. vm_compute. reflexivity.
  - reflexivity.
Qed.

Lemma str_drop_length n s : String.length (str_drop n s) = (String.length s - n)%nat.
Proof. revert s. induction n as [|n IH]; intros [|c s]; cbn; rewrite ?IH; lia. Qed.

Lemma json_object_nonempty l : json_print (JObj l) <> "".
Proof. done. Qed.

Lemma nonempty_length s : s <> "" <-> (0 < zlen s)%Z.
Proof. destruct s; unfold zlen; cbn; split; (done || lia). Qed.

Section Roundtrip.
Context `{AEAD}.
#[local] Opaque json_print b64_encode.

Definition input_context (input : PublishInput) : ExpectedArtifactContext :=
  {| xc_SessionID := pi_SessionID input; xc_KeyID := pi_KeyID input; xc_DescriptorBytes := pi_DescriptorBytes input |}.
Definition input_payload (input : PublishInput) : artifactPayloadV1 :=
  {| ap_ArtifactPayloadVersion := artifactPayloadVersion; ap_SessionID := pi_SessionID input;
     ap_PartyID := pi_PartyID input; ap_DescriptorBytesBase64 := b64_encode b64_std (pi_DescriptorBytes input);
     ap_ShareBlob := b64_encode b64_std (pi_CodecBlob input) |}.

(** The envelope that is written opens to the payload that was sealed. *)
Lemma open_envelope_encode config input nonce raw :
  encodeArtifactV1 config input nonce = Ok raw -> utf8_valid (sc_KeyRef config) = true ->
  open_envelope config raw = Ok (json_print (payload_json (input_payload input)))
  /\ (zlen (json_print (payload_json (input_payload input))) <= maxArtifactPayloadBytes)%Z.
Proof.
  unfold encodeArtifactV1. intros He Hk. inv_ok. fold (input_payload input) in *.
  set (payload := json_print (payload_json (input_payload input))) in *.
  set (sealed := gcm_seal _ _ _) in *. set (cut := (String.length sealed - _)%nat) in *.
  split_bools. split; [|done].
  assert (Hpay : (0 < zlen payload)%Z) by (apply nonempty_length, json_object_nonempty).
  pose proof (gcm_seal_length (kp_key (sc_keyProvider config)) nonce payload) as Hlen. fold sealed in Hlen.
  assert (Hcut : cut = String.length payload) by (unfold cut, artifactTagBytes; lia).
  assert (Hct : zlen (str_take cut sealed) = zlen payload) by (unfold zlen; rewrite str_take_length; lia).
  assert (Htag : zlen (str_drop cut sealed) = 16%Z) by (unfold zlen; rewrite str_drop_length; lia).
  unfold open_envelope.
  match goal with Hr : (zlen (json_print ?v) <= maxArtifactEnvelopeBytes)%Z |- _ =>
    assert (Hraw : (0 < zlen (json_print v))%Z) by (apply nonempty_length, json_object_nonempty) end.
  rewrite (proj2 (Z.eqb_neq _ _)), (proj2 (Z.ltb_ge _ _)) by lia.
  rewrite envelope_roundtrip; cycle 1; [done|done|done|by repeat eexists|].
  cbn [orb negb ensure mbind res_bind env_Version env_Encryption ae_Algorithm ae_KeyRef ae_Nonce ae_Ciphertext ae_Tag].
  rewrite !String.eqb_refl. cbn [orb negb ensure mbind res_bind artifactVersion Z.eqb Pos.eqb].
  unfold artifactNonceBytes, artifactTagBytes, maxArtifactPayloadBytes, maxArtifactCipherBytes in *.
  rewrite strictBase64_encode; [|apply nonempty_length; lia|lia]. cbn [mbind res_bind].
  rewrite (proj2 (Z.eqb_eq _ _)) by done. cbn [ensure mbind res_bind].
  rewrite strictBase64_encode; [|apply nonempty_length; lia|lia]. cbn [mbind res_bind].
  rewrite strictBase64_encode; [|apply nonempty_length; lia|lia]. cbn [mbind res_bind].
  rewrite (proj2 (Z.eqb_eq _ _)), (proj2 (Z.ltb_ge _ _)) by lia. cbn [orb negb ensure mbind res_bind].
  rewrite str_take_drop. unfold sealed. by rewrite gcm_open_seal.
Qed.

(** The evidence of an artifact written for an input. *)
Definition input_evidence (config : StoreConfig) (input : PublishInput) (km : KeyMaterial) (raw : bytes)
    : ArtifactEvidence :=
  {| ev_SessionID := pi_SessionID input; ev_KeyID := pi_KeyID input; ev_PartyID := sc_PartyID config;
     ev_Purpose := sc_purpose config; ev_DescriptorFingerprint := sha256 (pi_DescriptorBytes input);
     ev_AccountPublicKey := km_AccountPublicKey km; ev_ChainCodeHash := km_ChainCodeHash km;
     ev_CodecVersion := km_CodecVersion km; ev_ArtifactFingerprint := sha256 raw |}.

Lemma validatePublishInput_Ok config input u : validatePublishInput config input = Ok u ->
  pi_SessionID input <> "" /\ pi_PartyID input = sc_PartyID config
  /\ (exists d, ParseCanonicalDescriptor (pi_DescriptorBytes input) = Ok (d, sha256 (pi_DescriptorBytes input))
       /\ kd_KeyID d = pi_KeyID input /\ canonicalKeyIDPattern (pi_KeyID input) = true)
  /\ pi_CodecBlob input <> "" /\ (zlen (pi_CodecBlob input) <= maxArtifactPayloadBytes)%Z
  /\ exists km, inspect_key_material (pi_CodecBlob input) = Ok km.
Proof.
  unfold validatePublishInput. intros Hv. do 2 step_if Hv.
  destruct (ParseCanonicalDescriptor _) as [[d fp]|] eqn:Ed; [|done]. do 3 step_if Hv. inv_ok. split_bools.
  pose proof (ParseCanonicalDescriptor_facts _ _ _ Ed) as Hf. destruct_and! Hf. subst fp.
  split_and!; eauto. apply nonempty_length. unfold zlen in *. lia.
Qed.

Lemma PartyID_utf8 config : utf8_valid (sc_PartyID config) = true.
Proof. unfold sc_PartyID, partyIDForPurpose. by repeat case_match; simplify_eq. Qed.

Lemma keyID_nonempty k : canonicalKeyIDPattern k = true -> (k =s "") = false.
Proof. by destruct k. Qed.

(** The loader, step by step. *)
Lemma load_run config x raw pb payload db d fp blob km h :
  open_envelope config raw = Ok pb -> (0 < zlen pb <= maxArtifactPayloadBytes)%Z ->
  DecodeCanonical decode_payload (fun p => json_print (payload_json p)) pb = Ok payload ->
  ap_ArtifactPayloadVersion payload = artifactPayloadVersion -> ap_SessionID payload <> "" ->
  ap_PartyID payload = sc_PartyID config ->
  strictBase64 "descriptorBytesBase64" (ap_DescriptorBytesBase64 payload) maxArtifactPayloadBytes = Ok db ->
  ParseCanonicalDescriptor db = Ok (d, fp) ->
  xc_SessionID x = ap_SessionID payload -> xc_KeyID x = kd_KeyID d -> xc_DescriptorBytes x = db ->
  strictBase64 "shareBlob" (ap_ShareBlob payload) maxArtifactPayloadBytes = Ok blob ->
  inspect_key_material blob = Ok km -> ParseChainCodeHash (kd_ChainCodeHash d) = Ok h ->
  loadValidatedRuntimeShare config (Some x) raw
  = if h =s km_ChainCodeHash km then
      Ok (blob, {| ev_SessionID := ap_SessionID payload; ev_KeyID := kd_KeyID d; ev_PartyID := sc_PartyID config;
                   ev_Purpose := sc_purpose config; ev_DescriptorFingerprint := fp;
                   ev_AccountPublicKey := km_AccountPublicKey km; ev_ChainCodeHash := km_ChainCodeHash km;
                   ev_CodecVersion := km_CodecVersion km; ev_ArtifactFingerprint := sha256 raw |})
    else Fail (binding_error "chain code hash").
Proof.
  intros Ho Hl Hd Hv Hs Hp Hdb Ed Hxs Hxk Hxd Hb Ekm Hh.
  pose proof (ParseCanonicalDescriptor_facts _ _ _ Ed) as (_ & _ & Ha & Hc & _ & Hsch & Hfmt & Hpat & _).
  unfold loadValidatedRuntimeShare. rewrite Ho. cbn [mbind res_bind].
  rewrite (proj2 (Z.eqb_neq _ _)), (proj2 (Z.ltb_ge _ _)) by lia. cbn [orb negb ensure mbind res_bind].
  rewrite Hd. cbn [mbind res_bind].
  rewrite Hv, (proj2 (String.eqb_neq _ _) Hs), Hp, String.eqb_refl, Z.eqb_refl. cbn [orb negb ensure mbind res_bind].
  rewrite Hdb. cbn [mbind res_bind]. rewrite Ed. cbn [mbind res_bind].
  unfold canonicalKeyIDPattern. rewrite Hpat, (keyID_nonempty _ Hpat). cbn [orb negb ensure mbind res_bind].
  rewrite Hxs, Hxk, Hxd, (proj2 (String.eqb_neq _ _) Hs), !String.eqb_refl. cbn [orb negb ensure mbind res_bind].
  rewrite Hb. cbn [mbind res_bind]. rewrite Ekm. cbn [mbind res_bind]. rewrite Hh.
  destruct (h =s km_ChainCodeHash km); [|done]. cbn [ensure mbind res_bind]. by rewrite Ha, Hc, Hsch, Hfmt.
Qed.

(** (C18) An artifact that was written can be read back.  For a key provider and a session
    identifier in valid UTF-8, loading what [encodeArtifactV1] wrote, in the context it
    was written for, returns exactly the share and the evidence of the input, with the
    SHA-256 of the file as fingerprint; the only way to fail is key material whose
    chain-code hash is not the descriptor's, which is refused as a binding error. *)
Theorem artifact_roundtrip config input nonce raw :
  encodeArtifactV1 config input nonce = Ok raw ->
  utf8_valid (sc_KeyRef config) = true -> utf8_valid (pi_SessionID input) = true ->
  exists d fp h km,
    ParseCanonicalDescriptor (pi_DescriptorBytes input) = Ok (d, fp)
    /\ ParseChainCodeHash (kd_ChainCodeHash d) = Ok h
    /\ inspect_key_material (pi_CodecBlob input) = Ok km
    /\ loadValidatedRuntimeShare config (Some (input_context input)) raw
       = if h =s km_ChainCodeHash km then Ok (pi_CodecBlob input, input_evidence config input km raw)
         else Fail (binding_error "chain code hash").
Proof.
  intros He Hk Hs. destruct (open_envelope_encode _ _ _ _ He Hk) as [Ho Hl].
  assert (Hv : exists u, validatePublishInput config input = Ok u) by (unfold encodeArtifactV1 in He; inv_ok; eauto).
  destruct Hv as [u Hv]. apply validatePublishInput_Ok in Hv as (Hsid & Hpid & (d & Ed & Hkd & Hpat) & Hb & Hbl & km & Ekm).
  pose proof (ParseCanonicalDescriptor_facts _ _ _ Ed) as
    (_ & _ & Ha & Hc & _ & Hsch & Hfmt & _ & (h & Hh) & _ & _ & Hdl & Hdn).
  exists d, (sha256 (pi_DescriptorBytes input)), h, km. split_and!; [done..|].
  assert (Hp : (0 < zlen (json_print (payload_json (input_payload input))))%Z)
    by (apply nonempty_length, json_object_nonempty).
  rewrite (load_run config (input_context input) raw _ (input_payload input) (pi_DescriptorBytes input) d
             (sha256 (pi_DescriptorBytes input)) (pi_CodecBlob input) km h Ho); try done.
  - unfold input_evidence. cbn [input_payload ap_SessionID]. by rewrite Hkd.
  - apply payload_roundtrip; [done|done| |by repeat eexists]. cbn [input_payload ap_PartyID]. rewrite Hpid.
    apply PartyID_utf8.
  - apply strictBase64_encode; [done|]. unfold zlen, maxArtifactPayloadBytes. lia.
  - by apply strictBase64_encode.
Qed.
End Roundtrip.

(** * What an accepted artifact guarantees *)

Section Accepted.
Context `{Externals}.

(** An artifact file with its nonce, sealed bytes, payload and key material. *)
Record authentic (config : StoreConfig) (raw blob : bytes) (ev : ArtifactEvidence) (db : bytes) : Prop := {
  auth_envelope : exists nonce ciphertext tag,
    raw = json_print (envelope_json {| env_Version := 1; env_Encryption := {|
            ae_Algorithm := "AES-256-GCM"; ae_KeyRef := sc_KeyRef config; ae_Nonce := b64_encode b64_std nonce;
            ae_Ciphertext := b64_encode b64_std ciphertext; ae_Tag := b64_encode b64_std tag |} |})
    /\ zlen nonce = 12%Z /\ zlen tag = 16%Z
    /\ gcm_open (kp_key (sc_keyProvider config)) nonce (ciphertext +:+ tag)
       = Some (json_print (payload_json {|
           ap_ArtifactPayloadVersion := 1; ap_SessionID := ev_SessionID ev; ap_PartyID := sc_PartyID config;
           ap_DescriptorBytesBase64 := b64_encode b64_std db; ap_ShareBlob := b64_encode b64_std blob |}));
  auth_session : ev_SessionID ev <> "";
  auth_party : ev_PartyID ev = sc_PartyID config;
  auth_purpose : ev_Purpose ev = sc_purpose config;
  auth_descriptor : exists d, ParseCanonicalDescriptor db = Ok (d, ev_DescriptorFingerprint ev)
    /\ kd_KeyID d = ev_KeyID ev /\ ParseChainCodeHash (kd_ChainCodeHash d) = Ok (ev_ChainCodeHash ev);
  auth_material : inspect_key_material blob = Ok {|
    km_AccountPublicKey := ev_AccountPublicKey ev; km_ChainCodeHash := ev_ChainCodeHash ev;
    km_CodecVersion := ev_CodecVersion ev |};
  auth_fingerprint : ev_ArtifactFingerprint ev = sha256 raw;
}.

Lemma open_envelope_Ok config raw pb : open_envelope config raw = Ok pb ->
  exists nonce ciphertext tag,
    raw = json_print (envelope_json {| env_Version := 1; env_Encryption := {|
            ae_Algorithm := "AES-256-GCM"; ae_KeyRef := sc_KeyRef config; ae_Nonce := b64_encode b64_std nonce;
            ae_Ciphertext := b64_encode b64_std ciphertext; ae_Tag := b64_encode b64_std tag |} |})
    /\ zlen nonce = 12%Z /\ zlen tag = 16%Z
    /\ gcm_open (kp_key (sc_keyProvider config)) nonce (ciphertext +:+ tag) = Some pb.
Proof.
  unfold open_envelope. intros Ho. inv_ok.
  match goal with Hd : match ?x with _ => _ end = Ok ?e |- _ =>
    destruct x as [e'|] eqn:Ed; [|discriminate Hd]; injection Hd as -> end.
  apply DecodeCanonical_Ok in Ed as [Hraw _]. split_bools.
  repeat match goal with Hs : strictBase64 _ _ _ = Ok _ |- _ => apply strictBase64_Ok in Hs as (? & _ & _) end.
  match goal with e : artifactEnvelopeV1 |- _ => destruct e as [v [al k n c t]] end.
  cbn [env_Version env_Encryption ae_Algorithm ae_KeyRef ae_Nonce ae_Ciphertext ae_Tag] in *. subst.
  do 3 eexists. split_and!; eauto.
Qed.

Lemma load_authentic config expected raw blob ev :
  loadValidatedRuntimeShare config expected raw = Ok (blob, ev) ->
  exists db, authentic config raw blob ev db
    /\ (forall x, expected = Some x -> ev_SessionID ev = xc_SessionID x /\ ev_KeyID ev = xc_KeyID x
                                       /\ db = xc_DescriptorBytes x).
Proof.
  unfold loadValidatedRuntimeShare. intros Hl. inv_ok.
  match goal with Ho : open_envelope _ _ = Ok _ |- _ => apply open_envelope_Ok in Ho as (n & c & t & Hraw & Hn & Ht & Hg) end.
  match goal with Hd : match DecodeCanonical _ _ _ with _ => _ end = Ok ?e |- _ =>
    destruct (DecodeCanonical _ _ _) as [e'|] eqn:Ed; [|discriminate Hd]; injection Hd as -> end.
  apply DecodeCanonical_Ok in Ed as [Hpb _]. subst.
  match goal with p : KeyDescriptorV1 * bytes |- _ => destruct p as [d fp] end. inv_ok.
  match goal with Hd : match ParseCanonicalDescriptor _ with _ => _ end = Ok _ |- _ =>
    destruct (ParseCanonicalDescriptor _) as [[d' fp']|] eqn:Edd; [|discriminate Hd]; injection Hd as -> -> end.
  match goal with Hd : match ParseChainCodeHash _ with _ => _ end = Ok _ |- _ =>
    destruct (ParseChainCodeHash _) as [h|] eqn:Eh; [|discriminate Hd] end. inv_ok. split_bools. subst.
  repeat match goal with Hs : strictBase64 _ _ _ = Ok _ |- _ => apply strictBase64_Ok in Hs as (? & _ & _) end.
  match goal with e : artifactPayloadV1 |- _ => destruct e as [v s q dd b] end.
  cbn [ap_ArtifactPayloadVersion ap_SessionID ap_PartyID ap_DescriptorBytesBase64 ap_ShareBlob] in *. subst.
  eexists. split.
  - constructor; cbn [ev_SessionID ev_KeyID ev_PartyID ev_Purpose ev_DescriptorFingerprint ev_AccountPublicKey
      ev_ChainCodeHash ev_CodecVersion ev_ArtifactFingerprint]; [by repeat eexists|done..|eauto| |done].
    by match goal with km : KeyMaterial |- _ => destruct km end.
  - intros ctx ->. inv_ok. split_bools. done.
Qed.
End Accepted.

(** * Artifacts are immutable *)

Definition artifact_path (s : Store) (keyID : string) : path :=
  (sc_directory (st_config s), keyID +:+ "." +:+ sc_purpose (st_config s) +:+ ".json").

Lemma finalPath_Ok s k p : finalPath s k = Ok p -> p = artifact_path s k /\ temporary p = false.
Proof.
  unfold finalPath. destruct (canonicalKeyIDPattern k) eqn:Hk; [|done]. intros [= <-]. split; [done|].
  unfold temporary, temp_name, hidden. cbn [snd].
  unfold canonicalKeyIDPattern, keyIDPattern in Hk.
  destruct k as [|c k]; [done|]. cbn [strip_prefix mbind option_bind] in Hk.
  destruct (Ascii.eqb "m" c) eqn:Ec; [|done]. apply Ascii.eqb_eq in Ec as <-. done.
Qed.

Lemma looks_readArtifactFile pl p : looks (readArtifactFile pl p).
Proof.
  destruct pl; unfold readArtifactFile, darwin_readArtifactFile, linux_readArtifactFile, unsupported_readArtifactFile; solve_looks.
Qed.
#[export] Hint Resolve looks_readArtifactFile : safe.

Lemma read_open_Ok p w f w' : open_nofollow p w = (Ok f, w') -> vis w !! p = Some f /\ vis w' = vis w.
Proof.
  intros Ho. pose proof (looks_open_nofollow p w) as Hl. rewrite Ho in Hl. injection Hl as Hv _. split; [|done].
  apply sys_Ok in Ho as (s & Ho). cbn in Ho. destruct (vis w !! p) as [g|]; [|done]. destruct (f_kind g); by simplify_eq.
Qed.
Lemma read_data_Ok (f : file) w raw w' : sys (fun w => (Ok (f_data f), w)) w = (Ok raw, w') -> raw = f_data f.
Proof. intros Hr. apply sys_Ok in Hr as (s & Hr). by simplify_eq. Qed.

Lemma linux_readArtifactFile_Ok p w raw w' : linux_readArtifactFile p w = (Ok raw, w') ->
  exists f, vis w !! p = Some f /\ f_data f = raw.
Proof.
  unfold linux_readArtifactFile. intros Hr. apply bind_Ok_inv in Hr as (f & w1 & Ho & Hr).
  apply read_open_Ok in Ho as [Hf _]. exists f. split; [done|].
  apply bind_Ok_inv in Hr as (u & w2 & _ & Hr). do 3 (case_match; [done|]).
  apply bind_Ok_inv in Hr as (b & w3 & ->%read_data_Ok & Hr). case_match; [done|]. by injection Hr.
Qed.
Lemma unsupported_readArtifactFile_Ok p w raw w' : unsupported_readArtifactFile p w = (Ok raw, w') ->
  exists f, vis w !! p = Some f /\ f_data f = raw.
Proof.
  unfold unsupported_readArtifactFile. intros Hr. apply bind_Ok_inv in Hr as (i & w1 & Hl & Hr).
  pose proof (looks_lstat p w) as Hv. rewrite Hl in Hv. injection Hv as Hv _. do 2 (case_match; [done|]).
  apply bind_Ok_inv in Hr as (f & w2 & Ho & Hr). apply read_open_Ok in Ho as [Hf _]. rewrite Hv in Hf. exists f. split; [done|].
  apply bind_Ok_inv in Hr as (u & w3 & _ & Hr). case_match; [done|].
  apply bind_Ok_inv in Hr as (b & w4 & ->%read_data_Ok & Hr). case_match; [done|]. by injection Hr.
Qed.
Lemma readArtifactFile_Ok pl p w raw w' : readArtifactFile pl p w = (Ok raw, w') ->
  exists f, vis w !! p = Some f /\ f_data f = raw.
Proof. destruct pl; [apply linux_readArtifactFile_Ok..|apply unsupported_readArtifactFile_Ok]. Qed.

(** Without faults every platform reads a private regular file of an allowed size. *)
Lemma readArtifactFile_present pl p f w :
  sched w = [] -> vis w !! p = Some f -> f_kind f = Regular -> f_perm f = perm_0600 ->
  (0 < zlen (f_data f) <= maxArtifactEnvelopeBytes)%Z -> readArtifactFile pl p w = (Ok (f_data f), w).
Proof.
  intros Hs Hf Hreg Hperm Hlen.
  assert (H1 : (zlen (f_data f) <=? 0)%Z = false) by (apply Z.leb_gt; lia).
  assert (H2 : (maxArtifactEnvelopeBytes <? zlen (f_data f))%Z = false) by (apply Z.ltb_ge; lia).
  assert (H3 : (zlen (f_data f) =? 0)%Z = false) by (apply Z.eqb_neq; lia).
  destruct pl; unfold readArtifactFile, darwin_readArtifactFile, linux_readArtifactFile, unsupported_readArtifactFile,
    open_nofollow, lstat, sys, mbind, M_bind; rewrite ?Hs, ?Hf, ?Hreg; cbn beta iota;
    repeat (rewrite ?bool_decide_true, ?Hreg, ?Hperm, ?Z.eqb_refl, ?H1, ?H2, ?H3, ?Hs, ?Hf by done; cbn [negb orb]); done.
Qed.

Section Immutable.
Context `{Externals}.

Lemma looks_InspectExisting s c x : looks (InspectExisting s c x).
Proof. unfold InspectExisting. solve_looks. Qed.

Lemma InspectExisting_Ok s c x w ev w' : InspectExisting s c x w = (Ok ev, w') ->
  exists f blob, vis w !! artifact_path s (xc_KeyID x) = Some f
    /\ loadValidatedRuntimeShare (st_config s) (Some x) (f_data f) = Ok (blob, ev).
Proof.
  unfold InspectExisting. destruct c; [done|]. intros Hi.
  apply bind_Ok_inv in Hi as (p & w1 & Hp & Hi). unfold lift in Hp. injection Hp as Hp <-.
  apply finalPath_Ok in Hp as [-> _]. apply bind_Ok_inv in Hi as (r & w2 & Hr & Hi).
  apply attempt_Ok_inv in Hr as (r' & [= ->] & Hr). destruct r' as [raw|e]; [|by case_match].
  apply readArtifactFile_Ok in Hr as (f & Hf & <-).
  apply bind_Ok_inv in Hi as ([blob ev'] & w3 & Hl & Hi). unfold lift in Hl. injection Hl as Hl <-.
  injection Hi as <- <-. eauto.
Qed.

(** Reading back without faults. *)
Lemma InspectExisting_present s x f w blob ev :
  sched w = [] -> canonicalKeyIDPattern (xc_KeyID x) = true -> vis w !! artifact_path s (xc_KeyID x) = Some f ->
  f_kind f = Regular -> f_perm f = perm_0600 -> (0 < zlen (f_data f) <= maxArtifactEnvelopeBytes)%Z ->
  loadValidatedRuntimeShare (st_config s) (Some x) (f_data f) = Ok (blob, ev) ->
  InspectExisting s None x w = (Ok ev, w).
Proof.
  intros Hs Hk Hf Hreg Hperm Hlen Hl.
  pose proof (readArtifactFile_present (st_platform s) (artifact_path s (xc_KeyID x)) f w Hs Hf Hreg Hperm Hlen) as Hr.
  unfold InspectExisting, finalPath, attempt, lift, mbind, M_bind. rewrite Hk. cbv beta iota delta [negb].
  unfold artifact_path in Hr. rewrite Hr. cbv beta iota. by rewrite Hl.
Qed.
End Immutable.

Section Stores.
Context `{Externals}.

(** What a publication attempt may have done to the files. *)
Record publication (s : Store) (input : PublishInput) (w : world) (r : res ArtifactEvidence) (w' : world) : Prop := {
  pub_inv : inv w';
  pub_evolves : evolves w w';
  pub_others : forall q, temporary q = false -> q <> artifact_path s (pi_KeyID input) -> vis w' !! q = vis w !! q;
  pub_own : vis w' !! artifact_path s (pi_KeyID input) = vis w !! artifact_path s (pi_KeyID input)
    \/ vis w !! artifact_path s (pi_KeyID input) = None
       /\ exists nonce raw, encodeArtifactV1 (st_config s) input nonce = Ok raw
          /\ vis w' !! artifact_path s (pi_KeyID input) = Some (new_file w raw);
  pub_ok : forall ev, r = Ok ev -> vis w !! artifact_path s (pi_KeyID input) = None
    /\ exists nonce raw blob, encodeArtifactV1 (st_config s) input nonce = Ok raw
       /\ dur w' !! artifact_path s (pi_KeyID input) = Some (new_file w raw)
       /\ loadValidatedRuntimeShare (st_config s) (Some (input_context input)) raw = Ok (blob, ev);
}.

Lemma publication_failed s input w e : inv w -> publication s input w (Fail e) w.
Proof. intros Hi. split; [done|reflexivity|done|by left|done]. Qed.

Lemma publishDurably_run ops `{!PublishLaws ops} p raw w : temporary p = false -> inv w ->
  publish_post w p (new_file w raw) (publishDurably ops p raw w).1 (publishDurably ops p raw w).2.
Proof.
  intros Hp Hi. unfold publishDurably, mbind, M_bind.
  pose proof (publishDurablyTracked_spec ops w p raw Hp w (untouched_start w Hi)) as [H1 H2].
  destruct (publishDurablyTracked ops p raw w) as [[[b err]|e] w']; cbn [fst snd] in *; [|by split].
  unfold lift. cbn. split; [done|]. intros Hok. destruct err; [done|]. by destruct (H2 b None eq_refl eq_refl).
Qed.
Lemma publishArtifactFile_run pl p raw w : temporary p = false -> inv w ->
  publish_post w p (new_file w raw) (publishArtifactFile pl p raw w).1 (publishArtifactFile pl p raw w).2.
Proof.
  intros Hp Hi. destruct pl; [exact (publishDurably_run realPublishOperations p raw w Hp Hi)
    |exact (publishDurably_run darwinPublishOperations p raw w Hp Hi)|].
  cbn. by eapply untouched_post, untouched_start.
Qed.

Lemma PublishAndInspect_publication s c1 c2 nonce input w : inv w ->
  publication s input w (PublishAndInspect s c1 c2 nonce input w).1 (PublishAndInspect s c1 c2 nonce input w).2.
Proof.
  intros Hi. unfold PublishAndInspect. destruct c1; [by apply publication_failed|].
  destruct (st_publishSupported s); [|by apply publication_failed]. cbn [negb]. unfold lift, mbind, M_bind.
  destruct (finalPath s (pi_KeyID input)) as [p|] eqn:Ep; [|by apply publication_failed].
  apply finalPath_Ok in Ep as [-> Hp]. destruct nonce as [n|]; [|by apply publication_failed].
  destruct (encodeArtifactV1 (st_config s) input n) as [raw|] eqn:Eraw; [|by apply publication_failed].
  pose proof (publishArtifactFile_run (st_platform s) _ raw w Hp Hi) as [(Hi' & He & Hq & Hor) Hok].
  destruct (publishArtifactFile (st_platform s) (artifact_path s (pi_KeyID input)) raw w) as [[[]|e] w1]; cbn [fst snd] in *.
  2: { split; [done|done|done| |done]. destruct Hor as [?|[??]]; [by left|right; eauto]. }
  destruct (Hok eq_refl) as (Hn & Hv & Hd). fold (input_context input).
  pose proof (looks_InspectExisting s c2 (input_context input) w1) as Hlk. unfold entries in Hlk.
  pose proof (safe_InspectExisting s c2 (input_context input) w1 Hi') as [Hi2 He2].
  destruct (InspectExisting s c2 (input_context input) w1) as [r w2] eqn:Ei. cbn [fst snd] in *.
  injection Hlk as Hvis Hdur. split; [done|by etrans|by rewrite Hvis| |].
  - rewrite Hvis. right. eauto.
  - intros ev ->. split; [done|]. apply InspectExisting_Ok in Ei as (f & blob & Hf & Hl).
    cbn [input_context xc_KeyID] in Hf. exists n, raw, blob. rewrite Hdur. simplify_eq. done.
Qed.

(** (C19) Artifacts are written whole, once, and never replaced, whatever faults strike.
    An attempt to publish leaves every other published file alone, and its own file
    either as it was or, if it was absent, with the complete artifact of its input.  When
    it succeeds the file was absent before, is durable, and is authentic: an exact
    envelope sealed under the store's key around the session, party, descriptor and share
    of the input, with the fingerprint of the file as evidence. *)
Theorem PublishAndInspect_immutable s c1 c2 nonce input w r w' :
  inv w -> PublishAndInspect s c1 c2 nonce input w = (r, w') ->
  (forall q f, temporary q = false -> vis w !! q = Some f -> vis w' !! q = Some f)
  /\ (forall q, temporary q = false -> q <> artifact_path s (pi_KeyID input) -> vis w' !! q = vis w !! q)
  /\ (vis w' !! artifact_path s (pi_KeyID input) = vis w !! artifact_path s (pi_KeyID input)
      \/ exists n raw, encodeArtifactV1 (st_config s) input n = Ok raw
         /\ vis w' !! artifact_path s (pi_KeyID input) = Some (new_file w raw))
  /\ (forall ev, r = Ok ev ->
        vis w !! artifact_path s (pi_KeyID input) = None
        /\ exists raw blob, dur w' !! artifact_path s (pi_KeyID input) = Some (new_file w raw)
           /\ authentic (st_config s) raw blob ev (pi_DescriptorBytes input)
           /\ ev_SessionID ev = pi_SessionID input /\ ev_KeyID ev = pi_KeyID input).
Proof.
  intros Hi Hp. pose proof (PublishAndInspect_publication s c1 c2 nonce input w Hi) as Hpub.
  rewrite Hp in Hpub. destruct Hpub as [Hi' (He & _) Hq Hown Hok]. cbn [fst snd] in *. split_and!; [done|done| |].
  - destruct Hown as [?|(_ & n & raw & ?)]; [by left|right; eauto].
  - intros ev ->. destruct (Hok ev eq_refl) as (Hn & n & raw & blob & _ & Hd & Hl). split; [done|].
    apply load_authentic in Hl as (db & Ha & Hx). destruct (Hx _ eq_refl) as (?&?&->). eauto 10.
Qed.
End Stores.

(** * Artifacts are permanent *)

Section Runs.
Context `{Externals}.
#[local] Opaque json_print b64_encode.

(** A step of a running system on the artifact files: an operation of any store, whatever
    it returns, a change of the environment that leaves the files alone, or a crash. *)
Inductive store_step : world -> world -> Prop :=
  | store_open b c sup w : store_step w (OpenStore b c sup w).2
  | store_probe s c entropy w : store_step w (ProbePublishCapability s c entropy w).2
  | store_exists s c k w : store_step w (Exists s c k w).2
  | store_inspect s c x w : store_step w (InspectExisting s c x w).2
  | store_load s c k w : store_step w (LoadShare s c k w).2
  | store_publish s c1 c2 nonce input w : store_step w (PublishAndInspect s c1 c2 nonce input w).2
  | store_save rw pair c c1 c2 nonce input w : store_step w (SaveShare rw pair c c1 c2 nonce input w).2
  | store_env w w' : vis w' = vis w -> dur w' = dur w -> dirty w' = dirty w -> euid w' = euid w -> store_step w w'
  | store_crash w w' : crash w w' -> store_step w w'.

Lemma safe_keeps {A} (m : M A) w : safe m -> inv w ->
  inv (m w).2 /\ forall p f, temporary p = false -> dur w !! p = Some f -> dur (m w).2 !! p = Some f.
Proof. intros Hm Hi. destruct (Hm w Hi) as [? (_ & ? & _)]. done. Qed.

Lemma store_step_keeps w w' : store_step w w' -> inv w ->
  inv w' /\ forall p f, temporary p = false -> dur w !! p = Some f -> dur w' !! p = Some f.
Proof.
  intros Hs Hi. destruct Hs as [| | | | | | |w w' Hv Hd Hdt _|w w' Hc]; [..|by apply crash_keeps].
  8: { unfold inv. by rewrite Hv, Hd, Hdt. }
  all: apply safe_keeps; [|exact Hi].
  - apply safe_OpenStore.
  - apply safe_Probe.
  - apply safe_Exists.
  - apply safe_InspectExisting.
  - apply safe_LoadShare.
  - apply safe_PublishAndInspect.
  - apply safe_SaveShare.
Qed.

Lemma store_steps_keep w w' : rtc store_step w w' -> inv w ->
  inv w' /\ forall p f, temporary p = false -> dur w !! p = Some f -> dur w' !! p = Some f.
Proof.
  induction 1 as [w|w w1 w' Hs _ IH]; intros Hi; [done|].
  destruct (store_step_keeps _ _ Hs Hi) as [Hi1 Hd1]. destruct (IH Hi1) as [Hi2 Hd2]. auto.
Qed.

Lemma encodeArtifactV1_size config input nonce raw : encodeArtifactV1 config input nonce = Ok raw ->
  (0 < zlen raw <= maxArtifactEnvelopeBytes)%Z /\ canonicalKeyIDPattern (pi_KeyID input) = true.
Proof.
  unfold encodeArtifactV1. intros He. inv_ok. split_bools.
  match goal with Hv : validatePublishInput _ _ = Ok _ |- _ =>
    apply validatePublishInput_Ok in Hv as (_ & _ & (d & _ & _ & Hpat) & _) end.
  split; [|done]. split; [|done]. apply nonempty_length, json_object_nonempty.
Qed.

(** (C20) A published artifact is permanent.  Once publication has returned evidence,
    then after any further operations on any stores, with any faults and crashes in
    between, an inspection that meets no fault returns that same evidence. *)
Theorem artifact_permanent s c1 c2 nonce input w ev w1 w2 :
  inv w -> PublishAndInspect s c1 c2 nonce input w = (Ok ev, w1) ->
  rtc store_step w1 w2 -> sched w2 = [] ->
  InspectExisting s None (input_context input) w2 = (Ok ev, w2).
Proof.
  intros Hi Hp Hr Hs. pose proof (PublishAndInspect_publication s c1 c2 nonce input w Hi) as Hpub.
  rewrite Hp in Hpub. destruct Hpub as [Hi1 _ _ _ Hok]. destruct (Hok ev eq_refl) as (_ & n & raw & blob & He & Hd & Hl).
  destruct (encodeArtifactV1_size _ _ _ _ He) as [Hsz Hpat]. cbn [fst snd] in *.
  assert (Ht : temporary (artifact_path s (pi_KeyID input)) = false).
  { eapply (finalPath_Ok s (pi_KeyID input)). unfold finalPath. by rewrite Hpat. }
  destruct (store_steps_keep _ _ Hr Hi1) as [[Hi2 _] Hk].
  apply (InspectExisting_present s (input_context input) (new_file w raw) w2 blob ev); try done.
  apply Hi2; [done|]. by apply Hk.
Qed.

(** * Routing *)

(** The store of a party. *)
Definition party_store (rw : RoutingWriter) (party : string) : Store :=
  if party =s recoveryPartyID then rw_recovery rw else rw_primary rw.

Lemma NewRoutingWriter_Ok primary recovery rw : NewRoutingWriter primary recovery = Ok rw ->
  sc_PartyID (st_config (rw_primary rw)) = primaryPartyID /\ sc_PartyID (st_config (rw_recovery rw)) = recoveryPartyID
  /\ sc_directory (st_config (rw_primary rw)) <> sc_directory (st_config (rw_recovery rw)).
Proof.
  unfold NewRoutingWriter, ValidateStorePair. intros Hn. inv_ok.
  match goal with Hv : (if _ then _ else _) = Ok _ |- _ => do 3 step_if Hv end.
  unfold pathsOverlap in *. split_bools. cbn [rw_primary rw_recovery]. unfold sc_PartyID.
  repeat match goal with E : sc_purpose _ = _ |- _ => rewrite E end. done.
Qed.

Lemma resolve_Ok pair input rc : resolve pair input = Ok rc ->
  exists a, pair_active pair = Some a /\ ss_SessionID input = aps_sessionID a /\ ss_KeyID input = aps_keyID a
    /\ (ss_LocalPartyID input = aps_primaryPartyID a \/ ss_LocalPartyID input = aps_recoveryPartyID a)
    /\ ss_OpaqueDescriptorFingerprint input = aps_fingerprint a
    /\ rc = {| rc_SessionID := aps_sessionID a; rc_KeyID := aps_keyID a; rc_PartyID := ss_LocalPartyID input;
               rc_DescriptorBytes := aps_descriptorBytes a; rc_CodecBlob := ss_CodecBlob input |}.
Proof.
  unfold resolve. destruct (pair_active pair) as [a|]; [|done]. intros Hr. step_if Hr. inv_ok. split_bools.
  exists a. split_and!; try done. match goal with E : _ || _ = true |- _ => apply orb_true_iff in E as [?|?] end; split_bools; auto.
Qed.

(** The registrations that [RegisterPair] and [Release] can produce. *)
Inductive pair_reachable : ActivePair -> Prop :=
  | pair_new : pair_reachable NewActivePair
  | pair_register reg s : pair_reachable s -> pair_reachable (RegisterPair reg s).2
  | pair_release g s : pair_reachable s -> pair_reachable (Release g s).

Lemma pair_reachable_active s a : pair_reachable s -> pair_active s = Some a ->
  aps_primaryPartyID a = primaryPartyID /\ aps_recoveryPartyID a = recoveryPartyID /\ aps_sessionID a <> ""
  /\ aps_fingerprint a = sha256 (aps_descriptorBytes a)
  /\ exists d, ParseCanonicalDescriptor (aps_descriptorBytes a) = Ok (d, aps_fingerprint a) /\ kd_KeyID d = aps_keyID a.
Proof.
  intros Hr. revert a. induction Hr as [|reg s _ IH|g s _ IH]; intros a; [done| |].
  - unfold RegisterPair. destruct (ParseCanonicalDescriptor _) as [[d fp]|] eqn:Ed; [|apply IH].
    case_match eqn:Eb; [apply IH|]. split_bools. destruct (pair_active s) as [a0|] eqn:Ea; [rewrite <- Ea in *; apply IH|].
    intros [= <-]. cbn. pose proof (ParseCanonicalDescriptor_facts _ _ _ Ed) as Hf. destruct_and! Hf. subst fp. eauto 10.
  - unfold Release. destruct (pair_active s) as [a0|] eqn:Ea; [|by rewrite Ea].
    case_match; [done|]. rewrite Ea. apply IH.
Qed.

Lemma party_store_spec primary recovery rw party : NewRoutingWriter primary recovery = Ok rw ->
  party = primaryPartyID \/ party = recoveryPartyID ->
  (if party =s sc_PartyID (st_config (rw_recovery rw)) then Ok (rw_recovery rw)
   else if party <>s sc_PartyID (st_config (rw_primary rw)) then Fail (ESent ErrPersistenceContextMismatch)
   else Ok (rw_primary rw)) = Ok (party_store rw party)
  /\ sc_PartyID (st_config (party_store rw party)) = party.
Proof.
  intros Hn Hp. apply NewRoutingWriter_Ok in Hn as (H1 & H2 & _). unfold party_store. rewrite H1, H2.
  destruct Hp as [-> | ->]; done.
Qed.

(** A share is saved only under the registration in force and only in the store of
    its party.  Whatever faults strike, if [SaveShare] changes any published file then the
    session, key, party and descriptor fingerprint of the share are those of the active
    registration and the file is that key's artifact in the store of that party, which
    the other party's store cannot name; and when it succeeds that artifact is new,
    durable and authentic for the registered session and descriptor. *)
Theorem SaveShare_routed primary recovery rw pair c c1 c2 nonce input w r w' :
  inv w -> NewRoutingWriter primary recovery = Ok rw -> pair_reachable pair ->
  SaveShare rw pair c c1 c2 nonce input w = (r, w') ->
  (forall q, temporary q = false -> vis w' !! q <> vis w !! q ->
     exists a, pair_active pair = Some a /\ ss_SessionID input = aps_sessionID a /\ ss_KeyID input = aps_keyID a
       /\ ss_OpaqueDescriptorFingerprint input = sha256 (aps_descriptorBytes a)
       /\ (ss_LocalPartyID input = primaryPartyID \/ ss_LocalPartyID input = recoveryPartyID)
       /\ q = artifact_path (party_store rw (ss_LocalPartyID input)) (aps_keyID a))
  /\ (forall k k', artifact_path (rw_primary rw) k <> artifact_path (rw_recovery rw) k')
  /\ (r = Ok () -> exists a raw blob ev, pair_active pair = Some a
       /\ vis w !! artifact_path (party_store rw (ss_LocalPartyID input)) (aps_keyID a) = None
       /\ dur w' !! artifact_path (party_store rw (ss_LocalPartyID input)) (aps_keyID a) = Some (new_file w raw)
       /\ authentic (st_config (party_store rw (ss_LocalPartyID input))) raw blob ev (aps_descriptorBytes a)
       /\ ev_SessionID ev = aps_sessionID a /\ ev_KeyID ev = aps_keyID a /\ ev_PartyID ev = ss_LocalPartyID input).
Proof.
  intros Hi Hrw Hpair Hs.
  assert (Hdir : forall k k', artifact_path (rw_primary rw) k <> artifact_path (rw_recovery rw) k').
  { apply NewRoutingWriter_Ok in Hrw as (_ & _ & Hd). intros k k' [= E _]. done. }
  revert Hs. unfold SaveShare, lift, mbind, M_bind. destruct c; [by intros [= <- <-]|].
  destruct (resolve pair input) as [rc|] eqn:Er; [|by intros [= <- <-]].
  apply resolve_Ok in Er as (a & Ha & Hsid & Hkey & Hparty & Hfp & ->).
  destruct (pair_reachable_active _ _ Hpair Ha) as (Hpp & Hrp & _ & Hsha & _). rewrite Hpp, Hrp in Hparty. rewrite Hsha in Hfp.
  destruct (party_store_spec _ _ _ _ Hrw Hparty) as [Hst Hpid]. cbn [rc_PartyID]. rewrite Hst. cbn [rc_SessionID rc_KeyID rc_DescriptorBytes rc_CodecBlob].
  set (st := party_store rw (ss_LocalPartyID input)) in *. set (pin := Build_PublishInput _ _ _ _ _).
  pose proof (PublishAndInspect_publication st c1 c2 nonce pin w Hi) as Hpub.
  destruct (PublishAndInspect st c1 c2 nonce pin w) as [r1 w1] eqn:Ep. cbn [fst snd] in Hpub.
  destruct Hpub as [_ _ Hq Hown Hok]. cbn [pin pi_KeyID] in Hq, Hown, Hok.
  intros Hs. assert (w' = w1 /\ (r = Ok () -> exists ev, r1 = Ok ev)) as [-> Hev]
    by (destruct r1; injection Hs as <- <-; split; [done|eauto|done|done]).
  split_and!; [|exact Hdir|].
  - intros q Ht Hne. exists a. split_and!; try done.
    destruct (decide (q = artifact_path st (aps_keyID a))) as [->|Hn]; [done|]. exfalso. by apply Hne, Hq.
  - intros Hr. destruct (Hev Hr) as [ev ->]. destruct (Hok ev eq_refl) as (Hn & n & raw & blob & _ & Hd & Hl).
    apply load_authentic in Hl as (db & Hau & Hx). destruct (Hx _ eq_refl) as (Hx1 & Hx2 & ->).
    exists a, raw, blob, ev. split_and!; try done. by rewrite (auth_party _ _ _ _ _ Hau).
Qed.
End Runs.

(** * A concrete run *)

Lemma substring_prefix s t : String.substring 0 (String.length s) (s +:+ t) = s.
Proof. induction s as [|c s IH]; [by destruct t|]. rewrite sapp_cons. cbn [String.length String.substring]. by rewrite IH. Qed.
Lemma substring_length n s : (n <= String.length s)%nat -> String.length (String.substring 0 n s) = n.
Proof. revert s. induction n as [|n IH]; intros [|c s]; cbn; try lia. intros. rewrite IH; lia. Qed.
Lemma toy_tag_length key nonce msg : String.length (toy_tag key nonce msg) = 16%nat.
Proof. unfold toy_tag. apply substring_length. rewrite sha256_length. lia. Qed.

#[export] Instance toy_aead : @AEAD toy_externals.
Proof.
  split; intros key nonce msg; cbn [gcm_open gcm_seal toy_externals].
  - rewrite sapp_length, toy_tag_length, Nat.add_sub, substring_prefix, String.eqb_refl. done.
  - by rewrite sapp_length, toy_tag_length.
Qed.

Definition fixture_key : KeyProvider := {| kp_object := 1; kp_key := sha256 "key"; kp_keyRef := "key-v1" |}.
Definition fixture_primary : Store :=
  {| st_config := {| sc_purpose := "primary"; sc_directory := "/shares/a"; sc_keyProvider := fixture_key |};
     st_platform := Linux |}.
Definition fixture_recovery : Store :=
  {| st_config := {| sc_purpose := "recovery"; sc_directory := "/shares/b"; sc_keyProvider := fixture_key |};
     st_platform := Linux |}.
Definition fixture_share : bytes := String "002" (sha256 "share").
Definition fixture_share_descriptor : bytes := jtext (
  "{'algorithm':'ECDSA','chainCodeHash':'" ++ digest_String (sha256 fixture_share) ++ "',"
  ++ "'curve':'secp256k1','derivationScheme':'bip32_secp256k1',"
  ++ "'descriptorKind':'mpc-key-descriptor','descriptorVersion':1,"
  ++ "'keyId':'mpc_key_123e4567-e89b-42d3-a456-426614174000',"
  ++ "'parties':[{'partyId':'mpc-signer','purpose':'platform'},"
  ++ "{'partyId':'co-signer-primary','purpose':'primary'},"
  ++ "{'partyId':'co-signer-recovery','purpose':'recovery'}],"
  ++ "'protocolVersion':1,'publicKeyFormat':'compressed_sec1','threshold':2}").
Definition fixture_key_id := "mpc_key_123e4567-e89b-42d3-a456-426614174000".
Definition fixture_input : PublishInput :=
  {| pi_SessionID := "session-1"; pi_KeyID := fixture_key_id; pi_PartyID := primaryPartyID;
     pi_DescriptorBytes := fixture_share_descriptor; pi_CodecBlob := fixture_share |}.
Definition fixture_nonce : bytes := "0123456789ab".
Definition fixture_files : world :=
  {| vis := ∅; dur := ∅; dirty := ∅; dirs := ∅; links := ∅; euid := 1000; sched := [Good; Good; Good] |}.
Definition fixture_pair : ActivePair := (RegisterPair {|
  reg_SessionID := "session-1"; reg_KeyID := fixture_key_id; reg_PrimaryPartyID := primaryPartyID;
  reg_RecoveryPartyID := recoveryPartyID; reg_DescriptorBytes := fixture_share_descriptor |} NewActivePair).2.
Definition fixture_save : SaveShareInput :=
  {| ss_SessionID := "session-1"; ss_KeyID := fixture_key_id; ss_LocalPartyID := recoveryPartyID;
     ss_OpaqueDescriptorFingerprint := sha256 fixture_share_descriptor; ss_CodecBlob := fixture_share |}.

Lemma fixture_files_inv : inv fixture_files.
Proof. split; [done|]. set_solver. Qed.

Lemma artifact_roundtrip_witness : exists raw,
  encodeArtifactV1 (st_config fixture_primary) fixture_input fixture_nonce = Ok raw
  /\ is_ok (loadValidatedRuntimeShare (st_config fixture_primary) (Some (input_context fixture_input)) raw) = true.
Proof.
  destruct (is_ok_ex (encodeArtifactV1 (st_config fixture_primary) fixture_input fixture_nonce)) as [raw E];
    [vm_compute; reflexivity|].
  exists raw. split; [exact E|].
  destruct (artifact_roundtrip _ _ _ _ E eq_refl eq_refl) as (d & fp & h & km & Hd & Hh & Hk & Hl).
  rewrite Hl. assert (Hkm : km_ChainCodeHash km = sha256 fixture_share) by (vm_compute in Hk; injection Hk as <-; vm_compute; reflexivity).
  assert (h = sha256 fixture_share) as ->.
  { clear - Hd Hh. vm_compute in Hd. injection Hd as <- <-. vm_compute in Hh. injection Hh as <-. vm_compute. reflexivity. }
  rewrite Hkm, String.eqb_refl. reflexivity.
Defined.

Lemma PublishAndInspect_immutable_witness : exists ev w', 
  PublishAndInspect fixture_primary None None (Ok fixture_nonce) fixture_input fixture_files = (Ok ev, w')
  /\ vis fixture_files !! artifact_path fixture_primary fixture_key_id = None
  /\ ev_SessionID ev = "session-1".
Proof.
  destruct (PublishAndInspect fixture_primary None None (Ok fixture_nonce) fixture_input fixture_files) as [r w'] eqn:E.
  destruct (is_ok_ex r) as [ev ->].
  { apply (f_equal fst) in E. cbn [fst] in E. rewrite <- E. vm_compute. reflexivity. }
  exists ev, w'. split; [reflexivity|].
  destruct (PublishAndInspect_immutable _ _ _ _ _ _ _ _ fixture_files_inv E) as (_ & _ & _ & Hok).
  destruct (Hok ev eq_refl) as (Hn & raw & blob & _ & _ & Hs & _). split; [exact Hn|exact Hs].
Defined.

Lemma artifact_permanent_witness : exists ev w',
  PublishAndInspect fixture_primary None None (Ok fixture_nonce) fixture_input fixture_files = (Ok ev, w')
  /\ InspectExisting fixture_primary None (input_context fixture_input) (with_sched w' []) = (Ok ev, with_sched w' []).
Proof.
  destruct (PublishAndInspect fixture_primary None None (Ok fixture_nonce) fixture_input fixture_files) as [r w'] eqn:E.
  destruct (is_ok_ex r) as [ev ->].
  { apply (f_equal fst) in E. cbn [fst] in E. rewrite <- E. vm_compute. reflexivity. }
  exists ev, w'. split; [reflexivity|].
  refine (artifact_permanent _ _ _ _ _ _ _ _ (with_sched w' []) fixture_files_inv E (rtc_once _ _ _) eq_refl).
  apply store_env; reflexivity.
Defined.

Lemma SaveShare_routed_witness : exists rw w' a,
  SaveShare rw fixture_pair None None None (Ok fixture_nonce) fixture_save fixture_files = (Ok (), w')
  /\ pair_active fixture_pair = Some a
  /\ vis fixture_files !! artifact_path fixture_recovery (aps_keyID a) = None
  /\ is_Some (dur w' !! artifact_path fixture_recovery (aps_keyID a)).
Proof.
  set (rw := {| rw_primary := fixture_primary; rw_recovery := fixture_recovery |}).
  assert (Hrw : NewRoutingWriter fixture_primary fixture_recovery = Ok rw) by (vm_compute; reflexivity).
  destruct (SaveShare rw fixture_pair None None None (Ok fixture_nonce) fixture_save fixture_files) as [r w'] eqn:E.
  assert (r = Ok ()) as ->.
  { apply (f_equal fst) in E. cbn [fst] in E. rewrite <- E. vm_compute. reflexivity. }
  destruct (SaveShare_routed _ _ _ _ _ _ _ _ _ _ _ _ fixture_files_inv Hrw (pair_register _ _ pair_new) E)
    as (_ & _ & Hok).
  destruct (Hok eq_refl) as (a & raw & blob & ev & Ha & Hn & Hd & _).
  exists rw, w', a. split; [exact E|]. split; [exact Ha|]. split; [exact Hn|]. exists (new_file fixture_files raw). exact Hd.
Defined.
