(* ===== verification/Terminal.v ===== *)
(** [internal/terminal]: the immutable job that reports a DKG result, the publisher
    that delivers it until the backend confirms it, its retry policy, and the single
    slot that runs one publication at a time.  The backend, the clock and the sleeper
    are the environment of a loop round. *)
From stdpp Require Import base tactics option list strings numbers gmap relations.
From Stdlib Require Import ZArith Lia Ascii String.
From S2P Require Import Prelude GoText Sha256 Json StrictJson Externals Mpc2of3 RawJson Monolith.

#[local] Open Scope string_scope.

(** * publisher.go: jobs *)

Record ArtifactInput := { inp_PartyID : string; inp_Purpose : string; inp_Fingerprint : bytes }.
Record CompletedInput := {
  ci_IntentID : string; ci_SessionID : string; ci_KeyID : string; ci_DescriptorFingerprint : bytes;
  ci_AccountPublicKey : bytes; ci_ChainCodeHash : bytes; ci_Primary : ArtifactInput;
  ci_Recovery : ArtifactInput;
}.

Record Job := { job_intentID : string; job_body : bytes; job_status : string; job_fingerprint : bytes }.

Section Jobs.
Context `{Externals}.

Definition newJob (result : TerminalResultV1) : res Job :=
  terminalBytes ← CanonicalTerminalResultBytes result;
  let fingerprint := TerminalResultFingerprintFor terminalBytes in
  raw ← of_option (marshal_raw terminalBytes) (EWrap "marshal terminal request" (ENew "json"));
  let body := "{" +:+ quote "terminalResult" +:+ ":" +:+ raw +:+ "," +:+ quote "terminalResultFingerprint"
              +:+ ":" +:+ quote (digest_String fingerprint) +:+ "}" in
  Ok {| job_intentID := tr_IntentID result; job_body := body; job_status := tr_Status result;
        job_fingerprint := fingerprint |}.

Definition artifact_result (a : ArtifactInput) : ArtifactResultV1 :=
  {| ar_ArtifactFingerprint := digest_String (inp_Fingerprint a); ar_PartyID := inp_PartyID a;
     ar_Purpose := inp_Purpose a |}.

Definition NewCompletedJob (input : CompletedInput) : res Job :=
  newJob {|
    tr_IntentID := ci_IntentID input; tr_KeyID := ci_KeyID input;
    tr_Result := Some {|
      Mpc2of3.cr_AccountPublicKey := hex_encode (ci_AccountPublicKey input);
      Mpc2of3.cr_Artifacts := [artifact_result (ci_Primary input); artifact_result (ci_Recovery input)];
      Mpc2of3.cr_ChainCodeHash := digest_String (ci_ChainCodeHash input);
      Mpc2of3.cr_DescriptorFingerprint := digest_String (ci_DescriptorFingerprint input) |};
    tr_ResultKind := "mpc-dkg-terminal-result"; tr_ResultVersion := 1;
    tr_SessionID := ci_SessionID input; tr_Status := TerminalStatusCompleted |}.

Definition NewFailedJob (intentID sessionID keyID : string) : res Job :=
  newJob {| tr_IntentID := intentID; tr_KeyID := keyID; tr_Result := None;
            tr_ResultKind := "mpc-dkg-terminal-result"; tr_ResultVersion := 1;
            tr_SessionID := sessionID; tr_Status := TerminalStatusFailed |}.

End Jobs.

Definition job_valid (j : Job) : bool := (job_intentID j <>s "") && negb (zlen (job_body j) =? 0)%Z.

(** * retry.go *)

Inductive RetryKind := RetryTransient | RetryProtocol.

Record RetryConfig := {
  InitialDelay : duration; MaxDelay : duration; ProtocolDelay : duration; MaxProtocolDelay : duration;
}.

(** [NewExponentialRetryPolicy]'s check of the delays. *)
Definition retry_config_ok (c : RetryConfig) : bool :=
  negb ((InitialDelay c <=? 0)%Z || (MaxDelay c <? InitialDelay c)%Z || (ProtocolDelay c <=? 0)%Z
        || (MaxProtocolDelay c <? ProtocolDelay c)%Z).

Definition DefaultRetryPolicy : RetryConfig := {|
  InitialDelay := 250 * millisecond; MaxDelay := 30 * second; ProtocolDelay := 5 * second;
  MaxProtocolDelay := 120 * second |}.

(** [int64] products wrap; [maximum / 2^shift] truncates, and both are positive here. *)
Definition i64 (z : Z) : Z := ((z + 2 ^ 63) mod 2 ^ 64 - 2 ^ 63)%Z.
Definition cappedExponential (initial maximum : duration) (attempt : Z) : duration :=
  if (attempt <=? 1)%Z then initial
  else
    let shift := (attempt - 1)%Z in
    if (63 <=? shift)%Z || (Z.quot maximum (Z.shiftl 1 shift) <? initial)%Z then maximum
    else
      let delay := i64 (initial * Z.shiftl 1 shift) in
      if (maximum <? delay)%Z then maximum else delay.

(** [NextDelay].  [jitter] is the policy's jitter fraction and random source: [None]
    for no jitter, else the floating-point scaling of a delay. *)
Definition NextDelay (c : RetryConfig) (jitter : option (duration -> Z)) (attempt : Z) (kind : RetryKind)
    : duration :=
  let '(initial, maximum) := match kind with
    | RetryTransient => (InitialDelay c, MaxDelay c)
    | RetryProtocol => (ProtocolDelay c, MaxProtocolDelay c)
    end in
  let delay := cappedExponential initial maximum attempt in
  match jitter with
  | None => delay
  | Some scale =>
      if (delay <=? 0)%Z then delay
      else
        let jittered := scale delay in
        if (maximum <? jittered)%Z then maximum
        else if (jittered <? 0)%Z then 0%Z
        else jittered
  end.

Definition nextAttempt (attempt : Z) : Z := if (attempt =? max_uint64)%Z then attempt else (attempt + 1)%Z.

(** * publisher.go: delivery *)

Definition OutcomeAccepted := "ACCEPTED".
Definition OutcomeExactReplay := "EXACT_REPLAY".
Definition OutcomeTerminalConflict := "TERMINAL_CONFLICT".

Record Outcome := { oc_Kind : string; AuthoritativeStatus : string; AuthoritativeFingerprint : bytes }.

Record terminalResponseV1 := { tw_fingerprint : string; tw_status : string; tw_http : Z; tw_outcome : string }.
Definition decode_terminalResponse : json -> option terminalResponseV1 :=
  decode_struct
    [("authoritativeResultFingerprint", set_string (fun s '(Build_terminalResponseV1 _ b c d) => Build_terminalResponseV1 s b c d));
     ("authoritativeStatus", set_string (fun s '(Build_terminalResponseV1 a _ c d) => Build_terminalResponseV1 a s c d));
     ("httpStatus", set_int (fun s '(Build_terminalResponseV1 a b _ d) => Build_terminalResponseV1 a b s d));
     ("outcome", set_string (fun s '(Build_terminalResponseV1 a b c _) => Build_terminalResponseV1 a b c s))]
    (Build_terminalResponseV1 "" "" 0 "").

Definition terminal_statuses : list string := [TerminalStatusCompleted; TerminalStatusFailed; TerminalStatusTimedOut].

Definition validateResponse (response : TerminalHTTPResponse) (job : Job) : res Outcome :=
  wire ← DecodeClosed decode_terminalResponse (th_Body response);
  if negb (tw_http wire =? th_StatusCode response)%Z then
    Fail (ENew "terminal response HTTP status mismatch")
  else if negb (existsb (String.eqb (tw_status wire)) terminal_statuses) then
    Fail (ENew "terminal response has invalid authoritative status")
  else match ParseTerminalResultFingerprint (tw_fingerprint wire) with
  | Fail _ => Fail (ENew "terminal response has invalid authoritative fingerprint")
  | Ok fingerprint =>
      let outcome := {| oc_Kind := tw_outcome wire; AuthoritativeStatus := tw_status wire;
                        AuthoritativeFingerprint := fingerprint |} in
      if (th_StatusCode response =? 200)%Z then
        if (oc_Kind outcome <>s OutcomeAccepted) && (oc_Kind outcome <>s OutcomeExactReplay) then
          Fail (ENew "terminal 200 response has invalid outcome")
        else if (tw_status wire <>s job_status job) || (fingerprint <>s job_fingerprint job) then
          Fail (ENew "terminal 200 response does not confirm submitted result")
        else Ok outcome
      else if (th_StatusCode response =? 409)%Z then
        if oc_Kind outcome <>s OutcomeTerminalConflict then
          Fail (ENew "terminal 409 response has invalid outcome")
        else Ok outcome
      else Fail (ENew "terminal response status is not authoritative")
  end.

(** One round of the loop of [Publish]: the context at its top, the answer to the
    post, the context after a failed post, and the result of the sleep. *)
Record round := {
  rd_ctx : option error; rd_post : res TerminalHTTPResponse; rd_ctx_after : option error;
  rd_sleep : option error;
}.

(** What a round decides, with the alert it raises. *)
Inductive step_result := Return (r : res Outcome) | Sleep (kind : RetryKind).
Definition publish_round (job : Job) (rd : round) : step_result * list (Z * string) :=
  match rd_post rd with
  | Fail _ =>
      match rd_ctx_after rd with
      | Some e => (Return (Fail e), [])
      | None => (Sleep RetryTransient, [])
      end
  | Ok response =>
      let status := th_StatusCode response in
      if ProtocolViolation response <>s "" then
        (Sleep RetryProtocol, [(status, ProtocolViolation response)])
      else if (500 <=? status)%Z then (Sleep RetryTransient, [])
      else if (status =? 200)%Z || (status =? 409)%Z then
        match validateResponse response job with
        | Ok outcome =>
            (Return (Ok outcome),
             if oc_Kind outcome =s OutcomeTerminalConflict then [(status, "terminal_conflict")] else [])
        | Fail _ => (Sleep RetryProtocol, [(status, "malformed_authoritative_response")])
        end
      else (Sleep RetryProtocol, [(status, "unexpected_http_status")])
  end.

(** The posts made, the alerts raised and the sleeps taken, in order. *)
Record trace := { posts : list (string * bytes); alerts : list (Z * string); sleeps : list (Z * RetryKind) }.
Definition add_trace (p : list (string * bytes)) (a : list (Z * string)) (s : list (Z * RetryKind)) (t : trace) : trace :=
  {| posts := (p ++ posts t)%list; alerts := (a ++ alerts t)%list; sleeps := (s ++ sleeps t)%list |}.
Definition no_trace : trace := {| posts := []; alerts := []; sleeps := [] |}.

(** [Publish]: [None] while it is still retrying at the end of the rounds. *)
Fixpoint publish_loop (job : Job) (attempt : Z) (rounds : list round) : trace * option (res Outcome) :=
  match rounds with
  | [] => (no_trace, None)
  | rd :: rounds =>
      match rd_ctx rd with
      | Some e => (no_trace, Some (Fail e))
      | None =>
          let sent := [(job_intentID job, job_body job)] in
          match publish_round job rd with
          | (Return r, alerts) => (add_trace sent alerts [] no_trace, Some r)
          | (Sleep kind, alerts) =>
              match rd_sleep rd with
              | Some e => (add_trace sent alerts [(attempt, kind)] no_trace, Some (Fail e))
              | None =>
                  let '(t, r) := publish_loop job (nextAttempt attempt) rounds in
                  (add_trace sent alerts [(attempt, kind)] t, r)
              end
          end
      end
  end.

Definition Publish (job : Job) (rounds : list round) : trace * option (res Outcome) :=
  if negb (job_valid job) then (no_trace, Some (Fail (ENew "terminal publication job is invalid")))
  else publish_loop job 1 rounds.

(** * single_slot.go *)

Record PublishResult := { pr_Outcome : option Outcome; pr_Err : option error }.
Definition publish_result (r : res Outcome) : PublishResult :=
  match r with
  | Ok o => {| pr_Outcome := Some o; pr_Err := None |}
  | Fail e => {| pr_Outcome := None; pr_Err := Some e |}
  end.

(** The goroutine of a handoff: publishing, about to release the slot, about to call
    the callback. *)
Inductive worker := Publishing (job : Job) | Releasing (job : Job) (r : res Outcome) | Calling (job : Job) (r : res Outcome).

(** [handed] and [called] log the accepted handoffs and the callbacks. *)
Record SingleSlot := {
  slot_started : bool; slot_occupied : bool; workers : gmap nat worker;
  handed : list Job; called : list (Job * PublishResult);
}.
Definition NewSingleSlot : SingleSlot :=
  {| slot_started := false; slot_occupied := false; workers := ∅; handed := []; called := [] |}.

Definition slot_Start (ctxErr : option error) (s : SingleSlot) : SingleSlot * option error :=
  if slot_started s then (s, Some (ESent ErrPublisherAlreadyStarted))
  else match ctxErr with
  | Some e => (s, Some e)
  | None => (Build_SingleSlot true (slot_occupied s) (workers s) (handed s) (called s), None)
  end.

(** [Handoff]: the job check and the caller's context, then the critical section with
    the slot's own context. *)
Definition Handoff (job : Job) (ctxErr slotErr : option error) (s : SingleSlot)
    : SingleSlot * option error :=
  if negb (job_valid job) then (s, Some (ENew "terminal publication job is invalid"))
  else match ctxErr with
  | Some e => (s, Some e)
  | None =>
      if negb (slot_started s) then (s, Some (ESent ErrPublisherNotStarted))
      else match slotErr with
      | Some e => (s, Some e)
      | None =>
          if slot_occupied s then (s, Some (ESent ErrPublisherSlotOccupied))
          else (Build_SingleSlot (slot_started s) true
                  (<[fresh (dom (workers s)) := Publishing job]> (workers s))
                  (handed s ++ [job])%list (called s), None)
      end
  end.

(** The steps of the slot: calls, and the three sections of the goroutine. *)
Inductive slot_step : SingleSlot -> SingleSlot -> Prop :=
  | step_start s ctxErr : slot_step s (slot_Start ctxErr s).1
  | step_handoff s job ctxErr slotErr : slot_step s (Handoff job ctxErr slotErr s).1
  | step_published s t job rounds tr r :
      workers s !! t = Some (Publishing job) -> Publish job rounds = (tr, Some r) ->
      slot_step s (Build_SingleSlot (slot_started s) (slot_occupied s)
                     (<[t := Releasing job r]> (workers s)) (handed s) (called s))
  | step_released s t job r :
      workers s !! t = Some (Releasing job r) ->
      slot_step s (Build_SingleSlot (slot_started s) false (<[t := Calling job r]> (workers s))
                     (handed s) (called s))
  | step_called s t job r :
      workers s !! t = Some (Calling job r) ->
      slot_step s (Build_SingleSlot (slot_started s) (slot_occupied s) (delete t (workers s)) (handed s)
                     (called s ++ [(job, publish_result r)])%list).

Definition holds_slot (w : worker) : bool := match w with Calling _ _ => false | _ => true end.
Definition job_of (w : worker) : Job :=
  match w with Publishing j | Releasing j _ | Calling j _ => j end.
