(* ===== verification/TerminalProofs.v ===== *)
(** What the delivery of a DKG result guarantees: a success is the backend's own
    confirmation of exactly the submitted result or its report of a conflict, the
    publisher gives up only when its context ends, the delays stay within their caps
    without overflow, and a slot runs one publication at a time and calls back once
    per accepted job. *)
From stdpp Require Import base tactics option list strings numbers gmap relations.
From Stdlib Require Import ZArith Lia Ascii String.
From S2P Require Import Prelude GoText Sha256 Json StrictJson Externals Mpc2of3 Monolith Terminal.

#[local] Open Scope string_scope.

(** * Responses *)

(** The two answers that end a publication.  The body of the response must be exactly
    a terminal response whose [httpStatus] is the status of the response itself and
    whose status, fingerprint and outcome are those of the result [o]; a 200 must
    accept the job's own result, a 409 must name the result that took its place. *)
Record confirms (job : Job) (response : TerminalHTTPResponse) (o : Outcome) : Prop := {
  cf_body : exists wire, DecodeClosed decode_terminalResponse (th_Body response) = Ok wire /\
    tw_http wire = th_StatusCode response /\ tw_status wire = AuthoritativeStatus o /\
    tw_outcome wire = oc_Kind o /\
    ParseTerminalResultFingerprint (tw_fingerprint wire) = Ok (AuthoritativeFingerprint o);
  cf_status : In (AuthoritativeStatus o) terminal_statuses;
  cf_decision :
    (th_StatusCode response = 200%Z /\ (oc_Kind o = OutcomeAccepted \/ oc_Kind o = OutcomeExactReplay) /\
     AuthoritativeStatus o = job_status job /\ AuthoritativeFingerprint o = job_fingerprint job) \/
    (th_StatusCode response = 409%Z /\ oc_Kind o = OutcomeTerminalConflict);
}.

(** A response settles a job with the result [o] when it broke no rule of the
    transport and confirms the job. *)
Definition settles (job : Job) (response : TerminalHTTPResponse) (o : Outcome) : Prop :=
  ProtocolViolation response = "" /\ confirms job response o.
Definition settled (job : Job) (o : Outcome) (rd : round) : Prop :=
  exists response, rd_post rd = Ok response /\ settles job response o.
Definition unsettled (job : Job) (rd : round) : Prop := forall o, ~ settled job o rd.

Lemma terminal_statuses_iff s : existsb (String.eqb s) terminal_statuses = true <-> In s terminal_statuses.
Proof.
  rewrite existsb_exists. split; [by intros (x & Hx & ->%String.eqb_eq)|].
  intros Hs. exists s. by rewrite String.eqb_refl.
Qed.

Lemma validateResponse_sound response job o : validateResponse response job = Ok o -> confirms job response o.
Proof.
  unfold validateResponse. intros H. inv_ok. step_if H. step_if H. step_if H. split_bools.
  match goal with Hs : existsb _ _ = true |- _ => apply terminal_statuses_iff in Hs end.
  destruct (th_StatusCode response =? 200)%Z eqn:E200; split_bools.
  - step_if H. step_if H. split_bools. injection H as <-. cbn in *.
    split; cbn; [eexists; split_and!; by eauto|done|]. left. split_and!; [done| |done|done].
    match goal with Hx : _ && _ = false |- _ => apply andb_false_iff in Hx as [Hx|Hx] end; split_bools; auto.
  - step_if H. split_bools. step_if H. split_bools. injection H as <-. cbn in *.
    split; cbn; [eexists; split_and!; by eauto|done|]. by right.
Qed.

Lemma validateResponse_complete response job o : confirms job response o -> validateResponse response job = Ok o.
Proof.
  intros [(wire & Hd & Hh & Hs & Ho & Hf) Hin Hdec]. unfold validateResponse.
  rewrite Hd. cbn [mbind res_bind]. rewrite Hh, Z.eqb_refl. cbn [negb].
  rewrite Hs, (proj2 (terminal_statuses_iff _) Hin). cbn [negb]. rewrite Hf, Ho. cbn [oc_Kind].
  destruct o as [k st fp]. cbn in *.
  destruct Hdec as [(-> & Hk & -> & ->)|[-> ->]]; cbn; [|done].
  rewrite !String.eqb_refl. cbn. by destruct Hk as [-> | ->].
Qed.

Definition alert_of (o : Outcome) : list (Z * string) :=
  if oc_Kind o =s OutcomeTerminalConflict then [(409%Z, "terminal_conflict")] else [].

(** A round ends the publication with a result exactly when its response settles it. *)
Lemma publish_round_settled job rd o : settled job o rd -> publish_round job rd = (Return (Ok o), alert_of o).
Proof.
  intros (response & Hp & Hv & Hc). unfold publish_round. rewrite Hp, Hv. cbn.
  rewrite (validateResponse_complete _ _ _ Hc). unfold alert_of.
  by destruct (cf_decision _ _ _ Hc) as [(-> & [-> | ->] & _)|[-> ->]].
Qed.

Lemma publish_round_ok job rd o a : publish_round job rd = (Return (Ok o), a) -> settled job o rd.
Proof.
  unfold publish_round. intros H. split_matches H; simplify_eq.
  all: eexists; (split; [done|]); (split; [by split_bools|]).
  all: by apply validateResponse_sound.
Qed.

Lemma publish_round_unsettled job rd r a : publish_round job rd = (Return r, a) -> unsettled job rd ->
  exists e, r = Fail e /\ rd_ctx_after rd = Some e.
Proof.
  intros H Hu. destruct r as [o|e]; [by destruct (Hu o (publish_round_ok _ _ _ _ H))|].
  exists e. split; [done|]. unfold publish_round in H. split_matches H; by simplify_eq.
Qed.

(** * Publication *)

Definition calm (rd : round) : Prop := rd_ctx rd = None /\ rd_ctx_after rd = None /\ rd_sleep rd = None.

(** The request of a job, once per round. *)
Definition requests (job : Job) (n : nat) : list (string * bytes) := replicate n (job_intentID job, job_body job).

Lemma publish_loop_ok job n rounds t o : publish_loop job n rounds = (t, Some (Ok o)) ->
  exists before rd after, rounds = (before ++ rd :: after)%list /\ Forall (unsettled job) before /\
    settled job o rd /\ posts t = requests job (S (List.length before)) /\
    exists earlier, alerts t = (earlier ++ alert_of o)%list.
Proof.
  revert n t. induction rounds as [|rd rounds IH]; intros n t; cbn; [done|].
  destruct (rd_ctx rd); [done|].
  destruct (publish_round job rd) as [[x|k] a] eqn:Er.
  - intros [= <- ->]. pose proof (publish_round_ok _ _ _ _ Er) as Hs.
    rewrite (publish_round_settled _ _ _ Hs) in Er. injection Er as <-.
    exists [], rd, rounds. split_and!; [done|by constructor|done|done|]. exists []. cbn. by rewrite app_nil_r.
  - destruct (rd_sleep rd); [done|].
    destruct (publish_loop job (nextAttempt n) rounds) as [t' r'] eqn:E. intros [= <- ->].
    destruct (IH _ _ E) as (before & rd' & after & -> & Hb & Hs & Hp & earlier & Ha).
    exists (rd :: before), rd', after. split_and!; [done| |done|cbn; by rewrite Hp|].
    + constructor; [|done]. intros o' Ho. by rewrite (publish_round_settled _ _ _ Ho) in Er.
    + exists (a ++ earlier)%list. cbn. by rewrite Ha, app_assoc.
Qed.

Lemma publish_loop_fail job n rounds t e : publish_loop job n rounds = (t, Some (Fail e)) ->
  exists rd, rd ∈ rounds /\ (rd_ctx rd = Some e \/ rd_ctx_after rd = Some e \/ rd_sleep rd = Some e).
Proof.
  revert n t. induction rounds as [|rd rounds IH]; intros n t; cbn; [done|].
  destruct (rd_ctx rd) eqn:Ec; [intros [= <- ->]; exists rd; split; [left|auto]|].
  destruct (publish_round job rd) as [[x|k] a] eqn:Er.
  - intros [= <- ->]. exists rd. split; [left|].
    unfold publish_round in Er. split_matches Er; simplify_eq. auto.
  - destruct (rd_sleep rd) eqn:Es; [intros [= <- ->]; exists rd; split; [left|auto]|].
    destruct (publish_loop job (nextAttempt n) rounds) as [t' r'] eqn:E. intros [= <- ->].
    destruct (IH _ _ E) as (rd' & Hin & Hx). exists rd'. split; [by right|done].
Qed.

(** A calm round that settles nothing posts the job once and goes on. *)
Lemma publish_loop_calm job n rd rounds : calm rd -> unsettled job rd ->
  exists a s, publish_loop job n (rd :: rounds) =
    (add_trace (requests job 1) a s (publish_loop job (nextAttempt n) rounds).1,
     (publish_loop job (nextAttempt n) rounds).2).
Proof.
  intros (C1 & C2 & C3) Hu. cbn. rewrite C1.
  destruct (publish_round job rd) as [[r|k] a] eqn:Er.
  - destruct (publish_round_unsettled _ _ _ _ Er Hu) as (e & _ & He). congruence.
  - rewrite C3. exists a, [(n, k)]. by destruct (publish_loop job (nextAttempt n) rounds).
Qed.

Lemma publish_loop_retries job n rounds : Forall calm rounds -> Forall (unsettled job) rounds ->
  exists t, publish_loop job n rounds = (t, None) /\ posts t = requests job (List.length rounds).
Proof.
  intros Hc. revert n. induction Hc as [|rd rounds C _ IH]; intros n Hu; [by exists no_trace|].
  apply Forall_cons in Hu as [U Hu]. destruct (IH (nextAttempt n) Hu) as (t & E & Hp).
  destruct (publish_loop_calm job n rd rounds C U) as (a & s & ->). rewrite E. cbn.
  eexists. split; [done|]. cbn. by rewrite Hp.
Qed.

Lemma publish_loop_first job n before rd after o : Forall calm before -> rd_ctx rd = None ->
  Forall (unsettled job) before -> settled job o rd ->
  exists t, publish_loop job n (before ++ rd :: after) = (t, Some (Ok o)) /\
    posts t = requests job (S (List.length before)).
Proof.
  intros Hc Hrd Hu Hs. revert n Hu. induction Hc as [|r before C _ IH]; intros n Hu.
  - cbn. rewrite Hrd, (publish_round_settled _ _ _ Hs). eexists. done.
  - apply Forall_cons in Hu as [U Hu]. destruct (IH (nextAttempt n) Hu) as (t & E & Hp).
    rewrite <- app_comm_cons.
    destruct (publish_loop_calm job n r (before ++ rd :: after) C U) as (a & s & ->). rewrite E. cbn.
    eexists. split; [done|]. cbn. by rewrite Hp.
Qed.

(** (C16) A published result is confirmed.  When [Publish] succeeds with a result, the
    last response it received settles the job with exactly that result: its body is a
    closed terminal response that repeats the HTTP status and names the result's
    status, fingerprint and outcome, and either it is a 200 that accepts the job's own
    status and fingerprint, or a 409 that reports another authoritative result, and
    then the conflict is the last alert.  No earlier response settled the job, and
    every request, one per round, carried exactly the job's intent and body. *)
Theorem Publish_confirmed (job : Job) (rounds : list round) (t : trace) (o : Outcome) :
  Publish job rounds = (t, Some (Ok o)) ->
  exists before rd after response, rounds = (before ++ rd :: after)%list /\
    rd_post rd = Ok response /\ settles job response o /\
    Forall (unsettled job) before /\
    posts t = replicate (S (List.length before)) (job_intentID job, job_body job) /\
    (th_StatusCode response = 409%Z -> last (alerts t) = Some (409%Z, "terminal_conflict")).
Proof.
  unfold Publish. case_match; [done|].
  intros (before & rd & after & -> & Hb & (response & Hr & Hs) & Hp & earlier & Ha)%publish_loop_ok.
  exists before, rd, after, response. split_and!; [done..|].
  intros H409. rewrite Ha. destruct (cf_decision _ _ _ (proj2 Hs)) as [(? & _)|[_ Hk]]; [congruence|].
  unfold alert_of. rewrite Hk. cbn. apply last_snoc.
Qed.

(** (C17) The publisher does not give up.  It returns an error only for an invalid job
    or when its context ended or its sleep was interrupted.  While neither happens,
    responses that do not settle the job are each followed by another post of it, for
    as many rounds as there are; and the first response that settles it with a result,
    however many rounds precede it, makes [Publish] return exactly that result. *)
Theorem Publish_persists (job : Job) (rounds : list round) :
  job_valid job = true ->
  (forall t e, Publish job rounds = (t, Some (Fail e)) -> exists rd, rd ∈ rounds /\
     (rd_ctx rd = Some e \/ rd_ctx_after rd = Some e \/ rd_sleep rd = Some e)) /\
  (Forall calm rounds -> Forall (unsettled job) rounds ->
     exists t, Publish job rounds = (t, None) /\
       posts t = replicate (List.length rounds) (job_intentID job, job_body job)) /\
  (forall before rd after response o, rounds = (before ++ rd :: after)%list ->
     Forall calm before -> Forall (unsettled job) before ->
     rd_ctx rd = None -> rd_post rd = Ok response -> settles job response o ->
     exists t, Publish job rounds = (t, Some (Ok o)) /\
       posts t = replicate (S (List.length before)) (job_intentID job, job_body job)).
Proof.
  intros Hv. unfold Publish. rewrite Hv. cbn [negb].
  split_and!; [intros t e; apply publish_loop_fail|apply publish_loop_retries|].
  intros before rd after response o -> Hc Hu Hrd Hp Hs. apply publish_loop_first; [done..|by exists response].
Qed.

(** * Delays *)

Lemma i64_in_range z : (- 2 ^ 63 <= z < 2 ^ 63)%Z -> Terminal.i64 z = z.
Proof. intros. unfold Terminal.i64. rewrite Z.mod_small by lia. lia. Qed.

Lemma cappedExponential_min initial maximum attempt :
  (0 < initial <= maximum)%Z -> (maximum <= max_int64)%Z -> (1 <= attempt)%Z ->
  cappedExponential initial maximum attempt = Z.min maximum (initial * 2 ^ (attempt - 1)).
Proof.
  intros Hi Hm Ha. unfold cappedExponential, max_int64 in *.
  destruct (attempt <=? 1)%Z eqn:E1; split_bools.
  { replace (attempt - 1)%Z with 0%Z by lia. rewrite Z.pow_0_r. lia. }
  destruct (63 <=? attempt - 1)%Z eqn:E2; split_bools; cbn [orb].
  { assert (2 ^ 63 <= 2 ^ (attempt - 1))%Z by (apply Z.pow_le_mono_r; lia). nia. }
  rewrite Z.shiftl_1_l. set (p := (2 ^ (attempt - 1))%Z).
  assert (Hp : (0 < p)%Z) by (apply Z.pow_pos_nonneg; lia).
  rewrite Z.quot_div_nonneg by lia.
  destruct (maximum / p <? initial)%Z eqn:E3; split_bools.
  { assert (maximum < initial * p)%Z; [|lia].
    pose proof (Z.mul_succ_div_gt maximum p Hp). nia. }
  assert (initial * p <= maximum)%Z.
  { pose proof (Z.mul_div_le maximum p Hp). nia. }
  rewrite i64_in_range by lia. case_match; split_bools; lia.
Qed.

(** The retry delay is the capped exponential, and stays within its cap.  For a
    policy that passed its own check, with caps in the range of a duration, the delay
    before jitter is exactly the smaller of the cap and the initial delay doubled per
    attempt, with no overflow at any attempt number; with any jitter source the delay
    is between zero and the cap. *)
Theorem NextDelay_bounds (c : RetryConfig) (jitter : option (duration -> Z)) (attempt : Z) (kind : RetryKind) :
  retry_config_ok c = true -> (MaxDelay c <= max_int64)%Z -> (MaxProtocolDelay c <= max_int64)%Z ->
  (1 <= attempt)%Z ->
  let '(initial, maximum) := match kind with
    | RetryTransient => (InitialDelay c, MaxDelay c)
    | RetryProtocol => (ProtocolDelay c, MaxProtocolDelay c)
    end in
  cappedExponential initial maximum attempt = Z.min maximum (initial * 2 ^ (attempt - 1)) /\
  (0 <= NextDelay c jitter attempt kind <= maximum)%Z.
Proof.
  unfold retry_config_ok. intros Hc H1 H2 Ha. split_bools.
  assert (Hgo : forall initial maximum, (0 < initial <= maximum)%Z -> (maximum <= max_int64)%Z ->
    cappedExponential initial maximum attempt = Z.min maximum (initial * 2 ^ (attempt - 1)) /\
    (0 <= match jitter with
          | None => cappedExponential initial maximum attempt
          | Some scale =>
              let delay := cappedExponential initial maximum attempt in
              if (delay <=? 0)%Z then delay
              else if (maximum <? scale delay)%Z then maximum
              else if (scale delay <? 0)%Z then 0%Z else scale delay
          end <= maximum)%Z).
  { intros i m Hi Hm. pose proof (cappedExponential_min i m attempt Hi Hm Ha) as E.
    assert (0 < 2 ^ (attempt - 1))%Z by (apply Z.pow_pos_nonneg; lia).
    split; [done|]. cbv zeta. rewrite E. destruct jitter as [scale|]; [|nia].
    repeat case_match; split_bools; nia. }
  destruct kind; cbn; apply Hgo; lia.
Qed.

(** * The single slot *)

Definition genuine_result (job : Job) (r : res Outcome) : Prop :=
  exists rounds tr, Publish job rounds = (tr, Some r).

Definition live_jobs (s : SingleSlot) : list Job := (fun x => job_of x.2) <$> map_to_list (workers s).

Record slot_inv (s : SingleSlot) : Prop := {
  slot_holder : slot_occupied s = true <-> exists t w, workers s !! t = Some w /\ holds_slot w = true;
  slot_unique : forall t1 t2 w1 w2, workers s !! t1 = Some w1 -> workers s !! t2 = Some w2 ->
    holds_slot w1 = true -> holds_slot w2 = true -> t1 = t2;
  slot_results : forall t job r, workers s !! t = Some (Releasing job r) \/ workers s !! t = Some (Calling job r) ->
    genuine_result job r;
  slot_called : forall job p, (job, p) ∈ called s -> exists r, genuine_result job r /\ p = publish_result r;
  slot_account : handed s ≡ₚ ((fst <$> called s) ++ live_jobs s)%list;
}.

Lemma live_insert s t w st oc h c : workers s !! t = None ->
  live_jobs (Build_SingleSlot st oc (<[t := w]> (workers s)) h c) ≡ₚ job_of w :: live_jobs s.
Proof. intros Ht. unfold live_jobs. cbn. by rewrite map_to_list_insert. Qed.

Lemma live_update s t w w' st oc h c : workers s !! t = Some w -> job_of w' = job_of w ->
  live_jobs (Build_SingleSlot st oc (<[t := w']> (workers s)) h c) ≡ₚ live_jobs s.
Proof.
  intros Ht Hj. unfold live_jobs. cbn.
  rewrite <- (insert_delete_id (workers s) t w Ht) at 2. rewrite <- insert_delete_eq.
  rewrite !map_to_list_insert by apply lookup_delete_eq. cbn. by rewrite Hj.
Qed.

Lemma live_delete s t w st oc h c : workers s !! t = Some w ->
  live_jobs s ≡ₚ job_of w :: live_jobs (Build_SingleSlot st oc (delete t (workers s)) h c).
Proof.
  intros Ht. unfold live_jobs. cbn. rewrite <- (insert_delete_id (workers s) t w Ht) at 1.
  by rewrite map_to_list_insert by apply lookup_delete_eq.
Qed.

Lemma slot_inv_update s t w w' oc : slot_inv s -> workers s !! t = Some w -> job_of w' = job_of w ->
  holds_slot w = true -> oc = holds_slot w' ->
  (forall job r, w' = Releasing job r \/ w' = Calling job r -> genuine_result job r) ->
  slot_inv (Build_SingleSlot (slot_started s) oc (<[t := w']> (workers s)) (handed s) (called s)).
Proof.
  intros [I1 I2 I3 I4 I5] Ht Hj Hw -> Hg.
  assert (Hold : forall t2 w2, <[t := w']> (workers s) !! t2 = Some w2 ->
    (t2 = t /\ w2 = w') \/ (t2 <> t /\ workers s !! t2 = Some w2)).
  { intros t2 w2 [[-> ->]|[? ?]]%lookup_insert_Some; auto. }
  split; cbn.
  - split; [intros Hs; exists t, w'; by rewrite lookup_insert_eq|].
    intros (t2 & w2 & [[-> ->]|[Hne H2]]%Hold & Hh); [done|]. destruct Hne. by eapply I2.
  - intros t1 t2 w1 w2 [[-> ->]|[Hn1 H1]]%Hold [[-> ->]|[Hn2 H2]]%Hold Hh1 Hh2; [done|..].
    + destruct Hn2. by eapply (I2 t2 t).
    + destruct Hn1. by eapply (I2 t1 t).
    + by eapply I2.
  - intros t2 job r [[[-> E]|[_ H2]]%Hold|[[-> E]|[_ H2]]%Hold]; eauto.
  - done.
  - by rewrite live_update.
Qed.

Lemma slot_inv_step s s' : slot_inv s -> slot_step s s' -> slot_inv s'.
Proof.
  intros I Hstep. destruct Hstep as [s ctxErr|s job ctxErr slotErr|s t job rounds tr r Ht Hp|s t job r Ht|s t job r Ht].
  - unfold slot_Start. repeat case_match; try done. by destruct I.
  - unfold Handoff. destruct (negb (job_valid job)); [done|]. destruct ctxErr; [done|].
    destruct (negb (slot_started s)); [done|]. destruct slotErr; [done|].
    destruct (slot_occupied s) eqn:Eo; [done|]. cbn [fst]. destruct I as [I1 I2 I3 I4 I5].
    set (n := fresh (dom (workers s))).
    assert (Hn : workers s !! n = None) by apply not_elem_of_dom, is_fresh.
    assert (Hno : forall t w, workers s !! t = Some w -> holds_slot w = false).
    { intros t w Hw. destruct (holds_slot w) eqn:E; [|done]. rewrite (proj2 I1) in Eo; [done|eauto]. }
    assert (Hold : forall t w, <[n := Publishing job]> (workers s) !! t = Some w ->
      (t = n /\ w = Publishing job) \/ workers s !! t = Some w).
    { intros t w [[-> ->]|[? ?]]%lookup_insert_Some; auto. }
    split; cbn.
    + split; [|done]. intros _. exists n, (Publishing job). by rewrite lookup_insert_eq.
    + intros t1 t2 w1 w2 [[-> ->]|H1]%Hold [[-> ->]|H2]%Hold Hh1 Hh2; [done|..];
        [rewrite (Hno _ _ H2) in Hh2|rewrite (Hno _ _ H1) in Hh1|rewrite (Hno _ _ H1) in Hh1]; done.
    + intros t j r [[[-> E]|H2]%Hold|[[-> E]|H2]%Hold]; eauto; done.
    + done.
    + rewrite live_insert by done. cbn. rewrite I5. by rewrite <- app_assoc, (Permutation_app_comm _ [job]).
  - eapply slot_inv_update; try done.
    + cbn [holds_slot]. apply (slot_holder _ I). exists t. eauto.
    + intros j r' [[= <- <-]|?]; [|done]. by exists rounds, tr.
  - eapply slot_inv_update; try done.
    intros j r' [?|[= <- <-]]; [done|]. eapply (slot_results _ I). eauto.
  - destruct I as [I1 I2 I3 I4 I5].
    assert (Hold : forall t2 w2, delete t (workers s) !! t2 = Some w2 -> workers s !! t2 = Some w2 /\ t2 <> t).
    { intros t2 w2 [? ?]%lookup_delete_Some. auto. }
    split; cbn.
    + rewrite I1. split; intros (t2 & w2 & H2 & Hh).
      * exists t2, w2. split; [|done]. rewrite lookup_delete_ne; [done|]. intros ->. by rewrite Ht in H2; simplify_eq.
      * apply Hold in H2 as [H2 _]. eauto.
    + intros t1 t2 w1 w2 [H1 _]%Hold [H2 _]%Hold. by eapply I2.
    + intros t2 j r2 [[H2 _]%Hold|[H2 _]%Hold]; eauto.
    + intros j p [Hx|Hx%list_elem_of_singleton]%elem_of_app; [by apply I4|]. simplify_eq. exists r. eauto.
    + etransitivity; [exact I5|]. rewrite fmap_app, <- app_assoc. apply Permutation_app_head.
      exact (live_delete s t _ _ _ _ _ Ht).
Qed.

Lemma slot_inv_initial : slot_inv NewSingleSlot.
Proof.
  split; cbn; try done.
  - split; [done|]. by intros (t & w & Hw & _).
  - by intros t job r [Hw|Hw].
  - by intros job p Hx%elem_of_nil.
Qed.

Lemma slot_inv_run s : rtc slot_step NewSingleSlot s -> slot_inv s.
Proof.
  intros Hrun. pose proof slot_inv_initial as I. revert I.
  induction Hrun as [|s1 s2 s3 Hstep _ IH]; [done|]. intros I. apply IH. by eapply slot_inv_step.
Qed.

(** The publisher slot is exclusive and accounts for every job.  In every run at
    most one publication is in progress, and the slot is marked occupied exactly then;
    the accepted jobs are exactly those whose callback was called plus those still in
    flight, counted with multiplicity, so every accepted job is called back at most
    once and none is lost; and every callback carries a result that [Publish] returned
    for that job. *)
Theorem SingleSlot_exclusive (s : SingleSlot) :
  rtc slot_step NewSingleSlot s ->
  (forall t1 t2 w1 w2, workers s !! t1 = Some w1 -> workers s !! t2 = Some w2 ->
     holds_slot w1 = true -> holds_slot w2 = true -> t1 = t2) /\
  (slot_occupied s = true <-> exists t w, workers s !! t = Some w /\ holds_slot w = true) /\
  handed s ≡ₚ ((fst <$> called s) ++ live_jobs s)%list /\
  (forall job p, (job, p) ∈ called s -> exists rounds tr r,
     Publish job rounds = (tr, Some r) /\ p = publish_result r).
Proof.
  intros [I1 I2 I3 I4 I5]%slot_inv_run. split_and!; [done|done|done|].
  intros job p Hp. destruct (I4 job p Hp) as (r & (rounds & tr & Hr) & ->). eauto 10.
Qed.

(** * Examples *)

Definition fixture_job : Job :=
  {| job_intentID := "i-1"; job_body := "{}"; job_status := "FAILED"; job_fingerprint := sha256 "x" |}.
Definition fixture_answer_text : bytes := jtext (
  "{'authoritativeResultFingerprint':'" +:+ digest_String (sha256 "x") +:+
  "','authoritativeStatus':'FAILED','httpStatus':200,'outcome':'ACCEPTED'}").
Definition fixture_round (post : res TerminalHTTPResponse) : round :=
  {| rd_ctx := None; rd_post := post; rd_ctx_after := None; rd_sleep := None |}.
Definition fixture_rounds : list round :=
  [fixture_round (Fail (ENew "timeout"));
   fixture_round (Ok {| th_StatusCode := 503; th_Body := ""; ProtocolViolation := "" |});
   fixture_round (Ok {| th_StatusCode := 200; th_Body := fixture_answer_text; ProtocolViolation := "" |})].
Definition fixture_outcome : Outcome :=
  {| oc_Kind := "ACCEPTED"; AuthoritativeStatus := "FAILED"; AuthoritativeFingerprint := sha256 "x" |}.
Definition fixture_trace : trace := {|
  posts := [("i-1", "{}"); ("i-1", "{}"); ("i-1", "{}")]; alerts := [];
  sleeps := [(1%Z, RetryTransient); (2%Z, RetryTransient)] |}.
Lemma fixture_published : Publish fixture_job fixture_rounds = (fixture_trace, Some (Ok fixture_outcome)).
Proof. vm_compute. reflexivity. Qed.

Lemma fixture_settles :
  settles fixture_job {| th_StatusCode := 200; th_Body := fixture_answer_text; ProtocolViolation := "" |}
    fixture_outcome.
Proof. split; [done|]. apply validateResponse_sound. vm_compute. reflexivity. Qed.

(** The timeout and the 503 of the fixture settle nothing. *)
Lemma fixture_unsettled : Forall (unsettled fixture_job) (take 2 fixture_rounds).
Proof.
  repeat apply Forall_cons_2; [| |apply Forall_nil_2]; intros o; [by intros (? & ? & _)|].
  intros (response & [= <-] & _ & Hc). by destruct (cf_decision _ _ _ Hc) as [(? & _)|[? _]].
Qed.

Lemma Publish_confirmed_witness : exists before rd after response,
  fixture_rounds = (before ++ rd :: after)%list /\ rd_post rd = Ok response /\
  settles fixture_job response fixture_outcome /\
  posts fixture_trace = replicate (S (List.length before)) ("i-1", "{}").
Proof.
  destruct (Publish_confirmed fixture_job fixture_rounds fixture_trace fixture_outcome fixture_published)
    as (before & rd & after & response & H1 & H2 & H3 & _ & H4 & _).
  exists before, rd, after, response. exact (conj H1 (conj H2 (conj H3 H4))).
Defined.

Lemma Publish_persists_witness :
  (exists t, Publish fixture_job fixture_rounds = (t, Some (Ok fixture_outcome)) /\
     posts t = replicate 3 ("i-1", "{}")) /\
  exists t, Publish fixture_job (take 2 fixture_rounds) = (t, None) /\ posts t = replicate 2 ("i-1", "{}").
Proof.
  split.
  - destruct (Publish_persists fixture_job fixture_rounds) as (_ & _ & H); [vm_compute; reflexivity|].
    eapply (H (take 2 fixture_rounds) _ []);
      [reflexivity|repeat constructor|exact fixture_unsettled|reflexivity|reflexivity|exact fixture_settles].
  - destruct (Publish_persists fixture_job (take 2 fixture_rounds)) as (_ & H & _); [vm_compute; reflexivity|].
    apply H; [repeat constructor|exact fixture_unsettled].
Defined.

Lemma NextDelay_bounds_witness :
  (0 <= NextDelay DefaultRetryPolicy (Some (fun d => d * 2)) 80 RetryTransient <= 30 * second)%Z.
Proof.
  apply (NextDelay_bounds DefaultRetryPolicy (Some (fun d => d * 2)%Z) 80 RetryTransient);
    [reflexivity|discriminate|discriminate|discriminate].
Defined.

(** A job handed off while the first is in flight is refused. *)
Definition fixture_slot : SingleSlot :=
  (Handoff fixture_job None None (slot_Start None NewSingleSlot).1).1.
Lemma SingleSlot_exclusive_witness :
  (Handoff fixture_job None None fixture_slot).2 = Some (ESent ErrPublisherSlotOccupied) /\
  handed fixture_slot ≡ₚ ((fst <$> called fixture_slot) ++ live_jobs fixture_slot)%list.
Proof.
  split; [vm_compute; reflexivity|]. apply (SingleSlot_exclusive fixture_slot).
  eapply rtc_l; [apply (step_start _ None)|]. eapply rtc_l; [apply (step_handoff _ fixture_job None None)|].
  apply rtc_refl.
Defined.
