(* ===== verification/Reconcile.v ===== *)
(** [internal/reconcile]: the startup reconciliation.  It lists the actionable intents of
    the organization, looks at which key-share artifacts exist for them, and decides
    whether DKG admission may open, whether a result must first be published for an
    interrupted DKG, or whether the backend's answers are not to be trusted.  The
    artifact stores are an interface; the backend, the preflight and the clock are the
    environment. *)
From stdpp Require Import base tactics option list strings numbers gmap relations.
From Stdlib Require Import ZArith Lia Ascii String.
From S2P Require Import Prelude GoText Sha256 Json StrictJson Externals Mpc2of3 GoTime Monolith FileSystem ShareStore Terminal.

#[local] Open Scope string_scope.

(** * Results *)

Definition DispositionEligible := "eligible".
Definition DispositionTerminalPublicationRequired := "terminal_publication_required".
Definition DispositionCapabilityDeferred := "capability_deferred".
Definition DispositionFreshPollRequired := "fresh_poll_required".
Definition DispositionProtocolIntegrity := "protocol_integrity".

Module Reconcile.
Record Result := {
  Disposition : string; ResultJob : option Job; DeadlineRaw : string; Cause : option error;
}.
End Reconcile.
Import Reconcile.

Definition ProtocolIntegrityError (reason : string) : error :=
  EWrap "actionable DKG protocol integrity failure" (ENew reason).
Definition CapabilityDeferredError (cause : error) : error :=
  EWrap "actionable DKG reconciliation capability deferred" cause.

Definition protocolIntegrity (reason : string) : Result :=
  {| Disposition := DispositionProtocolIntegrity; ResultJob := None; DeadlineRaw := "";
     Cause := Some (ProtocolIntegrityError reason) |}.
Definition capabilityDeferred (cause : error) (deadlineRaw : string) : Result :=
  {| Disposition := DispositionCapabilityDeferred; ResultJob := None; DeadlineRaw := deadlineRaw;
     Cause := Some (CapabilityDeferredError cause) |}.
Definition publication_required (job : Job) (deadlineRaw : string) : Result :=
  {| Disposition := DispositionTerminalPublicationRequired; ResultJob := Some job; DeadlineRaw := deadlineRaw;
     Cause := None |}.
Definition eligible (deadlineRaw : string) : Result :=
  {| Disposition := DispositionEligible; ResultJob := None; DeadlineRaw := deadlineRaw; Cause := None |}.

(** * The artifact stores, as reconciliation sees them *)

(** Exact key-addressed existence and strict inspection, over the files, and what they
    promise: both only read; [as_present] says that an artifact of the key exists, and
    [as_holds] that the store holds an artifact for the context, with that evidence;
    both are about the files and nothing else. *)
Class ArtifactStore (S : Type) := {
  as_Exists : S -> string -> M bool;
  as_InspectExisting : S -> ExpectedArtifactContext -> M ArtifactEvidence;
  as_present : world -> S -> string -> Prop;
  as_holds : world -> S -> ExpectedArtifactContext -> ArtifactEvidence -> Prop;
  as_exists_reads s keyID : looks (as_Exists s keyID);
  as_inspect_reads s x : looks (as_InspectExisting s x);
  as_exists_present s keyID w b w' : as_Exists s keyID w = (Ok b, w') -> b = true <-> as_present w s keyID;
  as_inspect_holds s x w ev w' : as_InspectExisting s x w = (Ok ev, w') -> as_holds w s x ev;
  as_present_files s keyID w w' : entries w = entries w' -> as_present w s keyID -> as_present w' s keyID;
  as_holds_files s x ev w w' : entries w = entries w' -> as_holds w s x ev -> as_holds w' s x ev;
}.

(** What the environment answers: the backend's listing and claims, the inspection
    preflight, the context and the clock. *)
Record environment := {
  env_List : res ActionableListing;
  env_Claim : string -> string -> res ClaimResult;
  env_Preflight : option error;
  env_Ctx : option error;
  env_Now : time;
}.

Section Reconciler.
Context `{Externals}.

(** * Validation *)

Definition validateDKGIntent (intent : ActionableIntent) : string :=
  if (ai_IntentID intent =s "") || (ai_SessionID intent =s "") || (ai_KeyID intent =s "")
     || (ai_OrgID intent =s "") || time_is_zero (ai_Deadline intent) || (ai_DeadlineRaw intent =s "")
  then "DKG listing identity is incomplete"
  else if negb (is_ok (NewFailedJob (ai_IntentID intent) (ai_SessionID intent) (ai_KeyID intent)))
  then "DKG listing identity cannot produce a canonical terminal result"
  else if match parse_time (ai_DeadlineRaw intent) with
          | Some exact => negb (time_equal (instant exact) (ai_Deadline intent))
          | None => true
          end
  then "DKG listing deadline bytes do not match the parsed deadline"
  else match ParseCanonicalDescriptor (ai_DescriptorBytes intent) with
  | Fail _ => "DKG listing descriptor is invalid"
  | Ok (descriptor, fingerprint) =>
      if match ParseDescriptorFingerprint (ai_DescriptorFingerprint intent) with
         | Ok submitted => submitted <>s fingerprint
         | Fail _ => true
         end
      then "DKG listing descriptor fingerprint mismatch"
      else if kd_KeyID descriptor <>s ai_KeyID intent
      then "DKG listing key does not match descriptor"
      else ""
  end.

(** The own claimed intents, then the pending ones: the reason to refuse, or the set of
    intents seen. *)
Fixpoint scan_claimed (seen : gset string) (l : list ActionableIntent) : string + gset string :=
  match l with
  | [] => inr seen
  | intent :: l =>
      if (ai_Type intent <>s "DKG") || (ai_Status intent <>s "CLAIMED")
      then inl "own claimed listing contains a non-CLAIMED DKG intent"
      else if validateDKGIntent intent <>s "" then inl (validateDKGIntent intent)
      else if bool_decide (ai_IntentID intent ∈ seen) then inl "listing contains duplicate intent IDs"
      else scan_claimed ({[ai_IntentID intent]} ∪ seen) l
  end.
Fixpoint scan_pending (now : time) (seen : gset string) (l : list ActionableIntent) : string + gset string :=
  match l with
  | [] => inr seen
  | intent :: l =>
      if ai_Status intent <>s "PENDING" then inl "pending listing contains a non-PENDING intent"
      else
        let reason :=
          if ai_Type intent =s "SIGN" then ""
          else if ai_Type intent =s "DKG" then
            if validateDKGIntent intent <>s "" then validateDKGIntent intent
            else if negb (time_after (ai_Deadline intent) now) then "pending DKG is expired" else ""
          else "pending listing contains an unsupported intent type" in
        if reason <>s "" then inl reason
        else if bool_decide (ai_IntentID intent ∈ seen) then inl "listing contains duplicate intent IDs"
        else scan_pending now ({[ai_IntentID intent]} ∪ seen) l
  end.

(** [slices.IsSortedFunc] by creation time and identifier. *)
Definition out_of_order (left right : ActionableIntent) : bool :=
  if (ai_CreatedAt right =? ai_CreatedAt left)%Z then str_ltb (ai_IntentID right) (ai_IntentID left)
  else (ai_CreatedAt right <? ai_CreatedAt left)%Z.
Fixpoint ordered (intents : list ActionableIntent) : bool :=
  match intents with
  | x :: ((y :: _) as l) => negb (out_of_order x y) && ordered l
  | _ => true
  end.

(** The reason to refuse a listing, or [""]. *)
Definition validateListing (now : time) (listing : ActionableListing) : string :=
  if negb (al_HTTPStatus listing =? 200)%Z then "listing HTTP status contract mismatch"
  else if (1 <? List.length (OwnClaimedDKG listing))%nat
  then "multiple organization-scoped CLAIMED DKG intents"
  else match scan_claimed ∅ (OwnClaimedDKG listing) with
  | inl reason => reason
  | inr seen =>
      match scan_pending now seen (Pending listing) with
      | inl reason => reason
      | inr _ =>
          if negb (ordered (Pending listing)) then "pending listing order is not deterministic" else ""
      end
  end.

Definition validateClaim (listed : ActionableIntent) (claim : ClaimResult) : string :=
  if negb (cr_HTTPStatus claim =? 200)%Z || (cr_Status claim <>s "CLAIMED") || (cr_Type claim <>s "DKG")
  then "claim response is not a typed CLAIMED DKG"
  else if (cr_IntentID claim <>s ai_IntentID listed) || (cr_SessionID claim <>s ai_SessionID listed)
          || (cr_KeyID claim <>s ai_KeyID listed) || (cr_OrgID claim <>s ai_OrgID listed)
  then "claim response identity mismatch"
  else if (cr_DeadlineRaw claim <>s ai_DeadlineRaw listed) || negb (time_equal (cr_Deadline claim) (ai_Deadline listed))
  then "claim response changed the absolute deadline"
  else if (cr_DescriptorFingerprint claim <>s ai_DescriptorFingerprint listed)
          || (cr_DescriptorBytes claim <>s ai_DescriptorBytes listed)
  then "claim response changed the canonical descriptor"
  else "".

Definition evidenceMatches (intent : ActionableIntent) (primary recovery : ArtifactEvidence) : bool :=
  match ParseDescriptorFingerprint (ai_DescriptorFingerprint intent) with
  | Fail _ => false
  | Ok expected =>
      negb ((ev_SessionID primary <>s ai_SessionID intent) || (ev_SessionID recovery <>s ai_SessionID intent)
            || (ev_KeyID primary <>s ai_KeyID intent) || (ev_KeyID recovery <>s ai_KeyID intent)
            || (ev_PartyID primary <>s "co-signer-primary") || (ev_PartyID recovery <>s "co-signer-recovery")
            || (ev_Purpose primary <>s StorePurposePrimary) || (ev_Purpose recovery <>s StorePurposeRecovery)
            || (ev_DescriptorFingerprint primary <>s expected) || (ev_DescriptorFingerprint recovery <>s expected)
            || (ev_ChainCodeHash primary <>s ev_ChainCodeHash recovery)
            || negb (ev_CodecVersion primary =? ev_CodecVersion recovery)%Z
            || (ev_AccountPublicKey primary <>s ev_AccountPublicKey recovery))
  end.

Section Stores.
Context `{ArtifactStore P} `{ArtifactStore R}.

(** [reconstructClaimed]; a job that cannot be built is the zero job. *)
Definition zero_job : Job := {| job_intentID := ""; job_body := ""; job_status := ""; job_fingerprint := "" |}.
Definition failed_job (intent : ActionableIntent) : Job :=
  match NewFailedJob (ai_IntentID intent) (ai_SessionID intent) (ai_KeyID intent) with
  | Ok job => job
  | Fail _ => zero_job
  end.
Definition intent_context (intent : ActionableIntent) : ExpectedArtifactContext :=
  {| xc_SessionID := ai_SessionID intent; xc_KeyID := ai_KeyID intent; xc_DescriptorBytes := ai_DescriptorBytes intent |}.
Definition evidence_input (ev : ArtifactEvidence) : ArtifactInput :=
  {| inp_PartyID := ev_PartyID ev; inp_Purpose := ev_Purpose ev; inp_Fingerprint := ev_ArtifactFingerprint ev |}.
Definition completed_input (intent : ActionableIntent) (primary recovery : ArtifactEvidence) : CompletedInput :=
  {| ci_IntentID := ai_IntentID intent; ci_SessionID := ai_SessionID intent; ci_KeyID := ai_KeyID intent;
     ci_DescriptorFingerprint := ev_DescriptorFingerprint primary;
     ci_AccountPublicKey := ev_AccountPublicKey primary; ci_ChainCodeHash := ev_ChainCodeHash primary;
     ci_Primary := evidence_input primary; ci_Recovery := evidence_input recovery |}.

Definition reconstructClaimed (p : P) (r : R) (intent : ActionableIntent) (primaryExists recoveryExists : bool) : M Job :=
  if negb primaryExists || negb recoveryExists then mret (failed_job intent)
  else
    primary ← attempt (as_InspectExisting p (intent_context intent));
    match primary with
    | Fail _ => mret (failed_job intent)
    | Ok primary =>
        recovery ← attempt (as_InspectExisting r (intent_context intent));
        match recovery with
        | Fail _ => mret (failed_job intent)
        | Ok recovery =>
            if negb (evidenceMatches intent primary recovery) then mret (failed_job intent)
            else match NewCompletedJob (completed_input intent primary recovery) with
                 | Ok job => mret job
                 | Fail _ => mret (failed_job intent)
                 end
        end
    end.

(** * Reconcile *)

Record classifiedIntent := {
  cl_intent : ActionableIntent; cl_primaryExists : bool; cl_recoveryExists : bool; cl_claimed : bool;
}.
Definition candidate (item : classifiedIntent) : bool :=
  cl_claimed item || cl_primaryExists item || cl_recoveryExists item.

(** The loop that asks both stores about every actionable DKG; an error defers. *)
Fixpoint classify (p : P) (r : R) (items : list (ActionableIntent * bool)) : M (Result + list classifiedIntent) :=
  match items with
  | [] => mret (inr [])
  | (intent, claimed) :: items =>
      primaryExists ← attempt (as_Exists p (ai_KeyID intent));
      match primaryExists with
      | Fail e => mret (inl (capabilityDeferred e (ai_DeadlineRaw intent)))
      | Ok primaryExists =>
          recoveryExists ← attempt (as_Exists r (ai_KeyID intent));
          match recoveryExists with
          | Fail e => mret (inl (capabilityDeferred e (ai_DeadlineRaw intent)))
          | Ok recoveryExists =>
              rest ← classify p r items;
              mret (match rest with
                    | inl result => inl result
                    | inr l => inr ({| cl_intent := intent; cl_primaryExists := primaryExists;
                                       cl_recoveryExists := recoveryExists; cl_claimed := claimed |} :: l)
                    end)
          end
      end
  end.

Definition actionable (listing : ActionableListing) : list (ActionableIntent * bool) :=
  (map (fun i => (i, true)) (OwnClaimedDKG listing)
   ++ map (fun i => (i, false)) (filter (fun i => ai_Type i = "DKG") (Pending listing)))%list.

(** The last loop: the result, and the claims it made. *)
Fixpoint settle (env : environment) (p : P) (r : R) (items : list classifiedIntent)
    : M (res Result * list (string * string)) :=
  match items with
  | [] => mret (Ok (eligible ""), [])
  | item :: items =>
      let intent := cl_intent item in
      if cl_claimed item then
        job ← reconstructClaimed p r intent (cl_primaryExists item) (cl_recoveryExists item);
        mret (Ok (publication_required job (ai_DeadlineRaw intent)), [])
      else if negb (cl_primaryExists item) && negb (cl_recoveryExists item) then settle env p r items
      else
        let claims := [("DKG", ai_IntentID intent)] in
        match env_Claim env "DKG" (ai_IntentID intent) with
        | Fail e =>
            if errors_is e ErrAlreadyClaimed || errors_is e ErrNotFound || errors_is e ErrClaimOutcomeUnknown
            then mret (Ok {| Disposition := DispositionFreshPollRequired; ResultJob := None;
                             DeadlineRaw := ai_DeadlineRaw intent; Cause := Some e |}, claims)
            else mret (Fail (EWrap "claim actionable DKG intent" e), claims)
        | Ok claim =>
            if validateClaim intent claim <>s "" then
              mret (Ok {| Disposition := DispositionProtocolIntegrity; ResultJob := None;
                          DeadlineRaw := ai_DeadlineRaw intent;
                          Cause := Some (ProtocolIntegrityError (validateClaim intent claim)) |}, claims)
            else match NewFailedJob (cr_IntentID claim) (cr_SessionID claim) (cr_KeyID claim) with
            | Fail e => mret (Fail (EWrap "construct canonical failed reconciliation job" e), claims)
            | Ok job => mret (Ok (publication_required job (ai_DeadlineRaw intent)), claims)
            end
        end
  end.

Definition first_deadline (items : list classifiedIntent) : string :=
  match list_find (fun item => cl_claimed item = false) items with
  | Some (_, item) => ai_DeadlineRaw (cl_intent item)
  | None => ""
  end.

Definition Reconcile (env : environment) (p : P) (r : R) : M (res Result * list (string * string)) :=
  match env_List env with
  | Fail e => mret (Fail (EWrap "list actionable intents" e), [])
  | Ok listing =>
      if validateListing (env_Now env) listing <>s ""
      then mret (Ok (protocolIntegrity (validateListing (env_Now env) listing)), [])
      else match env_Preflight env with
      | Some e =>
          match env_Ctx env with
          | Some c => mret (Fail c, [])
          | None => mret (Ok {| Disposition := DispositionCapabilityDeferred; ResultJob := None;
                                DeadlineRaw := ""; Cause := Some (CapabilityDeferredError e) |}, [])
          end
      | None =>
          items ← classify p r (actionable listing);
          match items with
          | inl result => mret (Ok result, [])
          | inr items =>
              let terminalCandidates := List.length (filter (fun item => candidate item = true) items) in
              if (1 <? terminalCandidates)%nat
              then mret (Ok (protocolIntegrity "listing requires more than one startup terminal publication"), [])
              else if (terminalCandidates =? 0)%nat then mret (Ok (eligible (first_deadline items)), [])
              else settle env p r items
          end
      end
  end.
End Stores.
End Reconciler.
