(* ===== verification/ReconcileProofs.v ===== *)
(** Proofs about the startup reconciliation: what a completed result, an opened admission
    and a claim require, against the interface of the artifact stores, which the stores
    of [ShareStore] implement. *)
From stdpp Require Import base tactics option list strings numbers gmap relations.
From Stdlib Require Import ZArith Lia Ascii String.
From S2P Require Import Prelude GoText Sha256 Json StrictJson Externals Mpc2of3 GoTime Monolith FileSystem Publish ShareStore ShareStoreProofs RawJson Terminal Reconcile.
Import Reconcile.

#[local] Open Scope string_scope.

(** * A validated listing *)

Section Listing.
Context `{Externals}.
#[local] Opaque NewFailedJob ParseCanonicalDescriptor ParseDescriptorFingerprint parse_time.

(** What [validateDKGIntent] checked. *)
Record dkg_ok (intent : ActionableIntent) : Prop := {
  ok_identity : ai_IntentID intent <> "" /\ ai_SessionID intent <> "" /\ ai_KeyID intent <> "" /\ ai_OrgID intent <> "";
  ok_job : exists job, NewFailedJob (ai_IntentID intent) (ai_SessionID intent) (ai_KeyID intent) = Ok job;
  ok_deadline : exists exact, parse_time (ai_DeadlineRaw intent) = Some exact /\ instant exact = ai_Deadline intent;
  ok_descriptor : exists d fp, ParseCanonicalDescriptor (ai_DescriptorBytes intent) = Ok (d, fp)
    /\ ParseDescriptorFingerprint (ai_DescriptorFingerprint intent) = Ok fp /\ kd_KeyID d = ai_KeyID intent;
}.

Lemma validateDKGIntent_ok intent : validateDKGIntent intent = "" -> dkg_ok intent.
Proof.
  unfold validateDKGIntent. intros Hv.
  destruct (_ || _) eqn:E1 in Hv; [done|]. destruct (negb _) eqn:E2 in Hv; [done|].
  destruct (parse_time _) as [exact|] eqn:E3; [|done]. destruct (negb (time_equal _ _)) eqn:E4; [done|].
  destruct (ParseCanonicalDescriptor _) as [[d fp]|] eqn:E5; [|done].
  destruct (ParseDescriptorFingerprint _) as [fp'|] eqn:E6; [|done].
  destruct (fp' <>s fp) eqn:E7; [done|]. destruct (kd_KeyID d <>s _) eqn:E8; [done|].
  unfold time_equal in E4. split_bools. subst. apply is_ok_ex in E2. split; eauto 10.
Qed.

(** What the scan of the claimed and of the pending intents checked. *)
Lemma scan_claimed_spec seen l : match scan_claimed seen l with
  | inl reason => reason <> ""
  | inr seen' => Forall (fun i => ai_Type i = "DKG" /\ ai_Status i = "CLAIMED" /\ dkg_ok i) l
      /\ NoDup (ai_IntentID <$> l) /\ (forall i, i ∈ l -> ai_IntentID i ∉ seen)
      /\ seen' = list_to_set (ai_IntentID <$> l) ∪ seen
  end.
Proof.
  revert seen. induction l as [|i l IH]; intros seen; cbn [scan_claimed].
  { split_and!; [constructor|constructor|set_solver|]. cbn. set_solver. }
  destruct (_ || _) eqn:E1; [done|]. destruct (validateDKGIntent i <>s "") eqn:E2; [by split_bools|].
  destruct (bool_decide _) eqn:E3; [done|]. split_bools.
  specialize (IH ({[ai_IntentID i]} ∪ seen)). destruct (scan_claimed _ l) as [reason|seen']; [done|].
  destruct IH as (Hf & Hn & Hd & ->). split_and!.
  - constructor; [|done]. by eauto using validateDKGIntent_ok.
  - cbn. constructor; [|done]. intros (j & Hj & Hin)%list_elem_of_fmap. apply (Hd j Hin). set_solver.
  - intros j [->|Hin]%elem_of_cons; [done|]. specialize (Hd j Hin). set_solver.
  - cbn. set_solver.
Qed.

Lemma scan_pending_spec now seen l : match scan_pending now seen l with
  | inl reason => reason <> ""
  | inr _ => Forall (fun i => ai_Status i = "PENDING" /\ (ai_Type i = "SIGN"
                \/ ai_Type i = "DKG" /\ dkg_ok i /\ (now < ai_Deadline i)%Z)) l
      /\ NoDup (ai_IntentID <$> l) /\ (forall i, i ∈ l -> ai_IntentID i ∉ seen)
  end.
Proof.
  revert seen. induction l as [|i l IH]; intros seen; cbn [scan_pending].
  { split_and!; [constructor|constructor|set_solver]. }
  destruct (ai_Status i <>s "PENDING") eqn:E1; [done|]. cbv zeta.
  match goal with |- context [if ?reason <>s "" then _ else _] => set (r := reason) end.
  destruct (r <>s "") eqn:E2; [by split_bools|].
  destruct (bool_decide _) eqn:E3; [done|]. split_bools.
  assert (Hi : ai_Type i = "SIGN" \/ ai_Type i = "DKG" /\ dkg_ok i /\ (now < ai_Deadline i)%Z).
  { subst r. destruct (ai_Type i =s "SIGN") eqn:T1; [split_bools; auto|].
    destruct (ai_Type i =s "DKG") eqn:T2; [|done]. destruct (validateDKGIntent i <>s "") eqn:T3; [by split_bools|].
    destruct (negb (time_after _ _)) eqn:T4; [done|]. unfold time_after in T4. split_bools. right.
    split_and!; [done|by apply validateDKGIntent_ok|done]. }
  specialize (IH ({[ai_IntentID i]} ∪ seen)). destruct (scan_pending _ _ l) as [reason|seen']; [done|].
  destruct IH as (Hf & Hn & Hd). split_and!.
  - by constructor.
  - cbn. constructor; [|done]. intros (j & Hj & Hin)%list_elem_of_fmap. apply (Hd j Hin). set_solver.
  - intros j [->|Hin]%elem_of_cons; [done|]. specialize (Hd j Hin). set_solver.
Qed.

(** A listing that reconciliation accepts. *)
Record listing_ok (now : time) (listing : ActionableListing) : Prop := {
  lo_status : al_HTTPStatus listing = 200%Z;
  lo_one : (List.length (OwnClaimedDKG listing) <= 1)%nat;
  lo_claimed : Forall (fun i => ai_Type i = "DKG" /\ ai_Status i = "CLAIMED" /\ dkg_ok i) (OwnClaimedDKG listing);
  lo_pending : Forall (fun i => ai_Status i = "PENDING" /\ (ai_Type i = "SIGN"
                \/ ai_Type i = "DKG" /\ dkg_ok i /\ (now < ai_Deadline i)%Z)) (Pending listing);
  lo_unique : NoDup (ai_IntentID <$> (OwnClaimedDKG listing ++ Pending listing)%list);
  lo_ordered : ordered (Pending listing) = true;
}.

Lemma validateListing_ok now listing : validateListing now listing = "" -> listing_ok now listing.
Proof.
  unfold validateListing. intros Hv.
  destruct (negb (_ =? _)%Z) eqn:E1 in Hv; [done|]. destruct (1 <? _)%nat eqn:E2 in Hv; [done|].
  pose proof (scan_claimed_spec ∅ (OwnClaimedDKG listing)) as Hc. destruct (scan_claimed _ _) as [|seen]; [done|].
  pose proof (scan_pending_spec now seen (Pending listing)) as Hp. destruct (scan_pending _ _ _) as [|seen']; [done|].
  destruct (negb _) eqn:E3 in Hv; [done|]. split_bools. destruct Hc as (Hc1 & Hc2 & _ & ->), Hp as (Hp1 & Hp2 & Hp3).
  apply Nat.ltb_ge in E2. split; try done. rewrite fmap_app. apply NoDup_app. split_and!; [done| |done].
  intros x Hx (j & -> & Hj)%list_elem_of_fmap. apply (Hp3 j Hj). set_solver.
Qed.
End Listing.

(** * The stores implement the interface *)

Section Instance.
Context `{Externals}.

Lemma Exists_Ok s keyID w b w' : Exists s None keyID w = (Ok b, w') ->
  b = true <-> is_Some (vis w !! artifact_path s keyID).
Proof.
  unfold Exists. intros He. apply bind_Ok_inv in He as (p & w1 & Hp & He). unfold lift in Hp. injection Hp as Hp <-.
  apply finalPath_Ok in Hp as [-> _]. apply bind_Ok_inv in He as (r & w2 & Hr & He).
  apply attempt_Ok_inv in Hr as (r' & [= ->] & Hr). destruct r' as [f|e].
  - apply sys_Ok in Hr as (s' & Hr). cbn in Hr. injection He as <- <-.
    change (vis (with_sched w s')) with (vis w) in Hr. destruct (vis w !! artifact_path s keyID); [by eauto|done].
  - destruct (errors_is e ErrNotExist) eqn:Ee; [|done]. injection He as <- <-.
    apply sys_Fail in Hr as [[msg ->]|(s' & Hr)]; [done|]. cbn in Hr. change (vis (with_sched w s')) with (vis w) in Hr.
    destruct (vis w !! artifact_path s keyID) as [f|]; [done|]. split; [done|by intros []].
Qed.

Definition store_holds (w : world) (s : Store) (x : ExpectedArtifactContext) (ev : ArtifactEvidence) : Prop :=
  exists f blob, vis w !! artifact_path s (xc_KeyID x) = Some f
    /\ authentic (st_config s) (f_data f) blob ev (xc_DescriptorBytes x)
    /\ ev_SessionID ev = xc_SessionID x /\ ev_KeyID ev = xc_KeyID x.

#[export] Program Instance Store_ArtifactStore : ArtifactStore Store := {|
  as_Exists s := Exists s None;
  as_InspectExisting s := InspectExisting s None;
  as_present w s keyID := is_Some (vis w !! artifact_path s keyID);
  as_holds := store_holds;
|}.
Next Obligation. intros s keyID. cbn. unfold Exists. solve_looks. Qed.
Next Obligation. intros s x. apply looks_InspectExisting. Qed.
Next Obligation. intros s keyID w b w'. apply Exists_Ok. Qed.
Next Obligation.
  intros s x w ev w' Hi. apply InspectExisting_Ok in Hi as (f & blob & Hf & Hl).
  apply load_authentic in Hl as (db & Ha & Hx). destruct (Hx _ eq_refl) as (?&?&->). exists f, blob. done.
Qed.
Next Obligation. intros s keyID w w' [= Hv _]. cbn. by rewrite Hv. Qed.
Next Obligation. intros s x ev w w' [= Hv _] (f & blob & Hf & ?). exists f, blob. by rewrite <- Hv. Qed.
End Instance.

(** * Jobs *)

Section Jobs.
Context `{Externals}.
#[local] Opaque CanonicalTerminalResultBytes marshal_raw.

Lemma newJob_Ok result job : newJob result = Ok job ->
  job_intentID job = tr_IntentID result /\ job_status job = tr_Status result /\ job_body job <> "".
Proof. unfold newJob. intros Hj. inv_ok. done. Qed.
Lemma NewFailedJob_Ok i s k job : NewFailedJob i s k = Ok job ->
  job_intentID job = i /\ job_status job = TerminalStatusFailed /\ job_body job <> "".
Proof. intros Hj. by apply newJob_Ok in Hj. Qed.
Lemma NewCompletedJob_Ok input job : NewCompletedJob input = Ok job ->
  job_intentID job = ci_IntentID input /\ job_status job = TerminalStatusCompleted /\ job_body job <> "".
Proof. intros Hj. by apply newJob_Ok in Hj. Qed.

Lemma failed_job_ok intent : dkg_ok intent ->
  job_intentID (failed_job intent) = ai_IntentID intent /\ job_status (failed_job intent) = TerminalStatusFailed
  /\ job_body (failed_job intent) <> "".
Proof. intros [_ [job Hj] _ _]. unfold failed_job. rewrite Hj. by eapply NewFailedJob_Ok. Qed.
End Jobs.

(** * The outcomes of reconciliation *)

Section Outcomes.
Context `{EX : Externals} `{AP : ArtifactStore P} `{AR : ArtifactStore R}.
#[local] Opaque NewFailedJob NewCompletedJob.
Implicit Types (p : P) (r : R).

Lemma attempt_run {A} (m : M A) w : looks m ->
  exists res w1, attempt m w = (Ok res, w1) /\ m w = (res, w1) /\ entries w1 = entries w.
Proof.
  intros Hl. specialize (Hl w). unfold attempt. destruct (m w) as [res w1]. eauto.
Qed.

(** What the classification says of one intent. *)
Definition classified p r w (it : ActionableIntent * bool) (c : classifiedIntent) : Prop :=
  cl_intent c = it.1 /\ cl_claimed c = it.2
  /\ (cl_primaryExists c = true <-> as_present w p (ai_KeyID it.1))
  /\ (cl_recoveryExists c = true <-> as_present w r (ai_KeyID it.1)).

Lemma classify_spec p r items w : exists o w', classify p r items w = (Ok o, w') /\ entries w' = entries w
  /\ match o with
     | inl result => Disposition result = DispositionCapabilityDeferred /\ ResultJob result = None
     | inr l => Forall2 (classified p r w) items l
     end.
Proof.
  revert w. induction items as [|[intent claimed] items IH]; intros w; cbn [classify].
  { eexists _, _. split_and!; [done|done|constructor]. }
  destruct (attempt_run (as_Exists p (ai_KeyID intent)) w (as_exists_reads _ _)) as (r1 & w1 & E1 & H1 & W1).
  unfold mbind, M_bind. rewrite E1. destruct r1 as [pe|e]; [|eexists _, _; by split_and!].
  destruct (attempt_run (as_Exists r (ai_KeyID intent)) w1 (as_exists_reads _ _)) as (r2 & w2 & E2 & H2 & W2).
  rewrite E2. destruct r2 as [re|e]; [|eexists _, _; split; [done|split; [congruence|done]]].
  destruct (IH w2) as (o & w3 & E3 & W3 & Ho). rewrite E3. eexists _, _. split; [done|split; [congruence|]].
  destruct o as [result|l]; [done|]. constructor.
  - apply as_exists_present in H1, H2. split_and!; [done|done|done|]. cbn. rewrite H2.
    split; apply as_present_files; congruence.
  - eapply Forall2_impl; [exact Ho|]. intros it c (?&?&Hp&Hr). split_and!; [done|done|rewrite Hp|rewrite Hr];
      split; apply as_present_files; congruence.
Qed.

Lemma reconstructClaimed_spec p r intent pe re w : dkg_ok intent ->
  exists job w', reconstructClaimed p r intent pe re w = (Ok job, w') /\ entries w' = entries w
  /\ (job = failed_job intent
      \/ exists primary recovery, as_holds w p (intent_context intent) primary
           /\ as_holds w r (intent_context intent) recovery /\ evidenceMatches intent primary recovery = true
           /\ NewCompletedJob (completed_input intent primary recovery) = Ok job).
Proof.
  intros Hok. unfold reconstructClaimed. destruct (_ || _); [by eexists _, _; eauto|]. unfold mbind, M_bind.
  destruct (attempt_run (as_InspectExisting p (intent_context intent)) w (as_inspect_reads _ _)) as (r1 & w1 & E1 & H1 & W1).
  rewrite E1. destruct r1 as [primary|e]; [|by eexists _, _; eauto].
  destruct (attempt_run (as_InspectExisting r (intent_context intent)) w1 (as_inspect_reads _ _)) as (r2 & w2 & E2 & H2 & W2).
  rewrite E2. assert (W : entries w2 = entries w) by congruence.
  destruct r2 as [recovery|e]; [|by eexists _, _; eauto].
  destruct (evidenceMatches intent primary recovery) eqn:Em; cbn [negb]; [|by eexists _, _; eauto].
  destruct (NewCompletedJob _) as [job|] eqn:Ej; [|by eexists _, _; eauto].
  eexists _, _. split_and!; [done|done|]. right. exists primary, recovery. apply as_inspect_holds in H1, H2.
  split_and!; [done| |done|done]. eapply as_holds_files; [|exact H2]. congruence.
Qed.

(** The outcomes. *)
Inductive reconciled (env : environment) p r (w : world) : res Result -> list (string * string) -> Prop :=
  | rec_error e : reconciled env p r w (Fail e) []
  | rec_refused result : ResultJob result = None ->
      Disposition result = DispositionProtocolIntegrity \/ Disposition result = DispositionCapabilityDeferred ->
      reconciled env p r w (Ok result) []
  | rec_eligible listing deadline : env_List env = Ok listing -> listing_ok (env_Now env) listing ->
      OwnClaimedDKG listing = [] ->
      (forall i, i ∈ Pending listing -> ai_Type i = "DKG" ->
         ~ as_present w p (ai_KeyID i) /\ ~ as_present w r (ai_KeyID i)) ->
      reconciled env p r w (Ok (eligible deadline)) []
  | rec_claimed listing intent job : env_List env = Ok listing -> listing_ok (env_Now env) listing ->
      OwnClaimedDKG listing = [intent] ->
      job = failed_job intent
      \/ (exists primary recovery, as_holds w p (intent_context intent) primary
            /\ as_holds w r (intent_context intent) recovery /\ evidenceMatches intent primary recovery = true
            /\ NewCompletedJob (completed_input intent primary recovery) = Ok job) ->
      reconciled env p r w (Ok (publication_required job (ai_DeadlineRaw intent))) []
  | rec_pending listing intent o : env_List env = Ok listing -> listing_ok (env_Now env) listing ->
      OwnClaimedDKG listing = [] -> intent ∈ Pending listing -> ai_Type intent = "DKG" ->
      as_present w p (ai_KeyID intent) \/ as_present w r (ai_KeyID intent) ->
      match o with
      | Fail _ => True
      | Ok result =>
          ResultJob result = None /\ (Disposition result = DispositionFreshPollRequired
                                      \/ Disposition result = DispositionProtocolIntegrity)
          \/ exists claim job, env_Claim env "DKG" (ai_IntentID intent) = Ok claim /\ validateClaim intent claim = ""
               /\ NewFailedJob (ai_IntentID intent) (ai_SessionID intent) (ai_KeyID intent) = Ok job
               /\ result = publication_required job (ai_DeadlineRaw intent)
      end ->
      reconciled env p r w o [("DKG", ai_IntentID intent)].

Lemma validateClaim_ok listed claim : validateClaim listed claim = "" ->
  cr_IntentID claim = ai_IntentID listed /\ cr_SessionID claim = ai_SessionID listed /\ cr_KeyID claim = ai_KeyID listed.
Proof.
  unfold validateClaim. intros Hv. destruct (_ || _) eqn:E1 in Hv; [done|]. destruct (_ || _) eqn:E2 in Hv; [done|].
  split_bools. done.
Qed.

Lemma settle_unclaimed env p r listing w pend items w1 :
  env_List env = Ok listing -> listing_ok (env_Now env) listing -> OwnClaimedDKG listing = [] ->
  (forall i, i ∈ pend -> i ∈ Pending listing /\ ai_Type i = "DKG") -> entries w1 = entries w ->
  Forall2 (classified p r w) (map (fun i => (i, false)) pend) items ->
  List.Exists (fun c => candidate c = true) items ->
  exists o claims, settle env p r items w1 = (Ok (o, claims), w1) /\ reconciled env p r w o claims.
Proof.
  intros Hl Hok Hown Hpend Hw. revert items. induction pend as [|i pend IH]; intros items Hcl Hex.
  { inversion Hcl; subst. by inversion Hex. }
  cbn [map] in Hcl. inversion Hcl as [|it c l items' Hc Hcl' E1 E2]; subst. destruct Hc as (Hi & Hf & Hp & Hr). cbn in Hi, Hf, Hp, Hr.
  cbn [settle]. rewrite Hf, Hi. destruct (negb (cl_primaryExists c) && negb (cl_recoveryExists c)) eqn:Eb.
  { apply IH; [set_solver|done|]. inversion Hex as [? ? Hc|]; subst; [|done]. exfalso. split_bools.
    unfold candidate in Hc. rewrite Hf in Hc. by repeat match goal with E : _ = false |- _ => rewrite E in Hc; clear E end. }
  assert (Hpres : as_present w p (ai_KeyID i) \/ as_present w r (ai_KeyID i)).
  { apply andb_false_iff in Eb as [Eb|Eb]; split_bools; [left; by apply Hp|right; by apply Hr]. }
  destruct (Hpend i ltac:(set_solver)) as [Hin Hty]. cbv zeta.
  destruct (env_Claim env "DKG" (ai_IntentID i)) as [claim|e] eqn:Ec.
  2: { case_match; eexists _, _; (split; [reflexivity|]); eapply rec_pending; eauto. }
  destruct (validateClaim i claim <>s "") eqn:Ev; split_bools.
  { eexists _, _. split; [reflexivity|]. eapply rec_pending; eauto. }
  destruct (validateClaim_ok _ _ Ev) as (-> & -> & ->).
  destruct (NewFailedJob _ _ _) as [job|e] eqn:Ej; eexists _, _; (split; [reflexivity|]); eapply rec_pending; eauto 10.
Qed.

Lemma Exists_filter_length (items : list classifiedIntent) :
  List.Exists (fun c => candidate c = true) items <-> List.length (filter (fun c => candidate c = true) items) <> 0%nat.
Proof.
  induction items as [|c items IH]; [split; [by inversion 1|done]|]. rewrite filter_cons, Exists_cons.
  destruct (decide (candidate c = true)); cbn; [split; [done|auto]|]. rewrite <- IH. naive_solver.
Qed.

Lemma Reconcile_reconciled env p r w :
  exists o claims w', Reconcile env p r w = (Ok (o, claims), w') /\ entries w' = entries w
    /\ reconciled env p r w o claims.
Proof.
  unfold Reconcile. destruct (env_List env) as [listing|e] eqn:El; [|eexists _, _, _; split_and!; [done|done|constructor]].
  destruct (validateListing _ _ <>s "") eqn:Ev.
  { eexists _, _, _. split_and!; [done|done|]. apply rec_refused; [done|by left]. }
  split_bools. apply validateListing_ok in Ev as Hok.
  destruct (env_Preflight env) as [e|].
  { destruct (env_Ctx env); eexists _, _, _; (split_and!; [done|done|]); constructor; eauto. }
  destruct (classify_spec p r (actionable listing) w) as (o & w1 & E1 & W1 & Ho). unfold mbind, M_bind. rewrite E1.
  destruct o as [result|items]; [destruct Ho; eexists _, _, _; split_and!; [done|done|apply rec_refused; eauto]|].
  cbv zeta. destruct (1 <? _)%nat eqn:En.
  { eexists _, _, _. split_and!; [done|done|]. apply rec_refused; [done|by left]. }
  assert (Hown : OwnClaimedDKG listing = [] \/ exists i, OwnClaimedDKG listing = [i]).
  { pose proof (lo_one _ _ Hok). destruct (OwnClaimedDKG listing) as [|i [|]]; [eauto|eauto|cbn in *; lia]. }
  assert (Hpend : forall i, i ∈ filter (fun i => ai_Type i = "DKG") (Pending listing) ->
            i ∈ Pending listing /\ ai_Type i = "DKG") by (intros i; rewrite list_elem_of_filter; tauto).
  unfold actionable in Ho. destruct (_ =? 0)%nat eqn:E0.
  - apply Nat.eqb_eq in E0.
    assert (Hnone : ~ List.Exists (fun c => candidate c = true) items) by (rewrite Exists_filter_length; lia).
    eexists _, _, _. split_and!; [done|done|]. destruct Hown as [Hown|[i Hown]]; rewrite Hown in Ho.
    + eapply rec_eligible; eauto. cbn in Ho. intros i Hi Hty.
      assert (Hin : (i, false) ∈ map (fun i => (i, false)) (filter (fun i => ai_Type i = "DKG") (Pending listing))).
      { apply list_elem_of_fmap. exists i. by rewrite list_elem_of_filter. }
      apply list_elem_of_lookup in Hin as [k Hk]. destruct (Forall2_lookup_l _ _ _ _ _ Ho Hk) as (c & Hc & _ & _ & Hp & Hr).
      cbn in Hp, Hr. rewrite <- Hp, <- Hr. split; intros Hx; apply Hnone, Exists_exists; exists c;
        (split; [by eapply list_elem_of_lookup_2|]); unfold candidate; rewrite Hx; by rewrite ?orb_true_r.
    + exfalso. cbn in Ho. inversion Ho as [|it c l items' Hc Hcl' Eq1 Eq2]; subst. apply Hnone, Exists_cons. left.
      unfold candidate. by rewrite (proj1 (proj2 Hc)).
  - apply Nat.eqb_neq in E0. apply Exists_filter_length in E0. destruct Hown as [Hown|[i Hown]]; rewrite Hown in Ho; cbn in Ho.
    + destruct (settle_unclaimed env p r listing w _ items w1 El Hok Hown Hpend W1 Ho E0) as (o & claims & E & Hr).
      rewrite E. eauto 10.
    + inversion Ho as [|it c l items' Hc Hcl' Eq1 Eq2]; subst. destruct Hc as (Hi & Hcl & _). cbn in Hi, Hcl.
      cbn [settle]. rewrite Hcl, Hi. unfold mbind, M_bind.
      pose proof (lo_claimed _ _ Hok) as Hdk. rewrite Hown in Hdk. apply Forall_singleton in Hdk as (_ & _ & Hdk).
      destruct (reconstructClaimed_spec p r i (cl_primaryExists c) (cl_recoveryExists c) w1 Hdk) as (job & w2 & E & W2 & Hj).
      rewrite E. eexists _, _, _. split; [done|split; [congruence|]]. eapply rec_claimed; eauto.
      destruct Hj as [?|(ev1 & ev2 & Hh1 & Hh2 & ?)]; [by left|]. right. exists ev1, ev2.
      split_and!; [eapply as_holds_files; eauto..|tauto|tauto].
Qed.
End Outcomes.

Section Properties.
Context `{EX : Externals} `{AP : ArtifactStore P} `{AR : ArtifactStore R}.
#[local] Opaque NewFailedJob NewCompletedJob.
Implicit Types (p : P) (r : R).

Lemma Reconcile_run env p r w o claims w' : Reconcile env p r w = (Ok (o, claims), w') ->
  entries w' = entries w /\ reconciled env p r w o claims.
Proof.
  intros Hr. destruct (Reconcile_reconciled env p r w) as (o' & claims' & w1 & E & ? & ?). rewrite E in Hr. injection Hr as <- <- <-. done.
Qed.

Lemma evidenceMatches_ok intent primary recovery : evidenceMatches intent primary recovery = true ->
  ev_SessionID primary = ai_SessionID intent /\ ev_SessionID recovery = ai_SessionID intent
  /\ ev_KeyID primary = ai_KeyID intent /\ ev_KeyID recovery = ai_KeyID intent
  /\ ev_PartyID primary = "co-signer-primary" /\ ev_PartyID recovery = "co-signer-recovery"
  /\ ev_Purpose primary = "primary" /\ ev_Purpose recovery = "recovery"
  /\ ParseDescriptorFingerprint (ai_DescriptorFingerprint intent) = Ok (ev_DescriptorFingerprint primary)
  /\ ev_DescriptorFingerprint recovery = ev_DescriptorFingerprint primary
  /\ ev_ChainCodeHash primary = ev_ChainCodeHash recovery /\ ev_CodecVersion primary = ev_CodecVersion recovery
  /\ ev_AccountPublicKey primary = ev_AccountPublicKey recovery.
Proof.
  unfold evidenceMatches. destruct (ParseDescriptorFingerprint _) as [fp|]; [|done]. intros Hm.
  apply negb_true_iff in Hm. split_bools. split_and!; try done; congruence.
Qed.

(** (C21) Startup never reports a key it does not hold.  Reconciliation asks for a
    COMPLETED result only for the one DKG intent that the organization has claimed, only
    when the primary and the recovery store each hold an artifact for exactly its
    session, key and descriptor, and only when the two agree on the account key, the
    chain code and the codec; the job it asks to publish is the completed job of exactly
    that evidence, and nothing was claimed to get there. *)
Theorem Reconcile_completed_sound env p r w result job claims w' :
  Reconcile env p r w = (Ok (Ok result, claims), w') ->
  ResultJob result = Some job -> job_status job = TerminalStatusCompleted ->
  exists listing intent primary recovery,
    env_List env = Ok listing /\ listing_ok (env_Now env) listing /\ OwnClaimedDKG listing = [intent]
    /\ as_holds w p (intent_context intent) primary /\ as_holds w r (intent_context intent) recovery
    /\ ev_AccountPublicKey primary = ev_AccountPublicKey recovery
    /\ ev_ChainCodeHash primary = ev_ChainCodeHash recovery /\ ev_CodecVersion primary = ev_CodecVersion recovery
    /\ ev_PartyID primary = "co-signer-primary" /\ ev_PartyID recovery = "co-signer-recovery"
    /\ NewCompletedJob (completed_input intent primary recovery) = Ok job
    /\ claims = [] /\ entries w' = entries w.
Proof.
  intros Hr Hj Hs. apply Reconcile_run in Hr as [Hw Hr].
  inversion Hr as [|res Hn|listing d Hl Hok Hown Hnone|listing intent job' Hl Hok Hown Hcase|
    listing intent o Hl Hok Hown Hin Hty Hpres Ho]; subst; cbn in Hj.
  - congruence.
  - done.
  - injection Hj as ->. assert (Hdk : dkg_ok intent).
    { pose proof (lo_claimed _ _ Hok) as Hdk. rewrite Hown in Hdk. by apply Forall_singleton in Hdk as (_ & _ & ?). }
    destruct Hcase as [->|(primary & recovery & Hp & Hrec & Hm & Hc)].
    { destruct (failed_job_ok _ Hdk) as (_ & Hf & _). rewrite Hf in Hs. done. }
    apply evidenceMatches_ok in Hm. exists listing, intent, primary, recovery.
    destruct_and! Hm. by split_and!.
  - exfalso. destruct Ho as [[Hn _]|(claim & job' & _ & _ & Hf & ->)]; [congruence|]. cbn in Hj. injection Hj as ->.
    apply NewFailedJob_Ok in Hf as (_ & Hf & _). rewrite Hf in Hs. done.
Qed.

(** Admission opens only on a clean start.  Reconciliation answers "eligible" only
    when the backend's listing is well formed, the organization has no claimed DKG, and
    for every pending DKG, none of which is expired, neither store has an artifact; and
    it has then claimed nothing. *)
Theorem Reconcile_eligible_clean env p r w result claims w' :
  Reconcile env p r w = (Ok (Ok result, claims), w') -> Disposition result = DispositionEligible ->
  exists listing, env_List env = Ok listing /\ listing_ok (env_Now env) listing /\ OwnClaimedDKG listing = []
    /\ claims = [] /\ entries w' = entries w
    /\ forall i, i ∈ Pending listing -> ai_Type i = "DKG" ->
         (env_Now env < ai_Deadline i)%Z /\ ~ as_present w p (ai_KeyID i) /\ ~ as_present w r (ai_KeyID i).
Proof.
  intros Hr Hd. apply Reconcile_run in Hr as [Hw Hr].
  inversion Hr as [|res Hn Hor|listing d Hl Hok Hown Hnone|listing intent job' Hl Hok Hown Hcase|
    listing intent o Hl Hok Hown Hin Hty Hpres Ho]; subst; cbn in Hd.
  - destruct Hor as [E|E]; rewrite E in Hd; done.
  - exists listing. split_and!; try done. intros i Hi Hty. split; [|by apply Hnone].
    pose proof (lo_pending _ _ Hok) as Hp. rewrite Forall_forall in Hp. destruct (Hp i Hi) as (_ & [E|(_ & _ & ?)]); [congruence|done].
  - done.
  - destruct Ho as [[_ [E|E]]|(claim & job' & _ & _ & _ & ->)]; [rewrite E in Hd; done..|done].
Qed.

(** Reconciliation claims at most one intent and never leaves a claim without a job.
    It always returns, leaves the files alone, and claims at most one intent, a listed
    pending DKG for whose key some store already has an artifact; and whenever it asks for
    a publication the job is one that the publisher accepts, for an intent of the listing. *)
Theorem Reconcile_claims_once env p r w :
  exists o claims w', Reconcile env p r w = (Ok (o, claims), w') /\ entries w' = entries w
    /\ (claims = [] \/ exists listing intent, env_List env = Ok listing /\ OwnClaimedDKG listing = []
          /\ intent ∈ Pending listing /\ ai_Type intent = "DKG" /\ claims = [("DKG", ai_IntentID intent)]
          /\ (as_present w p (ai_KeyID intent) \/ as_present w r (ai_KeyID intent)))
    /\ (forall result, o = Ok result -> Disposition result = DispositionTerminalPublicationRequired ->
          exists listing intent job, env_List env = Ok listing
            /\ intent ∈ (OwnClaimedDKG listing ++ Pending listing)%list
            /\ ResultJob result = Some job /\ job_intentID job = ai_IntentID intent /\ job_valid job = true).
Proof.
  destruct (Reconcile_reconciled env p r w) as (o & claims & w' & E & Hw & Hr).
  exists o, claims, w'. split; [done|split; [done|]].
  assert (Hvalid : forall i j, dkg_ok i -> job_intentID j = ai_IntentID i /\ job_body j <> "" -> job_valid j = true).
  { intros i j [Hid _ _ _] [Hi Hb]. unfold job_valid. rewrite Hi, zlen_zero.
    by rewrite (proj2 (String.eqb_neq _ _) (proj1 Hid)), (proj2 (String.eqb_neq _ _) Hb). }
  destruct Hr as [e|res Hn Hor|listing d Hl Hok Hown Hnone|listing intent job Hl Hok Hown Hcase|
    listing intent o Hl Hok Hown Hin Hty Hpres Ho].
  - by split; [left|].
  - split; [by left|]. intros ? [= <-] Hd. destruct Hor as [E'|E']; rewrite E' in Hd; done.
  - split; [by left|]. by intros ? [= <-].
  - split; [by left|]. intros ? [= <-] _. exists listing, intent, job. cbn.
    assert (Hdk : dkg_ok intent).
    { pose proof (lo_claimed _ _ Hok) as Hdk. rewrite Hown in Hdk. by apply Forall_singleton in Hdk as (_ & _ & ?). }
    assert (job_intentID job = ai_IntentID intent /\ job_body job <> "") as [Hj Hb].
    { destruct Hcase as [->|(primary & recovery & _ & _ & _ & Hc)]; [by destruct (failed_job_ok _ Hdk) as (?&_&?)|].
      by apply NewCompletedJob_Ok in Hc as (?&_&?). }
    split_and!; [done|rewrite Hown; set_solver|done|done|eauto].
  - split; [right; eauto 10|]. intros result -> Hd.
    destruct Ho as [[_ [E'|E']]|(claim & job & _ & _ & Hf & ->)]; [rewrite E' in Hd; done..|].
    pose proof (lo_pending _ _ Hok) as Hp. rewrite Forall_forall in Hp.
    destruct (Hp intent Hin) as (_ & [E'|(_ & Hdk & _)]); [congruence|].
    apply NewFailedJob_Ok in Hf as (? & _ & ?). exists listing, intent, job. split_and!; [done|set_solver|done|done|eauto].
Qed.
End Properties.

(** * Concrete runs *)

Definition fixture_deadline := "2030-01-01T00:00:00Z".
Definition fixture_intent (status : string) : ActionableIntent := {|
  ai_Session := zero_session; ai_CreatedAt := 0; ai_CreatedAtRaw := "";
  ai_Deadline := from_option instant 0%Z (parse_time fixture_deadline); ai_DeadlineRaw := fixture_deadline;
  ai_DescriptorBytes := fixture_share_descriptor;
  ai_DescriptorFingerprint := digest_String (sha256 fixture_share_descriptor); ai_IntentID := "intent-1";
  ai_KeyID := fixture_key_id; ai_OrgID := "org-1"; ai_SessionID := "session-1"; ai_Status := status;
  ai_Type := "DKG" |}.
Definition fixture_env (claimed pending : list ActionableIntent) : environment := {|
  env_List := Ok {| al_HTTPStatus := 200; OwnClaimedDKG := claimed; OwnClaimedSign := []; Pending := pending |};
  env_Claim _ _ := Fail (ESent ErrNotFound); env_Preflight := None; env_Ctx := None; env_Now := 0 |}.
(** Both shares of the session saved. *)
Definition fixture_saved_files : world :=
  let rw := {| rw_primary := fixture_primary; rw_recovery := fixture_recovery |} in
  let save party w := (SaveShare rw fixture_pair None None None (Ok fixture_nonce)
    {| ss_SessionID := "session-1"; ss_KeyID := fixture_key_id; ss_LocalPartyID := party;
       ss_OpaqueDescriptorFingerprint := sha256 fixture_share_descriptor; ss_CodecBlob := fixture_share |} w).2 in
  save recoveryPartyID (save primaryPartyID fixture_files).

Lemma Reconcile_completed_sound_witness : exists result job claims w',
  Reconcile (fixture_env [fixture_intent "CLAIMED"] []) fixture_primary fixture_recovery fixture_saved_files
  = (Ok (Ok result, claims), w')
  /\ ResultJob result = Some job /\ job_status job = "COMPLETED" /\ claims = []
  /\ exists primary, store_holds fixture_saved_files fixture_primary (intent_context (fixture_intent "CLAIMED")) primary.
Proof.
  destruct (Reconcile (fixture_env [fixture_intent "CLAIMED"] []) fixture_primary fixture_recovery fixture_saved_files)
    as [o w'] eqn:E.
  assert (Ho : match o with Ok (Ok result, _) => match ResultJob result with Some job => job_status job | None => "" end
               | _ => "" end = "COMPLETED").
  { apply (f_equal fst) in E. cbn [fst] in E. rewrite <- E. vm_compute. reflexivity. }
  destruct o as [[[result|e] claims]|e]; [|discriminate Ho..]. destruct (ResultJob result) as [job|] eqn:Ej; [|discriminate Ho].
  exists result, job, claims, w'.
  destruct (Reconcile_completed_sound _ _ _ _ _ _ _ _ E Ej Ho)
    as (listing & intent & primary & recovery & Hl & _ & Hown & Hp & _ & _ & _ & _ & _ & _ & _ & Hc & _).
  split; [reflexivity|]. split; [exact Ej|]. split; [exact Ho|]. split; [exact Hc|].
  injection Hl as <-. injection Hown as <-. exists primary. exact Hp.
Defined.

Lemma Reconcile_eligible_clean_witness : exists result claims w',
  Reconcile (fixture_env [] [fixture_intent "PENDING"]) fixture_primary fixture_recovery fixture_files
  = (Ok (Ok result, claims), w')
  /\ Disposition result = "eligible" /\ claims = []
  /\ ~ is_Some (vis fixture_files !! artifact_path fixture_primary fixture_key_id).
Proof.
  destruct (Reconcile (fixture_env [] [fixture_intent "PENDING"]) fixture_primary fixture_recovery fixture_files)
    as [o w'] eqn:E.
  assert (Ho : match o with Ok (Ok result, _) => Disposition result | _ => "" end = "eligible").
  { apply (f_equal fst) in E. cbn [fst] in E. rewrite <- E. vm_compute. reflexivity. }
  destruct o as [[[result|e] claims]|e]; [|discriminate Ho..]. exists result, claims, w'.
  destruct (Reconcile_eligible_clean _ _ _ _ _ _ _ E Ho) as (listing & Hl & _ & _ & Hc & _ & Hnone).
  split; [reflexivity|]. split; [exact Ho|]. split; [exact Hc|]. injection Hl as <-.
  apply (proj1 (proj2 (Hnone (fixture_intent "PENDING") (list_elem_of_here _ _) eq_refl))).
Defined.
