(* ===== verification/Lifecycle.v ===== *)
(** [internal/lifecycle] and [internal/health]: the coordinator that takes the process
    through startup, running and shutdown, and the readiness it publishes.  The main
    goroutine ([Start], then [Shutdown]) and the publisher goroutine that calls
    [publicationDone] interleave; every critical section, dependency call and write of
    the shared readiness is one step.  The context that [Start] derives may also end with
    its parent, and the scheduler that [StartScheduler] started returns once it has ended.
    The dependencies answer arbitrarily. *)
From stdpp Require Import base tactics option list strings numbers gmap relations.
From Stdlib Require Import ZArith Lia Ascii String.
From S2P Require Import Prelude GoText Json Terminal Reconcile.
Import Reconcile.

#[local] Open Scope string_scope.

(** * health/server.go *)

Definition ReasonNone := "".
Definition ReasonCapabilityDeferred := "dkg_capability_deferred".
Definition ReasonDKGTerminalUnconfirmed := "dkg_terminal_unconfirmed".
Definition ReasonProvisioningUnavailable := "dkg_capability_unavailable".

Record Snapshot := {
  ProcessReady : bool; SigningReady : bool; ProvisioningReady : bool; ProvisioningReason : string;
}.
Definition zero_snapshot : Snapshot :=
  {| ProcessReady := false; SigningReady := false; ProvisioningReady := false; ProvisioningReason := "" |}.

Definition canRefreshProvisioning (snapshot : Snapshot) : bool :=
  if negb (ProcessReady snapshot) then false
  else (ProvisioningReason snapshot =s ReasonNone) || (ProvisioningReason snapshot =s ReasonProvisioningUnavailable).

(** The response body, without version, revision and timestamp, and its status code. *)
Record response := {
  rsp_Status : string; rsp_Ready : bool; rsp_ProcessReady : bool; rsp_SigningReady : bool;
  rsp_ProvisioningReady : bool; rsp_ProvisioningReason : string; rsp_sign : bool; rsp_dkg : bool;
  rsp_shares_dir : string;
}.

(** The reading of the readiness that a response is based on: when the provisioning probe
    is asked, the one taken after it. *)
Definition provisioning_checked (before : Snapshot) (provisioningProbe : option bool) : bool :=
  match provisioningProbe with Some _ => canRefreshProvisioning before | None => false end.
Definition latest (before after : Snapshot) (provisioningProbe : option bool) : Snapshot :=
  if provisioning_checked before provisioningProbe then after else before.

(** [Handler.ServeHTTP] of a health request.  [before] and [after] are the two readings of
    the readiness; a probe is [None] when it is not configured. *)
Definition ServeHTTP (method : string) (shares : option error) (before after : Snapshot)
    (signingProbe provisioningProbe : option bool) : Z * option response :=
  if method <>s "GET" then (405%Z, None)
  else
    let provisioningChecked := provisioning_checked before provisioningProbe in
    let provisioningReady := provisioningChecked && default false provisioningProbe in
    let snapshot := latest before after provisioningProbe in
    let snapshot :=
      match signingProbe with
      | Some false => {| ProcessReady := false; SigningReady := false; ProvisioningReady := false;
                         ProvisioningReason := ReasonProvisioningUnavailable |}
      | _ => if provisioningChecked && canRefreshProvisioning snapshot
             then {| ProcessReady := ProcessReady snapshot; SigningReady := SigningReady snapshot;
                     ProvisioningReady := provisioningReady;
                     ProvisioningReason := if provisioningReady then ReasonNone else ReasonProvisioningUnavailable |}
             else snapshot
      end in
    let present := match shares with None => true | Some _ => false end in
    let ready := ProcessReady snapshot && present in
    (if ready then 200%Z else 503%Z,
     Some {| rsp_Status := if ready then "ok" else "fail"; rsp_Ready := ready;
             rsp_ProcessReady := ready; rsp_SigningReady := SigningReady snapshot && present;
             rsp_ProvisioningReady := ProvisioningReady snapshot && present;
             rsp_ProvisioningReason := ProvisioningReason snapshot;
             rsp_sign := SigningReady snapshot; rsp_dkg := ProvisioningReady snapshot;
             rsp_shares_dir := if present then "ok" else "fail" |}).

(** * lifecycle/coordinator.go *)

(** The main goroutine: where it is in [Start], in [abortStartup] and [shutdown], with the
    error [Start] is about to return and the errors of the teardown. *)
Inductive main_pc :=
  | MStart | MAcquireLock | MOpenCapabilities | MStartPublisher | MReconcile | MFreshPoll
  | MDispose | MDeferred | MRequired (job : Job) | MHandoff (job : Job)
  | MStartScheduler | MStartIntake | MSnapshot | MReadConfirmed (signingReady : bool)
  | MConfirmed (signingReady confirmed : bool) | MSetReadiness (snapshot : Snapshot) | MMarkStarted
  | MRunning
  | MAbort (e : error)
  | MClearReadiness (startErr : option error) | MStopIntake | MCancel (startErr : option error) (errs : list error)
  | MDrain (startErr : option error) (errs : list error) | MWaitPublisher (startErr : option error) (errs : list error)
  | MCloseCapabilities (startErr : option error) (errs : list error)
  | MCloseLock (startErr : option error) (errs : list error)
  | MDone (startErr : option error) (errs : list error).

(** The publisher goroutine: publishing, in [publicationDone], or finished.  In [PSet] it
    holds the coordinator's mutex. *)
Inductive pub_pc :=
  | PIdle | PPublishing | PConfirm | PAdmit | PRead | PSet (snapshot : Snapshot) | PEnd.

Record Coordinator := {
  co_lock : bool; co_capabilities : bool; co_cancel : bool; co_started : bool; co_stopping : bool;
  co_latched : bool; co_confirmed : bool;
  (* the main goroutine's [result] *)
  l_result : option Result;
  (* the context of [Start], and what the dependencies keep: [scheduler_on] while the
     scheduler's goroutine runs *)
  ctx_cancelled : bool; admission : bool; readiness : Snapshot; scheduler_on : bool; intake_on : bool;
  main : main_pc; pub : pub_pc;
}.

Definition NewCoordinator : Coordinator := {|
  co_lock := false; co_capabilities := false; co_cancel := false; co_started := false; co_stopping := false;
  co_latched := false; co_confirmed := false; l_result := None; ctx_cancelled := false; admission := false;
  readiness := zero_snapshot; scheduler_on := false; intake_on := false; main := MStart; pub := PIdle |}.

(** Field updates. *)
Definition goto (pc : main_pc) (s : Coordinator) : Coordinator := {|
  co_lock := co_lock s; co_capabilities := co_capabilities s; co_cancel := co_cancel s; co_started := co_started s;
  co_stopping := co_stopping s; co_latched := co_latched s; co_confirmed := co_confirmed s; l_result := l_result s;
  ctx_cancelled := ctx_cancelled s; admission := admission s; readiness := readiness s;
  scheduler_on := scheduler_on s; intake_on := intake_on s; main := pc; pub := pub s |}.
Definition pgoto (pc : pub_pc) (s : Coordinator) : Coordinator := {|
  co_lock := co_lock s; co_capabilities := co_capabilities s; co_cancel := co_cancel s; co_started := co_started s;
  co_stopping := co_stopping s; co_latched := co_latched s; co_confirmed := co_confirmed s; l_result := l_result s;
  ctx_cancelled := ctx_cancelled s; admission := admission s; readiness := readiness s;
  scheduler_on := scheduler_on s; intake_on := intake_on s; main := main s; pub := pc |}.
Definition set_held (lock capabilities : bool) (s : Coordinator) : Coordinator := {|
  co_lock := lock; co_capabilities := capabilities; co_cancel := co_cancel s; co_started := co_started s;
  co_stopping := co_stopping s; co_latched := co_latched s; co_confirmed := co_confirmed s; l_result := l_result s;
  ctx_cancelled := ctx_cancelled s; admission := admission s; readiness := readiness s;
  scheduler_on := scheduler_on s; intake_on := intake_on s; main := main s; pub := pub s |}.
Definition set_flags (cancel started stopping latched confirmed : bool) (s : Coordinator) : Coordinator := {|
  co_lock := co_lock s; co_capabilities := co_capabilities s; co_cancel := cancel; co_started := started;
  co_stopping := stopping; co_latched := latched; co_confirmed := confirmed; l_result := l_result s;
  ctx_cancelled := ctx_cancelled s; admission := admission s; readiness := readiness s;
  scheduler_on := scheduler_on s; intake_on := intake_on s; main := main s; pub := pub s |}.
Definition set_result (r : Result) (s : Coordinator) : Coordinator := {|
  co_lock := co_lock s; co_capabilities := co_capabilities s; co_cancel := co_cancel s; co_started := co_started s;
  co_stopping := co_stopping s; co_latched := co_latched s; co_confirmed := co_confirmed s; l_result := Some r;
  ctx_cancelled := ctx_cancelled s; admission := admission s; readiness := readiness s;
  scheduler_on := scheduler_on s; intake_on := intake_on s; main := main s; pub := pub s |}.
Definition set_shared (cancelled open : bool) (snapshot : Snapshot) (scheduler intake : bool) (s : Coordinator) : Coordinator := {|
  co_lock := co_lock s; co_capabilities := co_capabilities s; co_cancel := co_cancel s; co_started := co_started s;
  co_stopping := co_stopping s; co_latched := co_latched s; co_confirmed := co_confirmed s; l_result := l_result s;
  ctx_cancelled := cancelled; admission := open; readiness := snapshot;
  scheduler_on := scheduler; intake_on := intake; main := main s; pub := pub s |}.
Definition setAdmission (open : bool) (s : Coordinator) : Coordinator :=
  set_shared (ctx_cancelled s) open (readiness s) (scheduler_on s) (intake_on s) s.
Definition Readiness_Set (snapshot : Snapshot) (s : Coordinator) : Coordinator :=
  set_shared (ctx_cancelled s) (admission s) snapshot (scheduler_on s) (intake_on s) s.
Definition stop (s : Coordinator) : Coordinator :=
  setAdmission false (set_flags (co_cancel s) (co_started s) true (co_latched s) (co_confirmed s) s).

(** What a dependency call, or the context, may answer. *)
Record answer := {
  an_err : option error; an_reconcile : res Result; an_signing : bool; an_provisioning : bool;
}.

(** The publisher is in its second critical section. *)
Definition mutex_free (s : Coordinator) : bool := match pub s with PSet _ => false | _ => true end.
Definition locked (s : Coordinator) (s' : Coordinator) : option Coordinator :=
  if mutex_free s then Some s' else None.

Definition add_error (errs : list error) (e : option error) : list error :=
  match e with Some e => (errs ++ [e])%list | None => errs end.
Definition fail_or (e : option error) (msg : string) (next s : Coordinator) : Coordinator :=
  match e with Some e => goto (MAbort (EWrap msg e)) s | None => next end.

Section Steps.
Context (SigningDisabled : bool).

(** The readiness of a provisioning gate that is open. *)
Definition open_gate (signingReady provisioning : bool) : Snapshot :=
  let ready := signingReady && provisioning in
  {| ProcessReady := signingReady; SigningReady := signingReady && negb SigningDisabled; ProvisioningReady := ready;
     ProvisioningReason := if ready then ReasonNone else ReasonProvisioningUnavailable |}.
Definition closed_gate (signingReady : bool) (reason : string) : Snapshot :=
  {| ProcessReady := signingReady; SigningReady := signingReady && negb SigningDisabled; ProvisioningReady := false;
     ProvisioningReason := reason |}.

(** One step of [Start]. *)
Definition start_step (a : answer) (s : Coordinator) : option Coordinator :=
  match main s with
  | MStart =>
      if co_started s || co_cancel s
      then locked s (goto (MDone (Some (ENew "lifecycle coordinator is already started")) []) s)
      else locked s (goto MAcquireLock (set_flags true (co_started s) (co_stopping s) (co_latched s) (co_confirmed s) s))
  | MAcquireLock =>
      Some (fail_or (an_err a) "acquire lifetime lock" (goto MOpenCapabilities (set_held true (co_capabilities s) s)) s)
  | MOpenCapabilities =>
      Some (fail_or (an_err a) "open signing and provisioning capabilities" (goto MStartPublisher (set_held (co_lock s) true s)) s)
  | MStartPublisher => Some (fail_or (an_err a) "start lifecycle terminal publisher" (goto MReconcile s) s)
  | MReconcile =>
      match an_reconcile a with
      | Fail e => Some (goto (MAbort (EWrap "reconcile actionable DKG" e)) s)
      | Ok result =>
          let s := set_result result s in
          Some (goto (if Disposition result =s DispositionFreshPollRequired then MFreshPoll else MDispose) s)
      end
  | MFreshPoll =>
      Some (if ctx_cancelled s then goto (MAbort (default (ENew "context canceled") (an_err a))) s else goto MReconcile s)
  | MDispose =>
      match l_result s with
      | None => None
      | Some result =>
          if Disposition result =s DispositionEligible then Some (goto MStartScheduler (setAdmission true s))
          else if Disposition result =s DispositionCapabilityDeferred then
            locked s (goto MDeferred (set_flags (co_cancel s) (co_started s) (co_stopping s) true (co_confirmed s) s))
          else if Disposition result =s DispositionTerminalPublicationRequired then
            match ResultJob result with
            | None => Some (goto (MAbort (ENew "reconciliation requires publication without an immutable job")) s)
            | Some job => Some (goto (MRequired job) s)
            end
          else if Disposition result =s DispositionProtocolIntegrity then
            Some (goto (MAbort (default (ENew "startup reconciliation protocol integrity failure") (Cause result))) s)
          else Some (goto (MAbort (ENew "unsupported reconciliation disposition")) s)
      end
  | MDeferred => Some (goto MStartScheduler (setAdmission false s))
  | MRequired job => Some (goto (MHandoff job) (setAdmission false s))
  | MHandoff job =>
      Some (fail_or (an_err a) "handoff startup terminal publication" (goto MStartScheduler (pgoto PPublishing s)) s)
  | MStartScheduler =>
      Some (goto MStartIntake (set_shared (ctx_cancelled s) (admission s) (readiness s) true (intake_on s) s))
  | MStartIntake =>
      Some (fail_or (an_err a) "start normal intake"
        (goto MSnapshot (set_shared (ctx_cancelled s) (admission s) (readiness s) (scheduler_on s) true s)) s)
  | MSnapshot =>
      match l_result s with
      | None => None
      | Some result =>
          if Disposition result =s DispositionEligible
          then Some (goto (MSetReadiness (open_gate (an_signing a) (an_provisioning a))) s)
          else if Disposition result =s DispositionCapabilityDeferred
          then Some (goto (MSetReadiness (closed_gate (an_signing a) ReasonCapabilityDeferred)) s)
          else if Disposition result =s DispositionTerminalPublicationRequired
          then Some (goto (MReadConfirmed (an_signing a)) s)
          else Some (goto (MSetReadiness (closed_gate (an_signing a) ReasonNone)) s)
      end
  | MReadConfirmed signingReady => locked s (goto (MConfirmed signingReady (co_confirmed s)) s)
  | MConfirmed signingReady confirmed =>
      Some (goto (MSetReadiness (if confirmed then open_gate signingReady (an_provisioning a)
                                 else closed_gate signingReady ReasonDKGTerminalUnconfirmed)) s)
  | MSetReadiness snapshot => Some (goto MMarkStarted (Readiness_Set snapshot s))
  | MMarkStarted => locked s (goto MRunning (set_flags (co_cancel s) true (co_stopping s) (co_latched s) (co_confirmed s) s))
  | _ => None
  end.

(** One step of the shutdown: [Shutdown] from the running process, [abortStartup] from a
    failed start, then [shutdown].  [WaitPublisher] waits for the publisher's goroutine and
    the capabilities' [Close] for that of the scheduler. *)
Definition shutdown_step (a : answer) (s : Coordinator) : option Coordinator :=
  match main s with
  | MRunning => if co_stopping s then locked s (goto (MDone None []) s) else locked s (goto (MClearReadiness None) (stop s))
  | MAbort e => locked s (goto (MClearReadiness (Some e)) (stop s))
  | MClearReadiness startErr =>
      let s := Readiness_Set zero_snapshot s in
      Some (match startErr with None => goto MStopIntake s | Some e => goto (MCancel (Some e) []) s end)
  | MStopIntake =>
      Some (goto (MCancel None (add_error [] (an_err a)))
              (set_shared (ctx_cancelled s) (admission s) (readiness s) (scheduler_on s) false s))
  | MCancel startErr errs =>
      Some (goto (MDrain startErr errs)
              (set_shared (ctx_cancelled s || co_cancel s) (admission s) (readiness s) (scheduler_on s) (intake_on s) s))
  | MDrain startErr errs => Some (goto (MWaitPublisher startErr (add_error errs (an_err a))) s)
  | MWaitPublisher startErr errs =>
      match pub s with PIdle | PEnd => Some (goto (MCloseCapabilities startErr errs) s) | _ => None end
  | MCloseCapabilities startErr errs =>
      if co_capabilities s
      then if scheduler_on s then None
           else Some (goto (MCloseLock startErr (add_error errs (an_err a))) (set_held (co_lock s) false s))
      else Some (goto (MCloseLock startErr errs) s)
  | MCloseLock startErr errs =>
      Some (if co_lock s then goto (MDone startErr (add_error errs (an_err a))) (set_held false (co_capabilities s) s)
            else goto (MDone startErr errs) s)
  | _ => None
  end.
End Steps.

(** One step of the publisher goroutine: [Publish] ends, then [publicationDone].  [Publish]
    of a job that was handed over retries until a response settles it, or, once its context
    has ended, gives up with an error. *)
Definition publicationDone_step (a : answer) (s : Coordinator) : option Coordinator :=
  match pub s with
  | PPublishing =>
      match an_err a with
      | None => Some (pgoto PConfirm s)
      | Some _ => if ctx_cancelled s then Some (pgoto PEnd s) else None
      end
  | PConfirm =>
      Some (if co_stopping s || co_latched s then pgoto PEnd s
            else pgoto PAdmit (set_flags (co_cancel s) (co_started s) (co_stopping s) (co_latched s) true s))
  | PAdmit => Some (pgoto PRead (setAdmission true s))
  | PRead =>
      Some (if co_stopping s || co_latched s then pgoto PEnd s
            else
              let snapshot := readiness s in
              let ready := ProcessReady snapshot && an_provisioning a in
              pgoto (PSet {| ProcessReady := ProcessReady snapshot; SigningReady := SigningReady snapshot;
                             ProvisioningReady := ready;
                             ProvisioningReason := if ready then ReasonNone else ReasonProvisioningUnavailable |}) s)
  | PSet snapshot => Some (pgoto PEnd (Readiness_Set snapshot s))
  | _ => None
  end.

(** The parent of the context of [Start] ends. *)
Definition context_step (s : Coordinator) : option Coordinator :=
  if ctx_cancelled s then None
  else Some (set_shared true (admission s) (readiness s) (scheduler_on s) (intake_on s) s).
(** The scheduler's goroutine returns, which it does when its context has ended. *)
Definition scheduler_step (s : Coordinator) : option Coordinator :=
  if ctx_cancelled s && scheduler_on s
  then Some (set_shared (ctx_cancelled s) (admission s) (readiness s) false (intake_on s) s) else None.

(** A run of the process. *)
Inductive lifecycle_step (disabled : bool) : Coordinator -> Coordinator -> Prop :=
  | step_start a s s' : start_step disabled a s = Some s' -> lifecycle_step disabled s s'
  | step_shutdown a s s' : shutdown_step a s = Some s' -> lifecycle_step disabled s s'
  | step_publisher a s s' : publicationDone_step a s = Some s' -> lifecycle_step disabled s s'
  | step_context s s' : context_step s = Some s' -> lifecycle_step disabled s s'
  | step_scheduler s s' : scheduler_step s = Some s' -> lifecycle_step disabled s s'.
Definition lifecycle_reachable (disabled : bool) (s : Coordinator) : Prop :=
  rtc (lifecycle_step disabled) NewCoordinator s.
