(* ===== verification/LifecycleProofs.v ===== *)
(** Proofs about the lifecycle: the invariants of startup and shutdown under every
    interleaving with the publisher, and the schedules under which they go no further. *)
From stdpp Require Import base tactics option list strings numbers gmap relations.
From Stdlib Require Import ZArith Lia Ascii String.
From S2P Require Import Prelude GoText Json Terminal Reconcile Lifecycle.
Import Reconcile.

#[local] Open Scope string_scope.

(** * The invariant *)

Definition decided (s : Coordinator) (d : string) : Prop := exists r, l_result s = Some r /\ Disposition r = d.

Definition publisher_done (s : Coordinator) : Prop := pub s = PIdle \/ pub s = PEnd.

(** Before the decision of [Start] nothing is open. *)
Definition fresh (s : Coordinator) : Prop :=
  pub s = PIdle /\ admission s = false /\ co_latched s = false /\ co_confirmed s = false /\ co_started s = false.
(** After it the decision stands. *)
Definition acted (s : Coordinator) : Prop :=
  decided s DispositionEligible /\ pub s = PIdle /\ co_latched s = false
  \/ decided s DispositionCapabilityDeferred /\ pub s = PIdle /\ co_latched s = true /\ admission s = false
  \/ decided s DispositionTerminalPublicationRequired /\ co_latched s = false.
Definition running (s : Coordinator) : Prop :=
  acted s /\ co_stopping s = false /\ co_lock s = true /\ co_capabilities s = true.

(** Until the lock is released, the decision is acted on only under the lock. *)
Definition settled (s : Coordinator) : Prop := fresh s \/ acted s /\ co_lock s = true.

(** The scheduler was started, and runs until its context ends. *)
Definition scheduling (s : Coordinator) : Prop := scheduler_on s = true \/ ctx_cancelled s = true.

(** What holds at each point of the main goroutine. *)
Definition phase (s : Coordinator) : Prop :=
  match main s with
  | MStart => fresh s /\ co_cancel s = false /\ co_stopping s = false /\ co_lock s = false /\ co_capabilities s = false
  | MAcquireLock => fresh s /\ co_stopping s = false /\ co_lock s = false /\ co_capabilities s = false
  | MOpenCapabilities => fresh s /\ co_stopping s = false /\ co_lock s = true /\ co_capabilities s = false
  | MStartPublisher | MReconcile | MFreshPoll | MDispose =>
      fresh s /\ co_stopping s = false /\ co_lock s = true /\ co_capabilities s = true
  | MDeferred => running s /\ decided s DispositionCapabilityDeferred
  | MRequired _ | MHandoff _ => running s /\ decided s DispositionTerminalPublicationRequired /\ pub s = PIdle
  | MStartScheduler => running s
  | MStartIntake => running s /\ scheduling s
  | MSnapshot | MReadConfirmed _ | MConfirmed _ _ | MSetReadiness _ | MMarkStarted | MRunning =>
      running s /\ scheduling s /\ intake_on s = true
  | MAbort _ => settled s /\ co_stopping s = false /\ (co_capabilities s = true -> co_lock s = true)
  | MClearReadiness None | MStopIntake =>
      settled s /\ co_stopping s = true /\ co_lock s = true /\ co_capabilities s = true
      /\ scheduling s /\ intake_on s = true
  | MClearReadiness (Some _) | MCancel _ _ | MDrain _ _ | MWaitPublisher _ _ =>
      settled s /\ co_stopping s = true /\ (co_capabilities s = true -> co_lock s = true)
  | MCloseCapabilities _ _ =>
      settled s /\ co_stopping s = true /\ (co_capabilities s = true -> co_lock s = true) /\ publisher_done s
  | MCloseLock _ _ =>
      settled s /\ co_stopping s = true /\ co_capabilities s = false /\ publisher_done s
  | MDone _ _ =>
      (fresh s \/ acted s) /\ co_stopping s = true /\ co_capabilities s = false /\ co_lock s = false /\ publisher_done s
  end.

(** Where the intake can be on. *)
Definition serving_pc (pc : main_pc) : bool :=
  match pc with
  | MSnapshot | MReadConfirmed _ | MConfirmed _ _ | MSetReadiness _ | MMarkStarted | MRunning
  | MClearReadiness None | MStopIntake => true
  | _ => false
  end.
(** Shutdown has cancelled the context. *)
Definition after_cancel (pc : main_pc) : bool :=
  match pc with
  | MDrain _ _ | MWaitPublisher _ _ | MCloseCapabilities _ _ | MCloseLock _ _ | MDone _ _ => true
  | _ => false
  end.
(** Where the process can be while it says that it is ready. *)
Definition up (pc : main_pc) : bool := match pc with MMarkStarted | MRunning => true | _ => false end.
Definition up_or_clearing (pc : main_pc) : bool :=
  match pc with MMarkStarted | MRunning | MClearReadiness None => true | _ => false end.

Record lifecycle_inv (s : Coordinator) : Prop := {
  li_phase : phase s;
  li_admission : admission s = true -> decided s DispositionEligible \/ co_confirmed s = true;
  li_confirmed : co_confirmed s = true -> decided s DispositionTerminalPublicationRequired;
  li_ready : ProcessReady (readiness s) = true -> up_or_clearing (main s) = true;
  li_admitting : pub s = PAdmit -> co_confirmed s = true;
  li_set : forall snapshot, pub s = PSet snapshot -> co_stopping s = false
             /\ (ProcessReady snapshot = true -> up (main s) = true);
  li_scheduler : scheduler_on s = true -> co_lock s = true /\ co_capabilities s = true;
  li_intake : intake_on s = true -> serving_pc (main s) = true;
  li_cancel : main s = MStart \/ co_cancel s = true;
  li_cancelled : after_cancel (main s) = true -> ctx_cancelled s = true;
}.

Lemma decided_unique s d d' : decided s d -> decided s d' -> d = d'.
Proof. intros (r & Hr & <-) (r' & Hr' & <-). congruence. Qed.

Lemma lifecycle_inv_init : lifecycle_inv NewCoordinator.
Proof. split; cbn; try done. by left. Qed.

Lemma locked_Some s s' s'' : locked s s' = Some s'' -> mutex_free s = true /\ s' = s''.
Proof. unfold locked. destruct (mutex_free s); [|done]. by intros [= ->]. Qed.
Lemma mutex_free_set s snapshot : mutex_free s = true -> pub s <> PSet snapshot.
Proof. unfold mutex_free. by destruct (pub s). Qed.

(** Splits a step into its cases, with the new state in terms of the old one. *)
Ltac split_step Hs :=
  unfold fail_or in Hs; cbv zeta in Hs; split_matches Hs; try discriminate Hs;
  first [ injection Hs as <-
        | let Hf := fresh "Hfree" in apply locked_Some in Hs as [Hf <-] ].
Ltac step_simpl :=
  cbn [goto pgoto set_held set_flags set_result set_shared setAdmission Readiness_Set stop
       co_lock co_capabilities co_cancel co_started co_stopping co_latched co_confirmed l_result ctx_cancelled
       admission readiness scheduler_on intake_on main pub] in *.

Ltac case_acted :=
  match goal with Ha : acted _ |- _ =>
    destruct Ha as [(? & ? & ?)|[(? & ? & ? & ?)|(? & ?)]] end.
(** Two different decisions. *)
Ltac by_decided :=
  match goal with H1 : decided ?s ?d, H2 : decided ?s ?d' |- _ =>
    exfalso; pose proof (decided_unique _ _ _ H1 H2); done end.

(** The coordinator has its cancel function once [Start] has begun. *)
Lemma cancel_kept s : lifecycle_inv s -> main s <> MStart -> co_cancel s = true.
Proof. by intros [_ _ _ _ _ _ _ _ [?|?] _]. Qed.

Lemma start_step_inv disabled a s s' : lifecycle_inv s -> start_step disabled a s = Some s' -> lifecycle_inv s'.
Proof.
  intros Hi. pose proof (cancel_kept s Hi) as Hcan. destruct Hi as [Hp Ha Hc Hr Had Hset Hsch Hint _ Hcd]. intros Hs. unfold start_step in Hs. unfold phase in Hp.
  destruct (main s) eqn:Em; try discriminate Hs; split_step Hs; destruct_and? Hp.
  all: split; unfold phase; step_simpl; try assumption; try done.
  all: try (intros; discriminate).
  all: try (split_and?; first [assumption|done|by left|by right]).
  all: split_bools; repeat match goal with
    | Hf : fresh ?x |- _ => destruct Hf as (? & ? & ? & ? & ?)
    | Hr : running ?x |- _ => destruct Hr as (? & ? & ? & ?) end.
  all: try (by right; apply Hcan).
  all: try (match goal with E : _ || _ = true |- _ => apply orb_true_iff in E as [E|E]; congruence end).
  - split_and!; [by left|done|congruence].
  - intros Hon. destruct (Hsch Hon). auto.
  - congruence.
  - congruence.
  - congruence.
  - congruence.
  - split_and!; try done. left. split_and!; [by exists r|done|done].
  - intros _. left. by exists r.
  - split; [|by exists r]. split_and!; try done. right. left. split_and!; [by exists r|done..].
  - split_and!; [|by exists r|done]. split_and!; try done. right. right. split; [by exists r|done].
  - split_and!; try done. case_acted; try by_decided. right. left. by split_and!.
  - split_and!; try done. case_acted; try by_decided. split_and!; try done. right. right. by split.
  - split_and!; [by right|done|done].
  - split_and!; try done. case_acted; try by_decided. right. right. by split.
  - intros _. by split.
  - split_and!; [by right|done|done].
  - intros snap Hs. by destruct (Hset snap Hs).
Qed.

Lemma acted_stop pc s : acted s -> acted (goto pc (stop s)).
Proof. intros [?|[(? & ? & ? & _)|?]]; [by left|right; left; by split_and!|by right; right]. Qed.
Lemma fresh_stop pc s : fresh s -> fresh (goto pc (stop s)).
Proof. intros (? & _ & ? & ? & ?). by split_and!. Qed.

Lemma shutdown_step_inv a s s' : lifecycle_inv s -> shutdown_step a s = Some s' -> lifecycle_inv s'.
Proof.
  intros Hi. pose proof (cancel_kept s Hi) as Hcan. destruct Hi as [Hp Ha Hc Hr Had Hset Hsch Hint _ Hcd].
  intros Hs. unfold shutdown_step in Hs. unfold phase in Hp.
  destruct (main s) eqn:Em; try discriminate Hs; split_step Hs; destruct_and? Hp.
  all: split; unfold phase; step_simpl; try assumption; try done.
  all: try (intros; discriminate).
  all: try (split_and?; first [assumption|done|by left|by right]).
  all: try (intros; exfalso; congruence).
  all: try match goal with Hr : running _ |- _ => destruct Hr as (? & ? & ? & ?) end; try congruence.
  all: try (by right; apply Hcan).
  all: try (by intros Hon; destruct (Hsch Hon); congruence).
  all: try (by intros snap Hs; apply mutex_free_set in Hs).
  - split_and!; [right; split; [by apply acted_stop|done]|done..].
  - split_and!; [|done..]. destruct H as [?|[??]]; [left; by apply fresh_stop|right; split; [by apply acted_stop|done]].
  - intros _. rewrite Hcan by done. apply orb_true_r.
  - split_and!; [destruct H as [?|[??]]; [by left|by right]|done..].
  - split_and!; [destruct H as [?|[??]]; [by left|by right]|done..].
Qed.

(** The context and the scheduler's goroutines change only what they stand for. *)
Lemma context_step_inv s s' : lifecycle_inv s -> context_step s = Some s' -> lifecycle_inv s'.
Proof.
  intros [Hp Ha Hc Hr Had Hset Hsch Hint Hcan Hcd] Hs. unfold context_step in Hs.
  destruct (ctx_cancelled s) eqn:Ec; [done|]. injection Hs as <-. split; step_simpl; try done.
  assert (Hr' : scheduling (set_shared true (admission s) (readiness s) (scheduler_on s) (intake_on s) s)) by by right.
  clear -Hp Hr'. unfold phase in *. step_simpl. destruct (main s) as [| | | | | | | | | | | | | | | | | | |[e|]| | | | | | |]; naive_solver.
Qed.
Lemma scheduler_step_inv s s' : lifecycle_inv s -> scheduler_step s = Some s' -> lifecycle_inv s'.
Proof.
  intros [Hp Ha Hc Hr Had Hset Hsch Hint Hcan Hcd] Hs. unfold scheduler_step in Hs.
  destruct (ctx_cancelled s && scheduler_on s) eqn:Ec; [|done]. injection Hs as <-. split_bools. split; step_simpl; try done.
  assert (Hr' : scheduling (set_shared (ctx_cancelled s) (admission s) (readiness s) false (intake_on s) s)) by by right.
  clear -Hp Hr'. unfold phase in *. step_simpl. destruct (main s) as [| | | | | | | | | | | | | | | | | | |[e|]| | | | | | |]; naive_solver.
Qed.

(** * The publisher's steps *)

Definition active (p : pub_pc) : Prop := p <> PIdle /\ p <> PEnd.

(** The publisher leaves the main goroutine's fields alone. *)
Record same_main (s s' : Coordinator) : Prop := {
  sm_main : main s' = main s; sm_lock : co_lock s' = co_lock s; sm_caps : co_capabilities s' = co_capabilities s;
  sm_stopping : co_stopping s' = co_stopping s; sm_latched : co_latched s' = co_latched s;
  sm_result : l_result s' = l_result s; sm_scheduler : scheduler_on s' = scheduler_on s;
  sm_intake : intake_on s' = intake_on s; sm_cancel : co_cancel s' = co_cancel s;
  sm_cancelled : ctx_cancelled s' = ctx_cancelled s;
}.

Lemma acted_active s : active (pub s) -> acted s ->
  decided s DispositionTerminalPublicationRequired /\ co_latched s = false.
Proof. intros [Ha _] [(_ & ? & _)|[(_ & ? & _)|?]]; done. Qed.
Lemma acted_same s s' : same_main s s' -> active (pub s) -> acted s -> acted s'.
Proof.
  intros Hm Hact Ha. destruct (acted_active s Hact Ha) as [Hd Hl]. right. right. unfold decided.
  by rewrite (sm_result _ _ Hm), (sm_latched _ _ Hm).
Qed.
Lemma running_same s s' : same_main s s' -> active (pub s) -> running s -> running s'.
Proof.
  intros Hm Hact (Ha & ? & ? & ?). split; [by eapply acted_same|]. by destruct Hm; split_and!; congruence.
Qed.
Lemma fresh_active s : active (pub s) -> ~ fresh s.
Proof. intros [Ha _] (? & _). done. Qed.

Lemma phase_same s s' : same_main s s' -> active (pub s) -> phase s -> phase s'.
Proof.
  intros Hm Hact Hp. pose proof (fresh_active s Hact) as Hf. unfold phase in *.
  assert (Hsch : scheduling s -> scheduling s').
  { unfold scheduling. by rewrite (sm_scheduler _ _ Hm), (sm_cancelled _ _ Hm). }
  rewrite (sm_main _ _ Hm), (sm_lock _ _ Hm), (sm_caps _ _ Hm), (sm_stopping _ _ Hm), (sm_intake _ _ Hm).
  destruct (main s) eqn:Em; try case_match; destruct_and? Hp; try done.
  all: repeat match goal with
    | Ho : fresh _ \/ acted _ |- _ => destruct Ho as [?|?]; [done|]
    | Ho : settled _ |- _ => destruct Ho as [?|[??]]; [done|] end.
  all: try match goal with Hd : publisher_done _ |- _ => by destruct Hact, Hd end.
  all: try match goal with Ho : pub _ = PIdle |- _ => by destruct Hact end.
  1: { match goal with Hr : running _ |- _ => destruct Hr as (Ha & _) end.
       destruct (acted_active _ Hact Ha). by_decided. }
  all: try match goal with Hr : running _ |- _ => apply (running_same _ _ Hm Hact) in Hr end.
  all: try match goal with Hr : acted _ |- _ => apply (acted_same _ _ Hm Hact) in Hr end.
  all: split_and?; first [done|by apply Hsch|by right|right; split; [done|by rewrite (sm_lock _ _ Hm)]].
Qed.

Lemma phase_active s : phase s -> active (pub s) -> decided s DispositionTerminalPublicationRequired.
Proof.
  intros Hp Hact. pose proof (fresh_active s Hact) as Hf. unfold phase in Hp.
  destruct (main s); try case_match; destruct_and? Hp; try done.
  all: repeat match goal with
    | Ho : fresh _ \/ acted _ |- _ => destruct Ho as [?|?]; [done|]
    | Ho : settled _ |- _ => destruct Ho as [?|[??]]; [done|] end.
  all: try match goal with Hr : running _ |- _ => destruct Hr as (? & _) end.
  all: match goal with Ha : acted _ |- _ => by destruct (acted_active s Hact Ha) end.
Qed.

Lemma up_not_stopping s : phase s -> co_stopping s = false -> up_or_clearing (main s) = true -> up (main s) = true.
Proof.
  unfold phase. destruct (main s); try done. destruct startErr; try done. intros (_ & Hs & _) Hn. congruence.
Qed.

Lemma publicationDone_step_inv a s s' : lifecycle_inv s -> publicationDone_step a s = Some s' -> lifecycle_inv s'.
Proof.
  intros [Hp Ha Hc Hr Had Hset Hsch Hint Hcan Hcd] Hs. unfold publicationDone_step in Hs.
  destruct (pub s) eqn:Epub; try discriminate Hs; split_step Hs.
  all: split; step_simpl; try assumption; try done.
  all: try (intros; discriminate).
  all: try (apply (phase_same s); [by split|split; congruence|done]).
  - by right.
  - intros _. apply (phase_active s); [done|split; congruence].
  - intros _. right. auto.
  - intros snap [= <-]. split_bools. split; [done|]. intros Hready. apply up_not_stopping; auto.
  - intros snap [= <-]. split_bools. split; [done|]. intros Hready. apply up_not_stopping; auto.
  - intros Hready. destruct (Hset snapshot eq_refl) as [_ Hup]. specialize (Hup Hready). by destruct (main s).
Qed.

Lemma lifecycle_inv_reachable disabled s : lifecycle_reachable disabled s -> lifecycle_inv s.
Proof.
  unfold lifecycle_reachable. intros Hr.
  assert (Hg : forall s0 s, rtc (lifecycle_step disabled) s0 s -> lifecycle_inv s0 -> lifecycle_inv s).
  { induction 1 as [|s0 s1 s2 Hs _ IH]; [done|]. intros Hi. apply IH.
    destruct Hs; eauto using start_step_inv, shutdown_step_inv, publicationDone_step_inv, context_step_inv,
      scheduler_step_inv. }
  by eapply Hg; [|apply lifecycle_inv_init].
Qed.

(** * The promises of the lifecycle *)

(** Every point of the main goroutine is before the decision or after it. *)
Lemma phase_acted s : phase s -> fresh s \/ acted s.
Proof.
  intros Hp. unfold phase in Hp. destruct (main s) as [| | | | | | | | | | | | | | | | | | |[e|]| | | | | | |]; destruct_and? Hp;
    repeat match goal with
    | Hr : running _ |- _ => destruct Hr as (? & _)
    | Hr : settled _ |- _ => destruct Hr as [?|[? _]] end; auto.
Qed.

(** (C22) DKG admission is gated.  In every interleaving of startup, shutdown and the
    publisher, admission is open only if reconciliation found the process eligible, or it
    required a publication and that publication has been confirmed; a process whose
    capability is deferred never opens it. *)
Theorem admission_gated disabled s :
  lifecycle_reachable disabled s -> admission s = true ->
  co_latched s = false
  /\ (decided s DispositionEligible
      \/ decided s DispositionTerminalPublicationRequired /\ co_confirmed s = true).
Proof.
  intros Hs Ha. apply lifecycle_inv_reachable in Hs as [Hp Hadm Hconf _ _ _ _ _ _ _]. split; [|naive_solver].
  assert (Hfa : fresh s \/ acted s -> co_latched s = false).
  { intros [(_ & Hn & _)|[(_ & _ & ?)|[(_ & _ & _ & Hn)|(_ & ?)]]]; congruence. }
  by apply Hfa, phase_acted.
Qed.

Lemma settled_acted s : settled s -> co_lock s = false -> publisher_done s.
Proof. intros [(Hp & _)|[_ ?]] Hl; [by left|congruence]. Qed.

(** Where the intake can be on, everything is held. *)
Lemma serving_holds s : phase s -> serving_pc (main s) = true ->
  co_lock s = true /\ co_capabilities s = true /\ scheduling s /\ intake_on s = true.
Proof.
  unfold phase. destruct (main s) as [| | | | | | | | | | | | | | | | | | |[e|]| | | | | | |]; try done;
    intros Hp _; destruct_and? Hp; try done;
    match goal with Hr : running _ |- _ => by destruct Hr as (_ & _ & ? & ?) end.
Qed.
Lemma up_serving pc : up_or_clearing pc = true -> serving_pc pc = true.
Proof. by destruct pc. Qed.

(** Without the lock the publisher has ended and nothing is open. *)
Lemma unlocked s : phase s -> co_lock s = false -> publisher_done s /\ co_capabilities s = false.
Proof.
  unfold phase, running. intros Hp Hl.
  destruct (main s) as [| | | | | | | | | | | | | | | | | | |[e|]| | | | | | |]; destruct_and? Hp; try congruence.
  all: try (split; [left; by match goal with Hf : fresh _ |- _ => apply Hf end|congruence]).
  all: split; [first [done|by apply settled_acted]|].
  all: destruct (co_capabilities s); [|done].
  all: repeat match goal with Hi : true = true -> _ |- _ => specialize (Hi eq_refl) end; congruence.
Qed.

(** (C23) The process says it is ready only while it is up, and lets go of its lock last.
    In every interleaving: whenever the published readiness says ready, the lifetime lock
    and the capabilities are held, the intake is on, and the scheduler runs unless the
    context of the process has ended; the scheduler and the intake are on only while both
    the lock and the capabilities are held, so while the lock is not held no publication
    is in progress, no capability is open and neither the scheduler nor the intake runs;
    and when shutdown, or a failed start, has finished, the readiness is not ready, lock
    and capabilities are released and publisher, scheduler and intake have ended. *)
Theorem lifecycle_holds_lock disabled s :
  lifecycle_reachable disabled s ->
  (ProcessReady (readiness s) = true ->
     co_lock s = true /\ co_capabilities s = true /\ intake_on s = true
     /\ (scheduler_on s = true \/ ctx_cancelled s = true))
  /\ (scheduler_on s = true \/ intake_on s = true -> co_lock s = true /\ co_capabilities s = true)
  /\ (co_lock s = false ->
        publisher_done s /\ co_capabilities s = false /\ scheduler_on s = false /\ intake_on s = false)
  /\ (forall startErr errs, main s = MDone startErr errs ->
        co_stopping s = true /\ ProcessReady (readiness s) = false /\ co_lock s = false
        /\ co_capabilities s = false /\ publisher_done s /\ scheduler_on s = false /\ intake_on s = false).
Proof.
  intros Hs. apply lifecycle_inv_reachable in Hs as [Hp _ _ Hr _ _ Hsch Hint _ _].
  assert (Hon : scheduler_on s = true \/ intake_on s = true -> co_lock s = true /\ co_capabilities s = true).
  { intros [?|?]; [auto|]. by destruct (serving_holds s Hp) as (? & ? & _); [apply Hint|]. }
  assert (Hoff : co_lock s = false -> scheduler_on s = false /\ intake_on s = false).
  { intros Hl. destruct (scheduler_on s), (intake_on s); try done; destruct Hon; auto; congruence. }
  split_and!; [|done| |].
  - intros Hready. by destruct (serving_holds s Hp) as (? & ? & ? & ?); [apply up_serving; auto|].
  - intros Hl. destruct (unlocked s Hp Hl), (Hoff Hl). by split_and!.
  - intros e errs Em. unfold phase in Hp. rewrite Em in Hp, Hr. destruct_and? Hp. destruct Hoff; [done|].
    split_and!; try done. destruct (ProcessReady (readiness s)); [by specialize (Hr eq_refl)|done].
Qed.

(** * Shutdown terminates *)

Definition main_rank (pc : main_pc) : nat :=
  match pc with
  | MClearReadiness _ => 8 | MStopIntake => 7 | MCancel _ _ => 6 | MDrain _ _ => 5 | MWaitPublisher _ _ => 4
  | MCloseCapabilities _ _ => 3 | MCloseLock _ _ => 2 | _ => 0
  end.
Definition pub_rank (pc : pub_pc) : nat :=
  match pc with PPublishing => 6 | PConfirm => 5 | PAdmit => 4 | PRead => 3 | PSet _ => 2 | _ => 0 end.
Definition rank (s : Coordinator) : nat :=
  main_rank (main s) + pub_rank (pub s) + (if scheduler_on s then 1 else 0) + (if ctx_cancelled s then 0 else 1).

Lemma stopping_step disabled s s' : lifecycle_inv s -> co_stopping s = true -> lifecycle_step disabled s s' ->
  co_stopping s' = true /\ (rank s' < rank s)%nat.
Proof.
  intros Hi Hst Hs. pose proof (cancel_kept s Hi) as Hcan. destruct Hi as [Hp _ _ _ _ _ _ _ _ _].
  unfold phase, running in Hp. unfold rank. destruct Hs as [a s s' Hs|a s s' Hs|a s s' Hs|s s' Hs|s s' Hs].
  - unfold start_step in Hs. exfalso. destruct (main s); try discriminate Hs; destruct_and? Hp; congruence.
  - unfold shutdown_step in Hs. destruct (main s) eqn:Em; try discriminate Hs; split_step Hs; destruct_and? Hp; try congruence;
      step_simpl; rewrite ?Em;
      try match goal with E : pub _ = _ |- _ => rewrite E end;
      (split; [done|cbn [main_rank]; rewrite ?Hcan, ?orb_true_r by done; repeat case_match; lia]).
  - unfold publicationDone_step in Hs. destruct (pub s) eqn:Epub; try discriminate Hs; split_step Hs;
      step_simpl; try match goal with E : ctx_cancelled _ = _ |- _ => rewrite E end;
      (split; [done|cbn [pub_rank]; lia]).
  - unfold context_step in Hs. destruct (ctx_cancelled s) eqn:Ec; [done|]. injection Hs as <-. step_simpl. split; [done|lia].
  - unfold scheduler_step in Hs. destruct (ctx_cancelled s) eqn:Ec, (scheduler_on s) eqn:Eo; try discriminate Hs.
    injection Hs as <-. step_simpl. split; [done|lia].
Qed.

Definition quiet : answer := {| an_err := None; an_reconcile := Fail (ENew ""); an_signing := false; an_provisioning := false |}.
(** The publication is given up. *)
Definition gives_up : answer :=
  {| an_err := Some (ENew ""); an_reconcile := Fail (ENew ""); an_signing := false; an_provisioning := false |}.

(** The steps that the process can make on its own: the backend confirms no publication and
    the parent of the context does not end. *)
Inductive own_step : Coordinator -> Coordinator -> Prop :=
  | own_shutdown a s s' : shutdown_step a s = Some s' -> own_step s s'
  | own_publisher a s s' : pub s <> PPublishing \/ an_err a <> None ->
      publicationDone_step a s = Some s' -> own_step s s'
  | own_scheduler s s' : scheduler_step s = Some s' -> own_step s s'.

Lemma own_lifecycle_step disabled s s' : own_step s s' -> lifecycle_step disabled s s'.
Proof.
  intros [a s0 s1 Hs|a s0 s1 _ Hs|s0 s1 Hs];
    [by eapply step_shutdown|by eapply step_publisher|by eapply step_scheduler].
Qed.

Lemma stopping_progress s : lifecycle_inv s -> co_stopping s = true ->
  (exists e errs, main s = MDone e errs) \/ exists s', own_step s s'.
Proof.
  intros [Hp _ _ _ _ Hset _ _ _ Hcd] Hst. unfold phase, running in Hp.
  assert (Hfree : mutex_free s = true).
  { unfold mutex_free. destruct (pub s) eqn:E; try done. destruct (Hset _ eq_refl). congruence. }
  destruct (main s) eqn:Em; destruct_and? Hp; try congruence; [..|by left; eauto].
  all: right; try (eexists; apply (own_shutdown quiet); unfold shutdown_step; rewrite Em; reflexivity).
  - destruct (pub s) eqn:Epub.
    1, 7: eexists; apply (own_shutdown quiet); unfold shutdown_step; rewrite Em, Epub; reflexivity.
    1: eexists; apply (own_publisher gives_up); [by right|]; unfold publicationDone_step; rewrite Epub; cbn; by rewrite Hcd.
    all: eexists; apply (own_publisher quiet); [left; congruence|]; unfold publicationDone_step; rewrite Epub; reflexivity.
  - destruct (scheduler_on s) eqn:Eon.
    + eexists. apply own_scheduler. unfold scheduler_step. by rewrite Hcd, Eon.
    + destruct (co_capabilities s) eqn:Ecap; eexists; apply (own_shutdown quiet); unfold shutdown_step;
        rewrite Em, Ecap, ?Eon; reflexivity.
Qed.

Lemma lifecycle_reachable_step disabled s s' : lifecycle_reachable disabled s -> lifecycle_step disabled s s' ->
  lifecycle_reachable disabled s'.
Proof. intros Hr Hs. eapply rtc_r; eauto. Qed.

Lemma lifecycle_reachable_steps disabled s s' : lifecycle_reachable disabled s -> rtc (lifecycle_step disabled) s s' ->
  lifecycle_reachable disabled s'.
Proof. unfold lifecycle_reachable. by etrans. Qed.
Lemma stopping_steps disabled s s' : lifecycle_reachable disabled s -> co_stopping s = true ->
  rtc (lifecycle_step disabled) s s' -> co_stopping s' = true.
Proof.
  intros Hr Hst Hs. induction Hs as [|s s1 s' Hs _ IH]; [done|]. apply IH; [by eapply lifecycle_reachable_step|].
  by destruct (stopping_step _ _ _ (lifecycle_inv_reachable _ _ Hr) Hst Hs).
Qed.
Lemma stopping_bound disabled n s s' : nsteps (lifecycle_step disabled) n s s' ->
  lifecycle_reachable disabled s -> co_stopping s = true -> (n <= rank s)%nat.
Proof.
  intros Hn. induction Hn as [s|n s s1 s' Hs _ IH]; intros Hr Hst; [lia|].
  destruct (stopping_step _ _ _ (lifecycle_inv_reachable _ _ Hr) Hst Hs) as [Hst1 Hlt].
  specialize (IH (lifecycle_reachable_step _ _ _ Hr Hs) Hst1). lia.
Qed.
Lemma stopping_ends disabled s : lifecycle_reachable disabled s -> co_stopping s = true ->
  exists s' startErr errs, rtc own_step s s' /\ main s' = MDone startErr errs.
Proof.
  remember (rank s) as k eqn:Ek. revert s Ek.
  induction (lt_wf k) as [k _ IH]. intros s -> Hr Hst.
  destruct (stopping_progress s (lifecycle_inv_reachable _ _ Hr) Hst) as [(e & errs & Hd)|[s1 Hs]].
  { exists s, e, errs. split; [apply rtc_refl|done]. }
  pose proof (own_lifecycle_step disabled _ _ Hs) as Hl.
  destruct (stopping_step _ _ _ (lifecycle_inv_reachable _ _ Hr) Hst Hl) as [Hst1 Hlt].
  destruct (IH (rank s1) Hlt s1 eq_refl (lifecycle_reachable_step _ _ _ Hr Hl) Hst1) as (s' & e & errs & Hrun & Hd).
  exists s', e, errs. split; [by eapply rtc_l|done].
Qed.

(** (C24) Shutdown terminates.  From the moment it begins, whatever the dependencies answer
    and however the goroutines are scheduled, no run has more than sixteen further steps,
    and no run is stuck before the end: in every state it can reach, the main goroutine is
    done or the process can go on by itself, even though the backend confirms no
    publication and the parent context does not end, because shutdown has cancelled the
    context on which the publisher and the scheduler give up.  So some run of such steps
    alone reaches the end. *)
Theorem shutdown_terminates disabled s :
  lifecycle_reachable disabled s -> co_stopping s = true ->
  (forall n s', nsteps (lifecycle_step disabled) n s s' -> (n <= 16)%nat)
  /\ (forall s', rtc (lifecycle_step disabled) s s' ->
        (exists startErr errs, main s' = MDone startErr errs) \/ exists s'', own_step s' s'')
  /\ exists s' startErr errs, rtc own_step s s' /\ main s' = MDone startErr errs.
Proof.
  intros Hr Hst. split_and!; [|intros s' Hs|by eapply stopping_ends].
  - intros n s' Hn. pose proof (stopping_bound _ _ _ _ Hn Hr Hst) as Hb.
    assert (rank s <= 16)%nat; [|lia].
    unfold rank. destruct (main s), (pub s), (scheduler_on s), (ctx_cancelled s); cbn; lia.
  - apply stopping_progress; [|by eapply stopping_steps].
    eapply lifecycle_inv_reachable, lifecycle_reachable_steps; [exact Hr|exact Hs].
Qed.

(** * Schedules *)

Inductive move := Starts (a : answer) | Stops (a : answer) | Publishes (a : answer) | ContextEnds | SchedulerReturns.
Definition make (disabled : bool) (m : move) (s : Coordinator) : option Coordinator :=
  match m with
  | Starts a => start_step disabled a s
  | Stops a => shutdown_step a s
  | Publishes a => publicationDone_step a s
  | ContextEnds => context_step s
  | SchedulerReturns => scheduler_step s
  end.
Fixpoint schedule (disabled : bool) (ms : list move) (s : Coordinator) : option Coordinator :=
  match ms with [] => Some s | m :: ms => s ← make disabled m s; schedule disabled ms s end.

Lemma schedule_reachable disabled ms s s' :
  lifecycle_reachable disabled s -> schedule disabled ms s = Some s' -> lifecycle_reachable disabled s'.
Proof.
  revert s. induction ms as [|m ms IH]; intros s Hr; cbn; [by intros [= <-]|].
  destruct (make disabled m s) as [s1|] eqn:Em; [|done]. cbn. apply IH. eapply lifecycle_reachable_step; [done|].
  destruct m; cbn in Em; [by eapply step_start|by eapply step_shutdown|by eapply step_publisher|by apply step_context|by apply step_scheduler].
Qed.

(** Answers of healthy dependencies. *)
Definition fine (r : Result) : answer :=
  {| an_err := None; an_reconcile := Ok r; an_signing := true; an_provisioning := true |}.
Definition some_job : Job := {| job_intentID := "intent-1"; job_body := "{}"; job_status := "FAILED"; job_fingerprint := "" |}.
Definition required : answer := fine (publication_required some_job "").
(** [Start] up to the point where it has read [confirmed], with a publication handed over. *)
Definition starting (n : nat) : list move := replicate n (Starts required).
Definition publishing (n : nat) : list move := replicate n (Publishes required).
Definition stopping (n : nat) : list move := replicate n (Stops required).

(** (C25) A confirmation that has recorded itself but not yet opened admission when shutdown
    begins opens it after shutdown has closed it: shutdown ends with admission open. *)
Theorem admission_reopened_by_late_confirmation : exists s,
  lifecycle_reachable false s /\ main s = MDone None [] /\ co_stopping s = true /\ admission s = true.
Proof.
  eexists. split; [eapply (schedule_reachable false (starting 15 ++ publishing 2 ++ stopping 3 ++ publishing 2 ++ stopping 3 ++ SchedulerReturns :: stopping 2) NewCoordinator);
    [apply rtc_refl|vm_compute; reflexivity]|].
  vm_compute. split_and!; reflexivity.
Qed.

(** A confirmation that arrives between the moment [Start] reads [confirmed] and the moment
    it publishes its snapshot is lost: admission is open, nothing more will happen, and
    every health response keeps saying that the result is unconfirmed. *)
Theorem confirmation_lost_by_start : exists s,
  lifecycle_reachable false s /\ main s = MRunning /\ pub s = PEnd /\ co_confirmed s = true /\ admission s = true
  /\ ProvisioningReason (readiness s) = ReasonDKGTerminalUnconfirmed
  /\ (forall shares probe code rsp,
        ServeHTTP "GET" shares (readiness s) (readiness s) (Some true) probe = (code, Some rsp) ->
        rsp_ProvisioningReady rsp = false /\ rsp_ProvisioningReason rsp = ReasonDKGTerminalUnconfirmed).
Proof.
  eexists. split; [eapply (schedule_reachable false (starting 12 ++ publishing 5 ++ starting 3) NewCoordinator);
    [apply rtc_refl|vm_compute; reflexivity]|].
  cbn [main pub co_confirmed admission readiness]. do 5 (split; [reflexivity|]).
  intros [e|] [[]|] code rsp; vm_compute; intros [= _ <-]; split; reflexivity.
Qed.

(** A confirmation that reads the readiness before [Start] publishes its snapshot and
    writes it back after overwrites that snapshot: the process runs, its dependencies are
    healthy, and every health response says that it is not ready. *)
Theorem readiness_lost_by_confirmation : exists s,
  lifecycle_reachable false s /\ main s = MRunning /\ pub s = PEnd /\ ProcessReady (readiness s) = false
  /\ (forall shares signing probe, (ServeHTTP "GET" shares (readiness s) (readiness s) signing probe).1 = 503%Z).
Proof.
  eexists. split; [eapply (schedule_reachable false
      (starting 13 ++ publishing 4 ++ starting 1 ++ publishing 1 ++ starting 1) NewCoordinator);
    [apply rtc_refl|vm_compute; reflexivity]|].
  cbn [main pub readiness]. do 3 (split; [reflexivity|]). intros [e|] [[]|] [[]|]; vm_compute; reflexivity.
Qed.

(** (C27) The two ways a confirmation and [Start] can lose each other's readiness write:
    in one reachable running state admission is open but the result is reported as
    unconfirmed for ever; in another the process runs but every health response is 503. *)
Theorem confirmation_races_start :
  (exists s, lifecycle_reachable false s /\ main s = MRunning /\ pub s = PEnd /\ co_confirmed s = true
    /\ admission s = true /\ ProvisioningReason (readiness s) = ReasonDKGTerminalUnconfirmed
    /\ (forall shares probe code rsp,
          ServeHTTP "GET" shares (readiness s) (readiness s) (Some true) probe = (code, Some rsp) ->
          rsp_ProvisioningReady rsp = false /\ rsp_ProvisioningReason rsp = ReasonDKGTerminalUnconfirmed))
  /\ (exists s, lifecycle_reachable false s /\ main s = MRunning /\ pub s = PEnd
    /\ ProcessReady (readiness s) = false
    /\ (forall shares signing probe, (ServeHTTP "GET" shares (readiness s) (readiness s) signing probe).1 = 503%Z)).
Proof. exact (conj confirmation_lost_by_start readiness_lost_by_confirmation). Qed.

(** * Health *)

(** The health endpoint never reports more than the lifecycle allows.  A response is
    200 exactly when it says ready, and then the share directory is there, the signing
    probe does not object and the latest reading of the readiness says ready; and it
    reports provisioning only if that reading does, or if the live probe does while that
    reading, taken after the probe, leaves the gate open: a deferred capability or an
    unconfirmed result is never overridden by a probe. *)
Theorem ServeHTTP_gates shares before after signing provisioning code rsp :
  ServeHTTP "GET" shares before after signing provisioning = (code, Some rsp) ->
  (code = 200%Z <-> rsp_Ready rsp = true)
  /\ (rsp_Ready rsp = true ->
        shares = None /\ signing <> Some false /\ ProcessReady (latest before after provisioning) = true)
  /\ (rsp_ProvisioningReady rsp = true -> rsp_dkg rsp = true)
  /\ (rsp_dkg rsp = true ->
        ProvisioningReady (latest before after provisioning) = true
        \/ provisioning = Some true /\ canRefreshProvisioning (latest before after provisioning) = true).
Proof.
  unfold ServeHTTP. change ("GET" <>s "GET") with false. cbv iota zeta.
  set (snap := latest before after provisioning). intros [= <- <-]. cbn [rsp_Ready rsp_ProvisioningReady rsp_dkg].
  split; [by case_match|]. split; [|split].
  - intros [Hr Hs]%andb_true_iff. destruct shares; [done|]. split; [done|].
    destruct signing as [[]|]; [|done|]; (split; [done|]); by case_match.
  - by intros [? _]%andb_true_iff.
  - destruct signing as [[]|]; [|done|];
      (destruct (provisioning_checked before provisioning && _) eqn:Ec; [|by left]; cbn [ProvisioningReady];
       intros [_ Hp]%andb_true_iff; apply andb_true_iff in Ec as [_ Ec]; right; split; [|done];
       by destruct provisioning as [[]|]).
Qed.

(** A process that started with nothing to publish. *)
Definition started_process : Coordinator :=
  default NewCoordinator (schedule false (replicate 11 (Starts (fine (eligible "")))) NewCoordinator).
Lemma started_process_reachable : lifecycle_reachable false started_process.
Proof.
  apply (schedule_reachable false (replicate 11 (Starts (fine (eligible "")))) NewCoordinator); [apply rtc_refl|].
  vm_compute. reflexivity.
Qed.
Lemma admission_gated_witness :
  main started_process = MRunning /\ admission started_process = true /\ co_latched started_process = false.
Proof.
  split; [vm_compute; reflexivity|]. split; [vm_compute; reflexivity|].
  exact (proj1 (admission_gated false started_process started_process_reachable eq_refl)).
Defined.

Lemma lifecycle_holds_lock_witness :
  ProcessReady (readiness started_process) = true /\ co_lock started_process = true /\ intake_on started_process = true.
Proof.
  split; [vm_compute; reflexivity|].
  destruct (proj1 (lifecycle_holds_lock false started_process started_process_reachable) eq_refl) as (Hl & _ & Hi & _).
  split; [exact Hl|exact Hi].
Defined.

(** A process that begins its shutdown while its publication is still being retried. *)
Definition retrying_process : Coordinator :=
  default NewCoordinator (schedule false (starting 15 ++ stopping 1) NewCoordinator).
Lemma retrying_process_reachable : lifecycle_reachable false retrying_process.
Proof.
  apply (schedule_reachable false (starting 15 ++ stopping 1) NewCoordinator); [apply rtc_refl|].
  vm_compute. reflexivity.
Qed.

Lemma shutdown_terminates_witness :
  pub retrying_process = PPublishing /\ ctx_cancelled retrying_process = false
  /\ exists s' startErr errs, rtc own_step retrying_process s' /\ main s' = MDone startErr errs.
Proof.
  split; [vm_compute; reflexivity|]. split; [vm_compute; reflexivity|].
  exact (proj2 (proj2 (shutdown_terminates false retrying_process retrying_process_reachable eq_refl))).
Defined.

Lemma ServeHTTP_gates_witness : exists code rsp,
  ServeHTTP "GET" None (readiness started_process) (readiness started_process) (Some true) (Some true) = (code, Some rsp)
  /\ code = 200%Z /\ rsp_dkg rsp = true
  /\ (ProvisioningReady (latest (readiness started_process) (readiness started_process) (Some true)) = true
      \/ Some true = Some true /\ canRefreshProvisioning (latest (readiness started_process) (readiness started_process) (Some true)) = true).
Proof.
  eexists _, _. split; [vm_compute; reflexivity|]. split; [reflexivity|]. split; [reflexivity|].
  refine (proj2 (proj2 (proj2 (ServeHTTP_gates None _ _ (Some true) (Some true) _ _ _))) _).
  - vm_compute. reflexivity.
  - reflexivity.
Defined.
