(* ===== verification/SignGate.v ===== *)
(** [internal/approval/sign_gate.go] and [internal/worker/approval_gate.go]: the gate
    that a claimed SIGN intent passes before the MPC core runs.  The gate reads the
    saved evidence, verifies the prepared transaction against it and binds the
    execution in the journal; the worker calls it again, once a second, while the
    decision still has to be applied.  The journal is reached through the two-method
    interface of the source, and other goroutines may use it between any two calls. *)
From stdpp Require Import base tactics option list strings numbers gmap relations.
From Stdlib Require Import ZArith Lia Ascii String.
From S2P Require Import Prelude GoText Sha256 Json StrictJson Externals Mpc2of3 ApprovalWire SigningPolicy FileSystem Journal GoTime RawJson Monolith.

#[local] Open Scope string_scope.

(** [ExecutionJournal]. *)
Record ExecutionJournal := {
  ej_Load : string -> string -> M State;
  ej_BindExecution : ExecutionBinding -> M unit;
}.

Record SignGate := { sg_Journal : option ExecutionJournal }.

(** What one call of the gate meets: what other users of the journal do between its
    two journal calls, the time that [Now] returns and [ctx.Err()]. *)
Record gate_call := { gc_between : world -> world; gc_now : time; gc_ctx : option error }.

(** [json.Marshal(i.Payload.DerivationContext)]: members tagged [omitempty] are left
    out when they are empty or zero. *)
Definition omit_text (k v : string) : list (string * json) := if v =s "" then [] else [(k, JStr v)].
Definition omit_number (k : string) (n : Z) : list (string * json) :=
  if (n =? 0)%Z then [] else [(k, jint n)].
Definition derivation_json (d : DerivationContext) : json :=
  JObj (([("profileId", JStr (dc_ProfileID d))] ++ omit_text "profileTemplateId" (dc_ProfileTemplateID d)
         ++ [("chain", JStr (dc_Chain d)); ("algorithm", JStr (dc_Algorithm d));
             ("curve", JStr (dc_Curve d)); ("scheme", JStr (dc_Scheme d));
             ("accountPath", JStr (dc_AccountPath d)); ("childPath", JStr (dc_ChildPath d));
             ("fullPath", JStr (dc_FullPath d))]
         ++ omit_text "addressEncoding" (dc_AddressEncoding d)
         ++ omit_text "expectedAddress" (dc_ExpectedAddress d)
         ++ omit_text "expectedPublicKey" (dc_ExpectedPublicKey d)
         ++ omit_text "publicKeyFormat" (dc_PublicKeyFormat d)
         ++ omit_number "descriptorVersion" (dc_DescriptorVersion d)
         ++ omit_number "profileVersion" (dc_ProfileVersion d)
         ++ omit_number "keyVersion" (dc_KeyVersion d))%list).
Definition marshal_derivation (d : option DerivationContext) : bytes :=
  match d with Some d => json_print (derivation_json d) | None => "null" end.

(** The binding that [Authorize] asks the journal to record. *)
Definition binding_of (i : Intent) (a : ApprovedExecution) : ExecutionBinding := {|
  ex_Version := 1; ex_OrgID := ip_OrgID (in_Payload i); ex_RequestID := ae_RequestID a;
  ex_OutgoingID := ae_OutgoingID a; ex_AuthorizationHash := ae_AuthorizationHash a;
  ex_ExecutionDigest := b64_encode b64_std (ip_Digest (in_Payload i));
  ex_PayloadType := ip_SigningPayloadType (in_Payload i);
  ex_HashAlgorithm := ip_HashAlgorithm (in_Payload i) |}.

Section Gate.
Context `{Externals} `{TxCodecs}.

(** The saved evidence must be of this authorization, approved and applied. *)
Definition check_evidence (state : State) (a : ApprovedExecution) : res unit :=
  match st_Admission state, st_Receipt state with
  | Some admission, Some saved =>
      if ad_AuthorizationHash admission <>s ae_AuthorizationHash a then Fail err_integrity else
      match SameReceipt (sr_Bytes saved) (ae_DecisionReceipt a) with
      | Ok true =>
          receipt ← ParseReceipt (sr_Bytes saved);
          if str (Envelope receipt) "decision" <>s "APPROVED" then Fail err_integrity
          else if (zlen (st_Application state) =? 0)%Z then Fail (ESent ErrApprovalApplicationPending)
          else
            application ← ParseDecisionApplication (st_Application state);
            if str application "disposition" <>s "APPLIED" then Fail err_integrity else Ok ()
      | _ => Fail err_integrity
      end
  | _, _ => Fail err_integrity
  end.

(** The prepared transaction must be the authorized one, for this organization,
    wallet, key and derivation. *)
Definition check_prepared (i : Intent) (a : ApprovedExecution) (p : PreparedTransfer) (now : time) : res unit :=
  let payload := in_Payload i in
  auth ← VerifyPrepared (Some a) (Some p) (ip_PolicyContext payload) (ip_Digest payload)
           (ip_SigningPayloadType payload) (ip_HashAlgorithm payload) now;
  _ ← ensure (forallb (fun kw => str auth kw.1 =s kw.2)
                [("orgId", ip_OrgID payload); ("walletId", ip_WalletID payload);
                 ("keyId", ip_KeyID payload);
                 ("derivationContextHash", ip_DerivationContextHash payload)]) err_prepared;
  match jcs_transform (marshal_derivation (ip_DerivationContext payload)) with
  | Fail _ => Fail err_prepared
  | Ok contextBytes => ensure (contextBytes =s member auth "derivationContext") err_prepared
  end.

(** [SignGate.Authorize]. *)
Definition Authorize (g : SignGate) (c : gate_call) (i : Intent) : M unit :=
  if negb (in_Version i =? 2)%Z then throw err_prepared else
  match in_Approval i, in_Prepared i, sg_Journal g with
  | Some a, Some p, Some journal =>
      if ae_OutgoingID a <>s in_IntentID i then throw err_prepared else
      state ← ej_Load journal (ip_OrgID (in_Payload i)) (ae_RequestID a);
      _ ← lift (check_evidence state a);
      _ ← lift (check_prepared i a p (gc_now c));
      let binding := binding_of i a in
      if match st_Execution state with Some x => negb (bool_decide (x = binding)) | None => false end
      then throw err_conflict
      else match gc_ctx c with
      | Some e => throw e
      | None =>
          _ ← (fun w => (Ok (), gc_between c w)) : M unit;
          ej_BindExecution journal binding
      end
  | _, _, _ => throw err_prepared
  end.
End Gate.

(** * approval_gate.go *)

(** What ends the wait after a pending answer: the context, or the timer, with what
    others did to the journal meanwhile. *)
Inductive wake := Done (e : error) | Fired (env : world -> world).

(** [authorizeSign] on a script of gate calls and waits; [None] while it is still
    waiting at the end of the script. *)
Section Wait.
Context {Call : Type} (gate : Call -> Intent -> M unit).

Fixpoint authorize_loop (i : Intent) (script : list (Call * wake)) (w : world) : option (res unit * world) :=
  match script with
  | [] => None
  | (c, wk) :: script =>
      match gate c i w with
      | (Ok _, w) => Some (Ok (), w)
      | (Fail e, w) =>
          if errors_is e ErrApprovalApplicationPending then
            match wk with
            | Done e => Some (Fail e, w)
            | Fired env => authorize_loop i script (env w)
            end
          else Some (Fail e, w)
      end
  end.
End Wait.

Definition authorizeSign {Call} (gate : option (Call -> Intent -> M unit)) (i : Intent)
    (script : list (Call * wake)) (w : world) : option (res unit * world) :=
  match gate with
  | None => Some (Fail err_prepared, w)
  | Some gate => authorize_loop gate i script w
  end.
