(* ===== verification/SignGateProofs.v ===== *)
(** Proofs about the gate before signing.  [ApprovalStore] is what the gate relies on
    of the journal; the gate's theorems are proved against it and [journal_store]
    discharges it with the file journal of one directory. *)
From stdpp Require Import base tactics option list strings numbers gmap relations.
From Stdlib Require Import ZArith Lia Ascii String.
From S2P Require Import Prelude GoText Sha256 Json StrictJson Externals Mpc2of3 ApprovalWire SigningPolicy FileSystem Publish Journal JournalProofs GoTime RawJson Monolith SignGate.

#[local] Open Scope string_scope.

(** * What the journal promises *)

Section Store.
Context `{Externals} `{TxCodecs}.

(** The handles of one store (one per process run), the worlds and later worlds it
    speaks about, the evidence behind a state and the recorded executions. *)
Class ApprovalStore := {
  store_handle : ExecutionJournal -> Prop;
  store_inv : world -> Prop;
  store_later : world -> world -> Prop;
  store_evidence : world -> string -> string -> State -> Prop;
  store_recorded : world -> ExecutionBinding -> Prop;
  store_order : PreOrder store_later;
  store_inv_later w w' : store_inv w -> store_later w w' -> store_inv w';
  load_later j org request w : store_handle j -> store_later w (ej_Load j org request w).2;
  bind_later j x w : store_handle j -> store_later w (ej_BindExecution j x w).2;
  load_evidence j org request w st w' : store_handle j -> store_inv w ->
    ej_Load j org request w = (Ok st, w') -> store_evidence w' org request st;
  evidence_later w w' org request st : store_inv w -> store_later w w' ->
    store_evidence w org request st -> store_evidence w' org request st;
  evidence_admission w org request st a : store_evidence w org request st -> st_Admission st = Some a ->
    ad_OrgID a = org /\ ad_RequestID a = request;
  evidence_receipt w org request st a r : store_evidence w org request st -> st_Admission st = Some a ->
    st_Receipt st = Some r -> validateReceipt a r = Ok ();
  bind_recorded j x w w' : store_handle j -> store_inv w ->
    ej_BindExecution j x w = (Ok (), w') -> store_recorded w' x;
  recorded_later w w' x : store_inv w -> store_later w w' -> store_recorded w x -> store_recorded w' x;
  recorded_unique w x y : store_recorded w x -> store_recorded w y ->
    ex_OrgID x = ex_OrgID y -> ex_RequestID x = ex_RequestID y -> x = y;
}.

(** The file journal: all handles on the directory [d], over runs of the journal. *)
Definition file_journal (j : Journal) : ExecutionJournal :=
  {| ej_Load := Load j; ej_BindExecution := BindExecution j |}.
Definition execution_path (d : string) (x : ExecutionBinding) : path :=
  (d, record_name (ex_OrgID x) (ex_RequestID x) "execution").

#[local] Program Instance journal_store (d : string) : ApprovalStore := {|
  store_handle ej := exists j, j_directory j = d /\ ej = file_journal j;
  store_inv := inv;
  store_later := rtc jstep;
  store_evidence w org request st := exists j, j_directory j = d /\ evidence (durable w) j org request st;
  store_recorded w x := durable w (execution_path d x) (json_print (execution_json x))
    /\ decodeRecord decode_execution executionFields (json_print (execution_json x)) = Ok x;
|}.
Next Obligation. intros d w w' Hi Hl. by destruct (jsteps_durable _ _ Hl Hi). Qed.
Next Obligation. intros d ? org request w (j & _ & ->). apply rtc_once. cbn. constructor. Qed.
Next Obligation. intros d ? x w (j & _ & ->). apply rtc_once. cbn. apply (jstep_op j (OpBind x)). Qed.
Next Obligation.
  intros d ? org request w st w' (j & Hj & ->) Hi Hl. exists j. split; [done|].
  exact (loadStateLocked_evidence _ _ _ _ _ _ Hl).
Qed.
Next Obligation.
  intros d w w' org request st Hi Hl (j & Hj & Hev). exists j. split; [done|].
  destruct (jsteps_durable _ _ Hl Hi) as [_ Hd]. eapply evidence_mono; [|exact Hev].
  intros kind raw. apply Hd, record_not_temporary.
Qed.
Next Obligation.
  intros d w org request st a (j & _ & Hev) Ha. by destruct (ev_admission _ _ _ _ _ Hev a Ha) as (? & ? & _).
Qed.
Next Obligation.
  intros d w org request st a r (j & _ & Hev) Ha Hr.
  destruct (ev_receipt _ _ _ _ _ Hev r Hr) as (a' & Ha' & Hv & _). congruence.
Qed.
Next Obligation.
  intros d ? x w w' (j & <- & ->) Hi Hb. cbn in Hb. split; [|exact (bind_roundtrip _ _ _ _ Hb)].
  by destruct (bind_durable _ _ _ _ Hi Hb) as (_ & _ & ?).
Qed.
Next Obligation.
  intros d w w' x Hi Hl [Hd Hr]. split; [|done]. destruct (jsteps_durable _ _ Hl Hi) as [_ Hk].
  apply Hk; [|done].
  exact (record_not_temporary {| j_directory := d; j_identity := Build_FileInfo true 0 0 0 0;
           j_closed := false; j_scan := None |} _ _ _).
Qed.
Next Obligation.
  intros d w x y [Hx Rx] [Hy Ry] Ho Hq. unfold execution_path in *. rewrite Ho, Hq in Hx.
  rewrite (durable_unique _ _ _ _ Hx Hy) in Rx. congruence.
Qed.
End Store.

(** * What a passed gate guarantees *)

Section Authorized.
Context `{Externals} `{TxCodecs}.

(** The decision behind an execution: a receipt signed under the key saved with it,
    APPROVED, for this organization, request and authorization hash. *)
Definition signed_approval (saved : SavedReceipt) (org request hash : string) : Prop :=
  exists receipt, ParseReceipt (sr_Bytes saved) = Ok receipt
  /\ ed25519_verify (sr_PublicKey saved) (DecisionDomain +:+ EnvelopeBytes receipt) (Signature receipt) = true
  /\ str (Envelope receipt) "decision" = "APPROVED"
  /\ str (Envelope receipt) "orgId" = org /\ str (Envelope receipt) "requestId" = request
  /\ str (Envelope receipt) "authorizationHash" = hash.

(** The intent is for the wallet, key and derivation of the authorization. *)
Definition payload_of (auth : Object) (payload : IntentPayload) : Prop :=
  str auth "orgId" = ip_OrgID payload /\ str auth "walletId" = ip_WalletID payload
  /\ str auth "keyId" = ip_KeyID payload
  /\ str auth "derivationContextHash" = ip_DerivationContextHash payload
  /\ jcs_transform (marshal_derivation (ip_DerivationContext payload)) = Ok (member auth "derivationContext").

Record authorized `{!ApprovalStore} (w : world) (i : Intent) (a : ApprovedExecution) (p : PreparedTransfer)
    (auth : Object) : Prop := {
  au_intent : in_Version i = 2%Z /\ in_Approval i = Some a /\ in_Prepared i = Some p
    /\ ae_OutgoingID a = in_IntentID i;
  au_document : approved a auth;
  au_payload : payload_of auth (in_Payload i);
  au_transfer : ip_SigningPayloadType (in_Payload i) = ethereumPayloadType ->
    ethereum_transfer auth p (ip_Digest (in_Payload i));
  au_decided : exists st saved application,
    store_evidence w (ip_OrgID (in_Payload i)) (ae_RequestID a) st
    /\ st_Receipt st = Some saved
    /\ signed_approval saved (ip_OrgID (in_Payload i)) (ae_RequestID a) (ae_AuthorizationHash a)
    /\ ParseDecisionApplication (st_Application st) = Ok application
    /\ str application "disposition" = "APPLIED";
  au_bound : store_recorded w (binding_of i a);
}.

Lemma check_evidence_Ok st a : check_evidence st a = Ok () ->
  exists admission saved receipt application,
    st_Admission st = Some admission /\ st_Receipt st = Some saved
    /\ ad_AuthorizationHash admission = ae_AuthorizationHash a
    /\ ParseReceipt (sr_Bytes saved) = Ok receipt /\ str (Envelope receipt) "decision" = "APPROVED"
    /\ ParseDecisionApplication (st_Application st) = Ok application
    /\ str application "disposition" = "APPLIED".
Proof.
  unfold check_evidence. destruct (st_Admission st) as [admission|]; [|done].
  destruct (st_Receipt st) as [saved|]; [|done]. intros Hc. do 3 step_if Hc. inv_ok.
  do 2 step_if Hc. inv_ok. step_if Hc. split_bools. eexists _, _, _, _. by split_and!.
Qed.

Lemma check_prepared_Ok i a p now : check_prepared i a p now = Ok () -> exists policy auth,
  VerifyPrepared (Some a) (Some p) (Some policy) (ip_Digest (in_Payload i))
    (ip_SigningPayloadType (in_Payload i)) (ip_HashAlgorithm (in_Payload i)) now = Ok auth
  /\ payload_of auth (in_Payload i).
Proof.
  unfold check_prepared. cbv zeta. destruct (ip_PolicyContext (in_Payload i)) as [policy|]; [|done].
  intros Hc. inv_ok. match goal with Hf : forallb _ _ = true |- _ => cbn in Hf end.
  destruct (jcs_transform _) as [c|] eqn:Ej; [|done]. inv_ok. split_bools. subst.
  eexists _, _. split; [eassumption|]. by split_and!.
Qed.

Lemma validateReceipt_signed a saved receipt : validateReceipt a saved = Ok () ->
  ParseReceipt (sr_Bytes saved) = Ok receipt -> str (Envelope receipt) "decision" = "APPROVED" ->
  signed_approval saved (ad_OrgID a) (ad_RequestID a) (ad_AuthorizationHash a).
Proof.
  unfold validateReceipt, VerifyReceipt. intros Hv Hp Hd. step_if Hv. inv_ok.
  match goal with Hx : ParseReceipt _ = Ok ?x |- _ => assert (x = receipt) as -> by congruence end.
  match goal with Hf : forallb _ _ = true |- _ => cbn in Hf end. split_bools.
  eexists. by split_and!.
Qed.

Context `{!ApprovalStore}.
#[local] Existing Instance store_order.

(** What others do to the journal during a call, or between calls, is a run of it. *)
Definition benign (env : world -> world) : Prop := forall w, store_later w (env w).
Definition benign_call (c : gate_call * wake) : Prop :=
  benign (gc_between c.1) /\ match c.2 with Fired env => benign env | Done _ => True end.

Lemma Authorize_later j c i w : store_handle j -> benign (gc_between c) ->
  store_later w (Authorize {| sg_Journal := Some j |} c i w).2.
Proof.
  intros Hj Hc. unfold Authorize. cbn [sg_Journal]. case_match; [reflexivity|].
  destruct (in_Approval i) as [a|]; [|reflexivity]. destruct (in_Prepared i) as [p|]; [|reflexivity].
  case_match; [reflexivity|]. unfold mbind, M_bind.
  pose proof (load_later j (ip_OrgID (in_Payload i)) (ae_RequestID a) w Hj) as Hl.
  destruct (ej_Load j _ _ w) as [[st|e] w1]; cbn [fst snd] in Hl |- *; [|done]. unfold lift, throw.
  destruct (check_evidence st a) as [[]|]; [|done].
  destruct (check_prepared i a p (gc_now c)) as [[]|]; [|done]. cbv zeta.
  destruct (match st_Execution st with Some _ => _ | None => _ end); [done|].
  destruct (gc_ctx c); [done|]. etrans; [exact Hl|]. etrans; [apply Hc|]. by apply bind_later.
Qed.

(** One successful call of the gate. *)
Lemma Authorize_Ok j c i w w' : store_handle j -> store_inv w -> benign (gc_between c) ->
  Authorize {| sg_Journal := Some j |} c i w = (Ok (), w') ->
  exists a p auth, authorized w' i a p auth.
Proof.
  intros Hj Hi Hc Ha. pose proof (Authorize_later j c i w Hj Hc) as Hw'. rewrite Ha in Hw'. cbn in Hw'.
  unfold Authorize in Ha. cbn [sg_Journal] in Ha. cbv zeta in Ha. run_ok.
  match goal with Hl : ej_Load j ?org ?request w = (Ok ?st, ?w1) |- _ =>
    pose proof (load_later j org request w Hj) as Hl1; rewrite Hl in Hl1; cbn in Hl1;
    pose proof (load_evidence j org request w st w1 Hj Hi Hl) as Hev end.
  repeat match goal with u : unit |- _ => destruct u end.
  pose proof (store_inv_later _ _ Hi Hl1) as Hi1.
  match goal with Hb : (Ok _, _) = (Ok _, _) |- _ => injection Hb as <- end.
  assert (Hi2 : store_inv (gc_between c x0)) by (eapply store_inv_later; [exact Hi1|apply Hc]).
  pose proof (bind_recorded _ _ _ _ Hj Hi2 Ha) as Hrec.
  assert (Hw1 : store_later x0 w').
  { etrans; [apply Hc|]. pose proof (bind_later j (binding_of i a) (gc_between c x0) Hj) as Hb. by rewrite Ha in Hb. }
  match goal with Hc1 : check_evidence _ _ = _, Hc2 : check_prepared _ _ _ _ = _ |- _ =>
    apply check_evidence_Ok in Hc1 as (adm & saved & receipt & app & Hadm & Hsaved & Hhash & Hrcpt & Hdec & Happ & Hdisp);
    apply check_prepared_Ok in Hc2 as (policy & auth & Hv & Hpay) end.
  exists a, p, auth. split_bools. destruct (evidence_admission _ _ _ _ _ Hev Hadm) as [Horg Hreq].
  split; try done.
  - by destruct (VerifyPrepared_Ok _ _ _ _ _ _ _ _ Hv).
  - intros Ht. rewrite Ht in Hv. by destruct (VerifyPrepared_ethereum_facts _ _ _ _ _ _ _ Hv).
  - eexists _, saved, app. split; [eapply evidence_later; [exact Hi1|exact Hw1|exact Hev]|].
    split_and!; try done. rewrite <- Horg, <- Hreq, <- Hhash.
    eapply validateReceipt_signed; [|done..]. by eapply evidence_receipt.
Qed.

(** * The wait for the application *)

Lemma authorize_loop_Ok j i script w w' :
  store_handle j -> store_inv w -> Forall benign_call script ->
  authorize_loop (Authorize {| sg_Journal := Some j |}) i script w = Some (Ok (), w') ->
  store_later w w' /\ exists a p auth, authorized w' i a p auth.
Proof.
  intros Hj. revert w. induction script as [|[c wk] script IH]; intros w Hi Hs Hl; [done|].
  apply Forall_cons in Hs as [[Hc Hwk] Hs]. cbn [authorize_loop] in Hl. cbn [fst snd] in Hc, Hwk.
  pose proof (Authorize_later j c i w Hj Hc) as Hlater.
  destruct (Authorize _ c i w) as [[[]|e] w1] eqn:Ha; cbn in Hlater.
  - injection Hl as <-. split; [done|]. by eapply Authorize_Ok.
  - destruct (errors_is _ _); [|done]. destruct wk as [e'|env]; [done|].
    apply IH in Hl as [Hl ?]; [|by eapply store_inv_later, Hwk; eapply store_inv_later|done].
    split; [|done]. etrans; [exact Hlater|]. etrans; [apply Hwk|exact Hl].
Qed.

Lemma authorized_later w w' i a p auth : store_inv w -> store_later w w' ->
  authorized w i a p auth -> authorized w' i a p auth.
Proof.
  intros Hi Hl [Hint Hdoc Hpay Htr (st & saved & app & Hev & Hrest) Hb]. split; try done.
  - exists st, saved, app. split; [by eapply evidence_later|done].
  - by eapply recorded_later.
Qed.

(** Two authorizations that hold at once, of one request, are of one execution. *)
Lemma authorized_unique w i i' a a' p p' auth auth' :
  authorized w i a p auth -> authorized w i' a' p' auth' ->
  ip_OrgID (in_Payload i) = ip_OrgID (in_Payload i') -> ae_RequestID a = ae_RequestID a' ->
  binding_of i a = binding_of i' a'.
Proof. intros [_ _ _ _ _ Hb] [_ _ _ _ _ Hb'] Ho Hr. by apply (recorded_unique w). Qed.
End Authorized.

Lemma binding_of_inj i i' a a' : binding_of i a = binding_of i' a' ->
  ae_OutgoingID a = ae_OutgoingID a' /\ ae_AuthorizationHash a = ae_AuthorizationHash a'
  /\ ip_Digest (in_Payload i) = ip_Digest (in_Payload i')
  /\ ip_SigningPayloadType (in_Payload i) = ip_SigningPayloadType (in_Payload i')
  /\ ip_HashAlgorithm (in_Payload i) = ip_HashAlgorithm (in_Payload i').
Proof.
  unfold binding_of. intros [= _ _ -> -> Hd -> ->]. split_and!; try done.
  apply (f_equal (b64_decode b64_std true)) in Hd. rewrite !b64_decode_encode in Hd by apply b64_std_ok.
  congruence.
Qed.

(** * Theorems *)

Section GateTheorems.
Context `{Externals} `{TxCodecs}.
#[local] Existing Instance journal_store.

(** The gate of a process over the journal [j]. *)
Definition gate_of (j : Journal) : gate_call -> Intent -> M unit :=
  Authorize {| sg_Journal := Some (file_journal j) |}.

Lemma file_handle j : @store_handle _ (journal_store (j_directory j)) (file_journal j).
Proof. by exists j. Qed.

(** Nothing reaches the MPC core unapproved: if the gate of a SIGN intent passes,
    whatever others do to the journal meanwhile, then in every later world, across
    faults and crashes, the journal durably holds a decision that is signed under its
    saved key, APPROVED for this organization, request and authorization, and APPLIED,
    and the execution of exactly this digest; the authorization is the approved
    document, the payload is for its wallet, key and derivation, and on Ethereum the
    digest is of a transaction that makes exactly the authorized transfer. *)
Theorem authorizeSign_sound j i script w w' w'' :
  inv w -> Forall (@benign_call _ (journal_store (j_directory j))) script ->
  authorizeSign (Some (gate_of j)) i script w = Some (Ok (), w') -> rtc jstep w' w'' ->
  exists a p auth, @authorized _ _ (journal_store (j_directory j)) w'' i a p auth.
Proof.
  intros Hi Hs Ha Hrun. set (ST := journal_store (j_directory j)).
  destruct (authorize_loop_Ok _ _ _ _ _ (file_handle j) Hi Hs Ha) as (Hl & a & p & auth & Hau).
  exists a, p, auth. eapply authorized_later; [|exact Hrun|exact Hau].
  exact (@store_inv_later _ ST _ _ Hi Hl).
Qed.

(** (C2) A request is executed once: if the gate passed for an intent, then after any
    run of the journal a gate on the same directory, for the same organization and
    request, passes only for the same outgoing transfer, authorization and digest. *)
Theorem authorizeSign_once j j' i i' script script' w1 w2 w3 w4 a a' :
  inv w1 -> j_directory j' = j_directory j ->
  Forall (@benign_call _ (journal_store (j_directory j))) (script ++ script') ->
  authorizeSign (Some (gate_of j)) i script w1 = Some (Ok (), w2) -> rtc jstep w2 w3 ->
  authorizeSign (Some (gate_of j')) i' script' w3 = Some (Ok (), w4) ->
  in_Approval i = Some a -> in_Approval i' = Some a' ->
  ip_OrgID (in_Payload i) = ip_OrgID (in_Payload i') -> ae_RequestID a = ae_RequestID a' ->
  in_IntentID i = in_IntentID i' /\ ae_AuthorizationHash a = ae_AuthorizationHash a'
  /\ ip_Digest (in_Payload i) = ip_Digest (in_Payload i')
  /\ ip_SigningPayloadType (in_Payload i) = ip_SigningPayloadType (in_Payload i')
  /\ ip_HashAlgorithm (in_Payload i) = ip_HashAlgorithm (in_Payload i').
Proof.
  intros Hi Hd [Hs Hs']%Forall_app Ha Hrun Ha' Hia Hia' Ho Hr. set (ST := journal_store (j_directory j)).
  assert (Hj' : @store_handle _ ST (file_journal j')) by (by exists j').
  destruct (authorize_loop_Ok _ _ _ _ _ (file_handle j) Hi Hs Ha) as (Hl & b & p & auth & Hau).
  pose proof (@store_inv_later _ ST _ _ Hi Hl) as Hi2.
  pose proof (@store_inv_later _ ST _ _ Hi2 Hrun) as Hi3.
  destruct (authorize_loop_Ok _ _ _ _ _ Hj' Hi3 Hs' Ha') as (Hl' & b' & p' & auth' & Hau').
  pose proof (authorized_later _ _ _ _ _ _ Hi3 Hl' (authorized_later _ _ _ _ _ _ Hi2 Hrun Hau)) as Hau4.
  destruct (au_intent _ _ _ _ _ Hau4) as (_ & Eb & _ & Eo). destruct (au_intent _ _ _ _ _ Hau') as (_ & Eb' & _ & Eo').
  assert (b = a) as -> by congruence. assert (b' = a') as -> by congruence.
  destruct (binding_of_inj _ _ _ _ (authorized_unique _ _ _ _ _ _ _ _ _ Hau4 Hau' Ho Hr)) as (Hid & Hrest).
  split; [congruence|exact Hrest].
Qed.
End GateTheorems.

(** Calls that were answered with "application pending" and timers that fired. *)
Inductive waits {Call} (gate : Call -> Intent -> M unit) (i : Intent) : list (Call * wake) -> world -> world -> Prop :=
  | waits_nil w : waits gate i [] w w
  | waits_cons c env rest w e w1 w2 : gate c i w = (Fail e, w1) ->
      errors_is e ErrApprovalApplicationPending = true -> waits gate i rest (env w1) w2 ->
      waits gate i ((c, Fired env) :: rest) w w2.

Definition pending (r : res unit) : bool :=
  match r with Fail e => errors_is e ErrApprovalApplicationPending | Ok _ => false end.

(** The wait before signing: for any gate, it goes on only while every call is
    answered with "application pending" and every timer fires; it returns the first
    other answer of the gate unchanged, and the context's error as soon as the context
    ends, so it outlives neither the execution's expiry nor a decided gate. *)
Theorem authorizeSign_returns {Call} (gate : Call -> Intent -> M unit) i script w :
  match authorizeSign (Some gate) i script w with
  | None => exists w', waits gate i script w w'
  | Some (r, w') => exists before c wk after w1, script = (before ++ (c, wk) :: after)%list
      /\ waits gate i before w w1
      /\ ((gate c i w1 = (r, w') /\ pending r = false)
          \/ exists e e', gate c i w1 = (Fail e, w') /\ pending (Fail e) = true
             /\ wk = Done e' /\ r = Fail e')
  end.
Proof.
  cbn [authorizeSign]. revert w. induction script as [|[c wk] script IH]; intros w; [by eexists; constructor|].
  cbn [authorize_loop]. destruct (gate c i w) as [[[]|e] w1] eqn:Eg.
  - exists [], c, wk, script, w. split_and!; [done|constructor|by left].
  - destruct (errors_is e _) eqn:Ep; [|exists [], c, wk, script, w; split_and!; [done|constructor|by left]].
    destruct wk as [e'|env].
    + exists [], c, (Done e'), script, w. split_and!; [done|constructor|]. right. by exists e, e'.
    + specialize (IH (env w1)). destruct (authorize_loop gate i script (env w1)) as [[r w']|].
      * destruct IH as (before & c' & wk' & after & w2 & -> & Hw & Hr).
        exists ((c, Fired env) :: before), c', wk', after, w2. split_and!; [done|by econstructor|done].
      * destruct IH as [w' Hw]. exists w'. by econstructor.
Qed.

(** * A concrete run *)

(** [toy_externals] with a canonicaliser that sorts the members of objects, and a
    normalization that writes the algorithm in lower case. *)
Fixpoint insert_member (kv : string * json) (l : list (string * json)) : list (string * json) :=
  match l with
  | [] => [kv]
  | kv' :: l => if String.ltb kv.1 kv'.1 then kv :: kv' :: l else kv' :: insert_member kv l
  end.
Fixpoint sort_json (v : json) : json :=
  match v with
  | JObj l => JObj (foldr insert_member [] (map (fun kv => (kv.1, sort_json kv.2)) l))
  | JArr l => JArr (map sort_json l)
  | _ => v
  end.
Definition sorting_jcs (raw : bytes) : res bytes :=
  match json_parse raw with Some v => Ok (json_print (sort_json v)) | None => Fail (ENew "jcs") end.
Definition lower_algorithm (c : CoreDerivationContext) : CoreDerivationContext :=
  let '(Build_CoreDerivationContext a b v ch alg cu sc ap cp fp ae ea dk pf dv kv) := c in
  Build_CoreDerivationContext a b v ch (to_lower alg) cu sc ap cp fp ae ea dk pf dv kv.
#[local] Instance sorting_externals : Externals := {|
  jcs_transform := sorting_jcs; parse_pubkey := @parse_pubkey toy_externals;
  keccak256 := @keccak256 toy_externals; base58_check_encode := @base58_check_encode toy_externals;
  base58_check_decode := @base58_check_decode toy_externals;
  ed25519_verify := @ed25519_verify toy_externals; ed25519_sign := @ed25519_sign toy_externals;
  ed25519_public := @ed25519_public toy_externals; gcm_seal := @gcm_seal toy_externals;
  gcm_open := @gcm_open toy_externals;
  derivation_context_hash := @derivation_context_hash toy_externals;
  normalize_derivation_context c := Ok (lower_algorithm c);
  inspect_key_material := @inspect_key_material toy_externals;
  https_endpoint := @https_endpoint toy_externals |}.

Definition fixture_derivation : DerivationContext := {|
  dc_ProfileID := "p"; dc_ProfileTemplateID := "t"; dc_Chain := "ethereum:sepolia";
  dc_Algorithm := "ECDSA"; dc_Curve := "secp256k1"; dc_Scheme := "bip32_secp256k1";
  dc_AccountPath := "m/44/60/0"; dc_ChildPath := "0/7"; dc_FullPath := "m/44/60/0/0/7";
  dc_AddressEncoding := "evm_hex"; dc_ExpectedAddress := FromAddress fixture_policy;
  dc_ExpectedPublicKey := "04000102030405060708090a0b0c0d0e0f101112131415161718191a1b1c1d1e1f"
    ++ "202122232425262728292a2b2c2d2e2f303132333435363738393a3b3c3d3e3f";
  dc_PublicKeyFormat := "uncompressed_hex"; dc_DescriptorVersion := 1; dc_ProfileVersion := 1;
  dc_KeyVersion := 1 |}.
Definition fixture_payload : IntentPayload :=
  Build_IntentPayload "SIGN" "org-1" "wal-1" "key-1" "p" 1 "t" ["mpc-signer"; "co-signer-primary"] 2
    "ECDSA" "secp256k1" "ethereum:sepolia" (keccak256 fixture_tx) "transaction" ethereumHashAlgorithm
    ethereumPayloadType "" "" "" "" ""
    "8b606c61f1d16b2c963f02d2aa58fd82bfde5f8150f588c86a790573aca49de2" "co-signer-primary"
    (Some fixture_derivation) (Some fixture_policy).
Definition fixture_intent : Intent := {|
  in_Version := 2; in_Approval := Some fixture_approval; in_Prepared := Some fixture_prepared;
  in_Session := zero_session; in_CreatedAt := 0; in_DeadlineRaw := ""; in_DiscoveryStatus := "";
  in_IntentID := "outgoing-1"; in_SessionID := "session-1"; in_Type := "SIGN"; in_ExpiresAt := 0;
  in_Payload := fixture_payload |}.

(** The decision is saved; it is applied during the first wait. *)
Definition gate_world : world :=
  (SaveReceipt fixture_journal fixture_saved (Admit fixture_journal fixture_admission fixture_world).2).2.
Definition apply_decision (w : world) : world :=
  (Acknowledge fixture_journal "org-1" "req-1" fixture_application w).2.
Definition quiet_call : gate_call := {| gc_between := id; gc_now := 0; gc_ctx := None |}.
Definition gate_script : list (gate_call * wake) :=
  [(quiet_call, Fired apply_decision); (quiet_call, Done (ESent Canceled))].

Lemma gate_world_inv : inv gate_world.
Proof.
  unfold gate_world. destruct (safe_Admit fixture_journal fixture_admission _ fixture_world_inv) as [Hi _].
  by destruct (safe_SaveReceipt fixture_journal fixture_saved _ Hi).
Qed.

Lemma gate_script_benign : Forall (@benign_call _ (journal_store (j_directory fixture_journal))) gate_script.
Proof.
  assert (Hq : @benign _ (journal_store (j_directory fixture_journal)) id) by (intros w; apply rtc_refl).
  repeat constructor; try exact Hq. intros w. apply rtc_once.
  exact (jstep_op fixture_journal (OpAck "org-1" "req-1" fixture_application) w).
Qed.

(** The result of a gate run, and the world after it. *)
Definition gate_run (w : world) : option (res unit * world) :=
  authorizeSign (Some (gate_of fixture_journal)) fixture_intent gate_script w.
Definition after_gate (w : world) : world := match gate_run w with Some (_, w) => w | None => w end.
Definition gate_passed (w : world) : bool := match gate_run w with Some (Ok _, _) => true | _ => false end.

Lemma gate_passed_run w : gate_passed w = true -> gate_run w = Some (Ok (), after_gate w).
Proof. unfold gate_passed, after_gate. by destruct (gate_run w) as [[[[]|e] w']|]. Qed.

Lemma gate_passes : gate_passed gate_world = true /\ gate_passed (after_gate gate_world) = true.
Proof. split; vm_compute; reflexivity. Qed.

Lemma authorizeSign_sound_witness : exists a p auth,
  gate_run gate_world = Some (Ok (), after_gate gate_world)
  /\ @authorized _ _ (journal_store "/journal") (after_gate gate_world) fixture_intent a p auth.
Proof.
  pose proof (gate_passed_run _ (proj1 gate_passes)) as E.
  destruct (authorizeSign_sound fixture_journal fixture_intent gate_script gate_world _ _ gate_world_inv
              gate_script_benign E (rtc_refl _ _)) as (a & p & auth & Hau).
  exists a, p, auth. split; [exact E|exact Hau].
Defined.

(** The same intent is let through again after its execution was bound. *)
Lemma authorizeSign_once_witness :
  gate_run (after_gate gate_world) = Some (Ok (), after_gate (after_gate gate_world))
  /\ in_IntentID fixture_intent = in_IntentID fixture_intent.
Proof.
  pose proof (gate_passed_run _ (proj1 gate_passes)) as E.
  pose proof (gate_passed_run _ (proj2 gate_passes)) as E'. split; [exact E'|].
  exact (proj1 (authorizeSign_once fixture_journal fixture_journal fixture_intent fixture_intent gate_script gate_script
    gate_world _ _ _ fixture_approval fixture_approval gate_world_inv eq_refl
    (Forall_app_2 _ _ _ gate_script_benign gate_script_benign) E (rtc_refl _ _) E' eq_refl eq_refl eq_refl eq_refl)).
Defined.
