(* ===== verification/IntentValidation.v ===== *)
(** [internal/worker/intent_validation.go]: the checks a claimed intent passes before
    its session starts.  The derivation context functions and the scheme name of the
    MPC core are parameters. *)
From stdpp Require Import base tactics option list strings numbers gmap.
From Stdlib Require Import ZArith Lia Ascii String.
From S2P Require Import Prelude GoText Sha256 Externals Mpc2of3 SigningPolicy GoTime Monolith.

#[local] Open Scope string_scope.

(** session_worker.go: the parties, and the kind of an intent. *)
Definition platformPartyID : string := "mpc-signer".
Definition primaryPartyID : string := "co-signer-primary".

Inductive intentKind := intentKindDKG | intentKindSIGN.
#[global] Instance intentKind_eq_dec : EqDecision intentKind.
Proof. solve_decision. Defined.

Definition classifyIntentKind (raw : string) : option intentKind :=
  let t := to_upper (trim_space raw) in
  if t =s "DKG" then Some intentKindDKG
  else if t =s "SIGN" then Some intentKindSIGN
  else None.

(** [fmt.Errorf("%w: ...", errInvalidIntent)]. *)
Definition invalid_intent (msg : string) : error := EWrap msg (ESent ErrInvalidIntent).

Definition blank (s : string) : bool := trim_space s =s "".

Definition validateClaimIdentity (intent claimed : Intent) (claim : ClaimResult) (kind : intentKind) : res unit :=
  if negb (is_ok (Validate (cr_Session claim) (to_upper (in_Type claimed)) (in_SessionID claimed) (cr_Deadline claim)))
  then Fail err_lifecycle
  else if time_is_zero (cr_Deadline claim)
          || (negb (time_is_zero (in_ExpiresAt intent)) && negb (time_equal (in_ExpiresAt intent) (cr_Deadline claim)))
  then Fail err_lifecycle
  else if (in_SessionID intent <>s "") && (in_SessionID intent <>s in_SessionID claimed) then Fail err_lifecycle
  else match kind with
  | intentKindDKG => Ok ()
  | intentKindSIGN =>
      if in_IntentID intent <>s in_IntentID claimed then Fail err_lifecycle
      else if (ip_OrgID (in_Payload intent) <>s "")
              && (ip_OrgID (in_Payload intent) <>s ip_OrgID (in_Payload claimed)) then Fail err_lifecycle
      else if (ip_KeyID (in_Payload intent) <>s "")
              && (ip_KeyID (in_Payload intent) <>s ip_KeyID (in_Payload claimed)) then Fail err_lifecycle
      else Ok ()
  end.

Definition validatePayloadType (intentType payloadType : string) : res unit :=
  let payloadType := trim_space payloadType in
  if payloadType =s "" then Ok ()
  else if to_upper payloadType <>s intentType
  then Fail (invalid_intent "payload type conflicts with intent type")
  else Ok ().

Definition validateCommonPayload (payload : IntentPayload) : res unit :=
  if blank (ip_OrgID payload) then Fail (invalid_intent "org id is required")
  else if blank (ip_KeyID payload) then Fail (invalid_intent "key id is required")
  else Ok ().

(** The loop of [dedupeParties], with the parties seen so far. *)
Fixpoint dedupe (seen : gset string) (parties : list string) : list string :=
  match parties with
  | [] => []
  | party :: parties =>
      let partyID := trim_space party in
      if partyID =s "" then dedupe seen parties
      else if bool_decide (partyID ∈ seen) then dedupe seen parties
      else partyID :: dedupe ({[partyID]} ∪ seen) parties
  end.
Definition dedupeParties (parties : list string) : list string := dedupe ∅ parties.

Definition validateProductionSignRoster (payload : IntentPayload) (localPartyID : string) : res unit :=
  if (localPartyID <>s primaryPartyID) || (ip_PartyID payload <>s primaryPartyID)
  then Fail (invalid_intent "SIGN local party must be the primary")
  else match ip_Parties payload with
  | [first; second] =>
      if negb (ip_Threshold payload =? 2)%Z || (first <>s platformPartyID) || (second <>s primaryPartyID)
      then Fail (invalid_intent "SIGN parties must be exactly the platform and the primary")
      else Ok ()
  | _ => Fail (invalid_intent "SIGN parties must be exactly the platform and the primary")
  end.

Definition isLowerHex64 (input : string) : bool :=
  (String.length input =? 64)%nat && str_forall lower_hex input.

Definition validateChainCodeHash (chainCodeHex expectedHash : string) : res unit :=
  match hex_decode chainCodeHex with
  | None => Fail (invalid_intent "chain code must be 32-byte lowercase hex")
  | Some chainCode =>
      if trim_space expectedHash <>s b64_encode b64_rawurl (sha256 chainCode)
      then Fail (invalid_intent "chain code hash mismatch")
      else Ok ()
  end.

(** [validateSignMetadata]: nine required texts, the profile version, a digest. *)
Definition sign_required (payload : IntentPayload) : list (string * string) :=
  [("wallet id", ip_WalletID payload); ("profile id", ip_ProfileID payload);
   ("profile template id", ip_ProfileTemplateID payload); ("digest type", ip_DigestType payload);
   ("hash algorithm", ip_HashAlgorithm payload); ("signing payload type", ip_SigningPayloadType payload);
   ("derivation context hash", ip_DerivationContextHash payload); ("party id", ip_PartyID payload);
   ("chain", ip_Chain payload)].
Fixpoint first_blank (fields : list (string * string)) : res unit :=
  match fields with
  | [] => Ok ()
  | (name, value) :: fields =>
      if blank value then Fail (invalid_intent (name +:+ " is required for SIGN")) else first_blank fields
  end.
Definition validateSignMetadata (payload : IntentPayload) : res unit :=
  _ ← first_blank (sign_required payload);
  if (ip_ProfileVersion payload =? 0)%Z then Fail (invalid_intent "profile version is required for SIGN")
  else if negb (zlen (ip_Digest payload) =? 32)%Z then Fail (invalid_intent "digest must be 32 bytes for SIGN")
  else Ok ().

(** sign_session.go. *)
Definition toCoreDerivationContext (c : DerivationContext) : CoreDerivationContext := {|
  cd_ProfileID := dc_ProfileID c; cd_ProfileTemplateID := dc_ProfileTemplateID c;
  cd_ProfileVersion := dc_ProfileVersion c; cd_Chain := dc_Chain c; cd_Algorithm := dc_Algorithm c;
  cd_Curve := dc_Curve c; cd_Scheme := dc_Scheme c; cd_AccountPath := dc_AccountPath c;
  cd_ChildPath := dc_ChildPath c; cd_FullPath := dc_FullPath c;
  cd_AddressEncoding := dc_AddressEncoding c; cd_ExpectedAddress := dc_ExpectedAddress c;
  cd_DerivedPublicKey := dc_ExpectedPublicKey c; cd_PublicKeyFormat := dc_PublicKeyFormat c;
  cd_DescriptorVersion := dc_DescriptorVersion c; cd_KeyVersion := dc_KeyVersion c |}.

Section Validation.
Context `{Externals} `{TxCodecs}.
(** [coretss.DerivationSchemeBIP32Secp256k1]. *)
Context (bip32_scheme : string).

Definition validateSignTuple (payload : IntentPayload) : res unit :=
  let addressEncoding :=
    match ip_DerivationContext payload with Some d => dc_AddressEncoding d | None => "" end in
  match ValidateTuple {| tu_Algorithm := ip_Algorithm payload; tu_Curve := ip_Curve payload;
                         tu_Chain := ip_Chain payload; tu_DigestType := ip_DigestType payload;
                         tu_HashAlgorithm := ip_HashAlgorithm payload;
                         tu_PayloadType := ip_SigningPayloadType payload;
                         tu_AddressEncoding := addressEncoding |} with
  | Fail _ => Fail (invalid_intent "signing tuple")
  | Ok _ => Ok ()
  end.

Definition validateDKGPayload (payload : IntentPayload) : res unit :=
  if negb (blank (ip_Chain payload)) then Fail (invalid_intent "chain is not allowed for DKG")
  else if is_some (ip_DerivationContext payload)
  then Fail (invalid_intent "derivation context is not allowed for DKG")
  else if negb (zlen (ip_Digest payload) =? 0)%Z then Fail (invalid_intent "digest is not allowed for DKG")
  else if negb (isLowerHex64 (ip_ChainCode payload))
  then Fail (invalid_intent "chain code must be 32-byte lowercase hex")
  else if blank (ip_ChainCodeHash payload) then Fail (invalid_intent "chain code hash is required for DKG")
  else
    _ ← validateChainCodeHash (ip_ChainCode payload) (ip_ChainCodeHash payload);
    if blank (ip_DerivationScheme payload) then Fail (invalid_intent "derivation scheme is required for DKG")
    else if trim_space (ip_DerivationScheme payload) <>s bip32_scheme
    then Fail (invalid_intent "unsupported derivation scheme")
    else Ok ().

(** The comparisons of [validateSignPayload] with the normalized context. *)
Definition context_conflict (payload : IntentPayload) (normalized : CoreDerivationContext) : option string :=
  if trim_space (ip_Chain payload) <>s cd_Chain normalized then Some "chain conflicts with derivation context"
  else if to_lower (trim_space (ip_Algorithm payload)) <>s cd_Algorithm normalized
  then Some "algorithm conflicts with derivation context"
  else if to_lower (trim_space (ip_Curve payload)) <>s cd_Curve normalized
  then Some "curve conflicts with derivation context"
  else if trim_space (ip_ProfileID payload) <>s cd_ProfileID normalized
  then Some "profile id conflicts with derivation context"
  else if trim_space (ip_ProfileTemplateID payload) <>s cd_ProfileTemplateID normalized
  then Some "profile template id conflicts with derivation context"
  else if negb (ip_ProfileVersion payload =? cd_ProfileVersion normalized)%Z
  then Some "profile version conflicts with derivation context"
  else None.

Definition validateSignPayload (payload : IntentPayload) : res unit :=
  _ ← validateSignMetadata payload;
  _ ← validateSignTuple payload;
  if negb (blank (ip_ChainCode payload)) then Fail (invalid_intent "chain code is not allowed for SIGN")
  else if negb (blank (ip_DerivationScheme payload))
  then Fail (invalid_intent "derivation scheme is not allowed for SIGN")
  else match ip_DerivationContext payload with
  | None => Fail (invalid_intent "derivation context is required for SIGN")
  | Some d =>
      if (dc_ProfileVersion d =? 0)%Z
      then Fail (invalid_intent "derivation context profile version is required for SIGN")
      else if (dc_DescriptorVersion d =? 0)%Z
      then Fail (invalid_intent "derivation context descriptor version is required for SIGN")
      else if (dc_KeyVersion d =? 0)%Z
      then Fail (invalid_intent "derivation context key version is required for SIGN")
      else match normalize_derivation_context (toCoreDerivationContext d) with
      | Fail _ => Fail (invalid_intent "derivation context")
      | Ok normalized =>
          match context_conflict payload normalized with
          | Some msg => Fail (invalid_intent msg)
          | None =>
              match derivation_context_hash normalized with
              | Fail _ => Fail (invalid_intent "derivation context hash")
              | Ok hash =>
                  if trim_space (ip_DerivationContextHash payload) <>s hash
                  then Fail (invalid_intent "derivation context hash mismatch")
                  else Ok ()
              end
          end
      end
  end.

Definition validateIntent (intent : Intent) (localPartyID : string) : res unit :=
  let payload := in_Payload intent in
  if blank (in_SessionID intent) then Fail (invalid_intent "session id is required") else
  let intentType := to_upper (trim_space (in_Type intent)) in
  if (intentType <>s "DKG") && (intentType <>s "SIGN") then Fail (invalid_intent "unsupported intent type") else
  _ ← validatePayloadType intentType (ip_Type payload);
  let uniqueParties := dedupeParties (ip_Parties payload) in
  let n := Z.of_nat (List.length uniqueParties) in
  if (n <? 2)%Z then Fail (invalid_intent "at least 2 unique parties are required")
  else if (ip_Threshold payload <? 2)%Z || (n <? ip_Threshold payload)%Z
  then Fail (invalid_intent "invalid threshold")
  else if negb (bool_decide (localPartyID ∈ uniqueParties))
  then Fail (invalid_intent "local party is not part of intent")
  else if negb (equal_fold (trim_space (ip_Algorithm payload)) "ECDSA")
  then Fail (invalid_intent "unsupported algorithm")
  else
    let curve := trim_space (ip_Curve payload) in
    if curve =s "" then Fail (invalid_intent "curve is required")
    else if negb (equal_fold curve "secp256k1") then Fail (invalid_intent "unsupported ecdsa curve")
    else
      _ ← validateCommonPayload payload;
      if intentType =s "DKG" then validateDKGPayload payload
      else
        _ ← validateProductionSignRoster payload localPartyID;
        validateSignPayload payload.

(** * What an accepted intent is *)

Lemma dedupe_spec seen parties : NoDup (dedupe seen parties)
  /\ forall p, p ∈ dedupe seen parties <-> p <> "" /\ p ∉ seen /\ exists q, q ∈ parties /\ trim_space q = p.
Proof.
  revert seen. induction parties as [|q parties IH]; intros seen; cbn [dedupe].
  - split; [constructor|]. set_solver.
  - destruct (trim_space q =s "") eqn:Eq; [|case_bool_decide as Hs]; split_bools.
    + destruct (IH seen) as [Hn Hi]. split; [done|]. intros p. rewrite Hi. split.
      * intros (? & ? & r & ? & ?). split_and!; [done..|]. exists r. set_solver.
      * intros (Hp & ? & r & Hr & Ht). split_and!; [done..|]. exists r. set_solver.
    + destruct (IH seen) as [Hn Hi]. split; [done|]. intros p. rewrite Hi. split.
      * intros (? & ? & r & ? & ?). split_and!; [done..|]. exists r. set_solver.
      * intros (Hp & ? & r & Hr & Ht). split_and!; [done..|]. exists r. set_solver.
    + destruct (IH ({[trim_space q]} ∪ seen)) as [Hn Hi]. split.
      * constructor; [rewrite Hi; set_solver|done].
      * intros p. rewrite elem_of_cons, Hi. split.
        -- intros [-> |(? & ? & r & ? & ?)]; [split_and!; [done..|]; exists q; set_solver|]. split_and!; [done|set_solver|]. exists r. set_solver.
        -- intros (Hp & Hs' & r & Hr & Ht). apply elem_of_cons in Hr as [-> |Hr]; [by left|].
           destruct (decide (p = trim_space q)); [by left|right]. split_and!; [done|set_solver|]. eauto.
Qed.

Lemma first_blank_Ok fields : first_blank fields = Ok () <-> Forall (fun nv => blank nv.2 = false) fields.
Proof.
  induction fields as [|[name value] fields IH]; cbn [first_blank]; [done|].
  rewrite Forall_cons, <- IH. cbn [snd]. destruct (blank value); split; [done|by intros [? ?]|by split|by intros [? ?]].
Qed.

(** A DKG payload carries a 32-byte chain code, in lower-case hex, with its hash, and
    nothing to be signed. *)
Definition dkg_payload_ok (p : IntentPayload) : Prop :=
  ip_Digest p = "" /\ ip_DerivationContext p = None /\ trim_space (ip_DerivationScheme p) = bip32_scheme
  /\ exists chainCode, hex_decode (ip_ChainCode p) = Some chainCode /\ String.length (ip_ChainCode p) = 64%nat
     /\ str_forall lower_hex (ip_ChainCode p) = true
     /\ trim_space (ip_ChainCodeHash p) = b64_encode b64_rawurl (sha256 chainCode).

(** A SIGN payload is of the fixed roster, carries a 32-byte digest, and its hash is
    that of the normalized derivation context, which it agrees with. *)
Definition sign_payload_ok (p : IntentPayload) (localPartyID : string) : Prop :=
  localPartyID = primaryPartyID /\ ip_PartyID p = primaryPartyID
  /\ ip_Parties p = [platformPartyID; primaryPartyID] /\ ip_Threshold p = 2%Z
  /\ String.length (ip_Digest p) = 32%nat /\ trim_space (ip_ChainCode p) = ""
  /\ exists d normalized, ip_DerivationContext p = Some d
     /\ normalize_derivation_context (toCoreDerivationContext d) = Ok normalized
     /\ derivation_context_hash normalized = Ok (trim_space (ip_DerivationContextHash p))
     /\ trim_space (ip_Chain p) = cd_Chain normalized
     /\ trim_space (ip_ProfileID p) = cd_ProfileID normalized
     /\ ip_ProfileVersion p = cd_ProfileVersion normalized
     /\ exists protocol, protocolForPayload (trim_space (ip_SigningPayloadType p)) = Some protocol
        /\ trim_space (ip_HashAlgorithm p) = hashAlgorithm protocol.

Lemma validateDKGPayload_Ok p : validateDKGPayload p = Ok () -> dkg_payload_ok p.
Proof.
  unfold validateDKGPayload, validateChainCodeHash, isLowerHex64, zlen. intros Hv. do 5 step_if Hv. inv_ok.
  do 2 step_if Hv.
  destruct (hex_decode _) as [c|] eqn:Eh in *; [|done].
  match goal with Hh : (if _ then _ else _) = Ok _ |- _ => step_if Hh end. split_bools.
  unfold dkg_payload_ok. destruct (ip_DerivationContext p); [done|]. split_and!; try done.
  - destruct (ip_Digest p); [done|]. cbn in *. lia.
  - exists c. split_and!; try done. by apply Nat.eqb_eq.
Qed.

Lemma validateSignTuple_Ok p : validateSignTuple p = Ok () ->
  exists protocol, protocolForPayload (trim_space (ip_SigningPayloadType p)) = Some protocol
  /\ trim_space (ip_HashAlgorithm p) = hashAlgorithm protocol.
Proof.
  unfold validateSignTuple, ValidateTuple. cbv zeta. cbn [tu_PayloadType tu_HashAlgorithm]. intros Hv.
  step_if Hv. clear Hv. match goal with Ht : _ = Ok _ |- _ => rename Ht into Et end. do 3 step_if Et.
  split_bools. eauto.
Qed.

Lemma validateSignPayload_Ok p localPartyID : validateProductionSignRoster p localPartyID = Ok () ->
  validateSignPayload p = Ok () -> sign_payload_ok p localPartyID.
Proof.
  unfold validateProductionSignRoster, validateSignPayload, validateSignMetadata, zlen. intros Hr Hv.
  step_if Hr. destruct (ip_Parties p) as [|x [|y [|]]] eqn:Ep; try done. step_if Hr. clear Hr. inv_ok.
  match goal with Ht : validateSignTuple p = Ok ?u |- _ =>
    destruct u; apply validateSignTuple_Ok in Ht as (protocol & Hp & Hh) end.
  match goal with Hb : (if (ip_ProfileVersion p =? 0)%Z then _ else _) = Ok _ |- _ => do 2 step_if Hb end.
  do 10 step_if Hv. unfold context_conflict in *.
  match goal with Hc : (if _ then _ else _) = None |- _ => do 6 step_if Hc end.
  unfold blank in *. split_bools. unfold sign_payload_ok.
  subst. split_and!; try done; [lia|]. eexists _, _. split_and!; try done. by exists protocol.
Qed.
(** What validation establishes. *)
Definition intent_ok (intent : Intent) (localPartyID : string) : Prop :=
  let p := in_Payload intent in
  trim_space (in_SessionID intent) <> "" /\ trim_space (ip_OrgID p) <> "" /\ trim_space (ip_KeyID p) <> ""
  /\ (exists parties, NoDup parties /\ localPartyID ∈ parties
      /\ (forall q, q ∈ parties -> exists r, r ∈ ip_Parties p /\ trim_space r = q)
      /\ (2 <= ip_Threshold p <= Z.of_nat (List.length parties))%Z)
  /\ match classifyIntentKind (in_Type intent) with
     | Some intentKindDKG => dkg_payload_ok p
     | Some intentKindSIGN => sign_payload_ok p localPartyID
     | None => False
     end.

Lemma validateIntent_facts intent localPartyID :
  validateIntent intent localPartyID = Ok () -> intent_ok intent localPartyID.
Proof.
  unfold validateIntent, intent_ok, classifyIntentKind, validateCommonPayload. cbv zeta. intros Hv. do 2 step_if Hv. inv_ok.
  do 6 step_if Hv. inv_ok.
  match goal with Hc : (if blank _ then _ else _) = Ok _ |- _ => do 2 step_if Hc end.
  unfold blank in *. destruct (to_upper _ =s "DKG") eqn:Ed; [|destruct (to_upper _ =s "SIGN"); [|done]].
  all: inv_ok; split_bools; split_and!; try done.
  1,3: exists (dedupeParties (ip_Parties (in_Payload intent)));
    destruct (dedupe_spec ∅ (ip_Parties (in_Payload intent))) as [Hn Hi]; split_and!; try done; try lia;
    intros q Hq; apply Hi in Hq as (_ & _ & ?); done.
  - by apply validateDKGPayload_Ok.
  - repeat match goal with u : unit |- _ => destruct u end. by apply validateSignPayload_Ok.
Qed.

(** An intent that passes validation has a session, an organization, a key and at
    least [threshold >= 2] distinct parties with the local one among them; as a DKG it
    carries a 32-byte chain code with its hash and nothing to sign; as a SIGN it is of
    the platform and the primary exactly, with threshold 2, a 32-byte digest of a known
    protocol and a derivation context with the stated hash. *)
Theorem validateIntent_sound intent localPartyID :
  validateIntent intent localPartyID = Ok () ->
  let p := in_Payload intent in
  trim_space (in_SessionID intent) <> "" /\ trim_space (ip_OrgID p) <> "" /\ trim_space (ip_KeyID p) <> ""
  /\ (exists parties, NoDup parties /\ localPartyID ∈ parties
      /\ (forall q, q ∈ parties -> exists r, r ∈ ip_Parties p /\ trim_space r = q)
      /\ (2 <= ip_Threshold p <= Z.of_nat (List.length parties))%Z)
  /\ match classifyIntentKind (in_Type intent) with
     | Some intentKindDKG => dkg_payload_ok p
     | Some intentKindSIGN => sign_payload_ok p localPartyID
     | None => False
     end.
Proof. exact (validateIntent_facts intent localPartyID). Qed.
End Validation.

(** * A concrete intent *)

Definition valid_derivation : DerivationContext :=
  Build_DerivationContext "p" "t" "ethereum:sepolia" "ecdsa" "secp256k1" "bip32_secp256k1" "m/44/60/0" "0/7"
    "m/44/60/0/0/7" "evm_hex" "0xc9a29e8f9c757fcf9811603a8c447cd1d9151108" "" "uncompressed_hex" 1 1 1.
Definition valid_sign_payload : IntentPayload :=
  Build_IntentPayload "sign" "org-1" "wal-1" "key-1" "p" 1 "t" ["mpc-signer"; "co-signer-primary"] 2
    "ECDSA" "secp256k1" "ethereum:sepolia" (sha256 "tx") "transaction" ethereumHashAlgorithm
    ethereumPayloadType "" "" "" "" "" (sha256_hex "m/44/60/0/0/7") "co-signer-primary"
    (Some valid_derivation) None.
Definition valid_sign_intent : Intent := {|
  in_Version := 2; in_Approval := None; in_Prepared := None; in_Session := zero_session; in_CreatedAt := 0;
  in_DeadlineRaw := ""; in_DiscoveryStatus := ""; in_IntentID := "outgoing-1"; in_SessionID := "session-1";
  in_Type := " SIGN"; in_ExpiresAt := 0; in_Payload := valid_sign_payload |}.

Lemma validateIntent_sound_witness :
  validateIntent "bip32_secp256k1" valid_sign_intent "co-signer-primary" = Ok ()
  /\ ip_Threshold valid_sign_payload = 2%Z.
Proof.
  assert (E : validateIntent "bip32_secp256k1" valid_sign_intent "co-signer-primary" = Ok ())
    by (vm_compute; reflexivity).
  split; [exact E|].
  destruct (validateIntent_sound "bip32_secp256k1" valid_sign_intent "co-signer-primary" E) as (_ & _ & _ & _ & Hs).
  exact (proj1 (proj2 (proj2 (proj2 Hs)))).
Defined.
