(* ===== verification/Session.v ===== *)
(** [internal/worker]: one session from its claim to its result (session_worker.go,
    sign_session.go, session_result.go, errors.go).  A session is a program over the
    calls it makes; the backend, the clock, the contexts and the MPC core answer from
    scripts, one entry per call, and a program that has used up its script is still
    waiting.  The journal is reached through the gate of [SignGate]. *)
From stdpp Require Import base tactics option list strings numbers gmap relations.
From Stdlib Require Import ZArith Lia Ascii String.
From S2P Require Import Prelude GoText Sha256 Externals Mpc2of3 SigningPolicy FileSystem GoTime Monolith SignGate ShareStore Terminal IntentValidation.

#[local] Open Scope string_scope.

(** * errors.go *)

Definition ErrorCodeInvalidIntent : string := "INVALID_INTENT".
Definition ErrorCodeAlreadyExpired : string := "ALREADY_EXPIRED".
Definition ErrorCodeSessionTimeout : string := "SESSION_TIMEOUT".
Definition ErrorCodeWorkerShutdown : string := "WORKER_SHUTDOWN".
Definition ErrorCodeShareNotFound : string := "SHARE_NOT_FOUND".
Definition ErrorCodeInvalidSharePayload : string := "INVALID_SHARE_PAYLOAD".
Definition ErrorCodeShareMetadata : string := "SHARE_METADATA_MISMATCH".
Definition ErrorCodeMissingPublicKey : string := "DKG_MISSING_PUBLIC_KEY".
Definition ErrorCodeProtocol : string := "MPC_PROTOCOL_ERROR".
Definition ErrorCodeInternal : string := "INTERNAL_ERROR".

Definition intentStatusCompleted : string := "COMPLETED".
Definition intentStatusFailed : string := "FAILED".

(** The sentinels that [BuildResult] reports as an invalid intent. *)
Definition invalid_intent_sentinels : list sentinel :=
  [ErrInvalidIntent; ErrPrepared; ErrInvalidSessionDescriptor; ErrLocalPartyRequired; ErrTransportRequired;
   ErrKeyIDRequired; ErrDigestMissing; ErrChainCodeMissing; ErrChainCodeInvalid; ErrDerivationContextRequired;
   ErrInvalidDerivationContext; ErrUnsupportedDerivationScheme; ErrDerivedSigningUnsupported;
   ErrDerivationPathInvalid; ErrDerivationContextMismatch; ErrUnsupportedAlgorithmCurve; ErrInvalidDKGContext].

(** [strings.Contains]. *)
Fixpoint contains (sub s : string) : bool :=
  has_prefix sub s || match s with String _ r => contains sub r | "" => false end.

(** [coretss.SignSessionRequest] without the transport. *)
Record SignSessionRequest := {
  rq_SessionID : string; rq_OrgID : string; rq_KeyID : string; rq_Parties : list string; rq_Threshold : Z;
  rq_Algorithm : string; rq_Curve : string; rq_Chain : string; rq_LocalPartyID : string; rq_Digest : bytes;
  rq_DerivationContext : option CoreDerivationContext;
}.

Definition buildSignRequest (intent : Intent) (localPartyID : string) : SignSessionRequest :=
  let p := in_Payload intent in {|
  rq_SessionID := in_SessionID intent; rq_OrgID := ip_OrgID p; rq_KeyID := ip_KeyID p;
  rq_Parties := ip_Parties p; rq_Threshold := ip_Threshold p; rq_Algorithm := ip_Algorithm p;
  rq_Curve := ip_Curve p; rq_Chain := ip_Chain p; rq_LocalPartyID := localPartyID; rq_Digest := ip_Digest p;
  rq_DerivationContext := toCoreDerivationContext <$> ip_DerivationContext p |}.

(** [DKGResult] of dkg_coordinator.go. *)
Record DKGResult := { dr_Primary : ArtifactEvidence; dr_Recovery : ArtifactEvidence }.

(** * The calls of a session *)

Inductive event :=
  | EvClaim (intentType intentID : string)
  | EvDispatched
  | EvPoll (sessionID : string)
  | EvRunSign (request : SignSessionRequest)
  | EvRunDKG (intent : Intent)
  | EvPost (intentID : string) (request : SignResultRequest)
  | EvPublish (job : Job)
  | EvHold
  | EvRelease.

(** The journal's world, the two [sync.Once] flags and the calls made so far. *)
Record session_state := {
  ss_world : world; ss_dispatched : bool; ss_released : bool; ss_trace : list event;
}.
Definition W (A : Type) : Type := session_state -> option A * session_state.
#[global] Instance W_ret : MRet W := fun A a s => (Some a, s).
#[global] Instance W_bind : MBind W := fun A B f m s =>
  match m s with (Some a, s) => f a s | (None, s) => (None, s) end.

Definition emit (e : event) : W unit := fun s =>
  (Some (), {| ss_world := ss_world s; ss_dispatched := ss_dispatched s; ss_released := ss_released s;
               ss_trace := ss_trace s ++ [e] |}).
Definition blocked {A} : W A := fun s => (None, s).

(** [notifyDispatch] and [permits.Release], each at most once. *)
Definition notifyDispatch : W unit := fun s =>
  if ss_dispatched s then (Some (), s)
  else (Some (), {| ss_world := ss_world s; ss_dispatched := true; ss_released := ss_released s;
                    ss_trace := ss_trace s ++ [EvDispatched] |}).
Definition release : W unit := fun s =>
  if ss_released s then (Some (), s)
  else (Some (), {| ss_world := ss_world s; ss_dispatched := ss_dispatched s; ss_released := true;
                    ss_trace := ss_trace s ++ [EvRelease] |}).

(** [<-ctx.Done()]. *)
Definition hold : W unit := emit EvHold.

(** What the environment answers, per call. *)
Record claim_try := {
  ct_ctx : option error; ct_claim : ClaimResult; ct_err : option error; ct_wait : option error;
}.
Record ready_try := {
  rd_ctx : option error; rd_poll : res MessagesResult; rd_wall : time; rd_armed : option error;
  rd_wait : option error;
}.
Record delivery := { dl_post : option error; dl_poll : res MessagesResult; dl_retry : bool }.

(** The outcome of [select] in [runSignProtocol]. *)
Inductive ended := Finished | TransportDone | ContextDone.
Record sign_run := {
  sn_ctx : option error; sn_runner : option error; sn_dispatch : option error; sn_core : option error;
  sn_ended : ended; sn_trErr : option error; sn_ctxErr : option error;
}.

(** The script of a whole session: the claims, [time.Now] at the deadline check, the
    polls until the session runs, the context's error if it never does, what happens to
    the journal before the gate, the calls of the gate, the run, the transport's error
    after it, the context's error at the end, the deliveries of the result, and the
    publication of a DKG result. *)
Record session_env := {
  se_ctx : option error; se_claims : list claim_try; se_now : time; se_ready : list ready_try;
  se_readyErr : option error; se_journal : world -> world; se_gate : list (gate_call * wake);
  se_gateErr : option error; se_sign : sign_run; se_dkg : option (res DKGResult); se_trErr : option error;
  se_endErr : option error; se_deliver : list delivery; se_publish : option (option error);
}.

Section Session.
Context `{Externals} `{TxCodecs}.
(** [err.Error()], and [coretss.DerivationSchemeBIP32Secp256k1]. *)
Context (Error : error -> string) (bip32_scheme : string).

Definition failedResult (code : string) (err : error) : IntentResult :=
  {| ir_Status := intentStatusFailed; ErrorCode := code; ErrorMessage := Error err |}.

Definition isProtocolError (err : error) : bool :=
  let msg := to_lower (Error err) in
  existsb (fun text => contains text msg)
    ["duplicate frame"; "unknown party"; "frame payload too large"; "queue is full"; "protocol stalled";
     "mpc protocol"; "protocol error"].

Definition BuildResult (runErr sessionErr : option error) : IntentResult :=
  match runErr with
  | None => {| ir_Status := intentStatusCompleted; ErrorCode := ""; ErrorMessage := "" |}
  | Some e =>
      if errors_is e DeadlineExceeded then failedResult ErrorCodeSessionTimeout e
      else if errors_is e Canceled then failedResult ErrorCodeWorkerShutdown e
      else if existsb (errors_is e) invalid_intent_sentinels then failedResult ErrorCodeInvalidIntent e
      else if errors_is e ErrAlreadyExpired then failedResult ErrorCodeAlreadyExpired e
      else if errors_is e ErrShareNotFound then failedResult ErrorCodeShareNotFound e
      else if errors_is e ErrInvalidSharePayload then failedResult ErrorCodeInvalidSharePayload e
      else if errors_is e ErrArtifactBinding || errors_is e ErrMetadataMismatch
      then failedResult ErrorCodeShareMetadata e
      else if errors_is e ErrMissingDKGPublicKey then failedResult ErrorCodeMissingPublicKey e
      else if errors_is e ErrMPCProtocol || isProtocolError e then failedResult ErrorCodeProtocol e
      else match sessionErr with
      | Some s =>
          if errors_is s DeadlineExceeded then failedResult ErrorCodeSessionTimeout s
          else if errors_is s Canceled then failedResult ErrorCodeWorkerShutdown s
          else failedResult ErrorCodeInternal e
      | None => failedResult ErrorCodeInternal e
      end
  end.

(** * session_result.go *)

Definition same_execution (intent observed : SessionLifecycle) : bool :=
  match StartedAt intent with
  | None => true
  | Some started =>
      match StartedAt observed, ExecutionExpiresAt observed, ExecutionExpiresAt intent with
      | Some started', Some expires', Some expires => time_equal started' started && time_equal expires' expires
      | _, _, _ => false
      end
  end.

(** The observed session has ended, and is the one of this intent. *)
Definition delivered_elsewhere (intent : Intent) (poll : res MessagesResult) : bool :=
  match poll with
  | Fail _ => false
  | Ok observed =>
      is_ok (Validate (mr_Session observed) "SIGN" (in_SessionID intent) (in_ExpiresAt intent))
      && same_execution (in_Session intent) (mr_Session observed)
      && existsb (String.eqb (sl_Status (mr_Session observed))) ["COMPLETED"; "FAILED"; "TIMED_OUT"]
  end.

Fixpoint deliver_loop (intent : Intent) (request : SignResultRequest) (script : list delivery) : W unit :=
  match script with
  | [] => blocked
  | d :: script =>
      _ ← emit (EvPost (in_IntentID intent) request);
      match dl_post d with
      | None => mret ()
      | Some err =>
          if errors_is err ErrTerminalConflict then mret ()
          else
            _ ← emit (EvPoll (in_SessionID intent));
            if delivered_elsewhere intent (dl_poll d) then mret ()
            else if dl_retry d then deliver_loop intent request script else mret ()
      end
  end.

Definition deliverSignResult (intent : Intent) (result : IntentResult) (script : list delivery) : W unit :=
  match NewSignResultRequest result with
  | Fail _ => hold
  | Ok request => deliver_loop intent request script
  end.

(** The publisher's answer: [None] for no publisher, else its error. *)
Definition publish_or_hold (publish : option (option error)) (job : res Job) : W unit :=
  match publish, job with
  | Some answer, Ok job =>
      _ ← emit (EvPublish job);
      match answer with None => mret () | Some _ => hold end
  | _, _ => hold
  end.

Definition publishClaimedDKGFailure (publish : option (option error)) (intent : Intent) : W unit :=
  publish_or_hold publish (NewFailedJob (in_IntentID intent) (in_SessionID intent) (ip_KeyID (in_Payload intent))).

Definition evidence_artifact (ev : ArtifactEvidence) : ArtifactInput :=
  {| inp_PartyID := ev_PartyID ev; inp_Purpose := ev_Purpose ev; inp_Fingerprint := ev_ArtifactFingerprint ev |}.
Definition buildDKGTerminalJob (intent : Intent) (run : res DKGResult) : res Job :=
  match run with
  | Fail _ => NewFailedJob (in_IntentID intent) (in_SessionID intent) (ip_KeyID (in_Payload intent))
  | Ok output =>
      NewCompletedJob {|
        ci_IntentID := in_IntentID intent; ci_SessionID := in_SessionID intent;
        ci_KeyID := ip_KeyID (in_Payload intent);
        ci_DescriptorFingerprint := ev_DescriptorFingerprint (dr_Primary output);
        ci_AccountPublicKey := ev_AccountPublicKey (dr_Primary output);
        ci_ChainCodeHash := ev_ChainCodeHash (dr_Primary output);
        ci_Primary := evidence_artifact (dr_Primary output);
        ci_Recovery := evidence_artifact (dr_Recovery output) |}
  end.
Definition publishDKGResult (publish : option (option error)) (intent : Intent) (run : res DKGResult) : W unit :=
  publish_or_hold publish (buildDKGTerminalJob intent run).

(** * sign_session.go *)

(** [Time.Sub] saturates. *)
Definition time_sub (a b : time) : duration := Z.max min_int64 (Z.min max_int64 (a - b)%Z).
Definition signExecutionBudget (expiresAt wall : time) : duration :=
  Z.min (300 * second) (time_sub (expiresAt - 2 * second)%Z wall).

Definition sameOptionalTime (left right : option time) : bool :=
  match left, right with
  | None, None => true
  | Some l, Some r => time_equal l r
  | _, _ => false
  end.

(** A session that is observed running: whether it is the claimed one, and for a SIGN
    whether there is time left.  [Validate] has excluded the absent start and expiry,
    which the source dereferences. *)
Definition running (kind : string) (intent : Intent) (observed : SessionLifecycle) (t : ready_try) : res SessionLifecycle :=
  if match StartedAt (in_Session intent) with
     | None => false
     | Some started =>
         negb (match StartedAt observed with Some s => time_equal s started | None => false end)
         || negb (sameOptionalTime (ExecutionExpiresAt observed) (ExecutionExpiresAt (in_Session intent)))
     end then Fail err_lifecycle
  else if kind =s "DKG" then Ok observed
  else match ExecutionExpiresAt observed with
  | None => Fail err_lifecycle
  | Some expires =>
      if (signExecutionBudget expires (rd_wall t) <=? 0)%Z || negb (time_after (Deadline observed) (rd_wall t))
      then Fail (ESent ErrAlreadyExpired)
      else match rd_armed t with Some e => Fail e | None => Ok observed end
  end.

Fixpoint waitForSessionReadiness (intent : Intent) (script : list ready_try) : W (res SessionLifecycle) :=
  let kind := to_upper (trim_space (in_Type intent)) in
  match script with
  | [] => blocked
  | t :: script =>
      match rd_ctx t with
      | Some e => mret (Fail e)
      | None =>
          let wait := match rd_wait t with
                      | Some e => mret (Fail e)
                      | None => waitForSessionReadiness intent script
                      end in
          _ ← emit (EvPoll (in_SessionID intent));
          match rd_poll t with
          | Fail e => if errors_is e ErrInvalidLifecycle then mret (Fail e) else wait
          | Ok result =>
              let observed := mr_Session result in
              match Validate observed kind (in_SessionID intent) (in_ExpiresAt intent) with
              | Fail e => mret (Fail e)
              | Ok _ =>
                  if sl_Status observed =s "PENDING" then wait
                  else if sl_Status observed =s "RUNNING" then mret (running kind intent observed t)
                  else mret (Fail err_lifecycle)
              end
          end
      end
  end.

(** [runSignProtocol]: the runner goroutine's answer and which case of the [select] was
    taken; the core is called only if neither the context nor the transport refused. *)
Definition runSignProtocol (intent : Intent) (localPartyID : string) (r : sign_run) : W (option error) :=
  match sn_ctx r with
  | Some e => mret (Some e)
  | None =>
      finished ← match sn_runner r, sn_dispatch r with
                 | Some e, _ => mret (Some e)
                 | None, Some e => mret (Some e)
                 | None, None => _ ← emit (EvRunSign (buildSignRequest intent localPartyID)); mret (sn_core r)
                 end;
      mret (match sn_ended r with
            | Finished => finished
            | TransportDone => match sn_trErr r with Some e => Some e | None => finished end
            | ContextDone => match finished with Some e => Some e | None => sn_ctxErr r end
            end)
  end.

(** * session_worker.go *)

(** The error after the local identity check of a rejected claim: [None] when the
    rejection stands. *)
Definition rejection_recovers (intent : Intent) (claim : ClaimResult) : bool :=
  let claimed := claim_Intent claim in
  (in_Type claimed <>s "SIGN") || negb (equal_fold (in_Type intent) "SIGN")
  || negb (is_ok (validateClaimIdentity intent claimed claim intentKindSIGN)).

Definition first_answer_dispatches (err : option error) : bool :=
  match err with
  | None => true
  | Some e => errors_is e ErrClaimOutcomeUnknown || errors_is e DeadlineExceeded || errors_is e ErrSignClaimRejected
  end.

Fixpoint claim_loop (intent : Intent) (first uncertain : bool) (script : list claim_try)
    : W (ClaimResult * option error) :=
  match script with
  | [] => blocked
  | t :: script =>
      match ct_ctx t with
      | Some e => mret (zero_claim, Some e)
      | None =>
          _ ← emit (EvClaim (in_Type intent) (in_IntentID intent));
          _ ← (if first && first_answer_dispatches (ct_err t) then notifyDispatch else mret ());
          let claim := ct_claim t in
          if is_err (ct_err t) ErrSignClaimRejected && negb (rejection_recovers intent claim)
          then mret (claim, ct_err t)
          else
            let err := if is_err (ct_err t) ErrSignClaimRejected then Some (ESent ErrClaimOutcomeUnknown)
                       else ct_err t in
            match err with
            | None => mret (claim, None)
            | Some e =>
                if errors_is e ErrAlreadyClaimed || errors_is e ErrNotFound then
                  if uncertain && errors_is e ErrAlreadyClaimed
                  then mret (claim, errors_join [Some (ESent ErrClaimCleanup); Some e])
                  else mret (claim, Some e)
                else if negb (errors_is e ErrClaimOutcomeUnknown) && negb (errors_is e DeadlineExceeded) then
                  if uncertain then mret (claim, errors_join [Some (ESent ErrClaimCleanup); Some e])
                  else mret (claim, Some e)
                else match ct_wait t with
                | Some e => mret (zero_claim, Some e)
                | None => claim_loop intent false true script
                end
            end
      end
  end.
Definition claimWithRecovery (intent : Intent) (script : list claim_try) : W (ClaimResult * option error) :=
  claim_loop intent true false script.

(** [intent.Session = readyLifecycle]. *)
Definition with_session (i : Intent) (s : SessionLifecycle) : Intent := {|
  in_Version := in_Version i; in_Approval := in_Approval i; in_Prepared := in_Prepared i; in_Session := s;
  in_CreatedAt := in_CreatedAt i; in_DeadlineRaw := in_DeadlineRaw i; in_DiscoveryStatus := in_DiscoveryStatus i;
  in_IntentID := in_IntentID i; in_SessionID := in_SessionID i; in_Type := in_Type i;
  in_ExpiresAt := in_ExpiresAt i; in_Payload := in_Payload i |}.

(** [authorizeSign] on the session's world, after what others did before it. *)
Definition pass_gate (gate : option (gate_call -> Intent -> M unit)) (env : session_env) (intent : Intent)
    : W (res unit) := fun s =>
  match authorizeSign gate intent (se_gate env) (se_journal env (ss_world s)) with
  | Some (r, w) => (Some r, {| ss_world := w; ss_dispatched := ss_dispatched s; ss_released := ss_released s;
                               ss_trace := ss_trace s |})
  | None => (None, s)
  end.

(** The failure of a claimed intent: a SIGN posts the result, a DKG publishes the
    canonical failure. *)
Definition fail_claimed (env : session_env) (kind : intentKind) (intent : Intent) (result : IntentResult) : W unit :=
  match kind with
  | intentKindDKG => publishClaimedDKGFailure (se_publish env) intent
  | intentKindSIGN => deliverSignResult intent result (se_deliver env)
  end.

(** The claim failed. *)
Definition claim_failed (env : session_env) (kind : intentKind) (intent : Intent) (e : error) : W unit :=
  _ ← (if (errors_is e DeadlineExceeded || errors_is e ErrClaimCleanup) && is_none (se_ctx env)
       then fail_claimed env kind intent
              (failedResult (if errors_is e DeadlineExceeded then ErrorCodeAlreadyExpired else ErrorCodeInternal) e)
       else mret ());
  _ ← release;
  notifyDispatch.

(** The session runs: the gate, the protocol and the result. *)
Definition run_claimed (gate : option (gate_call -> Intent -> M unit)) (env : session_env) (kind : intentKind)
    (intent : Intent) (localPartyID : string) : W unit :=
  ready ← waitForSessionReadiness intent (se_ready env);
  match ready with
  | Fail e => fail_claimed env kind intent (BuildResult (Some e) (se_readyErr env))
  | Ok lifecycle =>
      let intent := with_session intent lifecycle in
      match kind with
      | intentKindSIGN =>
          passed ← pass_gate gate env intent;
          match passed with
          | Fail e => deliverSignResult intent (BuildResult (Some e) (se_gateErr env)) (se_deliver env)
          | Ok _ =>
              runErr ← runSignProtocol intent localPartyID (se_sign env);
              let runErr := match se_trErr env with Some e => Some e | None => runErr end in
              deliverSignResult intent (BuildResult runErr (se_endErr env)) (se_deliver env)
          end
      | intentKindDKG =>
          run ← match se_dkg env with
                | None => mret (Fail (ENew "dkg coordinator is required"))
                | Some r => _ ← emit (EvRunDKG intent); mret r
                end;
          publishDKGResult (se_publish env) intent run
      end
  end.

(** The claim succeeded: identity, validation and deadline before anything runs. *)
Definition run_claim (gate : option (gate_call -> Intent -> M unit)) (env : session_env) (kind : intentKind)
    (intent : Intent) (claim : ClaimResult) (localPartyID : string) : W unit :=
  let claimed := claim_Intent claim in
  if negb (bool_decide (classifyIntentKind (in_Type claimed) = Some kind)) then
    match kind with
    | intentKindDKG => publishClaimedDKGFailure (se_publish env) claimed
    | intentKindSIGN => hold
    end
  else match validateClaimIdentity intent claimed claim kind with
  | Fail _ =>
      match kind with
      | intentKindDKG => publishClaimedDKGFailure (se_publish env) claimed
      | intentKindSIGN => deliverSignResult intent (failedResult ErrorCodeInvalidIntent err_lifecycle) (se_deliver env)
      end
  | Ok _ =>
      match validateIntent bip32_scheme claimed localPartyID with
      | Fail e => fail_claimed env kind claimed (failedResult ErrorCodeInvalidIntent e)
      | Ok _ =>
          if negb (time_after (cr_Deadline claim) (se_now env))
          then fail_claimed env kind claimed
                 {| ir_Status := intentStatusFailed; ErrorCode := ErrorCodeAlreadyExpired; ErrorMessage := "" |}
          else run_claimed gate env kind claimed localPartyID
      end
  end.

(** [runSessionWithClock] before its deferred calls. *)
Definition session_body (gate : option (gate_call -> Intent -> M unit)) (env : session_env) (intent : Intent)
    (localPartyID : string) : W unit :=
  match classifyIntentKind (in_Type intent) with
  | None => mret ()
  | Some kind =>
      if bool_decide (kind = intentKindSIGN) && (in_DiscoveryStatus intent =s "CLAIMED") then
        _ ← notifyDispatch;
        deliverSignResult intent (failedResult ErrorCodeWorkerShutdown (ENew "orphaned SIGN claim")) (se_deliver env)
      else
        '(claim, err) ← claimWithRecovery intent (se_claims env);
        match err with
        | Some e =>
            if errors_is e ErrSignClaimRejected
            then deliverSignResult (claim_Intent claim) (failedResult ErrorCodeInvalidIntent e) (se_deliver env)
            else claim_failed env kind intent e
        | None => run_claim gate env kind intent claim localPartyID
        end
  end.

Definition runSessionWithClock (gate : option (gate_call -> Intent -> M unit)) (env : session_env) (intent : Intent)
    (localPartyID : string) : W unit :=
  _ ← session_body gate env intent localPartyID;
  _ ← notifyDispatch;
  release.
End Session.
