(* ===== verification/SessionProofs.v ===== *)
(** Proofs about sessions: what must have happened before the MPC core runs or a result
    is reported as completed, that a result is delivered as one, and that the permit
    spans the whole session. *)
From stdpp Require Import base tactics option list strings numbers gmap relations.
From Stdlib Require Import ZArith Lia Ascii String.
From S2P Require Import Prelude GoText Sha256 Externals Mpc2of3 SigningPolicy FileSystem Journal JournalProofs GoTime Monolith SignGate SignGateProofs ShareStore Terminal IntentValidation Session.

#[local] Open Scope string_scope.

(** * Calls of a program *)

(** Whatever [m] does, its new calls satisfy [ok] and it leaves the journal alone. *)
Definition emits {A} (ok : event -> Prop) (m : W A) : Prop := forall s r s', m s = (r, s') ->
  ss_world s' = ss_world s /\ exists new, ss_trace s' = (ss_trace s ++ new)%list /\ Forall ok new.

Section Emits.
Context (ok : event -> Prop).

Lemma emits_ret {A} (a : A) : emits ok (mret a).
Proof. intros s r s' [= <- <-]. split; [done|]. exists []. by rewrite app_nil_r. Qed.
Lemma emits_blocked {A} : emits ok (blocked : W A).
Proof. intros s r s' [= <- <-]. split; [done|]. exists []. by rewrite app_nil_r. Qed.
Lemma emits_emit e : ok e -> emits ok (emit e).
Proof. intros He s r s' [= <- <-]. split; [done|]. exists [e]. by repeat constructor. Qed.
Lemma emits_bind {A B} (m : W A) (k : A -> W B) : emits ok m -> (forall a, emits ok (k a)) -> emits ok (m ≫= k).
Proof.
  intros Hm Hk s r s'. unfold mbind, W_bind. destruct (m s) as [[a|] s1] eqn:E; intros Hr.
  - destruct (Hm _ _ _ E) as (Hw1 & n1 & Ht1 & Hf1). destruct (Hk a _ _ _ Hr) as (Hw2 & n2 & Ht2 & Hf2).
    split; [congruence|]. exists (n1 ++ n2)%list. rewrite Ht2, Ht1, app_assoc. split; [done|by apply Forall_app].
  - injection Hr as <- <-. by apply (Hm _ _ _ E).
Qed.
Lemma emits_notify : ok EvDispatched -> emits ok notifyDispatch.
Proof.
  intros He s r s'. unfold notifyDispatch. destruct (ss_dispatched s); intros [= <- <-]; (split; [done|]).
  - exists []. by rewrite app_nil_r.
  - exists [EvDispatched]. by repeat constructor.
Qed.
Lemma emits_release : ok EvRelease -> emits ok release.
Proof.
  intros He s r s'. unfold release. destruct (ss_released s); intros [= <- <-]; (split; [done|]).
  - exists []. by rewrite app_nil_r.
  - exists [EvRelease]. by repeat constructor.
Qed.
End Emits.

Lemma emits_mono {A} (P Q : event -> Prop) (m : W A) : (forall e, P e -> Q e) -> emits P m -> emits Q m.
Proof.
  intros Hpq Hm s r s' Hr. destruct (Hm _ _ _ Hr) as (Hw & new & Ht & Hf). split; [done|].
  exists new. split; [done|]. by eapply Forall_impl.
Qed.

(** The tactic for programs without loops of their own. *)
Create HintDb session.
#[export] Hint Resolve emits_ret emits_blocked emits_emit emits_notify emits_release I : session.
Ltac solve_emits := repeat first
  [ progress eauto with session
  | first [apply emits_emit | apply emits_notify | apply emits_release]; done
  | apply emits_bind; [|intros ?]
  | match goal with |- emits _ (match ?x with _ => _ end) => destruct x end
  | match goal with |- emits _ (if ?x then _ else _) => destruct x end ].

Section Parts.
Context `{Externals} `{TxCodecs} (Error : error -> string) (scheme : string).

Lemma emits_deliver_loop ok intent request script :
  ok (EvPost (in_IntentID intent) request) -> (forall id, ok (EvPoll id)) ->
  emits ok (deliver_loop intent request script).
Proof. intros Hp Hq. induction script as [|d script IH]; cbn [deliver_loop]; solve_emits. Qed.

Lemma emits_deliver ok intent result script :
  (forall request, sr_status request = ir_Status result -> ok (EvPost (in_IntentID intent) request)) ->
  (forall id, ok (EvPoll id)) -> ok EvHold -> emits ok (deliverSignResult intent result script).
Proof.
  intros Hp Hq Hh. unfold deliverSignResult, hold. destruct (NewSignResultRequest result) as [request|] eqn:E; [|solve_emits].
  apply emits_deliver_loop; [|done]. apply Hp. unfold NewSignResultRequest in E. inv_ok. done.
Qed.

Lemma emits_publish ok publish job : (forall j, job = Ok j -> ok (EvPublish j)) -> ok EvHold ->
  emits ok (publish_or_hold publish job).
Proof. intros Hj Hh. unfold publish_or_hold, hold. destruct publish, job; solve_emits. Qed.

Lemma emits_claim ok intent first uncertain script :
  ok (EvClaim (in_Type intent) (in_IntentID intent)) -> ok EvDispatched ->
  emits ok (claim_loop intent first uncertain script).
Proof.
  intros Hc Hd. revert first uncertain. induction script as [|t script IH]; intros first uncertain; cbn [claim_loop]; solve_emits.
Qed.

Lemma emits_ready ok intent script : (forall id, ok (EvPoll id)) -> emits ok (waitForSessionReadiness intent script).
Proof. intros Hp. induction script as [|t script IH]; cbn [waitForSessionReadiness]; cbv zeta; solve_emits. Qed.
End Parts.

(** * Only authorized digests reach the core *)

Definition no_run (e : event) : Prop := match e with EvRunSign _ => False | _ => True end.

Section Signs.
Context `{Externals} `{TxCodecs} (Error : error -> string) (scheme : string) (j : Journal) (localPartyID : string).
#[local] Existing Instance journal_store.

(** Every request to the core is of an intent that is valid and durably authorized. *)
Definition signs_ok {A} (m : W A) : Prop := forall s r s', inv (ss_world s) -> m s = (r, s') ->
  exists new, ss_trace s' = (ss_trace s ++ new)%list
  /\ forall request, EvRunSign request ∈ new ->
     exists i a p auth, @authorized _ _ (journal_store (j_directory j)) (ss_world s') i a p auth
     /\ inv (ss_world s') /\ intent_ok scheme i localPartyID /\ request = buildSignRequest i localPartyID.

Lemma signs_emits {A} (m : W A) : emits no_run m -> signs_ok m.
Proof.
  intros Hm s r s' _ Hr. destruct (Hm _ _ _ Hr) as (_ & new & Ht & Hf). exists new. split; [done|].
  intros request Hq. by rewrite Forall_forall in Hf; apply Hf in Hq.
Qed.
Lemma signs_after {A B} (m : W A) (k : A -> W B) : emits no_run m -> (forall a, signs_ok (k a)) -> signs_ok (m ≫= k).
Proof.
  intros Hm Hk s r s' Hi. unfold mbind, W_bind. destruct (m s) as [[a|] s1] eqn:E; intros Hr.
  - destruct (Hm _ _ _ E) as (Hw & n1 & Ht1 & Hf). destruct (Hk a s1 r s' ltac:(by rewrite Hw) Hr) as (n2 & Ht2 & Hq).
    exists (n1 ++ n2)%list. rewrite Ht2, Ht1, app_assoc. split; [done|].
    intros request [Hn|Hn]%elem_of_app; [|by apply Hq]. by rewrite Forall_forall in Hf; apply Hf in Hn.
  - injection Hr as <- <-. eapply signs_emits; [exact Hm|exact Hi|exact E].
Qed.
Lemma signs_before {A B} (m : W A) (k : A -> W B) : signs_ok m -> (forall a, emits no_run (k a)) -> signs_ok (m ≫= k).
Proof.
  intros Hm Hk s r s' Hi. unfold mbind, W_bind. destruct (m s) as [[a|] s1] eqn:E; intros Hr.
  - destruct (Hm _ _ _ Hi E) as (n1 & Ht1 & Hq). destruct (Hk a _ _ _ Hr) as (Hw & n2 & Ht2 & Hf).
    exists (n1 ++ n2)%list. rewrite Ht2, Ht1, app_assoc. split; [done|].
    intros request [Hn|Hn]%elem_of_app; [rewrite Hw; by apply Hq|].
    by rewrite Forall_forall in Hf; apply Hf in Hn.
  - injection Hr as <- <-. by apply Hm in E.
Qed.

Lemma quiet_deliver intent result script : emits no_run (deliverSignResult intent result script).
Proof. by apply emits_deliver. Qed.
Lemma quiet_publish publish job : emits no_run (publish_or_hold publish job).
Proof. by apply emits_publish. Qed.
Lemma quiet_fail_claimed env kind intent result : emits no_run (fail_claimed env kind intent result).
Proof. destruct kind; [apply quiet_publish|apply quiet_deliver]. Qed.
#[local] Hint Resolve quiet_deliver quiet_publish quiet_fail_claimed : session.

Lemma run_sign_request intent r : emits (fun e => e = EvRunSign (buildSignRequest intent localPartyID))
  (runSignProtocol intent localPartyID r).
Proof. unfold runSignProtocol. solve_emits. Qed.

(** The protocol and the result of an intent that passed the gate. *)
Lemma signs_authorized {A} intent (m : W A) a p auth s r s' :
  emits (fun e => no_run e \/ e = EvRunSign (buildSignRequest intent localPartyID)) m ->
  @authorized _ _ (journal_store (j_directory j)) (ss_world s) intent a p auth -> inv (ss_world s) ->
  intent_ok scheme intent localPartyID -> m s = (r, s') ->
  exists new, ss_trace s' = (ss_trace s ++ new)%list
  /\ forall request, EvRunSign request ∈ new ->
     exists i a p auth, @authorized _ _ (journal_store (j_directory j)) (ss_world s') i a p auth
     /\ inv (ss_world s') /\ intent_ok scheme i localPartyID /\ request = buildSignRequest i localPartyID.
Proof.
  intros Hm Hau Hinv Hok Hr. destruct (Hm _ _ _ Hr) as (Hw & new & Ht & Hf). exists new. split; [done|].
  intros request Hq. rewrite Forall_forall in Hf. destruct (Hf _ Hq) as [[]|[= ->]].
  exists intent, a, p, auth. by rewrite Hw.
Qed.

Context (env : session_env).
Hypothesis Hjournal : forall w, rtc jstep w (se_journal env w).
Hypothesis Hgate : Forall (@benign_call _ (journal_store (j_directory j))) (se_gate env).

Lemma signs_run_claimed kind intent : intent_ok scheme intent localPartyID ->
  signs_ok (run_claimed Error (Some (gate_of j)) env kind intent localPartyID).
Proof.
  intros Hok. unfold run_claimed. apply signs_after; [by apply emits_ready|]. intros [lifecycle|e]; [|solve_emits; by apply signs_emits, quiet_fail_claimed].
  destruct kind; [apply signs_emits; unfold publishDKGResult; solve_emits|].
  intros s r s' Hi. unfold mbind at 1, W_bind at 1, pass_gate.
  destruct (authorizeSign _ _ _ _) as [[res w1]|] eqn:Eg; cbv beta iota.
  - destruct res as [[]|e]; cbv beta iota; intros Hr.
    + set (ST := journal_store (j_directory j)).
      assert (Hi1 : inv (se_journal env (ss_world s))) by (by destruct (jsteps_durable _ _ (Hjournal (ss_world s)) Hi)).
      destruct (authorize_loop_Ok _ _ _ _ _ (file_handle j) Hi1 Hgate Eg) as (Hl & a & p & auth & Hau).
      set (s1 := {| ss_world := w1; ss_dispatched := _; ss_released := _; ss_trace := _ |}) in Hr.
      eapply (signs_authorized (with_session intent lifecycle) _ a p auth s1 r s'); [|exact Hau|exact (@store_inv_later _ ST _ _ Hi1 Hl)|exact Hok|exact Hr].
      apply emits_bind; [eapply emits_mono; [|apply run_sign_request]; by right|]. intros runErr.
      eapply emits_mono; [|apply quiet_deliver]. by left.
    + destruct (quiet_deliver _ _ _ _ _ _ Hr) as (_ & new & Ht & Hf). exists new. split; [exact Ht|].
      intros request Hq. by rewrite Forall_forall in Hf; apply Hf in Hq.
  - intros [= <- <-]. exists []. rewrite app_nil_r. split; [done|]. by intros request ?%elem_of_nil.
Qed.

Lemma signs_body intent : signs_ok (session_body Error scheme (Some (gate_of j)) env intent localPartyID).
Proof.
  unfold session_body. destruct (classifyIntentKind _) as [kind|]; [|apply signs_emits; solve_emits].
  destruct (_ && _); [apply signs_emits; solve_emits|].
  apply signs_after; [unfold claimWithRecovery; by apply emits_claim|]. intros [claim [e|]].
  - destruct (errors_is _ _); [apply signs_emits, quiet_deliver|].
    apply signs_emits. unfold claim_failed. solve_emits.
  - unfold run_claim. cbv zeta.
    destruct (negb _); [apply signs_emits; destruct kind; unfold hold, publishClaimedDKGFailure; solve_emits|].
    destruct (validateClaimIdentity _ _ _ _); [|apply signs_emits; destruct kind; unfold publishClaimedDKGFailure; solve_emits].
    destruct (validateIntent _ _ _) as [[]|e] eqn:Ev; [|apply signs_emits; solve_emits].
    destruct (negb _); [apply signs_emits; solve_emits|]. by apply signs_run_claimed, validateIntent_facts.
Qed.
End Signs.

(** * Completed means completed *)

Section Reports.
Context `{Externals} `{TxCodecs} (Error : error -> string) (scheme : string).

(** A call that reports nothing as completed. *)
Definition incomplete (e : event) : Prop :=
  match e with
  | EvPost _ request => sr_status request = "FAILED"
  | EvPublish job => job_status job = "FAILED"
  | _ => True
  end.

Lemma newJob_status result job : newJob result = Ok job -> job_status job = tr_Status result.
Proof. unfold newJob. intros Hj. inv_ok. done. Qed.

Lemma incomplete_deliver intent result script : ir_Status result = "FAILED" ->
  emits incomplete (deliverSignResult intent result script).
Proof. intros Hf. apply emits_deliver; [|done..]. intros request Hr. cbn. congruence. Qed.
Lemma incomplete_failure publish intent : emits incomplete (publishClaimedDKGFailure publish intent).
Proof. apply emits_publish; [|done]. intros job Hj%newJob_status. exact Hj. Qed.
Lemma BuildResult_failed e s : ir_Status (BuildResult Error (Some e) s) = "FAILED".
Proof. unfold BuildResult. repeat case_match; done. Qed.
Lemma incomplete_fail_claimed env kind intent result : ir_Status result = "FAILED" ->
  emits incomplete (fail_claimed env kind intent result).
Proof. intros Hf. destruct kind; [apply incomplete_failure|by apply incomplete_deliver]. Qed.
#[local] Hint Resolve incomplete_deliver incomplete_failure incomplete_fail_claimed BuildResult_failed : session.

(** What has succeeded when a session reports a completion. *)
Definition completed (env : session_env) (new : list event) (e : event) : Prop :=
  match e with
  | EvPost _ request => sr_status request <> "FAILED" ->
      sn_core (se_sign env) = None /\ se_trErr env = None /\ exists q, EvRunSign q ∈ new
  | EvPublish job => job_status job <> "FAILED" -> exists intent output,
      se_dkg env = Some (Ok output) /\ EvRunDKG intent ∈ new
      /\ buildDKGTerminalJob intent (Ok output) = Ok job
  | _ => True
  end.
Definition reports_ok {A} (env : session_env) (m : W A) : Prop := forall s r s', m s = (r, s') ->
  exists new, ss_trace s' = (ss_trace s ++ new)%list /\ Forall (completed env new) new.

Lemma completed_mono env new new' e : (forall x, x ∈ new -> x ∈ new') -> completed env new e -> completed env new' e.
Proof.
  intros Hs. destruct e; cbn; try done.
  - intros Hc Hf. destruct (Hc Hf) as (? & ? & q & ?). eauto 6.
  - intros Hc Hf. destruct (Hc Hf) as (i & o & ? & ? & ?). exists i, o. eauto.
Qed.
Lemma reports_incomplete {A} env (m : W A) : emits incomplete m -> reports_ok env m.
Proof.
  intros Hm s r s' Hr. destruct (Hm _ _ _ Hr) as (_ & new & Ht & Hf). exists new. split; [done|].
  eapply Forall_impl; [exact Hf|]. intros [] He; cbn in *; done.
Qed.
Lemma completed_app env n1 n2 : Forall (completed env n1) n1 -> Forall (completed env n2) n2 ->
  Forall (completed env (n1 ++ n2)) (n1 ++ n2).
Proof.
  intros H1 H2. apply Forall_app. split.
  - eapply Forall_impl; [exact H1|]. intros e. apply completed_mono. intros x ?. apply elem_of_app. by left.
  - eapply Forall_impl; [exact H2|]. intros e. apply completed_mono. intros x ?. apply elem_of_app. by right.
Qed.
Lemma reports_bind {A B} env (m : W A) (k : A -> W B) : reports_ok env m -> (forall a, reports_ok env (k a)) -> reports_ok env (m ≫= k).
Proof.
  intros Hm Hk s r s'. unfold mbind, W_bind. destruct (m s) as [[a|] s1] eqn:E; intros Hr.
  - destruct (Hm _ _ _ E) as (n1 & Ht1 & Hf1). destruct (Hk a _ _ _ Hr) as (n2 & Ht2 & Hf2).
    exists (n1 ++ n2)%list. rewrite Ht2, Ht1, app_assoc. split; [done|by apply completed_app].
  - injection Hr as <- <-. by apply Hm in E.
Qed.

(** A run without an error has called the core, and the core returned nil. *)
Lemma runSignProtocol_nil intent localPartyID r s s' :
  runSignProtocol intent localPartyID r s = (Some None, s') ->
  sn_core r = None /\ ss_trace s' = (ss_trace s ++ [EvRunSign (buildSignRequest intent localPartyID)])%list.
Proof.
  unfold runSignProtocol, mbind, W_bind. destruct (sn_ctx r); [done|].
  destruct (sn_runner r), (sn_dispatch r); cbn; intros [= Hf <-]; destruct (sn_ended r); cbn in *; try done;
    repeat case_match; done.
Qed.

Lemma reports_sign env intent localPartyID : reports_ok env (
  runErr ← runSignProtocol intent localPartyID (se_sign env);
  deliverSignResult intent (BuildResult Error (match se_trErr env with Some e => Some e | None => runErr end)
    (se_endErr env)) (se_deliver env)).
Proof.
  intros s r s'. unfold mbind, W_bind. destruct (runSignProtocol intent localPartyID (se_sign env) s) as [[runErr|] s1] eqn:E.
  - intros Hr. destruct (run_sign_request localPartyID intent (se_sign env) _ _ _ E) as (_ & n1 & Ht1 & Hf1).
    destruct (match se_trErr env with Some e => Some e | None => runErr end) as [e|] eqn:Ee.
    + destruct (reports_incomplete env _ (incomplete_deliver intent _ (se_deliver env) (BuildResult_failed e (se_endErr env))) _ _ _ Hr)
        as (n2 & Ht2 & Hf2).
      exists (n1 ++ n2)%list. rewrite Ht2, Ht1, app_assoc. split; [done|]. apply completed_app; [|done].
      eapply Forall_impl; [exact Hf1|]. by intros x ->.
    + assert (Htr : se_trErr env = None /\ runErr = None) by (by destruct (se_trErr env)). destruct Htr as [Htr ->].
      destruct (runSignProtocol_nil _ _ _ _ _ E) as [Hcore Ht1'].
      destruct (emits_deliver (fun e => match e with EvPublish _ => False | _ => True end) intent _ (se_deliver env)
                  (fun _ _ => I) (fun _ => I) I _ _ _ Hr) as (_ & n2 & Ht2 & Hf2).
      exists (EvRunSign (buildSignRequest intent localPartyID) :: n2). rewrite Ht2, Ht1', <- app_assoc. split; [done|].
      constructor; [done|]. eapply Forall_impl; [exact Hf2|]. intros [] Hx; cbn in Hx |- *; try done.
      intros _. split_and!; [done..|]. eexists. by left.
  - intros [= <- <-]. destruct (run_sign_request localPartyID intent (se_sign env) _ _ _ E) as (_ & n1 & Ht1 & Hf1).
    exists n1. split; [done|]. eapply Forall_impl; [exact Hf1|]. by intros e ->.
Qed.

Lemma reports_dkg env intent : reports_ok env (
  run ← match se_dkg env with
        | None => mret (Fail (ENew "dkg coordinator is required"))
        | Some r => _ ← emit (EvRunDKG intent); mret r
        end;
  publishDKGResult (se_publish env) intent run).
Proof.
  destruct (se_dkg env) as [[output|e]|] eqn:Ed.
  - intros s r s'. unfold mbind, W_bind, emit, mret, W_ret. intros Hr.
    destruct (emits_publish (fun e => match e with EvPublish job => buildDKGTerminalJob intent (Ok output) = Ok job
                | EvPost _ _ => False | _ => True end) (se_publish env) (buildDKGTerminalJob intent (Ok output))
                (fun _ Hj => Hj) I _ _ _ Hr) as (_ & n2 & Ht2 & Hf2).
    exists (EvRunDKG intent :: n2). rewrite Ht2. cbn [ss_trace]. rewrite <- app_assoc. split; [done|].
    constructor; [done|]. eapply Forall_impl; [exact Hf2|]. intros [] Hx; cbn in Hx |- *; try done.
    intros _. exists intent, output. split_and!; [done|by left|done].
  - apply (reports_bind env (emit (EvRunDKG intent)) (fun _ => publishClaimedDKGFailure (se_publish env) intent)).
    + apply reports_incomplete. solve_emits.
    + intros _. apply reports_incomplete, incomplete_failure.
  - apply (reports_incomplete env (publishClaimedDKGFailure (se_publish env) intent)), incomplete_failure.
Qed.

Lemma reports_pass_gate gate env intent : reports_ok env (pass_gate gate env intent).
Proof.
  intros s r s'. unfold pass_gate. destruct (authorizeSign _ _ _ _) as [[]|]; intros [= <- <-]; exists []; by rewrite app_nil_r.
Qed.

Lemma reports_run_claimed gate env kind intent localPartyID :
  reports_ok env (run_claimed Error gate env kind intent localPartyID).
Proof.
  unfold run_claimed. apply reports_bind; [by apply reports_incomplete, emits_ready|].
  intros [lifecycle|e]; [|apply reports_incomplete; eauto with session].
  destruct kind; [apply reports_dkg|]. apply reports_bind; [apply reports_pass_gate|].
  intros [[]|e]; [apply reports_sign|apply reports_incomplete; eauto with session].
Qed.

Lemma reports_body gate env intent localPartyID :
  reports_ok env (session_body Error scheme gate env intent localPartyID).
Proof.
  unfold session_body. destruct (classifyIntentKind _) as [kind|]; [|apply reports_incomplete; solve_emits].
  destruct (_ && _); [apply reports_incomplete; solve_emits|].
  apply reports_bind; [apply reports_incomplete; unfold claimWithRecovery; by apply emits_claim|]. intros [claim [e|]].
  - destruct (errors_is _ _); [apply reports_incomplete; eauto with session|].
    apply reports_incomplete. unfold claim_failed. solve_emits.
  - unfold run_claim. cbv zeta.
    destruct (negb _); [apply reports_incomplete; destruct kind; unfold hold; solve_emits|].
    destruct (validateClaimIdentity _ _ _ _); [|apply reports_incomplete; destruct kind; solve_emits].
    destruct (validateIntent _ _ _) as [[]|e]; [|apply reports_incomplete; solve_emits].
    destruct (negb _); [apply reports_incomplete; solve_emits|]. apply reports_run_claimed.
Qed.
End Reports.

(** * The permit *)

Definition dispatches (e : event) : bool := match e with EvDispatched => true | _ => false end.
Definition releases (e : event) : bool := match e with EvRelease => true | _ => false end.

(** The permit is held, and the flags say what was called. *)
Definition tidy (s : session_state) : Prop :=
  ss_released s = false /\ List.filter releases (ss_trace s) = []
  /\ List.length (List.filter dispatches (ss_trace s)) = if ss_dispatched s then 1%nat else 0%nat.
Definition keeps {A} (m : W A) : Prop := forall s r s', tidy s -> m s = (r, s') -> tidy s'.

Lemma keeps_ret {A} (a : A) : keeps (mret a).
Proof. by intros s r s' Hs [= <- <-]. Qed.
Lemma keeps_blocked {A} : keeps (blocked : W A).
Proof. by intros s r s' Hs [= <- <-]. Qed.
Lemma keeps_emit e : dispatches e = false -> releases e = false -> keeps (emit e).
Proof.
  intros Hd Hr s r s' (H1 & H2 & H3) [= <- <-]. unfold tidy. cbn. rewrite !List.filter_app, H2. cbn.
  by rewrite Hd, Hr, app_nil_r.
Qed.
Lemma keeps_notify : keeps notifyDispatch.
Proof.
  intros s r s' (H1 & H2 & H3). unfold notifyDispatch. destruct (ss_dispatched s) eqn:Ed; intros [= <- <-]; unfold tidy.
  - by rewrite Ed.
  - cbn. rewrite !List.filter_app, H2, length_app, H3. done.
Qed.
Lemma keeps_bind {A B} (m : W A) (k : A -> W B) : keeps m -> (forall a, keeps (k a)) -> keeps (m ≫= k).
Proof.
  intros Hm Hk s r s' Hs. unfold mbind, W_bind. destruct (m s) as [[a|] s1] eqn:E; intros Hr.
  - exact (Hk a _ _ _ (Hm _ _ _ Hs E) Hr).
  - injection Hr as <- <-. exact (Hm _ _ _ Hs E).
Qed.
#[export] Hint Resolve keeps_ret keeps_blocked keeps_notify : session.
Ltac solve_keeps := repeat first
  [ progress eauto with session
  | apply keeps_emit; done
  | apply keeps_bind; [|intros ?]
  | match goal with |- keeps (match ?x with _ => _ end) => destruct x end
  | match goal with |- keeps (if ?x then _ else _) => destruct x end ].

Section Permit.
Context `{Externals} `{TxCodecs} (Error : error -> string) (scheme : string).

Lemma keeps_deliver intent result script : keeps (deliverSignResult intent result script).
Proof.
  unfold deliverSignResult, hold. destruct (NewSignResultRequest result) as [request|]; [|solve_keeps].
  induction script as [|d script IH]; cbn [deliver_loop]; solve_keeps.
Qed.
Lemma keeps_publish publish job : keeps (publish_or_hold publish job).
Proof. unfold publish_or_hold, hold. solve_keeps. Qed.
Lemma keeps_fail_claimed env kind intent result : keeps (fail_claimed env kind intent result).
Proof. destruct kind; [apply keeps_publish|apply keeps_deliver]. Qed.
Lemma keeps_claim intent first uncertain script : keeps (claim_loop intent first uncertain script).
Proof. revert first uncertain. induction script as [|t script IH]; intros first uncertain; cbn [claim_loop]; solve_keeps. Qed.
Lemma keeps_ready intent script : keeps (waitForSessionReadiness intent script).
Proof. induction script as [|t script IH]; cbn [waitForSessionReadiness]; cbv zeta; solve_keeps. Qed.
Lemma keeps_pass_gate gate env intent : keeps (pass_gate gate env intent).
Proof. intros s r s' Hs. unfold pass_gate. destruct (authorizeSign _ _ _ _) as [[]|]; by intros [= <- <-]. Qed.
#[local] Hint Resolve keeps_deliver keeps_publish keeps_fail_claimed keeps_ready keeps_pass_gate : session.
Lemma keeps_run_claimed gate env kind intent localPartyID : keeps (run_claimed Error gate env kind intent localPartyID).
Proof. unfold run_claimed, runSignProtocol, publishDKGResult. cbv zeta. solve_keeps. Qed.
Lemma keeps_run_claim gate env kind intent claim localPartyID : keeps (run_claim Error scheme gate env kind intent claim localPartyID).
Proof. unfold run_claim, publishClaimedDKGFailure, hold. cbv zeta. pose proof keeps_run_claimed. solve_keeps. Qed.

(** The permit is released, once, and at most the notification came after it. *)
Definition released (s : session_state) : Prop :=
  ss_released s = true /\ ss_dispatched s = true
  /\ List.length (List.filter dispatches (ss_trace s)) = 1%nat
  /\ exists before after, ss_trace s = (before ++ EvRelease :: after)%list
     /\ List.filter releases before = [] /\ Forall (fun e => e = EvDispatched) after.

(** Releasing and notifying, in either order, ends the session. *)
Lemma release_then_notify s r s' : tidy s -> (_ ← release; notifyDispatch) s = (r, s') -> r = Some () /\ released s'.
Proof.
  intros (H1 & H2 & H3). unfold mbind, W_bind, release, notifyDispatch. rewrite H1. cbn [ss_dispatched ss_trace].
  destruct (ss_dispatched s) eqn:Ed; intros [= <- <-]; (split; [done|]); unfold released; cbn;
    rewrite ?List.filter_app, ?length_app, H3; cbn; split_and!; try done.
  - exists (ss_trace s), []. by repeat constructor.
  - exists (ss_trace s), [EvDispatched]. rewrite <- app_assoc. by repeat constructor.
Qed.
Lemma notify_then_release s r s' : tidy s -> (_ ← notifyDispatch; release) s = (r, s') -> r = Some () /\ released s'.
Proof.
  intros (H1 & H2 & H3). unfold mbind, W_bind, release, notifyDispatch.
  destruct (ss_dispatched s) eqn:Ed; cbn [ss_released]; rewrite ?H1; intros [= <- <-]; (split; [done|]); unfold released; cbn;
    rewrite ?List.filter_app, ?length_app, H3; cbn; split_and!; try done.
  - exists (ss_trace s), []. by repeat constructor.
  - exists (ss_trace s ++ [EvDispatched])%list, []. by rewrite List.filter_app, H2; repeat constructor.
Qed.
Lemma released_stays s r s' : released s -> (_ ← notifyDispatch; release) s = (r, s') -> r = Some () /\ s' = s.
Proof. intros (H1 & H2 & _). unfold mbind, W_bind, release, notifyDispatch. rewrite H2, H1. by intros [= <- <-]. Qed.

Lemma body_permit gate env intent localPartyID s r s' : tidy s ->
  session_body Error scheme gate env intent localPartyID s = (r, s') -> tidy s' \/ r = Some () /\ released s'.
Proof.
  intros Hs. unfold session_body. destruct (classifyIntentKind _) as [kind|]; [|by intros [= <- <-]; left].
  destruct (_ && _); [intros Hr; left; revert Hr; by apply (keeps_bind notifyDispatch); [apply keeps_notify|auto with session|]|].
  unfold mbind at 1, W_bind at 1. destruct (claimWithRecovery _ _ s) as [[[claim err]|] s1] eqn:Ec; unfold claimWithRecovery in Ec;
    pose proof (keeps_claim _ _ _ _ _ _ _ Hs Ec) as Hs1; [|intros [= <- <-]; by left].
  destruct err as [e|]; [|intros Hr; left; exact (keeps_run_claim _ _ _ _ _ _ _ _ _ Hs1 Hr)].
  destruct (errors_is e ErrSignClaimRejected); [intros Hr; left; exact (keeps_deliver _ _ _ _ _ _ Hs1 Hr)|].
  unfold claim_failed. match goal with |- (?x ≫= _) _ = _ -> _ => set (m := x) end. assert (Hm : keeps m) by (subst m; solve_keeps).
  unfold mbind at 1, W_bind at 1. destruct (m s1) as [[[]|] s2] eqn:Em; [|intros [= <- <-]; left; exact (Hm _ _ _ Hs1 Em)].
  intros Hr. right. exact (release_then_notify _ _ _ (Hm _ _ _ Hs1 Em) Hr).
Qed.
End Permit.

(** * Theorems *)

Section SessionTheorems.
Context `{Externals} `{TxCodecs} (Error : error -> string) (scheme : string).

(** The state a session starts in. *)
Definition session_start (w : world) : session_state :=
  {| ss_world := w; ss_dispatched := false; ss_released := false; ss_trace := [] |}.

(** (C1) End to end: whatever the backend, the clocks, the MPC core and the other users
    of the journal do, a session asks the core to sign only what is authorized.  The
    request is of an intent that is valid for the local party and whose approved,
    applied decision and bound execution digest are durably in the journal, now and in
    every later world, across faults and crashes. *)
Theorem session_signs_authorized j env intent localPartyID w r s' request w' :
  inv w -> (forall w, rtc jstep w (se_journal env w)) ->
  Forall (@benign_call _ (journal_store (j_directory j))) (se_gate env) ->
  runSessionWithClock Error scheme (Some (gate_of j)) env intent localPartyID (session_start w) = (r, s') ->
  EvRunSign request ∈ ss_trace s' -> rtc jstep (ss_world s') w' ->
  exists i a p auth, @authorized _ _ (journal_store (j_directory j)) w' i a p auth
  /\ intent_ok scheme i localPartyID /\ rq_Digest request = ip_Digest (in_Payload i)
  /\ rq_KeyID request = ip_KeyID (in_Payload i) /\ rq_Parties request = ip_Parties (in_Payload i).
Proof.
  intros Hi Hj Hg Hr Hq Hlater. unfold runSessionWithClock in Hr.
  destruct (signs_before scheme j localPartyID _ _ (signs_body Error scheme j localPartyID env Hj Hg intent)
              (fun _ => emits_bind no_run _ _ (emits_notify no_run I) (fun _ => emits_release no_run I)) (session_start w) _ _ Hi Hr)
    as (new & Ht & Hs).
  cbn [session_start ss_trace app] in Ht. rewrite Ht in Hq.
  destruct (Hs _ Hq) as (i & a & p & auth & Hau & Hi' & Hok & ->). exists i, a, p, auth.
  split; [|done]. by apply (authorized_later (H1 := journal_store (j_directory j)) (ss_world s') w').
Qed.

(** A session reports COMPLETED only for a finished protocol: a SIGN result only
    after the core was asked to sign and returned nil, with no transport error; a DKG
    result only after the coordinator ran and returned evidence, and then exactly of
    that evidence. *)
Theorem session_completed_sound gate env intent localPartyID w r s' :
  runSessionWithClock Error scheme gate env intent localPartyID (session_start w) = (r, s') ->
  (forall id result, EvPost id result ∈ ss_trace s' -> sr_status result <> "FAILED" ->
    sn_core (se_sign env) = None /\ se_trErr env = None /\ exists request, EvRunSign request ∈ ss_trace s')
  /\ (forall job, EvPublish job ∈ ss_trace s' -> job_status job <> "FAILED" -> exists claimed output,
    se_dkg env = Some (Ok output) /\ EvRunDKG claimed ∈ ss_trace s'
    /\ buildDKGTerminalJob claimed (Ok output) = Ok job).
Proof.
  intros Hr. assert (Hm : reports_ok env (runSessionWithClock Error scheme gate env intent localPartyID)).
  { unfold runSessionWithClock. apply reports_bind; [apply reports_body|]. intros _. apply reports_incomplete. solve_emits. }
  destruct (Hm _ _ _ Hr) as (new & Ht & Hf). cbn [session_start ss_trace app] in Ht. subst new.
  rewrite Forall_forall in Hf. split.
  - intros id result Hin. exact (Hf _ Hin).
  - intros job Hin. exact (Hf _ Hin).
Qed.


(** The permit spans the session: while a session has not returned its permit is
    held; when it returns, the permit has been released exactly once, after every claim,
    run, post and publication, and the scheduler has been notified exactly once. *)
Theorem session_permit gate env intent localPartyID w r s' :
  runSessionWithClock Error scheme gate env intent localPartyID (session_start w) = (r, s') ->
  match r with
  | None => EvRelease ∉ ss_trace s'
  | Some _ => List.length (List.filter dispatches (ss_trace s')) = 1%nat
      /\ exists before after, ss_trace s' = (before ++ EvRelease :: after)%list
         /\ EvRelease ∉ before /\ Forall (fun e => e = EvDispatched) after
  end.
Proof.
  intros Hr. assert (Ht : tidy (session_start w)) by done.
  assert (Hin : forall l, List.filter releases l = [] -> EvRelease ∉ l).
  { intros l Hl Hin. apply list_elem_of_In in Hin. assert (Hx : In EvRelease (List.filter releases l)) by (by apply List.filter_In).
    by rewrite Hl in Hx. }
  unfold runSessionWithClock in Hr. unfold mbind at 1, W_bind at 1 in Hr.
  destruct (session_body _ _ _ _ _ _ _) as [[[]|] s1] eqn:Eb;
    destruct (body_permit _ _ _ _ _ _ _ _ _ Ht Eb) as [Ht1|[E1 Hrel]]; try done.
  - destruct (notify_then_release _ _ _ Ht1 Hr) as [-> (_ & _ & Hd & b & a & ? & ? & ?)]. split; [done|]. exists b, a. auto.
  - destruct (released_stays _ _ _ Hrel Hr) as [-> ->]. destruct Hrel as (_ & _ & Hd & b & a & ? & ? & ?).
    split; [done|]. exists b, a. auto.
  - injection Hr as <- <-. apply Hin, Ht1.
Qed.
End SessionTheorems.

(** * A concrete session *)

#[local] Existing Instance sorting_externals.

Definition fixture_session : SessionLifecycle := {|
  sl_SessionID := "session-1"; sl_Status := "RUNNING"; StartedAt := Some (1000 * second)%Z;
  Deadline := (2000 * second)%Z; DeadlineZone := 0; ExecutionExpiresAt := Some (1300 * second)%Z |}.
Definition fixture_claim : ClaimResult := {|
  cr_Version := 2; cr_Approval := Some fixture_approval; cr_Prepared := Some fixture_prepared;
  cr_Session := fixture_session; cr_HTTPStatus := 200; cr_IntentID := "outgoing-1"; cr_SessionID := "session-1";
  cr_Type := "SIGN"; cr_Payload := fixture_payload; cr_Status := "CLAIMED"; cr_Deadline := (2000 * second)%Z;
  cr_DeadlineRaw := ""; cr_OrgID := ""; cr_KeyID := ""; cr_DescriptorBytes := ""; cr_DescriptorFingerprint := "";
  cr_ChainCode := "" |}.

(** The first claim is uncertain, the second succeeds; the session is running, the
    decision is applied while the gate waits, the core signs, and the result is
    posted twice. *)
Definition fixture_env : session_env :=
  let messages := Ok {| mr_Session := fixture_session; mr_Messages := [] |} in {|
  se_ctx := None;
  se_claims := [{| ct_ctx := None; ct_claim := zero_claim; ct_err := Some (ESent ErrClaimOutcomeUnknown); ct_wait := None |};
                {| ct_ctx := None; ct_claim := fixture_claim; ct_err := None; ct_wait := None |}];
  se_now := (1001 * second)%Z;
  se_ready := [{| rd_ctx := None; rd_poll := messages; rd_wall := (1002 * second)%Z; rd_armed := None; rd_wait := None |}];
  se_readyErr := None; se_journal := id; se_gate := gate_script; se_gateErr := None;
  se_sign := {| sn_ctx := None; sn_runner := None; sn_dispatch := None; sn_core := None; sn_ended := Finished;
                sn_trErr := None; sn_ctxErr := None |};
  se_dkg := None; se_trErr := None; se_endErr := None;
  se_deliver := [{| dl_post := Some (ENew "reset"); dl_poll := messages; dl_retry := true |};
                 {| dl_post := None; dl_poll := messages; dl_retry := false |}];
  se_publish := None |}.

Definition fixture_discovered : Intent := {|
  in_Version := 0; in_Approval := None; in_Prepared := None; in_Session := zero_session; in_CreatedAt := 0;
  in_DeadlineRaw := ""; in_DiscoveryStatus := "PENDING"; in_IntentID := "outgoing-1"; in_SessionID := "";
  in_Type := "SIGN"; in_ExpiresAt := zero_time; in_Payload := zero_payload |}.

Definition fixture_session_run : option unit * session_state :=
  runSessionWithClock (fun _ => "error") "bip32_secp256k1" (Some (gate_of fixture_journal)) fixture_env
    fixture_discovered "co-signer-primary" (session_start gate_world).

Definition event_name (e : event) : string :=
  match e with
  | EvClaim _ _ => "claim" | EvDispatched => "dispatched" | EvPoll _ => "poll" | EvRunSign _ => "sign"
  | EvRunDKG _ => "dkg" | EvPost _ r => "post " ++ sr_status r | EvPublish _ => "publish" | EvHold => "hold"
  | EvRelease => "release"
  end.
Lemma fixture_session_trace : (fixture_session_run.1, map event_name (ss_trace fixture_session_run.2)) =
  (Some (), ["claim"; "dispatched"; "claim"; "poll"; "sign"; "post COMPLETED"; "poll"; "post COMPLETED"; "release"]).
Proof. vm_compute. reflexivity. Qed.

Lemma ran_of_trace (run : option unit * session_state) names :
  (run.1, map event_name (ss_trace run.2)) = (Some (), names) -> "sign" ∈ names ->
  run = (Some (), run.2) /\ exists request, EvRunSign request ∈ ss_trace run.2.
Proof.
  destruct run as [r s']. cbn [fst snd]. intros [= -> <-] Hin. split; [done|].
  apply list_elem_of_fmap in Hin as (e & He & Hin). destruct e; try done. by exists request.
Qed.
Lemma fixture_session_ran : fixture_session_run = (Some (), fixture_session_run.2)
  /\ exists request, EvRunSign request ∈ ss_trace fixture_session_run.2.
Proof. apply (ran_of_trace _ _ fixture_session_trace). by repeat constructor. Qed.

Lemma session_signs_authorized_witness : exists i a p auth,
  fixture_session_run = (Some (), fixture_session_run.2)
  /\ @authorized _ _ (journal_store "/journal") (ss_world fixture_session_run.2) i a p auth.
Proof.
  destruct fixture_session_ran as (E & request & Hq).
  destruct (session_signs_authorized (fun _ => "error") "bip32_secp256k1" fixture_journal fixture_env fixture_discovered
    "co-signer-primary" gate_world (Some ()) fixture_session_run.2 request _ gate_world_inv (fun w => rtc_refl _ w) gate_script_benign E Hq (rtc_refl _ _))
    as (i & a & p & auth & Hau & _).
  exists i, a, p, auth. split; [exact E|exact Hau].
Defined.

Lemma session_completed_sound_witness : 
  fixture_session_run = (Some (), fixture_session_run.2)
  /\ forall id result, EvPost id result ∈ ss_trace fixture_session_run.2 -> sr_status result <> "FAILED" -> sn_core (se_sign fixture_env) = None.
Proof.
  destruct fixture_session_ran as (E & _). split; [exact E|]. intros id result Hin Hst.
  exact (proj1 (proj1 (session_completed_sound (fun _ => "error") "bip32_secp256k1" _ fixture_env fixture_discovered
    "co-signer-primary" gate_world (Some ()) fixture_session_run.2 E) id result Hin Hst)).
Defined.

Lemma session_permit_witness : 
  fixture_session_run = (Some (), fixture_session_run.2) /\ List.length (List.filter dispatches (ss_trace fixture_session_run.2)) = 1%nat.
Proof.
  destruct fixture_session_ran as (E & _). split; [exact E|].
  exact (proj1 (session_permit (fun _ => "error") "bip32_secp256k1" _ fixture_env fixture_discovered
    "co-signer-primary" gate_world (Some ()) fixture_session_run.2 E)).
Defined.
