(* ===== verification/Scheduler.v ===== *)
(** [internal/worker]: the scheduler and its permits (scheduler.go, permits.go).  The
    polling loop, the sessions it launches and the callers of [SetDKGAdmissionOpen] and
    [Wake] interleave; a step is one operation on shared state: a channel, the mutex
    with the in-flight set, or an atomic flag. *)
From stdpp Require Import base tactics option list strings numbers gmap relations.
From Stdlib Require Import ZArith Lia Ascii String.
From S2P Require Import Prelude GoText GoTime Monolith IntentValidation.

#[local] Open Scope string_scope.

(** * permits.go *)

(** A buffered channel of tokens: how many are in it, of how many. *)
Record permitPool := { pool_capacity : nat; pool_slots : nat }.
Definition newPermitPool (capacity : Z) : permitPool :=
  {| pool_capacity := Z.to_nat (if (capacity <? 1)%Z then 1 else capacity); pool_slots := 0 |}.
Definition tryAcquire (p : permitPool) : option permitPool :=
  if (pool_slots p <? pool_capacity p)%nat
  then Some {| pool_capacity := pool_capacity p; pool_slots := S (pool_slots p) |}
  else None.
(** The receive in [permitToken.release]. *)
Definition give_back (p : permitPool) : permitPool :=
  {| pool_capacity := pool_capacity p; pool_slots := pred (pool_slots p) |}.

(** * scheduler.go *)

Record SchedulerConfig := { SigningDisabled : bool; MinInterval : duration; MaxInterval : duration; factor_above_one : bool }.

(** [nextBackoff]; [scaled] is the floating-point product of the current interval and
    the backoff factor, as a duration. *)
Definition nextBackoff (current : duration) (cfg : SchedulerConfig) (scaled : duration -> duration) : duration :=
  let low := if (MinInterval cfg <=? 0)%Z then millisecond else MinInterval cfg in
  let current := if (current <=? 0)%Z then low else current in
  let cap d := if (0 <? MaxInterval cfg)%Z && (MaxInterval cfg <? d)%Z then MaxInterval cfg else d in
  let next := if factor_above_one cfg then scaled current else current in
  cap (if (next <? low)%Z then low else next).

(** A launched session: its intent and kind, the tokens of its lease it still holds,
    whether it has notified the loop, sent the wakeup of its release, still holds its
    reservation, and has returned. *)
Record job := {
  j_intent : string; j_kind : intentKind; j_general : bool; j_guard : bool; j_dispatched : bool;
  j_woke : bool; j_reserved : bool; j_done : bool;
}.

(** Where the loop is: in [select], in [GetPendingIntents], at the next intent of a
    batch, at [provisioningReady], [reserveIntentID], [tryAcquireDKG]'s guard, the
    general permit and the launch, in [waitForClaimDispatch], in [sessions.Wait], or
    returned.  The flag is [dkgConsidered]. *)
Inductive position :=
  | AtSelect | AtPoll
  | AtBatch (rest : list Intent) (considered : bool)
  | AtProvision (i : Intent) (rest : list Intent)
  | AtReserve (kind : intentKind) (i : Intent) (rest : list Intent) (considered : bool)
  | AtGuard (i : Intent) (rest : list Intent)
  | AtGeneral (kind : intentKind) (i : Intent) (rest : list Intent) (considered : bool)
  | AtWait (k : nat) (rest : list Intent) (considered : bool)
  | AtDrain | AtEnd.

(** The scheduler, with the number of batches and what was launched in which. *)
Record Scheduler := {
  general : permitPool; dkg : permitPool; inFlight : gset string; repollCh : bool;
  dkgAdmissionOpen : bool; cancelled : bool; loop : position; jobs : list job;
  batches : nat; launches : list (nat * intentKind);
}.

Definition set_loop (l : position) (s : Scheduler) : Scheduler :=
  Build_Scheduler (general s) (dkg s) (inFlight s) (repollCh s) (dkgAdmissionOpen s) (cancelled s) l (jobs s)
    (batches s) (launches s).
Definition set_pools (g d : permitPool) (s : Scheduler) : Scheduler :=
  Build_Scheduler g d (inFlight s) (repollCh s) (dkgAdmissionOpen s) (cancelled s) (loop s) (jobs s)
    (batches s) (launches s).
Definition set_inFlight (f : gset string) (s : Scheduler) : Scheduler :=
  Build_Scheduler (general s) (dkg s) f (repollCh s) (dkgAdmissionOpen s) (cancelled s) (loop s) (jobs s)
    (batches s) (launches s).
Definition set_repoll (b : bool) (s : Scheduler) : Scheduler :=
  Build_Scheduler (general s) (dkg s) (inFlight s) b (dkgAdmissionOpen s) (cancelled s) (loop s) (jobs s)
    (batches s) (launches s).
Definition set_jobs (l : list job) (s : Scheduler) : Scheduler :=
  Build_Scheduler (general s) (dkg s) (inFlight s) (repollCh s) (dkgAdmissionOpen s) (cancelled s) (loop s) l
    (batches s) (launches s).

Definition NewScheduler (maxConcurrent : Z) : Scheduler := {|
  general := newPermitPool maxConcurrent; dkg := newPermitPool 1; inFlight := ∅; repollCh := false;
  dkgAdmissionOpen := false; cancelled := false; loop := AtSelect; jobs := []; batches := 0; launches := [] |}.

(** [Wake] fills the one-place channel; [SetDKGAdmissionOpen] also wakes when it opens. *)
Definition Wake (s : Scheduler) : Scheduler := set_repoll true s.
Definition SetDKGAdmissionOpen (open : bool) (s : Scheduler) : Scheduler :=
  let s := Build_Scheduler (general s) (dkg s) (inFlight s) (repollCh s) open (cancelled s) (loop s) (jobs s)
             (batches s) (launches s) in
  if open then Wake s else s.

(** [reserveIntentID] and the release it returns; an empty id is not recorded. *)
Definition reserveIntentID (id : string) (f : gset string) : option (gset string) :=
  if id =s "" then Some f else if bool_decide (id ∈ f) then None else Some ({[id]} ∪ f).
Definition releaseIntent (id : string) (f : gset string) : gset string :=
  if id =s "" then f else f ∖ {[id]}.

(** The launch of a session that holds its permits and its reservation. *)
Definition launch (kind : intentKind) (i : Intent) (s : Scheduler) : Scheduler :=
  Build_Scheduler (general s) (dkg s) (inFlight s) (repollCh s) (dkgAdmissionOpen s) (cancelled s) (loop s)
    (jobs s ++ [{| j_intent := in_IntentID i; j_kind := kind; j_general := true;
                   j_guard := bool_decide (kind = intentKindDKG); j_dispatched := false; j_woke := false;
                   j_reserved := true; j_done := false |}])
    (batches s) (launches s ++ [(batches s, kind)]).

(** One iteration of the loop of [dispatchBatch], up to the first shared operation:
    the context, the kind, and for a DKG the admission flag. *)
Definition batch_next (cfg : SchedulerConfig) (i : Intent) (rest : list Intent) (considered : bool) (s : Scheduler) : position :=
  if cancelled s then AtSelect
  else match classifyIntentKind (in_Type i) with
  | None => AtBatch rest considered
  | Some intentKindDKG =>
      if considered then AtBatch rest considered
      else if negb (dkgAdmissionOpen s) then AtBatch rest true
      else AtProvision i rest
  | Some intentKindSIGN =>
      if SigningDisabled cfg then AtBatch rest considered else AtReserve intentKindSIGN i rest considered
  end.

(** The case that a [select] takes; any ready one may be taken. *)
Inductive choice := ByContext | ByTimer | ByChannel.

(** A step of the loop.  [ready] is what [provisioningReady] answers and [found] what
    [GetPendingIntents] answers ([None] for an error). *)
Definition loop_step (cfg : SchedulerConfig) (ready : bool) (c : choice) (found : option (list Intent)) (s : Scheduler)
    : option Scheduler :=
  match loop s with
  | AtSelect =>
      match c with
      | ByContext => if cancelled s then Some (set_loop AtDrain s) else None
      | ByTimer => Some (set_loop AtPoll s)
      | ByChannel => if repollCh s then Some (set_loop AtPoll (set_repoll false s)) else None
      end
  | AtPoll =>
      match found with
      | None | Some [] => Some (set_loop AtSelect s)
      | Some intents =>
          Some (Build_Scheduler (general s) (dkg s) (inFlight s) (repollCh s) (dkgAdmissionOpen s) (cancelled s)
                  (AtBatch intents false) (jobs s) (S (batches s)) (launches s))
      end
  | AtBatch [] _ => Some (set_loop AtSelect s)
  | AtBatch (i :: rest) considered => Some (set_loop (batch_next cfg i rest considered s) s)
  | AtProvision i rest =>
      Some (set_loop (if ready then AtReserve intentKindDKG i rest true else AtBatch rest true) s)
  | AtReserve kind i rest considered =>
      match reserveIntentID (in_IntentID i) (inFlight s) with
      | None => Some (set_loop (AtBatch rest considered) s)
      | Some f =>
          Some (set_loop (match kind with
                          | intentKindDKG => AtGuard i rest
                          | intentKindSIGN => AtGeneral kind i rest considered
                          end) (set_inFlight f s))
      end
  | AtGuard i rest =>
      match tryAcquire (dkg s) with
      | None => Some (set_loop (AtBatch rest true) (set_inFlight (releaseIntent (in_IntentID i) (inFlight s)) s))
      | Some d => Some (set_loop (AtGeneral intentKindDKG i rest true) (set_pools (general s) d s))
      end
  | AtGeneral kind i rest considered =>
      match tryAcquire (general s) with
      | None =>
          let d := match kind with intentKindDKG => give_back (dkg s) | intentKindSIGN => dkg s end in
          Some (set_loop (AtBatch rest considered)
                  (set_inFlight (releaseIntent (in_IntentID i) (inFlight s)) (set_pools (general s) d s)))
      | Some g =>
          Some (set_loop (AtWait (List.length (jobs s)) rest considered) (launch kind i (set_pools g (dkg s) s)))
      end
  | AtWait k rest considered =>
      match c with
      | ByContext => if cancelled s then Some (set_loop AtSelect s) else None
      | ByTimer => None
      | ByChannel =>
          match jobs s !! k with
          | Some j => if j_dispatched j then Some (set_loop (AtBatch rest considered) s) else None
          | None => None
          end
      end
  | AtDrain => if forallb j_done (jobs s) then Some (set_loop AtEnd s) else None
  | AtEnd => None
  end.

(** What a session does to the shared state: it notifies the loop; [Release] gives back
    the general token, then the guard, then wakes; after both, the reservation is
    dropped and the session ends. *)
Inductive job_op := JNotify | JGeneral | JGuard | JWake | JUnreserve | JDone.

Definition job_next (o : job_op) (j : job) : option job :=
  let '(Build_job id kind g d n w r e) := j in
  match o with
  | JNotify => if n then None else Some (Build_job id kind g d true w r e)
  | JGeneral => if g then Some (Build_job id kind false d n w r e) else None
  | JGuard => if negb g && d then Some (Build_job id kind g false n w r e) else None
  | JWake => if negb g && negb d && negb w then Some (Build_job id kind g d n true r e) else None
  | JUnreserve => if n && w && r then Some (Build_job id kind g d n w false e) else None
  | JDone => if negb r && negb e then Some (Build_job id kind g d n w r true) else None
  end.

Definition job_step (o : job_op) (k : nat) (s : Scheduler) : option Scheduler :=
  j ← jobs s !! k;
  j' ← job_next o j;
  let s' := set_jobs (<[k := j']> (jobs s)) s in
  Some (match o with
        | JNotify | JDone => s'
        | JGeneral => set_pools (give_back (general s)) (dkg s) s'
        | JGuard => set_pools (general s) (give_back (dkg s)) s'
        | JWake => Wake s'
        | JUnreserve => set_inFlight (releaseIntent (j_intent j) (inFlight s)) s'
        end).

(** A step of the system. *)
Inductive sstep (cfg : SchedulerConfig) : Scheduler -> Scheduler -> Prop :=
  | sstep_loop ready c found s s' : loop_step cfg ready c found s = Some s' -> sstep cfg s s'
  | sstep_job o k s s' : job_step o k s = Some s' -> sstep cfg s s'
  | sstep_admission open s : sstep cfg s (SetDKGAdmissionOpen open s)
  | sstep_wake s : sstep cfg s (Wake s)
  | sstep_cancel s : sstep cfg s (Build_Scheduler (general s) (dkg s) (inFlight s) (repollCh s)
      (dkgAdmissionOpen s) true (loop s) (jobs s) (batches s) (launches s)).
