(* ===== verification/SchedulerProofs.v ===== *)
(** Proofs about the scheduler: permits bound the running sessions, no intent is worked
    on twice at once, DKG waits for admission, and [Run] drains its sessions. *)
From stdpp Require Import base tactics option list strings numbers gmap relations.
From Stdlib Require Import ZArith Lia Ascii String.
From S2P Require Import Prelude GoText GoTime Monolith IntentValidation Scheduler.

#[local] Open Scope string_scope.

(** * Counting sessions *)

Fixpoint count (f : job -> bool) (l : list job) : nat :=
  match l with [] => 0 | j :: l => Nat.b2n (f j) + count f l end.

Lemma count_app f l l' : count f (l ++ l') = (count f l + count f l')%nat.
Proof. induction l as [|x l IH]; cbn; [done|]. rewrite IH. lia. Qed.

Lemma count_insert f l k j j' : l !! k = Some j ->
  (count f (<[k := j']> l) + Nat.b2n (f j) = count f l + Nat.b2n (f j'))%nat.
Proof.
  revert k. induction l as [|x l IH]; intros [|k] Hk; simpl in Hk |- *; try done.
  - injection Hk as ->. simpl. lia.
  - specialize (IH _ Hk). lia.
Qed.

Lemma count_member f l k j : l !! k = Some j -> f j = true -> (1 <= count f l)%nat.
Proof.
  revert k. induction l as [|x l IH]; intros [|k] Hk Hf; cbn in Hk |- *; try done.
  - injection Hk as ->. rewrite Hf. cbn. lia.
  - specialize (IH _ Hk Hf). lia.
Qed.

Lemma count_two f l k k' j j' : l !! k = Some j -> l !! k' = Some j' -> f j = true -> f j' = true ->
  (count f l <= 1)%nat -> k = k'.
Proof.
  revert k k'. induction l as [|x l IH]; intros [|k] [|k'] Hk Hk' Hf Hf' Hc; cbn in Hk, Hk', Hc; try done.
  - injection Hk as ->. pose proof (count_member f l k' j' Hk' Hf'). rewrite Hf in Hc. cbn in Hc. lia.
  - injection Hk' as ->. pose proof (count_member f l k j Hk Hf). rewrite Hf' in Hc. cbn in Hc. lia.
  - f_equal. apply IH; try done. lia.
Qed.

(** * The invariant *)

(** What the loop itself holds: the DKG guard, and the reservation of an intent. *)
Definition guard_held (l : position) : nat :=
  match l with AtGeneral intentKindDKG _ _ _ => 1 | _ => 0 end.
Definition reservation (id : string) (l : position) : nat :=
  match l with
  | AtGuard i _ | AtGeneral _ i _ _ => Nat.b2n (in_IntentID i =s id)
  | _ => 0
  end.
Definition reserves (id : string) (j : job) : bool := j_reserved j && (j_intent j =s id).

(** The order in which a session gives things back. *)
Definition job_wf (j : job) : Prop :=
  (j_guard j = true -> j_kind j = intentKindDKG)
  /\ (j_kind j = intentKindDKG -> j_general j = true -> j_guard j = true)
  /\ (j_woke j = true -> j_general j = false /\ j_guard j = false)
  /\ (j_reserved j = false -> j_woke j = true)
  /\ (j_done j = true -> j_reserved j = false).

Record sched_inv (s : Scheduler) : Prop := {
  inv_general : pool_slots (general s) = count j_general (jobs s);
  inv_general_cap : (pool_slots (general s) <= pool_capacity (general s))%nat;
  inv_dkg : pool_slots (dkg s) = (count j_guard (jobs s) + guard_held (loop s))%nat;
  inv_dkg_cap : (pool_slots (dkg s) <= pool_capacity (dkg s))%nat /\ pool_capacity (dkg s) = 1%nat;
  inv_jobs : Forall job_wf (jobs s);
  inv_ids id : id <> "" -> (count (reserves id) (jobs s) + reservation id (loop s))%nat
    = Nat.b2n (bool_decide (id ∈ inFlight s));
}.

Lemma sched_inv_new maxConcurrent : sched_inv (NewScheduler maxConcurrent).
Proof.
  split; cbn; try done; try lia.
Qed.

(** The loop moves without changing what it holds. *)
Lemma inv_set_loop l s : guard_held l = guard_held (loop s) -> (forall id, reservation id l = reservation id (loop s)) ->
  sched_inv s -> sched_inv (set_loop l s).
Proof. intros Hg Hr [H1 H2 H3 H4 H5 H6]. split; cbn; try done; [by rewrite Hg|]. intros id Hid. rewrite Hr. auto. Qed.

Lemma inv_flags s b o c n : sched_inv s -> sched_inv (Build_Scheduler (general s) (dkg s) (inFlight s) b o c (loop s) (jobs s) n (launches s)).
Proof. by intros [H1 H2 H3 H4 H5 H6]. Qed.

Lemma releaseIntent_in id x f : id <> "" ->
  bool_decide (id ∈ releaseIntent x f) = bool_decide (id ∈ f) && negb (x =s id).
Proof.
  intros Hid. unfold releaseIntent. destruct (String.eqb_spec x "") as [-> | Hx].
  - destruct (String.eqb_spec "" id); [congruence|]. by rewrite andb_true_r.
  - case_bool_decide as H1; case_bool_decide as H2; destruct (String.eqb_spec x id); cbn; try done; set_solver.
Qed.
Lemma reserveIntentID_in id x f f' : reserveIntentID x f = Some f' -> id <> "" ->
  Nat.b2n (bool_decide (id ∈ f')) = (Nat.b2n (bool_decide (id ∈ f)) + Nat.b2n (x =s id))%nat.
Proof.
  unfold reserveIntentID. destruct (String.eqb_spec x "") as [-> | Hx].
  - intros [= <-] Hid. destruct (String.eqb_spec "" id); [congruence|]. cbn. lia.
  - case_bool_decide as Hin; [done|]. intros [= <-] Hid.
    case_bool_decide as H1; case_bool_decide as H2; destruct (String.eqb_spec x id); cbn; try done; set_solver.
Qed.

Lemma tryAcquire_Some p p' : tryAcquire p = Some p' ->
  pool_slots p' = S (pool_slots p) /\ pool_capacity p' = pool_capacity p /\ (pool_slots p < pool_capacity p)%nat.
Proof. unfold tryAcquire. destruct (Nat.ltb_spec (pool_slots p) (pool_capacity p)); [|done]. intros [= <-]. cbn. lia. Qed.

(** Dropping the loop's reservation of [i]. *)
Lemma drop_reservation i jobs f id n : id <> "" ->
  (count (reserves id) jobs + Nat.b2n (in_IntentID i =s id))%nat = Nat.b2n (bool_decide (id ∈ f)) -> n = 0%nat ->
  (count (reserves id) jobs + n)%nat = Nat.b2n (bool_decide (id ∈ releaseIntent (in_IntentID i) f)).
Proof.
  intros Hid Hc ->. rewrite releaseIntent_in by done.
  destruct (in_IntentID i =s id), (bool_decide (id ∈ f)); cbn in *; lia.
Qed.

Lemma inv_loop cfg ready c found s s' : sched_inv s -> loop_step cfg ready c found s = Some s' -> sched_inv s'.
Proof.
  intros Hs. pose proof Hs as [H1 H2 H3 [H4 H4'] H5 H6]. unfold loop_step.
  destruct (loop s) as [| |[|i rest] considered|i rest|kind i rest considered|i rest|kind i rest considered|k rest considered| |] eqn:El in H3, H6 |- *; cbn [guard_held reservation] in H3, H6.
  - destruct c; [destruct (cancelled s)|..|destruct (repollCh s)]; intros [= <-];
      apply inv_set_loop; cbn; rewrite ?El; try done. by apply inv_flags.
  - destruct found as [[|i l]|]; intros [= <-]; try (apply inv_set_loop; cbn; by rewrite ?El).
    by split.
  - intros [= <-]. apply inv_set_loop; cbn; by rewrite ?El.
  - intros [= <-]. apply inv_set_loop; try done; rewrite El; unfold batch_next; intros; repeat case_match; done.
  - intros [= <-]. apply inv_set_loop; try done; rewrite El; intros; by destruct ready.
  - destruct (reserveIntentID _ _) as [f|] eqn:Ef; intros [= <-]; [|apply inv_set_loop; cbn; by rewrite ?El].
    split; cbn; try done; [rewrite H3; by destruct kind|]. intros id Hid.
    rewrite (reserveIntentID_in id _ _ _ Ef Hid), <- H6 by done. destruct kind; cbn; lia.
  - destruct (tryAcquire (dkg s)) as [d|] eqn:Ed; intros [= <-].
    + apply tryAcquire_Some in Ed as (E1 & E2 & E3). split; cbn; try done; try (cbn in H3; lia).
    + split; cbn; try done. intros id Hid. eapply drop_reservation; [done|by apply H6|done].
  - destruct (tryAcquire (general s)) as [g|] eqn:Eg; intros [= <-].
    + apply tryAcquire_Some in Eg as (E1 & E2 & E3). split; cbn; try done; try (rewrite ?count_app; cbn; lia).
      * rewrite count_app. cbn [count]. rewrite H3. destruct kind; cbn [j_guard guard_held];
          [rewrite bool_decide_eq_true_2 by done|rewrite bool_decide_eq_false_2 by done]; cbn; lia.
      * apply Forall_app. split; [done|]. apply Forall_singleton. unfold job_wf. cbn. destruct kind; naive_solver.
      * intros id Hid. rewrite count_app, <- H6 by done. cbn. lia.
    + split; cbn; try done.
      * destruct kind; cbn; lia.
      * destruct kind; cbn; lia.
      * intros id Hid. eapply drop_reservation; [done|by apply H6|done].
  - destruct c; [destruct (cancelled s)|..|destruct (jobs s !! k) as [j|]; [destruct (j_dispatched j)|]]; intros [= <-];
      apply inv_set_loop; cbn; by rewrite ?El.
  - destruct (forallb j_done (jobs s)); intros [= <-]. apply inv_set_loop; cbn; by rewrite ?El.
  - done.
Qed.

Lemma inv_job o k s s' : sched_inv s -> job_step o k s = Some s' -> sched_inv s'.
Proof.
  intros [H1 H2 H3 [H4 H4'] H5 H6]. unfold job_step. destruct (jobs s !! k) as [j|] eqn:Ej; [|done]. cbn [mbind option_bind].
  destruct (job_next o j) as [j'|] eqn:En; [|done]. cbn [mbind option_bind]. intros [= <-].
  pose proof (Forall_lookup_1 _ _ _ _ H5 Ej) as Hwf.
  pose proof (count_insert j_general _ _ _ j' Ej) as Cg. pose proof (count_insert j_guard _ _ _ j' Ej) as Cd.
  pose proof (fun id => count_insert (reserves id) _ _ _ j' Ej) as Cr.
  assert (Hwf' : job_wf j').
  { destruct Hwf as (W1 & W2 & W3 & W4 & W5). destruct j, o; cbn in *; repeat case_match; simplify_eq; split_bools;
      unfold job_wf; cbn; naive_solver. }
  assert (Hjobs : Forall job_wf (<[k := j']> (jobs s))) by (by apply Forall_insert).
  assert (Hid : forall id, id <> "" -> o <> JUnreserve -> count (reserves id) (<[k := j']> (jobs s)) = count (reserves id) (jobs s)).
  { intros id _ Ho. specialize (Cr id). assert (reserves id j' = reserves id j) as E; [|rewrite E in Cr; lia].
    destruct j, o; cbn in *; repeat case_match; simplify_eq; done. }
  destruct o; destruct j as [name kind g d n w r e]; cbn in En; repeat case_match; simplify_eq; split_bools; subst; cbn in Cg, Cd; split; cbn;
    try done; try lia; try (intros id Hne; rewrite Hid by done; by apply H6).
  intros id Hne. rewrite releaseIntent_in by done. specialize (Cr id). specialize (H6 id Hne).
  unfold reserves in Cr at 2 4. cbn in Cr. destruct (name =s id), (bool_decide (id ∈ inFlight s)); cbn in *; lia.
Qed.

Lemma inv_step cfg s s' : sched_inv s -> sstep cfg s s' -> sched_inv s'.
Proof.
  intros Hs Hstep. destruct Hstep as [ready c found s s' Hl|o k s s' Hj|open s|s|s].
  - by eapply inv_loop.
  - by eapply inv_job.
  - destruct open; exact (inv_flags s _ _ _ _ Hs).
  - exact (inv_flags s _ _ _ _ Hs).
  - exact (inv_flags s _ _ _ _ Hs).
Qed.

(** * What was launched *)

(** The batches in which a DKG was launched, newest last. *)
Definition dkg_of (nk : nat * intentKind) : option nat :=
  match nk.2 with intentKindDKG => Some nk.1 | intentKindSIGN => None end.
Definition dkg_batches (s : Scheduler) : list nat := omap dkg_of (launches s).

(** The loop may still launch a DKG in this batch, or is about to. *)
Definition dkg_unlaunched (l : position) : bool :=
  match l with
  | AtBatch _ considered => negb considered
  | AtProvision _ _ | AtGuard _ _ | AtReserve intentKindDKG _ _ _ | AtGeneral intentKindDKG _ _ _ => true
  | AtReserve intentKindSIGN _ _ considered | AtGeneral intentKindSIGN _ _ considered | AtWait _ _ considered => negb considered
  | _ => false
  end.
(** The loop holds a DKG that passed the admission check. *)
Definition dkg_admitted (l : position) : bool :=
  match l with
  | AtProvision _ _ | AtGuard _ _ | AtReserve intentKindDKG _ _ _ | AtGeneral intentKindDKG _ _ _ => true
  | _ => false
  end.
Definition sign_taken (l : position) : bool :=
  match l with AtReserve intentKindSIGN _ _ _ | AtGeneral intentKindSIGN _ _ _ => true | _ => false end.

Definition dkg_marked (l : position) : bool :=
  match l with
  | AtReserve intentKindDKG _ _ considered | AtGeneral intentKindDKG _ _ considered => considered
  | _ => true
  end.

Record launch_inv (cfg : SchedulerConfig) (opened : bool) (s : Scheduler) : Prop := {
  li_past : Forall (fun n => n <= batches s)%nat (dkg_batches s);
  li_now : dkg_unlaunched (loop s) = true -> Forall (fun n => n < batches s)%nat (dkg_batches s);
  li_once : NoDup (dkg_batches s);
  li_admission : opened = false -> dkgAdmissionOpen s = false /\ dkg_batches s = [] /\ dkg_admitted (loop s) = false;
  li_marked : dkg_marked (loop s) = true;
  li_sign : SigningDisabled cfg = true -> Forall (fun nk => nk.2 = intentKindDKG) (launches s) /\ sign_taken (loop s) = false;
}.

(** A step that launches nothing: the new position may launch a DKG only if the old
    one could, and takes up no more than the old one, unless admission was read. *)
Lemma launch_move cfg opened s s' : launch_inv cfg opened s ->
  batches s' = batches s -> launches s' = launches s -> dkgAdmissionOpen s' = dkgAdmissionOpen s ->
  (dkg_unlaunched (loop s') = true -> dkg_unlaunched (loop s) = true) ->
  (dkg_admitted (loop s') = true -> dkg_admitted (loop s) = true \/ dkgAdmissionOpen s = true) ->
  (sign_taken (loop s') = true -> sign_taken (loop s) = true \/ SigningDisabled cfg = false) ->
  (dkg_marked (loop s) = true -> dkg_marked (loop s') = true) ->
  launch_inv cfg opened s'.
Proof.
  intros [L1 L2 L3 L4 L5 L6] Eb El Eo Hu Ha Hs Hm. unfold dkg_batches in *. split; unfold dkg_batches; rewrite ?Eb, ?El, ?Eo; auto.
  - intros Hop. destruct (L4 Hop) as (? & ? & Hn). split_and!; try done.
    destruct (dkg_admitted (loop s')) eqn:E; [|done]. destruct (Ha eq_refl) as [?|?]; congruence.
  - intros Hd. destruct (L6 Hd) as [? Hn]. split; [done|].
    destruct (sign_taken (loop s')) eqn:E; [|done]. destruct (Hs eq_refl) as [?|?]; congruence.
Qed.

Lemma launch_loop cfg opened ready c found s s' : launch_inv cfg opened s ->
  loop_step cfg ready c found s = Some s' -> launch_inv cfg opened s'.
Proof.
  intros Hl. unfold loop_step.
  destruct (loop s) as [| |[|i rest] considered|i rest|kind i rest considered|i rest|kind i rest considered|k rest considered| |] eqn:El.
  - destruct c; [destruct (cancelled s)|..|destruct (repollCh s)]; intros [= <-]; by apply (launch_move cfg opened s).
  - destruct found as [[|i l]|]; intros [= <-]; try by apply (launch_move cfg opened s).
    destruct Hl as [L1 L2 L3 L4 L5 L6]. split; cbn; auto.
    + eapply Forall_impl; [exact L1|]. cbn. lia.
    + intros _. eapply Forall_impl; [exact L1|]. cbn. lia.
    + intros Ho. by destruct (L4 Ho) as (? & ? & _).
    + intros Hd. by destruct (L6 Hd).
  - intros [= <-]. by apply (launch_move cfg opened s).
  - intros [= <-]. apply (launch_move cfg opened s); try done; cbn; rewrite El; unfold batch_next; repeat case_match; cbn; auto;
      split_bools; try done; auto.
  - intros [= <-]. apply (launch_move cfg opened s); try done; cbn; rewrite El; destruct ready; cbn; auto; try done.
  - destruct (reserveIntentID _ _); intros [= <-]; apply (launch_move cfg opened s); try done; cbn; rewrite El; destruct kind; cbn; auto; try done.
    all: destruct considered; cbn; auto; done.
  - destruct (tryAcquire (dkg s)); intros [= <-]; apply (launch_move cfg opened s); try done; cbn; rewrite El; cbn; auto; done.
  - destruct (tryAcquire (general s)); intros [= <-].
    + destruct Hl as [L1 L2 L3 L4 L5 L6]. rewrite El in L2, L4, L5, L6.
      unfold dkg_batches in *. destruct kind; cbn in L2, L4, L5, L6; subst; split; unfold dkg_batches; cbn;
        rewrite ?omap_app; cbn; rewrite ?app_nil_r; auto; try done.
      * apply Forall_app. split; [done|]. by repeat constructor.
      * apply NoDup_app. split_and!; [done|..|by apply NoDup_singleton].
        intros n Hn ->%list_elem_of_singleton. specialize (L2 eq_refl). rewrite Forall_forall in L2. specialize (L2 _ Hn). lia.
      * intros Hop. by destruct (L4 Hop) as (_ & _ & ?).
      * intros Hd. destruct (L6 Hd). split; [|done]. apply Forall_app. split; [done|]. by repeat constructor.
      * intros Hd. by destruct (L6 Hd).
    + apply (launch_move cfg opened s); try done; cbn; rewrite El; destruct kind; cbn; auto; try done.
  - destruct c; [destruct (cancelled s)|..|destruct (jobs s !! k) as [j|]; [destruct (j_dispatched j)|]]; intros [= <-];
      apply (launch_move cfg opened s); try done; cbn; rewrite El; cbn; auto; done.
  - destruct (forallb j_done (jobs s)); intros [= <-]. by apply (launch_move cfg opened s).
  - done.
Qed.

(** Runs from a new scheduler, with whether DKG admission has ever been open. *)
Inductive runs (cfg : SchedulerConfig) (maxConcurrent : Z) : bool -> Scheduler -> Prop :=
  | runs_new : runs cfg maxConcurrent false (NewScheduler maxConcurrent)
  | runs_step opened s s' : runs cfg maxConcurrent opened s -> sstep cfg s s' ->
      runs cfg maxConcurrent (opened || dkgAdmissionOpen s') s'.

Lemma launch_opened cfg opened s : launch_inv cfg opened s -> launch_inv cfg true s.
Proof. by intros [L1 L2 L3 L4 L5 L6]. Qed.

Lemma launch_step cfg opened s s' : launch_inv cfg opened s -> sstep cfg s s' ->
  launch_inv cfg (opened || dkgAdmissionOpen s') s'.
Proof.
  intros Hl Hstep.
  assert (Hkeep : forall s', launch_inv cfg opened s' -> launch_inv cfg (opened || dkgAdmissionOpen s') s').
  { intros t Ht. destruct opened; [done|]. cbn. destruct (dkgAdmissionOpen t) eqn:E; [by eapply launch_opened|done]. }
  destruct Hstep as [ready c found s s' Hs|o k s s' Hs|open s|s|s]; try (apply Hkeep, (launch_move cfg opened s); cbn; by auto).
  - apply Hkeep. by eapply launch_loop.
  - apply Hkeep. unfold job_step in Hs. destruct (jobs s !! k) as [j|]; [|done]. cbn in Hs.
    destruct (job_next o j); [|done]. cbn in Hs. destruct o; injection Hs as <-; apply (launch_move cfg opened s); cbn; auto.
  - destruct open; cbn.
    + rewrite orb_true_r. apply launch_opened in Hl. by destruct Hl.
    + rewrite orb_false_r. destruct Hl as [L1 L2 L3 L4 L5 L6]. split; cbn; auto.
      intros Ho. by destruct (L4 Ho) as (_ & ? & ?).
Qed.

Lemma tryAcquire_capacity p p' : tryAcquire p = Some p' -> pool_capacity p' = pool_capacity p.
Proof. by intros (_ & ? & _)%tryAcquire_Some. Qed.

Lemma capacity_step cfg s s' : sstep cfg s s' -> pool_capacity (general s') = pool_capacity (general s).
Proof.
  intros [ready c found t t' Hs|o k t t' Hs|open t|t|t]; try done; [| |by destruct open].
  - unfold loop_step in Hs. repeat (case_match; try discriminate Hs); injection Hs as <-; cbn; try done; by eapply tryAcquire_capacity.
  - unfold job_step in Hs. destruct (jobs t !! k) as [j|]; [|done]. cbn in Hs. destruct (job_next o j); [|done].
    cbn in Hs. destruct o; by injection Hs as <-.
Qed.

(** [Run] returns only through [sessions.Wait], and a session that has ended stays so. *)
Lemma end_step cfg s s' : sstep cfg s s' -> (loop s = AtEnd -> Forall (fun j => j_done j = true) (jobs s)) ->
  loop s' = AtEnd -> Forall (fun j => j_done j = true) (jobs s').
Proof.
  intros [ready c found t t' Hs|o k t t' Hs|open t|t|t] Hend; try done; [| |by destruct open].
  - unfold loop_step in Hs. destruct (loop t) as [| |[|i rest] considered|i rest|kind i rest considered|i rest|kind i rest considered|k rest considered| |];
      try done; repeat (case_match; try discriminate Hs); try (injection Hs as <-; cbn; unfold batch_next; repeat case_match; done).
    injection Hs as <-. intros _. cbn. apply Forall_forall. intros j Hj. apply list_elem_of_In in Hj.
    by apply (proj1 (forallb_forall j_done (jobs t)) ltac:(assumption)).
  - unfold job_step in Hs. destruct (jobs t !! k) as [j|] eqn:Ej; [|done]. cbn in Hs. destruct (job_next o j) as [j'|] eqn:En; [|done].
    cbn in Hs. assert (Hl : loop t' = loop t /\ jobs t' = <[k := j']> (jobs t)) by (destruct o; by injection Hs as <-).
    destruct Hl as [-> ->]. intros Hl. specialize (Hend Hl). apply Forall_insert; [done|].
    pose proof (Forall_lookup_1 _ _ _ _ Hend Ej) as Hd. destruct j, o; cbn in *; repeat case_match; simplify_eq; done.
Qed.

Lemma runs_inv cfg maxConcurrent opened s : runs cfg maxConcurrent opened s ->
  sched_inv s /\ launch_inv cfg opened s /\ pool_capacity (general s) = pool_capacity (newPermitPool maxConcurrent)
  /\ (loop s = AtEnd -> Forall (fun j => j_done j = true) (jobs s)).
Proof.
  induction 1 as [|opened s s' _ (IH1 & IH2 & IH3 & IH4) Hs].
  - split_and!; [apply sched_inv_new| |done|done]. split; cbn; try done; constructor.
  - split_and!; [by eapply inv_step|by eapply launch_step|..].
    + rewrite (capacity_step cfg s s' Hs). done.
    + by apply (end_step cfg s s').
Qed.

(** * Theorems *)

(** (C26) In every interleaving of the loop, the sessions and the callers: at most
    [maxConcurrent] sessions (at least one) hold a general permit, at most one of them is
    a DKG, a session keeps its intent reserved as long as it holds a permit, and no two
    sessions hold the same intent. *)
Theorem scheduler_exclusive cfg maxConcurrent opened s :
  runs cfg maxConcurrent opened s ->
  (Z.of_nat (count j_general (jobs s)) <= Z.max 1 maxConcurrent)%Z
  /\ (forall k k' j j', jobs s !! k = Some j -> jobs s !! k' = Some j' -> j_general j = true -> j_general j' = true ->
      j_kind j = intentKindDKG -> j_kind j' = intentKindDKG -> k = k')
  /\ (forall j, j ∈ jobs s -> j_general j = true -> j_reserved j = true)
  /\ (forall k k' j j', jobs s !! k = Some j -> jobs s !! k' = Some j' -> j_reserved j = true -> j_reserved j' = true ->
      j_intent j = j_intent j' -> j_intent j <> "" -> k = k').
Proof.
  intros Hr. destruct (runs_inv _ _ _ _ Hr) as ([H1 H2 H3 [H4 H4'] H5 H6] & _ & Hcap & _). split_and!.
  - rewrite <- H1. rewrite Hcap in H2. cbn in H2. destruct (Z.ltb_spec maxConcurrent 1); lia.
  - intros k k' j j' Hk Hk' Hg Hg' Hd Hd'.
    destruct (Forall_lookup_1 _ _ _ _ H5 Hk) as (_ & W & _). destruct (Forall_lookup_1 _ _ _ _ H5 Hk') as (_ & W' & _).
    apply (count_two j_guard (jobs s) k k' j j'); auto. lia.
  - intros j Hj Hg. rewrite Forall_forall in H5. destruct (H5 j Hj) as (_ & _ & W3 & W4 & _).
    destruct (j_reserved j); [done|]. destruct (W3 (W4 eq_refl)). congruence.
  - intros k k' j j' Hk Hk' Hr1 Hr2 Hid Hne. apply (count_two (reserves (j_intent j)) (jobs s) k k' j j'); try done;
      unfold reserves; rewrite ?Hr1, ?Hr2, ?Hid, ?String.eqb_refl; try done.
    rewrite <- Hid. specialize (H6 _ Hne). destruct (bool_decide _); cbn in H6; unfold reserves in H6; lia.
Qed.

(** What is launched: at most one DKG per polled batch, none before DKG admission
    has been opened, no SIGN at all in a provisioning-only process; and [Run] returns
    only after every session it launched has ended. *)
Theorem scheduler_launches cfg maxConcurrent opened s :
  runs cfg maxConcurrent opened s ->
  NoDup (dkg_batches s)
  /\ (opened = false -> forall n, (n, intentKindDKG) ∉ launches s)
  /\ (SigningDisabled cfg = true -> forall n, (n, intentKindSIGN) ∉ launches s)
  /\ (loop s = AtEnd -> Forall (fun j => j_done j = true) (jobs s)).
Proof.
  intros Hr. destruct (runs_inv _ _ _ _ Hr) as (_ & [L1 L2 L3 L4 L5 L6] & _ & Hend). split_and!; [done|..|done].
  - intros Ho n Hn. destruct (L4 Ho) as (_ & Hb & _). unfold dkg_batches in Hb.
    assert (Hin : n ∈ omap dkg_of (launches s)) by (apply list_elem_of_omap; by exists (n, intentKindDKG)).
    rewrite Hb in Hin. by apply elem_of_nil in Hin.
  - intros Hd n Hn. destruct (L6 Hd) as [Hf _]. rewrite Forall_forall in Hf. by specialize (Hf _ Hn).
Qed.

(** A wakeup is kept until the loop starts the poll it asked for. *)
Lemma wake_kept cfg s s' : sstep cfg s s' -> repollCh s = true -> repollCh s' = true \/ loop s' = AtPoll.
Proof.
  intros [ready c found t t' Hs|o k t t' Hs|open t|t|t] Hw; auto.
  - unfold loop_step in Hs. repeat (case_match; try discriminate Hs); injection Hs as <-; cbn; auto.
  - unfold job_step in Hs. destruct (jobs t !! k) as [j|]; [|done]. cbn in Hs. destruct (job_next o j); [|done].
    cbn in Hs. left. destruct o; by injection Hs as <-.
  - left. by destruct open.
Qed.

(** The interval between polls stays between its bounds, whatever the floating-point
    product is. *)
Lemma nextBackoff_bounds current cfg scaled : (0 < MinInterval cfg <= MaxInterval cfg)%Z ->
  (MinInterval cfg <= nextBackoff current cfg scaled <= MaxInterval cfg)%Z.
Proof.
  intros Hb. unfold nextBackoff. cbv zeta. destruct (Z.leb_spec (MinInterval cfg) 0); [lia|].
  set (next := if factor_above_one cfg then _ else _). destruct (Z.ltb_spec next (MinInterval cfg));
    repeat match goal with |- context [Z.ltb ?a ?b] => destruct (Z.ltb_spec a b) end; cbn; lia.
Qed.

(** * A concrete run *)

Inductive act := Loop (ready : bool) (c : choice) (found : option (list Intent)) | Job (o : job_op) (k : nat) | Open (b : bool).
Definition act_step (cfg : SchedulerConfig) (a : act) (s : Scheduler) : option Scheduler :=
  match a with
  | Loop ready c found => loop_step cfg ready c found s
  | Job o k => job_step o k s
  | Open b => Some (SetDKGAdmissionOpen b s)
  end.
Fixpoint exec (cfg : SchedulerConfig) (acts : list act) (opened : bool) (s : Scheduler) : option (bool * Scheduler) :=
  match acts with
  | [] => Some (opened, s)
  | a :: acts => s' ← act_step cfg a s; exec cfg acts (opened || dkgAdmissionOpen s') s'
  end.
Lemma exec_runs cfg n acts opened s r : runs cfg n opened s -> exec cfg acts opened s = Some r -> runs cfg n r.1 r.2.
Proof.
  revert opened s. induction acts as [|a acts IH]; intros opened s Hr; cbn; [by intros [= <-]|].
  destruct (act_step cfg a s) as [s'|] eqn:E; [|done]. cbn. apply IH. eapply runs_step; [done|].
  destruct a; cbn in E; [by eapply sstep_loop|by eapply sstep_job|]. injection E as <-. constructor.
Qed.

Definition named_intent (kind id : string) : Intent := {|
  in_Version := 0; in_Approval := None; in_Prepared := None; in_Session := zero_session; in_CreatedAt := 0;
  in_DeadlineRaw := ""; in_DiscoveryStatus := "PENDING"; in_IntentID := id; in_SessionID := "";
  in_Type := kind; in_ExpiresAt := zero_time; in_Payload := zero_payload |}.
Definition fixture_config : SchedulerConfig :=
  {| SigningDisabled := false; MinInterval := second; MaxInterval := (30 * second)%Z; factor_above_one := true |}.

(** A DKG and a SIGN run; a second DKG of the batch and the repeated SIGN are left. *)
Definition fixture_acts : list act :=
  let go := Loop true ByChannel (Some [named_intent "DKG" "d1"; named_intent "DKG" "d2"; named_intent "SIGN" "s1"; named_intent "SIGN" "s1"]) in
  [Open true; go; go; go; go; go; go; go; Job JNotify 0; go; go; go; go; go; Job JNotify 1; go; go; go].
Definition fixture_scheduler : bool * Scheduler :=
  Eval vm_compute in default (false, NewScheduler 2) (exec fixture_config fixture_acts false (NewScheduler 2)).

Lemma fixture_runs : runs fixture_config 2 fixture_scheduler.1 fixture_scheduler.2.
Proof. apply (exec_runs fixture_config 2 fixture_acts false (NewScheduler 2)); [constructor|vm_compute; reflexivity]. Qed.

Lemma scheduler_exclusive_witness :
  map j_kind (jobs fixture_scheduler.2) = [intentKindDKG; intentKindSIGN]
  /\ (Z.of_nat (count j_general (jobs fixture_scheduler.2)) <= 2)%Z.
Proof.
  split; [vm_compute; reflexivity|].
  exact (proj1 (scheduler_exclusive fixture_config 2 fixture_scheduler.1 fixture_scheduler.2 fixture_runs)).
Defined.

Lemma scheduler_launches_witness :
  launches fixture_scheduler.2 = [(1%nat, intentKindDKG); (1%nat, intentKindSIGN)] /\ NoDup (dkg_batches fixture_scheduler.2).
Proof.
  split; [vm_compute; reflexivity|].
  exact (proj1 (scheduler_launches fixture_config 2 fixture_scheduler.1 fixture_scheduler.2 fixture_runs)).
Defined.
