(* ===== verification/Dispatcher.v ===== *)
(** [internal/approval/dispatcher.go] and [external.go]: the loop that turns pending
    approval requests into saved decisions and delivers them.  The backend, the
    organization, the clock, the random source, the order a map is walked in and the contexts
    answer from functions of the number of answers given so far; the journal is the modelled
    one, in its world. *)
From stdpp Require Import base tactics option list strings numbers gmap relations.
From Stdlib Require Import ZArith Lia Ascii String.
From S2P Require Import Prelude GoText Paths Sha256 Json StrictJson Externals Mpc2of3 ApprovalWire SigningPolicy FileSystem Journal GoTime RawJson Monolith.

#[local] Open Scope string_scope.

(** * config.go *)

(** [factor_ok] is what [Validate] asks of the floating-point backoff factor. *)
Record Config := {
  cfg_Mode : string; cfg_JournalDir : string; cfg_Endpoint : string; cfg_AutoInitializeJournal : bool; cfg_BearerToken : string;
  cfg_MinInterval : duration; cfg_MaxInterval : duration; cfg_Timeout : duration; cfg_factor_ok : bool;
}.

(** [strings.ContainsAny(s, "\r\n")]. *)
Definition has_line_break (s : string) : bool :=
  negb (str_forall (fun c => negb (Ascii.eqb c (char 13)) && negb (Ascii.eqb c (char 10))) s).

(** * dispatcher.go *)

Definition suppressionKey : Type := string * string * bool.
Definition zero_key : suppressionKey := ("", "", false).
Definition savedReceipt (k : suppressionKey) : bool := k.2.

Record suppression := { sp_attempts : Z; sp_until : time; sp_sequence : Z }.

(** The state of the dispatcher with the journal's world, the number of answers of the
    environment so far, and the log of its calls: those that leave the process with what was
    answered, and those of the journal with what the journal said. *)
Inductive dcall :=
  | CallPage (cursor : string) (answer : res PendingPage)
  | CallLoad (org request : string) (result : res State)
  | CallPending (receipts : list SavedReceipt) (err : option error)
  | CallAdmit (a : Admission) (result : res unit)
  | CallEvaluate (item : PendingItem) (response : res Object)
  | CallSave (r : SavedReceipt) (result : res unit)
  | CallSend (request : string) (body : bytes)
  | CallReply (answer : res bytes)
  | CallAcknowledge (org request : string) (application : bytes) (result : res unit).

Record Dispatcher := {
  dp_cursor : string; dp_backoff : gmap suppressionKey suppression; dp_sequence : Z;
  dp_recoveryTurn : bool; dp_journal : Journal; dp_world : world; dp_answers : nat; dp_calls : list dcall;
}.

Record Environment := {
  env_ctx : nat -> option error; env_now : nat -> time; env_jitter : nat -> duration -> duration;
  env_page : nat -> string -> res PendingPage; env_send : nat -> string -> bytes -> res bytes;
  env_evaluate : nat -> PendingItem -> res Object; env_listing : nat -> list string;
  env_order : nat -> gmap suppressionKey suppression -> list (suppressionKey * suppression);
}.

(** The state-and-error monad of the dispatcher. *)
Definition D (A : Type) : Type := Dispatcher -> res A * Dispatcher.
#[global] Instance D_ret : MRet D := fun A a d => (Ok a, d).
#[global] Instance D_bind : MBind D := fun A B f m d =>
  match m d with (Ok a, d) => f a d | (Fail e, d) => (Fail e, d) end.
Definition dthrow {A} (e : error) : D A := fun d => (Fail e, d).
Definition dlift {A} (r : res A) : D A := fun d => (r, d).
Definition dtry {A} (m : D A) : D (res A) := fun d => let '(r, d) := m d in (Ok r, d).

Definition with_backoff (b : gmap suppressionKey suppression) (seq : Z) (d : Dispatcher) : Dispatcher :=
  Build_Dispatcher (dp_cursor d) b seq (dp_recoveryTurn d) (dp_journal d) (dp_world d) (dp_answers d) (dp_calls d).
Definition with_world (j : Journal) (w : world) (d : Dispatcher) : Dispatcher :=
  Build_Dispatcher (dp_cursor d) (dp_backoff d) (dp_sequence d) (dp_recoveryTurn d) j w (dp_answers d) (dp_calls d).
Definition with_cursor (c : string) (d : Dispatcher) : Dispatcher :=
  Build_Dispatcher c (dp_backoff d) (dp_sequence d) (dp_recoveryTurn d) (dp_journal d) (dp_world d) (dp_answers d) (dp_calls d).
Definition with_turn (b : bool) (d : Dispatcher) : Dispatcher :=
  Build_Dispatcher (dp_cursor d) (dp_backoff d) (dp_sequence d) b (dp_journal d) (dp_world d) (dp_answers d) (dp_calls d).

(** An answer of the environment, and a journal operation on the dispatcher's world. *)
Definition ask {A} (f : nat -> A) : D A := fun d =>
  (Ok (f (dp_answers d)),
   Build_Dispatcher (dp_cursor d) (dp_backoff d) (dp_sequence d) (dp_recoveryTurn d) (dp_journal d) (dp_world d)
     (S (dp_answers d)) (dp_calls d)).
Definition on_journal {A} (f : Journal -> M A) : D A := fun d =>
  let '(r, w) := f (dp_journal d) (dp_world d) in (r, with_world (dp_journal d) w d).
Definition record (c : dcall) : D unit := fun d =>
  (Ok (), Build_Dispatcher (dp_cursor d) (dp_backoff d) (dp_sequence d) (dp_recoveryTurn d) (dp_journal d) (dp_world d)
            (dp_answers d) (dp_calls d ++ [c])).
(** A question and a journal operation that are logged with what they gave. *)
Definition ask_call {A} (c : A -> dcall) (f : nat -> A) : D A := a ← ask f; _ ← record (c a); mret a.
Definition journal_call {A} (c : res A -> dcall) (f : Journal -> M A) : D A :=
  r ← dtry (on_journal f); _ ← record (c r); dlift r.
Definition backoff_map : D (gmap suppressionKey suppression) := fun d => (Ok (dp_backoff d), d).

(** A timestamp in the layout "2006-01-02T15:04:05.000Z". *)
Definition format_millis (t : time) : string :=
  let days := (t / second / 86400)%Z in
  let secs := (t / second mod 86400)%Z in
  let y := year_of 10000 0 days in
  let m := month_of 12 y 1 days in
  pad_to 4 (format_int y) +:+ "-" +:+ pad2 m +:+ "-" +:+ pad2 (days - unix_days y m 1 + 1) +:+ "T"
  +:+ pad2 (secs / 3600) +:+ ":" +:+ pad2 (secs / 60 mod 60) +:+ ":" +:+ pad2 (secs mod 60)
  +:+ "." +:+ pad_to 3 (format_int (t mod second / millisecond)) +:+ "Z".

(** * external.go *)

(** A request to the organization's endpoint. *)
Record Evaluation := { ev_endpoint : string; ev_authorization : string; ev_idempotencyKey : string; ev_body : bytes }.

Definition evaluation_text (orgID : string) (item : PendingItem) : option bytes :=
  authorization ← marshal_raw (pi_Authorization item);
  Some (object_text [("authorization", authorization); ("authorizationHash", quote (pi_AuthorizationHash item));
                     ("orgId", quote orgID); ("requestId", quote (pi_RequestID item)); ("version", "1")]).

(** [NewExternal] and [Evaluate]: the requests sent, and the result.  [built] is whether
    [net/http] accepts the endpoint, [x] is the exchange; redirects are not followed. *)
Definition NewExternal (cfg : Config) (valid : res unit) : res Config :=
  _ ← valid;
  if cfg_Mode cfg <>s "external" then Fail (ENew "organization transport requires external approval mode")
  else Ok cfg.

Definition response_limit : nat := 65537.

Definition Evaluate `{Externals} (cfg : Config) (item : PendingItem) (built : bool) (x : exchange)
    : list Evaluation * res Object :=
  match OrganizationID item with
  | Fail e => ([], Fail e)
  | Ok orgID =>
      match evaluation_text orgID item with
      | None => ([], Fail (ENew "json"))
      | Some raw =>
          if (65536 <? zlen raw)%Z then ([], Fail err_integrity)
          else if negb built then ([], Fail (ENew "invalid organization approval request"))
          else
            let request := {| ev_endpoint := cfg_Endpoint cfg; ev_authorization := "Bearer " +:+ cfg_BearerToken cfg;
                              ev_idempotencyKey := pi_RequestID item +:+ ":" +:+ pi_AuthorizationHash item;
                              ev_body := raw |} in
            ([request],
             match x with
             | TransportError _ => Fail (ENew "organization approval transport failed")
             | Response status stream readErr =>
                 let body := str_take response_limit stream in
                 if is_some readErr || (65536 <? zlen body)%Z
                 then Fail (ENew "invalid organization approval response size")
                 else if negb (status =? 200)%Z then Fail (ENew ("organization approval HTTP status " +:+ format_int status))
                 else match ParseOrganizationResponse body orgID (pi_RequestID item) (pi_AuthorizationHash item) with
                 | Fail _ => Fail (ENew "invalid organization approval response contract or bindings")
                 | Ok v => Ok v
                 end
             end)
      end
  end.

(** [json.Marshal] of a page. *)
Definition item_text (item : PendingItem) : option bytes :=
  authorization ← marshal_raw (pi_Authorization item);
  Some (object_text [("requestId", quote (pi_RequestID item)); ("createdAt", quote (pi_CreatedAt item));
                     ("authorization", authorization); ("authorizationHash", quote (pi_AuthorizationHash item))]).
Definition page_text (page : PendingPage) : option bytes :=
  items ← mapM item_text (pp_Items page);
  Some (object_text [("version", format_int (pp_Version page)); ("items", "[" +:+ commas items +:+ "]");
                     ("nextCursor", json_print (jopt (pp_NextCursor page)))]).

Section Dispatch.
Context `{Externals} `{TxCodecs}.
(** The configuration, the signing key, and the floating-point backoff: the ceiling after
    a number of attempts as a duration, when it is finite and below the maximum. *)
Context (cfg : Config) (keyID : string) (key : bytes) (scaled : Z -> option duration) (env : Environment).

Definition config_Validate : res unit :=
  if (cfg_Mode cfg <>s "external") && (cfg_Mode cfg <>s "auto_approve")
  then Fail (ENew "approval mode must be external or auto_approve")
  else if negb (IsAbs (cfg_JournalDir cfg)) || (Clean (cfg_JournalDir cfg) =s "/")
  then Fail (ENew "approval journal must be an absolute dedicated directory")
  else if (cfg_MinInterval cfg <=? 0)%Z || (cfg_MaxInterval cfg <? cfg_MinInterval cfg)%Z
          || (cfg_Timeout cfg <=? 0)%Z || negb (cfg_factor_ok cfg)
  then Fail (ENew "invalid approval timeout or backoff configuration")
  else if (cfg_Mode cfg =s "external")
          && (negb (validEndpoint (cfg_Endpoint cfg)) || (trim_space (cfg_BearerToken cfg) =s "")
              || has_line_break (cfg_BearerToken cfg))
  then Fail (ENew "approval external HTTPS endpoint and dedicated bearer credential are required")
  else Ok ().

(** [NewDispatcher]: the state it starts from, in the journal's world. *)
Definition NewDispatcher (j : option Journal)
    (has_backend has_organization : bool) (w : world) : res Dispatcher :=
  _ ← config_Validate;
  match j with
  | None => Fail err_integrity
  | Some j =>
      if negb has_backend || negb (ValidReference keyID) || negb (zlen key =? 64)%Z
         || ((cfg_Mode cfg =s "external") && negb has_organization)
      then Fail err_integrity
      else Ok {| dp_cursor := ""; dp_backoff := ∅; dp_sequence := 0; dp_recoveryTurn := false;
                 dp_journal := j; dp_world := w; dp_answers := 0; dp_calls := [] |}
  end.

(** [due] and [suppress]. *)
Definition due (k : suppressionKey) : D bool :=
  b ← backoff_map;
  match b !! k with
  | None => mret true
  | Some s => now ← ask (env_now env); mret (negb (time_before now (sp_until s)))
  end.

(** The least recent evictable entry, in the order the map is walked: not of a saved receipt. *)
Definition older (best : suppressionKey * Z) (entry : suppressionKey * suppression) : suppressionKey * Z :=
  if negb (savedReceipt entry.1) && (sp_sequence entry.2 <? best.2)%Z then (entry.1, sp_sequence entry.2) else best.
Definition oldest_evaluation (entries : list (suppressionKey * suppression)) : suppressionKey :=
  (fold_left older entries (zero_key, max_uint64)).1.

(** The end of [suppress]: the entry is stored when its key is there already, when there is
    room, or when an evaluation's entry can make room. *)
Definition store_suppression (k : suppressionKey) (attempts : Z) (until : time)
    (entries : list (suppressionKey * suppression)) : D unit := fun d =>
  let b := dp_backoff d in
  let seq := u64 (dp_sequence d + 1) in
  let s := {| sp_attempts := attempts; sp_until := until; sp_sequence := seq |} in
  if bool_decide (is_Some (b !! k)) || (Z.of_nat (size b) <? 1000)%Z
  then (Ok (), with_backoff (<[k := s]> b) seq d)
  else
    let oldest := oldest_evaluation entries in
    if bool_decide (oldest = zero_key) then (Ok (), with_backoff b seq d)
    else (Ok (), with_backoff (<[k := s]> (delete oldest b)) seq d).

Definition suppress (k : suppressionKey) : D unit :=
  b ← backoff_map;
  let s := default {| sp_attempts := 0; sp_until := zero_time; sp_sequence := 0 |} (b !! k) in
  let attempts := if (sp_attempts s <? 1024)%Z then (sp_attempts s + 1)%Z else sp_attempts s in
  let ceiling := default (cfg_MaxInterval cfg) (scaled attempts) in
  now ← ask (env_now env);
  jitter ← ask (fun n => env_jitter env n ceiling);
  entries ← ask (fun n => env_order env n b);
  store_suppression k attempts (now + jitter)%Z entries.

Definition forget (k : suppressionKey) : D unit := fun d =>
  (Ok (), with_backoff (delete k (dp_backoff d)) (dp_sequence d) d).

Definition deliveryHints (b : gmap suppressionKey suppression) : nat :=
  size (filter (fun kv => savedReceipt kv.1 = true) b).

(** [receipt]: the canonical decision envelope and its signature. *)
Definition envelope_text (a : Admission) (response : Object) (decidedAt : string) : option bytes :=
  let raw k := if member response k =s "" then Some "null" else marshal_raw (member response k) in
  reason ← raw "reason"; reference ← raw "decisionReference";
  Some (object_text
    [("audience", quote "brosettlement-transfer-approval"); ("authorizationHash", quote (ad_AuthorizationHash a));
     ("decidedAt", quote decidedAt); ("decision", quote (str response "status"));
     ("domain", quote "brosettlement.co-signer.approval-decision"); ("externalDecisionReference", reference);
     ("orgId", quote (ad_OrgID a)); ("reason", reason); ("requestId", quote (ad_RequestID a));
     ("signingKeyId", quote keyID); ("source", quote (ad_Mode a)); ("version", "1")]).
Definition receipt_text (envelope signature : bytes) : bytes :=
  object_text [("envelopeBase64", quote (b64_encode b64_std envelope));
               ("signatureBase64", quote (b64_encode b64_std signature)); ("version", "1")].

Definition receipt_at (a : Admission) (response : Object) (decidedAt : string) : res bytes :=
  raw ← of_option (envelope_text a response decidedAt) (ENew "json");
  raw ← jcs_transform raw;
  _ ← ParseDecisionEnvelope raw;
  Ok (receipt_text raw (ed25519_sign key (DecisionDomain +:+ raw))).
Definition receipt (a : Admission) (response : Object) : D bytes :=
  now ← ask (env_now env); dlift (receipt_at a response (format_millis now)).

(** [deliver]. *)
Definition deliver (r : SavedReceipt) : D unit :=
  let k := (sr_OrgID r, sr_RequestID r, true) in
  _ ← record (CallSend (sr_RequestID r) (sr_Bytes r));
  application ← ask_call CallReply (fun n => env_send env n (sr_RequestID r) (sr_Bytes r));
  match application with
  | Fail e => _ ← suppress k; dthrow e
  | Ok application =>
      saved ← dtry (journal_call (CallAcknowledge (sr_OrgID r) (sr_RequestID r) application)
                      (fun j => Acknowledge j (sr_OrgID r) (sr_RequestID r) application));
      match saved with
      | Fail e => _ ← suppress k; dthrow e
      | Ok _ =>
          _ ← forget k;
          parsed ← dlift (ParseDecisionApplication application);
          if str parsed "disposition" =s "TERMINAL_CONFLICT"
          then dthrow (ENew "approval decision terminal conflict; reconcile saved evidence")
          else mret ()
      end
  end.

(** The response in [auto_approve] mode. *)
Definition auto_response : Object :=
  <["status" := quote "APPROVED"]> (<["reason" := "null"]> (<["decisionReference" := "null"]> ∅)).

(** The organization's decision on an admitted item: [None] while it is pending. *)
Definition decide_item (item : PendingItem) (k : suppressionKey) : D (option Object) :=
  if cfg_Mode cfg =s "external" then
    response ← ask_call (CallEvaluate item) (fun n => env_evaluate env n item);
    match response with
    | Fail e => _ ← suppress k; dthrow e
    | Ok response =>
        if str response "status" =s "PENDING" then _ ← suppress k; mret None
        else mret (Some response)
    end
  else mret (Some auto_response).

Definition admission_of (item : PendingItem) (orgID : string) (now : time) : Admission := {|
  ad_Version := 1; ad_OrgID := orgID; ad_RequestID := pi_RequestID item;
  ad_AuthorizationHash := pi_AuthorizationHash item; ad_Mode := cfg_Mode cfg;
  ad_Endpoint := if cfg_Mode cfg =s "external" then Some (cfg_Endpoint cfg) else None;
  ad_AdmittedAt := format_millis now |}.

Definition saved_of (a : Admission) (raw : bytes) : SavedReceipt := {|
  sr_Version := 1; sr_OrgID := ad_OrgID a; sr_RequestID := ad_RequestID a;
  sr_AuthorizationHash := ad_AuthorizationHash a; sr_SigningKeyID := keyID;
  sr_PublicKey := ed25519_public key; sr_Bytes := raw |}.

(** The evaluation of a request without a saved decision. *)
Definition evaluate_item (item : PendingItem) (orgID : string) : D unit :=
  let k := (orgID, pi_RequestID item, false) in
  d ← due k;
  if negb d then mret ()
  else
    now ← ask (env_now env);
    let a := admission_of item orgID now in
    _ ← journal_call (CallAdmit a) (fun j => Admit j a);
    response ← decide_item item k;
    match response with
    | None => mret ()
    | Some response =>
        raw ← receipt a response;
        let saved := saved_of a raw in
        _ ← journal_call (CallSave saved) (fun j => SaveReceipt j saved);
        _ ← forget k;
        deliver saved
    end.

Definition process (item : PendingItem) : D unit :=
  orgID ← dlift (OrganizationID item);
  state ← journal_call (CallLoad orgID (pi_RequestID item)) (fun j => Load j orgID (pi_RequestID item));
  if match st_Admission state with
     | Some a => ad_AuthorizationHash a <>s pi_AuthorizationHash item
     | None => false
     end then dthrow err_conflict
  else match st_Receipt state with
  | Some r =>
      if (zlen (st_Application state) =? 0)%Z then
        d ← due (orgID, pi_RequestID item, true);
        if (d : bool) then deliver r else mret ()
      else mret ()
  | None =>
      b ← backoff_map;
      if (1000 <=? Z.of_nat (deliveryHints b))%Z
      then dthrow (ENew "approval delivery retry capacity exhausted; new evaluations suspended")
      else evaluate_item item orgID
  end.

(** The due saved delivery with the least sequence number, of those in [keys]. *)
Fixpoint next_hint (entries : list (suppressionKey * suppression)) (best : suppressionKey * Z) : D suppressionKey :=
  match entries with
  | [] => mret best.1
  | (k, v) :: entries =>
      if savedReceipt k then
        d ← due k;
        next_hint entries (if d && (sp_sequence v <? best.2)%Z then (k, sp_sequence v) else best)
      else next_hint entries best
  end.

(** [retrySavedHint]: whether a delivery was attempted, and its error. *)
Definition retrySavedHint : D (bool * option error) :=
  b ← backoff_map;
  entries ← ask (fun n => env_order env n b);
  k ← next_hint entries (zero_key, max_uint64);
  if bool_decide (k = zero_key) then mret (false, None)
  else
    let '(orgID, requestID, _) := k in
    s ← dtry (journal_call (CallLoad orgID requestID) (fun j => Load j orgID requestID));
    match s with
    | Fail e => _ ← suppress k; mret (true, Some e)
    | Ok s =>
        match st_Receipt s with
        | None => _ ← suppress k; mret (true, Some err_integrity)
        | Some r =>
            if negb (zlen (st_Application s) =? 0)%Z then _ ← forget k; mret (false, None)
            else r ← dtry (deliver r); mret (true, err_of r)
        end
    end.

(** [PendingReceipts(50)] on the dispatcher's handle. *)
Definition pending_receipts : D (list SavedReceipt * option error) :=
  listing ← ask (env_listing env);
  r ← dtry (fun d =>
    match PendingReceipts (dp_journal d) 50 listing (dp_world d) with
    | (Ok (receipts, recordErr, j), w) => (Ok (receipts, recordErr), with_world j w d)
    | (Fail e, w) => (Fail e, with_world (dp_journal d) w d)
    end);
  let found := match r with Ok r => r | Fail e => ([], Some e) end in
  _ ← record (CallPending found.1 found.2); mret found.

Fixpoint first_due (receipts : list SavedReceipt) : D (option SavedReceipt) :=
  match receipts with
  | [] => mret None
  | r :: receipts => d ← due (sr_OrgID r, sr_RequestID r, true); if (d : bool) then mret (Some r) else first_due receipts
  end.

(** [recoverSaved] returns its error. *)
Definition recoverSaved : D (option error) :=
  turn ← (fun d => (Ok (negb (dp_recoveryTurn d)), with_turn (negb (dp_recoveryTurn d)) d)) : D bool;
  early ← (if (turn : bool) then retrySavedHint else mret (false, None));
  if early.1 || is_some early.2 then mret early.2
  else
    '(receipts, result) ← pending_receipts;
    found ← first_due receipts;
    match found with
    | Some r => e ← dtry (deliver r); mret (errors_join [result; err_of e])
    | None =>
        '(attempted, e) ← retrySavedHint;
        if attempted || is_some e then mret (errors_join [result; e]) else mret result
    end.

(** The loop of [Step] over the items of the page. *)
Fixpoint process_items (items : list PendingItem) (result : option error) : D (option error * bool) :=
  match items with
  | [] => mret (result, true)
  | item :: items =>
      c ← ask (env_ctx env);
      match c with
      | Some e => mret (errors_join [result; Some e], false)
      | None =>
          r ← dtry (process item);
          process_items items
            (match r with
             | Ok _ => result
             | Fail e => errors_join [result; Some (EWrap ("approval request " +:+ quote (pi_RequestID item)) e)]
             end)
      end
  end.

(** [Step], with its error. *)
Definition Step : D (option error) :=
  c ← ask (env_ctx env);
  match c with
  | Some e => mret (Some e)
  | None =>
      recovered ← recoverSaved;
      let result := errors_join [recovered] in
      page ← (fun d => ask_call (CallPage (dp_cursor d)) (fun n => env_page env n (dp_cursor d)) d) : D (res PendingPage);
      match page with
      | Fail e =>
          _ ← (fun d => (Ok (), if errors_is e ErrInvalidApprovalCursor then with_cursor "" d else d)) : D unit;
          mret (errors_join [result; Some e])
      | Ok page =>
          match (raw ← of_option (page_text page) (ENew "json"); ParsePendingPage raw) with
          | Fail e => mret (errors_join [result; Some e])
          | Ok _ =>
              if (50 <? List.length (pp_Items page))%nat then mret (errors_join [result; Some err_integrity])
              else
                '(result, finished) ← process_items (pp_Items page) result;
                if (finished : bool) then
                  _ ← (fun d => (Ok (), with_cursor (default "" (pp_NextCursor page)) d)) : D unit;
                  mret result
                else mret result
          end
      end
  end.

(** [Run], as far as the timer has fired: a tick says that it fired before the context was
    done; the errors are those reported. *)
Fixpoint Run (ticks : list bool) : D (list error) :=
  match ticks with
  | [] => mret []
  | fired :: ticks =>
      result ← Step;
      reported ← match result with
                 | None => mret []
                 | Some e => c ← ask (env_ctx env); mret match c with None => [e] | Some _ => [] end
                 end;
      if (fired : bool) then rest ← Run ticks; mret (reported ++ rest)%list else mret reported
  end.
End Dispatch.
