(* ===== verification/DispatcherProofs.v ===== *)
(** Proofs about the approval dispatcher: the protocol every [Step] follows (one delivery
    of saved evidence, then for each item of a fresh page at most one evaluation, saved
    before it is delivered), that only durably saved decisions leave the process, and that
    the retry table stays bounded without forgetting an unacknowledged delivery. *)
From stdpp Require Import base tactics option list strings numbers gmap relations.
From Stdlib Require Import ZArith Lia Ascii String.
From S2P Require Import Prelude GoText Sha256 Json StrictJson Externals Mpc2of3 ApprovalWire SigningPolicy FileSystem Journal JournalProofs GoTime RawJson Monolith Dispatcher.

#[local] Open Scope string_scope.

(** * The calls of a program *)

(** Every run of [m] leaves the cursor and appends calls that satisfy [Q] together with its
    result. *)
Definition calls {A} (m : D A) (Q : res A -> list dcall -> Prop) : Prop := forall d r d',
  m d = (r, d') -> dp_cursor d' = dp_cursor d /\ exists new, dp_calls d' = (dp_calls d ++ new)%list /\ Q r new.

Lemma calls_mono {A} (m : D A) (P Q : res A -> list dcall -> Prop) :
  calls m P -> (forall r l, P r l -> Q r l) -> calls m Q.
Proof. intros Hm Hpq d r d' Hr. destruct (Hm _ _ _ Hr) as (? & new & ? & ?). eauto. Qed.
(** A step that only changes what the log and the cursor do not show. *)
Lemma calls_none {A} (m : D A) (Q : res A -> list dcall -> Prop) :
  (forall d r d', m d = (r, d') -> dp_cursor d' = dp_cursor d /\ dp_calls d' = dp_calls d /\ Q r []) -> calls m Q.
Proof. intros Hm d r d' Hr. destruct (Hm _ _ _ Hr) as (? & Hc & ?). split; [done|]. exists []. by rewrite app_nil_r. Qed.
Lemma calls_ret {A} (a : A) (Q : res A -> list dcall -> Prop) : Q (Ok a) [] -> calls (mret a) Q.
Proof. intros HQ. apply calls_none. by intros d r d' [= <- <-]. Qed.
Lemma calls_throw {A} e (Q : res A -> list dcall -> Prop) : Q (Fail e) [] -> calls (dthrow e) Q.
Proof. intros HQ. apply calls_none. by intros d r d' [= <- <-]. Qed.
Lemma calls_lift {A} (x : res A) (Q : res A -> list dcall -> Prop) : Q x [] -> calls (dlift x) Q.
Proof. intros HQ. apply calls_none. by intros d r d' [= <- <-]. Qed.
Lemma calls_bind {A B} (m : D A) (k : A -> D B) (P : res A -> list dcall -> Prop)
    (Q : res B -> list dcall -> Prop) :
  calls m P -> (forall e l, P (Fail e) l -> Q (Fail e) l) ->
  (forall a l, P (Ok a) l -> calls (k a) (fun r l' => Q r (l ++ l')%list)) -> calls (m ≫= k) Q.
Proof.
  intros Hm Hf Hk d r d'. unfold mbind, D_bind. destruct (m d) as [[a|e] d1] eqn:E; intros Hr.
  - destruct (Hm _ _ _ E) as (C1 & n1 & H1 & HP). destruct (Hk a n1 HP _ _ _ Hr) as (C2 & n2 & H2 & HQ).
    split; [congruence|]. exists (n1 ++ n2)%list. rewrite H2, H1, app_assoc. auto.
  - injection Hr as <- <-. destruct (Hm _ _ _ E) as (? & n1 & H1 & HP). eauto.
Qed.
Lemma calls_try {A} (m : D A) (Q : res (res A) -> list dcall -> Prop) :
  calls m (fun r l => Q (Ok r) l) -> calls (dtry m) Q.
Proof.
  intros Hm d r d'. unfold dtry. destruct (m d) as [r0 d0] eqn:E. intros [= <- <-]. exact (Hm _ _ _ E).
Qed.
Lemma calls_record c (Q : res unit -> list dcall -> Prop) : Q (Ok ()) [c] -> calls (record c) Q.
Proof. intros HQ d r d' [= <- <-]. split; [done|]. by exists [c]. Qed.
Lemma calls_record_then {B} c (k : unit -> D B) (Q : res B -> list dcall -> Prop) :
  calls (k ()) (fun r l => Q r (c :: l)) -> calls (record c ≫= k) Q.
Proof.
  intros Hk. eapply calls_bind with (P := fun x l => x = Ok () /\ l = [c]);
    [by apply calls_record|by intros ? ? [? _]|]. by intros [] ? [_ ->].
Qed.

(** Programs that make no call. *)
Definition silent {A} (m : D A) : Prop := calls m (fun _ l => l = []).

Lemma silent_bind {A B} (m : D A) (k : A -> D B) (Q : res B -> list dcall -> Prop) :
  silent m -> (forall e, Q (Fail e) []) -> (forall a, calls (k a) Q) -> calls (m ≫= k) Q.
Proof.
  intros Hm Hf Hk. apply calls_bind with (P := fun _ l => l = []); [done|by intros e l ->|].
  intros a l ->. apply Hk.
Qed.
Lemma silent_calls {A} (m : D A) (Q : res A -> list dcall -> Prop) :
  silent m -> (forall r, Q r []) -> calls m Q.
Proof. intros Hm HQ. eapply calls_mono; [exact Hm|]. by intros r ? ->. Qed.
Lemma silent_none {A} (m : D A) :
  (forall d r d', m d = (r, d') -> dp_cursor d' = dp_cursor d /\ dp_calls d' = dp_calls d) -> silent m.
Proof. intros Hm. apply calls_none. intros d r d' Hr. destruct (Hm _ _ _ Hr). by split_and!. Qed.
Lemma silent_ask {A} (f : nat -> A) : silent (ask f).
Proof. apply silent_none. by intros d r d' [= <- <-]. Qed.
Lemma silent_map : silent backoff_map.
Proof. apply silent_none. by intros d r d' [= <- <-]. Qed.
Lemma silent_lift {A} (x : res A) : silent (dlift x).
Proof. by apply calls_lift. Qed.
Lemma silent_ret {A} (a : A) : silent (mret a).
Proof. by apply calls_ret. Qed.
Lemma silent_try {A} (m : D A) : silent m -> silent (dtry m).
Proof. intros Hm. apply calls_try. exact Hm. Qed.

(** A logged question, and a logged operation of the journal with what it gave. *)
Lemma calls_asked {A} (c : A -> dcall) (f : nat -> A) :
  calls (ask_call c f) (fun x l => exists a, x = Ok a /\ l = [c a]).
Proof. intros d r d' [= <- <-]. split; [done|]. eexists. split; [reflexivity|]. eauto. Qed.
Lemma calls_ask_then {A B} (c : A -> dcall) (f : nat -> A) (k : A -> D B) (Q : res B -> list dcall -> Prop) :
  (forall a, calls (k a) (fun r l => Q r (c a :: l))) -> calls (ask_call c f ≫= k) Q.
Proof.
  intros Hk. eapply calls_bind; [apply calls_asked|by intros e l (a & ? & _)|]. intros a l (a' & [= <-] & ->). apply Hk.
Qed.
Lemma calls_journal {A} (c : res A -> dcall) (f : Journal -> M A) :
  calls (journal_call c f) (fun x l => l = [c x] /\ exists j w w', f j w = (x, w')).
Proof.
  intros d r d'. unfold journal_call, mbind, D_bind, dtry, on_journal, record, dlift.
  destruct (f (dp_journal d) (dp_world d)) as [x w] eqn:E. intros [= <- <-]. split; [done|]. exists [c x].
  split_and!; [done|done|by eexists _, _, _].
Qed.
Lemma calls_journal_then {A B} (c : res A -> dcall) (f : Journal -> M A) (k : A -> D B) (Q : res B -> list dcall -> Prop) :
  (forall e, Q (Fail e) [c (Fail e)]) ->
  (forall a j w w', f j w = (Ok a, w') -> calls (k a) (fun r l => Q r (c (Ok a) :: l))) ->
  calls (journal_call c f ≫= k) Q.
Proof.
  intros Hf Hk. eapply calls_bind; [apply calls_journal|by intros e l [-> _]|].
  intros a l (-> & j & w & w' & E). by eapply Hk.
Qed.
(** The same when its failure is looked at. *)
Lemma calls_journal_try {A B} (c : res A -> dcall) (f : Journal -> M A) (k : res A -> D B) (Q : res B -> list dcall -> Prop) :
  (forall x j w w', f j w = (x, w') -> calls (k x) (fun r l => Q r (c x :: l))) ->
  calls (dtry (journal_call c f) ≫= k) Q.
Proof.
  intros Hk. eapply calls_bind with (P := fun y l => exists x, y = Ok x /\ l = [c x] /\ exists j w w', f j w = (x, w')).
  - apply calls_try. eapply calls_mono; [apply calls_journal|]. intros x l [-> Hx]. eauto.
  - by intros e l (x & ? & _).
  - intros x l (x' & [= <-] & -> & j & w & w' & E). by eapply Hk.
Qed.

Create HintDb dispatch.
#[export] Hint Resolve silent_ask silent_map silent_lift silent_ret silent_try : dispatch.

(** Runs a program of silent parts, leaving the calls that are recorded. *)
Ltac quiet := unfold silent; repeat first
  [ progress eauto with dispatch
  | apply silent_bind; [solve [eauto with dispatch]|solve [eauto|intros; econstructor]|intros ?]
  | apply silent_calls; [solve [eauto with dispatch]|solve [eauto|intros; econstructor]]
  | apply calls_ret; solve [eauto|econstructor]
  | apply calls_throw; solve [eauto|econstructor]
  | match goal with |- calls (match ?x with _ => _ end) _ => destruct x eqn:? end
  | match goal with |- calls (if ?x then _ else _) _ => destruct x eqn:? end ].

(** A receipt that the journal loads is the one for the request that was asked for. *)
Lemma loaded_receipt `{Externals} `{TxCodecs} j org request st r w w' : Load j org request w = (Ok st, w') ->
  st_Receipt st = Some r -> sr_OrgID r = org /\ sr_RequestID r = request
  /\ exists a, st_Admission st = Some a /\ sr_AuthorizationHash r = ad_AuthorizationHash a.
Proof.
  intros Hl Hr. apply loadStateLocked_evidence in Hl. destruct (ev_receipt _ _ _ _ _ Hl r Hr) as (a & Ha & Hv & _).
  destruct (ev_admission _ _ _ _ _ Hl a Ha) as (Ho & Hq & _). unfold validateReceipt in Hv. step_if Hv. split_bools.
  split_and!; [congruence..|]. by exists a.
Qed.

(** * The protocol of a step *)

Section Protocol.
Context `{Externals} `{TxCodecs}.
Context (cfg : Config) (keyID : string) (key : bytes) (scaled : Z -> option duration) (env : Environment).

(** One delivery of a saved receipt: the receipt as saved is sent, and an answer to it is
    recorded as its acknowledgement. *)
Inductive delivery_calls (r : SavedReceipt) : list dcall -> Prop :=
  | dc_failed e : delivery_calls r [CallSend (sr_RequestID r) (sr_Bytes r); CallReply (Fail e)]
  | dc_answered application result : delivery_calls r
      [CallSend (sr_RequestID r) (sr_Bytes r); CallReply (Ok application);
       CallAcknowledge (sr_OrgID r) (sr_RequestID r) application result].

(** [r] is the decision [response], signed under the key, for the admission [a]. *)
Definition decision_for (a : Admission) (response : Object) (r : SavedReceipt) : Prop :=
  exists decidedAt text raw, envelope_text keyID a response decidedAt = Some text
  /\ jcs_transform text = Ok raw /\ is_ok (ParseDecisionEnvelope raw) = true
  /\ r = saved_of keyID key a (receipt_text raw (ed25519_sign key (DecisionDomain +:+ raw))).

(** What the mode asks before a decision: the organization's final answer, given for this
    item after its admission, or nothing in [auto_approve] mode. *)
Definition decided (item : PendingItem) (asked : list dcall) (response : Object) : Prop :=
  if cfg_Mode cfg =s "external"
  then asked = [CallEvaluate item (Ok response)] /\ str response "status" <> "PENDING"
  else asked = [] /\ response = auto_response.
(** An answer that decides nothing. *)
Definition undecided (response : res Object) : Prop :=
  match response with Ok v => str v "status" = "PENDING" | Fail _ => True end.

(** The evaluation of an item under the admission [a]: nothing happens unless the journal
    took the admission, nothing is signed without a final answer, and nothing is sent unless
    the journal took the decision. *)
Inductive evaluation_calls (item : PendingItem) (a : Admission) : list dcall -> Prop :=
  | ec_refused e : evaluation_calls item a [CallAdmit a (Fail e)]
  | ec_undecided response : cfg_Mode cfg = "external" -> undecided response ->
      evaluation_calls item a [CallAdmit a (Ok ()); CallEvaluate item response]
  | ec_unmade response asked decidedAt e : decided item asked response ->
      receipt_at keyID key a response decidedAt = Fail e -> evaluation_calls item a (CallAdmit a (Ok ()) :: asked)
  | ec_unsaved response asked r e : decided item asked response -> decision_for a response r ->
      evaluation_calls item a (CallAdmit a (Ok ()) :: asked ++ [CallSave r (Fail e)])
  | ec_delivered response asked r l : decided item asked response -> decision_for a response r -> delivery_calls r l ->
      evaluation_calls item a (CallAdmit a (Ok ()) :: asked ++ CallSave r (Ok ()) :: l).

(** What the journal holds for an item decides what may follow: a saved decision for the same
    authorization is delivered again until it is acknowledged, and only a request without a
    decision is evaluated; either may be held back. *)
Inductive loaded_calls (item : PendingItem) (org : string) : res State -> list dcall -> Prop :=
  | lc_unreadable e : loaded_calls item org (Fail e) []
  | lc_held st : loaded_calls item org (Ok st) []
  | lc_resent st r l : st_Receipt st = Some r -> zlen (st_Application st) = 0%Z ->
      sr_OrgID r = org -> sr_RequestID r = pi_RequestID item -> sr_AuthorizationHash r = pi_AuthorizationHash item ->
      delivery_calls r l -> loaded_calls item org (Ok st) l
  | lc_evaluated st now l : st_Receipt st = None ->
      (forall a, st_Admission st = Some a -> ad_AuthorizationHash a = pi_AuthorizationHash item) ->
      evaluation_calls item (admission_of cfg item org now) l -> loaded_calls item org (Ok st) l.

(** What processing one item may do, in order. *)
Inductive item_calls (item : PendingItem) : list dcall -> Prop :=
  | ic_unnamed e : OrganizationID item = Fail e -> item_calls item []
  | ic_loaded org result l : OrganizationID item = Ok org -> loaded_calls item org result l ->
      item_calls item (CallLoad org (pi_RequestID item) result :: l).

(** A retry of a delivery that was held back; the flag says whether it took the step's turn. *)
Inductive retry_calls : bool -> list dcall -> Prop :=
  | rt_none : retry_calls false []
  | rt_lost org request result : (forall st, result = Ok st -> st_Receipt st = None) ->
      retry_calls true [CallLoad org request result]
  | rt_acknowledged org request st : zlen (st_Application st) <> 0%Z -> retry_calls false [CallLoad org request (Ok st)]
  | rt_sent org request st r l : st_Receipt st = Some r -> zlen (st_Application st) = 0%Z ->
      sr_OrgID r = org -> sr_RequestID r = request -> delivery_calls r l ->
      retry_calls true (CallLoad org request (Ok st) :: l).

(** Recovery attempts at most one delivery, of evidence that the journal has just given. *)
Inductive recovery_calls : list dcall -> Prop :=
  | rc_retried l : retry_calls true l -> recovery_calls l
  | rc_saved l receipts err r l' : retry_calls false l -> r ∈ receipts -> delivery_calls r l' ->
      recovery_calls (l ++ CallPending receipts err :: l')
  | rc_scanned l receipts err turn l' : retry_calls false l -> retry_calls turn l' ->
      recovery_calls (l ++ CallPending receipts err :: l').

(** The page passes the contract, and is not too long. *)
Definition accepted (page : PendingPage) : Prop :=
  (exists raw, page_text page = Some raw /\ is_ok (ParsePendingPage raw) = true) /\ (List.length (pp_Items page) <= 50)%nat.

(** What a step does from one cursor to the next: it recovers, asks for the page at its
    cursor, and handles the items of that page in their order.  The cursor moves on when the
    whole page was handled, and restarts when the backend refuses it. *)
Inductive step_calls (cursor : string) : list dcall -> string -> Prop :=
  | sc_stopped : step_calls cursor [] cursor
  | sc_unanswered l e : recovery_calls l ->
      step_calls cursor (l ++ [CallPage cursor (Fail e)]) (if errors_is e ErrInvalidApprovalCursor then "" else cursor)
  | sc_refused l page : recovery_calls l -> ~ accepted page -> step_calls cursor (l ++ [CallPage cursor (Ok page)]) cursor
  | sc_handled l page its : recovery_calls l -> accepted page -> Forall2 item_calls (pp_Items page) its ->
      step_calls cursor (l ++ CallPage cursor (Ok page) :: List.concat its) (default "" (pp_NextCursor page))
  | sc_interrupted l page ds item rest its : recovery_calls l -> accepted page ->
      pp_Items page = (ds ++ item :: rest)%list -> Forall2 item_calls ds its ->
      step_calls cursor (l ++ CallPage cursor (Ok page) :: List.concat its) cursor.

Lemma silent_due k : silent (due env k).
Proof. unfold due. quiet. Qed.
Lemma silent_suppress k : silent (suppress cfg scaled env k).
Proof.
  unfold suppress. quiet. apply silent_none. intros d r d'. unfold store_suppression. cbv zeta.
  repeat case_match; by intros [= <- <-].
Qed.
Lemma silent_forget k : silent (forget k).
Proof. apply silent_none. by intros d r d' [= <- <-]. Qed.
Lemma silent_receipt a response : silent (receipt keyID key env a response).
Proof. unfold receipt. quiet. Qed.
Hint Resolve silent_due silent_suppress silent_forget silent_receipt : dispatch.

Lemma calls_deliver r : calls (deliver cfg scaled env r) (fun _ l => delivery_calls r l).
Proof.
  unfold deliver. cbv zeta. apply calls_record_then, calls_ask_then. intros [application|e]; [|quiet].
  apply calls_journal_try. intros saved _ _ _ _. quiet.
Qed.

Lemma calls_decide item k : calls (decide_item cfg scaled env item k) (fun r l =>
  match r with
  | Ok (Some response) => decided item l response
  | _ => cfg_Mode cfg = "external" /\ exists response, undecided response /\ l = [CallEvaluate item response]
  end).
Proof.
  unfold decide_item, decided. destruct (cfg_Mode cfg =s "external") eqn:Em; [|by apply calls_ret].
  apply String.eqb_eq in Em. apply calls_ask_then. intros [response|e].
  - destruct (str response "status" =s "PENDING") eqn:Es; [|by apply calls_ret; split; [|apply String.eqb_neq]].
    apply String.eqb_eq in Es.
    assert (Hu : undecided (Ok response)) by done.
    apply silent_bind; [apply silent_suppress|by eauto|]. intros _. apply calls_ret. by eauto.
  - apply silent_bind; [apply silent_suppress|intros e'; split; [done|by exists (Fail e)]|].
    intros _. apply calls_throw. split; [done|]. by exists (Fail e).
Qed.

(** A receipt is made for the admission, or cannot be made. *)
Lemma calls_receipt a response : calls (receipt keyID key env a response) (fun x l => l = [] /\ match x with
  | Ok raw => decision_for a response (saved_of keyID key a raw)
  | Fail e => exists decidedAt, receipt_at keyID key a response decidedAt = Fail e end).
Proof.
  unfold receipt. eapply calls_bind with (P := fun x l => l = [] /\ is_ok x = true).
  { apply calls_none. by intros d r d' [= <- <-]. }
  { by intros e l [_ ?]. }
  intros at_ l [-> _]. apply calls_lift. split; [done|].
  destruct (receipt_at _ _ _ _ _) as [raw|e] eqn:Er; [|by eexists]. unfold receipt_at in Er. inv_ok. subst.
  match goal with Hp : ParseDecisionEnvelope _ = Ok _ |- _ => rename Hp into Hparse end.
  unfold decision_for. do 3 eexists. split_and!; [done|done|by rewrite Hparse|done].
Qed.

Lemma calls_evaluate item org st : st_Receipt st = None ->
  (forall a, st_Admission st = Some a -> ad_AuthorizationHash a = pi_AuthorizationHash item) ->
  calls (evaluate_item cfg keyID key scaled env item org) (fun _ l => loaded_calls item org (Ok st) l).
Proof.
  intros Hr Ha. unfold evaluate_item. cbv zeta.
  apply silent_bind; [apply silent_due|intros; apply lc_held|]. intros ready.
  destruct (negb ready); [apply calls_ret, lc_held|].
  apply silent_bind; [apply silent_ask|intros; apply lc_held|]. intros now.
  eapply calls_mono; [|intros x l; by apply (lc_evaluated item org st now)].
  apply calls_journal_then; [intros e; apply ec_refused|]. intros [] _ _ _ _.
  eapply calls_bind; [apply calls_decide|by intros e l (He & response & Hu & ->); apply ec_undecided|].
  intros [response|] asked Hd.
  2: { apply calls_ret. rewrite app_nil_r. destruct Hd as (He & response & Hu & ->). by apply ec_undecided. }
  eapply calls_bind; [apply calls_receipt| |].
  { intros e l [-> [at_ Hr']]. rewrite app_nil_r. by eapply ec_unmade. }
  intros raw ? [-> Hdec]. apply calls_journal_then; [intros e; by eapply ec_unsaved|]. intros [] _ _ _ _.
  eapply calls_bind with (P := fun x l => l = [] /\ is_ok x = true).
  { apply calls_none. by intros d r d' [= <- <-]. }
  { by intros e l [_ ?]. }
  intros _ l [-> _]. eapply calls_mono; [apply calls_deliver|]. intros x l Hl. cbn [app]. by eapply ec_delivered.
Qed.

Lemma calls_process item : calls (process cfg keyID key scaled env item) (fun _ l => item_calls item l).
Proof.
  unfold process. eapply calls_bind with (P := fun r l => r = OrganizationID item /\ l = []); [by apply calls_lift| |].
  { intros e l [He ->]. by eapply ic_unnamed. }
  intros org l [Ho%symmetry ->]. cbn [app].
  apply calls_journal_then; [intros e; by apply (ic_loaded item org), lc_unreadable|]. intros st j w w' Hload.
  eapply calls_mono with (P := fun _ l => loaded_calls item org (Ok st) l); [|intros x l; by apply ic_loaded].
  match goal with |- calls (if ?c then _ else _) _ => destruct c eqn:Ec end; [apply calls_throw, lc_held|].
  assert (Ha : forall a, st_Admission st = Some a -> ad_AuthorizationHash a = pi_AuthorizationHash item).
  { intros a Ea. rewrite Ea in Ec. by split_bools. }
  destruct (st_Receipt st) as [r|] eqn:Er.
  - destruct (zlen (st_Application st) =? 0)%Z eqn:Ez; [|apply calls_ret, lc_held].
    apply silent_bind; [apply silent_due|intros; apply lc_held|]. intros ready.
    destruct ready; [|apply calls_ret, lc_held].
    destruct (loaded_receipt _ _ _ _ _ _ _ Hload Er) as (Hn & Hq & a & Ea & Hh).
    eapply calls_mono; [apply calls_deliver|]. intros x l Hl. apply (lc_resent item org st r); try done.
    + by apply Z.eqb_eq.
    + by rewrite Hh, (Ha a Ea).
  - apply silent_bind; [apply silent_map|intros; apply lc_held|]. intros b.
    destruct (_ <=? _)%Z; [apply calls_throw, lc_held|by apply calls_evaluate].
Qed.

Lemma silent_next_hint entries best : silent (next_hint env entries best).
Proof. revert best. induction entries as [|[k v] entries IH]; intros best; cbn [next_hint]; quiet. Qed.
Hint Resolve silent_next_hint : dispatch.

(** The result of a retry says whether it took the turn. *)
Definition retried (r : res (bool * option error)) (l : list dcall) : Prop :=
  exists turn e, r = Ok (turn, e) /\ retry_calls turn l /\ (turn = false -> e = None).

(** A program without calls that does not fail. *)
Definition gives {A} (m : D A) : Prop := calls m (fun x l => l = [] /\ is_ok x = true).
Lemma gives_bind {A B} (m : D A) (k : A -> D B) (Q : res B -> list dcall -> Prop) :
  gives m -> (forall a, calls (k a) Q) -> calls (m ≫= k) Q.
Proof.
  intros Hm Hk. eapply calls_bind; [exact Hm|by intros e l [_ ?]|]. intros a l [-> _]. apply Hk.
Qed.
Lemma gives_none {A} (m : D A) :
  (forall d r d', m d = (r, d') -> dp_cursor d' = dp_cursor d /\ dp_calls d' = dp_calls d /\ is_ok r = true) -> gives m.
Proof. intros Hm. apply calls_none. intros d r d' Hr. destruct (Hm _ _ _ Hr) as (? & ? & ?). by split_and!. Qed.
Lemma gives_ask {A} (f : nat -> A) : gives (ask f).
Proof. apply gives_none. by intros d r d' [= <- <-]. Qed.
Lemma gives_map : gives backoff_map.
Proof. apply gives_none. by intros d r d' [= <- <-]. Qed.
Lemma gives_forget k : gives (forget k).
Proof. apply gives_none. by intros d r d' [= <- <-]. Qed.
Lemma gives_ret {A} (a : A) : gives (mret a).
Proof. by apply calls_ret. Qed.
Lemma gives_due k : gives (due env k).
Proof.
  unfold due. apply gives_bind; [apply gives_map|]. intros b. destruct (b !! k); [|apply gives_ret].
  apply gives_bind; [apply gives_ask|]. intros now. apply gives_ret.
Qed.
Lemma gives_suppress k : gives (suppress cfg scaled env k).
Proof.
  unfold suppress. apply gives_bind; [apply gives_map|]. intros b. cbv zeta.
  do 3 (apply gives_bind; [apply gives_ask|intros ?]). apply gives_none. intros d r d'. unfold store_suppression. cbv zeta.
  repeat case_match; by intros [= <- <-].
Qed.
Lemma gives_next_hint entries best : gives (next_hint env entries best).
Proof.
  revert best. induction entries as [|[k v] entries IH]; intros best; cbn [next_hint]; [apply gives_ret|].
  destruct (savedReceipt k); [|apply IH]. apply gives_bind; [apply gives_due|]. intros ready. apply IH.
Qed.
(** A caught delivery. *)
Lemma calls_delivery_then {B} r (k : res unit -> D B) (Q : res B -> list dcall -> Prop) :
  (forall x l, delivery_calls r l -> calls (k x) (fun y l' => Q y (l ++ l')%list)) ->
  calls (dtry (deliver cfg scaled env r) ≫= k) Q.
Proof.
  intros Hk. eapply calls_bind with (P := fun y l => is_ok y = true /\ delivery_calls r l).
  - apply calls_try. eapply calls_mono; [apply calls_deliver|done].
  - by intros e l [? _].
  - intros x l [_ Hl]. by apply Hk.
Qed.

Lemma calls_retry : calls (retrySavedHint cfg scaled env) retried.
Proof.
  unfold retrySavedHint. apply gives_bind; [apply gives_map|]. intros b.
  apply gives_bind; [apply gives_ask|]. intros entries.
  apply gives_bind; [apply gives_next_hint|]. intros [[org request] saved].
  destruct (bool_decide _); [apply calls_ret; exists false, None; split_and!; [done|constructor|done]|].
  apply calls_journal_try. intros [st|e] j w w' Hload.
  2: { apply gives_bind; [apply gives_suppress|]. intros _. apply calls_ret. exists true, (Some e).
       split_and!; [done|by apply rt_lost|done]. }
  destruct (st_Receipt st) as [r|] eqn:Er.
  2: { apply gives_bind; [apply gives_suppress|]. intros _. apply calls_ret. eexists true, _.
       split_and!; [done|apply rt_lost; by intros st' [= <-]|done]. }
  destruct (zlen (st_Application st) =? 0)%Z eqn:Ez; cbn [negb].
  - destruct (loaded_receipt _ _ _ _ _ _ _ Hload Er) as (Hn & Hq & _).
    apply calls_delivery_then. intros x l Hl. apply calls_ret. rewrite app_nil_r. eexists true, _.
    split_and!; [done|apply (rt_sent org request st r); try done; by apply Z.eqb_eq|done].
  - apply gives_bind; [apply gives_forget|]. intros _. apply calls_ret. exists false, None.
    split_and!; [done|apply rt_acknowledged; by apply Z.eqb_neq|done].
Qed.

Lemma calls_pending : calls (pending_receipts env) (fun x l => exists receipts err,
  x = Ok (receipts, err) /\ l = [CallPending receipts err]).
Proof.
  unfold pending_receipts. apply gives_bind; [apply gives_ask|]. intros listing.
  apply gives_bind.
  - apply gives_none. intros d r d'. unfold dtry.
    destruct (PendingReceipts _ _ _ _) as [[[[receipts err] j]|e] w]; by intros [= <- <-].
  - intros found. cbv zeta. apply calls_record_then, calls_ret. by destruct found as [[receipts err]|e]; eexists _, _.
Qed.
Lemma calls_first_due receipts : calls (first_due env receipts) (fun x l =>
  l = [] /\ exists found, x = Ok found /\ forall r, found = Some r -> r ∈ receipts).
Proof.
  induction receipts as [|r receipts IH]; cbn [first_due]; [apply calls_ret; split; [done|]; by exists None|].
  apply gives_bind; [apply gives_due|]. intros [].
  - apply calls_ret. split; [done|]. eexists. split; [done|]. intros r' [= <-]. left.
  - eapply calls_mono; [exact IH|]. intros x l [-> (found & -> & Hf)]. split; [done|]. exists found. split; [done|].
    intros r' Hr'. right. by apply Hf.
Qed.

Lemma calls_recover : calls (recoverSaved cfg scaled env) (fun x l => is_ok x = true /\ recovery_calls l).
Proof.
  unfold recoverSaved. apply gives_bind; [apply gives_none; by intros d r d' [= <- <-]|].
  intros turn. apply calls_bind with (P := retried); [|by intros e l (? & ? & ? & _)|].
  { destruct turn; [apply calls_retry|]. apply calls_ret. exists false, None. split_and!; [done|constructor|done]. }
  intros [early err] l (early' & err' & [= <- <-] & Hl & He). cbn [fst snd].
  destruct early; cbn [orb]; [apply calls_ret; rewrite app_nil_r; by split; [|apply rc_retried]|].
  rewrite (He eq_refl). cbn [is_some].
  eapply calls_bind; [apply calls_pending|by intros e l' (? & ? & ? & _)|].
  intros [receipts result] l' (? & ? & [= <- <-] & ->).
  eapply calls_bind; [apply calls_first_due|by intros e l' (_ & ? & ? & _)|].
  intros found l' (-> & ? & [= <-] & Hin). destruct found as [r|].
  - apply calls_delivery_then. intros x l' Hl'. apply calls_ret. split; [done|]. cbn [app]. rewrite app_nil_r.
    by apply (rc_saved l receipts result r); [|apply Hin|].
  - apply calls_bind with (P := retried); [apply calls_retry|by intros e l' (? & ? & ? & _)|].
    intros [attempted e] l' (turn' & e' & [= <- <-] & Hl' & _).
    destruct (_ || _); apply calls_ret; (split; [done|]); cbn [app]; rewrite app_nil_r; by eapply rc_scanned.
Qed.

(** The items of a page, one after the other, all of them unless the context ends first. *)
Lemma calls_items items result : calls (process_items cfg keyID key scaled env items result) (fun x l =>
  exists its result' finished, l = List.concat its /\ x = Ok (result', finished)
  /\ if finished : bool then Forall2 item_calls items its
     else exists ds item rest, items = (ds ++ item :: rest)%list /\ Forall2 item_calls ds its).
Proof.
  revert result. induction items as [|item items IH]; intros result; cbn [process_items].
  { apply calls_ret. exists [], result, true. by split_and!. }
  apply gives_bind; [apply gives_ask|]. intros [e|].
  { apply calls_ret. eexists [], _, false. split_and!; [done|done|]. by exists [], item, items. }
  eapply calls_bind with (P := fun x l => is_ok x = true /\ item_calls item l).
  - apply calls_try. eapply calls_mono; [apply calls_process|done].
  - by intros e l [? _].
  - intros r l [_ Hl]. eapply calls_mono; [apply IH|]. intros x l' (its & result' & finished & -> & -> & Hf).
    exists (l :: its), result', finished. split_and!; [done|done|]. destruct finished; [by constructor|].
    destruct Hf as (ds & item' & rest & -> & Hf). exists (item :: ds), item', rest. split; [done|]. by constructor.
Qed.

(** What the page is, by the two checks of [Step]. *)
Lemma accepted_iff page :
  accepted page <-> (exists v, (raw ← of_option (page_text page) (ENew "json"); ParsePendingPage raw) = Ok v)
                    /\ (50 <? List.length (pp_Items page))%nat = false.
Proof.
  unfold accepted. rewrite Nat.ltb_ge. f_equiv. destruct (page_text page) as [raw|]; cbn.
  - split; [intros (raw' & [= <-] & Hp); destruct (ParsePendingPage raw); by eauto|intros [v Hv]; exists raw; by rewrite Hv].
  - split; [by intros (? & ? & _)|by intros [? ?]].
Qed.

(** (C28) The protocol of a step, whatever the backend, the organization, the clock and the
    files answer.  Every step returns, and its log is one of those of [step_calls]: it
    delivers at most one saved decision, one that the journal has just given it; it asks for
    the page at its cursor; and if that page passes the contract and has at most 50 items,
    it handles exactly these items, each once and in their order.  An item is looked up in
    the journal first; a decision saved for the same authorization is delivered again until
    it is acknowledged; an item without one is evaluated at most once, and only after the
    journal took its admission, decided by the final answer given for it (or by the
    configured auto-approval), signed, and sent only after the journal took the decision.
    The cursor moves to the page's next one exactly when all its items were handled. *)
Theorem Step_protocol d r d' : Step cfg keyID key scaled env d = (r, d') ->
  is_ok r = true /\ exists log, dp_calls d' = (dp_calls d ++ log)%list /\ step_calls (dp_cursor d) log (dp_cursor d').
Proof.
  unfold Step. intros E. unfold mbind at 1, D_bind at 1, ask at 1 in E. set (d0 := Build_Dispatcher _ _ _ _ _ _ _ _) in E.
  destruct (env_ctx env (dp_answers d)) as [e|].
  { injection E as <- <-. split; [done|]. exists []. rewrite app_nil_r. split; [done|]. apply sc_stopped. }
  unfold mbind at 1, D_bind at 1 in E. destruct (recoverSaved cfg scaled env d0) as [rec d1] eqn:Er.
  destruct (calls_recover _ _ _ Er) as (C1 & lrec & H1 & Hok & Hrec). destruct rec as [rec|]; [|done]. cbn in C1, H1.
  cbv zeta in E. unfold mbind at 1, D_bind at 1 in E.
  destruct (ask_call (CallPage (dp_cursor d1)) (fun n => env_page env n (dp_cursor d1)) d1) as [page d2] eqn:Ep.
  destruct (calls_asked _ _ _ _ _ Ep) as (C2 & ? & H2 & answer & -> & ->). rewrite C1 in H2.
  assert (H12 : forall l, (dp_calls d2 ++ l = dp_calls d ++ lrec ++ CallPage (dp_cursor d) answer :: l)%list).
  { intros l. rewrite H2, H1, <- !app_assoc. done. }
  destruct answer as [page|e].
  2: { injection E as <- <-. split; [done|]. exists (lrec ++ [CallPage (dp_cursor d) (Fail e)])%list.
       split; [rewrite <- (H12 []), app_nil_r; by destruct (errors_is e ErrInvalidApprovalCursor)|].
       eapply eq_ind; [by apply (sc_unanswered (dp_cursor d) lrec e)|]. destruct (errors_is e ErrInvalidApprovalCursor); [done|cbn; congruence]. }
  pose proof (accepted_iff page) as Hacc.
  assert (Hrefused : ~ accepted page -> forall x : option error, (Ok x, d2) = (r, d') ->
    is_ok r = true /\ exists log, dp_calls d' = (dp_calls d ++ log)%list /\ step_calls (dp_cursor d) log (dp_cursor d')).
  { intros Hn x [= <- <-]. split; [done|]. exists (lrec ++ [CallPage (dp_cursor d) (Ok page)])%list.
    split; [by rewrite <- (H12 []), app_nil_r|]. rewrite C2, C1. by apply sc_refused. }
  destruct (raw ← of_option (page_text page) (ENew "json"); ParsePendingPage raw) as [v|e].
  2: { eapply Hrefused; [|exact E]. rewrite Hacc. by intros [[? ?] _]. }
  destruct (50 <? List.length (pp_Items page))%nat.
  { eapply Hrefused; [|exact E]. rewrite Hacc. by intros [_ ?]. }
  assert (Hyes : accepted page) by (apply Hacc; eauto). unfold mbind at 1, D_bind at 1 in E.
  destruct (process_items cfg keyID key scaled env (pp_Items page) _ d2) as [x d3] eqn:Ei.
  destruct (calls_items _ _ _ _ _ Ei) as (C3 & ? & H3 & its & result & finished & -> & -> & Hits).
  rewrite H12 in H3. destruct finished; injection E as <- <-; (split; [done|]); cbn [dp_calls dp_cursor with_cursor];
    (eexists; split; [exact H3|]).
  - by apply sc_handled.
  - destruct Hits as (ds & item & rest & Hp & Hf). rewrite C3, C2, C1. by eapply sc_interrupted.
Qed.
End Protocol.

(** * What a step leaves behind *)

Section Progress.
Context `{Externals} `{TxCodecs}.
Context (cfg : Config) (keyID : string) (key : bytes) (scaled : Z -> option duration) (env : Environment).
Context (env_order_perm : forall n b, env_order env n b ≡ₚ map_to_list b).

(** The journal directory [dir] durably holds the decision [r], valid for its admission. *)
Definition deliverable (dir : string) (w : world) (r : SavedReceipt) : Prop :=
  exists j st, j_directory j = dir /\ evidence (durable w) j (sr_OrgID r) (sr_RequestID r) st
  /\ st_Receipt st = Some r.
(** The backend's answer to the decision of a request is durably in the journal. *)
Definition acknowledged (dir : string) (w : world) (org request : string) : Prop :=
  exists j raw, j_directory j = dir /\ durable w (journal_path j org request "ack") raw.

(** What leaves the process: a decision that is durably in the journal. *)
Definition call_ok (dir : string) (w : world) (c : dcall) : Prop :=
  match c with
  | CallSend request body => exists r, deliverable dir w r /\ request = sr_RequestID r /\ body = sr_Bytes r
  | _ => True
  end.

Record progress (d d' : Dispatcher) : Prop := {
  pg_directory : j_directory (dp_journal d') = j_directory (dp_journal d);
  pg_inv : inv (dp_world d');
  pg_evolves : evolves (dp_world d) (dp_world d');
  pg_size : (Z.of_nat (size (dp_backoff d)) <= 1000)%Z -> (Z.of_nat (size (dp_backoff d')) <= 1000)%Z;
  pg_hints org request : is_Some (dp_backoff d !! (org, request, true)) ->
    is_Some (dp_backoff d' !! (org, request, true))
    \/ acknowledged (j_directory (dp_journal d)) (dp_world d') org request;
  pg_calls : exists new, dp_calls d' = (dp_calls d ++ new)%list
    /\ Forall (call_ok (j_directory (dp_journal d)) (dp_world d')) new;
}.

Lemma deliverable_later dir w w' r : evolves w w' -> deliverable dir w r -> deliverable dir w' r.
Proof.
  intros He (j & st & Hd & Hev & Hr). exists j, st. split_and!; [done| |done].
  eapply evidence_mono; [|exact Hev]. intros kind raw. apply durable_evolves; [apply record_not_temporary|done].
Qed.
Lemma acknowledged_later dir w w' org request : evolves w w' ->
  acknowledged dir w org request -> acknowledged dir w' org request.
Proof.
  intros He (j & raw & Hd & Hr). exists j, raw. split; [done|].
  eapply durable_evolves; [apply record_not_temporary|done|done].
Qed.
Lemma call_ok_later dir w w' c : evolves w w' -> call_ok dir w c -> call_ok dir w' c.
Proof. destruct c; cbn; try done. intros He (r & ? & ?). exists r. eauto using deliverable_later. Qed.

Lemma progress_refl d : inv (dp_world d) -> progress d d.
Proof. intros Hi. constructor; [done|done|reflexivity|done|by left|]. exists []. by rewrite app_nil_r. Qed.
Lemma progress_trans d1 d2 d3 : progress d1 d2 -> progress d2 d3 -> progress d1 d3.
Proof.
  intros [Hd1 Hi1 He1 Hs1 Hh1 (n1 & Hc1 & Hf1)] [Hd2 Hi2 He2 Hs2 Hh2 (n2 & Hc2 & Hf2)].
  constructor; [congruence|done|by etrans|auto| |].
  - intros org request Hin. destruct (Hh1 _ _ Hin) as [Hin2|Ha]; [|right; by eapply acknowledged_later].
    destruct (Hh2 _ _ Hin2) as [|Ha]; [by left|right]. by rewrite <- Hd1.
  - exists (n1 ++ n2)%list. rewrite Hc2, Hc1, app_assoc. split; [done|]. apply Forall_app. split.
    + eapply Forall_impl; [exact Hf1|]. intros c. by apply call_ok_later.
    + by rewrite <- Hd1.
Qed.

(** [m] run in [d] makes progress, and a result satisfies [Q]. *)
Definition runs {A} (d : Dispatcher) (m : D A) (Q : A -> Dispatcher -> Prop) : Prop := forall r d',
  inv (dp_world d) -> m d = (r, d') -> progress d d' /\ forall a, r = Ok a -> Q a d'.

Lemma runs_bind {A B} d (m : D A) (k : A -> D B) R Q : runs d m R ->
  (forall a d1, progress d d1 -> R a d1 -> runs d1 (k a) Q) -> runs d (m ≫= k) Q.
Proof.
  intros Hm Hk r d' Hi. unfold mbind, D_bind. destruct (m d) as [[a|e] d1] eqn:E; intros Hr;
    destruct (Hm _ _ Hi E) as [Hp HR].
  - destruct (Hk a d1 Hp (HR a eq_refl) _ _ (pg_inv _ _ Hp) Hr) as [Hp2 HQ]. split; [by eapply progress_trans|done].
  - injection Hr as <- <-. by split.
Qed.
Lemma runs_weaken {A} d (m : D A) (Q Q' : A -> Dispatcher -> Prop) :
  runs d m Q -> (forall a d', Q a d' -> Q' a d') -> runs d m Q'.
Proof. intros Hm Hq r d' Hi Hr. destruct (Hm _ _ Hi Hr). split; [done|]. eauto. Qed.
Lemma runs_ret {A} d (a : A) (Q : A -> Dispatcher -> Prop) : Q a d -> runs d (mret a) Q.
Proof. intros HQ r d' Hi [= <- <-]. split; [by apply progress_refl|]. by intros ? [= <-]. Qed.
Lemma runs_throw {A} d e (Q : A -> Dispatcher -> Prop) : runs d (dthrow e) Q.
Proof. intros r d' Hi [= <- <-]. split; [by apply progress_refl|done]. Qed.
Lemma runs_lift {A} d (x : res A) (Q : A -> Dispatcher -> Prop) : (forall a, x = Ok a -> Q a d) -> runs d (dlift x) Q.
Proof. intros HQ r d' Hi [= <- <-]. split; [by apply progress_refl|done]. Qed.
Lemma runs_try {A} d (m : D A) (Q : A -> Dispatcher -> Prop) :
  runs d m Q -> runs d (dtry m) (fun r d' => forall a, r = Ok a -> Q a d').
Proof.
  intros Hm r d' Hi. unfold dtry. destruct (m d) as [r0 d0] eqn:E. intros [= <- <-].
  destruct (Hm _ _ Hi E) as [Hp HQ]. split; [done|]. by intros ? [= <-].
Qed.
(** A change of the dispatcher's own fields that touches neither files nor the table. *)
Lemma progress_same d d' : inv (dp_world d) -> dp_journal d' = dp_journal d -> dp_world d' = dp_world d ->
  dp_backoff d' = dp_backoff d -> dp_calls d' = dp_calls d -> progress d d'.
Proof.
  intros Hi Hj Hw Hb Hc. constructor; rewrite ?Hj, ?Hw, ?Hb, ?Hc; try done; [by left|].
  exists []. by rewrite app_nil_r.
Qed.
Lemma runs_ask {A} d (f : nat -> A) : runs d (ask f) (fun a d' => dp_backoff d' = dp_backoff d /\ exists n, a = f n).
Proof. intros r d' Hi [= <- <-]. split; [by apply progress_same|]. intros a [= <-]. eauto. Qed.
Lemma runs_map d : runs d backoff_map (fun b d' => d' = d /\ b = dp_backoff d).
Proof. intros r d' Hi [= <- <-]. split; [by apply progress_refl|]. by intros ? [= <-]. Qed.
Lemma runs_journal {A} d (f : Journal -> M A) : safe (f (dp_journal d)) ->
  runs d (on_journal f) (fun a d' => inv (dp_world d) /\ dp_journal d' = dp_journal d
    /\ f (dp_journal d) (dp_world d) = (Ok a, dp_world d')).
Proof.
  intros Hs r d' Hi. unfold on_journal. destruct (f _ _) as [r0 w] eqn:E. intros [= <- <-].
  destruct (safe_run _ _ _ _ Hs E Hi) as [Hi' He]. split; [|by intros a [= ->]].
  constructor; cbn; try done; [by left|]. exists []. by rewrite app_nil_r.
Qed.
Lemma runs_record d c : call_ok (j_directory (dp_journal d)) (dp_world d) c -> runs d (record c) (fun _ _ => True).
Proof.
  intros Hc r d' Hi [= <- <-]. split; [|done]. constructor; cbn; try done; [by left|].
  exists [c]. by repeat constructor.
Qed.
(** The logged question and the logged journal operation. *)
Lemma runs_ask_call {A} d (c : A -> dcall) (f : nat -> A) : (forall a dir w, call_ok dir w (c a)) ->
  runs d (ask_call c f) (fun _ _ => True).
Proof.
  intros Hc. unfold ask_call. eapply runs_bind; [apply runs_ask|]. intros a d1 _ _.
  eapply runs_bind; [by apply runs_record|]. intros. by apply runs_ret.
Qed.
Lemma runs_journal_call {A} d (c : res A -> dcall) (f : Journal -> M A) : safe (f (dp_journal d)) ->
  (forall x dir w, call_ok dir w (c x)) ->
  runs d (journal_call c f) (fun a d' => inv (dp_world d) /\ dp_journal d' = dp_journal d
    /\ f (dp_journal d) (dp_world d) = (Ok a, dp_world d')).
Proof.
  intros Hs Hc r d' Hi. unfold journal_call, mbind, D_bind, dtry. destruct (on_journal f d) as [x d1] eqn:E.
  destruct (runs_journal d f Hs x d1 Hi E) as [Hp HQ].
  destruct (record (c x) d1) as [y d2] eqn:Er. destruct (runs_record d1 (c x) (Hc _ _ _) y d2 (pg_inv _ _ Hp) Er) as [Hp2 _].
  unfold record in Er. injection Er as <- <-. cbn. intros [= <- <-]. split; [by eapply progress_trans|].
  intros a Ha. exact (HQ a Ha).
Qed.
Lemma runs_due d k : runs d (due env k) (fun _ _ => True).
Proof.
  unfold due. eapply runs_bind; [apply runs_map|]. intros b d1 _ [-> ->]. destruct (_ !! _); [|by apply runs_ret].
  eapply runs_bind; [apply runs_ask|]. intros. by apply runs_ret.
Qed.
Lemma runs_forget d k : (forall org request, k = (org, request, true) ->
    acknowledged (j_directory (dp_journal d)) (dp_world d) org request) ->
  runs d (forget k) (fun _ _ => True).
Proof.
  intros Hk r d' Hi [= <- <-]. split; [|done]. constructor; cbn; try done.
  - intros Hs. enough (size (delete k (dp_backoff d)) <= size (dp_backoff d))%nat by (unfold suppressionKey in *; lia).
    unfold suppressionKey; rewrite map_size_delete. case_match; cbn; lia.
  - intros org request Hin. destruct (decide (k = (org, request, true))) as [->|Hne]; [right; by apply Hk|left].
    by rewrite lookup_delete_ne.
  - exists []. by rewrite app_nil_r.
Qed.

(** The evicted entry is one of an evaluation. *)
Lemma oldest_spec entries best :
  let oldest := (fold_left older entries best).1 in
  oldest = best.1 \/ savedReceipt oldest = false /\ exists s, (oldest, s) ∈ entries.
Proof.
  revert best. induction entries as [|[k v] entries IH]; intros best; cbn [fold_left]; [by left|].
  destruct (IH (older best (k, v))) as [E|(Hs & s & Hin)]; cbv zeta in *.
  - rewrite E. unfold older. cbn [fst snd]. destruct (_ && _) eqn:Eb; [|by left].
    apply andb_true_iff in Eb as [Eb _]. right. split; [by apply negb_true_iff|]. exists v. by left.
  - right. split; [done|]. exists s. by right.
Qed.

Lemma runs_suppress d k : runs d (suppress cfg scaled env k) (fun _ _ => True).
Proof.
  unfold suppress. eapply runs_bind; [apply runs_map|]. intros b d1 _ [-> ->]. cbv zeta.
  set (attempts := if (_ <? 1024)%Z then _ else _). clearbody attempts.
  eapply runs_bind; [apply runs_ask|]. intros now d1 _ [H1 _].
  eapply runs_bind; [apply runs_ask|]. intros jitter d2 _ [H2 _].
  eapply runs_bind; [apply runs_ask|]. intros entries d3 _ (H3 & n & He). cbn beta in He.
  rewrite <- H1, <- H2, <- H3 in He. clear H1 H2 H3. generalize dependent d3. clear d1 d2 d.
  intros d He r d' Hi. unfold store_suppression. cbv zeta. set (s := Build_suppression _ _ _). clearbody s.
  destruct (bool_decide _ || _) eqn:Eb.
  { intros [= <- <-]. split; [|done]. constructor; cbn; try done.
    - rewrite map_size_insert. apply orb_true_iff in Eb as [Eb|Eb].
      + apply bool_decide_eq_true in Eb. destruct Eb as [? Eb]. by rewrite Eb.
      + destruct (_ !! _); cbn; lia.
    - intros org request Hin. left. by apply lookup_insert_is_Some'; right.
    - exists []. by rewrite app_nil_r. }
  apply orb_false_iff in Eb as [_ Eb].
  destruct (bool_decide _) eqn:Ez; intros [= <- <-]; (split; [|done]).
  { by apply progress_same. }
  apply bool_decide_eq_false in Ez.
  destruct (oldest_spec entries (zero_key, max_uint64)) as [|(Hs & s' & Hin)]; [done|]. fold (oldest_evaluation entries) in *.
  set (oldest := oldest_evaluation entries) in *. clearbody oldest.
  rewrite He, env_order_perm, elem_of_map_to_list in Hin.
  constructor; cbn; try done.
  - rewrite map_size_insert, map_size_delete, Hin. case_match; cbn; [lia|].
    enough (size (dp_backoff d) <> 0%nat) by lia. intros E0. apply map_size_empty_iff in E0. by rewrite E0 in Hin.
  - intros org request Hi'. left. apply lookup_insert_is_Some'. right. rewrite lookup_delete_ne; [done|].
    intros E. by rewrite E in Hs.
  - exists []. by rewrite app_nil_r.
Qed.

(** What a successful journal operation leaves. *)
Lemma loaded_deliverable j org request st r w w' : Load j org request w = (Ok st, w') ->
  st_Receipt st = Some r -> deliverable (j_directory j) w' r.
Proof.
  intros Hl Hr. apply loadStateLocked_evidence in Hl.
  destruct (ev_receipt _ _ _ _ _ Hl r Hr) as (a & Ha & Hv & _).
  destruct (ev_admission _ _ _ _ _ Hl a Ha) as (Ho & Hq & _).
  unfold validateReceipt in Hv. step_if Hv. split_bools.
  exists j, st. split_and!; [done| |done].
  by replace (sr_OrgID r) with org by congruence; replace (sr_RequestID r) with request by congruence.
Qed.

Lemma loaded_acknowledged j org request st w w' : Load j org request w = (Ok st, w') ->
  zlen (st_Application st) <> 0%Z -> acknowledged (j_directory j) w' org request.
Proof.
  intros Hl Hz. apply loadStateLocked_evidence in Hl.
  destruct (ev_application _ _ _ _ _ Hl) as (r & _ & _ & raw & ack & Hd & _); [|by exists j, raw].
  intros E. by rewrite E in Hz.
Qed.

Lemma SaveReceipt_deliverable j r w w' : inv w -> SaveReceipt j r w = (Ok (), w') ->
  deliverable (j_directory j) w' r.
Proof.
  intros Hi Hs. unfold SaveReceipt in Hs. run_ok.
  match goal with Hl : loadStateLocked _ _ _ _ = _ |- _ =>
    destruct (safe_run _ _ _ _ (safe_loadStateLocked j _ _) Hl Hi) as [Hi1 _]; apply loadStateLocked_evidence in Hl as Hev end.
  match goal with Ha : st_Admission _ = Some ?a, Hv : validateReceipt ?a _ = Ok ?u |- _ =>
    destruct u; rename a into admission; rename Ha into Hadm; rename Hv into Hval end.
  destruct (ev_admission _ _ _ _ _ Hev admission Hadm) as (Ho & Hq & Hok & raw & Hd & Hdec).
  destruct (receipt_utf8 admission r Hok Hval) as (Hver & _ & _ & Hu).
  destruct (put_wrote _ _ _ _ _ _ _ Hi1 Hs) as (_ & _ & Hput).
  pose proof (safe_run _ _ _ _ (safe_put j _ _ (record_not_temporary j _ _ _)) Hs Hi1) as [_ He].
  exists j, {| st_Admission := Some admission; st_Receipt := Some r; st_Application := ""; st_Execution := None |}.
  split_and!; [done| |done]. constructor; cbn; try done.
  - intros a [= <-]. split_and!; try done. exists raw. split; [|done].
    eapply durable_evolves; [apply record_not_temporary|exact He|done].
  - intros r' [= <-]. exists admission. split_and!; try done. eexists. split; [exact Hput|by apply receipt_roundtrip].
Qed.

Lemma Acknowledge_acknowledged j org request application w w' : inv w ->
  Acknowledge j org request application w = (Ok (), w') -> acknowledged (j_directory j) w' org request.
Proof.
  intros Hi Hs. unfold Acknowledge in Hs. run_ok.
  match goal with Hl : loadStateLocked _ _ _ _ = _ |- _ =>
    destruct (safe_run _ _ _ _ (safe_loadStateLocked j _ _) Hl Hi) as [Hi1 _] end.
  destruct (put_wrote _ _ _ _ _ _ _ Hi1 Hs) as (_ & _ & Hput). exists j. by eexists.
Qed.

Lemma pending_scan_deliverable j limit names err w receipts err' rest w' : inv w ->
  pending_scan j limit names err w = (Ok (receipts, err', rest), w') ->
  Forall (deliverable (j_directory j) w') receipts.
Proof.
  revert names err w. induction limit as [|limit IH]; intros names err w Hi Hp; cbn [pending_scan] in Hp; [by run_ok|].
  apply bind_Ok_inv in Hp as (scanned & w1 & H1 & Hp).
  assert (Hs : safe (FileSystem.attempt (sys (fun w => (Ok (), w))))) by solve_safe.
  destruct (safe_run _ _ _ _ Hs H1 Hi) as [Hi1 _].
  destruct scanned; [|by run_ok]. destruct names as [|name names]; [by run_ok|].
  apply bind_Ok_inv in Hp as (found & w2 & H2 & Hp).
  assert (Hs2 : safe (FileSystem.attempt (pending_name j name))) by (unfold pending_name; solve_safe).
  destruct (safe_run _ _ _ _ Hs2 H2 Hi1) as [Hi2 _].
  destruct found as [[r|]|]; [|by eapply IH..]. run_ok. constructor; [|done].
  apply attempt_Ok_inv in H2 as (? & E & H2). injection E as <-. unfold pending_name in H2. run_ok.
  match goal with Hl : loadStateLocked _ _ _ _ = _ |- _ => by eapply loaded_deliverable in Hl end.
Qed.

(** * The dispatcher's programs make progress *)

Lemma progress_deliverable d d' r : progress d d' ->
  deliverable (j_directory (dp_journal d)) (dp_world d) r ->
  deliverable (j_directory (dp_journal d')) (dp_world d') r.
Proof. intros Hp. rewrite (pg_directory _ _ Hp). apply deliverable_later, Hp. Qed.

Lemma runs_deliver d r : deliverable (j_directory (dp_journal d)) (dp_world d) r ->
  runs d (deliver cfg scaled env r) (fun _ _ => True).
Proof.
  intros Hr. unfold deliver. cbv zeta.
  eapply runs_bind; [apply runs_record; by exists r|]. intros _ d1 P1 _.
  eapply runs_bind; [by apply runs_ask_call|]. intros [application|e] d2 P2 _.
  2: { eapply runs_bind; [apply runs_suppress|]. intros. apply runs_throw. }
  eapply runs_bind; [apply runs_try, runs_journal_call; [apply safe_Acknowledge|done]|]. intros saved d4 P4 Hsaved.
  destruct saved as [[]|e]; [|eapply runs_bind; [apply runs_suppress|]; intros; apply runs_throw].
  destruct (Hsaved () eq_refl) as (Hi & Hj & Hk).
  eapply runs_bind; [apply runs_forget|].
  - intros org request [= <- <-]. rewrite Hj. by eapply Acknowledge_acknowledged.
  - intros _ d5 _ _. eapply runs_bind; [by apply runs_lift with (Q := fun _ _ => True)|]. intros parsed d6 _ _.
    destruct (_ =s _); [apply runs_throw|by apply runs_ret].
Qed.

Lemma runs_decide d item k : runs d (decide_item cfg scaled env item k) (fun _ _ => True).
Proof.
  unfold decide_item. destruct (_ =s _); [|by apply runs_ret].
  eapply runs_bind; [by apply runs_ask_call|]. intros response d1 _ _.
  destruct response as [response|e]; [destruct (_ =s _); [|by apply runs_ret]|];
    (eapply runs_bind; [apply runs_suppress|]; intros; first [by apply runs_ret|apply runs_throw]).
Qed.

Lemma runs_evaluate d item org : runs d (evaluate_item cfg keyID key scaled env item org) (fun _ _ => True).
Proof.
  unfold evaluate_item. cbv zeta. eapply runs_bind; [apply runs_due|]. intros ready d1 _ _.
  destruct (negb ready); [by apply runs_ret|].
  eapply runs_bind; [apply runs_ask|]. intros now d2 _ _.
  eapply runs_bind; [apply runs_journal_call; [apply safe_Admit|done]|]. intros _ d4 _ _.
  eapply runs_bind; [apply runs_decide|]. intros [response|] d5 _ _; [|by apply runs_ret].
  eapply runs_bind with (R := fun _ _ => True).
  { unfold receipt. eapply runs_bind; [apply runs_ask|]. intros. by apply runs_lift. }
  intros raw d6 _ _.
  eapply runs_bind; [apply runs_journal_call; [apply safe_SaveReceipt|done]|]. intros [] d8 _ (Hi & Hj & Hk).
  eapply runs_bind; [by apply runs_forget|]. intros _ d9 P9 _. apply runs_deliver.
  eapply progress_deliverable; [exact P9|]. rewrite Hj. by eapply SaveReceipt_deliverable.
Qed.

Lemma runs_process d item : runs d (process cfg keyID key scaled env item) (fun _ _ => True).
Proof.
  unfold process. eapply runs_bind; [by apply runs_lift with (Q := fun _ _ => True)|]. intros org d1 _ _.
  eapply runs_bind; [apply runs_journal_call; [apply safe_loadStateLocked|done]|]. intros st d2 _ (_ & Hj & Hl).
  match goal with |- runs _ (if ?c then _ else _) _ => destruct c end; [apply runs_throw|].
  destruct (st_Receipt st) as [r|] eqn:Er.
  - destruct (_ =? _)%Z; [|by apply runs_ret]. eapply runs_bind; [apply runs_due|]. intros ready d3 P3 _.
    destruct ready; [|by apply runs_ret]. apply runs_deliver. eapply progress_deliverable; [exact P3|].
    rewrite Hj. by eapply loaded_deliverable.
  - eapply runs_bind; [apply runs_map|]. intros b d3 _ _. destruct (_ <=? _)%Z; [apply runs_throw|apply runs_evaluate].
Qed.

Lemma runs_next_hint d entries best : runs d (next_hint env entries best) (fun k _ => savedReceipt best.1 = false \/ savedReceipt k = true).
Proof.
  revert d best. induction entries as [|[k v] entries IH]; intros d best; cbn [next_hint].
  - apply runs_ret. destruct (savedReceipt best.1); auto.
  - destruct (savedReceipt k) eqn:Ek; [|apply IH]. eapply runs_bind; [apply runs_due|]. intros ready d1 _ _.
    eapply runs_weaken; [apply IH|]. destruct (_ && _); cbn; [|done]. intros a _ [?|?]; [congruence|by right].
Qed.

Lemma runs_retry d : runs d (retrySavedHint cfg scaled env) (fun _ _ => True).
Proof.
  unfold retrySavedHint. eapply runs_bind; [apply runs_map|]. intros b d1 _ _.
  eapply runs_bind; [apply runs_ask|]. intros entries d2 _ _.
  eapply runs_bind; [apply runs_next_hint|]. intros [[org request] saved] d3 _ _.
  destruct (bool_decide _); [by apply runs_ret|].
  eapply runs_bind; [apply runs_try, runs_journal_call; [apply safe_loadStateLocked|done]|]. intros [st|e] d4 P4 Hst.
  2: { eapply runs_bind; [apply runs_suppress|]. intros. by apply runs_ret. }
  destruct (Hst st eq_refl) as (_ & Hj & Hl).
  destruct (st_Receipt st) as [r|] eqn:Er.
  2: { eapply runs_bind; [apply runs_suppress|]. intros. by apply runs_ret. }
  destruct (negb _) eqn:Ez.
  - eapply runs_bind; [apply runs_forget|intros; by apply runs_ret].
    intros org' request' [= <- <- ->]. rewrite Hj. eapply loaded_acknowledged; [exact Hl|].
    apply negb_true_iff in Ez. by apply Z.eqb_neq.
  - eapply runs_bind; [apply runs_try, runs_deliver|intros; by apply runs_ret].
    rewrite Hj. by eapply loaded_deliverable.
Qed.

Lemma runs_pending d : runs d (pending_receipts env) (fun found d' =>
  Forall (deliverable (j_directory (dp_journal d')) (dp_world d')) found.1).
Proof.
  unfold pending_receipts. eapply runs_bind; [apply runs_ask|]. intros listing d1 _ _.
  eapply runs_bind with (R := fun r d' => forall found, r = Ok found ->
    Forall (deliverable (j_directory (dp_journal d')) (dp_world d')) found.1).
  - apply runs_try. intros r d' Hi.
    destruct (PendingReceipts _ _ _ _) as [x w] eqn:E. intros Hx.
    destruct (safe_run _ _ _ _ (safe_PendingReceipts _ _ _) E Hi) as [Hi' He].
    assert (Hp : forall j', j_directory j' = j_directory (dp_journal d1) -> progress d1 (with_world j' w d1)).
    { intros j' Hj. constructor; cbn; try done; [by left|]. exists []. by rewrite app_nil_r. }
    destruct x as [[[receipts err] j]|e]; injection Hx as <- <-; [|by split; [apply Hp|]].
    unfold PendingReceipts in E. destruct (_ || _); [discriminate E|].
    apply bind_Ok_inv in E as (u & w1 & E1 & E). apply bind_Ok_inv in E as (names & w2 & E2 & E).
    apply bind_Ok_inv in E as ([[receipts' err'] rest] & w3 & E3 & E). injection E as <- <- <- <-.
    split; [by apply Hp|]. intros found [= <-]. cbn.
    destruct (safe_run _ _ _ _ (safe_check _) E1 Hi) as [Hi1 _].
    assert (Hs : safe (match j_scan (dp_journal d1) with Some names => mret names
                       | None => sys (fun w => (Ok listing, w)) end)) by (destruct (j_scan _); solve_safe).
    destruct (safe_run _ _ _ _ Hs E2 Hi1) as [Hi2 _]. exact (pending_scan_deliverable _ _ _ _ _ _ _ _ _ Hi2 E3).
  - intros found d2 _ Hf. cbv zeta. eapply runs_bind with (R := fun _ d' =>
      Forall (deliverable (j_directory (dp_journal d')) (dp_world d')) match found with Ok r => r.1 | Fail _ => [] end).
    + intros r d' Hi E. destruct (runs_record d2 (CallPending _ _) I r d' Hi E) as [Hp _]. split; [done|]. intros [] _.
      injection E as _ <-. destruct found as [found|e]; [by apply Hf|constructor].
    + intros _ d3 _ Hf3. apply runs_ret. by destruct found.
Qed.

Lemma runs_first_due d receipts : Forall (deliverable (j_directory (dp_journal d)) (dp_world d)) receipts ->
  runs d (first_due env receipts) (fun found d' => forall r, found = Some r ->
    deliverable (j_directory (dp_journal d')) (dp_world d') r).
Proof.
  intros Hf. revert d Hf. induction receipts as [|r receipts IH]; intros d Hf; cbn [first_due]; [by apply runs_ret|].
  inversion Hf as [|? ? Hr Hf']; subst. eapply runs_bind; [apply runs_due|]. intros ready d1 P1 _. destruct ready.
  - apply runs_ret. intros r' [= <-]. by eapply progress_deliverable.
  - apply IH. eapply Forall_impl; [exact Hf'|]. intros r'. by apply progress_deliverable.
Qed.

Lemma runs_recover d : runs d (recoverSaved cfg scaled env) (fun _ _ => True).
Proof.
  unfold recoverSaved. eapply runs_bind with (R := fun _ _ => True).
  { intros r d' Hi [= <- <-]. split; [by apply progress_same|done]. }
  intros turn d1 _ _. eapply runs_bind with (R := fun _ _ => True).
  { destruct turn; [apply runs_retry|by apply runs_ret]. }
  intros early d2 _ _. destruct (_ || _); [by apply runs_ret|].
  eapply runs_bind; [apply runs_pending|]. intros [receipts result] d3 _ Hf. cbn [fst] in Hf.
  eapply runs_bind; [by apply runs_first_due|]. intros [r|] d4 _ Hr.
  - eapply runs_bind; [apply runs_try, runs_deliver; by apply Hr|]. intros. by apply runs_ret.
  - eapply runs_bind; [apply runs_retry|]. intros [attempted e] d5 _ _. by destruct (_ || _); apply runs_ret.
Qed.

Lemma runs_items d items result : runs d (process_items cfg keyID key scaled env items result) (fun _ _ => True).
Proof.
  revert d result. induction items as [|item items IH]; intros d result; cbn [process_items]; [by apply runs_ret|].
  eapply runs_bind; [apply runs_ask|]. intros [e|] d1 _ _; [by apply runs_ret|].
  eapply runs_bind; [apply runs_try, runs_process|]. intros. apply IH.
Qed.

Lemma runs_Step d : runs d (Step cfg keyID key scaled env) (fun _ _ => True).
Proof.
  unfold Step. eapply runs_bind; [apply runs_ask|]. intros [e|] d1 _ _; [by apply runs_ret|].
  eapply runs_bind; [apply runs_recover|]. intros recovered d2 _ _. cbv zeta.
  eapply runs_bind with (R := fun _ _ => True).
  { intros r d' Hi Hr. eapply (runs_ask_call d2 _ (fun n => env_page env n (dp_cursor d2))); [|done|exact Hr]. done. }
  intros [page|e] d3 _ _.
  - match goal with |- runs _ (match ?x with _ => _ end) _ => destruct x end; [|by apply runs_ret].
    destruct (_ <? _)%nat; [by apply runs_ret|].
    eapply runs_bind; [apply runs_items|]. intros [result finished] d4 _ _. destruct finished; [|by apply runs_ret].
    eapply runs_bind with (R := fun _ _ => True); [|intros; by apply runs_ret].
    intros r d' Hi [= <- <-]. split; [by apply progress_same|done].
  - eapply runs_bind with (R := fun _ _ => True); [|intros; by apply runs_ret].
    intros r d' Hi [= <- <-]. split; [|done]. destruct (errors_is _ _); [by apply progress_same|by apply progress_refl].
Qed.

(** Only saved decisions leave the process: whatever the backend, the organization and
    the files do, every decision a step sends is one whose receipt, valid for its admission,
    is durably in the journal when the step ends, and so survives any crash after it. *)
Theorem Step_sends_saved d r d' request body : inv (dp_world d) ->
  Step cfg keyID key scaled env d = (r, d') -> CallSend request body ∈ drop (List.length (dp_calls d)) (dp_calls d') ->
  exists saved, deliverable (j_directory (dp_journal d)) (dp_world d') saved
  /\ request = sr_RequestID saved /\ body = sr_Bytes saved.
Proof.
  intros Hi Hs Hin. destruct (runs_Step d _ _ Hi Hs) as [Hp _]. destruct (pg_calls _ _ Hp) as (new & Hc & Hf).
  rewrite Hc, drop_app_length in Hin. rewrite Forall_forall in Hf. exact (Hf _ Hin).
Qed.

(** The retry table stays within its 1000 entries, and makes room only at the expense
    of evaluations: a delivery a step was holding back is still held back after it, or the
    backend's answer to it is durably in the journal. *)
Theorem Step_backoff d r d' : inv (dp_world d) -> Step cfg keyID key scaled env d = (r, d') ->
  ((Z.of_nat (size (dp_backoff d)) <= 1000)%Z -> (Z.of_nat (size (dp_backoff d')) <= 1000)%Z)
  /\ forall org request, is_Some (dp_backoff d !! (org, request, true)) ->
       is_Some (dp_backoff d' !! (org, request, true))
       \/ acknowledged (j_directory (dp_journal d)) (dp_world d') org request.
Proof.
  intros Hi Hs. destruct (runs_Step d _ _ Hi Hs) as [Hp _]. split; [apply Hp|]. intros org request. apply (pg_hints _ _ Hp).
Qed.

Lemma runs_Run ticks d : runs d (Dispatcher.Run cfg keyID key scaled env ticks) (fun _ _ => True).
Proof.
  revert d. induction ticks as [|fired ticks IH]; intros d; cbn [Dispatcher.Run]; [by apply runs_ret|].
  eapply runs_bind; [apply runs_Step|]. intros result d1 _ _. eapply runs_bind with (R := fun _ _ => True).
  - destruct result; [|by apply runs_ret]. eapply runs_bind; [apply runs_ask|]. intros. by apply runs_ret.
  - intros reported d2 _ _. destruct fired; [|by apply runs_ret].
    eapply runs_bind; [apply IH|]. intros. by apply runs_ret.
Qed.

(** (C39) Only saved decisions leave the process.  Over the whole run of the dispatcher, however
    many steps it makes and whatever the backend, the organization, the clock and the files do,
    every decision it sends is one whose receipt, valid for its admission, is durably in the
    journal when the run is looked at, and so survives any crash after it; and the retry table
    stays within its 1000 entries. *)
Theorem Run_sends_saved ticks d r d' request body : inv (dp_world d) ->
  Dispatcher.Run cfg keyID key scaled env ticks d = (r, d') ->
  ((Z.of_nat (size (dp_backoff d)) <= 1000)%Z -> (Z.of_nat (size (dp_backoff d')) <= 1000)%Z)
  /\ (CallSend request body ∈ drop (List.length (dp_calls d)) (dp_calls d') ->
      exists saved, deliverable (j_directory (dp_journal d)) (dp_world d') saved
      /\ request = sr_RequestID saved /\ body = sr_Bytes saved).
Proof.
  intros Hi Hs. destruct (runs_Run ticks d _ _ Hi Hs) as [Hp _]. split; [apply Hp|]. intros Hin.
  destruct (pg_calls _ _ Hp) as (new & Hc & Hf).
  rewrite Hc, drop_app_length in Hin. rewrite Forall_forall in Hf. exact (Hf _ Hin).
Qed.
End Progress.

(** * A concrete step: a fresh request is admitted, evaluated, decided and delivered *)

Definition fixture_cfg : Config := {|
  cfg_Mode := "external"; cfg_JournalDir := "/journal"; cfg_Endpoint := "https://org.example/approve";
  cfg_AutoInitializeJournal := false; cfg_BearerToken := "token";
  cfg_MinInterval := second; cfg_MaxInterval := 60 * second; cfg_Timeout := 10 * second; cfg_factor_ok := true |}.
Definition fixture_item : PendingItem := {|
  pi_RequestID := "req-1"; pi_CreatedAt := "2026-03-01T10:20:30.400Z";
  pi_Authorization := fixture_authorization; pi_AuthorizationHash := fixture_hash |}.
Definition fixture_answer : exchange := Response 200 (jtext (
  "{'version':1,'orgId':'org-1','requestId':'req-1','authorizationHash':'" +:+ fixture_hash
  +:+ "','status':'APPROVED','reason':null,'decisionReference':'ref-9'}")) None.
Definition fixture_env : Environment := {|
  env_ctx _ := None; env_now _ := (1772360400 * second)%Z; env_jitter _ d := d;
  env_page _ _ := Ok {| pp_Version := 1; pp_Items := [fixture_item]; pp_NextCursor := None |};
  env_send _ _ _ := Ok fixture_application;
  env_evaluate _ item := (Evaluate fixture_cfg item true fixture_answer).2;
  env_listing _ := []; env_order _ := map_to_list |}.
Definition fixture_dispatcher : Dispatcher := {|
  dp_cursor := ""; dp_backoff := ∅; dp_sequence := 0; dp_recoveryTurn := false;
  dp_journal := fixture_journal; dp_world := fixture_world; dp_answers := 0; dp_calls := [] |}.
Definition fixture_step : res (option error) * Dispatcher :=
  Step fixture_cfg "approval-key-1" fixture_private (fun _ => None) fixture_env fixture_dispatcher.

Definition call_name (c : dcall) : string :=
  match c with CallPage _ _ => "page" | CallLoad _ _ _ => "load" | CallPending _ _ => "pending"
  | CallAdmit _ _ => "admit" | CallEvaluate _ _ => "evaluate" | CallSave _ _ => "save"
  | CallSend _ _ => "send" | CallReply _ => "reply" | CallAcknowledge _ _ _ _ => "acknowledge" end.

Lemma fixture_step_run : Step fixture_cfg "approval-key-1" fixture_private (fun _ => None) fixture_env fixture_dispatcher
  = (fixture_step.1, fixture_step.2).
Proof. unfold fixture_step. by destruct (Step _ _ _ _ _ _). Qed.
Lemma fixture_step_calls : map call_name (dp_calls fixture_step.2)
  = ["pending"; "page"; "load"; "admit"; "evaluate"; "save"; "send"; "reply"; "acknowledge"].
Proof. vm_compute. reflexivity. Qed.
Lemma fixture_step_sent : exists request body,
  CallSend request body ∈ drop (List.length (dp_calls fixture_dispatcher)) (dp_calls fixture_step.2).
Proof.
  change (List.length (dp_calls fixture_dispatcher)) with 0%nat. rewrite drop_0.
  pose proof fixture_step_calls as Hc. destruct (dp_calls fixture_step.2) as [|c1 [|c2 [|c3 [|c4 [|c5 [|c6 [|c7 l]]]]]]];
    try discriminate Hc.
  destruct c7; try discriminate Hc. eexists _, _. do 6 right. left.
Qed.

Lemma Step_protocol_witness : exists log, dp_calls fixture_step.2 = log
  /\ step_calls fixture_cfg "approval-key-1" fixture_private "" log (dp_cursor fixture_step.2)
  /\ map call_name log = ["pending"; "page"; "load"; "admit"; "evaluate"; "save"; "send"; "reply"; "acknowledge"].
Proof.
  destruct (Step_protocol fixture_cfg "approval-key-1" fixture_private (fun _ => None) fixture_env
    fixture_dispatcher fixture_step.1 fixture_step.2 fixture_step_run) as (_ & log & Hc & Hl).
  exists log. split; [exact Hc|]. split; [exact Hl|]. rewrite <- fixture_step_calls, Hc. reflexivity.
Defined.

Lemma Step_sends_saved_witness : exists saved, deliverable "/journal" (dp_world fixture_step.2) saved.
Proof.
  destruct fixture_step_sent as (request & body & Hin).
  destruct (Step_sends_saved fixture_cfg "approval-key-1" fixture_private (fun _ => None) fixture_env
    (fun _ _ => Permutation_refl _) fixture_dispatcher fixture_step.1 fixture_step.2 request body fixture_world_inv fixture_step_run Hin)
    as (saved & H & _).
  exists saved. exact H.
Defined.

(** Three ticks: the request is decided and delivered once. *)
Definition fixture_run : res (list error) * Dispatcher :=
  Dispatcher.Run fixture_cfg "approval-key-1" fixture_private (fun _ => None) fixture_env [true; true; false] fixture_dispatcher.
Lemma fixture_run_run :
  Dispatcher.Run fixture_cfg "approval-key-1" fixture_private (fun _ => None) fixture_env [true; true; false] fixture_dispatcher
  = (fixture_run.1, fixture_run.2).
Proof. unfold fixture_run. by destruct (Dispatcher.Run _ _ _ _ _ _ _). Qed.
Lemma fixture_run_calls : List.length (List.filter (fun c => call_name c =s "send") (dp_calls fixture_run.2)) = 1%nat.
Proof. vm_compute. reflexivity. Qed.
Lemma fixture_run_sent : exists request body,
  CallSend request body ∈ drop (List.length (dp_calls fixture_dispatcher)) (dp_calls fixture_run.2).
Proof.
  change (List.length (dp_calls fixture_dispatcher)) with 0%nat. rewrite drop_0.
  pose proof fixture_run_calls as Hc. generalize dependent (dp_calls fixture_run.2). intros calls Hc.
  destruct (List.filter _ calls) as [|c l] eqn:E; [done|].
  assert (Hin : List.In c (List.filter (fun c => call_name c =s "send") calls)) by (rewrite E; by left).
  apply filter_In in Hin as [Hin Hn]. destruct c; try done. eexists _, _. apply list_elem_of_In. exact Hin.
Qed.
Lemma Run_sends_saved_witness : exists saved, deliverable "/journal" (dp_world fixture_run.2) saved.
Proof.
  destruct fixture_run_sent as (request & body & Hin).
  destruct (Run_sends_saved fixture_cfg "approval-key-1" fixture_private (fun _ => None) fixture_env
    (fun _ _ => Permutation_refl _) [true; true; false] fixture_dispatcher fixture_run.1 fixture_run.2 request body
    fixture_world_inv fixture_run_run) as [_ H].
  destruct (H Hin) as (saved & Hs & _). exists saved. exact Hs.
Defined.

(** The backend does not answer: the delivery is held back, and still is after a step. *)
Definition failing_env : Environment := {|
  env_ctx _ := None; env_now _ := (1772360400 * second)%Z; env_jitter _ d := d;
  env_page _ _ := Fail (ENew "outage"); env_send _ _ _ := Fail (ENew "outage");
  env_evaluate _ _ := Fail (ENew "outage");
  env_listing _ := [record_name "org-1" "req-1" "receipt"]; env_order _ := map_to_list |}.
Definition fixture_pending : Dispatcher := with_world fixture_journal world_decided fixture_dispatcher.
Definition held : Dispatcher :=
  (Step fixture_cfg "approval-key-1" fixture_private (fun _ => None) failing_env fixture_pending).2.
Definition held_again : Dispatcher :=
  (Step fixture_cfg "approval-key-1" fixture_private (fun _ => None) failing_env held).2.

Lemma Step_backoff_witness : is_Some (dp_backoff held !! ("org-1", "req-1", true)) /\
  (is_Some (dp_backoff held_again !! ("org-1", "req-1", true)) \/ acknowledged "/journal" (dp_world held_again) "org-1" "req-1").
Proof.
  assert (Hin : is_Some (dp_backoff held !! ("org-1", "req-1", true))) by (apply (bool_decide_unpack _); vm_compute; exact I).
  split; [exact Hin|].
  assert (Hh : inv (dp_world held) /\ j_directory (dp_journal held) = "/journal").
  { unfold held. destruct (Step _ _ _ _ _ fixture_pending) as [r d'] eqn:E.
    destruct (runs_Step fixture_cfg "approval-key-1" fixture_private (fun _ => None) failing_env
      (fun _ _ => Permutation_refl _) fixture_pending r d' (proj1 (proj2 fixture_invs)) E) as [Hp _].
    split; [apply (pg_inv _ _ Hp)|apply (pg_directory _ _ Hp)]. }
  destruct Hh as [Hh Hd]. unfold held_again.
  destruct (Step fixture_cfg "approval-key-1" fixture_private (fun _ => None) failing_env held) as [r d'] eqn:E.
  destruct (Step_backoff fixture_cfg "approval-key-1" fixture_private (fun _ => None) failing_env
    (fun _ _ => Permutation_refl _) held r d' Hh E) as [_ Hk].
  rewrite <- Hd. exact (Hk _ _ Hin).
Defined.

(** * The organization's answers *)

(** An answer is taken only for the request asked: one request is sent, under the
    idempotency key of the item, and the answer names its organization, request and hash. *)
Theorem Evaluate_bound `{Externals} cfg item built x sent v : Evaluate cfg item built x = (sent, Ok v) ->
  exists org raw, OrganizationID item = Ok org /\ evaluation_text org item = Some raw /\ (zlen raw <= 65536)%Z
  /\ sent = [{| ev_endpoint := cfg_Endpoint cfg; ev_authorization := "Bearer " +:+ cfg_BearerToken cfg;
               ev_idempotencyKey := pi_RequestID item +:+ ":" +:+ pi_AuthorizationHash item; ev_body := raw |}]
  /\ str v "orgId" = org /\ str v "requestId" = pi_RequestID item
  /\ str v "authorizationHash" = pi_AuthorizationHash item
  /\ (str v "status" = "PENDING" \/ str v "status" = "APPROVED" \/ str v "status" = "REJECTED").
Proof.
  unfold Evaluate. destruct (OrganizationID item) as [org|]; [|done].
  destruct (evaluation_text org item) as [raw|] eqn:Et; [|done].
  destruct (65536 <? zlen raw)%Z eqn:El; [done|]. destruct (negb built); [done|]. intros Hx. apply pair_equal_spec in Hx as [<- Hx].
  destruct x as [|status stream readErr]; [done|].
  generalize dependent (str_take response_limit stream). intros body Hx. do 2 step_if Hx.
  destruct (ParseOrganizationResponse _ _ _ _) as [v'|] eqn:Ep; [|done]. injection Hx as ->.
  unfold ParseOrganizationResponse in Ep. inv_ok. cbv zeta in Ep. step_if Ep. injection Ep as ->.
  exists org, raw. split_bools. split_and!; try done.
  match goal with Hs : _ && (str v "status" <>s "REJECTED") = false |- _ => rename Hs into Hst end.
  apply andb_false_iff in Hst as [[Hst|Hst]%andb_false_iff|Hst]; apply negb_false_iff, String.eqb_eq in Hst; auto.
Qed.

Lemma fixture_evaluation : exists v, (Evaluate fixture_cfg fixture_item true fixture_answer).2 = Ok v.
Proof.
  assert (E : is_ok (Evaluate fixture_cfg fixture_item true fixture_answer).2 = true) by (vm_compute; reflexivity).
  destruct (Evaluate _ _ _ _).2 as [v|e]; [by exists v|discriminate E].
Qed.

Lemma Evaluate_bound_witness : exists v, (Evaluate fixture_cfg fixture_item true fixture_answer).2 = Ok v
  /\ str v "requestId" = "req-1".
Proof.
  destruct fixture_evaluation as [v E]. exists v. split; [exact E|].
  destruct (Evaluate fixture_cfg fixture_item true fixture_answer) as [sent r] eqn:Ev. cbn [snd] in E. subst r.
  destruct (Evaluate_bound fixture_cfg fixture_item true fixture_answer sent v Ev)
    as (org & raw & _ & _ & _ & _ & _ & Hq & _).
  exact Hq.
Defined.
