(* ===== verification/Config.v ===== *)
(** [internal/config]: reading the configuration from the environment, and what a loaded
    configuration guarantees.  [strconv.Atoi] and [time.ParseDuration] are translated with
    their 64-bit overflow; [float64] is the binary64 format of the Standard Library;
    [strconv.ParseFloat] and the reading of a [.env] file are parameters. *)
From stdpp Require Import base tactics option list strings numbers gmap relations.
From Stdlib Require Import ZArith Lia Ascii String.
From Stdlib Require Import SpecFloat.
From S2P Require Import Prelude GoText GoFloat Paths Externals ApprovalWire FileSystem Journal JournalInit GoTime ShareStore Dispatcher.

#[local] Open Scope string_scope.

(** [math.IsNaN], [math.IsInf(x, 0)] and [x < 1]: what [Validate] refuses of a factor. *)
Definition factor_ok (x : float64) : bool :=
  match x with
  | S754_nan | S754_infinity _ => false
  | _ => negb (SFltb x (float_of 1))
  end.

(** * time.ParseDuration *)

Definition two63 : Z := 2 ^ 63.
Definition digit (c : ascii) : Z := Z.of_N (code c - 48).

(** [leadingInt] and [leadingFraction]; [x] is what has been read. *)
Fixpoint leadingInt (x : Z) (s : string) : option (Z * string) :=
  match s with
  | String c r =>
      if negb (is_digit c) then Some (x, s)
      else if (two63 / 10 <? x)%Z then None
      else
        let x := (x * 10 + digit c)%Z in
        if (two63 <? x)%Z then None else leadingInt x r
  | "" => Some (x, s)
  end.
Fixpoint leadingFraction (x : Z) (scale : float64) (overflow : bool) (s : string) : Z * float64 * string :=
  match s with
  | String c r =>
      if negb (is_digit c) then (x, scale, s)
      else if overflow then leadingFraction x scale true r
      else if ((two63 - 1) / 10 <? x)%Z then leadingFraction x scale true r
      else
        let y := (x * 10 + digit c)%Z in
        if (two63 <? y)%Z then leadingFraction x scale true r
        else leadingFraction y (float_mul scale (float_of 10)) false r
  | "" => (x, scale, s)
  end.

Definition minute : duration := 60 * second.
Definition hour : duration := 60 * minute.
Definition unitMap : list (string * duration) :=
  [("ns", 1%Z); ("us", 1000%Z); (String "194" (String "181" "s"), 1000%Z); (String "206" (String "188" "s"), 1000%Z);
   ("ms", millisecond); ("s", second); ("m", minute); ("h", hour)].

Fixpoint unit_run (s : string) : string * string :=
  match s with
  | String c r => if Ascii.eqb c "." || is_digit c then ("", s)
                  else let '(u, k) := unit_run r in (String c u, k)
  | "" => ("", "")
  end.
Definition assoc_unit (u : string) : option duration :=
  snd <$> List.find (fun kv => kv.1 =s u) unitMap.

(** One number with its unit: its value and the rest. *)
Definition duration_term (s : string) : option (Z * string) :=
  match s with
  | "" => None
  | String c _ =>
      if negb (Ascii.eqb c "." || is_digit c) then None
      else
        '(v, s1) ← leadingInt 0 s;
        let pre := negb (zlen s1 =? zlen s)%Z in
        let '(f, scale, s2, post) :=
          match s1 with
          | String "." s2 => let '(f, scale, s3) := leadingFraction 0 (float_of 1) false s2 in
                             (f, scale, s3, negb (zlen s3 =? zlen s2)%Z)
          | _ => (0%Z, float_of 1, s1, false)
          end in
        if negb pre && negb post then None
        else
          let '(u, rest) := unit_run s2 in
          if u =s "" then None
          else
            unit ← assoc_unit u;
            if (two63 / unit <? v)%Z then None
            else
              let v := (v * unit)%Z in
              if (0 <? f)%Z then
                let v := u64 (v + uint64_of (float_mul (float_of f) (float_div (float_of unit) scale))) in
                if (two63 <? v)%Z then None else Some (v, rest)
              else Some (v, rest)
  end.
Fixpoint duration_terms (fuel : nat) (d : Z) (s : string) : option Z :=
  match fuel, s with
  | _, "" => Some d
  | O, _ => None
  | S fuel, s =>
      '(v, rest) ← duration_term s;
      let d := u64 (d + v) in
      if (two63 <? d)%Z then None else duration_terms fuel d rest
  end.
(** Conversion of a [uint64] to [time.Duration]. *)
Definition int64_of (z : Z) : Z := if (z <? two63)%Z then z else (z - 2 ^ 64)%Z.

Definition ParseDuration (s : string) : option duration :=
  let '(neg, s) := match s with
                   | String "-" r => (true, r)
                   | String "+" r => (false, r)
                   | _ => (false, s)
                   end in
  if s =s "0" then Some 0%Z
  else if s =s "" then None
  else
    d ← duration_terms (String.length s) 0 s;
    if (neg : bool) then Some (int64_of (u64 (- int64_of d)))
    else if (two63 - 1 <? d)%Z then None else Some (int64_of d).

Example ParseDuration_examples :
  ParseDuration "500ms" = Some 500000000%Z /\ ParseDuration "1h15m30.918s" = Some 4530918000000%Z
  /\ ParseDuration "-1.5h" = Some (-5400000000000)%Z /\ ParseDuration ".5s" = Some 500000000%Z
  /\ ParseDuration "9223372036854775807ns" = Some 9223372036854775807%Z
  /\ ParseDuration "9223372036854775808ns" = None /\ ParseDuration "3" = None /\ ParseDuration "1d" = None.
Proof. vm_compute. repeat split. Qed.

(** * config.go *)

Definition defaultPreParamsGenerationParallelism : Z := 2.

Record Config := {
  co_Approval : Dispatcher.Config;
  co_MonolithURL : string; co_APIKeyID : string; co_APIPrivateKey : string; co_HTTPAddr : string;
  co_PrimaryStore : StoreConfig; co_RecoveryStore : StoreConfig; co_LockPath : string;
  co_PreParamsGenerationParallelism : Z; co_MaxConcurrent : Z;
  co_PollMinInterval : duration; co_PollMaxInterval : duration; co_PollBackoffFactor : float64;
  co_FramePollInterval : duration; co_HTTPTimeout : duration;
}.

Section Load.
(** The environment after the [.env] file was read, the outcome of reading it, the parser
    of floating-point numbers, and the identity of the key provider that is allocated. *)
Context (Getenv : string -> string) (dotenv : res unit) (ParseFloat : string -> res float64) (object : Z).

Definition loadDotEnv : res unit :=
  match dotenv with
  | Fail err => if errors_is err ErrNotExist then Ok () else Fail (EWrap "load .env" err)
  | Ok _ => Ok ()
  end.

Definition httpAddr : string :=
  let value := Getenv "CO_SIGNER_HTTP_ADDR" in
  if value <>s "" then value
  else
    let port := Getenv "PORT" in
    if port <>s "" then "0.0.0.0:" +:+ port else "0.0.0.0:8081".

Definition env_value {A} (parse : string -> res A) (key : string) (fallback : A) (msg : string) : res A :=
  let value := Getenv key in
  if value =s "" then Ok fallback
  else match parse value with Ok a => Ok a | Fail err => Fail (EWrap msg err) end.
Definition envInt : string -> Z -> string -> res Z :=
  env_value (fun s => of_option (parse_int64 s) (ENew "strconv.Atoi")).
Definition envFloat : string -> float64 -> string -> res float64 := env_value ParseFloat.
Definition envDuration : string -> duration -> string -> res duration :=
  env_value (fun s => of_option (ParseDuration s) (ENew "time: invalid duration")).

Definition float_1_5 : float64 := float_div (float_of 3) (float_of 2).

(** The settings that are numbers. *)
Record Numbers := {
  nu_maxConcurrent : Z; nu_pollMin : duration; nu_pollMax : duration; nu_factor : float64;
  nu_framePoll : duration; nu_httpTimeout : duration; nu_parallelism : Z;
}.
Definition load_numbers : res Numbers :=
  maxConcurrent ← envInt "CO_SIGNER_MAX_CONCURRENT" 4 "must be int";
  pollMinInterval ← envDuration "CO_SIGNER_POLL_MIN_INTERVAL" (2 * second)%Z "must be duration";
  pollMaxInterval ← envDuration "CO_SIGNER_POLL_MAX_INTERVAL" (10 * second)%Z "must be duration";
  pollBackoffFactor ← envFloat "CO_SIGNER_POLL_BACKOFF_FACTOR" float_1_5 "must be float";
  framePollInterval ← envDuration "CO_SIGNER_FRAME_POLL_INTERVAL" (500 * millisecond)%Z "must be duration";
  httpTimeout ← envDuration "CO_SIGNER_HTTP_TIMEOUT" (30 * second)%Z "must be duration";
  parallelism ← envInt "CO_SIGNER_PREPARAMS_GENERATION_PARALLELISM" defaultPreParamsGenerationParallelism "must be int";
  Ok {| nu_maxConcurrent := maxConcurrent; nu_pollMin := pollMinInterval; nu_pollMax := pollMaxInterval;
        nu_factor := pollBackoffFactor; nu_framePoll := framePollInterval; nu_httpTimeout := httpTimeout;
        nu_parallelism := parallelism |}.

Definition legacy_settings : list string :=
  ["CO_SIGNER_PARTY_ID"; "CO_SIGNER_SHARES_DIR"; "CO_SIGNER_SHARE_ENCRYPTION_KEY_REF"].
Definition lock_settings : list string := ["CO_SIGNER_STATE_DIR"; "CO_SIGNER_LOCK_PATH"].
Definition any_set (keys : list string) : bool := existsb (fun key => Getenv key <>s "") keys.

Definition in_context {A} (msg : string) (r : res A) : res A :=
  match r with Ok a => Ok a | Fail err => Fail (EWrap msg err) end.

(** The two stores with their key. *)
Definition load_stores : res (StoreConfig * StoreConfig) :=
  provider ← in_context "configure share encryption key"
    (NewKeyProvider object (Getenv "CO_SIGNER_SHARE_ENCRYPTION_KEY") (Getenv "CO_SIGNER_SHARE_ENCRYPTION_KEY_ID"));
  primaryStore ← in_context "configure primary store"
    (NewStoreConfig StorePurposePrimary (Getenv "CO_SIGNER_PRIMARY_SHARES_DIR") (Some provider));
  recoveryStore ← in_context "configure recovery store"
    (NewStoreConfig StorePurposeRecovery (Getenv "CO_SIGNER_RECOVERY_SHARES_DIR") (Some provider));
  _ ← in_context "configure store pair" (ValidateStorePair primaryStore recoveryStore);
  Ok (primaryStore, recoveryStore).

Definition approval_config (primaryStore : StoreConfig) (n : Numbers) : Dispatcher.Config :=
  let mode := Getenv "CO_SIGNER_APPROVAL_MODE" in
  let mode := if mode =s "" then "auto_approve" else mode in
  let journalDir := Getenv "CO_SIGNER_APPROVAL_JOURNAL_DIR" in
  let autoInitializeJournal := journalDir =s "" in
  let journalDir := if journalDir =s "" then Join (Dir (sc_directory primaryStore)) "approval" else journalDir in
  {| cfg_Mode := mode; cfg_JournalDir := journalDir; cfg_Endpoint := Getenv "CO_SIGNER_APPROVAL_ENDPOINT";
     cfg_AutoInitializeJournal := autoInitializeJournal;
     cfg_BearerToken := Getenv "CO_SIGNER_APPROVAL_BEARER_TOKEN";
     cfg_MinInterval := nu_pollMin n; cfg_MaxInterval := nu_pollMax n; cfg_Timeout := nu_httpTimeout n;
     cfg_factor_ok := factor_ok (nu_factor n) |}.

Definition check_required (cfg : Config) : res unit :=
  if co_MonolithURL cfg =s "" then Fail (ENew "CO_SIGNER_MONOLITH_URL is required")
  else if (co_APIKeyID cfg =s "") || (co_APIPrivateKey cfg =s "")
  then Fail (ENew "CO_SIGNER_API_KEY_ID and CO_SIGNER_API_PRIVATE_KEY are required")
  else if (co_MaxConcurrent cfg <? 1)%Z then Fail (ENew "CO_SIGNER_MAX_CONCURRENT must be >= 1")
  else if (co_PollMinInterval cfg <=? 0)%Z then Fail (ENew "CO_SIGNER_POLL_MIN_INTERVAL must be > 0")
  else if (co_PollMaxInterval cfg <? co_PollMinInterval cfg)%Z
  then Fail (ENew "CO_SIGNER_POLL_MAX_INTERVAL must be >= CO_SIGNER_POLL_MIN_INTERVAL")
  else if (co_PreParamsGenerationParallelism cfg <? 1)%Z
  then Fail (ENew "CO_SIGNER_PREPARAMS_GENERATION_PARALLELISM must be >= 1")
  else Ok ().

Definition Load : M Config :=
  _ ← lift loadDotEnv;
  n ← lift load_numbers;
  if any_set legacy_settings then throw (ENew "legacy single-store settings are unsupported")
  else
    '(primaryStore, recoveryStore) ← lift load_stores;
    if any_set lock_settings then throw (ENew "CO_SIGNER_STATE_DIR and CO_SIGNER_LOCK_PATH are unsupported")
    else
      let cfg := {| co_Approval := approval_config primaryStore n;
                    co_MonolithURL := Getenv "CO_SIGNER_MONOLITH_URL"; co_APIKeyID := Getenv "CO_SIGNER_API_KEY_ID";
                    co_APIPrivateKey := Getenv "CO_SIGNER_API_PRIVATE_KEY"; co_HTTPAddr := httpAddr;
                    co_PrimaryStore := primaryStore; co_RecoveryStore := recoveryStore;
                    co_LockPath := Join (sc_directory primaryStore) ".co-signer.lock";
                    co_PreParamsGenerationParallelism := nu_parallelism n; co_MaxConcurrent := nu_maxConcurrent n;
                    co_PollMinInterval := nu_pollMin n; co_PollMaxInterval := nu_pollMax n;
                    co_PollBackoffFactor := nu_factor n; co_FramePollInterval := nu_framePoll n;
                    co_HTTPTimeout := nu_httpTimeout n |} in
      _ ← lift (check_required cfg);
      _ ← lift (config_Validate (co_Approval cfg));
      _ ← ValidateDirectories (cfg_JournalDir (co_Approval cfg))
            [sc_directory primaryStore; sc_directory recoveryStore];
      mret cfg.

End Load.
