(* ===== verification/ConfigProofs.v ===== *)
(** Proofs about the configuration: what a loaded configuration guarantees to the components
    that are built from it. *)
From stdpp Require Import base tactics option list strings numbers gmap relations.
From Stdlib Require Import ZArith Lia Ascii String.
From Stdlib Require Import SpecFloat.
From S2P Require Import Prelude GoText GoFloat Paths Externals ApprovalWire SigningPolicy FileSystem Publish Journal JournalProofs JournalInit JournalInitProofs GoTime ShareStore Dispatcher Config.

#[local] Open Scope string_scope.

(** * Numbers *)

(** The terms of a duration are read with fuel to spare: each takes a byte at least. *)
Lemma unit_run_length s u k : unit_run s = (u, k) -> String.length s = (String.length u + String.length k)%nat.
Proof.
  revert u k. induction s as [|c s IH]; intros u k; cbn; [by intros [= <- <-]|].
  destruct (_ || _); [by intros [= <- <-]|]. destruct (unit_run s) as [u' k'].
  intros [= <- <-]. cbn. by rewrite (IH u' k').
Qed.
Lemma leadingInt_length x s v k : leadingInt x s = Some (v, k) -> (String.length k <= String.length s)%nat.
Proof.
  revert x. induction s as [|c s IH]; intros x; cbn; [by intros [= _ <-]|].
  destruct (is_digit c); cbn; [|by intros [= _ <-]]. repeat case_match; try done. intros Hr. apply IH in Hr. lia.
Qed.
Lemma leadingFraction_length x scale o s f sc k :
  leadingFraction x scale o s = (f, sc, k) -> (String.length k <= String.length s)%nat.
Proof.
  revert x scale o. induction s as [|c s IH]; intros x scale o; cbn; [by intros [= _ _ <-]|].
  destruct (is_digit c); cbn; [|by intros [= _ _ <-]].
  repeat case_match; intros Hr; apply IH in Hr; lia.
Qed.
Lemma duration_term_shorter s v rest : duration_term s = Some (v, rest) -> (String.length rest < String.length s)%nat.
Proof.
  destruct s as [|c s0]; [done|]. cbn [duration_term]. set (s := String c s0).
  destruct (negb _); [done|]. destruct (leadingInt 0 s) as [[v0 s1]|] eqn:E1; [|done].
  apply leadingInt_length in E1. cbn [mbind option_bind].
  destruct (match s1 with String _ _ => _ | _ => _ end) as [[[f scale] s2] post] eqn:E2.
  assert (Hs2 : (String.length s2 <= String.length s1)%nat).
  { destruct s1 as [|[[] [] [] [] [] [] [] []] s1]; try (by injection E2 as _ _ <- _).
    destruct (leadingFraction 0 (float_of 1) false s1) as [[f' sc'] s3] eqn:E3. apply leadingFraction_length in E3.
    injection E2 as _ _ <- _. cbn. lia. }
  destruct (negb _ && negb post); [done|]. destruct (unit_run s2) as [u k] eqn:E3. apply unit_run_length in E3.
  destruct (u =s "") eqn:Eu; [done|]. destruct u as [|c' u]; [done|]. cbn in E3.
  destruct (assoc_unit _) as [unit|]; [|done]. cbn. intros Hr.
  assert (rest = k) as -> by (repeat case_match; by simplify_eq). unfold s in *. cbn [String.length] in *. lia.
Qed.
(** The length of the text is fuel enough. *)
Lemma duration_terms_fuel n m d s : (String.length s <= n)%nat -> (String.length s <= m)%nat ->
  duration_terms n d s = duration_terms m d s.
Proof.
  revert m d s. induction n as [|n IH]; intros m d s Hn Hm.
  { destruct s; [by destruct m|cbn in Hn; lia]. }
  destruct s as [|c s]; [by destruct m|]. destruct m as [|m]; [cbn in Hm; lia|].
  cbn [duration_terms]. destruct (duration_term (String c s)) as [[v rest]|] eqn:E; [|done].
  apply duration_term_shorter in E. cbn [mbind option_bind]. destruct (two63 <? u64 (d + v))%Z; [done|].
  cbn in *. apply IH; lia.
Qed.

Lemma duration_terms_range n d s d' : (0 <= d <= two63)%Z -> duration_terms n d s = Some d' -> (0 <= d' <= two63)%Z.
Proof.
  revert d s. induction n as [|n IH]; intros d s Hd; destruct s as [|c s]; cbn [duration_terms];
    [by intros [= <-]|done|by intros [= <-]|].
  destruct (duration_term _) as [[v rest]|]; [|done]. cbn [mbind option_bind].
  destruct (two63 <? u64 (d + v))%Z eqn:E; [done|]. apply IH. split_bools. pose proof (u64_range (d + v)). lia.
Qed.
Lemma ParseDuration_range s d : ParseDuration s = Some d -> (min_int64 <= d <= max_int64)%Z.
Proof.
  unfold ParseDuration. destruct (match s with String _ _ => _ | _ => _ end) as [neg s'].
  destruct (s' =s "0"); [intros [= <-]; unfold min_int64, max_int64; lia|]. destruct (s' =s ""); [done|].
  destruct (duration_terms _ 0 s') as [z|] eqn:E; [|done]. apply duration_terms_range in E; [|unfold two63; lia].
  cbn [mbind option_bind]. unfold int64_of, u64, two63, min_int64, max_int64 in *. destruct neg; [|intros H].
  - intros [= <-]. destruct (z <? 2 ^ 63)%Z eqn:E1; split_bools; destruct (_ <? 2 ^ 63)%Z eqn:E2; split_bools;
      revert E2; intros; Z.to_euclidean_division_equations; lia.
  - destruct (_ <? z)%Z eqn:E1; [done|]. injection H as <-. split_bools. destruct (z <? 2 ^ 63)%Z eqn:E2; split_bools; lia.
Qed.

(** * Places *)

(** The place of a path: where it resolves to when it exists, and otherwise its last
    component below the place of its parent. *)
Inductive located (w : world) : string -> string -> Prop :=
  | located_here path e : resolves w path e -> located w path e
  | located_below path parent : (forall e, ~ resolves w path e) -> Dir path <> path ->
      located w (Dir path) parent -> located w path (Join parent (Base path)).

Lemma located_functional w path c c' : located w path c -> located w path c' -> c = c'.
Proof.
  intros Hc. revert c'. induction Hc as [path e He|path parent Hn _ _ IH]; intros c' Hc'; inversion Hc'; subst.
  - by eapply resolves_functional.
  - exfalso. naive_solver.
  - exfalso. naive_solver.
  - f_equal. auto.
Qed.
Lemma located_layout w w' path c : layout w' = layout w -> located w' path c -> located w path c.
Proof.
  intros Hl. induction 1 as [path e He|path parent Hn Hd _ IH].
  - apply located_here. by eapply resolves_layout.
  - apply located_below; [|done|done]. intros e He. apply (Hn e). by apply (resolves_layout w' w).
Qed.
Lemma Join_abs a b : IsAbs a = true -> IsAbs (Join a b) = true.
Proof.
  intros Ha. unfold Join. destruct (a =s "") eqn:E; [apply String.eqb_eq in E as ->; done|].
  destruct (b =s ""); rewrite IsAbs_Clean; [done|by apply IsAbs_app].
Qed.
Lemma located_abs w path c : tree w -> located w path c -> IsAbs c = true.
Proof.
  intros Ht. induction 1 as [path e He|path parent _ _ _ IH]; [by apply (resolves_idem _ _ _ Ht He)|by apply Join_abs].
Qed.

(** [canonical] finds the place: it resolves the nearest ancestor that exists and puts the
    components below it, which it collected on the way, back. *)
Lemma canonical_located n path tail w c w' : canonical n path tail w = (Ok c, w') ->
  exists place, located w path place /\ c = foldl Join place (reverse tail).
Proof.
  revert path tail w. induction n as [|n IH]; intros path tail w E; [done|]. cbn [canonical] in E.
  unfold mbind at 1, M_bind at 1, attempt at 1 in E.
  destruct (eval_symlinks path w) as [[r|err] w1] eqn:Ev; apply eval_symlinks_run in Ev as (Hl & Hok & Hne); cbn in E.
  - unfold mret, M_ret in E. injection E as <- _. exists r. split; [apply located_here; auto|done].
  - destruct (errors_is err ErrNotExist) eqn:En; [|done]. cbn in E. destruct (Dir path =s path) eqn:Ed; [done|].
    apply IH in E as (parent & Hp & ->). exists (Join parent (Base path)). split_bools. split.
    + apply located_below; [by apply (Hne err)|done|by eapply located_layout].
    + by rewrite reverse_snoc.
Qed.
Lemma canonical_path_located path w c w' : canonical_path path w = (Ok c, w') -> located w path c.
Proof. unfold canonical_path. by intros (place & Hp & ->)%canonical_located. Qed.

(** * Loading *)

Lemma ValidateStorePair_disjoint p r : ValidateStorePair p r = Ok () ->
  IsAbs (sc_directory p) = true -> IsAbs (sc_directory r) = true ->
  sc_purpose p = StorePurposePrimary /\ sc_purpose r = StorePurposeRecovery
  /\ kp_object (sc_keyProvider p) = kp_object (sc_keyProvider r) /\ disjoint_paths (sc_directory p) (sc_directory r).
Proof.
  unfold ValidateStorePair, pathsOverlap, isWithin. intros E Hp Hr.
  destruct (_ || _) eqn:E1 in E; [done|]. destruct (negb _) eqn:E2 in E; [done|].
  destruct (_ || _) eqn:E3 in E; [done|]. rewrite !Rel_inside in E3 by done. split_bools. done.
Qed.

(** A store directory: clean, rooted, and not the root. *)
Definition store_directory (d : string) : Prop := IsAbs d = true /\ Clean d = d /\ d <> "/".
Lemma NewStoreConfig_Ok purpose directory k c : NewStoreConfig purpose directory (Some k) = Ok c ->
  sc_keyProvider c = k /\ store_directory (sc_directory c).
Proof.
  unfold NewStoreConfig. cbn [of_option]. intros E. inv_ok. split_bools. cbn. split; [done|].
  unfold store_directory. rewrite IsAbs_Clean in *. split_and!; [done|by apply Clean_idem|done].
Qed.
Lemma NewKeyProvider_Ok object encoded ref k : NewKeyProvider object encoded ref = Ok k ->
  zlen (kp_key k) = 32%Z /\ b64_encode b64_std (kp_key k) = encoded.
Proof. unfold NewKeyProvider. intros E. inv_ok. split_bools. done. Qed.

(** The lock of a store directory, and the journal beside it. *)
Lemma beside d : store_directory d -> exists l x, d = rooted (l ++ [x]) /\ Forall plain l /\ plain x.
Proof. intros (Ha & Hc & Hn). by destruct (clean_cases d Ha Hc) as [->|]. Qed.
Lemma Join_below d x : store_directory d -> plain x -> Dir (Join d x) = d /\ Base (Join d x) = x.
Proof.
  intros Hd Hx. destruct (beside d Hd) as (l & y & -> & Hl & Hy).
  assert (Forall plain (l ++ [y])) by (apply Forall_app; split; [done|by apply Forall_singleton]).
  rewrite Join_rooted by done. by rewrite Dir_rooted, Base_rooted.
Qed.
Lemma Join_beside d x : store_directory d -> plain x -> Dir (Join (Dir d) x) = Dir d /\ Base (Join (Dir d) x) = x.
Proof.
  intros Hd Hx. destruct (beside d Hd) as (l & y & -> & Hl & Hy). rewrite Dir_rooted by done.
  rewrite Join_rooted by done. by rewrite Dir_rooted, Base_rooted.
Qed.

Section Load.
Context (Getenv : string -> string) (dotenv : res unit) (ParseFloat : string -> res float64) (object : Z).

Lemma env_value_Ok {A} (parse : string -> res A) key fallback msg a :
  env_value Getenv parse key fallback msg = Ok a -> a = fallback \/ parse (Getenv key) = Ok a.
Proof.
  unfold env_value. destruct (Getenv key =s ""); [intros [= <-]; by left|]. right.
  destruct (parse (Getenv key)); [done|discriminate].
Qed.
Lemma envDuration_range key fallback msg d : envDuration Getenv key fallback msg = Ok d ->
  (min_int64 <= fallback <= max_int64)%Z -> (min_int64 <= d <= max_int64)%Z.
Proof.
  intros [->|E]%env_value_Ok Hf; [done|]. apply of_option_Ok in E. by eapply ParseDuration_range.
Qed.
Lemma envInt_range key fallback msg z : envInt Getenv key fallback msg = Ok z ->
  (min_int64 <= fallback <= max_int64)%Z -> (min_int64 <= z <= max_int64)%Z.
Proof.
  intros [->|E]%env_value_Ok Hf; [done|]. apply of_option_Ok in E. unfold parse_int64 in E.
  destruct (parse_big _) as [z'|]; [|done]. cbn in E. destruct (_ && _) eqn:Hb; [|done]. injection E as <-. by split_bools.
Qed.

(** The directory of the journal is apart from the store's: the places of the two paths in
    the file system, whether they exist or are still to be made, are outside one another. *)
Definition apart (w : world) (journal store : string) : Prop :=
  exists J S, located w (Clean journal) J /\ located w store S /\ disjoint_paths S J.

(** What the components built from a configuration rely on. *)
Record well_formed (w : world) (c : Config) : Prop := {
  wf_stores : sc_purpose (co_PrimaryStore c) = StorePurposePrimary
    /\ sc_purpose (co_RecoveryStore c) = StorePurposeRecovery
    /\ sc_keyProvider (co_RecoveryStore c) = sc_keyProvider (co_PrimaryStore c)
    /\ zlen (kp_key (sc_keyProvider (co_PrimaryStore c))) = 32%Z;
  wf_directories : store_directory (sc_directory (co_PrimaryStore c))
    /\ store_directory (sc_directory (co_RecoveryStore c))
    /\ disjoint_paths (sc_directory (co_PrimaryStore c)) (sc_directory (co_RecoveryStore c));
  wf_lock : Dir (co_LockPath c) = sc_directory (co_PrimaryStore c);
  wf_limits : (1 <= co_MaxConcurrent c <= max_int64)%Z
    /\ (1 <= co_PreParamsGenerationParallelism c <= max_int64)%Z
    /\ (0 < co_PollMinInterval c <= co_PollMaxInterval c)%Z /\ (co_PollMaxInterval c <= max_int64)%Z
    /\ (0 < co_HTTPTimeout c <= max_int64)%Z /\ (min_int64 <= co_FramePollInterval c <= max_int64)%Z
    /\ factor_ok (co_PollBackoffFactor c) = true;
  wf_identity : co_MonolithURL c <> "" /\ co_APIKeyID c <> "" /\ co_APIPrivateKey c <> "" /\ co_HTTPAddr c <> "";
  wf_approval : config_Validate (co_Approval c) = Ok ()
    /\ cfg_MinInterval (co_Approval c) = co_PollMinInterval c /\ cfg_MaxInterval (co_Approval c) = co_PollMaxInterval c
    /\ cfg_Timeout (co_Approval c) = co_HTTPTimeout c;
  wf_journal : apart w (cfg_JournalDir (co_Approval c)) (sc_directory (co_PrimaryStore c))
    /\ apart w (cfg_JournalDir (co_Approval c)) (sc_directory (co_RecoveryStore c))
    /\ (cfg_AutoInitializeJournal (co_Approval c) = true ->
        Dir (cfg_JournalDir (co_Approval c)) = Dir (sc_directory (co_PrimaryStore c)));
}.

Lemma load_stores_Ok p r : load_stores Getenv object = Ok (p, r) ->
  (sc_purpose p = StorePurposePrimary /\ sc_purpose r = StorePurposeRecovery
   /\ sc_keyProvider r = sc_keyProvider p /\ zlen (kp_key (sc_keyProvider p)) = 32%Z)
  /\ store_directory (sc_directory p) /\ store_directory (sc_directory r)
  /\ disjoint_paths (sc_directory p) (sc_directory r).
Proof.
  unfold load_stores, in_context. intros E. inv_ok.
  repeat match goal with H : match ?m with Ok _ => _ | Fail _ => _ end = Ok _ |- _ => destruct m eqn:?; [|done] end.
  inv_ok. simplify_eq.
  repeat match goal with H : NewStoreConfig _ _ _ = Ok _ |- _ => apply NewStoreConfig_Ok in H as [? ?] end.
  match goal with H : NewKeyProvider _ _ _ = Ok _ |- _ => apply NewKeyProvider_Ok in H as [? _] end.
  match goal with H : ValidateStorePair _ _ = Ok ?u |- _ => destruct u; apply ValidateStorePair_disjoint in H as (? & ? & _ & ?) end;
    [|by match goal with H : store_directory _ |- _ => apply H end..].
  split_and!; try done; congruence.
Qed.

Lemma config_Validate_limits a : config_Validate a = Ok () ->
  cfg_factor_ok a = true /\ (0 < cfg_Timeout a)%Z.
Proof. unfold config_Validate. intros E. do 4 step_if E; by split_bools. Qed.

(** The directories of a loaded configuration were compared in the world it was loaded in. *)
Lemma canonical_apart w journal store c p w1 w2 w3 :
  canonical_path (Clean journal) w = (Ok c, w1) -> canonical_path store w2 = (Ok p, w3) -> layout w2 = layout w ->
  tree w -> within c p = false -> within p c = false -> apart w journal store.
Proof.
  intros Ec%canonical_path_located Ep%canonical_path_located L2 Ht W1 W2. apply (located_layout w) in Ep; [|done].
  exists c, p. split_and!; [done|done|].
  rewrite within_prefix in W1, W2 by (by eapply located_abs). by apply bool_decide_eq_false in W1, W2.
Qed.
Lemma ValidateDirectories_apart w journal s1 s2 u w' : tree w ->
  ValidateDirectories journal [s1; s2] w = (Ok u, w') -> apart w journal s1 /\ apart w journal s2.
Proof.
  intros Ht E. unfold ValidateDirectories in E. apply bind_Ok_inv in E as (c & w1 & E0 & E).
  pose proof (still_run _ _ _ _ (still_canonical _ _ _) E0) as L0.
  apply bind_Ok_inv in E as (p1 & w2 & E1 & E). pose proof (still_run _ _ _ _ (still_canonical _ _ _) E1) as L1.
  destruct (within c p1 || within p1 c) eqn:Ew1; [done|].
  apply bind_Ok_inv in E as (p2 & w3 & E2 & E). destruct (within c p2 || within p2 c) eqn:Ew2; [done|].
  split_bools. split; eapply canonical_apart; eauto; congruence.
Qed.

(** (C33) A loaded configuration is well formed, whatever the environment says: one 32-byte
    key for two stores of the right purposes in clean rooted directories outside one
    another; the lifetime lock inside the primary store; both counts, the two poll intervals
    and the HTTP timeout positive, the poll intervals in order, and all of them within 64
    bits, as is the frame-poll interval, whose sign is not checked; a finite backoff factor
    of at least one; credentials present; an approval configuration that passes its own
    validation with the same intervals; and a journal directory whose place in the file
    system, links followed and missing components put back, is apart from the places of both
    stores, and which is beside the primary store when none is configured. *)
Theorem Load_sound w cfg w' : tree w ->
  Load Getenv dotenv ParseFloat object w = (Ok cfg, w') -> well_formed w cfg.
Proof.
  intros Ht E. unfold Load in E.
  apply bind_Ok_inv in E as (u0 & w0 & E0 & E). unfold lift in E0. injection E0 as _ <-.
  apply bind_Ok_inv in E as (n & w0 & E0 & E). unfold lift in E0. injection E0 as En <-.
  destruct (any_set Getenv legacy_settings); [done|].
  apply bind_Ok_inv in E as ([p r] & w0 & E0 & E). unfold lift in E0. injection E0 as Es <-.
  destruct (any_set Getenv lock_settings); [done|]. cbv zeta in E.
  apply bind_Ok_inv in E as (u1 & w0 & E0 & E). unfold lift in E0. injection E0 as Er <-.
  apply bind_Ok_inv in E as (u2 & w0 & E0 & E). unfold lift in E0. injection E0 as Ea <-. destruct u2.
  apply bind_Ok_inv in E as (u3 & w1 & Ed & E). unfold mret, M_ret in E. injection E as <- <-.
  cbn [co_Approval] in Ea. cbn in Ed.
  apply load_stores_Ok in Es as (Hst & Hp & Hr & Hdis). apply (ValidateDirectories_apart _ _ _ _ _ _ Ht) in Ed as [A1 A2].
  pose proof (config_Validate_limits _ Ea) as [Hf Htm]. cbn in Hf, Htm.
  unfold load_numbers in En. inv_ok.
  repeat match goal with
  | H : envInt _ _ _ _ = Ok _ |- _ => apply envInt_range in H; [|unfold min_int64, max_int64; cbv; done]
  | H : envDuration _ _ _ _ = Ok _ |- _ => apply envDuration_range in H; [|unfold min_int64, max_int64; cbv; done]
  end.
  unfold check_required in Er. do 6 step_if Er. cbn in *. split_bools.
  split; cbn; try done.
  - by apply Join_below.
  - split_and!; try done; lia.
  - split_and!; try done. unfold httpAddr. repeat case_match; split_bools; done.
  - split_and!; [done|done|]. intros Hauto. rewrite Hauto. by apply Join_beside.
Qed.
End Load.

(** * A concrete environment *)

Definition fixture_env (key : string) : string :=
  match List.find (fun kv => kv.1 =s key)
    [("CO_SIGNER_SHARE_ENCRYPTION_KEY", b64_encode b64_std install_id);
     ("CO_SIGNER_SHARE_ENCRYPTION_KEY_ID", "keyref-1");
     ("CO_SIGNER_PRIMARY_SHARES_DIR", "/srv/primary"); ("CO_SIGNER_RECOVERY_SHARES_DIR", " /vault//recovery/ ");
     ("CO_SIGNER_MONOLITH_URL", "https://backend.example"); ("CO_SIGNER_API_KEY_ID", "api-key-1");
     ("CO_SIGNER_API_PRIVATE_KEY", "secret"); ("CO_SIGNER_POLL_MAX_INTERVAL", "1m30s")] with
  | Some kv => kv.2
  | None => ""
  end.
Definition fixture_load (w : world) : res Config * world :=
  Load fixture_env (Fail (ESent ErrNotExist)) (fun _ => Fail (ENew "invalid syntax")) 1 w.
Definition fixture_config : Config :=
  match (fixture_load install_world).1 with
  | Ok c => c
  | Fail _ => {| co_Approval := Dispatcher.Build_Config "" "" "" false "" 0 0 0 false; co_MonolithURL := "";
                 co_APIKeyID := ""; co_APIPrivateKey := ""; co_HTTPAddr := "";
                 co_PrimaryStore := Build_StoreConfig "" "" (Build_KeyProvider 0 "" "");
                 co_RecoveryStore := Build_StoreConfig "" "" (Build_KeyProvider 0 "" ""); co_LockPath := "";
                 co_PreParamsGenerationParallelism := 0; co_MaxConcurrent := 0; co_PollMinInterval := 0;
                 co_PollMaxInterval := 0; co_PollBackoffFactor := S754_nan; co_FramePollInterval := 0;
                 co_HTTPTimeout := 0 |}
  end.
Example fixture_config_values :
  sc_directory (co_RecoveryStore fixture_config) = "/vault/recovery"
  /\ cfg_JournalDir (co_Approval fixture_config) = "/srv/approval"
  /\ co_PollMinInterval fixture_config = 2000000000%Z /\ co_PollMaxInterval fixture_config = 90000000000%Z
  /\ co_LockPath fixture_config = "/srv/primary/.co-signer.lock" /\ co_HTTPAddr fixture_config = "0.0.0.0:8081".
Proof. vm_compute. repeat split. Qed.

(** A journal that is still to be made below an alias of the primary store is refused. *)
Definition alias_world : world := {|
  vis := ∅; dur := ∅; dirty := ∅; dirs := install_dirs; links := {["/alias" := "/srv/primary"]}; euid := 1000; sched := [] |}.
Definition alias_load (journal : string) : res Config :=
  (Load (fun key => if key =s "CO_SIGNER_APPROVAL_JOURNAL_DIR" then journal else fixture_env key)
     (Fail (ESent ErrNotExist)) (fun _ => Fail (ENew "invalid syntax")) 1 alias_world).1.
Example alias_refused :
  alias_load "/alias/deep/journal" = Fail (ENew "approval journal overlaps a share directory")
  /\ is_ok (alias_load "/elsewhere/deep/journal") = true.
Proof. split; vm_compute; reflexivity. Qed.

Lemma Load_sound_witness : exists w', fixture_load install_world = (Ok fixture_config, w')
  /\ well_formed install_world fixture_config.
Proof.
  assert (E : (fixture_load install_world).1 = Ok fixture_config) by (vm_compute; reflexivity).
  apply run_fst in E. eexists. split; [exact E|].
  exact (Load_sound fixture_env (Fail (ESent ErrNotExist)) (fun _ => Fail (ENew "invalid syntax")) 1 install_world
           fixture_config _ install_world_tree E).
Defined.
