(* ===== verification/Dkg.v ===== *)
(** [internal/worker/dkg_coordinator.go]: one dual-party DKG, from the validated intent to
    the evidence of the two artifacts.  [pstep] interleaves the goroutines of [runParties]
    (the two calls of the MPC core, the channel of results and the loop that waits);
    [Run] is the program around them over the calls it makes, with the answers of the
    clock, the contexts, the core, the router and the inspectors in a script. *)
From stdpp Require Import base tactics option list strings numbers gmap.
From Stdlib Require Import ZArith Lia Ascii String.
From S2P Require Import Prelude GoText Sha256 Externals Mpc2of3 GoTime Monolith Router ShareStore Session.

#[local] Open Scope string_scope.

Record DKGCoordinatorConfig := { dc_PlatformPartyID : string; dc_PrimaryPartyID : string; dc_RecoveryPartyID : string }.

(** [NewDKGCoordinator]; [present] says that the service, the pair and both inspectors are there. *)
Definition NewDKGCoordinator (present : bool) (c : DKGCoordinatorConfig) : res DKGCoordinatorConfig :=
  if negb present
  then Fail (ENew "dkg coordinator requires one service, an active pair, and both inspectors")
  else if (dc_PlatformPartyID c =s "") || (dc_PrimaryPartyID c =s "") || (dc_RecoveryPartyID c =s "")
          || (dc_PlatformPartyID c =s dc_PrimaryPartyID c) || (dc_PlatformPartyID c =s dc_RecoveryPartyID c)
          || (dc_PrimaryPartyID c =s dc_RecoveryPartyID c)
  then Fail (ENew "dkg coordinator requires three distinct parties")
  else Ok c.

(** [coretss.DKGSessionRequest] without the transport. *)
Record DKGSessionRequest := {
  dq_SessionID : string; dq_OrgID : string; dq_KeyID : string; dq_Parties : list string; dq_Threshold : Z;
  dq_Algorithm : string; dq_Curve : string; dq_LocalPartyID : string; dq_Fingerprint : bytes;
  dq_ChainCode : string; dq_DerivationScheme : string;
}.

(** * runParties *)

(** A party: what the core's call returned, whether its result was sent, and whether its
    context was cancelled. *)
Record party := { pa_returned : option (option error); pa_sent : bool; pa_cancelled : bool }.
Definition new_party : party := {| pa_returned := None; pa_sent := false; pa_cancelled := false |}.
Definition cancel (p : party) : party := {| pa_returned := pa_returned p; pa_sent := pa_sent p; pa_cancelled := true |}.
Definition returned (err : option error) (p : party) : party :=
  {| pa_returned := Some err; pa_sent := pa_sent p; pa_cancelled := pa_cancelled p |}.
Definition sent (p : party) : party := {| pa_returned := pa_returned p; pa_sent := true; pa_cancelled := pa_cancelled p |}.

(** [true] is the primary party. *)
Record parties := {
  ps_primary : party; ps_recovery : party; ps_results : list (bool * option error); ps_completed : nat;
  ps_failures : list error; ps_routerErr : option error; ps_watching : bool; ps_result : option (option error);
}.
Definition new_parties : parties := {|
  ps_primary := new_party; ps_recovery := new_party; ps_results := []; ps_completed := 0; ps_failures := [];
  ps_routerErr := None; ps_watching := true; ps_result := None |}.
Definition party_of (who : bool) (s : parties) : party := if who then ps_primary s else ps_recovery s.
Definition on_party (who : bool) (f : party -> party) (s : parties) : parties := {|
  ps_primary := if who then f (ps_primary s) else ps_primary s;
  ps_recovery := if who then ps_recovery s else f (ps_recovery s);
  ps_results := ps_results s; ps_completed := ps_completed s; ps_failures := ps_failures s;
  ps_routerErr := ps_routerErr s; ps_watching := ps_watching s; ps_result := ps_result s |}.

Inductive plabel :=
  | PReturn (who : bool) (err : option error)
  | PSend (who : bool)
  | PReceive
  | PRouterDone (err : option error)
  | PFinish (err : option error).

Definition is_canceled (e : error) : bool := errors_is e Canceled || errors_is e DeadlineExceeded.
Definition preferredPartyFailure (failures : list error) : option error :=
  match List.find (fun e => negb (is_canceled e)) failures with
  | Some e => Some e
  | None => errors_join (map Some failures)
  end.

(** One atomic step, when it can be made.  [text] is the message of a party's failure. *)
Definition pstep (text : bool -> string) (l : plabel) (s : parties) : option parties :=
  match ps_result s, l with
  | Some _, _ => None
  | None, PReturn who err =>
      match pa_returned (party_of who s) with
      | Some _ => None
      | None =>
          let s := on_party who (returned err) s in
          Some (if is_some err then on_party (negb who) cancel s else s)
      end
  | None, PSend who =>
      match pa_returned (party_of who s) with
      | Some err =>
          if pa_sent (party_of who s) then None
          else
            let s := on_party who sent s in
            Some {| ps_primary := ps_primary s; ps_recovery := ps_recovery s;
                    ps_results := ps_results s ++ [(who, err)]; ps_completed := ps_completed s;
                    ps_failures := ps_failures s; ps_routerErr := ps_routerErr s;
                    ps_watching := ps_watching s; ps_result := ps_result s |}
      | None => None
      end
  | None, PReceive =>
      match ps_results s with
      | (who, err) :: results =>
          if (ps_completed s <? 2)%nat then
            Some {| ps_primary := ps_primary s; ps_recovery := ps_recovery s; ps_results := results;
                    ps_completed := S (ps_completed s);
                    ps_failures := (ps_failures s ++ match err with Some e => [EWrap (text who) e] | None => [] end)%list;
                    ps_routerErr := ps_routerErr s; ps_watching := ps_watching s; ps_result := ps_result s |}
          else None
      | [] => None
      end
  | None, PRouterDone err =>
      if ps_watching s && (ps_completed s <? 2)%nat then
        Some {| ps_primary := cancel (ps_primary s); ps_recovery := cancel (ps_recovery s);
                ps_results := ps_results s; ps_completed := ps_completed s; ps_failures := ps_failures s;
                ps_routerErr := err; ps_watching := false; ps_result := ps_result s |}
      else None
  | None, PFinish err =>
      if (ps_completed s <? 2)%nat then None
      else
        let routerErr := if is_some err then err else ps_routerErr s in
        Some {| ps_primary := ps_primary s; ps_recovery := ps_recovery s; ps_results := ps_results s;
                ps_completed := ps_completed s; ps_failures := ps_failures s; ps_routerErr := routerErr;
                ps_watching := ps_watching s;
                ps_result := Some (if is_some routerErr then routerErr else preferredPartyFailure (ps_failures s)) |}
  end.

(** The run of a schedule; a label that is not possible where it stands is skipped. *)
Fixpoint prun (text : bool -> string) (ls : list plabel) (s : parties) : parties :=
  match ls with
  | [] => s
  | l :: ls => prun text ls (default s (pstep text l s))
  end.

(** * Run *)

Inductive dkg_call :=
  | CallRouterStart (c : Router.Config)
  | CallRouterClose
  | CallRouterFinish
  | CallBeginJob
  | CallFinishJob
  | CallAcquire (primary : bool)
  | CallDiscard (primary : bool)
  | CallRunParties (primary recovery : DKGSessionRequest)
  | CallInspect (primary : bool) (expected : ExpectedArtifactContext).

(** What the environment answers: the network's presence, [time.Now], the router and the
    job, the pre-parameters (whose handle may be nil), the contexts, the interleaving of the
    parties, and the inspectors. *)
Record dkg_env := {
  de_network : bool; de_now : time; de_begin : option error; de_primary : res bool; de_recovery : res bool;
  de_discard : bool -> option error; de_ctx1 : option error; de_ctx2 : option error; de_parties : list plabel;
  de_finish : option error; de_inspect : bool -> res ArtifactEvidence;
}.

(** The state: the active pair and the calls made.  A program that waits for ever has no result. *)
Record dkg_state := { ds_pair : ActivePair; ds_calls : list dkg_call }.
Definition K (A : Type) : Type := dkg_state -> option (res A) * dkg_state.
#[global] Instance K_ret : MRet K := fun A a s => (Some (Ok a), s).
#[global] Instance K_bind : MBind K := fun A B f m s =>
  match m s with
  | (Some (Ok a), s) => f a s
  | (Some (Fail e), s) => (Some (Fail e), s)
  | (None, s) => (None, s)
  end.
Definition kthrow {A} (e : error) : K A := fun s => (Some (Fail e), s).
Definition klift {A} (r : res A) : K A := fun s => (Some r, s).
Definition call (c : dkg_call) : K unit := fun s =>
  (Some (Ok ()), {| ds_pair := ds_pair s; ds_calls := ds_calls s ++ [c] |}).
(** [defer cleanup()]: it runs however the body returns. *)
Definition deferred {A} (cleanup : K unit) (body : K A) : K A := fun s =>
  match body s with
  | (Some r, s) => (Some r, (cleanup s).2)
  | (None, s) => (None, s)
  end.

Record validatedDKGContext := {
  vc_intent : Intent; vc_descriptor : KeyDescriptorV1; vc_fingerprint : bytes; vc_descriptorBytes : bytes;
  vc_chainCode : string; vc_deadline : time;
}.

Definition err_context (what : string) : error := EWrap what (ESent ErrInvalidDKGContext).

Section Coordinator.
Context (c : DKGCoordinatorConfig).

Definition party_ids (descriptor : KeyDescriptorV1) : list string := map party_PartyID (kd_Parties descriptor).

Definition validateRuntimeContext (now : time) (intent : Intent) : res validatedDKGContext :=
  let p := in_Payload intent in
  if negb (equal_fold (trim_space (in_Type intent)) "DKG") || (trim_space (in_SessionID intent) =s "")
     || (trim_space (ip_OrgID p) =s "") || (zlen (ip_DescriptorBytes p) =? 0)%Z
     || (in_ExpiresAt intent =? zero_time)%Z || negb (now <? in_ExpiresAt intent)%Z
  then Fail (err_context "incomplete intent")
  else match ParseCanonicalDescriptor (ip_DescriptorBytes p) with
  | Fail _ => Fail (err_context "descriptor")
  | Ok (descriptor, fingerprint) =>
      if (kd_KeyID descriptor <>s ip_KeyID p) || negb (kd_Threshold descriptor =? 2)%Z
         || negb (bool_decide (party_ids descriptor
                   = [dc_PlatformPartyID c; dc_PrimaryPartyID c; dc_RecoveryPartyID c]))
      then Fail (err_context "descriptor binding")
      else if (ip_DescriptorFingerprint p =s "") || (ip_DescriptorFingerprint p <>s digest_String fingerprint)
      then Fail (err_context "descriptor fingerprint")
      else match hex_decode (ip_ChainCode p) with
      | None => Fail (err_context "chain code")
      | Some chainCode =>
          if negb (zlen chainCode =? 32)%Z || (hex_encode chainCode <>s ip_ChainCode p)
          then Fail (err_context "chain code")
          else if (ip_ChainCodeHash p <>s kd_ChainCodeHash descriptor)
                  || (digest_String (ChainCodeHashFor chainCode) <>s kd_ChainCodeHash descriptor)
          then Fail (err_context "chain code hash")
          else Ok {| vc_intent := intent; vc_descriptor := descriptor; vc_fingerprint := fingerprint;
                     vc_descriptorBytes := ip_DescriptorBytes p; vc_chainCode := ip_ChainCode p;
                     vc_deadline := in_ExpiresAt intent |}
      end
  end.

Definition buildPartyDKGRequest (v : validatedDKGContext) (localPartyID : string) : DKGSessionRequest := {|
  dq_SessionID := in_SessionID (vc_intent v); dq_OrgID := ip_OrgID (in_Payload (vc_intent v));
  dq_KeyID := kd_KeyID (vc_descriptor v); dq_Parties := party_ids (vc_descriptor v);
  dq_Threshold := kd_Threshold (vc_descriptor v); dq_Algorithm := kd_Algorithm (vc_descriptor v);
  dq_Curve := kd_Curve (vc_descriptor v); dq_LocalPartyID := localPartyID; dq_Fingerprint := vc_fingerprint v;
  dq_ChainCode := vc_chainCode v; dq_DerivationScheme := kd_DerivationScheme (vc_descriptor v) |}.

Definition compareEvidence (v : validatedDKGContext) (primary recovery : ArtifactEvidence) : res unit :=
  let commonMatches :=
    (ev_SessionID primary =s in_SessionID (vc_intent v)) && (ev_SessionID recovery =s in_SessionID (vc_intent v))
    && (ev_KeyID primary =s kd_KeyID (vc_descriptor v)) && (ev_KeyID recovery =s kd_KeyID (vc_descriptor v))
    && (ev_DescriptorFingerprint primary =s vc_fingerprint v)
    && (ev_DescriptorFingerprint recovery =s vc_fingerprint v)
    && (ev_AccountPublicKey primary =s ev_AccountPublicKey recovery)
    && (ev_ChainCodeHash primary =s ev_ChainCodeHash recovery)
    && (digest_String (ev_ChainCodeHash primary) =s kd_ChainCodeHash (vc_descriptor v))
    && (ev_CodecVersion primary =? ev_CodecVersion recovery)%Z in
  let partyMatches :=
    (ev_PartyID primary =s dc_PrimaryPartyID c) && (ev_Purpose primary =s StorePurposePrimary)
    && (ev_PartyID recovery =s dc_RecoveryPartyID c) && (ev_Purpose recovery =s StorePurposeRecovery) in
  if negb commonMatches || negb partyMatches then Fail (ESent ErrDKGEvidenceMismatch) else Ok ().

Context (env : dkg_env).

(** [discardHandle], for a handle that is not nil. *)
Definition discardHandle (primary present : bool) : K (option error) :=
  if negb present then mret None
  else
    _ ← call (CallDiscard primary);
    mret ((fun e => EWrap ("discard " +:+ (if primary then "primary" else "recovery") +:+ " preparams") e)
            <$> de_discard env primary).

Definition fail_joined {A} (es : list (option error)) : K A :=
  match errors_join es with Some e => kthrow e | None => kthrow (EJoin []) end.

Definition register (r : PairRegistration) : K (res Z) := fun s =>
  let '(lease, slot) := RegisterPair r (ds_pair s) in
  (Some (Ok lease), {| ds_pair := slot; ds_calls := ds_calls s |}).
Definition lease_Release (lease : Z) : K unit := fun s =>
  (Some (Ok ()), {| ds_pair := Release lease (ds_pair s); ds_calls := ds_calls s |}).

Definition releaseBeforeStart {A} (lease : Z) (primary recovery : bool) (runErr : error) : K A :=
  _ ← lease_Release lease;
  e1 ← discardHandle true primary;
  e2 ← discardHandle false recovery;
  fail_joined [Some runErr; None; e1; e2].

Definition party_text (v : validatedDKGContext) (who : bool) : string :=
  "dkg session " +:+ in_SessionID (vc_intent v) +:+ " party "
  +:+ (if who then dc_PrimaryPartyID c else dc_RecoveryPartyID c).

(** [runParties]: waiting until the schedule gives its result. *)
Definition runParties (v : validatedDKGContext) (primary recovery : DKGSessionRequest) : K (option error) := fun s =>
  let s := {| ds_pair := ds_pair s; ds_calls := ds_calls s ++ [CallRunParties primary recovery] |} in
  match ps_result (prun (party_text v) (de_parties env) new_parties) with
  | Some r => (Some (Ok r), s)
  | None => (None, s)
  end.

(** From the acquisition of the pre-parameters to the end of the parties' run. *)
Definition run_job (v : validatedDKGContext) : K (option error) :=
  _ ← call (CallAcquire true);
  match de_primary env with
  | Fail e => kthrow (EWrap "acquire primary preparams" e)
  | Ok primary =>
      _ ← call (CallAcquire false);
      match de_recovery env with
      | Fail e =>
          e1 ← discardHandle true primary;
          fail_joined [Some (EWrap "acquire recovery preparams" e); e1]
      | Ok recovery =>
          lease ← register {|
            reg_SessionID := in_SessionID (vc_intent v); reg_KeyID := kd_KeyID (vc_descriptor v);
            reg_PrimaryPartyID := dc_PrimaryPartyID c; reg_RecoveryPartyID := dc_RecoveryPartyID c;
            reg_DescriptorBytes := vc_descriptorBytes v |};
          match lease with
          | Fail e =>
              e1 ← discardHandle true primary;
              e2 ← discardHandle false recovery;
              fail_joined [Some e; e1; e2]
          | Ok lease =>
              match de_ctx1 env with
              | Some e => releaseBeforeStart lease primary recovery e
              | None =>
                  let primaryRequest := buildPartyDKGRequest v (dc_PrimaryPartyID c) in
                  let recoveryRequest := buildPartyDKGRequest v (dc_RecoveryPartyID c) in
                  match de_ctx2 env with
                  | Some e => releaseBeforeStart lease primary recovery e
                  | None =>
                      runErr ← runParties v primaryRequest recoveryRequest;
                      _ ← call CallRouterFinish;
                      let runErr := if is_some (de_finish env) then de_finish env else runErr in
                      _ ← lease_Release lease;
                      mret runErr
                  end
              end
          end
      end
  end.

(** The inspection of the two artifacts. *)
Definition inspect_pair (v : validatedDKGContext) : K DKGResult :=
  let expected := {| xc_SessionID := in_SessionID (vc_intent v); xc_KeyID := kd_KeyID (vc_descriptor v);
                     xc_DescriptorBytes := vc_descriptorBytes v |} in
  _ ← call (CallInspect true expected);
  match de_inspect env true with
  | Fail e => kthrow (EWrap "inspect primary dkg artifact" e)
  | Ok primary =>
      _ ← call (CallInspect false expected);
      match de_inspect env false with
      | Fail e => kthrow (EWrap "inspect recovery dkg artifact" e)
      | Ok recovery =>
          _ ← klift (compareEvidence v primary recovery);
          mret {| dr_Primary := primary; dr_Recovery := recovery |}
      end
  end.

(** [Run].  The job is finished by the deferred call, or on the line before the
    inspection; [deferred] covers the part before that line. *)
Definition Run (intent : Intent) : K DKGResult :=
  if negb (de_network env) then kthrow (err_context "network transport is required")
  else
    v ← klift (validateRuntimeContext (de_now env) intent);
    let config := {|
      Router.SessionID := in_SessionID intent; Router.PlatformPartyID := dc_PlatformPartyID c;
      Router.PrimaryPartyID := dc_PrimaryPartyID c; Router.RecoveryPartyID := dc_RecoveryPartyID c;
      Router.Stage := "dkg"; Router.Protocol := kd_Algorithm (vc_descriptor v) |} in
    match Router.New config with
    | Fail _ => kthrow (err_context "create local router")
    | Ok router =>
        _ ← call (CallRouterStart config);
        deferred (call CallRouterClose) (
          _ ← klift (Transport router (dc_PrimaryPartyID c));
          _ ← klift (Transport router (dc_RecoveryPartyID c));
          _ ← call CallBeginJob;
          match de_begin env with
          | Some e => kthrow (EWrap "pause preparams refill" e)
          | None =>
              runErr ← deferred (call CallFinishJob) (run_job v);
              match runErr with
              | Some e => kthrow (EJoin [e])
              | None => inspect_pair v
              end
          end)
    end.
End Coordinator.
