(* ===== verification/DkgProofs.v ===== *)
(** Proofs about the DKG coordinator: what its parties' run returns in every interleaving,
    what evidence a completed DKG carries, and that every path gives back the job, the
    pre-parameters, the registration of the pair and the router. *)
From stdpp Require Import base tactics option list strings numbers gmap.
From Stdlib Require Import ZArith Lia Ascii String.
From S2P Require Import Prelude GoText Sha256 Json StrictJson Externals Mpc2of3 GoTime Monolith Router ShareStore Session Dkg.

#[local] Open Scope string_scope.

(** * The two parties *)

Section Parties.
Context (text : bool -> string).

Definition failure_of (result : bool * option error) : list error :=
  match result.2 with Some e => [EWrap (text result.1) e] | None => [] end.

(** [got] are the results received so far, in order. *)
Record pinv (got : list (bool * option error)) (s : parties) : Prop := {
  pi_cancel who e : pa_returned (party_of who s) = Some (Some e) -> pa_cancelled (party_of (negb who) s) = true;
  pi_router : ps_watching s = false -> forall who, pa_cancelled (party_of who s) = true;
  pi_watch : ps_watching s = true -> ps_result s = None -> ps_routerErr s = None;
  pi_completed : List.length got = ps_completed s /\ (ps_completed s <= 2)%nat;
  pi_failures : ps_failures s = flat_map failure_of got;
  pi_sent who err : (who, err) ∈ (got ++ ps_results s)%list -> pa_returned (party_of who s) = Some err;
  pi_who who : pa_sent (party_of who s) = true <-> who ∈ map fst (got ++ ps_results s)%list;
  pi_nodup : NoDup (map fst (got ++ ps_results s)%list);
  pi_result r : ps_result s = Some r -> ps_completed s = 2%nat
    /\ r = if is_some (ps_routerErr s) then ps_routerErr s else preferredPartyFailure (ps_failures s);
}.

Lemma pinv_init : pinv [] new_parties.
Proof.
  constructor; cbn; try done; [by intros [] ?|split; [done|lia]|by intros ? ? ?%not_elem_of_nil| |constructor].
  intros []; (split; [done|intros ?%not_elem_of_nil; done]).
Qed.

Lemma party_on who who' f s : party_of who' (on_party who f s) = if Bool.eqb who who' then f (party_of who s) else party_of who' s.
Proof. by destruct who, who'. Qed.

Lemma pinv_return got s who err : pinv got s -> ps_result s = None -> pa_returned (party_of who s) = None ->
  pinv got (let s := on_party who (returned err) s in if is_some err then on_party (negb who) cancel s else s).
Proof.
  intros [Hc Hr Hw Hn Hf Hs Hw' Hd Hres] Hnone Hp. cbv zeta. set (s' := if is_some err then _ else _).
  assert (Hparty : forall x, party_of x s' = let p := if Bool.eqb who x then returned err (party_of x s) else party_of x s in
    if is_some err && Bool.eqb (negb who) x then cancel p else p).
  { intros x. unfold s'. destruct err, who, x; done. }
  assert (Hsame : ps_results s' = ps_results s /\ ps_completed s' = ps_completed s /\ ps_failures s' = ps_failures s
    /\ ps_routerErr s' = ps_routerErr s /\ ps_watching s' = ps_watching s /\ ps_result s' = ps_result s)
    by (unfold s'; by destruct err).
  destruct Hsame as (E1 & E2 & E3 & E4 & E5 & E6). clearbody s'.
  constructor; rewrite ?E1, ?E2, ?E3, ?E4, ?E5, ?E6; try done.
  - intros x e. rewrite !Hparty. specialize (Hc x). destruct err, who, x; cbn in *; intros E; try done; by apply (Hc e).
  - intros Ew x. rewrite Hparty. specialize (Hr Ew x). destruct err, who, x; cbn in *; done.
  - intros x e Hin. pose proof (Hs x e Hin) as Hret. rewrite Hparty. destruct (Bool.eqb who x) eqn:Ex.
    + apply eqb_prop in Ex as <-. congruence.
    + by destruct (_ && _).
  - intros x. rewrite <- Hw', Hparty. by destruct (_ && _), (Bool.eqb who x).
Qed.

Lemma pinv_send got s who err : pinv got s -> ps_result s = None -> pa_returned (party_of who s) = Some err ->
  pa_sent (party_of who s) = false ->
  pinv got (let s := on_party who sent s in
    {| ps_primary := ps_primary s; ps_recovery := ps_recovery s; ps_results := ps_results s ++ [(who, err)];
       ps_completed := ps_completed s; ps_failures := ps_failures s; ps_routerErr := ps_routerErr s;
       ps_watching := ps_watching s; ps_result := ps_result s |}).
Proof.
  intros [Hc Hr Hw Hn Hf Hs Hw' Hd Hres] Hnone Hp Hnot. cbv zeta. set (s' := Build_parties _ _ _ _ _ _ _ _).
  assert (Hret : forall x, pa_returned (party_of x s') = pa_returned (party_of x s)
    /\ pa_cancelled (party_of x s') = pa_cancelled (party_of x s)
    /\ pa_sent (party_of x s') = pa_sent (party_of x s) || Bool.eqb who x).
  { unfold s'. destruct who; intros []; cbn; split_and!; try done; by rewrite ?orb_true_r, ?orb_false_r. }
  assert (Hsame : ps_results s' = (ps_results s ++ [(who, err)])%list /\ ps_completed s' = ps_completed s
    /\ ps_failures s' = ps_failures s /\ ps_routerErr s' = ps_routerErr s /\ ps_watching s' = ps_watching s
    /\ ps_result s' = ps_result s) by done.
  destruct Hsame as (E1 & E2 & E3 & E4 & E5 & E6). clearbody s'.
  assert (Hnew : who ∉ map fst (got ++ ps_results s)%list) by (rewrite <- Hw'; congruence).
  constructor; rewrite ?E1, ?E2, ?E3, ?E4, ?E5, ?E6; try done.
  - intros x e. destruct (Hret x) as [-> _], (Hret (negb x)) as (_ & -> & _). apply Hc.
  - intros Ew x. destruct (Hret x) as (_ & -> & _). by apply Hr.
  - intros x e. destruct (Hret x) as [-> _]. rewrite app_assoc, elem_of_app, list_elem_of_singleton.
    intros [Hin|[= -> ->]]; [by apply Hs|done].
  - intros x. destruct (Hret x) as (_ & _ & ->). rewrite app_assoc, map_app, elem_of_app, <- Hw'. cbn [map fst].
    rewrite list_elem_of_singleton, orb_true_iff. destruct who, x; cbn; intuition congruence.
  - rewrite app_assoc, map_app. apply NoDup_app. split_and!; [done| |repeat constructor; by intros ?%not_elem_of_nil].
    intros x Hin. cbn. rewrite list_elem_of_singleton. by intros ->.
Qed.

Lemma pinv_step l s s' got : pinv got s -> pstep text l s = Some s' -> exists got', pinv got' s'.
Proof.
  intros Hi. unfold pstep. destruct (ps_result s) eqn:Enone; [done|]. destruct l as [who err|who| |err|err].
  - destruct (pa_returned _) eqn:Ep; [done|]. intros [= <-]. exists got. by apply pinv_return.
  - destruct (pa_returned _) as [err|] eqn:Ep; [|done]. destruct (pa_sent _) eqn:Es; [done|]. intros [= <-].
    exists got. by apply pinv_send.
  - destruct (ps_results s) as [|[who err] results] eqn:Er; [done|]. destruct (_ <? _)%nat eqn:El; [|done].
    apply Nat.ltb_lt in El. intros [= <-]. exists (got ++ [(who, err)])%list.
    destruct Hi as [Hc Hr Hw [Hn Hle] Hf Hs Hw' Hd Hres].
    assert (Eapp : ((got ++ [(who, err)]) ++ results)%list = (got ++ ps_results s)%list) by (by rewrite Er, <- app_assoc).
    constructor; cbn [ps_results ps_completed ps_failures ps_routerErr ps_watching ps_result];
      try (rewrite Eapp); try done.
    + intros Ew _. by apply Hw.
    + rewrite length_app. cbn. lia.
    + rewrite Hf, flat_map_app. cbn. by rewrite app_nil_r.
  - destruct (_ && _) eqn:El; [|done]. intros [= <-]. exists got. destruct Hi as [Hc Hr Hw Hn Hf Hs Hw' Hd Hres].
    constructor; cbn [ps_results ps_completed ps_failures ps_routerErr ps_watching ps_result]; try done.
    + by intros [] e.
    + by intros _ [].
    + intros x e Hin. rewrite <- (Hs x e Hin). by destruct x.
    + intros x. rewrite <- Hw'. by destruct x.
  - destruct (_ <? _)%nat eqn:El; [done|]. apply Nat.ltb_ge in El. intros [= <-]. exists got.
    destruct Hi as [Hc Hr Hw [Hn Hle] Hf Hs Hw' Hd Hres].
    constructor; cbn [ps_results ps_completed ps_failures ps_routerErr ps_watching ps_result]; try done.
    intros r [= <-]. split; [lia|]. done.
Qed.

Lemma pinv_run ls s got : pinv got s -> exists got', pinv got' (prun text ls s).
Proof.
  revert s got. induction ls as [|l ls IH]; intros s got Hi; cbn [prun]; [eauto|].
  destruct (pstep text l s) as [s'|] eqn:E; cbn [default]; [|by eapply IH].
  destruct (pinv_step _ _ _ _ Hi E) as [got' Hi']. by eapply IH.
Qed.

(** A failed party's sibling is cancelled, and both are once the router is done. *)
Lemma parties_cancelled ls who e : pa_returned (party_of who (prun text ls new_parties)) = Some (Some e) ->
  pa_cancelled (party_of (negb who) (prun text ls new_parties)) = true.
Proof. destruct (pinv_run ls _ _ pinv_init) as [got Hi]. apply (pi_cancel _ _ Hi). Qed.

Lemma two_results (got : list (bool * option error)) : List.length got = 2%nat -> NoDup (map fst got) ->
  exists who e1 e2, got = [(who, e1); (negb who, e2)].
Proof.
  destruct got as [|[w1 e1] [|[w2 e2] [|]]]; try done. cbn. intros _ [Hn _]%NoDup_cons.
  rewrite list_elem_of_singleton in Hn. exists w1, e1, e2. by destruct w1, w2.
Qed.

(** When the run has a result, both calls have returned and their failures are in it. *)
Lemma parties_done ls r : ps_result (prun text ls new_parties) = Some r -> let s := prun text ls new_parties in
  exists who e1 e2, pa_returned (party_of who s) = Some e1 /\ pa_returned (party_of (negb who) s) = Some e2
  /\ r = if is_some (ps_routerErr s) then ps_routerErr s
         else preferredPartyFailure (flat_map failure_of [(who, e1); (negb who, e2)]).
Proof.
  intros Hr s. destruct (pinv_run ls _ _ pinv_init) as [got Hi]. fold s in Hi, Hr.
  destruct (pi_result _ _ Hi r Hr) as [Hc ->]. destruct (pi_completed _ _ Hi) as [Hl _].
  pose proof (pi_nodup _ _ Hi) as Hd. rewrite map_app in Hd. apply NoDup_app in Hd as (Hd & _ & _).
  destruct (two_results got) as (who & e1 & e2 & ->); [congruence|done|]. exists who, e1, e2. split_and!.
  - apply (pi_sent _ _ Hi). by left.
  - apply (pi_sent _ _ Hi). by right; left.
  - by rewrite (pi_failures _ _ Hi).
Qed.

Lemma preferred_nil l : preferredPartyFailure l = None <-> l = [].
Proof.
  split; [|by intros ->]. unfold preferredPartyFailure. destruct l as [|e l]; [done|].
  destruct (List.find _ _); [done|]. cbn. unfold errors_join. cbn. done.
Qed.
Lemma preferred_find l e : preferredPartyFailure l = Some e -> (exists x, In x l /\ is_canceled x = false) ->
  In e l /\ is_canceled e = false.
Proof.
  intros Hp (x & Hx & Hn). unfold preferredPartyFailure in Hp. destruct (List.find _ l) as [e'|] eqn:Ef.
  - injection Hp as ->. apply find_some in Ef as [? ?%negb_true_iff]. done.
  - pose proof (find_none _ _ Ef x Hx) as Hc. cbn in Hc. by rewrite Hn in Hc.
Qed.

(** In every interleaving the run of the parties ends only when both calls of the core
    have returned, without an error exactly when both succeeded and the router did not
    fail; a router's error is reported as it is, and otherwise a party's own failure is
    never hidden by the cancellation it caused in its sibling. *)
Theorem runParties_result ls r : ps_result (prun text ls new_parties) = Some r ->
  let s := prun text ls new_parties in
  (exists ep er, pa_returned (ps_primary s) = Some ep /\ pa_returned (ps_recovery s) = Some er
   /\ (r = None <-> ep = None /\ er = None /\ ps_routerErr s = None))
  /\ (is_some (ps_routerErr s) = true -> r = ps_routerErr s)
  /\ (ps_routerErr s = None ->
      forall who e, pa_returned (party_of who s) = Some (Some e) -> is_canceled e = false ->
      exists who' e', r = Some (EWrap (text who') e') /\ is_canceled e' = false
      /\ pa_returned (party_of who' s) = Some (Some e')).
Proof.
  intros Hr s. destruct (parties_done ls r Hr) as (who & e1 & e2 & H1 & H2 & ->). fold s in H1, H2 |- *.
  assert (Hnone : (if is_some (ps_routerErr s) then ps_routerErr s
      else preferredPartyFailure (flat_map failure_of [(who, e1); (negb who, e2)])) = None
      <-> e1 = None /\ e2 = None /\ ps_routerErr s = None).
  { destruct (ps_routerErr s); cbn [is_some]; [naive_solver|]. rewrite preferred_nil.
    destruct e1, e2; cbn; naive_solver. }
  split_and!.
  - destruct who; cbn [party_of negb] in H1, H2; [exists e1, e2|exists e2, e1]; split_and!; try done; naive_solver.
  - by intros ->.
  - intros ->. cbn [is_some]. intros w e Hw Hc.
    assert (Hin : exists x, In x (flat_map failure_of [(who, e1); (negb who, e2)]) /\ is_canceled x = false).
    { exists (EWrap (text w) e). split; [|done]. apply in_flat_map. exists (w, Some e). split; [|by left].
      destruct (decide (w = who)) as [->|Hne]; [left; congruence|right; left].
      assert (w = negb who) as -> by (by destruct w, who). congruence. }
    destruct (preferredPartyFailure _) as [x|] eqn:Ep; [|apply preferred_nil in Ep; rewrite Ep in Hin; by destruct Hin as (? & [] & _)].
    destruct (preferred_find _ _ Ep Hin) as [Hx Hxc]. apply in_flat_map in Hx as ([w' o] & Hw' & Ho).
    unfold failure_of in Ho. cbn [fst snd] in Ho. destruct o as [e'|]; [|done]. destruct Ho as [<-|[]].
    exists w', e'. split_and!; [done|done|]. by destruct Hw' as [[= <- ->]|[[= <- ->]|[]]].
Qed.

(** Once both calls have returned, the loop ends: whatever was pending, delivering the
    results and the router's answer gives the result. *)
Lemma prun_app l1 l2 s : prun text (l1 ++ l2) s = prun text l2 (prun text l1 s).
Proof. revert s. induction l1 as [|l l1 IH]; intros s; cbn; [done|apply IH]. Qed.

Lemma sent_count (sp sr : bool) (l : list (bool * option error)) : NoDup (map fst l) ->
  (sp = true <-> true ∈ map fst l) -> (sr = true <-> false ∈ map fst l) ->
  List.length l = (Nat.b2n sp + Nat.b2n sr)%nat.
Proof.
  intros Hd Hp Hr. assert (He : map fst l ≡ₚ (if sp then [true] else []) ++ (if sr then [false] else [])).
  { apply NoDup_Permutation; [done|destruct sp, sr; repeat constructor; set_solver|].
    intros []; rewrite elem_of_app; [rewrite <- Hp|rewrite <- Hr]; destruct sp, sr;
      rewrite ?list_elem_of_singleton, ?elem_of_nil; naive_solver. }
  apply Permutation_length in He. rewrite length_map, length_app in He. rewrite He. by destruct sp, sr.
Qed.

(** [runParties] returns: whatever the schedule so far, once both calls of the core
    have returned, sending and receiving their results and reading the router's error ends
    the wait. *)
Theorem runParties_returns ls err : let s := prun text ls new_parties in
  pa_returned (ps_primary s) <> None -> pa_returned (ps_recovery s) <> None ->
  exists r, ps_result (prun text [PSend true; PSend false; PReceive; PReceive; PFinish err] s) = Some r.
Proof.
  intros s Hp Hr. destruct (pinv_run ls _ _ pinv_init) as [got Hi]. fold s in Hi.
  assert (Hcount : (ps_completed s + List.length (ps_results s)
      = Nat.b2n (pa_sent (ps_primary s)) + Nat.b2n (pa_sent (ps_recovery s)))%nat).
  { rewrite <- (proj1 (pi_completed _ _ Hi)), <- length_app.
    apply sent_count; [apply (pi_nodup _ _ Hi)|apply (pi_who _ _ Hi true)|apply (pi_who _ _ Hi false)]. }
  clearbody s. clear Hi.
  destruct s as [[rp sp cp] [rr sr cr] results completed failures rerr w [r|]]; cbn in Hp, Hr, Hcount.
  { exists r. done. }
  destruct rp as [ep|], rr as [er|]; try done. clear Hp Hr.
  destruct sp, sr, results as [|[? ?] [|[? ?] [|]]], completed as [|[|[|]]]; cbn in Hcount |- *; try lia; eauto.
Qed.
End Parties.

(** * Run *)

Definition count (p : dkg_call -> bool) (l : list dkg_call) : nat := List.length (List.filter p l).
Definition is_start (x : dkg_call) : bool := match x with CallRouterStart _ => true | _ => false end.
Definition is_close (x : dkg_call) : bool := match x with CallRouterClose => true | _ => false end.
Definition is_begin (x : dkg_call) : bool := match x with CallBeginJob => true | _ => false end.
Definition is_end (x : dkg_call) : bool := match x with CallFinishJob => true | _ => false end.
Definition is_acquire (who : bool) (x : dkg_call) : bool := match x with CallAcquire w => Bool.eqb w who | _ => false end.
Definition is_discard (who : bool) (x : dkg_call) : bool := match x with CallDiscard w => Bool.eqb w who | _ => false end.
Definition is_parties (x : dkg_call) : bool := match x with CallRunParties _ _ => true | _ => false end.

Section Coordinator.
Context (c : DKGCoordinatorConfig) (env : dkg_env).

Definition handle_of (who : bool) : res bool := if who then de_primary env else de_recovery env.

(** Every acquired handle went to the core or was discarded, and the pair is free again. *)
Record job_balanced (s s' : dkg_state) (new : list dkg_call) : Prop := {
  jb_calls : ds_calls s' = (ds_calls s ++ new)%list;
  jb_pair : pair_active (ds_pair s') = pair_active (ds_pair s);
  jb_handle who : handle_of who = Ok true -> count (is_acquire who) new = (count (is_discard who) new + count is_parties new)%nat;
  jb_parties : (count is_parties new <= 1)%nat;
  jb_other : count is_start new = 0%nat /\ count is_close new = 0%nat /\ count is_begin new = 0%nat /\ count is_end new = 0%nat;
}.

Lemma Release_Register r s lease s' : RegisterPair r s = (Ok lease, s') ->
  pair_active s = None /\ pair_active (Release lease s') = None.
Proof.
  unfold RegisterPair. destruct (ParseCanonicalDescriptor _) as [[d f]|]; [|done]. destruct (_ || _); [done|].
  destruct (pair_active s) eqn:Ea; [done|]. intros [= <- <-]. split; [done|]. unfold Release. cbn. by rewrite Z.eqb_refl.
Qed.
Lemma Register_Fail r s e s' : RegisterPair r s = (Fail e, s') -> s' = s.
Proof.
  unfold RegisterPair. destruct (ParseCanonicalDescriptor _) as [[d f]|]; [|by intros [= _ <-]].
  destruct (_ || _); [by intros [= _ <-]|]. destruct (pair_active s); [by intros [= _ <-]|done].
Qed.

Lemma kbind_ok {A B} (m : K A) (k : A -> K B) s a s1 : m s = (Some (Ok a), s1) -> (m ≫= k) s = k a s1.
Proof. unfold mbind, K_bind. by intros ->. Qed.
Lemma discard_run who present s : exists o, discardHandle env who present s =
  (Some (Ok o), {| ds_pair := ds_pair s;
                   ds_calls := (ds_calls s ++ if present then [CallDiscard who] else [])%list |}).
Proof. unfold discardHandle. destruct present, s; cbn; rewrite ?app_nil_r; eauto. Qed.
Lemma fail_joined_run {A} es s : exists e, fail_joined es s = (Some (Fail e : res A), s).
Proof. unfold fail_joined. destruct (errors_join es); eauto. Qed.

(** Every handle is discarded once its acquisition or the start of the parties fails. *)
Ltac balance := intros [= <- <-]; eexists; constructor; cbn [ds_calls ds_pair];
  [rewrite <- ?app_assoc; reflexivity|try done..|cbn; lia|done].

Lemma discard_both {A} hp hr es s : exists e,
  (e1 ← discardHandle env true hp; e2 ← discardHandle env false hr; fail_joined (es ++ [e1; e2])) s
  = (Some (Fail e : res A), {| ds_pair := ds_pair s; ds_calls :=
       (ds_calls s ++ (if hp then [CallDiscard true] else []) ++ if hr then [CallDiscard false] else [])%list |}).
Proof.
  destruct (discard_run true hp s) as [o1 E1]. rewrite (kbind_ok _ _ _ _ _ E1).
  match goal with |- context[(discardHandle env false hr ≫= _) ?s1] => destruct (discard_run false hr s1) as [o2 E2] end.
  rewrite (kbind_ok _ _ _ _ _ E2). cbn [ds_pair ds_calls]. rewrite <- app_assoc. apply fail_joined_run.
Qed.

(** What a handle's calls must balance to, per party. *)
Lemma handles new hp : de_primary env = Ok hp ->
  (hp = true -> count (is_acquire true) new = (count (is_discard true) new + count is_parties new)%nat) ->
  (de_recovery env = Ok true -> count (is_acquire false) new = (count (is_discard false) new + count is_parties new)%nat) ->
  forall who, handle_of who = Ok true -> count (is_acquire who) new = (count (is_discard who) new + count is_parties new)%nat.
Proof. intros E Hp Hr []; cbn [handle_of]; [|done]. rewrite E. intros [= ->]. by apply Hp. Qed.

Lemma discard_balanced s s0 s' es hp hr (r : res (option error)) :
  de_primary env = Ok hp -> de_recovery env = Ok hr ->
  ds_calls s0 = (ds_calls s ++ [CallAcquire true; CallAcquire false])%list ->
  pair_active (ds_pair s0) = pair_active (ds_pair s) ->
  (e1 ← discardHandle env true hp; e2 ← discardHandle env false hr; fail_joined (es ++ [e1; e2])) s0 = (Some r, s') ->
  (exists new, job_balanced s s' new) /\ is_ok r = false.
Proof.
  intros Ep Er Hc Hp. destruct (@discard_both (option error) hp hr es s0) as [e' ->]. intros [= <- <-]. split; [|done].
  eexists. constructor; cbn [ds_pair ds_calls].
  - rewrite Hc, <- !app_assoc. reflexivity.
  - done.
  - apply (handles _ hp); [done|by intros ->; destruct hr|rewrite Er; by intros [= ->]; destruct hp].
  - destruct hp, hr; cbn; lia.
  - by destruct hp, hr.
Qed.

Definition parties_run (v : validatedDKGContext) (r : res (option error)) : Prop :=
  forall e, r = Ok e -> exists e0, ps_result (prun (party_text c v) (de_parties env) new_parties) = Some e0
    /\ e = if is_some (de_finish env) then de_finish env else e0.
Lemma not_ok v r : is_ok r = false -> parties_run v r.
Proof. by intros Hr e ->. Qed.

Lemma run_job_balanced v s r s' : run_job c env v s = (Some r, s') ->
  (exists new, job_balanced s s' new) /\ parties_run v r.
Proof.
  unfold run_job. erewrite kbind_ok by reflexivity.
  destruct (de_primary env) as [hp|e] eqn:Ep.
  2: { intros [= <- <-]. split; [|done]. exists [CallAcquire true].
       constructor; cbn [ds_pair ds_calls]; try done; [|cbn; lia].
       unfold handle_of. intros []; [congruence|done]. }
  erewrite kbind_ok by reflexivity. cbn [ds_pair ds_calls].
  destruct (de_recovery env) as [hr|e] eqn:Er.
  2: { match goal with |- context[(discardHandle env true hp ≫= _) ?s1] => destruct (discard_run true hp s1) as [o1 E1] end.
       rewrite (kbind_ok _ _ _ _ _ E1).
       match goal with |- fail_joined ?es ?s1 = _ -> _ => destruct (@fail_joined_run (option error) es s1) as [e' ->] end.
       intros [= <- <-]. split; [|by apply not_ok]. eexists. constructor; cbn [ds_pair ds_calls].
       - rewrite <- !app_assoc. reflexivity.
       - done.
       - apply (handles _ hp); [done|by intros ->|by rewrite Er].
       - destruct hp; cbn; lia.
       - by destruct hp. }
  set (reg := Build_PairRegistration _ _ _ _ _).
  destruct (RegisterPair reg (ds_pair s)) as [[lease|e] slot] eqn:Eg.
  2: { apply Register_Fail in Eg as Hs. subst slot. erewrite kbind_ok by (unfold register; cbn [ds_pair]; rewrite Eg; reflexivity).
       intros Hr. apply (discard_balanced s _ _ [Some e] _ _ _ Ep Er) in Hr as [? ?]; cbn [ds_pair ds_calls];
         [|by rewrite <- app_assoc|done]. split; [done|by apply not_ok]. }
  destruct (Release_Register _ _ _ _ Eg) as [Hfree Hrel].
  erewrite kbind_ok by (unfold register; cbn [ds_pair]; rewrite Eg; reflexivity). cbn [ds_calls].
  assert (Hbefore : forall e, releaseBeforeStart env lease hp hr e
      {| ds_pair := slot; ds_calls := (ds_calls s ++ [CallAcquire true]) ++ [CallAcquire false] |} = (Some r, s') ->
    (exists new, job_balanced s s' new) /\ parties_run v r).
  { intros e Hr. unfold releaseBeforeStart in Hr. erewrite kbind_ok in Hr by reflexivity. cbn [ds_calls ds_pair] in Hr.
    apply (discard_balanced s _ _ [Some e; None] _ _ _ Ep Er) in Hr as [? ?]; cbn [ds_pair ds_calls];
      [|by rewrite <- app_assoc|by rewrite Hrel, Hfree]. split; [done|by apply not_ok]. }
  destruct (de_ctx1 env) as [e|]; [apply Hbefore|]. destruct (de_ctx2 env) as [e|]; [apply Hbefore|]. clear Hbefore.
  unfold runParties, mbind, K_bind, call, lease_Release, mret, K_ret. cbn [ds_calls ds_pair].
  destruct (ps_result _) as [e0|] eqn:Ers; [|done]. intros [= <- <-]. split; [|intros e [= <-]; eauto].
  eexists. constructor; cbn [ds_pair ds_calls].
  - rewrite <- !app_assoc. reflexivity.
  - by rewrite Hrel, Hfree.
  - by intros [].
  - cbn. lia.
  - done.
Qed.

Lemma calls_count_app p l l' : count p (l ++ l') = (count p l + count p l')%nat.
Proof. unfold count. by rewrite List.filter_app, length_app. Qed.

Definition inspections (new : list dkg_call) : Prop := Forall (fun x => match x with CallInspect _ _ => True | _ => False end) new.
Lemma inspections_count p new : inspections new -> (forall w e, p (CallInspect w e) = false) -> count p new = 0%nat.
Proof. intros Hi Hp. induction Hi as [|x l Hx _ IH]; [done|]. destruct x; try done. unfold count in *. cbn. by rewrite Hp. Qed.

(** The evidence of a completed DKG: two artifacts of this session and key under the
    intent's descriptor, for the primary and the recovery party, of one public key and one
    chain code, the one the descriptor names. *)
Record dkg_evidence (v : validatedDKGContext) (d : DKGResult) : Prop := {
  de_session : ev_SessionID (dr_Primary d) = in_SessionID (vc_intent v) /\ ev_SessionID (dr_Recovery d) = in_SessionID (vc_intent v);
  de_key : ev_KeyID (dr_Primary d) = kd_KeyID (vc_descriptor v) /\ ev_KeyID (dr_Recovery d) = kd_KeyID (vc_descriptor v);
  de_descriptor : ev_DescriptorFingerprint (dr_Primary d) = vc_fingerprint v
    /\ ev_DescriptorFingerprint (dr_Recovery d) = vc_fingerprint v;
  de_public : ev_AccountPublicKey (dr_Primary d) = ev_AccountPublicKey (dr_Recovery d)
    /\ ev_CodecVersion (dr_Primary d) = ev_CodecVersion (dr_Recovery d);
  de_chain : ev_ChainCodeHash (dr_Primary d) = ev_ChainCodeHash (dr_Recovery d)
    /\ digest_String (ev_ChainCodeHash (dr_Primary d)) = kd_ChainCodeHash (vc_descriptor v);
  de_party : ev_PartyID (dr_Primary d) = dc_PrimaryPartyID c /\ ev_Purpose (dr_Primary d) = StorePurposePrimary
    /\ ev_PartyID (dr_Recovery d) = dc_RecoveryPartyID c /\ ev_Purpose (dr_Recovery d) = StorePurposeRecovery;
}.

Lemma inspect_spec v s r s' : inspect_pair c env v s = (Some r, s') ->
  (exists new, ds_calls s' = (ds_calls s ++ new)%list /\ ds_pair s' = ds_pair s /\ inspections new)
  /\ forall d, r = Ok d -> dkg_evidence v d /\ de_inspect env true = Ok (dr_Primary d) /\ de_inspect env false = Ok (dr_Recovery d).
Proof.
  unfold inspect_pair, mbind, K_bind, call, klift, kthrow, mret, K_ret. cbn [ds_calls ds_pair].
  destruct (de_inspect env true) as [primary|e]; [|intros [= <- <-]; split; [by eexists; split; [|split; [|repeat constructor]]|done]].
  cbn [ds_calls ds_pair].
  destruct (de_inspect env false) as [recovery|e].
  2: { intros [= <- <-]. split; [|done]. eexists. cbn. rewrite <- app_assoc. by split_and!; [| |repeat constructor]. }
  assert (Hcalls : forall st, ds_calls st = ((ds_calls s ++ [CallInspect true {| xc_SessionID := in_SessionID (vc_intent v);
      xc_KeyID := kd_KeyID (vc_descriptor v); xc_DescriptorBytes := vc_descriptorBytes v |}]) ++
      [CallInspect false {| xc_SessionID := in_SessionID (vc_intent v); xc_KeyID := kd_KeyID (vc_descriptor v);
         xc_DescriptorBytes := vc_descriptorBytes v |}])%list -> ds_pair st = ds_pair s ->
    exists new, ds_calls st = (ds_calls s ++ new)%list /\ ds_pair st = ds_pair s /\ inspections new).
  { intros st -> ->. eexists. rewrite <- app_assoc. by split_and!; [| |repeat constructor]. }
  destruct (compareEvidence c v primary recovery) as [u|e] eqn:Ec; intros [= <- <-]; (split; [by apply Hcalls|]); [|done].
  intros d [= <-]. split; [|done]. unfold compareEvidence in Ec. cbv zeta in Ec. step_if Ec. split_bools.
  constructor; cbn; done.
Qed.

Lemma deferred_run {A} cleanup (body : K A) s r s' : deferred cleanup body s = (Some r, s') ->
  exists s1, body s = (Some r, s1) /\ s' = (cleanup s1).2.
Proof. unfold deferred. destruct (body s) as [[r1|] s1]; [|done]. intros [= <- <-]. eauto. Qed.

(** What [Run] does before the job, and inside it: the parties' run, then the inspection. *)
Inductive ran (intent : Intent) (s : dkg_state) : res DKGResult -> dkg_state -> Prop :=
  | ran_refused e new : new = [] \/ (exists config, new = [CallRouterStart config; CallRouterClose]
        \/ new = [CallRouterStart config; CallBeginJob; CallRouterClose] /\ de_begin env <> None) ->
      ran intent s (Fail e) {| ds_pair := ds_pair s; ds_calls := (ds_calls s ++ new)%list |}
  | ran_failed v config e r0 s2 : validateRuntimeContext c (de_now env) intent = Ok v -> de_begin env = None -> r0 <> Ok None ->
      run_job c env v {| ds_pair := ds_pair s; ds_calls := (ds_calls s ++ [CallRouterStart config; CallBeginJob])%list |}
        = (Some r0, s2) ->
      ran intent s (Fail e) {| ds_pair := ds_pair s2; ds_calls := (ds_calls s2 ++ [CallFinishJob; CallRouterClose])%list |}
  | ran_inspected v config r s2 s3 : validateRuntimeContext c (de_now env) intent = Ok v -> de_begin env = None ->
      run_job c env v {| ds_pair := ds_pair s; ds_calls := (ds_calls s ++ [CallRouterStart config; CallBeginJob])%list |}
        = (Some (Ok None), s2) ->
      inspect_pair c env v {| ds_pair := ds_pair s2; ds_calls := (ds_calls s2 ++ [CallFinishJob])%list |} = (Some r, s3) ->
      ran intent s r {| ds_pair := ds_pair s3; ds_calls := (ds_calls s3 ++ [CallRouterClose])%list |}.

Lemma Run_ran intent s r s' : Run c env intent s = (Some r, s') -> ran intent s r s'.
Proof.
  assert (Hnone : forall e st, st = s -> ran intent s (Fail e) st).
  { intros e st ->. replace s with {| ds_pair := ds_pair s; ds_calls := (ds_calls s ++ [])%list |} at 2
      by (rewrite app_nil_r; by destruct s). apply ran_refused. by left. }
  unfold Run. destruct (negb (de_network env)); [intros [= <- <-]; by apply Hnone|].
  unfold mbind at 1, K_bind, klift at 1.
  destruct (validateRuntimeContext _ _ _) as [v|e] eqn:Ev; [|intros [= <- <-]; by apply Hnone].
  set (config := Router.Build_Config _ _ _ _ _ _).
  destruct (Router.New config) as [router|e]; [|intros [= <- <-]; by apply Hnone].
  erewrite kbind_ok by reflexivity. intros Hr. apply deferred_run in Hr as (s1 & Hr & ->).
  unfold mbind at 1, K_bind, klift in Hr.
  destruct (Transport router (dc_PrimaryPartyID c)) as [t1|e].
  2: { injection Hr as <- <-. cbn. rewrite <- app_assoc. apply ran_refused. right. exists config. by left. }
  unfold mbind at 1, K_bind in Hr. destruct (Transport router (dc_RecoveryPartyID c)) as [t2|e].
  2: { injection Hr as <- <-. cbn. rewrite <- app_assoc. apply ran_refused. right. exists config. by left. }
  erewrite kbind_ok in Hr by reflexivity. cbn [ds_pair ds_calls] in Hr. rewrite <- app_assoc in Hr. cbn [app] in Hr.
  destruct (de_begin env) as [e|] eqn:Eb.
  { injection Hr as <- <-. cbn. rewrite <- app_assoc. apply ran_refused. right. exists config. right. split; [done|congruence]. }
  unfold mbind at 1, K_bind in Hr. destruct (deferred _ _ _) as [[r0|] s2] eqn:Ed; [|done].
  apply deferred_run in Ed as (s2' & Ej & ->). cbn [call snd ds_pair ds_calls] in Hr.
  destruct r0 as [[e|]|e].
  - injection Hr as <- <-. cbn. rewrite <- app_assoc. eapply ran_failed; [exact Ev|done| |exact Ej]; by intros [=].
  - unfold call. cbn. eapply ran_inspected; [exact Ev|done|exact Ej|exact Hr].
  - injection Hr as <- <-. cbn. rewrite <- app_assoc. eapply ran_failed; [exact Ev|done| |exact Ej]; by intros [=].
Qed.

(** (C30) However a DKG ends, what it took is given back: the router that was started is
    closed, the paused refill of pre-parameters is resumed exactly once, each acquired handle
    is either given to the core or discarded, exactly once, and the active pair is again as
    it was. *)
Theorem DKG_gives_back intent s r s' : Run c env intent s = (Some r, s') ->
  pair_active (ds_pair s') = pair_active (ds_pair s)
  /\ exists new, ds_calls s' = (ds_calls s ++ new)%list
  /\ count is_start new = count is_close new /\ (count is_close new <= 1)%nat
  /\ (count is_begin new <= 1)%nat
  /\ count is_end new = (if is_some (de_begin env) then 0 else count is_begin new)%nat
  /\ forall who, handle_of who = Ok true -> count (is_acquire who) new = (count (is_discard who) new + count is_parties new)%nat.
Proof.
  intros Hr. destruct (Run_ran _ _ _ _ Hr) as [e new Hn|v config e r0 s2 Ev Hb Hr0 Hj|v config r' s2 s3 Ev Hb Hj Hi].
  - split; [done|]. exists new. split; [done|].
    destruct Hn as [->|(config & [->|[-> Hb]])]; (split_and!; cbn; [done|lia|lia| |done]);
      by destruct (de_begin env).
  - apply run_job_balanced in Hj as [(new & [Hc Hp Hh Hk (H1 & H2 & H3 & H4)]) _]. cbn [ds_pair ds_calls] in *.
    split; [done|]. exists (([CallRouterStart config; CallBeginJob] ++ new) ++ [CallFinishJob; CallRouterClose])%list.
    split; [by rewrite Hc, <- !app_assoc|]. rewrite Hb. rewrite !calls_count_app, H1, H2, H3, H4.
    split_and!; try (cbn; lia). intros who Hw. rewrite !calls_count_app, (Hh who Hw). cbn. lia.
  - apply run_job_balanced in Hj as [(new & [Hc Hp Hh Hk (H1 & H2 & H3 & H4)]) _].
    apply inspect_spec in Hi as [(ins & Hci & Hpi & Hins) _]. cbn [ds_pair ds_calls] in *.
    split; [by rewrite Hpi|].
    exists ((([CallRouterStart config; CallBeginJob] ++ new) ++ [CallFinishJob]) ++ ins ++ [CallRouterClose])%list.
    split; [by rewrite Hci, Hc, <- !app_assoc|]. rewrite Hb.
    pose proof (fun p => inspections_count p ins Hins) as Hz.
    rewrite !calls_count_app, H1, H2, H3, H4, !(Hz _) by done.
    split_and!; try (cbn; lia). intros who Hw. rewrite !calls_count_app, (Hh who Hw), !(Hz _) by done. cbn. lia.
Qed.

(** What a validated intent is: a canonical descriptor of the three fixed parties with
    threshold two, under the fingerprint and the chain code the intent names. *)
Lemma validateRuntimeContext_facts now intent v : validateRuntimeContext c now intent = Ok v ->
  exists descriptor fingerprint chainCode, ParseCanonicalDescriptor (ip_DescriptorBytes (in_Payload intent)) = Ok (descriptor, fingerprint)
  /\ vc_descriptor v = descriptor /\ vc_fingerprint v = fingerprint /\ vc_intent v = intent
  /\ kd_KeyID descriptor = ip_KeyID (in_Payload intent) /\ kd_Threshold descriptor = 2%Z
  /\ party_ids descriptor = [dc_PlatformPartyID c; dc_PrimaryPartyID c; dc_RecoveryPartyID c]
  /\ ip_DescriptorFingerprint (in_Payload intent) = digest_String fingerprint
  /\ hex_decode (ip_ChainCode (in_Payload intent)) = Some chainCode /\ zlen chainCode = 32%Z
  /\ digest_String (ChainCodeHashFor chainCode) = kd_ChainCodeHash descriptor /\ (now < in_ExpiresAt intent)%Z.
Proof.
  unfold validateRuntimeContext. cbv zeta. intros Hv. step_if Hv.
  destruct (ParseCanonicalDescriptor _) as [[descriptor fingerprint]|]; [|done].
  do 2 step_if Hv. destruct (hex_decode _) as [chainCode|]; [|done]. do 2 step_if Hv. injection Hv as <-.
  split_bools. exists descriptor, fingerprint, chainCode. cbn. split_and!; try done; congruence.
Qed.

(** (C29) A completed DKG: both parties ran the protocol without an error on the validated
    descriptor, the router finished without one, and the two artifacts on disk carry the
    evidence of one key under that descriptor. *)
Theorem DKG_completed_sound intent s d s' : Run c env intent s = (Some (Ok d), s') ->
  exists v, validateRuntimeContext c (de_now env) intent = Ok v /\ dkg_evidence v d
  /\ de_inspect env true = Ok (dr_Primary d) /\ de_inspect env false = Ok (dr_Recovery d)
  /\ kd_KeyID (vc_descriptor v) = ip_KeyID (in_Payload intent) /\ kd_Threshold (vc_descriptor v) = 2%Z
  /\ party_ids (vc_descriptor v) = [dc_PlatformPartyID c; dc_PrimaryPartyID c; dc_RecoveryPartyID c]
  /\ ip_DescriptorFingerprint (in_Payload intent) = digest_String (vc_fingerprint v)
  /\ de_finish env = None
  /\ let run := prun (party_text c v) (de_parties env) new_parties in
     pa_returned (ps_primary run) = Some None /\ pa_returned (ps_recovery run) = Some None /\ ps_routerErr run = None.
Proof.
  intros Hr. apply Run_ran in Hr. inversion Hr as [e new Hn|v config e r0 s2 Ev Hb Hr0 Hj|v config r' s2 s3 Ev Hb Hj Hi]; subst.
  exists v. split; [done|]. apply run_job_balanced in Hj as [_ Hrun]. destruct (Hrun None eq_refl) as (e0 & He0 & Hfin).
  destruct (de_finish env) eqn:Ef; [done|]. cbn in Hfin. subst e0.
  apply inspect_spec in Hi as [_ Hi]. destruct (Hi d eq_refl) as (Hev & Hi1 & Hi2).
  destruct (validateRuntimeContext_facts _ _ _ Ev) as (kd & fp & cc & _ & -> & -> & _ & Hk & Ht & Hps & Hfp & _). split_and!; try done; cbv zeta.
  all: destruct (parties_done _ _ _ He0) as (who & e1 & e2 & Hp1 & Hp2 & Hnone);
    destruct (ps_routerErr _) eqn:Ere; cbn [is_some] in Hnone; [done|]; symmetry in Hnone; apply preferred_nil in Hnone;
    destruct e1, e2; cbn in Hnone; try done; destruct who; done.
Qed.

End Coordinator.

(** * A concrete DKG: the recovery party ends first, and both artifacts agree *)

Definition fixture_chain : bytes := sha256 "chain".
Definition fixture_dkg_descriptor : bytes := jtext (
  "{'algorithm':'ECDSA','chainCodeHash':'" ++ digest_String (sha256 fixture_chain) ++ "',"
  ++ "'curve':'secp256k1','derivationScheme':'bip32_secp256k1',"
  ++ "'descriptorKind':'mpc-key-descriptor','descriptorVersion':1,"
  ++ "'keyId':'mpc_key_123e4567-e89b-42d3-a456-426614174000',"
  ++ "'parties':[{'partyId':'mpc-signer','purpose':'platform'},"
  ++ "{'partyId':'co-signer-primary','purpose':'primary'},"
  ++ "{'partyId':'co-signer-recovery','purpose':'recovery'}],"
  ++ "'protocolVersion':1,'publicKeyFormat':'compressed_sec1','threshold':2}").
Definition fixture_dkg_key := "mpc_key_123e4567-e89b-42d3-a456-426614174000".
Definition fixture_dkg_payload : IntentPayload :=
  Build_IntentPayload "DKG" "org-1" "" fixture_dkg_key "" 0 "" [] 2 "ECDSA" "secp256k1" "" "" "" "" ""
    (hex_encode fixture_chain) (digest_String (sha256 fixture_chain)) "bip32_secp256k1" fixture_dkg_descriptor
    (digest_String (sha256 fixture_dkg_descriptor)) "" "" None None.
Definition fixture_dkg_intent : Intent := {|
  in_Version := 1; in_Approval := None; in_Prepared := None; in_Session := zero_session; in_CreatedAt := 0;
  in_DeadlineRaw := ""; in_DiscoveryStatus := ""; in_IntentID := "i-1"; in_SessionID := "session-1"; in_Type := "dkg";
  in_ExpiresAt := 2000; in_Payload := fixture_dkg_payload |}.
Definition fixture_dkg_parties : DKGCoordinatorConfig := {|
  dc_PlatformPartyID := "mpc-signer"; dc_PrimaryPartyID := primaryPartyID; dc_RecoveryPartyID := recoveryPartyID |}.
Definition fixture_evidence (purpose id : string) : ArtifactEvidence := {|
  ev_SessionID := "session-1"; ev_KeyID := fixture_dkg_key; ev_PartyID := id; ev_Purpose := purpose;
  ev_DescriptorFingerprint := sha256 fixture_dkg_descriptor; ev_AccountPublicKey := "public";
  ev_ChainCodeHash := sha256 fixture_chain; ev_CodecVersion := 1; ev_ArtifactFingerprint := sha256 id |}.
Definition fixture_dkg_env : dkg_env := {|
  de_network := true; de_now := 1000; de_begin := None; de_primary := Ok true; de_recovery := Ok true;
  de_discard _ := None; de_ctx1 := None; de_ctx2 := None;
  de_parties := [PReturn false None; PSend false; PReceive; PReturn true None; PSend true; PReceive; PFinish None];
  de_finish := None;
  de_inspect who := Ok (if who then fixture_evidence StorePurposePrimary primaryPartyID
                        else fixture_evidence StorePurposeRecovery recoveryPartyID) |}.
Definition fixture_dkg_start : dkg_state := {| ds_pair := NewActivePair; ds_calls := [] |}.
Definition fixture_dkg_run := Run fixture_dkg_parties fixture_dkg_env fixture_dkg_intent fixture_dkg_start.

Definition completed (r : option (res DKGResult)) : bool := match r with Some (Ok _) => true | _ => false end.
Lemma completed_ex r : completed r = true -> exists d, r = Some (Ok d).
Proof. destruct r as [[d|]|]; eauto; done. Qed.

Lemma fixture_dkg_completes : exists d s', Run fixture_dkg_parties fixture_dkg_env fixture_dkg_intent fixture_dkg_start
  = (Some (Ok d), s').
Proof.
  assert (E : completed fixture_dkg_run.1 = true) by (vm_compute; reflexivity).
  apply completed_ex in E as [d E]. unfold fixture_dkg_run in E. exists d.
  destruct (Run _ _ _ _) as [r s']. exists s'. cbn in E. by rewrite E.
Qed.

Lemma DKG_completed_sound_witness : exists d s',
  Run fixture_dkg_parties fixture_dkg_env fixture_dkg_intent fixture_dkg_start = (Some (Ok d), s')
  /\ Ok (dr_Primary d) = de_inspect fixture_dkg_env true.
Proof.
  destruct fixture_dkg_completes as (d & s' & E). exists d, s'. split; [exact E|].
  destruct (DKG_completed_sound fixture_dkg_parties fixture_dkg_env fixture_dkg_intent fixture_dkg_start d s' E)
    as (v & _ & _ & H & _).
  symmetry. exact H.
Defined.

(** The acquisition of the second handle fails: the first one is discarded. *)
Definition exhausted_env : dkg_env := {|
  de_network := true; de_now := 1000; de_begin := None; de_primary := Ok true; de_recovery := Fail (ENew "exhausted");
  de_discard _ := None; de_ctx1 := None; de_ctx2 := None; de_parties := []; de_finish := None;
  de_inspect _ := Fail (ENew "absent") |}.
Lemma exhausted_run : exists e s', Run fixture_dkg_parties exhausted_env fixture_dkg_intent fixture_dkg_start = (Some (Fail e), s')
  /\ count (is_discard true) (ds_calls s') = 1%nat.
Proof.
  destruct (Run fixture_dkg_parties exhausted_env fixture_dkg_intent fixture_dkg_start) as [r s'] eqn:E.
  assert (H1 : (match r with Some (Fail _) => true | _ => false end) = true).
  { apply (f_equal fst) in E. cbn [fst] in E. rewrite <- E. vm_compute. reflexivity. }
  destruct r as [[|e]|]; try discriminate H1. exists e, s'. split; [done|].
  apply (f_equal snd) in E. cbn [snd] in E. rewrite <- E. vm_compute. reflexivity.
Qed.

Lemma DKG_gives_back_witness : exists e s', Run fixture_dkg_parties exhausted_env fixture_dkg_intent fixture_dkg_start = (Some (Fail e), s')
  /\ pair_active (ds_pair s') = None.
Proof.
  destruct exhausted_run as (e & s' & E & _). exists e, s'. split; [exact E|].
  exact (proj1 (DKG_gives_back fixture_dkg_parties exhausted_env fixture_dkg_intent fixture_dkg_start (Fail e) s' E)).
Defined.

(** The primary party fails, and its sibling reports the cancellation first. *)
Definition fixture_failed_run : list plabel :=
  [PReturn true (Some (ENew "protocol")); PReturn false (Some (ESent Canceled)); PSend false; PReceive; PSend true; PReceive; PFinish None].
Definition fixture_text (who : bool) : string := if who then "primary" else "recovery".
Lemma runParties_result_witness :
  ps_result (prun fixture_text fixture_failed_run new_parties) = Some (Some (EWrap "primary" (ENew "protocol")))
  /\ exists who e, Some (EWrap "primary" (ENew "protocol")) = Some (EWrap (fixture_text who) e) /\ is_canceled e = false.
Proof.
  assert (E : ps_result (prun fixture_text fixture_failed_run new_parties) = Some (Some (EWrap "primary" (ENew "protocol")))) by reflexivity.
  split; [exact E|].
  destruct (runParties_result fixture_text fixture_failed_run _ E) as (_ & _ & H).
  destruct (H eq_refl true (ENew "protocol") eq_refl eq_refl) as (who & e & H1 & H2 & _).
  exists who, e. exact (conj H1 H2).
Defined.

Lemma runParties_returns_witness : exists r, ps_result (prun fixture_text
    [PSend true; PSend false; PReceive; PReceive; PFinish None]
    (prun fixture_text [PReturn true None; PReturn false None] new_parties)) = Some r.
Proof.
  apply (runParties_returns fixture_text [PReturn true None; PReturn false None] None); discriminate.
Defined.
