(* ===== verification/Transport.v ===== *)
(** [internal/transport]: the transport that carries frames between the MPC core and the
    platform over the backend's message queue.  The poller, the core's calls, [Dispatch]
    and [Close] interleave; a step is one critical section, one channel operation or one
    return of a call.  Contexts, the clock and the backend answer in the labels. *)
From stdpp Require Import base tactics option list strings numbers sorting.
From Stdlib Require Import ZArith Lia Ascii String.
From S2P Require Import Prelude GoText GoTime Monolith Router.

#[local] Open Scope string_scope.

Definition transport_platform : string := "mpc-signer".
Record FrameContext := {
  fc_Session : SessionLifecycle; fc_IntentID : string; fc_OrgID : string; fc_SessionID : string;
  fc_Stage : string; fc_Protocol : string;
}.

#[export] Instance InboundMessage_eq_dec : EqDecision InboundMessage.
Proof. solve_decision. Defined.

Definition seq_le (a b : InboundMessage) : Prop := (im_DeliverySeq a <= im_DeliverySeq b)%Z.
#[export] Instance seq_le_dec a b : Decision (seq_le a b).
Proof. unfold seq_le. apply _. Defined.

(** * http_transport_frames.go *)

Section Frames.
(** [protocol.Frame.IsBroadcast] of the MPC core library. *)
Context (IsBroadcast : Frame -> bool) (fc : FrameContext).

Definition logicalRound (frame : Frame) : Z :=
  if negb (f_Round frame =? 0)%Z then f_Round frame else f_RoundHint frame.

Definition toOutboundFrame (frame : Frame) : res OutboundFrame :=
  let broadcast := IsBroadcast frame in
  if (f_FromParty frame =s "") || (broadcast && (f_ToParty frame <>s ""))
     || (negb broadcast && (f_ToParty frame <>s transport_platform))
  then Fail (ESent ErrInvalidFrameRoute)
  else Ok {|
    of_AuthenticatedPartyID := f_FromParty frame; of_Broadcast := broadcast; of_FromPartyID := f_FromParty frame;
    of_IntentID := fc_IntentID fc; of_MessageID := f_MessageID frame; of_OrgID := fc_OrgID fc;
    of_Payload := f_Payload frame; of_ProtocolSeq := f_Seq frame; of_Round := logicalRound frame;
    of_SessionID := fc_SessionID fc; of_ToPartyID := if broadcast then "broadcast" else f_ToParty frame;
    of_DerivationContextHash := f_DerivationContextHash frame |}.

Definition toFrame (msg : InboundMessage) : Frame := {|
  f_SessionID := fc_SessionID fc; f_MessageID := im_MessageID msg; f_Seq := im_ProtocolSeq msg;
  f_Round := im_Round msg; f_RoundHint := im_Round msg; f_Broadcast := im_Broadcast msg; f_Stage := fc_Stage fc;
  f_Protocol := fc_Protocol fc; f_FromParty := im_FromPartyID msg; f_ToParty := im_ToPartyID msg;
  f_MessageType := ""; f_Payload := im_Payload msg; f_PayloadHash := "";
  f_DerivationContextHash := im_DerivationContextHash msg |}.

(** [SendFrame]: the message posted to the session, and the result; [post] is the
    backend's answer. *)
Definition SendFrame (closed : bool) (frame : Frame) (post : option error) : option OutboundFrame * option error :=
  if closed then (None, Some (ESent ErrTransportClosed))
  else match toOutboundFrame frame with
  | Fail e => (None, Some e)
  | Ok outbound => (Some outbound, post)
  end.
End Frames.

(** * http_transport_poll.go *)

Definition validatePolledSession (kind sessionID : string) (previous current : SessionLifecycle) (now : time) : res unit :=
  _ ← Validate current kind sessionID (Deadline previous);
  if kind <>s "SIGN" then Ok ()
  else if (sl_Status current <>s "RUNNING") || negb (time_after (Deadline current) now)
          || match ExecutionExpiresAt current with Some t => negb (time_after t now) | None => true end
  then Fail err_lifecycle
  else match StartedAt previous with
  | Some started =>
      match ExecutionExpiresAt previous, StartedAt current, ExecutionExpiresAt current with
      | Some expires, Some started', Some expires' =>
          if negb (time_equal started' started) || negb (time_equal expires' expires) then Fail err_lifecycle else Ok ()
      | _, _, _ => Fail err_lifecycle
      end
  | None => Ok ()
  end.

(** Where the poller is: at the top of its loop, in [GetMessages], sending the messages of
    an answer ([polled] says whether it had any), in [sleep], or returned. *)
Inductive poll_position :=
  | PollTop
  | PollFetching
  | PollDelivering (rest : list InboundMessage) (polled : bool)
  | PollSleeping
  | PollExited.

Record poller := { pl_at : poll_position; pl_afterSeq : Z; pl_baseline : SessionLifecycle; pl_cancelled : bool }.

(** The calls that cross the transport: polls with their cursor, messages put on the
    inbound channel, and the start of the core's run. *)
Inductive tcall := CallGet (afterSeq : Z) | CallPush (msg : InboundMessage) | CallRun.

Record HTTPTransport := {
  ht_inbound : list Frame; ht_done : bool; ht_err : option error; ht_poller : option poller;
  ht_dispatched : bool; ht_running : bool; ht_runCancelled : bool; ht_calls : list tcall;
}.
Definition inbound_capacity : nat := 256.
Definition NewHTTPTransport : HTTPTransport := {|
  ht_inbound := []; ht_done := false; ht_err := None; ht_poller := None; ht_dispatched := false;
  ht_running := false; ht_runCancelled := false; ht_calls := [] |}.

Definition set_poller (p : option poller) (s : HTTPTransport) : HTTPTransport :=
  Build_HTTPTransport (ht_inbound s) (ht_done s) (ht_err s) p (ht_dispatched s) (ht_running s) (ht_runCancelled s) (ht_calls s).
Definition poller_at (at_ : poll_position) (p : poller) (s : HTTPTransport) : HTTPTransport :=
  set_poller (Some {| pl_at := at_; pl_afterSeq := pl_afterSeq p; pl_baseline := pl_baseline p; pl_cancelled := pl_cancelled p |}) s.
Definition add_call (c : tcall) (s : HTTPTransport) : HTTPTransport :=
  Build_HTTPTransport (ht_inbound s) (ht_done s) (ht_err s) (ht_poller s) (ht_dispatched s) (ht_running s)
    (ht_runCancelled s) (ht_calls s ++ [c]).

Definition cancel_poller (p : poller) : poller :=
  {| pl_at := pl_at p; pl_afterSeq := pl_afterSeq p; pl_baseline := pl_baseline p; pl_cancelled := true |}.

(** [stop]: declared once, it cancels the poller and the run. *)
Definition stop (err : option error) (s : HTTPTransport) : HTTPTransport :=
  if ht_done s then s
  else {| ht_inbound := ht_inbound s; ht_done := true; ht_err := err; ht_poller := cancel_poller <$> ht_poller s;
          ht_dispatched := ht_dispatched s; ht_running := ht_running s;
          ht_runCancelled := ht_runCancelled s || ht_dispatched s; ht_calls := ht_calls s |}.

(** [Start]. *)
Definition Start (baseline : SessionLifecycle) (s : HTTPTransport) : HTTPTransport :=
  if ht_done s then s
  else match ht_poller s with
  | Some _ => s
  | None => set_poller (Some {| pl_at := PollTop; pl_afterSeq := 0; pl_baseline := baseline; pl_cancelled := false |}) s
  end.

(** [Dispatch] up to the call of [run], with the context's error. *)
Definition Dispatch (ctxErr : option error) (s : HTTPTransport) : res unit * HTTPTransport :=
  if ht_done s then
    (Fail (match ht_err s with Some e => e | None => ESent ErrTransportClosed end), s)
  else match ctxErr with
  | Some e => (Fail e, s)
  | None =>
      if ht_dispatched s then (Fail (ESent ErrAlreadyDispatched), s)
      else (Ok (), {| ht_inbound := ht_inbound s; ht_done := ht_done s; ht_err := ht_err s; ht_poller := ht_poller s;
                      ht_dispatched := true; ht_running := true; ht_runCancelled := ht_runCancelled s;
                      ht_calls := ht_calls s ++ [CallRun] |})
  end.

Definition poll_isDone (p : poller) (s : HTTPTransport) : bool := ht_done s || pl_cancelled p.

Inductive tlabel :=
  | TStart
  | TStop (err : option error)
  | TDispatch (ctxErr : option error)
  | TRunCancel
  | TRunEnd
  | TRecv
  | TCancel
  | TTop
  | TAnswer (answer : res MessagesResult) (order : list InboundMessage) (now : time)
  | TDeliver
  | TDeliverStop
  | TDelivered
  | TWake
  | TSleepStop.

Section Steps.
Context (fc : FrameContext) (pollInterval : duration).
Definition kind : string := to_upper (fc_Stage fc).

(** The return of [GetMessages].  [order] is the order [sort.Slice] puts the messages in. *)
Definition answered (answer : res MessagesResult) (order : list InboundMessage) (now : time) (p : poller)
    (s : HTTPTransport) : option HTTPTransport :=
  if poll_isDone p s then Some (poller_at PollExited p s)
  else match answer with
  | Fail e =>
      if errors_is e ErrInvalidLifecycle
      then let s := stop (Some e) s in Some (poller_at PollExited (cancel_poller p) s)
      else Some (poller_at PollSleeping p s)
  | Ok r =>
      match validatePolledSession kind (fc_SessionID fc) (pl_baseline p) (mr_Session r) now with
      | Fail e => let s := stop (Some e) s in Some (poller_at PollExited (cancel_poller p) s)
      | Ok _ =>
          if bool_decide (order ≡ₚ mr_Messages r) && bool_decide (Sorted seq_le order) then
            Some (set_poller (Some {| pl_at := PollDelivering order (negb (bool_decide (mr_Messages r = [])));
                                      pl_afterSeq := pl_afterSeq p; pl_baseline := mr_Session r;
                                      pl_cancelled := pl_cancelled p |}) s)
          else None
      end
  end.

(** A step of the poller. *)
Definition poll_step (l : tlabel) (p : poller) (s : HTTPTransport) : option HTTPTransport :=
  match l, pl_at p with
  | TTop, PollTop =>
      Some (if poll_isDone p s then poller_at PollExited p s
            else add_call (CallGet (pl_afterSeq p)) (poller_at PollFetching p s))
  | TAnswer answer order now, PollFetching => answered answer order now p s
  | TDeliver, PollDelivering (msg :: rest) polled =>
      if (List.length (ht_inbound s) <? inbound_capacity)%nat then
        Some (add_call (CallPush msg)
          {| ht_inbound := ht_inbound s ++ [toFrame fc msg]; ht_done := ht_done s; ht_err := ht_err s;
             ht_poller := Some {| pl_at := PollDelivering rest polled;
                                  pl_afterSeq := Z.max (pl_afterSeq p) (im_DeliverySeq msg);
                                  pl_baseline := pl_baseline p; pl_cancelled := pl_cancelled p |};
             ht_dispatched := ht_dispatched s; ht_running := ht_running s; ht_runCancelled := ht_runCancelled s;
             ht_calls := ht_calls s |})
      else None
  | TDeliverStop, PollDelivering (_ :: _) _ => if poll_isDone p s then Some (poller_at PollExited p s) else None
  | TDelivered, PollDelivering [] polled => Some (poller_at (if polled then PollTop else PollSleeping) p s)
  | TWake, PollSleeping =>
      Some (poller_at (if (pollInterval <=? 0)%Z && poll_isDone p s then PollExited else PollTop) p s)
  | TSleepStop, PollSleeping => if poll_isDone p s then Some (poller_at PollExited p s) else None
  | _, _ => None
  end.

Definition tstep (l : tlabel) (s : HTTPTransport) : option HTTPTransport :=
  match l with
  | TStart => Some (Start (fc_Session fc) s)
  | TStop err => Some (stop err s)
  | TDispatch ctxErr => Some (Dispatch ctxErr s).2
  | TRunCancel =>
      if ht_running s then
        Some {| ht_inbound := ht_inbound s; ht_done := ht_done s; ht_err := ht_err s; ht_poller := ht_poller s;
                ht_dispatched := ht_dispatched s; ht_running := true; ht_runCancelled := true; ht_calls := ht_calls s |}
      else None
  | TRunEnd =>
      if ht_running s then
        Some {| ht_inbound := ht_inbound s; ht_done := ht_done s; ht_err := ht_err s; ht_poller := ht_poller s;
                ht_dispatched := ht_dispatched s; ht_running := false; ht_runCancelled := true; ht_calls := ht_calls s |}
      else None
  | TRecv =>
      match ht_inbound s with
      | _ :: inbound =>
          Some {| ht_inbound := inbound; ht_done := ht_done s; ht_err := ht_err s; ht_poller := ht_poller s;
                  ht_dispatched := ht_dispatched s; ht_running := ht_running s;
                  ht_runCancelled := ht_runCancelled s; ht_calls := ht_calls s |}
      | [] => None
      end
  | TCancel => (fun p => set_poller (Some (cancel_poller p)) s) <$> ht_poller s
  | _ => p ← ht_poller s; poll_step l p s
  end.

(** [RecvFrame]: what it returns when a frame, the end of the transport or the end of the
    context is chosen by its select. *)
Inductive received := GotFrame (frame : Frame) | GotError (e : error).
Definition RecvFrame (ctxErr : option error) (s : HTTPTransport) (r : received) : Prop :=
  match r with
  | GotFrame frame => head (ht_inbound s) = Some frame
  | GotError e => ctxErr = Some e \/ ht_done s = true /\ ctxErr = None /\ e = ESent ErrTransportClosed
  end.

(** [Close] returns once the poller it found has exited. *)
Definition joined (s : HTTPTransport) : bool :=
  ht_done s && match ht_poller s with
               | None => true
               | Some p => match pl_at p with PollExited => true | _ => false end
               end.

(** The states an execution can reach whose steps satisfy [ok] where they are made. *)
Inductive treach (ok : HTTPTransport -> tlabel -> Prop) : list tlabel -> HTTPTransport -> Prop :=
  | treach_new : treach ok [] NewHTTPTransport
  | treach_step ls l s s' : treach ok ls s -> ok s l -> tstep l s = Some s' -> treach ok (ls ++ [l]) s'.
End Steps.
