(* ===== verification/TransportProofs.v ===== *)
(** Proofs about the transport: the core runs at most once and never past a stop, the
    cursor of the polls is what was delivered, nothing is delivered twice by a backend that
    honours the cursor, a session that changes under the transport stops it, and [Close]
    waits for a poller that can always end and then does nothing more. *)
From stdpp Require Import base tactics option list strings numbers sorting.
From Stdlib Require Import ZArith Lia Ascii String.
From S2P Require Import Prelude GoText Sha256 Json StrictJson Externals GoTime RawJson Monolith MonolithProofs Router Transport.

#[local] Open Scope string_scope.

(** * The calls made so far *)

Definition pushed (calls : list tcall) : list Z :=
  omap (fun c => match c with CallPush msg => Some (im_DeliverySeq msg) | _ => None end) calls.
Definition runs_of (calls : list tcall) : nat :=
  List.length (List.filter (fun c => match c with CallRun => true | _ => false end) calls).
(** The cursor after some deliveries. *)
Definition cursor (seqs : list Z) : Z := fold_left Z.max seqs 0%Z.

Lemma pushed_app l l' : pushed (l ++ l') = (pushed l ++ pushed l')%list.
Proof. apply omap_app. Qed.
Lemma runs_app l l' : runs_of (l ++ l') = (runs_of l + runs_of l')%nat.
Proof. unfold runs_of. by rewrite List.filter_app, length_app. Qed.
Lemma cursor_snoc l x : cursor (l ++ [x]) = Z.max (cursor l) x.
Proof. unfold cursor. by rewrite fold_left_app. Qed.

(** Reads the fields of an updated state. *)
Ltac tcbn := cbn [ht_inbound ht_done ht_err ht_poller ht_dispatched ht_running ht_runCancelled ht_calls set_poller
  poller_at add_call cancel_poller pl_at pl_afterSeq pl_baseline pl_cancelled fmap option_fmap option_map fst snd].

Section Transport.
Context (fc : FrameContext) (pollInterval : duration).

Record tinv (s : HTTPTransport) : Prop := {
  ti_run : ht_running s = true -> ht_dispatched s = true;
  ti_cancel : ht_running s = true -> ht_done s = true -> ht_runCancelled s = true;
  ti_once : runs_of (ht_calls s) = if ht_dispatched s then 1%nat else 0%nat;
  ti_capacity : (List.length (ht_inbound s) <= inbound_capacity)%nat;
  ti_stopped p : ht_done s = true -> ht_poller s = Some p -> pl_cancelled p = true;
  ti_cursor : cursor (pushed (ht_calls s)) = match ht_poller s with Some p => pl_afterSeq p | None => 0%Z end;
  ti_none : ht_poller s = None -> pushed (ht_calls s) = [];
  ti_gets pre n post : ht_calls s = (pre ++ CallGet n :: post)%list -> n = cursor (pushed pre);
}.

Lemma tinv_new : tinv NewHTTPTransport.
Proof. constructor; cbn; try done; [unfold inbound_capacity; lia|]. by intros [] ? ?. Qed.

(** A step that keeps the calls, the dispatch and the poller's cursor. *)
Lemma tinv_poller s p p' : tinv s -> ht_poller s = Some p -> pl_afterSeq p' = pl_afterSeq p ->
  (pl_cancelled p = true -> pl_cancelled p' = true) -> tinv (set_poller (Some p') s).
Proof.
  intros [H1 H2 H3 H4 H5 H6 H7 H8] Hp Ha Hc. constructor; tcbn; try done.
  - intros q Hd [= <-]. apply Hc. by apply (H5 p).
  - rewrite H6, Hp. done.
Qed.

Lemma tinv_stop err s : tinv s -> tinv (stop err s).
Proof.
  intros Hi. unfold stop. destruct (ht_done s) eqn:Ed; [done|]. destruct Hi as [H1 H2 H3 H4 H5 H6 H7 H8].
  constructor; tcbn; try done.
  - intros Hr _. rewrite (H1 Hr). apply orb_true_r.
  - intros p _ Hp. destruct (ht_poller s); [|done]. by injection Hp as <-.
  - rewrite H6. by destruct (ht_poller s).
  - destruct (ht_poller s); [done|]. intros _. by apply H7.
Qed.

Lemma tinv_poll l p s s' : tinv s -> ht_poller s = Some p -> poll_step fc pollInterval l p s = Some s' -> tinv s'.
Proof.
  intros Hi Hp. unfold poll_step.
  assert (Hat : forall at_, tinv (poller_at at_ p s)) by (intros at_; by eapply tinv_poller).
  assert (Hstopped : forall e at_, tinv (poller_at at_ (cancel_poller p) (stop (Some e) s))).
  { intros e at_. destruct (ht_poller (stop (Some e) s)) as [q|] eqn:Eq.
    - eapply tinv_poller; [by apply tinv_stop|exact Eq| |done]. unfold stop in Eq. destruct (ht_done s); cbn in *; [congruence|].
      rewrite Hp in Eq. by injection Eq as <-.
    - unfold stop in Eq. destruct (ht_done s); cbn in Eq; rewrite Hp in Eq; done. }
  destruct l, (pl_at p) as [| |[|msg rest] polled| |] eqn:Ea; try done.
  - intros [= <-]. destruct (poll_isDone p s); [done|]. destruct (Hat PollFetching) as [H1 H2 H3 H4 H5 H6 H7 H8].
    constructor; tcbn; cbn [ht_inbound ht_done ht_poller ht_dispatched ht_running ht_runCancelled ht_calls set_poller poller_at pl_afterSeq pl_cancelled] in *; try done.
    + rewrite runs_app. cbn. lia.
    + rewrite pushed_app. cbn. by rewrite app_nil_r.
    + intros pre n post Hc. destruct post as [|x post _] using rev_ind.
      * apply app_inj_tail in Hc as [<- [= <-]]. by rewrite H6.
      * rewrite app_comm_cons, app_assoc in Hc. apply app_inj_tail in Hc as [Hc _]. by apply (H8 pre n post).
  - unfold answered. destruct (poll_isDone p s); [by intros [= <-]|]. destruct answer as [r|e].
    + destruct (validatePolledSession _ _ _ _ _); [|by intros [= <-]]. destruct (_ && _); [|done]. intros [= <-].
      by eapply tinv_poller.
    + destruct (errors_is e _); by intros [= <-].
  - destruct (_ <? _)%nat eqn:El; [|done]. apply Nat.ltb_lt in El. intros [= <-].
    destruct Hi as [H1 H2 H3 H4 H5 H6 H7 H8]. constructor; tcbn; try done.
    + rewrite runs_app. cbn. lia.
    + rewrite length_app. cbn. lia.
    + intros q Hd [= <-]. cbn. by apply (H5 p).
    + rewrite pushed_app. cbn [pushed omap list_omap]. rewrite cursor_snoc, H6, Hp. done.
    + intros pre n post Hc. destruct post as [|x post _] using rev_ind; [by apply app_inj_tail in Hc as [_ ?]|].
      rewrite app_comm_cons, app_assoc in Hc. apply app_inj_tail in Hc as [Hc _]. by apply (H8 pre n post).
  - destruct (poll_isDone p s); [by intros [= <-]|done].
  - by intros [= <-].
  - by intros [= <-].
  - destruct (poll_isDone p s); [by intros [= <-]|done].
Qed.

Lemma tinv_step l s s' : tinv s -> tstep fc pollInterval l s = Some s' -> tinv s'.
Proof.
  intros Hi. assert (Hpoll : (p ← ht_poller s; poll_step fc pollInterval l p s) = Some s' -> tinv s').
  { destruct (ht_poller s) as [p|] eqn:Hp; [|done]. by apply tinv_poll. }
  destruct l; cbn [tstep]; try exact Hpoll; clear Hpoll.
  - intros [= <-]. unfold Start. destruct (ht_done s) eqn:Ed; [done|]. destruct (ht_poller s) eqn:Ep; [done|].
    destruct Hi as [H1 H2 H3 H4 H5 H6 H7 H8]. constructor; tcbn; try done; [intros ? ?; congruence|]. by rewrite H7.
  - intros [= <-]. by apply tinv_stop.
  - intros [= <-]. unfold Dispatch. destruct (ht_done s) eqn:Ed; [done|]. destruct ctxErr; [done|].
    destruct (ht_dispatched s) eqn:Edis; [done|]. destruct Hi as [H1 H2 H3 H4 H5 H6 H7 H8].
    constructor; tcbn; try done; try (intros; congruence).
    + rewrite runs_app, H3, ?Edis. done.
    + rewrite pushed_app. cbn [pushed omap list_omap]. by rewrite app_nil_r.
    + intros Hn. rewrite pushed_app, H7 by done. done.
    + intros pre n post Hc. destruct post as [|x post _] using rev_ind; [by apply app_inj_tail in Hc as [_ ?]|].
      rewrite app_comm_cons, app_assoc in Hc. apply app_inj_tail in Hc as [Hc _]. by apply (H8 pre n post).
  - destruct (ht_running s) eqn:Er; [|done]. intros [= <-]. destruct Hi as [H1 H2 H3 H4 H5 H6 H7 H8].
    constructor; tcbn; try done. intros _. by apply H1.
  - destruct (ht_running s) eqn:Er; [|done]. intros [= <-]. destruct Hi as [H1 H2 H3 H4 H5 H6 H7 H8].
    constructor; tcbn; try done.
  - destruct (ht_inbound s) as [|frame inbound] eqn:Ein; [done|]. intros [= <-].
    destruct Hi as [H1 H2 H3 H4 H5 H6 H7 H8]. constructor; tcbn; try done. rewrite Ein in H4. cbn in H4. lia.
  - destruct (ht_poller s) as [p|] eqn:Ep; [|done]. intros [= <-]. by eapply tinv_poller.
Qed.

Lemma tinv_reach ok ls s : treach fc pollInterval ok ls s -> tinv s.
Proof. induction 1; [apply tinv_new|by eapply tinv_step]. Qed.

(** In every interleaving of the poller, the core, [Dispatch] and [Close]: the core's
    run starts at most once, a run still going after the transport stopped has had its
    context cancelled, the inbound queue stays within its 256 frames, and every poll asks
    with exactly the highest sequence delivered before it. *)
Theorem transport_invariants ok ls s : treach fc pollInterval ok ls s ->
  (runs_of (ht_calls s) <= 1)%nat
  /\ (ht_running s = true -> ht_done s = true -> ht_runCancelled s = true)
  /\ (List.length (ht_inbound s) <= inbound_capacity)%nat
  /\ forall pre n post, ht_calls s = (pre ++ CallGet n :: post)%list -> n = cursor (pushed pre).
Proof.
  intros Hr. apply tinv_reach in Hr. split_and!.
  - rewrite (ti_once _ Hr). by destruct (ht_dispatched s); lia.
  - apply (ti_cancel _ Hr).
  - apply (ti_capacity _ Hr).
  - apply (ti_gets _ Hr).
Qed.

(** * The order of deliveries *)

(** What the backend promises: an answer holds each message once, and only messages after
    the cursor it was asked with. *)
Definition honest (s : HTTPTransport) (l : tlabel) : Prop :=
  match l, ht_poller s with
  | TAnswer (Ok r) _ _, Some p => NoDup (map im_DeliverySeq (mr_Messages r))
      /\ Forall (fun m => (pl_afterSeq p < im_DeliverySeq m)%Z) (mr_Messages r)
  | _, _ => True
  end.

Definition ascending : list Z -> Prop := StronglySorted Z.lt.
Definition pending_of (s : HTTPTransport) : list Z :=
  match ht_poller s with
  | Some p => match pl_at p with PollDelivering rest _ => map im_DeliverySeq rest | _ => [] end
  | None => []
  end.

Lemma ascending_app l l' : ascending (l ++ l') <-> ascending l /\ ascending l' /\ forall x y, x ∈ l -> y ∈ l' -> (x < y)%Z.
Proof.
  induction l as [|a l IH]; cbn; [split; [intros; split_and!; [constructor|done|by intros ? ? ?%not_elem_of_nil]|by intros (_ & ? & _)]|].
  split.
  - intros Hs. inversion Hs as [|? ? Hl Ha]; subst. apply IH in Hl as (Hl & Hl' & Hx). apply Forall_app in Ha as [Ha Ha'].
    rewrite Forall_forall in Ha'. split_and!; [by constructor|done|]. intros x y [->|Hin]%elem_of_cons Hy; auto.
  - intros (Hs & Hl' & Hx). inversion Hs as [|? ? Hl Ha]; subst. constructor.
    + apply IH. split_and!; [done|done|]. intros x y Hin. apply Hx. by right.
    + apply Forall_app. split; [done|]. apply Forall_forall. intros y Hy. apply Hx; [by left|done].
Qed.

Lemma cursor_bound l x : x ∈ l -> (x <= cursor l)%Z.
Proof.
  induction l as [|y l IH] using rev_ind; [by intros ?%not_elem_of_nil|].
  rewrite cursor_snoc, elem_of_app, list_elem_of_singleton. intros [Hin| ->]; [specialize (IH Hin)|]; lia.
Qed.

(** Distinct sequence numbers in the order of the sort ascend strictly. *)
Lemma sorted_ascending order : Sorted seq_le order -> NoDup (map im_DeliverySeq order) -> ascending (map im_DeliverySeq order).
Proof.
  intros Hs. apply Sorted_StronglySorted in Hs; [|unfold seq_le; intros ? ? ?; lia].
  induction Hs as [|m order Hs IH Hall]; cbn; [constructor|]. intros [Hn Hd]%NoDup_cons. constructor; [by apply IH|].
  apply Forall_forall. intros x Hx. rewrite Forall_forall in Hall. apply list_elem_of_fmap in Hx as (m' & -> & Hin).
  specialize (Hall m' Hin). unfold seq_le in Hall.
  enough (im_DeliverySeq m <> im_DeliverySeq m') by lia. intros E. apply Hn. rewrite E. by apply list_elem_of_fmap_2.
Qed.

(** What was delivered and what is being delivered, in order, ascends strictly. *)
Definition in_order (s : HTTPTransport) : Prop := ascending (pushed (ht_calls s) ++ pending_of s).

Lemma in_order_poll l p s s' : tinv s -> in_order s -> honest s l -> ht_poller s = Some p ->
  poll_step fc pollInterval l p s = Some s' -> in_order s'.
Proof.
  intros Hi Ho Hh Hp. unfold in_order, pending_of in Ho. rewrite Hp in Ho. unfold poll_step.
  assert (Hnil : ascending (pushed (ht_calls s))) by (apply ascending_app in Ho; tauto).
  assert (Hstop : forall e, ht_calls (stop e s) = ht_calls s) by (intros e; unfold stop; by destruct (ht_done s)).
  assert (Hidle : forall s' at_ q, ht_calls s' = ht_calls s -> match at_ with PollDelivering _ _ => False | _ => True end ->
    in_order (poller_at at_ q s')).
  { intros s1 at_ q Hc Hat. unfold in_order, pending_of. tcbn. rewrite Hc. destruct at_; try done; by rewrite app_nil_r. }
  unfold honest in Hh. destruct l, (pl_at p) as [| |[|msg rest] polled| |] eqn:Ea; try done.
  - intros [= <-]. destruct (poll_isDone p s); [by apply Hidle|]. unfold in_order, pending_of. tcbn.
    rewrite pushed_app, app_nil_r. cbn. by rewrite app_nil_r.
  - unfold answered. destruct (poll_isDone p s); [intros [= <-]; by apply Hidle|]. destruct answer as [r|e].
    + destruct (validatePolledSession _ _ _ _ _); [|intros [= <-]; by apply Hidle].
      destruct (_ && _) eqn:Eo; [|done]. apply andb_true_iff in Eo as [Hperm%bool_decide_eq_true Hsorted%bool_decide_eq_true].
      intros [= <-]. unfold in_order, pending_of. tcbn. rewrite Hp in Hh. destruct Hh as [Hd Hb].
      apply ascending_app. split_and!; [done|apply sorted_ascending; [done|by rewrite Hperm]|].
      intros x y Hx Hy. apply cursor_bound in Hx. rewrite (ti_cursor _ Hi), Hp in Hx.
      apply list_elem_of_fmap in Hy as (m & -> & Hm). rewrite Hperm in Hm. rewrite Forall_forall in Hb. specialize (Hb m Hm). lia.
    + destruct (errors_is e _); intros [= <-]; by apply Hidle.
  - destruct (_ <? _)%nat eqn:El; [|done]. intros [= <-]. unfold in_order, pending_of. tcbn.
    rewrite pushed_app. cbn [pushed omap list_omap]. by rewrite <- app_assoc.
  - destruct (poll_isDone p s); [intros [= <-]; by apply Hidle|done].
  - intros [= <-]. apply Hidle; [done|by destruct polled].
  - intros [= <-]. apply Hidle; [done|by destruct (_ && _)].
  - destruct (poll_isDone p s); [intros [= <-]; by apply Hidle|done].
Qed.

(** The other steps change neither the deliveries nor where the poller is. *)
Definition same_poll (s s' : HTTPTransport) : Prop :=
  pushed (ht_calls s') = pushed (ht_calls s) /\ pending_of s' = pending_of s.

Lemma other_step l s s' : tstep fc pollInterval l s = Some s' ->
  (p ← ht_poller s; poll_step fc pollInterval l p s) = Some s' \/ same_poll s s'.
Proof.
  destruct l; cbn [tstep]; try (by left); intros Hs; right.
  - injection Hs as <-. unfold Start, same_poll, pending_of. destruct (ht_done s); [done|]. by destruct (ht_poller s) eqn:E; tcbn; rewrite ?E.
  - injection Hs as <-. unfold stop, same_poll, pending_of. destruct (ht_done s); [done|]. tcbn. by destruct (ht_poller s).
  - injection Hs as <-. unfold Dispatch, same_poll. destruct (ht_done s); [done|]. destruct ctxErr; [done|].
    destruct (ht_dispatched s); [done|]. tcbn. rewrite pushed_app. by rewrite app_nil_r.
  - destruct (ht_running s); [|done]. by injection Hs as <-.
  - destruct (ht_running s); [|done]. by injection Hs as <-.
  - destruct (ht_inbound s); [done|]. by injection Hs as <-.
  - unfold same_poll, pending_of. destruct (ht_poller s); [|done]. by injection Hs as <-.
Qed.

(** (C31) With a backend that honours the cursor it is given, nothing is delivered twice and
    nothing out of order: the messages put on the inbound channel ascend strictly in their
    delivery sequence, over all polls, outages and stops. *)
Theorem transport_delivers_in_order ls s : treach fc pollInterval honest ls s -> ascending (pushed (ht_calls s)).
Proof.
  intros Hr. enough (Ho : in_order s) by (by apply ascending_app in Ho as (? & _)).
  induction Hr as [|ls l s s' Hr IH Hok Hs]; [constructor|]. pose proof (tinv_reach _ _ _ Hr) as Hi.
  destruct (other_step _ _ _ Hs) as [Hp|[Ec Ep]]; [|unfold in_order; by rewrite Ec, Ep].
  destruct (ht_poller s) as [p|] eqn:Hp'; [|done]. by eapply in_order_poll.
Qed.

(** * The session under the transport *)

(** Messages pass only under a session that is the previous one, observed later: of the same
    deadline and, for a signature, running, unexpired at the time of the poll and, once
    started, of the same start and expiry. *)
Record follows (previous current : SessionLifecycle) (now : time) : Prop := {
  fo_session : fc_SessionID fc <> "" -> sl_SessionID current = fc_SessionID fc;
  fo_deadline : Deadline previous <> zero_time -> Deadline current = Deadline previous;
  fo_running : kind fc = "SIGN" -> sl_Status current = "RUNNING" /\ (now < Deadline current)%Z
    /\ exists started expires, StartedAt current = Some started /\ ExecutionExpiresAt current = Some expires
       /\ (now < expires)%Z /\ expires = Z.min (started + 300 * second) (Deadline current)
       /\ forall started', StartedAt previous = Some started' -> started = started' /\ ExecutionExpiresAt previous = Some expires;
}.

Lemma validatePolledSession_facts previous current now :
  validatePolledSession (kind fc) (fc_SessionID fc) previous current now = Ok () -> follows previous current now.
Proof.
  unfold validatePolledSession. intros Hv. destruct (Validate _ _ _ _) as [[]|] eqn:Ev; [|done]. cbn in Hv.
  apply Validate_ok in Ev as (_ & Hid & Hd0 & Hd & _ & _ & Hrun & _ & _ & _ & Hexp).
  split; [intros ?; by destruct Hid|intros ?; by destruct Hd|]. intros Hk. rewrite Hk in Hv. cbn [negb String.eqb] in Hv.
  change (if ("SIGN" <>s "SIGN") then Ok () else ?x) with x in Hv.
  destruct (_ || _) eqn:Eg; [done|]. apply orb_false_iff in Eg as [[Es Ed]%orb_false_iff Ex].
  destruct (ExecutionExpiresAt current) as [expires|] eqn:Ee; [|done]. unfold time_after in *.
  apply negb_false_iff in Es, Ed, Ex. apply String.eqb_eq in Es. apply Z.ltb_lt in Ed, Ex.
  destruct (Hexp expires eq_refl) as (started & Hst & Hmin). split_and!; [done|done|]. exists started, expires.
  split_and!; try done. intros started' Hp. rewrite Hp, Hst in Hv. destruct (ExecutionExpiresAt previous) as [old|]; [|done].
  destruct (_ || _) eqn:Eq; [done|]. apply orb_false_iff in Eq as [E1%negb_false_iff E2%negb_false_iff].
  unfold time_equal in *. apply Z.eqb_eq in E1, E2. by subst.
Qed.

(** Where the poller's baseline comes from. *)
Record sinv (s : HTTPTransport) : Prop := {
  si_started p t e : ht_poller s = Some p -> kind fc = "SIGN" -> StartedAt (fc_Session fc) = Some t ->
    ExecutionExpiresAt (fc_Session fc) = Some e ->
    StartedAt (pl_baseline p) = Some t /\ ExecutionExpiresAt (pl_baseline p) = Some e;
  si_running p rest polled : ht_poller s = Some p -> pl_at p = PollDelivering rest polled -> kind fc = "SIGN" ->
    sl_Status (pl_baseline p) = "RUNNING" /\ is_Some (StartedAt (pl_baseline p));
}.

(** A step that keeps the baseline, and delivers only if it was delivering. *)
Lemma sinv_poller s at_ p q s0 : sinv s -> ht_poller s = Some p -> pl_baseline q = pl_baseline p ->
  (forall rest polled, at_ = PollDelivering rest polled -> exists rest0 polled0, pl_at p = PollDelivering rest0 polled0) ->
  sinv (poller_at at_ q s0).
Proof.
  intros [H1 H2] Hp Hb Hat. constructor; tcbn; intros p' * [= <-]; cbn; rewrite Hb.
  - intros Hk. by apply H1.
  - intros ->. destruct (Hat _ _ eq_refl) as (r0 & p0 & E). by eapply H2.
Qed.
Lemma sinv_same s s' : sinv s -> (forall p', ht_poller s' = Some p' -> exists p, ht_poller s = Some p
  /\ pl_baseline p' = pl_baseline p /\ pl_at p' = pl_at p) -> sinv s'.
Proof.
  intros [H1 H2] Hs. constructor; intros p' * Hp'; destruct (Hs p' Hp') as (p & Hp & -> & Hat).
  - intros Hk. by apply H1.
  - rewrite Hat. by eapply H2.
Qed.
Lemma stop_poller err s p' : ht_poller (stop err s) = Some p' -> exists p, ht_poller s = Some p
  /\ pl_baseline p' = pl_baseline p /\ pl_at p' = pl_at p.
Proof.
  unfold stop. destruct (ht_done s); [eauto|]. tcbn. destruct (ht_poller s) as [p|]; [|done].
  intros [= <-]. exists p. done.
Qed.

Lemma sinv_poll l p s s' : sinv s -> ht_poller s = Some p -> poll_step fc pollInterval l p s = Some s' -> sinv s'.
Proof.
  intros Hi Hp. unfold poll_step.
  assert (Hidle : forall s0 at_ q, pl_baseline q = pl_baseline p ->
    match at_ with PollDelivering _ _ => False | _ => True end -> sinv (poller_at at_ q s0)).
  { intros s0 at_ q Hb Hat. eapply sinv_poller; [exact Hi|exact Hp|done|]. by intros rest polled ->. }
  destruct l, (pl_at p) as [| |[|msg rest] polled| |] eqn:Ea; try done.
  - intros [= <-]. destruct (poll_isDone p s); [by apply Hidle|].
    eapply sinv_same; [by apply (Hidle s PollFetching p)|]. tcbn. eauto.
  - unfold answered. destruct (poll_isDone p s); [intros [= <-]; by apply Hidle|]. destruct answer as [r|e].
    + destruct (validatePolledSession _ _ _ _ _) as [[]|] eqn:Ev; [|intros [= <-]; by apply Hidle].
      destruct (_ && _); [|done]. intros [= <-]. apply validatePolledSession_facts in Ev as [_ _ Hf].
      constructor; tcbn; intros p' * [= <-]; cbn.
      * intros Hk Ht He. destruct (Hf Hk) as (_ & _ & st & ex & -> & -> & _ & _ & Hsame).
        destruct (si_started _ Hi p t e Hp Hk Ht He) as [Hb Hbe]. destruct (Hsame t Hb) as [-> He']. split; congruence.
      * intros _ Hk. destruct (Hf Hk) as (? & _ & st & ex & -> & _). eauto.
    + destruct (errors_is e _); intros [= <-]; by apply Hidle.
  - destruct (_ <? _)%nat; [|done]. intros [= <-]. constructor; tcbn; intros p' * [= <-]; cbn.
    + intros Hk. by apply (si_started _ Hi p).
    + intros _. by eapply (si_running _ Hi p).
  - destruct (poll_isDone p s); [intros [= <-]; by apply Hidle|done].
  - intros [= <-]. apply Hidle; [done|by destruct polled].
  - intros [= <-]. apply Hidle; [done|by destruct (_ && _)].
  - destruct (poll_isDone p s); [intros [= <-]; by apply Hidle|done].
Qed.

Lemma sinv_step l s s' : sinv s -> tstep fc pollInterval l s = Some s' -> sinv s'.
Proof.
  intros Hi. assert (Hpoll : (p ← ht_poller s; poll_step fc pollInterval l p s) = Some s' -> sinv s').
  { destruct (ht_poller s) as [p|] eqn:Hp; [|done]. by apply sinv_poll. }
  destruct l; cbn [tstep]; try exact Hpoll; clear Hpoll.
  - intros [= <-]. unfold Start. destruct (ht_done s); [done|]. destruct (ht_poller s) eqn:Ep; [done|].
    constructor; tcbn; by intros p' * [= <-].
  - intros [= <-]. eapply sinv_same; [exact Hi|apply stop_poller].
  - intros [= <-]. unfold Dispatch. destruct (ht_done s); [done|]. destruct ctxErr; [done|].
    destruct (ht_dispatched s); [done|]. eapply sinv_same; [exact Hi|tcbn; eauto].
  - destruct (ht_running s); [|done]. intros [= <-]. eapply sinv_same; [exact Hi|tcbn; eauto].
  - destruct (ht_running s); [|done]. intros [= <-]. eapply sinv_same; [exact Hi|tcbn; eauto].
  - destruct (ht_inbound s); [done|]. intros [= <-]. eapply sinv_same; [exact Hi|tcbn; eauto].
  - destruct (ht_poller s) as [p|] eqn:Ep; [|done]. intros [= <-].
    eapply sinv_same; [exact Hi|]. tcbn. intros p' [= <-]. exists p. by rewrite Ep.
Qed.

Lemma sinv_reach ok ls s : treach fc pollInterval ok ls s -> sinv s.
Proof. induction 1; [by constructor|by eapply sinv_step]. Qed.

(** (C32) A session that changes under the transport stops it: an answer's messages are
    delivered only when its session follows the last one seen, and otherwise the transport is
    stopped with the violation and the run cancelled, with nothing of the answer delivered;
    while messages of a signing session pass, it is running and its start and expiry are
    those the transport was created with. *)
Theorem transport_session_guard ok ls s : treach fc pollInterval ok ls s ->
  (forall p rest polled t e, ht_poller s = Some p -> pl_at p = PollDelivering rest polled -> kind fc = "SIGN" ->
     StartedAt (fc_Session fc) = Some t -> ExecutionExpiresAt (fc_Session fc) = Some e ->
     sl_Status (pl_baseline p) = "RUNNING" /\ StartedAt (pl_baseline p) = Some t /\ ExecutionExpiresAt (pl_baseline p) = Some e)
  /\ forall p r order now s', ht_poller s = Some p -> poll_isDone p s = false ->
     tstep fc pollInterval (TAnswer (Ok r) order now) s = Some s' ->
     ht_calls s' = ht_calls s
     /\ (follows (pl_baseline p) (mr_Session r) now /\ order ≡ₚ mr_Messages r
           /\ (exists p' polled, ht_poller s' = Some p' /\ pl_at p' = PollDelivering order polled /\ pl_baseline p' = mr_Session r)
         \/ ht_done s' = true /\ (exists e, ht_err s' = Some e) /\ (ht_running s' = true -> ht_runCancelled s' = true)
           /\ exists p', ht_poller s' = Some p' /\ pl_at p' = PollExited).
Proof.
  intros Hr. pose proof (sinv_reach _ _ _ Hr) as Hi. pose proof (tinv_reach _ _ _ Hr) as Ht. split.
  - intros p rest polled t e Hp Hat Hk Hs He. destruct (si_running _ Hi p _ _ Hp Hat Hk) as [? _].
    by destruct (si_started _ Hi p t e Hp Hk Hs He).
  - intros p r order now s' Hp Hn Hs. cbn [tstep] in Hs. rewrite Hp in Hs. cbn [mbind option_bind] in Hs.
    unfold poll_step in Hs. destruct (pl_at p) as [| |[|? ?]| |]; try done. unfold answered in Hs. rewrite Hn in Hs.
    apply orb_false_iff in Hn as [Hdone _].
    destruct (validatePolledSession _ _ _ _ _) as [[]|e] eqn:Ev.
    + destruct (_ && _) eqn:Eo; [|done]. apply andb_true_iff in Eo as [Hperm%bool_decide_eq_true _]. injection Hs as <-.
      split; [done|left]. split_and!; [by apply validatePolledSession_facts|done|]. eexists _, _. by split_and!.
    + injection Hs as <-. unfold stop. rewrite Hdone. tcbn. split; [done|right]. split_and!; [done|by eexists| |by eexists].
      intros Hrun. rewrite (ti_run _ Ht Hrun). apply orb_true_r.
Qed.

(** * Close *)

(** [Close] has returned. *)
Lemma joined_step l s s' : joined s = true -> tstep fc pollInterval l s = Some s' ->
  joined s' = true /\ ht_calls s' = ht_calls s.
Proof.
  unfold joined. intros [Hd Hp]%andb_true_iff Hs.
  assert (Hpoll : (p ← ht_poller s; poll_step fc pollInterval l p s) = Some s' -> False).
  { destruct (ht_poller s) as [p|]; [|done]. cbn. unfold poll_step. destruct (pl_at p); [done..|]. by destruct l. }
  destruct l; cbn [tstep] in Hs; try (exfalso; by apply Hpoll); clear Hpoll.
  - injection Hs as <-. unfold Start. rewrite Hd. by rewrite Hp, Hd.
  - injection Hs as <-. unfold stop. rewrite Hd. by rewrite Hp, Hd.
  - injection Hs as <-. unfold Dispatch. rewrite Hd. tcbn. by rewrite Hp, Hd.
  - destruct (ht_running s); [|done]. injection Hs as <-. tcbn. by rewrite Hp, Hd.
  - destruct (ht_running s); [|done]. injection Hs as <-. tcbn. by rewrite Hp, Hd.
  - destruct (ht_inbound s); [done|]. injection Hs as <-. tcbn. by rewrite Hp, Hd.
  - destruct (ht_poller s) as [p|]; [|done]. injection Hs as <-. tcbn. by rewrite Hd, Hp.
Qed.

(** The steps that end a stopped poller, given that [GetMessages] returns. *)
Definition ending (p : poller) : list tlabel :=
  match pl_at p with
  | PollTop => [TTop]
  | PollFetching => [TAnswer (Fail (ESent Canceled)) [] 0%Z]
  | PollDelivering [] true => [TDelivered; TTop]
  | PollDelivering [] false => [TDelivered; TSleepStop]
  | PollDelivering (_ :: _) _ => [TDeliverStop]
  | PollSleeping => [TSleepStop]
  | PollExited => []
  end.
Fixpoint trun (ls : list tlabel) (s : HTTPTransport) : option HTTPTransport :=
  match ls with [] => Some s | l :: ls => s ← tstep fc pollInterval l s; trun ls s end.

(** [Close] returns and means it: once the transport is stopped its poller always has
    a way out, of at most two steps of its own, without touching the backend or the inbound
    queue; and after [Close] has returned nothing is polled, delivered or run any more,
    whatever else still happens. *)
Theorem transport_close ok ls s : treach fc pollInterval ok ls s -> ht_done s = true ->
  (forall p, ht_poller s = Some p -> exists s', trun (ending p) s = Some s' /\ joined s' = true /\ ht_calls s' = ht_calls s)
  /\ forall ls' s', joined s = true -> trun ls' s = Some s' -> ht_calls s' = ht_calls s.
Proof.
  intros Hr Hd. pose proof (ti_stopped _ (tinv_reach _ _ _ Hr)) as Hc. split.
  - intros p Hp. specialize (Hc p Hd Hp). unfold ending.
    destruct p as [at_ after base cancelled]. cbn [pl_cancelled] in Hc. subst cancelled. cbn [pl_at].
    destruct s as [inbound done_ err poller dispatched running runCancelled calls]. cbn [ht_done] in Hd. subst done_.
    cbn [ht_poller] in Hp. subst poller.
    destruct at_ as [| |[|msg rest] []| |]; cbn; eauto.
  - clear Hr Hc Hd. intros ls'. revert s. induction ls' as [|l ls' IH]; intros s s' Hj Hs; cbn in Hs; [by injection Hs as <-|].
    destruct (tstep fc pollInterval l s) as [s1|] eqn:E; [|done]. destruct (joined_step _ _ _ Hj E) as [Hj1 Hc].
    rewrite <- Hc. by apply (IH s1).
Qed.
End Transport.

(** * A concrete run: two messages of one answer, delivered around the run of the core *)

Definition fixture_running : SessionLifecycle := {|
  sl_SessionID := "session-1"; sl_Status := "RUNNING"; StartedAt := Some (100 * second)%Z;
  Deadline := (1000 * second)%Z; DeadlineZone := 0; ExecutionExpiresAt := Some (400 * second)%Z |}.
Definition fixture_context : FrameContext := {|
  fc_Session := fixture_running; fc_IntentID := "i-1"; fc_OrgID := "org-1"; fc_SessionID := "session-1";
  fc_Stage := "sign"; fc_Protocol := "ECDSA" |}.
Definition fixture_message (n : Z) : InboundMessage := {|
  im_DeliverySeq := n; im_ProtocolSeq := n; im_MessageID := "m"; im_Round := 1; im_FromPartyID := "mpc-signer";
  im_ToPartyID := "co-signer-primary"; im_Broadcast := false; im_Payload := "payload"; im_DerivationContextHash := "" |}.
Definition fixture_poll : MessagesResult :=
  {| mr_Session := fixture_running; mr_Messages := [fixture_message 7; fixture_message 4] |}.
Definition fixture_labels : list tlabel :=
  [TStart; TTop; TDispatch None; TAnswer (Ok fixture_poll) [fixture_message 4; fixture_message 7] (200 * second)%Z;
   TDeliver; TDeliver; TDelivered; TTop].

Lemma treach_run fc interval (ok : HTTPTransport -> tlabel -> Prop) ls s : trun fc interval ls NewHTTPTransport = Some s ->
  (forall pre l post s1, ls = (pre ++ l :: post)%list -> trun fc interval pre NewHTTPTransport = Some s1 -> ok s1 l) ->
  treach fc interval ok ls s.
Proof.
  revert s. induction ls as [|l ls IH] using rev_ind; intros s Hr Hok; [injection Hr as <-; constructor|].
  assert (Happ : forall l1 l2 s0, trun fc interval (l1 ++ l2) s0 = (s1 ← trun fc interval l1 s0; trun fc interval l2 s1)).
  { induction l1 as [|x l1 IH1]; intros l2 s0; [done|]. cbn. destruct (tstep _ _ _ _); [apply IH1|done]. }
  rewrite Happ in Hr. destruct (trun fc interval ls NewHTTPTransport) as [s0|] eqn:E; [|done]. cbn in Hr.
  destruct (tstep fc interval l s0) as [s1|] eqn:Es; [|done]. injection Hr as <-.
  eapply treach_step; [apply IH; [done|]|eapply (Hok ls l []); [done|exact E]|exact Es].
  intros pre x post s2 -> Hpre. eapply (Hok pre x (post ++ [l])%list); [by rewrite <- app_assoc|exact Hpre].
Qed.

Definition after (ls : list tlabel) : HTTPTransport :=
  default NewHTTPTransport (trun fixture_context second ls NewHTTPTransport).
Lemma fixture_reach : treach fixture_context second (fun _ _ => True) fixture_labels (after fixture_labels).
Proof. apply treach_run; [vm_compute; reflexivity|done]. Qed.

Lemma fixture_honest : treach fixture_context second honest fixture_labels (after fixture_labels).
Proof.
  apply treach_run; [vm_compute; reflexivity|]. intros pre l post s Hls Hs.
  assert (Hpre : pre = take (List.length pre) fixture_labels) by (by rewrite Hls, take_app_length).
  assert (Hl : fixture_labels !! List.length pre = Some l) by (by rewrite Hls, list_lookup_middle).
  destruct (List.length pre) as [|[|[|[|[|[|[|[|n]]]]]]]]; cbn in Hl; simplify_eq; try exact I.
  vm_compute in Hs. injection Hs as <-. cbn. split.
  - apply (bool_decide_unpack _). vm_compute. exact I.
  - repeat constructor; cbn; lia.
Qed.

Lemma transport_invariants_witness : (runs_of (ht_calls (after fixture_labels)) <= 1)%nat /\
  exists pre post, ht_calls (after fixture_labels) = (pre ++ CallGet 7 :: post)%list /\ 7%Z = cursor (pushed pre).
Proof.
  destruct (transport_invariants fixture_context second _ _ _ fixture_reach) as (H1 & _ & _ & H4). split; [exact H1|].
  exists [CallGet 0; CallRun; CallPush (fixture_message 4); CallPush (fixture_message 7)], []. split; [vm_compute; reflexivity|].
  apply (H4 _ _ []). vm_compute. reflexivity.
Defined.

Lemma transport_delivers_in_order_witness : ascending (pushed (ht_calls (after fixture_labels))) /\
  pushed (ht_calls (after fixture_labels)) = [4; 7]%Z.
Proof.
  split; [exact (transport_delivers_in_order fixture_context second _ _ fixture_honest)|vm_compute; reflexivity].
Defined.

Lemma transport_session_guard_witness : exists p, ht_poller (after (take 5 fixture_labels)) = Some p
  /\ sl_Status (pl_baseline p) = "RUNNING" /\ StartedAt (pl_baseline p) = Some (100 * second)%Z.
Proof.
  assert (Hr : treach fixture_context second (fun _ _ => True) (take 5 fixture_labels) (after (take 5 fixture_labels))).
  { apply treach_run; [vm_compute; reflexivity|done]. }
  destruct (transport_session_guard fixture_context second _ _ _ Hr) as [H _].
  destruct (ht_poller (after (take 5 fixture_labels))) as [p|] eqn:Hp; [|vm_compute in Hp; discriminate Hp].
  exists p. split; [reflexivity|].
  destruct (H p [fixture_message 7] true (100 * second)%Z (400 * second)%Z eq_refl) as (H1 & H2 & _);
    [vm_compute in Hp; injection Hp as <-; reflexivity|vm_compute; reflexivity|reflexivity|reflexivity|exact (conj H1 H2)].
Defined.

Definition stopped_labels : list tlabel := fixture_labels ++ [TStop None].
Lemma transport_close_witness : exists p s', ht_poller (after stopped_labels) = Some p
  /\ trun fixture_context second (ending p) (after stopped_labels) = Some s' /\ joined s' = true.
Proof.
  assert (Hr : treach fixture_context second (fun _ _ => True) stopped_labels (after stopped_labels)).
  { apply treach_run; [vm_compute; reflexivity|done]. }
  destruct (transport_close fixture_context second _ _ _ Hr) as [H _]; [vm_compute; reflexivity|].
  destruct (ht_poller (after stopped_labels)) as [p|] eqn:Hp; [|vm_compute in Hp; discriminate Hp].
  destruct (H p eq_refl) as (s' & H1 & H2 & _). exists p, s'. exact (conj eq_refl (conj H1 H2)).
Defined.
