(* ===== verification/Preparams.v ===== *)
(** [internal/preparams]: the controller that pauses the generation of DKG pre-parameters
    for the time of a job and tells the scheduler when two sets are ready.  Observers and
    the one job interleave; a step is one critical section, one call of the core service or
    one channel operation.  The core service is its snapshot, the pause flag and the
    generations it starts and ends. *)
From stdpp Require Import base tactics option list numbers.
From Stdlib Require Import ZArith Lia String.
From S2P Require Import Prelude GoText.

(** * profile.go *)

(** [coretss.PreParamsConfig]; the values the repository leaves to the library are [rest]. *)
Record PreParamsConfig (A : Type) := {
  pc_TargetSize : Z; pc_MaxConcurrency : Z; pc_GenerationParallelism : Z; pc_SyncFallbackOnEmpty : bool;
  pc_AutoRefillOnAcquire : bool; pc_rest : A;
}.
Arguments Build_PreParamsConfig {A}.
Arguments pc_rest {A}.

Definition ProductionProfile {A} (DefaultPreParamsConfig : PreParamsConfig A) (generationParallelism : Z)
    : res (PreParamsConfig A) :=
  if (generationParallelism <? 1)%Z then Fail (ENew "preparams generation parallelism must be >= 1")
  else Ok (Build_PreParamsConfig 2 1 generationParallelism false false (pc_rest DefaultPreParamsConfig)).

(** * controller.go *)

Record Snapshot := { PreParamsPoolSize : Z; PreParamsGenerationInFlight : Z }.

(** The job: none, or past the lock, past the pause and waiting for the generations in
    flight, running, past the resume after a failed wait, or past the resume at its end. *)
Inductive job_phase := NoJob | Begun | Waiting | Running | Failed | Finished.

Record Controller := {
  ct_jobActive : bool; ct_ready : bool; ct_generating : bool; ct_startedAt : time; ct_wakeups : nat;
  ct_phase : job_phase;
  (** the core service *)
  co_pool : Z; co_inflight : Z; co_paused : bool;
  (** an observer that found the controller ready and has not sent its hint yet *)
  ct_hinting : bool;
}.
Definition NewController (pool inflight : Z) : Controller := {|
  ct_jobActive := false; ct_ready := false; ct_generating := false; ct_startedAt := zero_time; ct_wakeups := 0;
  ct_phase := NoJob; co_pool := pool; co_inflight := inflight; co_paused := false; ct_hinting := false |}.

Definition set_phase (active ready : bool) (ph : job_phase) (paused : bool) (s : Controller) : Controller := {|
  ct_jobActive := active; ct_ready := ready; ct_generating := ct_generating s; ct_startedAt := ct_startedAt s;
  ct_wakeups := ct_wakeups s; ct_phase := ph; co_pool := co_pool s; co_inflight := co_inflight s;
  co_paused := paused; ct_hinting := ct_hinting s |}.
Definition set_core (pool inflight : Z) (s : Controller) : Controller := {|
  ct_jobActive := ct_jobActive s; ct_ready := ct_ready s; ct_generating := ct_generating s;
  ct_startedAt := ct_startedAt s; ct_wakeups := ct_wakeups s; ct_phase := ct_phase s; co_pool := pool;
  co_inflight := inflight; co_paused := co_paused s; ct_hinting := ct_hinting s |}.

(** The critical section of [observe], on a snapshot taken before it; the result. *)
Definition observe (snapshot : Snapshot) (now : time) (s : Controller) : bool * Controller :=
  let ready := (2 <=? PreParamsPoolSize snapshot)%Z && (PreParamsGenerationInFlight snapshot =? 0)%Z in
  let started := (0 <? PreParamsGenerationInFlight snapshot)%Z && negb (ct_generating s) in
  let generating := if started then true else ct_generating s in
  let startedAt := if started then now else ct_startedAt s in
  let ended := (PreParamsGenerationInFlight snapshot =? 0)%Z && generating in
  let ready := if ct_jobActive s then false else ready in
  (ready,
   {| ct_jobActive := ct_jobActive s; ct_ready := ready; ct_generating := if ended then false else generating;
      ct_startedAt := if ended then zero_time else startedAt; ct_wakeups := ct_wakeups s; ct_phase := ct_phase s;
      co_pool := co_pool s; co_inflight := co_inflight s; co_paused := co_paused s;
      ct_hinting := ct_hinting s || (ready && negb (ct_ready s)) |}).

Inductive clabel :=
  | LObserve (snapshot : Snapshot) (now : time)
  | LHint
  | LWakeup
  | LBegin
  | LPause
  | LIdle
  | LGiveUp
  | LResume
  | LEnd
  | LGenerate
  | LGenerated
  | LAcquire.

(** A step, when it is possible.  [LHint] sends the hint of [observe], [LWakeup] receives it;
    [LBegin] .. [LEnd] are the job; the last three are the core service. *)
Definition cstep (l : clabel) (s : Controller) : option Controller :=
  match l, ct_phase s with
  | LObserve snapshot now, _ => Some (observe snapshot now s).2
  | LHint, _ =>
      if ct_hinting s then
        Some {| ct_jobActive := ct_jobActive s; ct_ready := ct_ready s; ct_generating := ct_generating s;
                ct_startedAt := ct_startedAt s; ct_wakeups := Nat.max 1 (ct_wakeups s); ct_phase := ct_phase s;
                co_pool := co_pool s; co_inflight := co_inflight s; co_paused := co_paused s; ct_hinting := false |}
      else None
  | LWakeup, _ =>
      match ct_wakeups s with
      | S n => Some {| ct_jobActive := ct_jobActive s; ct_ready := ct_ready s; ct_generating := ct_generating s;
                ct_startedAt := ct_startedAt s; ct_wakeups := n; ct_phase := ct_phase s;
                co_pool := co_pool s; co_inflight := co_inflight s; co_paused := co_paused s; ct_hinting := ct_hinting s |}
      | O => None
      end
  | LBegin, _ => if ct_jobActive s then None else Some (set_phase true false Begun (co_paused s) s)
  | LPause, Begun => Some (set_phase (ct_jobActive s) (ct_ready s) Waiting true s)
  | LIdle, Waiting =>
      if (co_inflight s =? 0)%Z then Some (set_phase (ct_jobActive s) (ct_ready s) Running (co_paused s) s) else None
  | LGiveUp, Waiting => Some (set_phase (ct_jobActive s) (ct_ready s) Failed false s)
  | LResume, Running => Some (set_phase (ct_jobActive s) (ct_ready s) Finished false s)
  | LEnd, (Failed | Finished) => Some (set_phase false (ct_ready s) NoJob (co_paused s) s)
  | LGenerate, _ => Some (set_core (co_pool s) (co_inflight s + 1) s)
  | LGenerated, _ => if (0 <? co_inflight s)%Z then Some (set_core (co_pool s + 1) (co_inflight s - 1) s) else None
  | LAcquire, _ => if (0 <? co_pool s)%Z then Some (set_core (co_pool s - 1) (co_inflight s) s) else None
  | _, _ => None
  end.

(** [BeginJob]'s refusal. *)
Definition BeginJob (s : Controller) : res unit :=
  if ct_jobActive s then Fail (ESent ErrJobAlreadyActive) else Ok ().

(** What [PausePreParamsRefill] promises: no generation starts while the refill is paused. *)
Definition core_ok (s : Controller) (l : clabel) : Prop := l = LGenerate -> co_paused s = false.

Inductive creach (pool inflight : Z) : list clabel -> Controller -> Prop :=
  | creach_new : creach pool inflight [] (NewController pool inflight)
  | creach_step ls l s s' : creach pool inflight ls s -> core_ok s l -> cstep l s = Some s' ->
      creach pool inflight (ls ++ [l]) s'.

(** * Proofs *)

Record cinv (s : Controller) : Prop := {
  ci_active : ct_jobActive s = negb (match ct_phase s with NoJob => true | _ => false end);
  ci_ready : ct_jobActive s = true -> ct_ready s = false;
  ci_paused : co_paused s = match ct_phase s with Waiting | Running => true | _ => false end;
  ci_idle : ct_phase s = Running -> co_inflight s = 0%Z;
  ci_wakeups : (ct_wakeups s <= 1)%nat;
}.

Lemma cinv_step s l s' : cinv s -> core_ok s l -> cstep l s = Some s' -> cinv s'.
Proof.
  intros [Ha Hr Hp Hi Hw] Hok. unfold cstep.
  destruct l, (ct_phase s) eqn:Eph; cbn in Ha, Hp; rewrite ?Ha; cbn [set_phase]; try done.
  all: try (intros [= <-]; constructor; cbn; rewrite ?Ha, ?Hp, ?Eph; try done; intros; first [done|by apply Hr|by apply Hi|lia]).
  all: repeat match goal with |- (if ?b then _ else _) = _ -> _ => destruct b eqn:?; [|done]
    | |- (match ?x with O => _ | _ => _ end) = _ -> _ => destruct x eqn:?; [done|] end.
  all: intros [= <-]; constructor; cbn; rewrite ?Ha, ?Hp, ?Eph; try done; try lia; intros _; try by apply Hr.
  all: try (specialize (Hok eq_refl); congruence).
  specialize (Hi eq_refl). lia.
Qed.

Lemma cinv_reach pool inflight ls s : creach pool inflight ls s -> cinv s.
Proof. induction 1; [constructor; cbn; try done; lia|by eapply cinv_step]. Qed.

(** In every interleaving of observers, the scheduler, the core and the job: a second job
    is refused while one is active, no generation of pre-parameters is in flight and the
    refill is paused for as long as the job runs, admission is not hinted during a job, the
    refill is paused exactly between the job's pause and its resume, and at most one hint
    waits for the scheduler. *)
Theorem preparams_job pool inflight ls s : creach pool inflight ls s ->
  (ct_phase s = Running -> co_inflight s = 0%Z)
  /\ (co_paused s = true <-> ct_phase s = Waiting \/ ct_phase s = Running)
  /\ (ct_phase s <> NoJob -> BeginJob s = Fail (ESent ErrJobAlreadyActive) /\ cstep LBegin s = None
       /\ forall snapshot now, (observe snapshot now s).1 = false)
  /\ (ct_wakeups s <= 1)%nat.
Proof.
  intros Hr. apply cinv_reach in Hr as [Ha Hr Hp Hi Hw]. split_and!; try done.
  - rewrite Hp. destruct (ct_phase s); naive_solver.
  - intros Hn. assert (E : ct_jobActive s = true) by (rewrite Ha; by destruct (ct_phase s)).
    unfold BeginJob, observe, cstep. rewrite E. by destruct (ct_phase s).
Qed.

(** A job over a generation that was in flight when it began. *)
Definition fixture_job : list clabel := [LGenerate; LBegin; LPause; LGenerated; LIdle].
Lemma fixture_job_reach : exists s, creach 1 0 fixture_job s /\ ct_phase s = Running.
Proof.
  pose proof (creach_step 1 0 [] LGenerate _ _ (creach_new 1 0) (fun _ => eq_refl) eq_refl) as H1.
  pose proof (creach_step 1 0 _ LBegin _ _ H1 ltac:(discriminate) eq_refl) as H2.
  pose proof (creach_step 1 0 _ LPause _ _ H2 ltac:(discriminate) eq_refl) as H3.
  pose proof (creach_step 1 0 _ LGenerated _ _ H3 ltac:(discriminate) eq_refl) as H4.
  pose proof (creach_step 1 0 _ LIdle _ _ H4 ltac:(discriminate) eq_refl) as H5.
  eexists. split; [exact H5|reflexivity].
Qed.
Lemma preparams_job_witness : exists s, ct_phase s = Running /\ co_inflight s = 0%Z
  /\ BeginJob s = Fail (ESent ErrJobAlreadyActive).
Proof.
  destruct fixture_job_reach as (s & Hr & Hp). exists s. split; [exact Hp|].
  destruct (preparams_job 1 0 fixture_job s Hr) as (H1 & _ & H3 & _). split; [exact (H1 Hp)|].
  apply H3. rewrite Hp. discriminate.
Defined.
