(* ===== verification/Metrics.v ===== *)
(** [internal/metrics]: the registry of operational counters and the observations the other
    components make, and that its contract bounds what can ever be exported. *)
From stdpp Require Import base tactics option list strings numbers gmap sorting.
From Stdlib Require Import ZArith Lia Ascii String.
From S2P Require Import Prelude GoText GoFloat.

#[local] Open Scope string_scope.

(** * contract.go *)

Abbreviation Labels := (gmap string string).
Record Spec := { sp_Labels : gmap string (list string) }.

Definition plain : Spec := {| sp_Labels := ∅ |}.
Definition kinds : list string := ["DKG"; "SIGN"].
Definition Contract : gmap string Spec := list_to_map [
  ("co_signer_lifecycle_lock_held", plain); ("co_signer_reconciliation_duration_seconds", plain);
  ("co_signer_reconciliation_failures_total", plain);
  ("co_signer_process_ready", plain); ("co_signer_signing_ready", plain); ("co_signer_provisioning_ready", plain);
  ("co_signer_job_capacity", plain);
  ("co_signer_admission_total",
   {| sp_Labels := {["type" := kinds; "outcome" := ["admitted"; "capacity_full"; "preparams_unavailable"]]} |});
  ("dkg_guard_occupied", plain); ("dkg_admission_open", plain); ("dkg_claim_conflicts_total", plain);
  ("oldest_pending_dkg_age_seconds", plain); ("oldest_pending_sign_age_seconds", plain);
  ("pending_batch_items", {| sp_Labels := {["type" := kinds]} |});
  ("intent_claims_total",
   {| sp_Labels := {["type" := kinds; "outcome" := ["accepted"; "conflict"; "failed"; "unknown"]]} |});
  ("dkg_terminal_unconfirmed", plain); ("dkg_terminal_publish_attempts_total", plain);
  ("dkg_terminal_conflicts_total", plain);
  ("preparams_pool_size", plain); ("preparams_generation_inflight", plain);
  ("preparams_generation_duration_seconds", plain);
  ("preparams_acquired_total", plain); ("preparams_consumed_total", plain);
  ("preparams_discarded_before_start_total", plain); ("preparams_acquire_failed_total", plain);
  ("preparams_consume_conflict_total", plain); ("dkg_skipped_preparams_total", plain);
  ("artifact_publish_total", plain); ("artifact_publish_failures_total", plain);
  ("artifact_inspection_failures_total", plain);
  ("artifact_file_count", plain); ("artifact_temporary_file_count", plain); ("artifact_total_bytes", plain);
  ("artifact_oldest_file_age_seconds", plain); ("artifact_filesystem_free_bytes", plain);
  ("active_dkg_jobs", plain); ("active_sign_jobs", plain);
  ("mpc_session_duration_seconds", {| sp_Labels := {["type" := kinds]} |});
  ("relay_integrity_conflicts_total", plain); ("relay_queue_overflow_total", plain); ("process_rss_bytes", plain);
  ("go_heap_bytes", plain); ("go_goroutines", plain)].

(** * registry.go *)

Abbreviation values := (gmap string (gmap string float64)).
(** A [*Registry]: nil, or its table. *)
Definition Registry : Type := option values.
Definition NewRegistry : Registry := Some ∅.

Definition contains (values : list string) (value : string) : bool := existsb (fun candidate => candidate =s value) values.
Definition validLabels (name : string) (labels : Labels) : bool :=
  match Contract !! name with
  | Some spec =>
      (size labels =? size (sp_Labels spec))%nat
      && forallb (fun kv => match labels !! kv.1 with Some value => contains kv.2 value | None => false end)
           (map_to_list (sp_Labels spec))
  | None => false
  end.
Definition labelKey (labels : Labels) : string :=
  str_join "," (map (fun key => key ++ "=" ++ default "" (labels !! key)) (sort_strings (map_to_list labels).*1)).

(** The body [Add] and [Set] share: the entry of a valid series becomes [f] of what it was,
    [float64]'s zero when there was none. *)
Definition update (name : string) (labels : Labels) (f : float64 -> float64) (r : Registry) : Registry :=
  match r with
  | None => None
  | Some values =>
      if negb (validLabels name labels) then r
      else
        let key := labelKey labels in
        let entries := default ∅ (values !! name) in
        Some (<[name := <[key := f (default (float_of 0) (entries !! key))]> entries]> values)
  end.
Definition Add (name : string) (labels : Labels) (value : float64) : Registry -> Registry :=
  update name labels (fun old => float_add old value).
Definition Set_ (name : string) (labels : Labels) (value : float64) : Registry -> Registry :=
  update name labels (fun _ => value).
Definition Inc (name : string) (labels : Labels) : Registry -> Registry := Add name labels (float_of 1).
Definition Observe (name : string) (labels : Labels) (value : float64) : Registry -> Registry := Set_ name labels value.

(** [Snapshot] copies the table, so nothing done to the copy reaches the registry. *)
Definition Snapshot (r : Registry) : values := default ∅ r.
(** [Render]: one line per series; [format_g] is [%g] of [fmt.Sprintf]. *)
Definition render_line (format_g : float64 -> string) (name key : string) (value : float64) : string :=
  name ++ "{" ++ key ++ "}=" ++ format_g value.
Definition render_entries (format_g : float64 -> string) (name : string) (entries : gmap string float64) : list string :=
  map (fun key => render_line format_g name key (default (float_of 0) (entries !! key)))
    (sort_strings (map_to_list entries).*1).
Definition Render (format_g : float64 -> string) (r : Registry) : list string :=
  let snapshot := Snapshot r in
  name ← sort_strings (map_to_list snapshot).*1;
  render_entries format_g name (default ∅ (snapshot !! name)).

(** * The observations *)

Definition none : Labels := ∅.
Definition boolFloat (value : bool) : float64 := float_of (if value then 1 else 0).

(** [ObserveRuntime], [ObserveRSS] and [ObserveGoRuntime]: [heap], [goroutines] and [rss] are
    what the runtime and the kernel say. *)
Definition ObserveRuntime (heap goroutines : Z) (r : Registry) : Registry :=
  Set_ "go_goroutines" none (float_of goroutines) (Set_ "go_heap_bytes" none (float_of heap) r).
Definition ObserveRSS (bytes : Z) : Registry -> Registry := Set_ "process_rss_bytes" none (float_of bytes).
Definition ObserveGoRuntime (heap goroutines : Z) (rss : option Z) (r : Registry) : Registry :=
  let r := ObserveRuntime heap goroutines r in
  match rss with Some bytes => ObserveRSS bytes r | None => r end.
(** [processRSS] on Linux: [statm] is the content of /proc/self/statm and [page] the size
    of a page. *)
Definition processRSS (page : Z) (statm : option string) : option Z :=
  match statm with
  | Some raw => match Fields raw with
                | _ :: field :: _ => pages ← ParseUint field; Some (u64 (pages * page))
                | _ => None
                end
  | None => None
  end.

Definition SetJobCapacity (capacity : Z) (r : Registry) : Registry :=
  if (0 <? capacity)%Z then Set_ "co_signer_job_capacity" none (float_of capacity) r else r.
Definition ObserveAdmission (kind outcome : string) : Registry -> Registry :=
  Inc "co_signer_admission_total" {["type" := kind; "outcome" := outcome]}.
Definition active_jobs (kind : string) (delta : Z) (r : Registry) : Registry :=
  let r := if kind =s "DKG" then Add "active_dkg_jobs" none (float_of delta) r else r in
  if kind =s "SIGN" then Add "active_sign_jobs" none (float_of delta) r else r.
Definition JobStarted (kind : string) : Registry -> Registry := active_jobs kind 1.
Definition JobFinished (kind : string) : Registry -> Registry := active_jobs kind (-1).
Definition ObserveSessionDuration (kind : string) (seconds : float64) : Registry -> Registry :=
  Observe "mpc_session_duration_seconds" {["type" := kind]} seconds.

Definition ObserveArtifactPublish (success : bool) (r : Registry) : Registry :=
  let r := Inc "artifact_publish_total" none r in
  if success then r else Inc "artifact_publish_failures_total" none r.
Definition ObserveArtifactInspection (success : bool) (r : Registry) : Registry :=
  if success then r else Inc "artifact_inspection_failures_total" none r.
Definition ObserveArtifactInventory (files temporary bytes oldestAge freeBytes : float64) (r : Registry) : Registry :=
  let r := Set_ "artifact_file_count" none files r in
  let r := Set_ "artifact_temporary_file_count" none temporary r in
  let r := Set_ "artifact_total_bytes" none bytes r in
  let r := Set_ "artifact_oldest_file_age_seconds" none oldestAge r in
  Set_ "artifact_filesystem_free_bytes" none freeBytes r.

Definition SetLockHeld (held : bool) : Registry -> Registry := Set_ "co_signer_lifecycle_lock_held" none (boolFloat held).
Definition SetReadiness (process signing provisioning : bool) (r : Registry) : Registry :=
  let r := Set_ "co_signer_process_ready" none (boolFloat process) r in
  let r := Set_ "co_signer_signing_ready" none (boolFloat signing) r in
  Set_ "co_signer_provisioning_ready" none (boolFloat provisioning) r.
Definition ObserveReconciliation (seconds : float64) (failed : bool) (r : Registry) : Registry :=
  let r := Observe "co_signer_reconciliation_duration_seconds" none seconds r in
  if failed then Inc "co_signer_reconciliation_failures_total" none r else r.

Definition ObservePreparams (pool inflight : float64) (r : Registry) : Registry :=
  Set_ "preparams_generation_inflight" none inflight (Set_ "preparams_pool_size" none pool r).
Definition ObservePreparamsTransitions (acquired consumed discarded acquireFailed consumeConflict : float64)
    (r : Registry) : Registry :=
  let r := Set_ "preparams_acquired_total" none acquired r in
  let r := Set_ "preparams_consumed_total" none consumed r in
  let r := Set_ "preparams_discarded_before_start_total" none discarded r in
  let r := Set_ "preparams_acquire_failed_total" none acquireFailed r in
  Set_ "preparams_consume_conflict_total" none consumeConflict r.
Definition ObservePreparamsGeneration (seconds : float64) : Registry -> Registry :=
  Observe "preparams_generation_duration_seconds" none seconds.

Definition ObserveRelayIntegrityConflict : Registry -> Registry := Inc "relay_integrity_conflicts_total" none.
Definition ObserveRelayQueueOverflow : Registry -> Registry := Inc "relay_queue_overflow_total" none.
Definition SetDKGAdmission (open : bool) : Registry -> Registry := Set_ "dkg_admission_open" none (boolFloat open).
Definition SetDKGGuard (occupied : bool) : Registry -> Registry := Set_ "dkg_guard_occupied" none (boolFloat occupied).
Definition ObservePending (kind : string) (ageSeconds items : float64) (r : Registry) : Registry :=
  let r := if kind =s "DKG" then Observe "oldest_pending_dkg_age_seconds" none ageSeconds r else r in
  let r := if kind =s "SIGN" then Observe "oldest_pending_sign_age_seconds" none ageSeconds r else r in
  Set_ "pending_batch_items" {["type" := kind]} items r.
Definition ObserveClaim (kind outcome : string) : Registry -> Registry :=
  Inc "intent_claims_total" {["type" := kind; "outcome" := outcome]}.
Definition ObserveClaimConflict : Registry -> Registry := Inc "dkg_claim_conflicts_total" none.
Definition ObserveDKGSkippedPreparams : Registry -> Registry := Inc "dkg_skipped_preparams_total" none.
Definition SetTerminalUnconfirmed (unconfirmed : bool) : Registry -> Registry :=
  Set_ "dkg_terminal_unconfirmed" none (boolFloat unconfirmed).
Definition ObserveTerminalAttempt : Registry -> Registry := Inc "dkg_terminal_publish_attempts_total" none.
Definition ObserveTerminalConflict : Registry -> Registry := Inc "dkg_terminal_conflicts_total" none.

(** * The contract bounds the registry *)

(** The label sets a specification allows, and the series of the contract. *)
Fixpoint assignments (spec : list (string * list string)) : list Labels :=
  match spec with
  | [] => [∅]
  | (key, allowed) :: spec => value ← allowed; labels ← assignments spec; [<[key := value]> labels]
  end.
Definition series : list (string * string) :=
  '(name, spec) ← map_to_list Contract; labels ← assignments (map_to_list (sp_Labels spec)); [(name, labelKey labels)].

Lemma contains_spec values value : contains values value = true <-> value ∈ values.
Proof.
  unfold contains. rewrite existsb_exists. setoid_rewrite String.eqb_eq. setoid_rewrite <- list_elem_of_In.
  naive_solver.
Qed.

(** Labels that carry each key of a specification with an allowed value, and as many keys, are
    one of its assignments. *)
Lemma assignments_complete spec (labels : Labels) :
  NoDup spec.*1 -> size labels = List.length spec ->
  (forall key allowed, (key, allowed) ∈ spec -> exists value, labels !! key = Some value /\ value ∈ allowed) ->
  labels ∈ assignments spec.
Proof.
  revert labels. induction spec as [|[key allowed] spec IH]; intros labels Hnd Hs Hf; cbn in *.
  - by apply list_elem_of_singleton, map_size_empty_inv.
  - apply NoDup_cons in Hnd as [Hn Hnd]. destruct (Hf key allowed) as (value & Hl & Ha); [by left|].
    apply list_elem_of_bind. exists value. split; [|done]. apply list_elem_of_bind. exists (delete key labels).
    split; [by rewrite list_elem_of_singleton, insert_delete_id|].
    apply IH; [done| |].
    + rewrite map_size_delete, Hl. cbn. lia.
    + intros key' allowed' Hin. rewrite lookup_delete_ne; [apply Hf; by right|].
      intros ->. apply Hn, list_elem_of_fmap. by exists (key', allowed').
Qed.
Lemma validLabels_series name labels : validLabels name labels = true -> (name, labelKey labels) ∈ series.
Proof.
  unfold validLabels. intros Hv. destruct (Contract !! name) as [spec|] eqn:Hc; [|done].
  apply andb_true_iff in Hv as [Hs Hf]. apply Nat.eqb_eq in Hs. rewrite forallb_forall in Hf.
  unfold series. apply list_elem_of_bind. exists (name, spec). split; [|by apply elem_of_map_to_list].
  apply list_elem_of_bind. exists labels. split; [by apply list_elem_of_singleton|].
  apply assignments_complete; [apply NoDup_fst_map_to_list|by rewrite length_map_to_list|].
  intros key allowed Hin. specialize (Hf (key, allowed) (proj1 (list_elem_of_In _ _) Hin)). cbn in Hf.
  destruct (labels !! key) as [value|]; [|done]. exists value. split; [done|]. by apply contains_spec.
Qed.

(** What callers can do to a registry. *)
Inductive registry_step : Registry -> Registry -> Prop :=
  | step_add name labels value r : registry_step r (Add name labels value r)
  | step_set name labels value r : registry_step r (Set_ name labels value r).

(** Every stored series is one of the contract. *)
Definition within_contract (r : Registry) : Prop :=
  forall name entries key, Snapshot r !! name = Some entries -> is_Some (entries !! key) -> (name, key) ∈ series.

Lemma update_within name labels f r : within_contract r -> within_contract (update name labels f r).
Proof.
  unfold within_contract, update. intros Hr. destruct r as [values|]; [|done].
  destruct (validLabels name labels) eqn:Hv; cbn in *; [|done]. apply validLabels_series in Hv.
  intros name' entries key He Hk. destruct (decide (name' = name)) as [->|Hn].
  - rewrite lookup_insert_eq in He. injection He as <-.
    destruct (decide (key = labelKey labels)) as [->|Hkey]; [done|]. rewrite lookup_insert_ne in Hk by done.
    destruct (values !! name) as [entries|] eqn:Hvs; cbn in Hk; [by eapply Hr|]. by rewrite lookup_empty in Hk; destruct Hk.
  - rewrite lookup_insert_ne in He by done. by eapply Hr.
Qed.

(** The series of a registry, in the order they are rendered. *)
Definition rendered (r : Registry) : list (string * string) :=
  name ← sort_strings (map_to_list (Snapshot r)).*1;
  pair name <$> sort_strings (map_to_list (default ∅ (Snapshot r !! name))).*1.

Lemma sorted_keys {A} (m : gmap string A) key : key ∈ sort_strings (map_to_list m).*1 <-> is_Some (m !! key).
Proof.
  rewrite sort_strings_perm. split.
  - intros ([k a] & -> & Hin)%list_elem_of_fmap. apply elem_of_map_to_list in Hin. by exists a.
  - intros [a Ha]. apply list_elem_of_fmap. exists (key, a). split; [done|]. by apply elem_of_map_to_list.
Qed.
Lemma sorted_keys_NoDup {A} (m : gmap string A) : NoDup (sort_strings (map_to_list m).*1).
Proof. rewrite sort_strings_perm. apply NoDup_fst_map_to_list. Qed.

Lemma rendered_NoDup r : NoDup (rendered r).
Proof.
  apply NoDup_bind; [|intros; apply NoDup_fmap_2; [by intros ?? [=]|apply sorted_keys_NoDup]|apply sorted_keys_NoDup].
  intros x1 x2 y _ _ (k1 & -> & _)%list_elem_of_fmap (k2 & [= ->] & _)%list_elem_of_fmap. done.
Qed.
Lemma Render_rendered format_g r : List.length (Render format_g r) = List.length (rendered r).
Proof.
  unfold Render, rendered. induction (sort_strings _) as [|name names IH]; [done|].
  cbn [mbind list_bind]. rewrite !length_app, IH. unfold render_entries. by rewrite length_map, length_fmap.
Qed.

(** The observations the components make. *)
Inductive observation : (Registry -> Registry) -> Prop :=
  | obs_runtime heap goroutines rss : observation (ObserveGoRuntime heap goroutines rss)
  | obs_capacity capacity : observation (SetJobCapacity capacity)
  | obs_admission kind outcome : observation (ObserveAdmission kind outcome)
  | obs_started kind : observation (JobStarted kind)
  | obs_finished kind : observation (JobFinished kind)
  | obs_duration kind seconds : observation (ObserveSessionDuration kind seconds)
  | obs_publish success : observation (ObserveArtifactPublish success)
  | obs_inspection success : observation (ObserveArtifactInspection success)
  | obs_inventory files temporary bytes age free : observation (ObserveArtifactInventory files temporary bytes age free)
  | obs_lock held : observation (SetLockHeld held)
  | obs_readiness process signing provisioning : observation (SetReadiness process signing provisioning)
  | obs_reconciliation seconds failed : observation (ObserveReconciliation seconds failed)
  | obs_preparams pool inflight : observation (ObservePreparams pool inflight)
  | obs_transitions a b c d e : observation (ObservePreparamsTransitions a b c d e)
  | obs_generation seconds : observation (ObservePreparamsGeneration seconds)
  | obs_relay_conflict : observation ObserveRelayIntegrityConflict
  | obs_relay_overflow : observation ObserveRelayQueueOverflow
  | obs_dkg_admission open : observation (SetDKGAdmission open)
  | obs_dkg_guard occupied : observation (SetDKGGuard occupied)
  | obs_pending kind age items : observation (ObservePending kind age items)
  | obs_claim kind outcome : observation (ObserveClaim kind outcome)
  | obs_claim_conflict : observation ObserveClaimConflict
  | obs_skipped : observation ObserveDKGSkippedPreparams
  | obs_unconfirmed unconfirmed : observation (SetTerminalUnconfirmed unconfirmed)
  | obs_attempt : observation ObserveTerminalAttempt
  | obs_terminal_conflict : observation ObserveTerminalConflict.

Ltac registry_steps :=
  lazymatch goal with
  | |- rtc registry_step ?r ?r => reflexivity
  | |- rtc registry_step _ (Add _ _ _ _) => eapply rtc_r; [|apply step_add]; registry_steps
  | |- rtc registry_step _ (Set_ _ _ _ _) => eapply rtc_r; [|apply step_set]; registry_steps
  | |- context [if ?b then _ else _] => destruct b; registry_steps
  | |- context [match ?o with _ => _ end] => destruct o; registry_steps
  end.
Lemma observation_steps f r : observation f -> rtc registry_step r (f r).
Proof.
  intros []; unfold ObserveGoRuntime, ObserveRuntime, ObserveRSS, SetJobCapacity, ObserveAdmission, JobStarted,
    JobFinished, active_jobs, ObserveSessionDuration, ObserveArtifactPublish, ObserveArtifactInspection,
    ObserveArtifactInventory, SetLockHeld, SetReadiness, ObserveReconciliation, ObservePreparams,
    ObservePreparamsTransitions, ObservePreparamsGeneration, ObserveRelayIntegrityConflict, ObserveRelayQueueOverflow,
    SetDKGAdmission, SetDKGGuard, ObservePending, ObserveClaim, ObserveClaimConflict, ObserveDKGSkippedPreparams,
    SetTerminalUnconfirmed, ObserveTerminalAttempt, ObserveTerminalConflict, Observe, Inc; cbv zeta; registry_steps.
Qed.

(** (C36) The registry cannot become a channel: whatever names, labels and values callers pass,
    only series of the contract are ever stored, an observation outside it changes nothing,
    and rendering gives at most one line for each of the contract's fifty-seven series. *)
Theorem registry_bounded r format_g :
  rtc registry_step NewRegistry r ->
  within_contract r
  /\ (List.length (Render format_g r) <= 57)%nat
  /\ forall name labels value, validLabels name labels = false -> Add name labels value r = r /\ Set_ name labels value r = r.
Proof.
  intros Hr. assert (Hw : within_contract r).
  { assert (H0 : within_contract NewRegistry) by (intros name entries key Hn; cbn in Hn; by rewrite lookup_empty in Hn).
    revert H0. induction Hr as [|x y z [] _ IH]; intros H0; [done|apply IH; by apply update_within..]. }
  split_and!; [done| |].
  - rewrite Render_rendered. transitivity (List.length series); [|by apply Nat.eq_le_incl; vm_compute].
    apply submseteq_length, NoDup_submseteq; [apply rendered_NoDup|].
    intros x (name & (key & -> & Hk)%list_elem_of_fmap & Hn)%list_elem_of_bind. apply sorted_keys in Hn as [entries Hn].
    rewrite Hn in Hk. apply sorted_keys in Hk. by eapply Hw.
  - intros name labels value Hv. unfold Add, Set_, update. rewrite Hv. destruct r; done.
Qed.

Lemma registry_bounded_witness :
  exists r, within_contract r /\ Render (fun _ => "1") r = ["active_sign_jobs{}=1"; "intent_claims_total{outcome=accepted,type=SIGN}=1"].
Proof.
  exists (JobStarted "SIGN" (ObserveClaim "/etc/passwd" "accepted" (ObserveClaim "SIGN" "accepted" NewRegistry))).
  assert (Hr : rtc registry_step NewRegistry
                 (JobStarted "SIGN" (ObserveClaim "/etc/passwd" "accepted" (ObserveClaim "SIGN" "accepted" NewRegistry)))).
  { pose proof (observation_steps (ObserveClaim "SIGN" "accepted") NewRegistry (obs_claim _ _)) as H1.
    pose proof (observation_steps (ObserveClaim "/etc/passwd" "accepted")
                  (ObserveClaim "SIGN" "accepted" NewRegistry) (obs_claim _ _)) as H2.
    pose proof (observation_steps (JobStarted "SIGN")
                  (ObserveClaim "/etc/passwd" "accepted" (ObserveClaim "SIGN" "accepted" NewRegistry)) (obs_started _)) as H3.
    exact (transitivity (transitivity H1 H2) H3). }
  split; [|vm_compute; reflexivity].
  destruct (registry_bounded _ (fun _ => "1") Hr) as (Hw & _ & _). exact Hw.
Defined.
