(* ===== verification/Startup.v ===== *)
(** The helpers of [cmd/co-signer] (runtime_helpers.go, build_identity.go, free_space_unix.go):
    decoding the signing key, the artifact inventory behind readiness, the probes, the build's
    identity, and draining the workers at shutdown as interleaved steps. *)
From stdpp Require Import base tactics option list strings numbers gmap relations.
From Stdlib Require Import ZArith Lia Ascii String.
From S2P Require Import Prelude GoText GoFloat Paths FileSystem ShareStore Scheduler Metrics.

#[local] Open Scope string_scope.

(** * decodePrivateKey *)

(** [strings.ReplaceAll] of a backslash and an n by a line break, when there is one. *)
Fixpoint unescape_newlines (s : string) : string :=
  match s with
  | String c r =>
      match r with
      | String d r' => if Ascii.eqb c "\" && Ascii.eqb d "n" then String (char 10) (unescape_newlines r')
                       else String c (unescape_newlines r)
      | "" => s
      end
  | "" => ""
  end.
Definition normalizePEMEnv (raw : string) : string := if GoText.contains "\n" raw then unescape_newlines raw else raw.

Definition PrivateKeySize : Z := 64.
Definition SeedSize : Z := 32.

Section Key.
(** [pem.Decode], the block's bytes; [x509.ParsePKCS8PrivateKey], [None] for a key of another
    algorithm; [ed25519.NewKeyFromSeed]. *)
Context (pem_decode : string -> option bytes) (parse_pkcs8 : bytes -> res (option bytes)) (key_of_seed : bytes -> bytes).

Definition decodePrivateKey (raw : string) : res bytes :=
  let trimmed := trim_space raw in
  if trimmed =s "" then Fail (ENew "private key is empty")
  else match pem_decode (normalizePEMEnv trimmed) with
  | Some block =>
      match parse_pkcs8 block with
      | Fail err => Fail (EWrap "private key PEM must be valid PKCS#8" err)
      | Ok None => Fail (ENew "private key PEM must contain Ed25519 private key")
      | Ok (Some key) => Ok key
      end
  | None =>
      raw ← match hex_decode trimmed with
            | Some raw => Ok raw
            | None => of_option (b64_decode b64_std false trimmed) (ENew "private key must be PEM, hex or base64")
            end;
      if (zlen raw =? PrivateKeySize)%Z then Ok raw
      else if (zlen raw =? SeedSize)%Z then Ok (key_of_seed raw)
      else Fail (ENew "private key length")
  end.
End Key.

(** * artifactInventory *)

(** A directory entry: its name and what [entry.Info()] says (a regular file, its size, its
    modification time). *)
Record dirent := { de_name : string; de_info : res (bool * Z * time) }.
Record inventory := { iv_files : Z; iv_temporary : Z; iv_bytes : Z; iv_oldest : time }.

Definition is_artifact_name (name : string) : bool := has_suffix ".primary.json" name || has_suffix ".recovery.json" name.
Definition count_entry (name : string) (regular : bool) (size : Z) (mtime : time) (acc : inventory) : inventory :=
  if name =s ".co-signer.lock" then acc
  else if has_prefix "." name
  then {| iv_files := iv_files acc; iv_temporary := u64 (iv_temporary acc + 1); iv_bytes := iv_bytes acc;
          iv_oldest := iv_oldest acc |}
  else if negb regular || negb (is_artifact_name name) then acc
  else {| iv_files := u64 (iv_files acc + 1); iv_temporary := iv_temporary acc;
          iv_bytes := u64 (iv_bytes acc + u64 size);
          iv_oldest := if time_is_zero (iv_oldest acc) || time_before mtime (iv_oldest acc) then mtime
                       else iv_oldest acc |}.
Fixpoint inventory_entries (entries : list dirent) (acc : inventory) : res inventory :=
  match entries with
  | [] => Ok acc
  | e :: entries =>
      '(regular, size, mtime) ← de_info e;
      inventory_entries entries (count_entry (Base (de_name e)) regular size mtime acc)
  end.
Fixpoint inventory_directories (ReadDir : string -> res (list dirent)) (directories : list string) (acc : inventory)
    : res inventory :=
  match directories with
  | [] => Ok acc
  | directory :: directories =>
      entries ← ReadDir directory;
      acc ← inventory_entries entries acc;
      inventory_directories ReadDir directories acc
  end.

Definition empty_inventory : inventory := {| iv_files := 0; iv_temporary := 0; iv_bytes := 0; iv_oldest := zero_time |}.
(** [Duration.Seconds()]. *)
Definition Seconds (d : duration) : float64 :=
  float_add (float_of (Z.quot d second)) (float_div (float_of (Z.rem d second)) (float_of second)).
(** The age as a duration, before it becomes a number of seconds: the conversion keeps signs. *)
Definition oldest_age (now oldest : time) : duration :=
  if time_is_zero oldest then 0%Z else Z.max 0 (time_sub now oldest).
Definition artifactInventory (ReadDir : string -> res (list dirent)) (now : time) (directories : list string)
    : res (Z * Z * Z * duration) :=
  acc ← inventory_directories ReadDir directories empty_inventory;
  Ok (iv_files acc, iv_temporary acc, iv_bytes acc, oldest_age now (iv_oldest acc)).

(** [filesystemFreeBytes]; [statfs] gives the blocks available and the block size. *)
Definition filesystemFreeBytes (statfs : string -> res (Z * Z)) (path : string) : res Z :=
  '(bavail, bsize) ← statfs path;
  let blocks := u64 bavail in let blockSize := u64 bsize in
  if negb (blocks =? 0)%Z && (max_uint64 / blocks <? blockSize)%Z then Ok max_uint64
  else Ok (u64 (blocks * blockSize)).

(** * Readiness *)

Definition observeArtifactCapacity (ReadDir : string -> res (list dirent)) (now : time) (directories : list string)
    (freeSpace : option (string -> res Z)) (r : Registry) : res unit * Registry :=
  match artifactInventory ReadDir now directories with
  | Fail err => (Fail err, r)
  | Ok (files, temporary, bytes, oldest) =>
      let observe free :=
        ObserveArtifactInventory (float_of files) (float_of temporary) (float_of bytes) (Seconds oldest) (float_of free) in
      let r := observe 0%Z r in
      match freeSpace with
      | None => (Ok (), r)
      | Some freeSpace =>
          (Ok (), fold_left (fun r directory => match freeSpace directory with
                                                | Ok available => observe available r
                                                | Fail _ => r
                                                end) directories r)
      end
  end.

(** [probeArtifactStores]: the second probe is made only when the first works; each has its own
    context and random name. *)
Definition probeArtifactStores (primary recovery : option Store) (ctxErr1 ctxErr2 : option error)
    (entropy1 entropy2 : res bytes) : M unit :=
  match primary, recovery with
  | Some primary, Some recovery =>
      _ ← wrapped "primary artifact store capability" (ProbePublishCapability primary ctxErr1 entropy1);
      wrapped "recovery artifact store capability" (ProbePublishCapability recovery ctxErr2 entropy2)
  | _, _ => throw (ENew "both artifact store capabilities are required")
  end.

Definition dkgProvisioningAdmissionHint (hint : option bool) : bool := default false hint.

(** [provisioningReadiness]; [hint] is [AdmissionHint] of the controller, if there is one. *)
Definition provisioningReadiness (ReadDir : string -> res (list dirent)) (now : time) (directories : list string)
    (freeSpace : option (string -> res Z)) (provisioningCapabilityErr : option error) (hint : option bool)
    (primary recovery : option Store) (entropy1 entropy2 : res bytes) (r : Registry) : M (bool * Registry) :=
  match provisioningCapabilityErr with
  | Some _ => mret (false, r)
  | None =>
      probe ← attempt (probeArtifactStores primary recovery None None entropy1 entropy2);
      match probe with
      | Fail _ => mret (false, r)
      | Ok _ =>
          let '(capacity, r) := observeArtifactCapacity ReadDir now directories freeSpace r in
          match capacity with
          | Fail _ => mret (false, r)
          | Ok _ => mret (dkgProvisioningAdmissionHint hint, r)
          end
      end
  end.

(** [staticInspectionPreflight.Check]. *)
Definition staticInspectionPreflight_Check (err ctxErr : option error) : option error :=
  match ctxErr with Some e => Some e | None => err end.

(** * build_identity.go *)

Record buildIdentity := { bi_version : string; bi_revision : string }.
(** [debug.BuildInfo]: the main module's version and the settings. *)
Record BuildInfo := { in_MainVersion : string; in_Settings : list (string * string) }.
Definition localRevisionLength : nat := 12.

Definition resolveBuildIdentity (configuredVersion configuredRevision vcsRevision : string) (vcsModified : bool) : buildIdentity :=
  let revision := if (configuredRevision =s "unknown") && (vcsRevision <>s "") then vcsRevision else configuredRevision in
  if (configuredVersion <>s "dev") || (revision =s "unknown")
  then {| bi_version := configuredVersion; bi_revision := revision |}
  else
    let short := if (localRevisionLength <? String.length revision)%nat then str_take localRevisionLength revision else revision in
    {| bi_version := "dev+" ++ short ++ (if vcsModified then ".dirty" else ""); bi_revision := revision |}.

(** The last setting of a key counts. *)
Definition setting_step (acc : string * bool) (setting : string * string) : string * bool :=
  if setting.1 =s "vcs.revision" then (setting.2, acc.2)
  else if setting.1 =s "vcs.modified" then (acc.1, setting.2 =s "true") else acc.
Definition resolveCurrentBuildIdentity (configuredVersion configuredRevision : string) (info : option BuildInfo) : buildIdentity :=
  match info with
  | Some info =>
      if in_MainVersion info <>s "(devel)"
      then {| bi_version := configuredVersion; bi_revision := configuredRevision |}
      else
        let '(vcsRevision, vcsModified) := fold_left setting_step (in_Settings info) ("", false) in
        resolveBuildIdentity configuredVersion configuredRevision vcsRevision vcsModified
  | None => {| bi_version := configuredVersion; bi_revision := configuredRevision |}
  end.

(** * drainWorkers *)

(** The scheduler's general permits while the drain takes them: how many tokens workers hold
    and the drain has sent, whether its context is done, and what it returned. *)
Record drain := {
  dr_pool : permitPool; dr_workers : nat; dr_sent : nat; dr_ctx : option error; dr_result : option (option error);
}.
(** [drainWorkers] starts with workers in the pool; a nil channel returns at once. *)
Definition drain_start (pool : permitPool) : drain :=
  {| dr_pool := pool; dr_workers := pool_slots pool; dr_sent := 0; dr_ctx := None; dr_result := None |}.
Definition drain_nil : option error := None.

Inductive drain_step : drain -> drain -> Prop :=
  | worker_releases pool workers sent ctx result :
      drain_step {| dr_pool := pool; dr_workers := S workers; dr_sent := sent; dr_ctx := ctx; dr_result := result |}
                 {| dr_pool := give_back pool; dr_workers := workers; dr_sent := sent; dr_ctx := ctx; dr_result := result |}
  | worker_acquires pool pool' workers sent ctx result :
      tryAcquire pool = Some pool' ->
      drain_step {| dr_pool := pool; dr_workers := workers; dr_sent := sent; dr_ctx := ctx; dr_result := result |}
                 {| dr_pool := pool'; dr_workers := S workers; dr_sent := sent; dr_ctx := ctx; dr_result := result |}
  | context_done pool workers sent e result :
      drain_step {| dr_pool := pool; dr_workers := workers; dr_sent := sent; dr_ctx := None; dr_result := result |}
                 {| dr_pool := pool; dr_workers := workers; dr_sent := sent; dr_ctx := Some e; dr_result := result |}
  | drain_sends pool pool' workers sent ctx :
      (sent < pool_capacity pool)%nat -> tryAcquire pool = Some pool' ->
      drain_step {| dr_pool := pool; dr_workers := workers; dr_sent := sent; dr_ctx := ctx; dr_result := None |}
                 {| dr_pool := pool'; dr_workers := workers; dr_sent := S sent; dr_ctx := ctx; dr_result := None |}
  | drain_gives_up pool workers sent e :
      (sent < pool_capacity pool)%nat ->
      drain_step {| dr_pool := pool; dr_workers := workers; dr_sent := sent; dr_ctx := Some e; dr_result := None |}
                 {| dr_pool := pool; dr_workers := workers; dr_sent := sent; dr_ctx := Some e; dr_result := Some (Some e) |}
  | drain_returns pool workers ctx :
      drain_step {| dr_pool := pool; dr_workers := workers; dr_sent := pool_capacity pool; dr_ctx := ctx; dr_result := None |}
                 {| dr_pool := pool; dr_workers := workers; dr_sent := pool_capacity pool; dr_ctx := ctx; dr_result := Some None |}.
