(* ===== verification/StartupProofs.v ===== *)
(** Proofs about the startup helpers: the encodings of the signing key, the inventory as
    counts, saturation of the free space, what readiness requires, and that a drained pool has
    no workers. *)
From stdpp Require Import base tactics option list strings numbers gmap relations.
From Stdlib Require Import ZArith Lia Ascii String.
From S2P Require Import Prelude GoText GoFloat Paths FileSystem Publish ShareStore Scheduler SchedulerProofs Metrics Startup.

#[local] Open Scope string_scope.

(** * The signing key *)

Lemma str_forall_impl (p q : ascii -> bool) s :
  (forall c, p c = true -> q c = true) -> str_forall p s = true -> str_forall q s = true.
Proof. intros Hpq. induction s as [|c s IH]; cbn; [done|]. intros [Hc Hs]%andb_true_iff. by rewrite Hpq, IH. Qed.

(** A text without a character does not contain a pattern that starts with it. *)
Lemma contains_first c p s : str_forall (fun d => negb (Ascii.eqb c d)) s = true -> GoText.contains (String c p) s = false.
Proof.
  induction s as [|d s IH]; cbn [str_forall GoText.contains]; intros Hs; apply orb_false_iff.
  - split; [|done]. unfold has_prefix. apply bool_decide_eq_false. cbn. by intros [? ?].
  - apply andb_true_iff in Hs as [Hd Hs]. split; [|by apply IH].
    unfold has_prefix. apply bool_decide_eq_false. cbn. apply negb_true_iff in Hd. rewrite Hd. by intros [? ?].
Qed.

Lemma hex_digit_forall (p : ascii -> bool) s :
  (forall n, (n < 16)%N -> p (hex_digit n) = true) -> str_forall p (hex_encode s) = true.
Proof.
  intros Hp. induction s as [|c s IH]; cbn; [done|]. pose proof (code_bound c).
  by rewrite !Hp, IH by (apply N.mod_lt || apply N.Div0.div_lt_upper_bound; lia).
Qed.

Lemma string_ind2 (P : string -> Prop) :
  P "" -> (forall a, P (String a "")) -> (forall a b r, P r -> P (String a (String b r))) -> forall s, P s.
Proof.
  intros H0 H1 H2. enough (Hp : forall s, P s /\ forall a, P (String a s)) by apply Hp.
  induction s as [|a s [IH1 IH2]]; split; auto.
Qed.

(** Padded base64 that ends in padding is not hexadecimal. *)
Lemma hex_decode_alphabet s b : hex_decode s = Some b -> str_forall (fun c => negb (Ascii.eqb "=" c)) s = true.
Proof.
  revert b. assert (Hv : forall c n, hex_value c = Some n -> negb (Ascii.eqb "=" c) = true).
  { intros c n Hc. destruct (Ascii.eqb_spec "=" c) as [<-|]; [vm_compute in Hc|]; done. }
  induction s as [|c|c d s IH] using string_ind2; intros b Hb; [done|done|]. cbn [hex_decode] in Hb. cbn [str_forall].
  destruct (hex_value c) eqn:Ec; [|done]. destruct (hex_value d) eqn:Ed; [|done]. cbn in Hb.
  destruct (hex_decode s) eqn:Es; [|done]. by rewrite (Hv _ _ Ec), (Hv _ _ Ed), (IH _ eq_refl).
Qed.

Lemma b64_padding s : (String.length s mod 3 <> 0)%nat ->
  str_forall (fun c => negb (Ascii.eqb "=" c)) (b64_encode b64_std s) = false.
Proof.
  induction s as [|a|a b|a b c r IH] using string_ind3; intros Hl; [done|..]; cbn [b64_encode].
  - unfold pad. cbn. by rewrite !andb_false_r.
  - unfold pad. cbn. by rewrite !andb_false_r.
  - cbn [str_forall]. rewrite IH; [by rewrite !andb_false_r|].
    cbn [String.length] in Hl. replace (S (S (S (String.length r)))) with (String.length r + 1 * 3)%nat in Hl by lia.
    by rewrite Nat.Div0.mod_add in Hl.
Qed.

Lemma b64_std_forall (p : ascii -> bool) s :
  p "="%char = true -> forallb (fun n => p (b64_char b64_std n)) (map N.of_nat (seq 0 64)) = true ->
  str_forall p (b64_encode b64_std s) = true.
Proof. intros Hp Hn. apply b64_encode_forall; [done|]. exact (forallb_below _ 64 Hn). Qed.

Section Key.
Context (pem_decode : string -> option bytes) (parse_pkcs8 : bytes -> res (option bytes)) (key_of_seed : bytes -> bytes).
(** [pem.Decode] finds no block in a text without a dash. *)
Hypothesis no_dash_no_block :
  forall text, str_forall (fun c => negb (Ascii.eqb "-" c)) text = true -> pem_decode text = None.

(** The text forms of a key, whatever white space surrounds them. *)
Definition key_text (key raw : string) : Prop :=
  trim_space raw = hex_encode key \/ trim_space raw = b64_encode b64_std key.

Lemma key_text_plain key text : text = hex_encode key \/ text = b64_encode b64_std key ->
  str_forall (fun c => negb (Ascii.eqb "-" c) && negb (Ascii.eqb "\" c)) text = true.
Proof.
  intros [->| ->]; [|by apply b64_std_forall; vm_compute].
  apply hex_digit_forall. intros n Hn. revert n Hn.
  apply (forallb_below (fun n => negb (Ascii.eqb "-" (hex_digit n)) && negb (Ascii.eqb "\" (hex_digit n))) 16).
  by vm_compute.
Qed.
Lemma normalize_plain text : str_forall (fun c => negb (Ascii.eqb "\" c)) text = true -> normalizePEMEnv text = text.
Proof. intros Ht. unfold normalizePEMEnv. by rewrite (contains_first "\" "n" text Ht). Qed.

(** The signing key survives its text forms.  Hexadecimal or base64 of a 64-byte key, in
    any white space, decodes to that key, and of a 32-byte seed to the seed's key: neither form
    is ever taken for the other or for PEM.  Anything that decodes to another length is
    refused. *)
Theorem decodePrivateKey_roundtrip key raw :
  key_text key raw -> (String.length key mod 3 <> 0)%nat ->
  let decoded := decodePrivateKey pem_decode parse_pkcs8 key_of_seed raw in
  (zlen key = 64%Z -> decoded = Ok key)
  /\ (zlen key = 32%Z -> decoded = Ok (key_of_seed key))
  /\ (zlen key <> 64%Z -> zlen key <> 32%Z -> is_ok decoded = false).
Proof.
  intros Hk Hl decoded. subst decoded. unfold key_text, decodePrivateKey in *. cbv zeta.
  set (text := trim_space raw) in *. clearbody text. pose proof (key_text_plain key text Hk) as Hp.
  assert (Hn : text <> "").
  { intros ->. destruct key as [|a [|b [|c key]]]; [by apply Hl| | |]; destruct Hk as [Hk|Hk]; cbn in Hk; unfold pad in Hk; cbn in Hk; discriminate Hk. }
  rewrite normalize_plain, no_dash_no_block by (eapply str_forall_impl; [|exact Hp]; by intros c [? ?]%andb_true_iff).
  assert ((text =s "") = false) as -> by (by apply String.eqb_neq).
  assert (match hex_decode text with
          | Some raw => Ok raw
          | None => of_option (b64_decode b64_std false text) (ENew "private key must be PEM, hex or base64")
          end = Ok key) as ->.
  { destruct Hk as [->| ->]; [by rewrite hex_decode_encode|].
    destruct (hex_decode (b64_encode b64_std key)) eqn:E.
    - apply hex_decode_alphabet in E. by rewrite b64_padding in E.
    - by rewrite (b64_decode_encode b64_std b64_std_ok). }
  cbn. unfold PrivateKeySize, SeedSize. split_and!.
  - by intros ->.
  - by intros ->.
  - intros ?%Z.eqb_neq ?%Z.eqb_neq. by rewrite H, H0.
Qed.
End Key.

Definition toy_pem (text : string) : option bytes := if GoText.contains "-----BEGIN" text then Some "" else None.
Lemma decodePrivateKey_roundtrip_witness :
  let key := "0123456789abcdef0123456789abcdef0123456789abcdef0123456789abcdef" in
  let raw := "  " ++ b64_encode b64_std key ++ String (char 10) "" in
  trim_space raw = b64_encode b64_std key
  /\ decodePrivateKey toy_pem (fun _ => Fail (ENew "no key")) (fun seed => seed) raw = Ok key.
Proof.
  intros key raw. assert (Ht : trim_space raw = b64_encode b64_std key) by (vm_compute; reflexivity).
  split; [exact Ht|].
  assert (Hpem : forall text, str_forall (fun c => negb (Ascii.eqb "-" c)) text = true -> toy_pem text = None).
  { intros text Hd. unfold toy_pem. by rewrite (contains_first "-" "----BEGIN" text Hd). }
  assert (Hl : (String.length key mod 3 <> 0)%nat) by (vm_compute; discriminate).
  destruct (decodePrivateKey_roundtrip toy_pem (fun _ => Fail (ENew "no key")) (fun seed => seed) Hpem key raw
              (or_intror Ht) Hl) as (H64 & _ & _).
  apply H64. vm_compute. reflexivity.
Defined.

(** * The inventory *)

(** What an entry counts as. *)
Definition ignored (e : dirent) : bool := Base (de_name e) =s ".co-signer.lock".
Definition is_temporary (e : dirent) : bool := negb (ignored e) && has_prefix "." (Base (de_name e)).
Definition info_of (e : dirent) : bool * Z * time :=
  match de_info e with Ok info => info | Fail _ => (false, 0%Z, zero_time) end.
Definition is_artifact (e : dirent) : bool :=
  negb (ignored e) && negb (has_prefix "." (Base (de_name e))) && (info_of e).1.1 && is_artifact_name (Base (de_name e)).
Definition artifacts (entries : list dirent) : list dirent := List.filter is_artifact entries.
Definition sum_sizes (entries : list dirent) : Z := foldr (fun e sum => u64 (info_of e).1.2 + sum)%Z 0%Z entries.
(** The earliest of some times, or the zero time. *)
Fixpoint earliest (times : list time) : time :=
  match times with
  | [] => zero_time
  | [t] => t
  | t :: times => Z.min t (earliest times)
  end.

(** A readable entry, last written after the zero time. *)
Definition readable (e : dirent) : Prop := is_ok (de_info e) = true /\ (zero_time < (info_of e).2)%Z.

Lemma u64_add a b : u64 (u64 a + b) = u64 (a + b).
Proof. unfold u64. by rewrite Zplus_mod_idemp_l. Qed.

(** One entry, as the counts see it. *)
Definition after (acc : inventory) (entries : list dirent) : inventory :=
  {| iv_files := u64 (iv_files acc + Z.of_nat (List.length (artifacts entries)));
     iv_temporary := u64 (iv_temporary acc + Z.of_nat (List.length (List.filter is_temporary entries)));
     iv_bytes := u64 (iv_bytes acc + sum_sizes (artifacts entries));
     iv_oldest := let times := map (fun e => (info_of e).2) (artifacts entries) in
                  earliest (if time_is_zero (iv_oldest acc) then times else iv_oldest acc :: times) |}.
Definition reduced (acc : inventory) : Prop :=
  u64 (iv_files acc) = iv_files acc /\ u64 (iv_temporary acc) = iv_temporary acc /\ u64 (iv_bytes acc) = iv_bytes acc.

Lemma earliest_min a b l : earliest (a :: b :: l) = earliest (Z.min a b :: l).
Proof. destruct l as [|c l]; cbn; [done|]. by rewrite Z.min_assoc. Qed.

(** The loop's body. *)
Definition count (acc : inventory) (e : dirent) : inventory :=
  let '(regular, size, mtime) := info_of e in count_entry (Base (de_name e)) regular size mtime acc.
Definition sane (acc : inventory) : Prop := reduced acc /\ (zero_time <= iv_oldest acc)%Z.

Lemma inventory_entries_count entries acc : Forall readable entries ->
  inventory_entries entries acc = Ok (fold_left count entries acc).
Proof.
  intros Hr. revert acc. induction Hr as [|e entries [He _] _ IH]; intros acc; [done|]. cbn [inventory_entries fold_left].
  unfold count at 2, info_of. destruct (de_info e) as [[[regular size] mtime]|]; [|done]. apply IH.
Qed.

Lemma count_sane acc e : sane acc -> readable e -> sane (count acc e).
Proof.
  intros [(Hf & Ht & Hb) Ho] [_ Hm]. unfold count. destruct (info_of e) as [[regular size] mtime]. cbn in Hm.
  unfold count_entry. repeat case_match; unfold sane, reduced; cbn; rewrite ?Hf, ?Ht, ?Hb; split_and!; try done;
    try apply Z.mod_mod; try lia.
Qed.

Lemma after_count acc e entries : sane acc -> readable e -> after (count acc e) entries = after acc (e :: entries).
Proof.
  intros [_ Ho] [_ Hm]. unfold after, count, artifacts, is_artifact, is_temporary, ignored. cbn [List.filter].
  destruct (info_of e) as [[regular size] mtime] eqn:Ei. cbn in Hm |- *. unfold count_entry.
  destruct (Base (de_name e) =s ".co-signer.lock"); [done|]. cbn [negb andb].
  destruct (has_prefix "." (Base (de_name e))); cbn [negb andb].
  { f_equal. cbn. rewrite u64_add. f_equal. lia. }
  destruct regular; cbn [negb andb orb]; [|done].
  destruct (is_artifact_name (Base (de_name e))); cbn [negb]; [|done].
  unfold after. cbn. rewrite Ei. cbn. f_equal; rewrite ?u64_add; try (f_equal; lia); [by rewrite <- Z.add_assoc|].
  destruct (time_is_zero (iv_oldest acc)) eqn:Ez; cbn [orb].
  - unfold time_is_zero. by assert ((mtime =? zero_time)%Z = false) as -> by (apply Z.eqb_neq; lia).
  - unfold time_is_zero, time_before in *. apply Z.eqb_neq in Ez. rewrite earliest_min.
    destruct (mtime <? iv_oldest acc)%Z eqn:Em; split_bools.
    + assert ((mtime =? zero_time)%Z = false) as -> by (apply Z.eqb_neq; lia). by rewrite Z.min_r by lia.
    + assert ((iv_oldest acc =? zero_time)%Z = false) as -> by (by apply Z.eqb_neq). by rewrite Z.min_l by lia.
Qed.
Lemma after_nil acc : sane acc -> after acc [] = acc.
Proof.
  intros [(Hf & Ht & Hb) _]. unfold after. cbn. rewrite !Z.add_0_r, Hf, Ht, Hb.
  destruct acc as [f t b o]; cbn in *. f_equal. destruct (time_is_zero o) eqn:E; [|done].
  unfold time_is_zero in E. split_bools. by subst.
Qed.
Lemma count_after entries acc : Forall readable entries -> sane acc -> fold_left count entries acc = after acc entries.
Proof.
  intros Hr. revert acc. induction Hr as [|e entries He _ IH]; intros acc Ha; cbn [fold_left]; [by rewrite after_nil|].
  rewrite IH by (by apply count_sane). by apply after_count.
Qed.

Lemma inventory_directories_count ReadDir entries_of directories acc :
  Forall (fun d => ReadDir d = Ok (entries_of d) /\ Forall readable (entries_of d)) directories ->
  inventory_directories ReadDir directories acc = Ok (fold_left count (directories ≫= entries_of) acc).
Proof.
  intros Hd. revert acc. induction Hd as [|d directories [Hd Hr] _ IH]; intros acc; [done|].
  cbn [inventory_directories mbind list_bind]. rewrite Hd. cbn.
  rewrite inventory_entries_count by done. cbn. rewrite IH, fold_left_app. done.
Qed.

(** The inventory is aggregate counts.  Over readable directories it returns the number of
    artifact files, the number of temporary files and the artifacts' total size, each modulo
    2^64, and the age of the oldest artifact, never negative and zero without one; a directory
    that cannot be read, or an entry without information, is an error. *)
Theorem artifactInventory_spec ReadDir entries_of now directories :
  (Forall (fun d => ReadDir d = Ok (entries_of d) /\ Forall readable (entries_of d)) directories ->
   let entries := directories ≫= entries_of in
   artifactInventory ReadDir now directories
   = Ok (u64 (Z.of_nat (List.length (artifacts entries))), u64 (Z.of_nat (List.length (List.filter is_temporary entries))),
         u64 (sum_sizes (artifacts entries)),
         oldest_age now (earliest (map (fun e => (info_of e).2) (artifacts entries)))))
  /\ (List.Exists (fun d => is_ok (ReadDir d) = false
                       \/ exists entries, ReadDir d = Ok entries /\ List.Exists (fun e => is_ok (de_info e) = false) entries)
        directories ->
      is_ok (artifactInventory ReadDir now directories) = false).
Proof.
  split.
  - intros Hd entries. unfold artifactInventory. rewrite (inventory_directories_count _ _ _ _ Hd). cbn.
    rewrite count_after; [done| |by split_and!].
    apply Forall_bind. eapply Forall_impl; [exact Hd|]. by intros d [_ Hr].
  - intros Hx. unfold artifactInventory. generalize empty_inventory as acc.
    assert (He : forall entries acc, List.Exists (fun e => is_ok (de_info e) = false) entries ->
              is_ok (inventory_entries entries acc) = false).
    { intros entries acc Hex. revert acc. induction Hex as [e entries Hi|e entries _ IH]; intros acc; cbn.
      - by destruct (de_info e).
      - destruct (de_info e) as [[[regular size] mtime]|]; [apply IH|done]. }
    induction Hx as [d directories Hd|d directories _ IH]; intros acc; cbn [inventory_directories].
    + destruct Hd as [Hd|(entries & Hd & Hi)]; [by destruct (ReadDir d)|]. rewrite Hd. cbn.
      specialize (He entries acc Hi). by destruct (inventory_entries entries acc).
    + destruct (ReadDir d) as [entries|]; [|done]. cbn. destruct (inventory_entries entries acc) as [acc'|]; [|done].
      cbn. apply IH.
Qed.

Definition demo_entry (name : string) (size : Z) : dirent := {| de_name := name; de_info := Ok (true, size, 7%Z) |}.
Definition demo_entries (directory : string) : list dirent :=
  [demo_entry "a.primary.json" 10; demo_entry ".tmp-1" 3; demo_entry ".co-signer.lock" 0; demo_entry "notes.txt" 5].
Lemma artifactInventory_spec_witness :
  artifactInventory (fun d => Ok (demo_entries d)) 20 ["/p"; "/r"] = Ok (2, 2, 20, 13)%Z
  /\ is_ok (artifactInventory (fun d => Fail (ESent ErrNotExist)) 20 ["/p"]) = false.
Proof.
  assert (Hr : Forall (fun d => Ok (demo_entries d) = Ok (demo_entries d) /\ Forall readable (demo_entries d)) ["/p"; "/r"])
    by (repeat constructor; vm_compute; reflexivity).
  split.
  - rewrite (proj1 (artifactInventory_spec (fun d => Ok (demo_entries d)) demo_entries 20 ["/p"; "/r"]) Hr).
    vm_compute. reflexivity.
  - apply (proj2 (artifactInventory_spec (fun d => Fail (ESent ErrNotExist)) demo_entries 20 ["/p"])).
    apply List.Exists_cons_hd. left. reflexivity.
Defined.

(** Free space saturates: the product of the two 64-bit counts, or the largest value. *)
Theorem filesystemFreeBytes_saturates statfs path bavail bsize :
  statfs path = Ok (bavail, bsize) ->
  filesystemFreeBytes statfs path = Ok (Z.min (u64 bavail * u64 bsize) max_uint64).
Proof.
  intros Hs. unfold filesystemFreeBytes. rewrite Hs. cbn [mbind res_bind]. cbv zeta.
  pose proof (u64_range bavail) as Ha. pose proof (u64_range bsize) as Hb.
  generalize dependent (u64 bavail). generalize dependent (u64 bsize). intros size Hb blocks Ha.
  unfold max_uint64 in *. destruct (Z.eqb_spec blocks 0) as [->|Hn]; [done|]. cbn [negb andb].
  destruct (Z.ltb_spec ((2 ^ 64 - 1) / blocks) size) as [Hlt|Hge]; f_equal.
  - symmetry. apply Z.min_r. pose proof (Z.mul_succ_div_gt (2 ^ 64 - 1) blocks). nia.
  - rewrite Z.min_l; [apply u64_small|]; nia.
Qed.

(** * Readiness *)

(** Provisioning is ready only when nothing was missing at startup, both stores pass their
    probe now, the directories can be listed, and the controller hints at admission. *)
Theorem provisioningReadiness_requires ReadDir now directories freeSpace capabilityErr hint primary recovery e1 e2 r w r' w' :
  provisioningReadiness ReadDir now directories freeSpace capabilityErr hint primary recovery e1 e2 r w = (Ok (true, r'), w') ->
  capabilityErr = None /\ hint = Some true /\ is_ok (artifactInventory ReadDir now directories) = true
  /\ (exists u, probeArtifactStores primary recovery None None e1 e2 w = (Ok u, w')).
Proof.
  unfold provisioningReadiness. destruct capabilityErr; [by intros [=]|]. intros Hr.
  unfold attempt, mbind, M_bind in Hr. destruct (probeArtifactStores _ _ _ _ _ _ w) as [[u|e] w1] eqn:Hp; [|by inversion Hr].
  unfold observeArtifactCapacity in Hr. destruct (artifactInventory _ _ _) as [[[[f t] b] o]|]; [|by inversion Hr].
  destruct hint as [hint|]; destruct freeSpace; cbn in Hr; inversion Hr; subst; split_and!; eauto.
Qed.

(** * The build's identity *)

(** A configured version is kept, and so is a development build without a revision; otherwise
    the version names the revision, cut to twelve bytes, and whether the tree was modified. *)
Theorem resolveBuildIdentity_spec version revision vcs modified :
  let identity := resolveBuildIdentity version revision vcs modified in
  bi_revision identity = (if (revision =s "unknown") && (vcs <>s "") then vcs else revision)
  /\ bi_version identity
     = (if (version =s "dev") && (bi_revision identity <>s "unknown")
        then "dev+" ++ str_take 12 (bi_revision identity) ++ (if modified then ".dirty" else "") else version).
Proof.
  intros identity. assert (Hrev : bi_revision identity = (if (revision =s "unknown") && (vcs <>s "") then vcs else revision)).
  { subst identity. unfold resolveBuildIdentity. cbv zeta. by destruct (_ || _). }
  split; [done|]. rewrite Hrev. subst identity. unfold resolveBuildIdentity. cbv zeta.
  generalize (if (revision =s "unknown") && (vcs <>s "") then vcs else revision) as rev. intros rev. clear Hrev.
  assert (Ht : (if (localRevisionLength <? String.length rev)%nat then str_take localRevisionLength rev else rev) = str_take 12 rev).
  { unfold localRevisionLength. destruct (12 <? String.length rev)%nat eqn:E; [done|]. apply Nat.ltb_ge in E.
    revert E. generalize 12%nat as n. induction rev as [|c rev IH]; intros [|n] E; cbn in *; try done; [lia|].
    by rewrite <- IH by lia. }
  rewrite Ht. by destruct (version =s "dev"), (rev =s "unknown").
Qed.

(** * Draining the workers *)

(** The tokens in the pool are the workers' and the drain's. *)
Definition drain_inv (s : drain) : Prop :=
  pool_slots (dr_pool s) = (dr_workers s + dr_sent s)%nat
  /\ (pool_slots (dr_pool s) <= pool_capacity (dr_pool s))%nat
  /\ (dr_result s = Some None -> dr_sent s = pool_capacity (dr_pool s))
  /\ (forall e, dr_result s = Some (Some e) -> dr_ctx s = Some e).

Lemma drain_step_inv s t : drain_step s t -> drain_inv s -> drain_inv t.
Proof.
  intros [] (Hs & Hc & Hr & He); unfold drain_inv in *; cbn in *;
    try match goal with Ha : tryAcquire _ = _ |- _ => apply tryAcquire_Some in Ha as (Hsl & Hcap & ?); rewrite Hcap, Hsl end;
    split_and!; try done; try lia; try (intros Hres; specialize (Hr Hres); lia); try (intros ? [= <-]; done).
  intros e' Hres. specialize (He _ Hres). done.
Qed.

Lemma drain_can_send pool sent ctx k :
  (pool_slots pool = sent)%nat -> (sent + k = pool_capacity pool)%nat ->
  exists t, rtc drain_step
    {| dr_pool := pool; dr_workers := 0; dr_sent := sent; dr_ctx := ctx; dr_result := None |} t /\ dr_result t = Some None.
Proof.
  revert pool sent. induction k as [|k IH]; intros pool sent Hs Hk.
  - eexists. split; [eapply rtc_once|]; [|shelve]. assert (sent = pool_capacity pool) as -> by lia. apply drain_returns.
    Unshelve. done.
  - destruct (tryAcquire pool) as [pool'|] eqn:Ha.
    + destruct (tryAcquire_Some _ _ Ha) as (Hsl & Hcap & Hlt). destruct (IH pool' (S sent)) as (t & Ht & Hres); [lia|lia|].
      exists t. split; [|done]. eapply rtc_l; [|exact Ht]. apply drain_sends; [lia|done].
    + unfold tryAcquire in Ha. destruct (_ <? _)%nat eqn:E; [done|]. apply Nat.ltb_ge in E. lia.
Qed.
Lemma drain_can_return s : drain_inv s -> dr_result s = None -> exists t, rtc drain_step s t /\ dr_result t = Some None.
Proof.
  destruct s as [pool workers sent ctx result]. revert pool. induction workers as [|workers IH]; intros pool Hi Hr.
  - destruct Hi as (Hs & Hc & _). cbn in *. subst result.
    apply (drain_can_send pool sent ctx (pool_capacity pool - sent)); lia.
  - assert (Hst := worker_releases pool workers sent ctx result).
    destruct (IH (give_back pool)) as (t & Ht & Hres); [by eapply drain_step_inv|done|].
    exists t. split; [|done]. by eapply rtc_l.
Qed.

(** (C38) A drained pool has no workers.  When the drain returns without error it holds every
    permit, so no session runs and none can start, then and ever after; until it returns it
    can, as soon as the workers release theirs; and an error is the one of its context. *)
Theorem drain_exclusive pool s :
  (pool_slots pool <= pool_capacity pool)%nat -> rtc drain_step (drain_start pool) s ->
  (dr_result s = Some None -> dr_workers s = 0%nat /\ tryAcquire (dr_pool s) = None)
  /\ (dr_result s = None -> exists t, rtc drain_step s t /\ dr_result t = Some None)
  /\ (forall e, dr_result s = Some (Some e) -> dr_ctx s = Some e).
Proof.
  intros Hp Hs. assert (Hi : drain_inv s).
  { assert (H0 : drain_inv (drain_start pool)) by (unfold drain_inv; cbn; split_and!; [lia|done..]).
    clear Hp. induction Hs as [|x y z Hxy _ IH]; [done|]. by eapply IH, drain_step_inv. }
  pose proof Hi as (Hsl & Hc & Hr & He). split_and!; [|by apply drain_can_return|done].
  intros Hres. specialize (Hr Hres). split; [lia|]. unfold tryAcquire.
  by assert ((pool_slots (dr_pool s) <? pool_capacity (dr_pool s))%nat = false) as -> by (apply Nat.ltb_ge; lia).
Qed.
Lemma drain_exclusive_witness :
  exists s, rtc drain_step (drain_start {| pool_capacity := 2; pool_slots := 1 |}) s /\ dr_result s = Some None
  /\ dr_workers s = 0%nat.
Proof.
  assert (H0 : (1 <= 2)%nat) by lia.
  destruct (drain_exclusive {| pool_capacity := 2; pool_slots := 1 |} _ H0 (rtc_refl _ _)) as (_ & Hcan & _).
  destruct (Hcan eq_refl) as (s & Hs & Hres). exists s. split; [exact Hs|split; [exact Hres|]].
  destruct (drain_exclusive {| pool_capacity := 2; pool_slots := 1 |} s H0 Hs) as (Hnil & _ & _).
  exact (proj1 (Hnil Hres)).
Defined.
