(* ===== verification/Resources.v ===== *)
(** [cmd/co-signer]: opening, running and closing the resources of the process (resources.go)
    and the order of its start and end (main.go), with the clean-up of everything that was
    opened when a later step fails. *)
From stdpp Require Import base tactics option list strings numbers gmap relations.
From Stdlib Require Import ZArith Lia Ascii String.
From S2P Require Import Prelude GoText GoFloat Paths Externals ApprovalWire SigningPolicy FileSystem Publish Journal JournalProofs JournalInit GoTime ShareStore Terminal Scheduler Dispatcher Config Dkg Preparams Startup.

#[local] Open Scope string_scope.

(** * The process while it opens *)

(** The calls whose effect outlives a step: the core's pool of pre-parameters, and the
    journal with its lock. *)
Inductive acall := StartPool | StopPool | OpenedJournal | ClosedJournal.
#[global] Instance acall_eq_dec : EqDecision acall.
Proof. solve_decision. Defined.

Record app := { ap_world : world; ap_calls : list acall }.
Definition A (X : Type) : Type := app -> res X * app.
#[global] Instance A_ret : MRet A := fun X x s => (Ok x, s).
#[global] Instance A_bind : MBind A := fun X Y f m s =>
  match m s with
  | (Ok x, s) => f x s
  | (Fail e, s) => (Fail e, s)
  end.
Definition on_world {X} (m : M X) : A X := fun s =>
  let '(r, w) := m (ap_world s) in (r, {| ap_world := w; ap_calls := ap_calls s |}).
Definition pure {X} (r : res X) : A X := fun s => (r, s).
Definition call (c : acall) : A unit := fun s => (Ok (), {| ap_world := ap_world s; ap_calls := ap_calls s ++ [c] |}).
(** [defer func() { if returnErr != nil { cleanup } }()]; the clean-up's own error is dropped. *)
Definition on_failure {X} (cleanup : A unit) (m : A X) : A X := fun s =>
  match m s with
  | (Ok x, s) => (Ok x, s)
  | (Fail e, s) => let '(_, s) := cleanup s in (Fail e, s)
  end.

(** What the code outside says while the resources open: whether the platform can publish, the
    context and the random names of the probes, starting the pool, the journal's lock and the
    bytes of its identity.  The constructors check what they are given once more; whether the
    organization's configuration, the publisher, the clock and the reconciler's dependencies
    pass is left open too, so that the error paths after them are covered. *)
Record answers := {
  an_platform : platform; an_ctx1 : option error; an_ctx2 : option error; an_probe1 : res bytes; an_probe2 : res bytes;
  an_startPool : option error; an_flock : flock_result; an_identity : res bytes;
  an_external : res unit; an_publisher : bool; an_clock : bool; an_dependencies : bool;
}.

Record applicationResources := {
  rs_approvalJournal : Journal; rs_approvalDispatcher : Dispatcher; rs_scheduler : Scheduler;
  rs_startupPublisher : SingleSlot; rs_coordinator : DKGCoordinatorConfig;
  rs_primary : Store; rs_recovery : Store; rs_provisioningErr : option error; rs_background : nat;
}.

(** [reconcile.New] and [terminal.NewSingleSlot]: all they are given must be there. *)
Definition NewReconciler (clock dependencies : bool) : res unit :=
  if negb clock then Fail (ENew "reconciler clock is required")
  else ensure dependencies (ENew "reconciler dependencies are required").
Definition newStartupPublisher (publisher : bool) : res SingleSlot :=
  if publisher then Ok NewSingleSlot else Fail (ENew "single-slot terminal publisher requires a publisher").

(** [newDKGCoreService]: the profile of the pool; the core's constructor always gives a
    service. *)
Definition newDKGCoreService {B} (DefaultPreParamsConfig : PreParamsConfig B) (generationParallelism : Z)
    : res (PreParamsConfig B) := ProductionProfile DefaultPreParamsConfig generationParallelism.

Section Open.
Context `{Externals} {B : Type} (DefaultPreParamsConfig : PreParamsConfig B).

(** The journal is open from the moment [OpenManagedJournal] returns it. *)
Definition open_journal (cfg : Config) (a : answers) : A Journal :=
  journal ← on_world (openManagedJournal (cfg_JournalDir (co_Approval cfg)) (sc_directory (co_PrimaryStore cfg))
                        (cfg_AutoInitializeJournal (co_Approval cfg)) (an_flock a) (an_identity a));
  _ ← call OpenedJournal; mret journal.
Definition close_journal (journal : Journal) : A (Journal * option error) :=
  closed ← on_world (Close journal); _ ← call ClosedJournal; mret closed.
(** [journal.Close(); return err]. *)
Definition close_and_fail {X} (journal : Journal) (err : error) : A X := _ ← close_journal journal; pure (Fail err).

Definition start_dispatcher (a : Dispatcher.Config) (keyID : string) (key : bytes) (journal : Journal)
    (organization : bool) : A (Journal * Dispatcher) := fun s =>
  match NewDispatcher a keyID key (Some journal) true organization (ap_world s) with
  | Ok dispatcher => (Ok (journal, dispatcher), s)
  | Fail err => close_and_fail journal err s
  end.

(** The journal and the dispatcher over it; a loaded configuration always has an approval
    part.  [key] is the signing key; the backend client always exists. *)
Definition openApprovalWorker (cfg : Config) (key : bytes) (a : answers) : A (Journal * Dispatcher) :=
  _ ← pure (config_Validate (co_Approval cfg));
  let shares := filter (fun path => path <> "") [sc_directory (co_PrimaryStore cfg); sc_directory (co_RecoveryStore cfg)] in
  _ ← on_world (ValidateDirectories (cfg_JournalDir (co_Approval cfg)) shares);
  journal ← open_journal cfg a;
  organization ← (if cfg_Mode (co_Approval cfg) =s "external"
                  then match NewExternal (co_Approval cfg) (an_external a) with
                       | Ok _ => mret true
                       | Fail err => close_and_fail journal err
                       end
                  else mret false);
  start_dispatcher (co_Approval cfg) (co_APIKeyID cfg) key journal organization.

Definition open_stores (cfg : Config) (a : answers) : A (Store * Store * option error) :=
  '(primary, err) ← on_world (OpenStore true (co_PrimaryStore cfg) (an_platform a));
  primary ← pure (match err, primary with
                  | Some err, _ => Fail (EWrap "initialize primary artifact store" err)
                  | None, Some primary => Ok primary
                  | None, None => Fail (ENew "initialize primary artifact store")
                  end);
  '(recovery, recoveryErr) ← on_world (OpenStore true (co_RecoveryStore cfg) (an_platform a));
  recovery ← pure (match recovery with
                   | Some recovery => Ok recovery
                   | None => Fail (EWrap "initialize recovery artifact store" (default (ENew "") recoveryErr))
                   end);
  probe ← on_world (attempt (probeArtifactStores (Some primary) (Some recovery) (an_ctx1 a) (an_ctx2 a) (an_probe1 a) (an_probe2 a)));
  mret (primary, recovery, errors_join [recoveryErr; err_of probe]).

Definition openApplicationResources (cfg : Config) (key : bytes) (a : answers) : A applicationResources :=
  '(primary, recovery, storeErr) ← open_stores cfg a;
  _ ← pure (NewPrimaryReader (Some primary));
  _ ← pure (NewRoutingWriter primary recovery);
  _ ← pure (newDKGCoreService DefaultPreParamsConfig (co_PreParamsGenerationParallelism cfg));
  _ ← call StartPool;
  on_failure (call StopPool)
    (let provisioningErr := errors_join [storeErr; an_startPool a] in
     coordinator ← pure (NewDKGCoordinator true
                           {| dc_PlatformPartyID := "mpc-signer"; dc_PrimaryPartyID := sc_PartyID (co_PrimaryStore cfg);
                              dc_RecoveryPartyID := sc_PartyID (co_RecoveryStore cfg) |});
     '(journal, dispatcher) ← openApprovalWorker cfg key a;
     on_failure (_ ← close_journal journal; mret ())
       (startupPublisher ← pure (newStartupPublisher (an_publisher a));
        _ ← pure (NewReconciler (an_clock a) (an_dependencies a));
        mret {| rs_approvalJournal := journal; rs_approvalDispatcher := dispatcher;
                rs_scheduler := NewScheduler (co_MaxConcurrent cfg); rs_startupPublisher := startupPublisher;
                rs_coordinator := coordinator; rs_primary := primary; rs_recovery := recovery;
                rs_provisioningErr := provisioningErr;
                rs_background := match an_startPool a with None => 1 | Some _ => 0 end |})).
End Open.

(** * Background goroutines and [Close] *)

Definition with_background (n : nat) (r : applicationResources) : applicationResources := {|
  rs_approvalJournal := rs_approvalJournal r; rs_approvalDispatcher := rs_approvalDispatcher r;
  rs_scheduler := rs_scheduler r; rs_startupPublisher := rs_startupPublisher r; rs_coordinator := rs_coordinator r;
  rs_primary := rs_primary r; rs_recovery := rs_recovery r; rs_provisioningErr := rs_provisioningErr r;
  rs_background := n |}.
Definition startBackground (r : applicationResources) : applicationResources := with_background (S (rs_background r)) r.
(** The scheduler and the approval dispatcher. *)
Definition startScheduler (r : applicationResources) : applicationResources := startBackground (startBackground r).
(** [background.Done()] of a goroutine that returned. *)
Definition background_done (r : applicationResources) : applicationResources := with_background (pred (rs_background r)) r.

(** [Close] waits for the background goroutines, so it has an outcome only without any; then
    the journal is closed and the pool stopped, whatever the first says. *)
Definition resources_Close (r : applicationResources) (stopErr : option error) : option (A (Journal * option error)) :=
  if (0 <? rs_background r)%nat then None
  else Some ('(journal, journalErr) ← close_journal (rs_approvalJournal r);
             _ ← call StopPool;
             mret (journal, errors_join [journalErr; stopErr])).

(** The probes of the health server and of the lifecycle. *)
Definition signingReady (r : applicationResources) : M bool :=
  probe ← attempt (ProbeReadCapability (Some (rs_primary r))); mret (is_ok probe).
Definition provisioningReady (ReadDir : string -> res (list dirent)) (now : time) (freeSpace : string -> res Z)
    (hint : bool) (entropy1 entropy2 : res bytes) (metrics : Metrics.Registry) (r : applicationResources)
    : M (bool * Metrics.Registry) :=
  provisioningReadiness ReadDir now [sc_directory (st_config (rs_primary r)); sc_directory (st_config (rs_recovery r))]
    (Some freeSpace) (rs_provisioningErr r) (Some hint) (Some (rs_primary r)) (Some (rs_recovery r)) entropy1 entropy2 metrics.
(** The preflight of the reconciler. *)
Definition inspectionPreflight (r : applicationResources) (ctxErr : option error) : option error :=
  staticInspectionPreflight_Check (rs_provisioningErr r) ctxErr.

(** * main.go *)

Inductive milestone := Configured | KeyDecoded | Constructed | Started | Interrupted | ShutDown.
(** [run]: what each stage says, and the stages that were reached; what the shutdown says is
    logged, not returned. *)
Definition run (load : res Config) (decode : string -> res bytes) (construct : Config -> bytes -> option error)
    (start : option error) : option error * list milestone :=
  match load with
  | Fail err => (Some (EWrap "config error" err), [])
  | Ok cfg =>
      match decode (co_APIPrivateKey cfg) with
      | Fail err => (Some (EWrap "failed to decode API private key" err), [Configured])
      | Ok key =>
          match construct cfg key, start with
          | Some err, _ => (Some (EWrap "failed to construct lifecycle coordinator" err), [Configured; KeyDecoded])
          | None, Some err => (Some (EWrap "co-signer lifecycle startup failed" err), [Configured; KeyDecoded; Constructed])
          | None, None => (None, [Configured; KeyDecoded; Constructed; Started; Interrupted; ShutDown])
          end
      end
  end.
