(* ===== verification/ResourcesProofs.v ===== *)
(** Proofs about the resources of the process: whatever fails while they open, nothing that
    was started stays behind; what is open is closed exactly once; the approval worker has
    the managed journal of its primary store; and a process whose artifact capability is missing
    starts, but never provisions. *)
From stdpp Require Import base tactics option list strings numbers gmap relations.
From Stdlib Require Import ZArith Lia Ascii String.
From S2P Require Import Prelude GoText GoFloat Paths Externals ApprovalWire SigningPolicy FileSystem Publish Journal JournalProofs JournalInit JournalInitProofs GoTime ShareStore Terminal Scheduler Dispatcher Config ConfigProofs Dkg Preparams Startup StartupProofs Resources.

#[local] Open Scope string_scope.

(** * Running a step *)

Lemma A_bind_Ok {X Y} (m : A X) (f : X -> A Y) y s s' :
  (m ≫= f) s = (Ok y, s') -> exists x s1, m s = (Ok x, s1) /\ f x s1 = (Ok y, s').
Proof. unfold mbind, A_bind. destruct (m s) as [[x|e] s1] eqn:E; [|done]. eauto. Qed.
Lemma A_bind_Fail {X Y} (m : A X) (f : X -> A Y) e s s' :
  (m ≫= f) s = (Fail e, s') -> (m s = (Fail e, s')) \/ exists x s1, m s = (Ok x, s1) /\ f x s1 = (Fail e, s').
Proof. unfold mbind, A_bind. destruct (m s) as [[x|e'] s1] eqn:E; [eauto|]. intros [= -> ->]. by left. Qed.

(** A step that makes no call of its own. *)
Definition quiet {X} (m : A X) : Prop := forall s r s', m s = (r, s') -> ap_calls s' = ap_calls s.
Lemma quiet_on_world {X} (m : M X) : quiet (on_world m).
Proof. intros s r s'. unfold on_world. destruct (m (ap_world s)) as [r0 w]. by intros [= _ <-]. Qed.
Lemma quiet_pure {X} (r : res X) : quiet (pure r).
Proof. intros s r0 s' E. by injection E as _ <-. Qed.
Lemma quiet_ret {X} (x : X) : quiet (mret x).
Proof. intros s r0 s' E. by injection E as _ <-. Qed.
Lemma quiet_bind {X Y} (m : A X) (f : X -> A Y) : quiet m -> (forall x, quiet (f x)) -> quiet (m ≫= f).
Proof.
  intros Hm Hf s r s' E. destruct r as [y|e].
  - apply A_bind_Ok in E as (x & s1 & E1 & E2). by rewrite (Hf x _ _ _ E2), (Hm _ _ _ E1).
  - apply A_bind_Fail in E as [E|(x & s1 & E1 & E2)]; [by rewrite (Hm _ _ _ E)|].
    by rewrite (Hf x _ _ _ E2), (Hm _ _ _ E1).
Qed.
Ltac solve_quiet :=
  repeat first [apply quiet_on_world | apply quiet_pure | apply quiet_ret | apply quiet_bind | match goal with |- forall _, _ => intro end | case_match].

Lemma Close_total j w : exists p w', Close j w = (Ok p, w').
Proof.
  unfold Close. destruct (j_closed j); [do 2 eexists; reflexivity|]. unfold attempt, mbind, M_bind.
  destruct (j_scan j); [destruct (close w) as [? w1]|]; cbn;
    match goal with |- context [lock_Close ?w] => destruct (lock_Close w) end; do 2 eexists; reflexivity.
Qed.
Lemma close_journal_calls j s : exists p s', close_journal j s = (Ok p, s') /\ (ap_calls s' = ap_calls s ++ [ClosedJournal])%list.
Proof.
  unfold close_journal, mbind, A_bind, on_world. destruct (Close_total j (ap_world s)) as (p & w' & ->). cbn. eauto.
Qed.

(** What was started and not stopped, and opened and not closed. *)
Definition occurrences (c : acall) (calls : list acall) : nat := List.length (List.filter (fun d => bool_decide (d = c)) calls).
Definition released (calls : list acall) : Prop :=
  occurrences StartPool calls = occurrences StopPool calls
  /\ occurrences OpenedJournal calls = occurrences ClosedJournal calls.

Section Open.
Context `{Externals} {B : Type} (DefaultPreParamsConfig : PreParamsConfig B).

Lemma quiet_open_stores cfg a : quiet (open_stores cfg a).
Proof.
  unfold open_stores. solve_quiet.
Qed.

(** The stores as they open: what is missing for provisioning is remembered, not fatal. *)
Lemma open_stores_capability cfg a s primary recovery s' :
  open_stores cfg a s = (Ok (primary, recovery, None), s') ->
  publishPlatformSupported (an_platform a) = true /\ exists w u w', probeArtifactStores (Some primary) (Some recovery) (an_ctx1 a) (an_ctx2 a)
                                            (an_probe1 a) (an_probe2 a) w = (Ok u, w').
Proof.
  unfold open_stores. intros E. apply A_bind_Ok in E as ([p err] & s1 & E1 & E).
  apply A_bind_Ok in E as (p0 & s2 & E2 & E). apply A_bind_Ok in E as ([r rerr] & s3 & E3 & E).
  apply A_bind_Ok in E as (r0 & s4 & E4 & E). apply A_bind_Ok in E as (probe & s5 & E5 & E).
  injection E as -> -> Hj Hs. destruct rerr as [e|]; [done|]. destruct (err_of probe) eqn:Hp; [done|].
  unfold on_world, attempt in E5. destruct (probeArtifactStores _ _ _ _ _ _ _) as [pr w] eqn:Epr.
  injection E5 as <- <-. destruct pr as [u|]; [|done]. split; [|by exists (ap_world s4), u, w].
  destruct err as [|]; [done|]. clear E4 Epr. unfold on_world in E1. destruct (OpenStore _ _ _ _) as [[[p1 err1]|] w1] eqn:Eo; [|done].
  injection E1 as -> -> <-. unfold OpenStore in Eo. cbn [negb] in Eo. destruct (partyIDForPurpose _); [|by inversion Eo].
  unfold mbind, M_bind, attempt in Eo. destruct (ensurePrivateStoreDirectory _ _) as [[?|?] ?]; [|by inversion Eo].
  destruct (publishPlatformSupported (an_platform a)); [done|]. by inversion Eo.
Qed.

(** What a step has logged: the journal as it opens, or opened and closed again. *)
Definition logged {X} (r : res X) (before after : list acall) : Prop :=
  match r with
  | Ok _ => after = (before ++ [OpenedJournal])%list
  | Fail _ => after = before \/ after = (before ++ [OpenedJournal; ClosedJournal])%list
  end.

Lemma open_journal_calls cfg a s r s' : open_journal cfg a s = (r, s') ->
  ap_calls s' = (ap_calls s ++ (if is_ok r then [OpenedJournal] else []))%list
  /\ openManagedJournal (cfg_JournalDir (co_Approval cfg)) (sc_directory (co_PrimaryStore cfg))
       (cfg_AutoInitializeJournal (co_Approval cfg)) (an_flock a) (an_identity a) (ap_world s) = (r, ap_world s').
Proof.
  unfold open_journal, mbind, A_bind, on_world. destruct (openManagedJournal _ _ _ _ _ _) as [[j|e] w']; cbn;
    intros [= <- <-]; cbn; by rewrite ?app_nil_r.
Qed.
Lemma close_and_fail_calls {X} j err s : exists s',
  close_and_fail (X := X) j err s = (Fail err, s') /\ ap_calls s' = (ap_calls s ++ [ClosedJournal])%list.
Proof.
  unfold close_and_fail, mbind, A_bind. destruct (close_journal_calls j s) as (p & s' & -> & Hc). by exists s'.
Qed.

(** The worker: what it is made of, and what it has logged when it fails. *)
Lemma openApprovalWorker_calls cfg key a s r s' : openApprovalWorker cfg key a s = (r, s') ->
  logged r (ap_calls s) (ap_calls s')
  /\ forall j d, r = Ok (j, d) -> config_Validate (co_Approval cfg) = Ok () /\ exists shares u w1 org,
       ValidateDirectories (cfg_JournalDir (co_Approval cfg)) shares (ap_world s) = (Ok u, w1)
       /\ openManagedJournal (cfg_JournalDir (co_Approval cfg)) (sc_directory (co_PrimaryStore cfg))
            (cfg_AutoInitializeJournal (co_Approval cfg)) (an_flock a) (an_identity a) w1 = (Ok j, ap_world s')
       /\ NewDispatcher (co_Approval cfg) (co_APIKeyID cfg) key (Some j) true org (ap_world s') = Ok d.
Proof.
  unfold openApprovalWorker. destruct (config_Validate (co_Approval cfg)) as [[]|e] eqn:Ev.
  2: { intros E. injection E as <- <-. split; [by left|done]. }
  unfold mbind at 1, A_bind at 1, pure at 1. cbv zeta. set (shares := filter _ _).
  unfold mbind at 1, A_bind at 1, on_world at 1. destruct (ValidateDirectories _ _ _) as [[u|e] w1] eqn:Ed.
  2: { intros E. injection E as <- <-. split; [by left|done]. }
  set (s1 := {| ap_world := w1; ap_calls := ap_calls s |}). unfold mbind at 1, A_bind at 1.
  destruct (open_journal cfg a s1) as [[j|e] s2] eqn:Ej; pose proof (open_journal_calls _ _ _ _ _ Ej) as [Hc Hj]; cbn in Hc.
  2: { intros E. injection E as <- <-. rewrite app_nil_r in Hc. split; [by left|done]. }
  assert (Hfail : forall (err : error) (r : res (Journal * Dispatcher)) s', close_and_fail j err s2 = (r, s') ->
    logged r (ap_calls s) (ap_calls s') /\ forall j d, r <> Ok (j, d)).
  { intros err r0 s0 E. destruct (close_and_fail_calls (X := Journal * Dispatcher) j err s2) as (s3 & E3 & Hc3).
    rewrite E3 in E. injection E as <- <-. split; [|done]. right. by rewrite Hc3, Hc, <- app_assoc. }
  assert (Hstart : forall org, start_dispatcher (co_Approval cfg) (co_APIKeyID cfg) key j org s2 = (r, s') ->
    logged r (ap_calls s) (ap_calls s') /\ forall j' d, r = Ok (j', d) -> j' = j /\ s' = s2
      /\ NewDispatcher (co_Approval cfg) (co_APIKeyID cfg) key (Some j) true org (ap_world s2) = Ok d).
  { intros org. unfold start_dispatcher. destruct (NewDispatcher _ _ _ _ _ _ _) as [d|e].
    - intros E. injection E as <- <-. split; [exact Hc|]. by intros j' d' [= <- <-].
    - intros E. destruct (Hfail _ _ _ E) as [? Hn]. split; [done|]. intros j' d' ->. by destruct (Hn j' d'). }
  unfold mbind, A_bind. destruct (cfg_Mode (co_Approval cfg) =s "external") eqn:Em.
  - destruct (NewExternal _ _) as [c|e].
    + intros E. destruct (Hstart true E) as [Hl Hs]. split; [done|]. intros j' d ->.
      destruct (Hs _ _ eq_refl) as (-> & -> & Hd). split; [done|]. by exists shares, u, w1, true.
    + destruct (close_and_fail_calls (X := bool) j e s2) as (s3 & -> & Hc3). intros E. injection E as <- <-.
      split; [|done]. right. by rewrite Hc3, Hc, <- app_assoc.
  - intros E. destruct (Hstart false E) as [Hl Hs]. split; [done|]. intros j' d ->.
    destruct (Hs _ _ eq_refl) as (-> & -> & Hd). split; [done|]. by exists shares, u, w1, false.
Qed.

(** The part under the pool's clean-up. *)
Lemma on_failure_calls {X} (cleanup : A unit) (m : A X) s r s' : on_failure cleanup m s = (r, s') ->
  exists s1, m s = (r, s1) /\ s' = if is_ok r then s1 else (cleanup s1).2.
Proof.
  unfold on_failure. destruct (m s) as [[x|e] s1]; [intros [= <- <-]; eauto|].
  destruct (cleanup s1) as [c s2] eqn:Ec. intros [= <- <-]. exists s1. by rewrite Ec.
Qed.

(** What runs under the clean-up of the pool, in three parts. *)
Definition under_pool (cfg : Config) (key : bytes) (a : answers) (primary recovery : Store) (storeErr : option error)
    : A applicationResources :=
  let provisioningErr := errors_join [storeErr; an_startPool a] in
  coordinator ← pure (NewDKGCoordinator true
                        {| dc_PlatformPartyID := "mpc-signer"; dc_PrimaryPartyID := sc_PartyID (co_PrimaryStore cfg);
                           dc_RecoveryPartyID := sc_PartyID (co_RecoveryStore cfg) |});
  '(journal, dispatcher) ← openApprovalWorker cfg key a;
  on_failure (_ ← close_journal journal; mret ())
    (startupPublisher ← pure (newStartupPublisher (an_publisher a));
     _ ← pure (NewReconciler (an_clock a) (an_dependencies a));
     mret {| rs_approvalJournal := journal; rs_approvalDispatcher := dispatcher;
             rs_scheduler := NewScheduler (co_MaxConcurrent cfg); rs_startupPublisher := startupPublisher;
             rs_coordinator := coordinator; rs_primary := primary; rs_recovery := recovery;
             rs_provisioningErr := provisioningErr;
             rs_background := match an_startPool a with None => 1 | Some _ => 0 end |}).

Lemma resources_parts cfg key a s r s' : ap_calls s = [] ->
  openApplicationResources DefaultPreParamsConfig cfg key a s = (r, s') ->
  ((exists e, r = Fail e) /\ ap_calls s' = [])
  \/ exists primary recovery storeErr s1 s2, open_stores cfg a s = (Ok (primary, recovery, storeErr), s1)
     /\ ap_calls s2 = [StartPool]
     /\ on_failure (call StopPool) (under_pool cfg key a primary recovery storeErr) s2 = (r, s').
Proof.
  intros Hs E. unfold openApplicationResources in E. unfold mbind, A_bind in E.
  destruct (open_stores cfg a s) as [[[[primary recovery] storeErr]|e] s1] eqn:E1;
    pose proof (quiet_open_stores cfg a _ _ _ E1) as Hq; rewrite Hs in Hq.
  2: { injection E as <- <-. left. eauto. }
  unfold pure in E. destruct (NewPrimaryReader _); [|injection E as <- <-; left; eauto].
  destruct (NewRoutingWriter _ _); [|injection E as <- <-; left; eauto].
  destruct (newDKGCoreService _ _); [|injection E as <- <-; left; eauto].
  right. exists primary, recovery, storeErr, s1. eexists. split; [done|]. cbn in E. split; [|exact E]. by rewrite Hq.
Qed.

(** The constructors that come after the journal was opened make no call. *)
Definition after_worker (cfg : Config) (a : answers) (coordinator : DKGCoordinatorConfig) (primary recovery : Store)
    (provisioningErr : option error) (journal : Journal) (dispatcher : Dispatcher) : A applicationResources :=
  startupPublisher ← pure (newStartupPublisher (an_publisher a));
  _ ← pure (NewReconciler (an_clock a) (an_dependencies a));
  mret {| rs_approvalJournal := journal; rs_approvalDispatcher := dispatcher;
          rs_scheduler := NewScheduler (co_MaxConcurrent cfg); rs_startupPublisher := startupPublisher;
          rs_coordinator := coordinator; rs_primary := primary; rs_recovery := recovery;
          rs_provisioningErr := provisioningErr;
          rs_background := match an_startPool a with None => 1 | Some _ => 0 end |}.
Lemma quiet_after_worker cfg a c p r e j d : quiet (after_worker cfg a c p r e j d).
Proof. unfold after_worker. solve_quiet. Qed.

Lemma under_pool_calls cfg key a primary recovery storeErr s r s' :
  under_pool cfg key a primary recovery storeErr s = (r, s') ->
  logged r (ap_calls s) (ap_calls s')
  /\ forall res, r = Ok res -> rs_provisioningErr res = errors_join [storeErr; an_startPool a]
     /\ (exists n, rs_scheduler res = NewScheduler n)
     /\ exists s1 s2, openApprovalWorker cfg key a s1 = (Ok (rs_approvalJournal res, rs_approvalDispatcher res), s2).
Proof.
  unfold under_pool. cbv zeta. unfold mbind at 1, A_bind at 1, pure at 1.
  destruct (NewDKGCoordinator _ _) as [c|e]; [|intros [= <- <-]; split; [by left|done]].
  unfold mbind at 1, A_bind at 1. destruct (openApprovalWorker cfg key a s) as [[[j d]|e] s1] eqn:Ew;
    pose proof (openApprovalWorker_calls _ _ _ _ _ _ Ew) as [Hl _]; [|intros [= <- <-]; split; [exact Hl|done]].
  intros E. apply on_failure_calls in E as (s2 & E & ->).
  pose proof (quiet_after_worker cfg a c primary recovery (errors_join [storeErr; an_startPool a]) j d _ _ _ E) as Hq.
  cbn in Hl. destruct r as [res|e]; cbn [is_ok].
  - split; [cbn; by rewrite Hq, Hl|]. intros res0 [= ->].
    apply A_bind_Ok in E as (slot & s3 & _ & E). apply A_bind_Ok in E as (u & s4 & _ & E). injection E as <- <-.
    split_and!; [done|by eexists|by exists s, s1].
  - split; [|done]. right. unfold mbind, A_bind. destruct (close_journal_calls j s2) as (p & s3 & -> & Hc). cbn.
    by rewrite Hc, Hq, Hl, <- app_assoc.
Qed.

Lemma Close_releases res stopErr s : rs_background res = 0%nat ->
  exists close p s', resources_Close res stopErr = Some close /\ close s = (Ok p, s')
  /\ (ap_calls s' = ap_calls s ++ [ClosedJournal; StopPool])%list.
Proof.
  intros Hb. unfold resources_Close. rewrite Hb. cbn [Nat.ltb Nat.leb].
  destruct (close_journal_calls (rs_approvalJournal res) s) as ([j e] & s1 & E1 & Hc).
  eexists _, _, _. split; [done|]. unfold mbind, A_bind. rewrite E1. split; [done|]. cbn. by rewrite Hc, <- app_assoc.
Qed.

(** The calls of an opening that failed: nothing was started, or the pool was stopped, after
    the journal, when that had been opened, was closed. *)
Definition undone : list (list acall) :=
  [[]; [StartPool; StopPool]; [StartPool; OpenedJournal; ClosedJournal; StopPool]].
Lemma undone_released calls : calls ∈ undone -> released calls.
Proof. unfold undone. intros H0. repeat (apply elem_of_cons in H0 as [->|H0]; [by vm_compute|]). by apply elem_of_nil in H0. Qed.

Lemma resources_calls cfg key a w r s' :
  openApplicationResources DefaultPreParamsConfig cfg key a {| ap_world := w; ap_calls := [] |} = (r, s') ->
  match r with
  | Fail _ => ap_calls s' ∈ undone
  | Ok res => ap_calls s' = [StartPool; OpenedJournal] /\ (exists n, rs_scheduler res = NewScheduler n)
      /\ (exists s1 s2, openApprovalWorker cfg key a s1 = (Ok (rs_approvalJournal res, rs_approvalDispatcher res), s2))
      /\ exists primary recovery storeErr s1,
           open_stores cfg a {| ap_world := w; ap_calls := [] |} = (Ok (primary, recovery, storeErr), s1)
           /\ rs_provisioningErr res = errors_join [storeErr; an_startPool a]
  end.
Proof.
  intros E. eapply resources_parts in E; [|done].
  destruct E as [([e ->] & Hc)|(primary & recovery & storeErr & s1 & s2 & Es & Hc & E)]; [rewrite Hc; by left|].
  apply on_failure_calls in E as (s3 & E & Hs').
  apply under_pool_calls in E as [Hl Hres]. rewrite Hc in Hl. destruct r as [res|e]; cbn [is_ok] in Hs'; subst s'.
  - destruct (Hres _ eq_refl) as (Hp & Hn & Hw). split_and!; [exact Hl|done|done|eauto 10].
  - cbn. destruct Hl as [-> | ->]; [by right; left|by right; right; left].
Qed.

Lemma openApprovalWorker_journal cfg key a s j d s' :
  openApprovalWorker cfg key a s = (Ok (j, d), s') -> dp_journal d = j.
Proof.
  intros E. apply openApprovalWorker_calls in E as [_ Hw]. destruct (Hw _ _ eq_refl) as (Hv & _ & _ & _ & org & _ & _ & Hd).
  unfold NewDispatcher in Hd. rewrite Hv in Hd. cbn in Hd. step_if Hd. by injection Hd as <-.
Qed.

(** (C37) Nothing that was started stays behind.  However opening the resources ends, an error
    leaves no pool running and no journal open: whichever step failed, before the journal was
    opened, in the constructors that follow it in [openApprovalWorker], or after that, the
    journal was closed if it was open, and then the pool stopped if it was started.  A success
    leaves exactly one of each, the dispatcher working on that journal; closing them waits for
    the background goroutines and then closes each of them once.  What provisioning lacks is
    kept: it is ready only if publication is supported, both stores passed their probe and the
    pool started; otherwise it never is, and the reconciler's preflight fails, while signing is
    unaffected. *)
Theorem resources_owned cfg key a w r s' :
  openApplicationResources DefaultPreParamsConfig cfg key a {| ap_world := w; ap_calls := [] |} = (r, s') ->
  match r with
  | Fail _ => released (ap_calls s') /\ ap_calls s' ∈ undone
  | Ok res =>
      ap_calls s' = [StartPool; OpenedJournal] /\ dp_journal (rs_approvalDispatcher res) = rs_approvalJournal res
      /\ (forall stopErr, (0 < rs_background res)%nat -> resources_Close res stopErr = None)
      /\ (forall stopErr s, exists close p s2, resources_Close (with_background 0 res) stopErr = Some close
          /\ close s = (Ok p, s2) /\ (ap_calls s2 = ap_calls s ++ [ClosedJournal; StopPool])%list)
      /\ (rs_provisioningErr res = None -> publishPlatformSupported (an_platform a) = true /\ an_startPool a = None)
      /\ (rs_provisioningErr res <> None ->
          inspectionPreflight res None <> None
          /\ forall ReadDir now free hint e1 e2 metrics w, exists r',
               provisioningReady ReadDir now free hint e1 e2 metrics res w = (Ok (false, r'), w))
  end.
Proof.
  intros E. apply resources_calls in E. destruct r as [res|e]; [|split; [by apply undone_released|done]].
  destruct E as (Hc & _ & (s1 & s2 & Hw) & primary & recovery & storeErr & s3 & Es & Hp). split_and!; [done|..].
  - by eapply openApprovalWorker_journal.
  - intros stopErr Hb. unfold resources_Close. by apply Nat.ltb_lt in Hb as ->.
  - intros stopErr s. by apply Close_releases.
  - rewrite Hp. intros Hn. destruct storeErr as [e|]; [done|]. destruct (an_startPool a); [done|].
    by destruct (open_stores_capability _ _ _ _ _ _ Es).
  - intros Hn. unfold inspectionPreflight, provisioningReady, provisioningReadiness. cbn.
    destruct (rs_provisioningErr res); [|done]. split; [done|]. intros. eexists. reflexivity.
Qed.

(** Opening the approval worker of a configuration: the dispatcher starts, idle, over the
    managed journal of the configured primary store. *)
Theorem approval_worker_managed cfg key a s j d s' :
  inv (ap_world s) -> tree (ap_world s) -> utf8_valid (j_directory j) = true ->
  openApprovalWorker cfg key a s = (Ok (j, d), s') ->
  (exists P raw, resolves (ap_world s) (sc_directory (co_PrimaryStore cfg)) P /\ disjoint_paths P (j_directory j)
     /\ managed (ap_world s') P j raw)
  /\ dp_journal d = j /\ dp_world d = ap_world s' /\ dp_calls d = [] /\ dp_backoff d = ∅
  /\ config_Validate (co_Approval cfg) = Ok () /\ ValidReference (co_APIKeyID cfg) = true /\ zlen key = 64%Z.
Proof.
  intros Hi Ht Hu E. apply openApprovalWorker_calls in E as [_ Hw].
  destruct (Hw _ _ eq_refl) as (Hv & shares & u & w1 & org & E1 & E2 & En).
  destruct (safe_run _ _ _ _ (safe_ValidateDirectories _ _) E1 Hi) as [Hi1 He1].
  pose proof (still_run _ _ _ _ (still_ValidateDirectories _ _) E1) as L1.
  unfold NewDispatcher in En. rewrite Hv in En. cbn in En. step_if En. injection En as <-. split_bools.
  split; [|by split_and!].
  destruct (openManagedJournal_managed _ _ _ _ _ _ _ _ Hi1 (tree_layout _ _ L1 Ht) Hu E2) as (P & raw & HP & Hd & Hm & _).
  exists P, raw. split; [|done]. by apply (resolves_layout (ap_world s) w1).
Qed.
End Open.

(** * A concrete start *)

Definition fixture_answers : answers := {|
  an_platform := Linux; an_ctx1 := None; an_ctx2 := None; an_probe1 := Ok "0123456789abcdef"; an_probe2 := Ok "fedcba9876543210";
  an_startPool := None; an_flock := Locked; an_identity := Ok install_id; an_external := Ok (); an_publisher := true;
  an_clock := true; an_dependencies := true |}.
Definition fixture_pool : PreParamsConfig unit := Build_PreParamsConfig 0 0 0 false false ().
Definition fixture_key : bytes := install_id ++ install_id.
Definition full_world : world := {|
  vis := ∅; dur := ∅; dirty := ∅; dirs := <["/vault" := dir_info 5]> (<["/vault/recovery" := dir_info 6]> install_dirs);
  links := ∅; euid := 1000; sched := [] |}.
Definition fixture_open (w : world) : res applicationResources * app :=
  openApplicationResources fixture_pool fixture_config fixture_key fixture_answers {| ap_world := w; ap_calls := [] |}.
Definition provisioning_of (w : world) : option (option error) :=
  match (fixture_open w).1 with Ok res => Some (rs_provisioningErr res) | Fail _ => None end.
(** With both directories the process is complete; without the recovery one it starts degraded;
    without the primary one it does not start. *)
Example fixture_starts :
  provisioning_of full_world = Some None /\ ap_calls (fixture_open full_world).2 = [StartPool; OpenedJournal]
  /\ (exists e, provisioning_of install_world = Some (Some e))
  /\ provisioning_of (with_dirs install_world ∅) = None.
Proof. split_and!; [vm_compute; reflexivity..|eexists; vm_compute; reflexivity|vm_compute; reflexivity]. Qed.

(** A key of the wrong length fails in [openApprovalWorker], with the journal already open; a
    missing publisher fails after it. *)
Definition fixture_answers_late : answers := {|
  an_platform := Linux; an_ctx1 := None; an_ctx2 := None; an_probe1 := Ok "0123456789abcdef"; an_probe2 := Ok "fedcba9876543210";
  an_startPool := None; an_flock := Locked; an_identity := Ok install_id; an_external := Ok (); an_publisher := false;
  an_clock := true; an_dependencies := true |}.
Definition fixture_fails (key : bytes) (a : answers) : bool * list acall :=
  let '(r, s) := openApplicationResources fixture_pool fixture_config key a {| ap_world := full_world; ap_calls := [] |} in
  (is_ok r, ap_calls s).
Example fixture_failures :
  fixture_fails install_id fixture_answers = (false, [StartPool; OpenedJournal; ClosedJournal; StopPool])
  /\ fixture_fails fixture_key fixture_answers_late = (false, [StartPool; OpenedJournal; ClosedJournal; StopPool]).
Proof. split; vm_compute; reflexivity. Qed.

Lemma resources_owned_witness :
  exists res s', fixture_open install_world = (Ok res, s') /\ ap_calls s' = [StartPool; OpenedJournal]
  /\ inspectionPreflight res None <> None.
Proof.
  assert (Hs : match (fixture_open install_world).1 with Ok res => match rs_provisioningErr res with Some _ => true | None => false end | Fail _ => false end = true)
    by (vm_compute; reflexivity).
  unfold fixture_open in *.
  destruct (openApplicationResources _ _ _ _ _) as [[res|e] s'] eqn:E; [|discriminate Hs]. cbn [fst] in Hs.
  exists res, s'. split; [reflexivity|].
  destruct (resources_owned fixture_pool fixture_config fixture_key fixture_answers install_world (Ok res) s' E)
    as (Hc & _ & _ & _ & _ & Hd).
  split; [exact Hc|]. apply Hd. destruct (rs_provisioningErr res); [discriminate|discriminate Hs].
Defined.
