(* ===== verification/Wiring.v ===== *)
(** [cmd/co-signer/lifecycle.go]: the closures that tie the lifecycle to the resources of
    the process.  The closures share two variables, [resources] and [healthListener]; a
    process is the coordinator together with what they hold, and each of its steps is a
    step of the coordinator with the closures that step calls, or a step of the scheduler,
    which runs while the coordinator's does and sees its context end, or of another
    background goroutine. *)
From stdpp Require Import base tactics option list strings numbers gmap relations.
From Stdlib Require Import ZArith Lia Ascii String.
From S2P Require Import Prelude GoText Paths Externals FileSystem Terminal Reconcile Lifecycle Monolith Scheduler Config Preparams Resources.
Import Reconcile.

#[local] Open Scope string_scope.

(** * The captured variables *)

(** [resources] and [healthListener], and whether the health server accepts connections. *)
Record wiring := { w_resources : option applicationResources; w_listener : bool; w_serving : bool }.
Definition no_wiring : wiring := {| w_resources := None; w_listener := false; w_serving := false |}.

(** A closure returns, or dereferences a nil [resources], or waits. *)
Inductive reply (X : Type) : Type := Returns (x : X) (w : wiring) | Panics | Blocks.
Arguments Returns {X} x w. Arguments Panics {X}. Arguments Blocks {X}.
Definition W (X : Type) : Type := wiring -> reply X.
#[global] Instance W_ret : MRet W := fun X x w => Returns x w.
#[global] Instance W_bind : MBind W := fun X Y f m w =>
  match m w with Returns x w => f x w | Panics => Panics | Blocks => Blocks end.

Definition get_resources : W (option applicationResources) := fun w => Returns (w_resources w) w.
(** A field of [resources]. *)
Definition deref : W applicationResources := fun w =>
  match w_resources w with Some r => Returns r w | None => Panics end.
Definition set_resources (r : applicationResources) : W unit := fun w =>
  Returns () {| w_resources := Some r; w_listener := w_listener w; w_serving := w_serving w |}.
Definition set_intake (listener serving : bool) : W unit := fun w =>
  Returns () {| w_resources := w_resources w; w_listener := listener; w_serving := serving |}.
Definition waits {X} : W X := fun _ => Blocks.
Definition has_listener : W bool := fun w => Returns (w_listener w) w.

Definition with_scheduler (sch : Scheduler) (r : applicationResources) : applicationResources := {|
  rs_approvalJournal := rs_approvalJournal r; rs_approvalDispatcher := rs_approvalDispatcher r;
  rs_scheduler := sch; rs_startupPublisher := rs_startupPublisher r; rs_coordinator := rs_coordinator r;
  rs_primary := rs_primary r; rs_recovery := rs_recovery r; rs_provisioningErr := rs_provisioningErr r;
  rs_background := rs_background r |}.
Definition with_slot (slot : SingleSlot) (r : applicationResources) : applicationResources := {|
  rs_approvalJournal := rs_approvalJournal r; rs_approvalDispatcher := rs_approvalDispatcher r;
  rs_scheduler := rs_scheduler r; rs_startupPublisher := slot; rs_coordinator := rs_coordinator r;
  rs_primary := rs_primary r; rs_recovery := rs_recovery r; rs_provisioningErr := rs_provisioningErr r;
  rs_background := rs_background r |}.

(** * The closures *)

(** What the code outside says to the calls of one step: the lock, the resources, the
    contexts of the caller and of the publisher's slot, the reconciler, the two probes, the
    listener, the health server's shutdown, the drain, the publication, and the two closes. *)
Record outside := {
  ou_lock : option error; ou_opened : res applicationResources; ou_ctx : option error; ou_slot : option error;
  ou_reconcile : res Result; ou_signing : bool; ou_provisioning : bool; ou_listen : option error;
  ou_shutdown : option error; ou_drain : option error; ou_publish : option error; ou_close : option error;
  ou_unlock : option error;
}.

Section Closures.
Variable o : outside.

Definition dep_AcquireLock : W (option error) := mret (ou_lock o).
Definition dep_OpenCapabilities : W (option error) :=
  match ou_opened o with
  | Fail openErr => mret (Some openErr)
  | Ok opened => _ ← set_resources opened; mret None
  end.
Definition dep_StartPublisher : W (option error) :=
  r ← deref;
  let '(slot, err) := slot_Start (ou_ctx o) (rs_startupPublisher r) in
  _ ← set_resources (with_slot slot r); mret err.
Definition dep_Reconcile : W (res Result) := _ ← deref; mret (ou_reconcile o).
Definition dep_Handoff (job : Job) : W (option error) :=
  r ← deref;
  let '(slot, err) := Handoff job (ou_ctx o) (ou_slot o) (rs_startupPublisher r) in
  _ ← set_resources (with_slot slot r); mret err.
Definition dep_SetDKGAdmissionOpen (open : bool) : W unit :=
  resources ← get_resources;
  match resources with
  | Some r => set_resources (with_scheduler (SetDKGAdmissionOpen open (rs_scheduler r)) r)
  | None => mret ()
  end.
Definition dep_ProvisioningReady : W bool := _ ← deref; mret (ou_provisioning o).
Definition dep_SigningReady : W bool :=
  resources ← get_resources;
  match resources with Some _ => mret (ou_signing o) | None => mret false end.
(** [startScheduler] of a nil receiver does nothing. *)
Definition dep_StartScheduler : W unit :=
  resources ← get_resources;
  match resources with Some r => set_resources (startScheduler r) | None => mret () end.
Definition dep_WakeScheduler : W unit :=
  r ← deref; set_resources (with_scheduler (Wake (rs_scheduler r)) r).
Definition dep_StartIntake : W (option error) :=
  _ ← deref;
  match ou_listen o with
  | Some listenErr => mret (Some listenErr)
  | None => _ ← set_intake true true; mret None
  end.
(** [http.Server.Shutdown] closes the listener first, whatever it says about connections. *)
Definition dep_StopIntake : W (option error) :=
  listening ← has_listener;
  if negb listening then mret None
  else _ ← deref; _ ← set_intake true false; mret (ou_shutdown o).
Definition dep_Drain : W (option error) :=
  resources ← get_resources;
  match resources with Some _ => mret (ou_drain o) | None => mret None end.
Definition dep_WaitPublisher : W unit :=
  resources ← get_resources;
  match resources with Some _ | None => mret () end.
(** The capabilities are the resources; [Close] waits for their goroutines. *)
Definition capabilities_Close : W (option error) :=
  r ← deref;
  if (resources_Close r (ou_close o) : option _) then mret (ou_close o) else waits.

(** * What a step of the coordinator calls *)

Definition says_err (e : option error) : answer :=
  {| an_err := e; an_reconcile := Fail (ENew ""); an_signing := false; an_provisioning := false |}.
Definition says_nothing : answer := says_err None.
Definition says_probes (signing provisioning : bool) : answer :=
  {| an_err := None; an_reconcile := Fail (ENew ""); an_signing := signing; an_provisioning := provisioning |}.
Definition then_nothing (m : W unit) : W answer := _ ← m; mret says_nothing.
Definition then_err (m : W (option error)) : W answer := e ← m; mret (says_err e).
(** [signingReady && ProvisioningReady()]. *)
Definition probe_after (asked signing : bool) : W answer :=
  provisioning ← (if asked && signing then dep_ProvisioningReady else mret false);
  mret (says_probes signing provisioning).
Definition disposed (s : Coordinator) (d : string) : bool :=
  match l_result s with Some result => Disposition result =s d | None => false end.

Definition main_calls (s : Coordinator) : W answer :=
  match main s with
  | MAcquireLock => then_err dep_AcquireLock
  | MOpenCapabilities => then_err dep_OpenCapabilities
  | MStartPublisher => then_err dep_StartPublisher
  | MReconcile =>
      r ← dep_Reconcile;
      mret {| an_err := None; an_reconcile := r; an_signing := false; an_provisioning := false |}
  | MFreshPoll => mret (says_err (ou_ctx o))
  | MDispose =>
      if disposed s DispositionEligible then then_nothing (dep_SetDKGAdmissionOpen true) else mret says_nothing
  | MDeferred | MRequired _ => then_nothing (dep_SetDKGAdmissionOpen false)
  | MHandoff job => then_err (dep_Handoff job)
  | MStartScheduler => then_nothing dep_StartScheduler
  | MStartIntake => then_err dep_StartIntake
  | MSnapshot =>
      signing ← dep_SigningReady; probe_after (disposed s DispositionEligible) signing
  | MConfirmed signing confirmed => probe_after confirmed signing
  | MRunning => if co_stopping s then mret says_nothing else then_nothing (dep_SetDKGAdmissionOpen false)
  | MAbort _ => then_nothing (dep_SetDKGAdmissionOpen false)
  | MStopIntake => then_err dep_StopIntake
  | MDrain _ _ => then_err dep_Drain
  | MWaitPublisher _ _ => then_nothing dep_WaitPublisher
  | MCloseCapabilities _ _ => if co_capabilities s then then_err capabilities_Close else mret says_nothing
  | MCloseLock _ _ => mret (says_err (ou_unlock o))
  | _ => mret says_nothing
  end.
Definition publisher_calls (s : Coordinator) : W answer :=
  match pub s with
  | PPublishing => mret (says_err (ou_publish o))
  | PAdmit => then_nothing (dep_SetDKGAdmissionOpen true)
  | PRead =>
      if co_stopping s || co_latched s then mret says_nothing
      else probe_after (ProcessReady (readiness s)) true
  | PSet _ => then_nothing dep_WakeScheduler
  | _ => mret says_nothing
  end.
End Closures.

(** * The process *)

Record process := { pr_coordinator : Coordinator; pr_wiring : wiring; pr_panicked : bool }.
Definition new_process : process :=
  {| pr_coordinator := NewCoordinator; pr_wiring := no_wiring; pr_panicked := false |}.

(** A move of [Start], of the shutdown, of the publisher's goroutine, the end of the parent
    context, a move of the scheduler's loop or of one of its sessions, the end of the
    scheduler's context, the return of the scheduler's goroutine, or that of another
    background goroutine. *)
Inductive pmove :=
  | PStart (o : outside) | PShutdown (o : outside) | PPublisher (o : outside) | PContext
  | PLoop (ready : bool) (c : choice) (found : option (list Intent)) | PJob (op : job_op) (k : nat)
  | PCancel | PReturn | PBackground.

(** The calls of a step with their answer to the coordinator; a panic ends the process. *)
Definition with_calls (calls : W answer) (move : answer -> Coordinator -> option Coordinator) (p : process)
    : option process :=
  match calls (pr_wiring p) with
  | Returns a w =>
      s ← move a (pr_coordinator p);
      Some {| pr_coordinator := s; pr_wiring := w; pr_panicked := false |}
  | Panics => Some {| pr_coordinator := pr_coordinator p; pr_wiring := pr_wiring p; pr_panicked := true |}
  | Blocks => None
  end.
Definition on_resources (f : applicationResources -> option applicationResources) (p : process) : option process :=
  r ← w_resources (pr_wiring p);
  r ← f r;
  Some {| pr_coordinator := pr_coordinator p;
          pr_wiring := {| w_resources := Some r; w_listener := w_listener (pr_wiring p);
                          w_serving := w_serving (pr_wiring p) |};
          pr_panicked := pr_panicked p |}.
Definition on_scheduler (f : Scheduler -> option Scheduler) : process -> option process :=
  on_resources (fun r => sch ← f (rs_scheduler r); Some (with_scheduler sch r)).

Definition loop_ended (sch : Scheduler) : bool := match loop sch with AtEnd => true | _ => false end.
(** The scheduler's goroutine returns once its loop has ended, the coordinator's scheduler
    with it. *)
Definition scheduler_returns (p : process) : option process :=
  p ← on_resources (fun r => if loop_ended (rs_scheduler r) then Some (background_done r) else None) p;
  s ← scheduler_step (pr_coordinator p);
  Some {| pr_coordinator := s; pr_wiring := pr_wiring p; pr_panicked := pr_panicked p |}.
(** The scheduler's goroutine among the background goroutines. *)
Definition scheduler_goroutine (s : Coordinator) : nat := if scheduler_on s then 1 else 0.

Definition process_step (disabled : bool) (cfg : SchedulerConfig) (m : pmove) (p : process) : option process :=
  if pr_panicked p then None
  else match m with
  | PStart o => with_calls (main_calls o (pr_coordinator p)) (start_step disabled) p
  | PShutdown o => with_calls (main_calls o (pr_coordinator p)) shutdown_step p
  | PPublisher o => with_calls (publisher_calls o (pr_coordinator p)) publicationDone_step p
  | PContext =>
      s ← context_step (pr_coordinator p);
      Some {| pr_coordinator := s; pr_wiring := pr_wiring p; pr_panicked := false |}
  | PLoop ready c found =>
      if scheduler_on (pr_coordinator p) then on_scheduler (loop_step cfg ready c found) p else None
  | PJob op k => on_scheduler (job_step op k) p
  | PCancel =>
      if ctx_cancelled (pr_coordinator p)
      then on_scheduler (fun s => Some (Build_Scheduler (general s) (dkg s) (inFlight s) (repollCh s)
                                        (dkgAdmissionOpen s) true (loop s) (jobs s) (batches s) (launches s))) p
      else None
  | PReturn => scheduler_returns p
  | PBackground =>
      on_resources (fun r => if (scheduler_goroutine (pr_coordinator p) <? rs_background r)%nat
                             then Some (background_done r) else None) p
  end.
Fixpoint process_run (disabled : bool) (cfg : SchedulerConfig) (ms : list pmove) (p : process) : option process :=
  match ms with [] => Some p | m :: ms => p ← process_step disabled cfg m p; process_run disabled cfg ms p end.

Section Reachable.
Context `{Externals} {B : Type} (DefaultPreParamsConfig : PreParamsConfig B).

(** The resources a process may be given are those that [openApplicationResources] opens. *)
Definition opens (r : res applicationResources) : Prop :=
  match r with
  | Ok _ => exists cfg key a w s,
      openApplicationResources DefaultPreParamsConfig cfg key a {| ap_world := w; ap_calls := [] |} = (r, s)
  | Fail _ => True
  end.
Definition possible (m : pmove) : Prop :=
  match m with PStart o | PShutdown o | PPublisher o => opens (ou_opened o) | _ => True end.
Inductive process_reachable (disabled : bool) (cfg : SchedulerConfig) : process -> Prop :=
  | process_new : process_reachable disabled cfg new_process
  | process_moves m p p' : process_reachable disabled cfg p -> possible m -> process_step disabled cfg m p = Some p' ->
      process_reachable disabled cfg p'.
End Reachable.

(** * newLifecycleCoordinator *)

(** Which of the dependencies are given. *)
Record Dependencies := {
  d_AcquireLock : bool; d_OpenCapabilities : bool; d_StartPublisher : bool; d_Reconcile : bool; d_Handoff : bool;
  d_SetDKGAdmissionOpen : bool; d_SigningReady : bool; d_ProvisioningReady : bool; d_StartScheduler : bool;
  d_WakeScheduler : bool; d_StartIntake : bool; d_StopIntake : bool; d_Drain : bool; d_ReportDrainError : bool;
  d_WaitPublisher : bool; d_Readiness : bool;
}.
Definition checked_NewCoordinator (deps : Dependencies) : res Coordinator :=
  if negb (d_AcquireLock deps) then Fail (ENew "lifecycle lock acquisition is required")
  else if negb (d_OpenCapabilities deps) then Fail (ENew "lifecycle capability opener is required")
  else if negb (d_StartPublisher deps) || negb (d_Handoff deps) || negb (d_WaitPublisher deps)
  then Fail (ENew "lifecycle publisher controls are required")
  else if negb (d_Reconcile deps) then Fail (ENew "lifecycle reconciler is required")
  else if negb (d_SetDKGAdmissionOpen deps) || negb (d_ProvisioningReady deps) || negb (d_StartScheduler deps)
          || negb (d_WakeScheduler deps)
  then Fail (ENew "lifecycle scheduler controls are required")
  else if negb (d_StartIntake deps) || negb (d_StopIntake deps) || negb (d_Drain deps)
  then Fail (ENew "lifecycle intake controls are required")
  else if negb (d_Readiness deps) then Fail (ENew "lifecycle readiness state is required")
  else Ok NewCoordinator.
(** It gives every one of them. *)
Definition newLifecycleCoordinator : res Coordinator :=
  checked_NewCoordinator (Build_Dependencies true true true true true true true true true true true true true true true true).
