(* ===== verification/WiringProofs.v ===== *)
(** Proofs about the process: the closures of the lifecycle never dereference missing
    resources, the scheduler's admission flag is the coordinator's, a DKG is launched only
    after admission was opened for it, and a process that has ended serves nothing. *)
From stdpp Require Import base tactics option list strings numbers gmap relations.
From Stdlib Require Import ZArith Lia Ascii String.
From S2P Require Import Prelude GoText Paths Externals FileSystem Terminal Reconcile Monolith Scheduler SchedulerProofs Lifecycle LifecycleProofs Config Preparams Resources ResourcesProofs Wiring.
Import Reconcile.

#[local] Open Scope string_scope.

(** * The coordinator's side *)

(** Past the decision of [Start]. *)
Definition past (pc : main_pc) : bool :=
  match pc with
  | MStart | MAcquireLock | MOpenCapabilities | MStartPublisher | MReconcile | MFreshPoll | MDispose => false
  | _ => true
  end.
(** What admission needs. *)
Definition allowed (s : Coordinator) : Prop := decided s DispositionEligible \/ co_confirmed s = true.
(** A decision is not taken back. *)
Definition stable (s s' : Coordinator) : Prop :=
  past (main s) = true -> past (main s') = true /\ (allowed s -> allowed s').
Lemma same_allowed s s' : l_result s' = l_result s -> (co_confirmed s = true -> co_confirmed s' = true) ->
  allowed s -> allowed s'.
Proof. intros Hr Hc [(r & Hl & Hd)|?]; [left; exists r; by rewrite Hr|right; auto]. Qed.

Lemma start_stable disabled a s s' : start_step disabled a s = Some s' -> stable s s'.
Proof.
  intros Hs Hp. unfold start_step in Hs. destruct (main s) eqn:Em; try discriminate Hs; try discriminate Hp; split_step Hs;
    (split; [done|by apply same_allowed]).
Qed.
Lemma shutdown_stable a s s' : shutdown_step a s = Some s' -> stable s s'.
Proof.
  intros Hs Hp. unfold shutdown_step in Hs. destruct (main s) eqn:Em; try discriminate Hs; split_step Hs;
    (split; [done|by apply same_allowed]).
Qed.
Lemma publisher_stable a s s' : publicationDone_step a s = Some s' -> stable s s'.
Proof.
  intros Hs Hp. unfold publicationDone_step in Hs. destruct (pub s) eqn:Em; try discriminate Hs; split_step Hs;
    (split; [done|by apply same_allowed]).
Qed.

Lemma context_stable s s' : context_step s = Some s' -> stable s s'.
Proof. unfold context_step. case_match; [done|]. intros [= <-] Hp. split; [done|by apply same_allowed]. Qed.
Lemma scheduler_stable s s' : scheduler_step s = Some s' -> stable s s'.
Proof. unfold scheduler_step. case_match; [|done]. intros [= <-] Hp. split; [done|by apply same_allowed]. Qed.

Lemma not_past_fresh s : lifecycle_inv s -> past (main s) = false -> fresh s.
Proof. intros [Hp _ _ _ _ _ _ _ _ _] Hn. unfold phase in Hp. destruct (main s); try discriminate Hn; apply Hp. Qed.
Lemma admission_past s : lifecycle_inv s -> admission s = true -> past (main s) = true /\ allowed s.
Proof.
  intros Hi Ha. split; [|by apply (li_admission _ Hi)].
  destruct (past (main s)) eqn:E; [done|]. destruct (not_past_fresh s Hi E) as (_ & ? & _). congruence.
Qed.

(** * The invariant of the process *)

Section Process.
Context `{Externals} {B : Type} (DefaultPreParamsConfig : PreParamsConfig B).
Variables (disabled : bool) (cfg : SchedulerConfig).

Lemma opens_scheduler r : opens DefaultPreParamsConfig (Ok r) -> exists n, rs_scheduler r = NewScheduler n.
Proof.
  intros (c & key & a & w & s & E). by apply resources_calls in E as (_ & Hn & _).
Qed.

(** The scheduler of the resources, before and after a step; fresh resources bring a new one. *)
Definition scheduler_moves (r r' : option applicationResources) : Prop :=
  match r, r' with
  | Some r, Some r' => rs_scheduler r' = rs_scheduler r \/ sstep cfg (rs_scheduler r) (rs_scheduler r')
  | None, Some r' => exists n, rs_scheduler r' = NewScheduler n
  | None, None => True
  | Some _, None => False
  end.
Definition flags_agree (s : Coordinator) (r : option applicationResources) : Prop :=
  match r with Some r => dkgAdmissionOpen (rs_scheduler r) = admission s | None => admission s = false end.

(** Every session that the scheduler launched has returned, once its loop has ended and
    whenever the scheduler is not running. *)
Definition returned (sch : Scheduler) : Prop := forallb j_done (jobs sch) = true.
Definition sessions_done (on : bool) (sch : Scheduler) : Prop :=
  (loop_ended sch = true -> returned sch) /\ (on = false -> returned sch).
Definition sessions_of (on : bool) (r : option applicationResources) : Prop :=
  match r with Some r => sessions_done on (rs_scheduler r) | None => True end.

Lemma sessions_same on on' sch sch' : loop sch' = loop sch -> jobs sch' = jobs sch -> (on' = false -> on = false) ->
  sessions_done on sch -> sessions_done on' sch'.
Proof. unfold sessions_done, loop_ended, returned. intros -> -> Ho [H1 H2]. auto. Qed.
Lemma sessions_admission on open sch : sessions_done on sch -> sessions_done on (SetDKGAdmissionOpen open sch).
Proof. apply sessions_same; by destruct open. Qed.
Lemma sessions_wake on sch : sessions_done on sch -> sessions_done on (Wake sch).
Proof. by apply sessions_same. Qed.
Lemma sessions_start on sch : sessions_done on sch -> sessions_done true sch.
Proof. by apply sessions_same. Qed.
Lemma sessions_new on n : sessions_done on (NewScheduler n).
Proof. done. Qed.
Lemma sessions_loop ready c found sch sch' : loop_step cfg ready c found sch = Some sch' -> sessions_done true sch'.
Proof.
  intros Hs. split; [|done]. unfold loop_step in Hs. unfold loop_ended, returned.
  repeat (case_match; try discriminate Hs); injection Hs as <-; cbn in *; try done;
    unfold batch_next in *; repeat (case_match; try done).
Qed.
Lemma job_next_done op j j' : job_next op j = Some j' -> j_done j = true -> j_done j' = true.
Proof. destruct j. unfold job_next. destruct op; case_match; try done; by intros [= <-]. Qed.
Lemma sessions_job on op k sch sch' : job_step op k sch = Some sch' -> sessions_done on sch -> sessions_done on sch'.
Proof.
  unfold job_step. intros Hs [H1 H2]. destruct (jobs sch !! k) as [j|] eqn:Ej; [|done]. cbn in Hs.
  destruct (job_next op j) as [j'|] eqn:En; [|done]. cbn in Hs.
  assert (Hl : loop sch' = loop sch /\ jobs sch' = <[k := j']> (jobs sch)) by (destruct op; by injection Hs as <-).
  destruct Hl as [Hl Hj]. assert (Hr : returned sch -> returned sch').
  { unfold returned. rewrite Hj, !forallb_forall. intros Hall x Hx. apply list_elem_of_In, list_elem_of_lookup in Hx as [i Hi].
    apply list_lookup_insert_Some in Hi as [(_ & <- & _)|[_ Hi]].
    - eapply job_next_done; [done|]. apply Hall, list_elem_of_In. by eapply list_elem_of_lookup_2.
    - apply Hall, list_elem_of_In. by eapply list_elem_of_lookup_2. }
  split; [unfold loop_ended; rewrite Hl; intros He; by apply Hr, H1|auto].
Qed.

(** After the capabilities were closed. *)
Definition closed_pc (pc : main_pc) : bool := match pc with MCloseLock _ _ | MDone _ _ => true | _ => false end.
Definition background_of (r : option applicationResources) : nat :=
  match r with Some r => rs_background r | None => 0 end.
(** Before the resources are opened. *)
Definition unopened (pc : main_pc) : bool :=
  match pc with MStart | MAcquireLock | MOpenCapabilities => true | _ => false end.

Record wired (s : Coordinator) (w : wiring) : Prop := {
  wi_coordinator : lifecycle_inv s;
  wi_unopened : unopened (main s) = true -> w_resources w = None;
  wi_caps : co_capabilities s = true -> is_Some (w_resources w);
  wi_publisher : pub s <> PIdle -> is_Some (w_resources w);
  wi_listener : w_listener w = true -> is_Some (w_resources w);
  wi_serving : w_serving w = intake_on s;
  wi_intake : intake_on s = true -> w_listener w = true /\ serving_pc (main s) = true;
  wi_open : closed_pc (main s) = false -> is_Some (w_resources w) -> co_capabilities s = true;
  wi_closed : closed_pc (main s) = true -> background_of (w_resources w) = 0%nat;
  wi_admission : flags_agree s (w_resources w);
  wi_dkg : forall r, w_resources w = Some r -> exists opened, launch_inv cfg opened (rs_scheduler r)
             /\ (opened = true -> past (main s) = true /\ allowed s);
  wi_running : scheduler_on s = true -> (0 < background_of (w_resources w))%nat;
  wi_sessions : sessions_of (scheduler_on s) (w_resources w);
}.

Lemma wired_new : wired NewCoordinator no_wiring.
Proof. split; try apply lifecycle_inv_init; try done; by intros _ [? ?]. Qed.

Lemma wired_step s w s' w' : wired s w -> lifecycle_inv s' -> stable s s' ->
  scheduler_moves (w_resources w) (w_resources w') -> flags_agree s' (w_resources w') -> (unopened (main s') = true -> w_resources w' = None) ->
  (co_capabilities s' = true -> is_Some (w_resources w')) -> (pub s' <> PIdle -> is_Some (w_resources w')) ->
  (w_listener w' = true -> is_Some (w_resources w')) ->
  w_serving w' = intake_on s' -> (intake_on s' = true -> w_listener w' = true /\ serving_pc (main s') = true) ->
  (closed_pc (main s') = false -> is_Some (w_resources w') -> co_capabilities s' = true) ->
  (closed_pc (main s') = true -> background_of (w_resources w') = 0%nat) ->
  (scheduler_on s' = true -> (0 < background_of (w_resources w'))%nat) ->
  sessions_of (scheduler_on s') (w_resources w') ->
  wired s' w'.
Proof.
  intros Hw Hi Hst Hm Hf H0 H1 H2 H3 H4 H5 H6 H7 H8 H9. split; try done. intros r' Hr'. rewrite Hr' in Hm, Hf. cbn in Hf.
  assert (Hopen : admission s' = true -> past (main s') = true /\ allowed s') by (by apply admission_past).
  destruct (w_resources w) as [r|] eqn:Er; cbn in Hm.
  - destruct (wi_dkg _ _ Hw r Er) as (opened & Hl & Ho). destruct Hm as [->|Hm].
    + exists opened. split; [done|]. intros Eo. destruct (Ho Eo) as [Hp Ha]. destruct (Hst Hp). auto.
    + exists (opened || dkgAdmissionOpen (rs_scheduler r')). split; [by apply (launch_step cfg opened (rs_scheduler r))|].
      rewrite Hf. intros [Eo|?]%orb_true_iff; [|auto]. destruct (Ho Eo) as [Hp Ha]. destruct (Hst Hp). auto.
  - destruct Hm as [n ->]. exists false. split; [|done]. split; cbn; try done; constructor.
Qed.

(** ** Steps with calls *)

(** The scheduler after a call. *)
Lemma admission_moves open r : scheduler_moves (Some r) (Some (with_scheduler (SetDKGAdmissionOpen open (rs_scheduler r)) r)).
Proof. right. apply sstep_admission. Qed.
Lemma wake_moves r : scheduler_moves (Some r) (Some (with_scheduler (Wake (rs_scheduler r)) r)).
Proof. right. apply sstep_wake. Qed.

Ltac calls_simpl Hc :=
  unfold then_nothing, then_err, probe_after, says_probes, says_nothing, says_err, dep_AcquireLock, dep_OpenCapabilities,
    dep_StartPublisher, dep_Reconcile, dep_Handoff, dep_SetDKGAdmissionOpen, dep_ProvisioningReady, dep_SigningReady,
    dep_StartScheduler, dep_WakeScheduler, dep_StartIntake, dep_StopIntake, dep_Drain, dep_WaitPublisher, capabilities_Close,
    get_resources, deref, set_resources, set_intake, has_listener, waits, mbind, W_bind, mret, W_ret in Hc;
  cbn [w_resources w_listener w_serving] in Hc.

(** Every branch of the calls. *)
Ltac split_calls Hc :=
  calls_simpl Hc;
  repeat first [discriminate Hc | match type of Hc with context [match ?x with _ => _ end] =>
    lazymatch x with context [match _ with _ => _ end] => fail | _ => destruct x eqn:?; cbn [w_resources w_listener w_serving] in Hc end end].

Lemma resources_Close_idle r e close : resources_Close r e = Some close -> rs_background r = 0%nat.
Proof. unfold resources_Close. destruct (Nat.ltb_spec 0 (rs_background r)); [done|]. lia. Qed.

(** What the main goroutine's position says about the resources. *)
Lemma resources_there s w : wired s w ->
  match main s with
  | MStartPublisher | MReconcile | MFreshPoll | MDispose | MDeferred | MRequired _ | MHandoff _ | MStartScheduler
  | MStartIntake | MSnapshot | MReadConfirmed _ | MConfirmed _ _ | MSetReadiness _ | MMarkStarted | MRunning => is_Some (w_resources w)
  | _ => True
  end.
Proof.
  intros Hw. pose proof (li_phase _ (wi_coordinator _ _ Hw)) as Hp. pose proof (wi_caps _ _ Hw) as Hc.
  unfold phase, running in Hp. destruct (main s); naive_solver.
Qed.

Lemma main_calls_return o s w : wired s w -> main_calls o s w <> Panics.
Proof.
  intros Hw. pose proof (resources_there s w Hw) as Hr. unfold main_calls.
  destruct w as [[r|] lst srv]; cbn [w_resources] in Hr.
  - destruct (main s); intros Hc; split_calls Hc.
  - pose proof (wi_caps _ _ Hw) as Hcap. pose proof (wi_listener _ _ Hw) as Hlst. cbn in Hcap, Hlst.
    destruct (main s); try (destruct Hr; discriminate); intros Hc; split_calls Hc;
      first [destruct Hcap; [done|discriminate] | destruct lst; [destruct Hlst; [done|discriminate]|done]].
Qed.
Lemma publisher_calls_return o s w : wired s w -> publisher_calls o s w <> Panics.
Proof.
  intros Hw. pose proof (wi_publisher _ _ Hw) as Hr. unfold publisher_calls.
  destruct w as [[r|] lst srv]; cbn [w_resources] in Hr.
  - destruct (pub s); intros Hc; split_calls Hc.
  - destruct (pub s); try (destruct Hr; [done|discriminate]); intros Hc; split_calls Hc.
Qed.

Lemma Returns_inj {X} (x x' : X) w w' : Returns x w = Returns x' w' -> x = x' /\ w = w'.
Proof. by intros [= -> ->]. Qed.

(** The clauses of [wired_step], once the new state and variables are explicit. *)
Ltac wired_cases s Hw Hi Hst :=
  apply (wired_step s _ _ _ Hw Hi Hst);
  cbn [w_resources w_listener w_serving scheduler_moves flags_agree background_of sessions_of with_scheduler with_slot startScheduler startBackground
       with_background background_done rs_scheduler]; step_simpl;
  try first
    [ done | by left | by right; apply sstep_admission | by right; apply sstep_wake | by eexists
    | apply sessions_admission | apply sessions_wake | by eapply sessions_start
    | match goal with |- context [SetDKGAdmissionOpen ?b _] => by destruct b end
    | assumption
    | match goal with Hop : _ -> is_Some _ -> ?C |- _ -> _ -> ?C => by intros Hpc _; apply Hop; [|eexists] end ].

Lemma start_wired o a s w s' w' : opens DefaultPreParamsConfig (ou_opened o) -> wired s w ->
  main_calls o s w = Returns a w' -> start_step disabled a s = Some s' -> wired s' w'.
Proof.
  intros Ho Hw Hc Hs. pose proof (start_step_inv _ _ _ _ (wi_coordinator _ _ Hw) Hs) as Hi.
  pose proof (start_stable _ _ _ _ Hs) as Hst. pose proof (resources_there s w Hw) as Hr.
  pose proof (li_phase _ (wi_coordinator _ _ Hw)) as Hp.
  destruct w as [[r|] lst srv]; pose proof Hw as [_ W0 W2 W3 W4 W5 W6 W8 W9 W7 _ W10 W11];
    unfold start_step in Hs; unfold main_calls in Hc; unfold phase in Hp;
    destruct (main s) eqn:Em; try discriminate Hs; cbn [w_resources w_listener w_serving flags_agree background_of sessions_of] in *;
    try (destruct Hr; discriminate); try (specialize (W0 eq_refl); discriminate).
  all: split_calls Hc; apply Returns_inj in Hc as [<- <-];
    cbn [an_err an_reconcile an_signing an_provisioning] in Hs; split_step Hs.
  all: wired_cases s Hw Hi Hst.
  all: try match goal with Hd : disposed ?x _ = _, El : l_result ?x = _ |- _ => unfold disposed in Hd; rewrite El in Hd; congruence end.
  - intros _. cbn. lia.
  - by eapply sessions_start, W11.
  - destruct (opens_scheduler _ Ho) as [n ->]. by eexists.
  - destruct (opens_scheduler _ Ho) as [n ->]. by rewrite W7.
  - intros Hon. specialize (W10 Hon). lia.
  - destruct (opens_scheduler _ Ho) as [n ->]. apply sessions_new.
Qed.

Lemma shutdown_wired o a s w s' w' : wired s w ->
  main_calls o s w = Returns a w' -> shutdown_step a s = Some s' -> wired s' w'.
Proof.
  intros Hw Hc Hs. pose proof (shutdown_step_inv _ _ _ (wi_coordinator _ _ Hw) Hs) as Hi.
  pose proof (shutdown_stable _ _ _ Hs) as Hst. pose proof (resources_there s w Hw) as Hr.
  pose proof (li_phase _ (wi_coordinator _ _ Hw)) as Hp.
  destruct w as [[r|] lst srv]; pose proof Hw as [_ W0 W2 W3 W4 W5 W6 W8 W9 W7 _ W10 W11];
    unfold shutdown_step in Hs; unfold main_calls in Hc; unfold phase in Hp;
    destruct (main s) eqn:Em; try discriminate Hs; cbn [w_resources w_listener w_serving flags_agree background_of sessions_of] in *; try (destruct Hr; discriminate).
  all: split_calls Hc; apply Returns_inj in Hc as [<- <-];
    cbn [an_err an_reconcile an_signing an_provisioning] in Hs; split_step Hs.
  all: wired_cases s Hw Hi Hst.
  - destruct Hp as ((_ & ? & _) & _). congruence.
  - destruct Hp as ((_ & ? & _) & _). congruence.
  - destruct_and? Hp. destruct W6 as [-> _]; done.
  - intros _. by eapply resources_Close_idle.
  - congruence.
  - match goal with E : scheduler_on _ = false |- _ => by rewrite E end.
  - discriminate W8; [done|by eexists].
  - destruct_and? Hp. destruct W6 as [-> _]; [done|]. by destruct W4.
  - intros _. by apply W3.
  - congruence.
Qed.

Lemma publisher_wired o a s w s' w' : wired s w ->
  publisher_calls o s w = Returns a w' -> publicationDone_step a s = Some s' -> wired s' w'.
Proof.
  intros Hw Hc Hs. pose proof (publicationDone_step_inv _ _ _ (wi_coordinator _ _ Hw) Hs) as Hi.
  pose proof (publisher_stable _ _ _ Hs) as Hst.
  destruct w as [[r|] lst srv]; pose proof Hw as [_ W0 W2 W3 W4 W5 W6 W8 W9 W7 _ W10 W11];
    unfold publicationDone_step in Hs; unfold publisher_calls in Hc;
    destruct (pub s) eqn:Em; try discriminate Hs; cbn [w_resources w_listener w_serving flags_agree background_of sessions_of] in *;
    try (destruct W3; done).
  all: split_calls Hc; apply Returns_inj in Hc as [<- <-];
    cbn [an_err an_reconcile an_signing an_provisioning] in Hs; split_step Hs.
  all: wired_cases s Hw Hi Hst.
  all: intros Hu; specialize (W0 Hu); discriminate.
Qed.

(** ** Steps of the resources *)

Lemma wired_resources s lst srv r r' : wired s {| w_resources := Some r; w_listener := lst; w_serving := srv |} ->
  rs_scheduler r' = rs_scheduler r \/ sstep cfg (rs_scheduler r) (rs_scheduler r') ->
  dkgAdmissionOpen (rs_scheduler r') = dkgAdmissionOpen (rs_scheduler r) ->
  (rs_background r' <= rs_background r)%nat -> (scheduler_on s = true -> (0 < rs_background r')%nat) ->
  sessions_done (scheduler_on s) (rs_scheduler r') ->
  wired s {| w_resources := Some r'; w_listener := lst; w_serving := srv |}.
Proof.
  intros Hw Hm Ha Hb Hpos Hs. pose proof Hw as [Hi W0 W2 W3 W4 W5 W6 W8 W9 W7 _ W10 W11]. cbn in *.
  apply (wired_step s _ s _ Hw Hi); cbn; try done; try (intros; by eexists).
  - congruence.
  - intros Hu. specialize (W0 Hu). discriminate.
  - intros Hpc _. apply W8; [done|by eexists].
  - intros Hpc. specialize (W9 Hpc). lia.
Qed.

Lemma loop_step_admission ready c found sch sch' :
  loop_step cfg ready c found sch = Some sch' -> dkgAdmissionOpen sch' = dkgAdmissionOpen sch.
Proof. unfold loop_step. intros Hs. repeat (case_match; try discriminate Hs); by injection Hs as <-. Qed.
Lemma job_step_admission op k sch sch' : job_step op k sch = Some sch' -> dkgAdmissionOpen sch' = dkgAdmissionOpen sch.
Proof.
  unfold job_step. intros Hs. destruct (jobs sch !! k) as [j|]; [|done]. cbn in Hs. destruct (job_next op j); [|done].
  cbn in Hs. destruct op; by injection Hs as <-.
Qed.

Lemma on_scheduler_wired f p p' : wired (pr_coordinator p) (pr_wiring p) -> on_scheduler f p = Some p' ->
  (forall sch sch', f sch = Some sch' -> sstep cfg sch sch' /\ dkgAdmissionOpen sch' = dkgAdmissionOpen sch
     /\ (sessions_done (scheduler_on (pr_coordinator p)) sch -> sessions_done (scheduler_on (pr_coordinator p)) sch')) ->
  wired (pr_coordinator p') (pr_wiring p') /\ pr_coordinator p' = pr_coordinator p /\ pr_panicked p' = pr_panicked p.
Proof.
  destruct p as [s [[r|] lst srv] b]; unfold on_scheduler, on_resources; cbn; [|done]. intros Hw Hs Hf.
  destruct (f (rs_scheduler r)) as [sch|] eqn:Es; [|done]. injection Hs as <-. destruct (Hf _ _ Es) as (? & ? & Hd).
  split_and!; try done. apply (wired_resources s lst srv r); cbn; [done|by right|done|lia| |].
  - apply (wi_running _ _ Hw).
  - apply Hd, (wi_sessions _ _ Hw).
Qed.

(** A background goroutine other than the scheduler's returns. *)
Lemma background_wired s lst srv r : wired s {| w_resources := Some r; w_listener := lst; w_serving := srv |} ->
  (scheduler_goroutine s < rs_background r)%nat ->
  wired s {| w_resources := Some (background_done r); w_listener := lst; w_serving := srv |}.
Proof.
  unfold scheduler_goroutine. intros Hw Hb. apply (wired_resources s lst srv r); cbn; [done|by left|done|lia| |].
  - intros Hon. rewrite Hon in Hb. lia.
  - apply (wi_sessions _ _ Hw).
Qed.

(** The parent context ends. *)
Lemma context_wired s s' w : wired s w -> context_step s = Some s' -> wired s' w.
Proof.
  intros Hw Hs. pose proof (context_step_inv _ _ (wi_coordinator _ _ Hw) Hs) as Hi. pose proof (context_stable _ _ Hs) as Hst.
  pose proof Hw as [_ W0 W2 W3 W4 W5 W6 W8 W9 W7 _ W10 W11].
  unfold context_step in Hs. destruct (ctx_cancelled s); [done|]. injection Hs as <-.
  apply (wired_step s w _ w Hw Hi Hst); step_simpl; try done. destruct (w_resources w); [by left|done].
Qed.

(** The scheduler's goroutine returns: the coordinator's scheduler ends, with every session. *)
Lemma returns_wired s s' lst srv r : wired s {| w_resources := Some r; w_listener := lst; w_serving := srv |} ->
  scheduler_step s = Some s' -> loop_ended (rs_scheduler r) = true ->
  wired s' {| w_resources := Some (background_done r); w_listener := lst; w_serving := srv |}.
Proof.
  intros Hw Hs He. pose proof (scheduler_step_inv _ _ (wi_coordinator _ _ Hw) Hs) as Hi.
  pose proof (scheduler_stable _ _ Hs) as Hst. pose proof Hw as [_ W0 W2 W3 W4 W5 W6 W8 W9 W7 _ W10 [W11 _]].
  unfold scheduler_step in Hs. destruct (ctx_cancelled s && scheduler_on s); [|done]. injection Hs as <-.
  apply (wired_step s _ _ _ Hw Hi Hst); cbn in *; step_simpl; try done; try (intros; by eexists).
  - by left.
  - intros Hu. specialize (W0 Hu). discriminate.
  - intros Hpc _. apply W8; [done|by eexists].
  - intros Hpc. by rewrite (W9 Hpc).
  - split; intros _; by apply W11.
Qed.

Definition process_inv (p : process) : Prop :=
  lifecycle_reachable disabled (pr_coordinator p) /\ wired (pr_coordinator p) (pr_wiring p) /\ pr_panicked p = false.

(** A step of the coordinator with its calls. *)
Lemma with_calls_inv calls move p p' : process_inv p -> with_calls calls move p = Some p' ->
  calls (pr_wiring p) <> Panics ->
  (forall a w s', calls (pr_wiring p) = Returns a w -> move a (pr_coordinator p) = Some s' ->
     lifecycle_step disabled (pr_coordinator p) s' /\ wired s' w) ->
  process_inv p'.
Proof.
  intros (Hr & Hw & _) Hs Hnp Hstep. unfold with_calls in Hs. destruct (calls (pr_wiring p)) as [a w| |] eqn:Ec; [|done|done].
  destruct (move a (pr_coordinator p)) as [s'|] eqn:Em; [|done]. cbn in Hs. injection Hs as <-.
  destruct (Hstep a w s' eq_refl Em). split_and!; try done. by eapply lifecycle_reachable_step.
Qed.

(** A step of the scheduler leaves the coordinator alone. *)
Lemma scheduler_inv f p p' : process_inv p -> on_scheduler f p = Some p' ->
  (forall sch sch', f sch = Some sch' -> sstep cfg sch sch' /\ dkgAdmissionOpen sch' = dkgAdmissionOpen sch
     /\ (sessions_done (scheduler_on (pr_coordinator p)) sch -> sessions_done (scheduler_on (pr_coordinator p)) sch')) ->
  process_inv p'.
Proof.
  intros (Hr & Hw & Hpan) Hs Hf. apply on_scheduler_wired in Hs as (? & E1 & E2); [|done|done].
  split_and!; [by rewrite E1|done|by rewrite E2].
Qed.

Lemma process_step_inv m p p' : possible DefaultPreParamsConfig m -> process_inv p -> process_step disabled cfg m p = Some p' -> process_inv p'.
Proof.
  intros Hm Hi Hs. pose proof Hi as (Hr & Hw & Hpan). unfold process_step in Hs. rewrite Hpan in Hs.
  destruct m as [o|o|o| |ready c found|op k| | |].
  - eapply with_calls_inv; [done|done|by apply main_calls_return|]. intros a w s' Hc Hst.
    split; [by eapply step_start|by eapply start_wired].
  - eapply with_calls_inv; [done|done|by apply main_calls_return|]. intros a w s' Hc Hst.
    split; [by eapply step_shutdown|by eapply shutdown_wired].
  - eapply with_calls_inv; [done|done|by apply publisher_calls_return|]. intros a w s' Hc Hst.
    split; [by eapply step_publisher|by eapply publisher_wired].
  - destruct (context_step _) as [s'|] eqn:E; [|done]. injection Hs as <-. split_and!; [|by eapply context_wired|done].
    eapply lifecycle_reachable_step; [done|by apply step_context].
  - destruct (scheduler_on (pr_coordinator p)) eqn:Eon; [|done]. eapply scheduler_inv; [done|done|].
    intros sch sch' E. rewrite Eon.
    split_and!; [by eapply sstep_loop|by eapply loop_step_admission|intros _; by eapply sessions_loop].
  - eapply scheduler_inv; [done|done|]. intros sch sch' E.
    split_and!; [by eapply sstep_job|by eapply job_step_admission|by eapply sessions_job].
  - destruct (ctx_cancelled (pr_coordinator p)); [|done]. eapply scheduler_inv; [done|done|].
    intros sch sch' [= <-]. split_and!; [apply sstep_cancel|done|by apply sessions_same].
  - destruct p as [s [[r|] lst srv] b]; [|done]. unfold scheduler_returns, on_resources in Hs. cbn in Hs, Hw.
    destruct (loop_ended (rs_scheduler r)) eqn:El; [|done]. cbn in Hs.
    destruct (scheduler_step s) as [s'|] eqn:Es; [|done]. injection Hs as <-.
    split_and!; [|by eapply returns_wired|done]. eapply lifecycle_reachable_step; [done|by apply step_scheduler].
  - destruct p as [s [[r|] lst srv] b]; [|done]. unfold on_resources in Hs. cbn [pr_wiring pr_coordinator w_resources] in Hs.
    destruct (scheduler_goroutine s <? rs_background r)%nat eqn:El; cbn [mbind option_bind] in Hs; rewrite El in Hs; cbn in Hs, Hw; [|done].
    injection Hs as <-. split_and!; [done|apply background_wired; [done|by apply Nat.ltb_lt]|done].
Qed.

Lemma process_inv_reachable p : process_reachable DefaultPreParamsConfig disabled cfg p -> process_inv p.
Proof.
  induction 1 as [|m p p' _ IH Hm Hs]; [|by eapply process_step_inv].
  split_and!; [apply rtc_refl|apply wired_new|done].
Qed.

(** * The promises of the process *)

(** (C40) The closures fit the lifecycle.  In every interleaving of startup, shutdown, the
    publisher, the scheduler and the background goroutines: no closure dereferences
    resources that were not opened; the scheduler's admission flag is the coordinator's; a
    DKG session is launched only after reconciliation found the process eligible, or after
    the publication it required was confirmed; the health server accepts connections only
    while the lifetime lock and the capabilities are held; and a process that has ended, or
    failed to start, serves nothing, holds no lock and has no background goroutine left.
    While the lock is not held, no background goroutine runs and every session that the
    scheduler launched has returned. *)
Theorem process_safe p : process_reachable DefaultPreParamsConfig disabled cfg p ->
  pr_panicked p = false
  /\ (forall r, w_resources (pr_wiring p) = Some r ->
        dkgAdmissionOpen (rs_scheduler r) = admission (pr_coordinator p)
        /\ (dkg_batches (rs_scheduler r) <> [] ->
             decided (pr_coordinator p) DispositionEligible
             \/ decided (pr_coordinator p) DispositionTerminalPublicationRequired /\ co_confirmed (pr_coordinator p) = true))
  /\ (w_serving (pr_wiring p) = true -> co_lock (pr_coordinator p) = true /\ co_capabilities (pr_coordinator p) = true)
  /\ (forall startErr errs, main (pr_coordinator p) = MDone startErr errs ->
        w_serving (pr_wiring p) = false /\ co_lock (pr_coordinator p) = false
        /\ background_of (w_resources (pr_wiring p)) = 0%nat)
  /\ (co_lock (pr_coordinator p) = false ->
        background_of (w_resources (pr_wiring p)) = 0%nat
        /\ forall r, w_resources (pr_wiring p) = Some r -> forallb j_done (jobs (rs_scheduler r)) = true).
Proof.
  intros Hp. apply process_inv_reachable in Hp as (_ & Hw & Hpan).
  pose proof Hw as [Hi _ _ _ _ Hsrv Hin Hop Hcl Hadm Hdkg _ Hses]. split_and!; [done|..].
  - intros r Hr. unfold flags_agree in Hadm. rewrite Hr in Hadm. split; [done|]. intros Hne.
    destruct (Hdkg r Hr) as ([] & Hl & Ho).
    + destruct (Ho eq_refl) as [_ [?|Hc]]; [by left|]. right. split; [by apply (li_confirmed _ Hi)|done].
    + by destruct (SchedulerProofs.li_admission _ _ _ Hl eq_refl) as (_ & ? & _).
  - rewrite Hsrv. intros Hon. destruct (Hin Hon) as [_ Hpc]. pose proof (li_phase _ Hi) as Hph. unfold phase, running in Hph.
    destruct (main (pr_coordinator p)) as [| | | | | | | | | | | | | | | | | | |[e|]| | | | | | |]; try discriminate Hpc; naive_solver.
  - intros e errs Em. rewrite Em in Hin, Hcl. pose proof (li_phase _ Hi) as Hph. unfold phase in Hph. rewrite Em in Hph.
    split_and!; [|naive_solver|by apply Hcl]. rewrite Hsrv. destruct (intake_on (pr_coordinator p)); [|done].
    by destruct (Hin eq_refl).
  - intros Hlock. destruct (unlocked _ (li_phase _ Hi) Hlock) as [_ Hcap]. split.
    + destruct (closed_pc (main (pr_coordinator p))) eqn:Epc; [by apply Hcl|].
      destruct (w_resources (pr_wiring p)); [|done]. rewrite Hop in Hcap; [done|done|by eexists].
    + intros r Hr. rewrite Hr in Hses. apply (proj2 Hses).
      destruct (scheduler_on (pr_coordinator p)) eqn:Eon; [|done].
      destruct (li_scheduler _ Hi Eon). congruence.
Qed.
End Process.

(** * A concrete run *)

Lemma fixture_opens w : opens fixture_pool (fixture_open w).1.
Proof.
  unfold opens. destruct (fixture_open w) as [[r|e] s] eqn:E; [|done].
  exists ConfigProofs.fixture_config, fixture_key, fixture_answers, w, s. exact E.
Qed.

(** Everything answers well; reconciliation finds the process eligible. *)
Definition fixture_outside : outside := {|
  ou_lock := None; ou_opened := (fixture_open full_world).1; ou_ctx := None; ou_slot := None;
  ou_reconcile := Ok (eligible ""); ou_signing := true; ou_provisioning := true; ou_listen := None;
  ou_shutdown := None; ou_drain := None; ou_publish := None; ou_close := None; ou_unlock := None |}.
(** [Start] to the running process, one DKG from the listing to its launch, and the shutdown:
    it cancels the context, the session and the scheduler return, then the two other
    background goroutines, and the resources close. *)
Definition fixture_start : list pmove := replicate 11 (PStart fixture_outside).
Definition fixture_batch : list pmove :=
  PLoop true ByTimer None :: PLoop true ByTimer (Some [named_intent "DKG" "intent-1"])
  :: replicate 5 (PLoop true ByTimer None).
Definition fixture_return : list pmove :=
  PCancel :: ((fun op => PJob op 0) <$> [JNotify; JGeneral; JGuard; JWake; JUnreserve; JDone])
  ++ [PLoop true ByChannel None; PLoop true ByTimer None; PLoop true ByContext None; PLoop true ByTimer None;
      PReturn; PBackground; PBackground].
Definition fixture_end : list pmove :=
  (replicate 4 (PShutdown fixture_outside) ++ fixture_return ++ replicate 4 (PShutdown fixture_outside))%list.

Lemma process_run_reachable `{Externals} {B} (D : PreParamsConfig B) disabled cfg ms p p' :
  Forall (possible D) ms -> process_reachable D disabled cfg p -> process_run disabled cfg ms p = Some p' ->
  process_reachable D disabled cfg p'.
Proof.
  intros Hms. revert p. induction Hms as [|m ms Hm _ IH]; intros p Hp; cbn; [by intros [= <-]|].
  destruct (process_step disabled cfg m p) as [p1|] eqn:E; [|done]. cbn. apply IH. by eapply process_moves.
Qed.
Lemma fixture_possible : Forall (possible fixture_pool) (fixture_start ++ fixture_batch ++ fixture_end)%list.
Proof.
  apply Forall_app. split; [apply Forall_replicate, fixture_opens|]. apply Forall_app. split.
  - apply Forall_cons. split; [exact I|]. apply Forall_cons. split; [exact I|]. apply Forall_replicate. exact I.
  - apply Forall_app. split; [apply Forall_replicate, fixture_opens|].
    apply Forall_app. split; [by repeat apply Forall_cons_2|apply Forall_replicate, fixture_opens].
Qed.

Definition fixture_run : option process :=
  process_run false SchedulerProofs.fixture_config (fixture_start ++ fixture_batch ++ fixture_end)%list new_process.
(** The run ends, one DKG was launched, and its scheduler is closed to more. *)
Definition fixture_ended (p : process) : bool :=
  match main (pr_coordinator p), w_resources (pr_wiring p) with
  | MDone None [], Some r => (0 <? List.length (dkg_batches (rs_scheduler r)))%nat && negb (dkgAdmissionOpen (rs_scheduler r))
  | _, _ => false
  end.

Lemma process_safe_witness : exists p, fixture_run = Some p /\ fixture_ended p = true
  /\ decided (pr_coordinator p) DispositionEligible /\ w_serving (pr_wiring p) = false
  /\ background_of (w_resources (pr_wiring p)) = 0%nat.
Proof.
  assert (Hs : match fixture_run with Some p => fixture_ended p && negb (co_confirmed (pr_coordinator p)) | None => false end = true)
    by (vm_compute; reflexivity).
  destruct fixture_run as [p|] eqn:E; [|discriminate Hs]. unfold fixture_run in E. apply andb_true_iff in Hs as [He Hc].
  exists p. split; [reflexivity|split; [exact He|]].
  destruct (process_safe fixture_pool false SchedulerProofs.fixture_config p
              (process_run_reachable fixture_pool _ _ _ _ p fixture_possible (process_new _ _ _) E)) as (_ & Hdkg & _ & Hend & _).
  unfold fixture_ended in He. destruct (main (pr_coordinator p)) as [| | | | | | | | | | | | | | | | | | | | | | | | | |[e|] [|e' errs]] eqn:Em;
    try discriminate He.
  destruct (w_resources (pr_wiring p)) as [r|] eqn:Er; [|discriminate He]. apply andb_true_iff in He as [Hl _].
  destruct (Hend None [] eq_refl) as (Hsrv & _ & Hb). split; [|split; [exact Hsrv|exact Hb]].
  destruct (Hdkg r eq_refl) as [_ [Hd|[_ Hd]]]; [|exact Hd|].
  - intros Hn. rewrite Hn in Hl. discriminate Hl.
  - rewrite Hd in Hc. discriminate Hc.
Defined.
